(* ===== verification/_CoqProject ===== *)
-Q . S2P
Prelude.v
Effect.v
Text.v
Addr.v
Checksum.v
Packet.v
Frame.v
FrameSpec.v
LinearMap.v
UniqueList.v
Mac.v
Arena.v
StreamBuffer.v
Reassembly.v
ReassemblySpec.v
Http.v
Framing.v
FramingSpec.v
Counters.v
Names.v
Interface.v
Kernel.v
Multicast.v
InterfaceTable.v
Lifecycle.v
Value.v
Ssdp.v
Wsd.v
Mdns.v
DnsMessage.v
MdnsFilters.v
DnsSpec.v
DnsTrim.v
MdnsFiltersSpec.v
ConfigError.v
Conflict.v
Config.v
ConfigSpec.v
Datagram.v
Egress.v
Filter.v
PacketWf.v
EgressSpec.v
Reactor.v
ReactorSpec.v
Tcp.v
Rtnetlink.v
IfaceMonitor.v
Getifaddrs.v
AfPacket.v
BpfCapture.v
DialRegistry.v
DialRegistrySpec.v
DialConnection.v
DialConnectionSpec.v
DialConnectionInv.v
DialSplice.v
DialProxy.v
DialProxySpec.v
Reflector.v
Dispatcher.v
Handlers.v
TableTyped.v
ReassemblyTyped.v
DispatchInv.v
HandlersSpec.v
SearchSpec.v
Routing.v
RoutingSpec.v
Env.v
ConfigLoad.v
Privileges.v
Cli.v
Build.v
Startup.v
Logging.v
Sys.v
Poll.v
Signal.v
