(* ===== verification/Prelude.v ===== *)
(** * netflector: a verification development

    netflector ([src/src/], Rust) is a single-threaded daemon that reflects link-local discovery
    traffic (mDNS, SSDP with DIAL, WS-Discovery, Wake-on-LAN, chosen UDP ports) between network
    interfaces. It reads raw frames from packet captures, parses and reassembles them, hands each
    datagram to the reflectors whose filters match, and injects what they re-emit as raw frames; it
    also proxies the HTTP of DIAL devices over TCP. This library models it, and proves what makes it
    correct. Paths below are relative to [src/src/].

    ** How the parts interact

    [Startup] loads the configuration ([Env], [Config]), opens the captures, wires every entry as
    handlers registered with the dispatcher ([Build]) and drops root ([Privileges]). The reactor
    ([Reactor], over [Poll] and [Signal]) then calls the dispatcher ([Routing]): when a capture is
    readable its frames are drained, parsed ([Packet]), reassembled ([Reassembly]) and routed to the
    handlers ([Handlers]), which filter and rewrite payloads ([MdnsFilters], [Ssdp], [Wsd],
    [DialRegistry]) and send through the egress ([Egress], [Datagram], [Frame]); when the interface
    monitor is readable or a deadline is due, the interface table ([InterfaceTable], [Lifecycle],
    [Multicast]) is brought in line with the system's. A DIAL proxy ([DialProxy]) is a handler of the
    reactor of its own, whose connections ([DialConnection]) splice two TCP streams through the
    HTTP framer ([Framing]).

    ** Which file models what

    - [Prelude], [Effect], [Text], [Addr]: the result type [res] with explicit panics, lists, octets and
      big-endian integers; the state-and-error monad [M] and its run rules; std's text and addresses
      with the constants of [net.rs].
    - Containers: [LinearMap] (linear_map.rs), [UniqueList] (unique_list.rs), [StreamBuffer]
      (net/stream_buffer.rs), [Arena] (reactor/arena.rs).
    - Wire formats: [Packet] and [PacketWf] (net/packet.rs), [Checksum], [Frame] and [FrameSpec]
      (net/checksum.rs, net/frame.rs), [Mac], [Names], [Ssdp], [Wsd], [Mdns], [Http]
      (net/ of those names), [DnsMessage], [DnsSpec], [DnsTrim] (net/mdns/message.rs),
      [MdnsFilters] and its Spec (net/mdns/services.rs and addresses.rs), [Framing] and its Spec
      (net/http/framing.rs).
    - Configuration: [Value], [ConfigError], [Conflict], [Env], [Config] with [ConfigSpec], and
      [ConfigLoad] (config.rs and config/).
    - Interfaces: [Interface], [Rtnetlink], [Getifaddrs], [IfaceMonitor] (interface.rs, interface/),
      [Multicast], [InterfaceTable], [Lifecycle], [TableTyped] (dispatch/ of those names).
    - Captures: [Filter], [AfPacket], [BpfCapture] (capture/).
    - Dispatch: [Reassembly] with [ReassemblySpec] and [ReassemblyTyped], [Counters], [Datagram],
      [Egress] with [EgressSpec] (dispatch/), [Dispatcher] and [Routing] (dispatch.rs), the invariant
      [DispatchInv], and [RoutingSpec].
    - Reflectors: [Reflector], [Handlers], [HandlersSpec], [SearchSpec] (reflector.rs, simple.rs,
      search.rs and the protocols'), [Build] (their [build] functions).
    - DIAL: [DialRegistry] (dispatch/dial_context.rs, reflector/dial/rewrite.rs), [DialConnection] with
      its Spec and Inv and [DialSplice] (dial/connection.rs), [DialProxy] and [DialProxySpec]
      (dial/proxy.rs), [Tcp] (net/tcp.rs, dial/egress.rs).
    - Reactor: [Reactor], [ReactorSpec] (reactor.rs), [Poll] (reactor/poll/),
      [Signal] (reactor/signal.rs).
    - Process: [Cli], [Privileges], [Startup] (cli.rs, privileges.rs, privileges/caps.rs, lib.rs,
      error.rs), [Logging] (logging.rs, memory_report.rs), [Sys] (sys.rs, net/port_reservation.rs,
      net/route_query.rs). What a file without a Spec beside it defines, its second half proves about.

    A record is a Rust struct, an inductive type an enum or the trait objects of a closed set, a
    definition one function, under the function's name where Rocq allows it.

    ** How effects, panics and integers are modelled

    - A function that can panic returns [res]: [Ok], [Err] or [Panic]; every [expect], index, slice,
      [copy_from_slice] and checked conversion is a [Panic] where it fails. [Infallible] is the error of
      a function without one. Debug assertions are compiled out; u16 and u32 arithmetic wraps (the
      release profile).
    - Wire values and machine integers are [Z], lengths and offsets (usize, 64 bits) [nat], bytes lists
      of [Z] under [byte_ok]; an [Instant] is its nanoseconds. [dispatch_ok] and the [_typed] records
      say that values stay within their Rust types.
    - What the program asks of the system is an interface with a threaded state of the environment:
      [Kernel], [Sockets], [Poller], [Monitor], [Process], [NetlinkSockets], [SysCalls], [Epoll],
      [Kqueue], [SignalCalls] and the others beside the code that calls them. Theorems hold for every
      instance; where one relies on documented behaviour it is a named record of laws ([kernel_typed],
      [classic_bpf], [posix], [epoll_laws], [pipe_laws], ...) which a witness instantiates. libc's
      constants and structure layouts are parameters ([LibcConsts], [NetlinkAbi], ...).
    - [Poller], [Tcp], [ProxyHandler], [Adopt] and [Handler] are also the interfaces between components:
      the dispatcher and the reactor are proved against them, [Poll], [Tcp] and [DialProxy] implement
      them. Capture back ends implement the capture calls of [Kernel]; the implementation of
      [resolve] is [Getifaddrs] and [Rtnetlink], that of the monitor's drain [IfaceMonitor].
    - Maps by vector keep their order; the configuration's BTreeMaps are [gmap]s iterated in key order. A
      Vec used as a stack has its end first. Buffers returned to their owner are passed by value.

    ** What the theorems show

    - No panic and termination: the daemon from its set-up on ([daemon_never_panics]), the dispatcher
      under every sequence of calls ([dispatcher_never_panics]), the parsers, the framer
      ([feed_total]), the DNS walk, the resolution over netlink ([resolve_always_ends]). Only an index
      space of 2^32 used up ([full]) is left to a panic.
    - Round trips: frames built parse back, fragments in any order reassemble, a BPF batch reads back.
    - Exactness: filters pass exactly UDP, configurations are accepted exactly when valid and free of
      conflicts (queries, which no MAC filter judges, being outside the rule), environment variables mean exactly what they name, DNS messages lose exactly what a
      filter refuses, a log stamp is the calendar's date.
    - Invariants over every run: memory bounded in reassembly and the DIAL registry, search sessions
      hold exactly their ports and registrations, a DIAL proxy watches exactly its sockets, a datagram
      leaves an egress once per packet, stale arena keys reach nothing.
    - Refinements: the stream buffer is a bounded queue, the splice hands on exactly what the framer
      makes of each stream, epoll and kqueue keep the reactor's interest.
    - Safety of the edges: no capture delivers unfiltered frames, ambiguous HTTP is never forwarded,
      root never comes back, no signal is lost.

    ** Fuel and bounds

    Loops whose recursion is not structural take fuel, and running out of it is [Panic] (or [None] in
    the name walk), so each theorem against panics shows the fuel is enough: walks over a buffer use
    its length plus one, the DNS walk also its budget, drains the 64 frames of the code's own bound
    and the batch its capture holds, which each frame taken shortens,
    the framer the length fed, an account lookup [LOOKUP_TURNS], the eleven doublings from 1 KiB to
    1 MiB. The dump of netlink and the routing query end since the clock moves on with each call:
    their fuel exceeds the deadline in nanoseconds.

    ** Not modelled

    Log lines and what only feeds them; the text of errors; the [Display] of third-party errors; the
    TOML reader with the serde derives it drives (a parameter that refuses the file's text or gives the
    keys of the schema, from which the [Deserialize] of the program's own types go on in [Config]); the
    logging facade, [syslog] and the current memory figure; [main]; test support. Descriptors close
    with their owners. What the program has changed when it exits on an error, and the framer of a
    connection that closes on one, are not kept. In [Startup] the dispatcher's own registration in
    the reactor and the MTU log line are left out. The digest of [DefaultHasher] is a parameter ([Host]). *)

From stdpp Require Export prelude strings.
From Stdlib Require Export ZifyBool ZifyNat.

Set Default Proof Using "Type".

(** ** Fallible code

    A Rust function that returns [Result<A, E>] and may also panic (an index
    out of range, a failed [expect], a failed [assert!]) is a value of
    [res E A].  A function that cannot fail but may panic is polymorphic in
    [E]. *)
Inductive res (E A : Type) : Type :=
  | Ok (a : A)
  | Err (e : E)
  | Panic.
(** The error of what has none, [core::convert::Infallible]. *)
Inductive Infallible : Set := .

Arguments Ok {E A} a.
Arguments Err {E A} e.
Arguments Panic {E A}.

Global Instance res_ret E : MRet (res E) := fun A a => Ok a.
Global Instance res_bind E : MBind (res E) := fun A B f m =>
  match m with Ok a => f a | Err e => Err e | Panic => Panic end.
Global Instance res_fmap E : FMap (res E) := fun A B f m =>
  match m with Ok a => Ok (f a) | Err e => Err e | Panic => Panic end.

Global Instance res_eq_dec {E A} `{EqDecision E, EqDecision A} : EqDecision (res E A).
Proof. solve_decision. Defined.

(** [Option::ok_or] *)
Definition ok_or {E A} (o : option A) (e : E) : res E A :=
  match o with Some a => Ok a | None => Err e end.

(** [Option::expect] / [Option::unwrap] *)
Definition expect {E A} (o : option A) : res E A :=
  match o with Some a => Ok a | None => Panic end.

(** [Result::map_err] *)
Definition map_err {E E' A} (f : E -> E') (r : res E A) : res E' A :=
  match r with Ok a => Ok a | Err e => Err (f e) | Panic => Panic end.

(** [Result::ok] *)
Definition ok {E A} (r : res E A) : option A :=
  match r with Ok a => Some a | _ => None end.

(** The caller of a function that cannot return [Err]. *)
Definition safe {E A} (r : res E A) : Prop := r ≠ Panic.

(** Sequencing after a success; used by rewriting where unfolding the bind
    would make the kernel compare two unrelated continuations. *)
Lemma bind_ret {E A B} (f : A -> res E B) a : Ok a ≫= f = f a.
Proof. done. Qed.

Lemma bind_Ok {E A B} (f : A -> res E B) m b :
  m ≫= f = Ok b <-> exists a, m = Ok a /\ f a = Ok b.
Proof. destruct m; cbn; naive_solver. Qed.

Lemma bind_safe {E A B} (f : A -> res E B) m :
  safe m -> (forall a, m = Ok a -> safe (f a)) -> safe (m ≫= f).
Proof. unfold safe; destruct m; cbn; naive_solver. Qed.

Lemma safe_Ok {E A} (a : A) : safe (E:=E) (Ok a).
Proof. done. Qed.
Lemma safe_Err {E A} (e : E) : safe (A:=A) (Err e).
Proof. done. Qed.
Lemma safe_ok_or {E A} (o : option A) (e : E) : safe (ok_or o e).
Proof. by destruct o. Qed.

Lemma ok_or_Ok {E A} (o : option A) (e : E) a : ok_or o e = Ok a <-> o = Some a.
Proof. destruct o; cbn; naive_solver. Qed.
Lemma expect_Ok {E A} (o : option A) a : expect (E:=E) o = Ok a <-> o = Some a.
Proof. destruct o; cbn; naive_solver. Qed.
Lemma map_err_Ok {E E' A} (f : E -> E') (r : res E A) a :
  map_err f r = Ok a <-> r = Ok a.
Proof. destruct r; cbn; naive_solver. Qed.

Create HintDb nf discriminated.
#[export] Hint Resolve safe_Ok safe_Err safe_ok_or : nf.

(** Invert every [_ ≫= _ = Ok _] and [_ ≫= _ = Some _] hypothesis. *)
Ltac inv_res :=
  repeat match goal with
  | H : _ ≫= _ = Ok _ |- _ => apply bind_Ok in H as (? & ? & ?)
  | H : _ ≫= _ = Some _ |- _ => apply bind_Some in H as (? & ? & ?)
  | H : ok_or _ _ = Ok _ |- _ => apply ok_or_Ok in H
  | H : expect _ = Ok _ |- _ => apply expect_Ok in H
  | H : map_err _ _ = Ok _ |- _ => apply map_err_Ok in H
  | H : Ok _ = Ok _ |- _ => injection H; clear H; intros; subst
  | H : Some _ = Some _ |- _ => injection H; clear H; intros; subst
  | H : Ok _ = Err _ |- _ => discriminate H
  | H : Err _ = Ok _ |- _ => discriminate H
  | H : Panic = Ok _ |- _ => discriminate H
  | H : None = Some _ |- _ => discriminate H
  | H : mret _ = Ok _ |- _ => unfold mret, res_ret in H
  end.

(** Split every pair in the context. *)
Ltac split_pairs := repeat match goal with p : _ * _ |- _ => destruct p end; cbv beta iota in *.

(** ** Slices

    Rust slices are lists.  The checked accessors ([get], [split_at_checked])
    return [option]; the indexing forms panic. *)
Abbreviation bytes := (list Z).

Section slices.
Context {A : Type}.
Implicit Types l : list A.

(** [l.get(a..b)] *)
Definition get_range (a b : nat) l : option (list A) :=
  if decide (a <= b /\ b <= length l) then Some (take (b - a) (drop a l)) else None.

(** [l.get(a..)] *)
Definition get_from (a : nat) l : option (list A) :=
  if decide (a <= length l) then Some (drop a l) else None.

(** [l.split_at_checked(n)], [l.split_first_chunk::<N>()] *)
Definition split_at_checked (n : nat) l : option (list A * list A) :=
  if decide (n <= length l) then Some (take n l, drop n l) else None.

(** [l[i]] *)
Definition idx {E} (l : list A) (i : nat) : res E A := expect (l !! i).

(** [l[a..b]] *)
Definition range {E} (l : list A) (a b : nat) : res E (list A) := expect (get_range a b l).

(** [l[a..]] *)
Definition range_from {E} (l : list A) (a : nat) : res E (list A) := expect (get_from a l).

(** [l[i] = x] *)
Definition set_at {E} (l : list A) (i : nat) (x : A) : res E (list A) :=
  if decide (i < length l) then Ok (<[i := x]> l) else Panic.

(** [l[a..b].copy_from_slice(data)]: the range must exist and the lengths agree. *)
Definition copy_at {E} (l : list A) (a b : nat) (data : list A) : res E (list A) :=
  if decide (a <= b /\ b <= length l /\ length data = b - a)
  then Ok (take a l ++ data ++ drop b l) else Panic.

(** [iter().position(p)] *)
Fixpoint position (p : A -> bool) l : option nat :=
  match l with
  | [] => None
  | x :: l' => if p x then Some 0 else S <$> position p l'
  end.

(** [iter().rposition(p)] *)
Definition rposition (p : A -> bool) l : option nat :=
  (fun i => length l - 1 - i) <$> position p (reverse l).

(** [starts_with] / [strip_prefix] under an element test *)
Fixpoint strip_prefix_by (eqb : A -> A -> bool) (prefix l : list A) : option (list A) :=
  match prefix, l with
  | [], _ => Some l
  | p :: ps, x :: xs => if eqb p x then strip_prefix_by eqb ps xs else None
  | _ :: _, [] => None
  end.

(** [split(p)]: the runs between the elements [p] accepts, never empty. *)
Fixpoint split_on (p : A -> bool) l : list (list A) :=
  match l with
  | [] => [[]]
  | x :: l' =>
      if p x then [] :: split_on p l'
      else match split_on p l' with
           | [] => [[x]]
           | run :: runs => (x :: run) :: runs
           end
  end.

Lemma get_range_Some a b l s :
  get_range a b l = Some s <-> a <= b /\ b <= length l /\ s = take (b - a) (drop a l).
Proof. unfold get_range. case_decide; naive_solver. Qed.

Lemma get_range_length a b l s : get_range a b l = Some s -> length s = b - a.
Proof.
  intros (?&?&->)%get_range_Some. rewrite length_take, length_drop. lia.
Qed.

Lemma get_range_is_Some a b l :
  a <= b -> b <= length l -> get_range a b l = Some (take (b - a) (drop a l)).
Proof. intros. by apply get_range_Some. Qed.

Lemma range_ok {E} a b l :
  a <= b -> b <= length l -> range (E:=E) l a b = Ok (take (b - a) (drop a l)).
Proof. intros. unfold range. by rewrite get_range_is_Some. Qed.

Lemma safe_range {E} a b l : a <= b -> b <= length l -> safe (range (E:=E) l a b).
Proof. intros. by rewrite range_ok. Qed.

Lemma safe_range_from {E} a l : a <= length l -> safe (range_from (E:=E) l a).
Proof. intros. unfold range_from, get_from. by rewrite decide_True. Qed.

Lemma safe_idx {E} l i : i < length l -> safe (idx (E:=E) l i).
Proof. intros [x Hx]%lookup_lt_is_Some. unfold idx. by rewrite Hx. Qed.

Lemma set_at_ok {E} l i x : i < length l -> set_at (E:=E) l i x = Ok (<[i:=x]> l).
Proof. intros. unfold set_at. by rewrite decide_True. Qed.

Lemma copy_at_ok {E} l a b data :
  a <= b -> b <= length l -> length data = b - a ->
  copy_at (E:=E) l a b data = Ok (take a l ++ data ++ drop b l).
Proof. intros. unfold copy_at. by rewrite decide_True. Qed.

Lemma position_Some p l i :
  position p l = Some i ->
  exists x, l !! i = Some x /\ p x = true /\
            forall j y, j < i -> l !! j = Some y -> p y = false.
Proof.
  revert i. induction l as [|x l IH]; intros i Hi; [done|]. cbn in Hi.
  destruct (p x) eqn:Hp.
  - injection Hi as <-. exists x. split_and!; [done|done|lia].
  - destruct (position p l) as [k|] eqn:Hk; [|done]. injection Hi as <-.
    destruct (IH k eq_refl) as (y&Hy&Hpy&Hlt). exists y. split_and!; [done|done|].
    intros [|j] z Hj Hz; cbn in Hz; [congruence|]. eapply Hlt; [|done]. lia.
Qed.

Lemma position_lt p l i : position p l = Some i -> i < length l.
Proof. intros (x&?&_)%position_Some. by eapply lookup_lt_Some. Qed.

Lemma position_None p l : position p l = None <-> Forall (fun x => p x = false) l.
Proof.
  induction l as [|x l IH]; cbn; [by split; [constructor|]|].
  rewrite Forall_cons. destruct (p x) eqn:Hp.
  - split; [done|]. by intros [? ?].
  - rewrite <- IH. destruct (position p l); cbn; naive_solver.
Qed.

Lemma split_on_ne p l : split_on p l <> [].
Proof. induction l as [|x l IH]; cbn; [done|]. destruct (p x); [done|]. by destruct (split_on p l). Qed.
End slices.

(** ** Bytes and fixed-width integers

    A [u8] is a [Z] in range; a [u16], [u32] or [u64] likewise. *)
Definition byte_ok (b : Z) : Prop := (0 <= b < 256)%Z.
Global Instance byte_ok_dec b : Decision (byte_ok b).
Proof. unfold byte_ok. apply _. Defined.
Definition word_ok (bits : Z) (z : Z) : Prop := (0 <= z < 2 ^ bits)%Z.
Abbreviation bytes_ok := (Forall byte_ok).

Section big_endian.
Local Open Scope Z_scope.

(** [z.to_be_bytes()] of an [n]-byte integer *)
Fixpoint be (n : nat) (z : Z) : bytes :=
  match n with
  | O => []
  | S m => Z.land (Z.shiftr z (8 * Z.of_nat m)) 255 :: be m z
  end.

(** [from_be_bytes] *)
Definition of_be (l : bytes) : Z := foldl (fun acc b => acc * 256 + b) 0 l.

Lemma length_be n z : length (be n z) = n.
Proof. induction n; cbn; congruence. Qed.

Lemma land_255 z : Z.land z 255 = z mod 256.
Proof. change 255 with (Z.ones 8). by rewrite Z.land_ones. Qed.

Lemma byte_ok_land z : byte_ok (Z.land z 255).
Proof. rewrite land_255. by apply Z.mod_pos_bound. Qed.

Lemma bytes_ok_be n z : bytes_ok (be n z).
Proof. induction n; cbn [be]; constructor; [apply byte_ok_land|done]. Qed.

(** The encoding as a list of named bytes. *)
Lemma be_2_list z : exists a b, be 2 z = [a; b].
Proof. by do 2 eexists. Qed.
Lemma be_4_list z : exists a b c d, be 4 z = [a; b; c; d].
Proof. by do 4 eexists. Qed.
Lemma be_16_list z : exists a b c d e f g h i j k l m n o p,
  be 16 z = [a; b; c; d; e; f; g; h; i; j; k; l; m; n; o; p].
Proof. by do 16 eexists. Qed.

Lemma foldl_be_acc acc l :
  foldl (fun acc b => acc * 256 + b) acc l = acc * 256 ^ Z.of_nat (length l) + of_be l.
Proof.
  unfold of_be. revert acc. induction l as [|b l IH]; intros acc; cbn [foldl length].
  - cbn. lia.
  - rewrite IH, (IH (0 * 256 + b)), Nat2Z.inj_succ, Z.pow_succ_r by lia. lia.
Qed.

Lemma of_be_cons b l : of_be (b :: l) = b * 256 ^ Z.of_nat (length l) + of_be l.
Proof. unfold of_be at 1. cbn [foldl]. rewrite foldl_be_acc. lia. Qed.

Lemma of_be_app l1 l2 :
  of_be (l1 ++ l2) = of_be l1 * 256 ^ Z.of_nat (length l2) + of_be l2.
Proof. unfold of_be at 1. rewrite foldl_app. apply foldl_be_acc. Qed.

Lemma of_be_mod n z : of_be (be n z) = z mod 256 ^ Z.of_nat n.
Proof.
  induction n as [|n IH]; [by cbn; rewrite Z.mod_1_r|].
  cbn [be]. rewrite of_be_cons, length_be, IH, land_255, Z.shiftr_div_pow2 by lia.
  rewrite Z.pow_mul_r by lia. change (2 ^ 8) with 256.
  rewrite Nat2Z.inj_succ, Z.pow_succ_r by lia.
  rewrite (Z.mul_comm 256), Z.rem_mul_r by lia. lia.
Qed.

Lemma of_be_be n z : 0 <= z < 256 ^ Z.of_nat n -> of_be (be n z) = z.
Proof. intros. rewrite of_be_mod. by apply Z.mod_small. Qed.

Lemma of_be_bound l : bytes_ok l -> 0 <= of_be l < 256 ^ Z.of_nat (length l).
Proof.
  induction 1 as [|b l Hb _ IH]; [done|].
  rewrite of_be_cons. cbn [length]. rewrite Nat2Z.inj_succ, Z.pow_succ_r by lia.
  unfold byte_ok in Hb. nia.
Qed.

Lemma be_add_mul n a z : be n (a * 256 ^ Z.of_nat n + z) = be n z.
Proof.
  assert (forall m, (m <= n)%nat -> be m (a * 256 ^ Z.of_nat n + z) = be m z) as H; [|by apply H].
  induction m as [|m IH]; intros Hm; [done|]. cbn [be]. rewrite IH by lia. f_equal.
  rewrite !land_255, !Z.shiftr_div_pow2, !Z.pow_mul_r by lia. change (2 ^ 8) with 256.
  replace (Z.of_nat n) with (Z.of_nat (n - S m) + 1 + Z.of_nat m) by lia.
  rewrite !Z.pow_add_r, Z.mul_assoc by lia.
  rewrite Z.div_add_l by lia. change (256 ^ 1) with 256.
  rewrite Z.mul_assoc. by rewrite Z.add_comm, Z.mod_add.
Qed.

Lemma be_of_be l : bytes_ok l -> be (length l) (of_be l) = l.
Proof.
  induction 1 as [|b l Hb Hl IH]; [done|].
  pose proof (of_be_bound l Hl). unfold byte_ok in Hb.
  cbn [length be]. rewrite of_be_cons, be_add_mul, IH. f_equal.
  rewrite land_255, Z.shiftr_div_pow2, Z.pow_mul_r by lia. change (2 ^ 8) with 256.
  rewrite Z.div_add_l, (Z.div_small (of_be l)) by lia.
  rewrite Z.add_0_r. by apply Z.mod_small.
Qed.
End big_endian.

(** ** Overwriting a run of a list *)
Section splice.
Context {A : Type}.
Implicit Types l d : list A.

(** [l[off..off + d.len()].copy_from_slice(d)], in range. *)
Definition splice (off : nat) (d l : list A) : list A :=
  take off l ++ d ++ drop (off + length d) l.

Lemma length_splice off d l : off + length d <= length l -> length (splice off d l) = length l.
Proof. intros. unfold splice. rewrite !length_app, length_take, length_drop. lia. Qed.

Lemma lookup_splice_in off d l i :
  off + length d <= length l -> off <= i -> i < off + length d ->
  splice off d l !! i = d !! (i - off).
Proof.
  intros. unfold splice. rewrite lookup_app_r; rewrite length_take; [|lia].
  rewrite lookup_app_l by lia. f_equal. lia.
Qed.

Lemma lookup_splice_out off d l i :
  off + length d <= length l -> i < off \/ off + length d <= i ->
  splice off d l !! i = l !! i.
Proof.
  intros Hl [Hi|Hi]; unfold splice.
  - rewrite lookup_app_l by (rewrite length_take; lia). by apply lookup_take_lt.
  - rewrite lookup_app_r; rewrite length_take; [|lia].
    rewrite lookup_app_r by lia. rewrite lookup_drop. f_equal. lia.
Qed.

Lemma copy_at_splice {E} off d l :
  off + length d <= length l ->
  copy_at (E:=E) l off (off + length d) d = Ok (splice off d l).
Proof. intros. rewrite copy_at_ok by lia. done. Qed.
End splice.
#[export] Hint Rewrite @length_be @length_app @length_take @length_drop @length_replicate
  @length_reverse : len.

(** Normalise lengths, then decide. *)
Ltac len := repeat progress (autorewrite with len in *; cbn [length] in *); try lia.

Lemma take_drop_app {A} (l : list A) a b c :
  a <= b -> b <= c -> take (b - a) (drop a l) ++ take (c - b) (drop b l) = take (c - a) (drop a l).
Proof.
  intros. replace (drop b l) with (drop (b - a) (drop a l)) by (rewrite drop_drop; f_equal; lia).
  rewrite take_take_drop. f_equal. lia.
Qed.

(** [lia] with division and remainder by constants. *)
Ltac dlia := zify; Z.to_euclidean_division_equations; lia.

Lemma split_at_checked_Some {A} n (l a b : list A) :
  split_at_checked n l = Some (a, b) <-> (n <= length l)%nat /\ a = take n l /\ b = drop n l.
Proof. unfold split_at_checked. case_decide; naive_solver. Qed.

Lemma get_from_Some {A} n (l s : list A) :
  get_from n l = Some s <-> (n <= length l)%nat /\ s = drop n l.
Proof. unfold get_from. case_decide; naive_solver. Qed.

Lemma range_Ok {E A} a b (l s : list A) :
  range (E:=E) l a b = Ok s <-> (a <= b)%nat /\ (b <= length l)%nat /\ s = take (b - a) (drop a l).
Proof. unfold range. rewrite expect_Ok. apply get_range_Some. Qed.

Lemma idx_Ok {E A} (l : list A) i x : idx (E:=E) l i = Ok x <-> l !! i = Some x.
Proof. apply expect_Ok. Qed.

(** One step of a no-panic proof: peel a bind, a conditional or a match. *)
Ltac safe_step :=
  match goal with
  | |- safe (Ok _) => apply safe_Ok
  | |- safe (Err _) => apply safe_Err
  | |- safe (ok_or _ _) => apply safe_ok_or
  | |- safe (_ ≫= _) => apply bind_safe; [|let H := fresh in intros ? H]
  | |- safe (if decide _ then _ else _) => case_decide
  | |- safe (let '(_, _) := ?x in _) => destruct x
  | |- safe (match ?x with _ => _ end) => let H := fresh in destruct x eqn:H
  | |- safe (idx _ _) => apply safe_idx
  | |- safe (range _ _ _) => apply safe_range
  | |- safe (range_from _ _) => apply safe_range_from
  end.

(** Replace an encoding by a list of fresh bytes, everywhere. *)
Ltac name_be2 z := let E := fresh in destruct (be_2_list z) as (?&?&E); rewrite E in *; clear E.
Ltac name_be4 z := let E := fresh in destruct (be_4_list z) as (?&?&?&?&E); rewrite E in *; clear E.
Ltac name_be16 z := let E := fresh in
  destruct (be_16_list z) as (?&?&?&?&?&?&?&?&?&?&?&?&?&?&?&?&E); rewrite E in *; clear E.
