(* ===== verification/Effect.v ===== *)
(** Effectful code: computations that read and change a state, fail with an
    error of the program, or panic, with the rules to reason about them. *)

From S2P Require Import Prelude.

(** A run from a state: what it returns and the state it leaves.  Rust keeps
    the changes made before an error, so the state survives one. *)
Definition M (S E A : Type) : Type := S -> res E A * S.

Global Instance M_ret S E : MRet (M S E) := fun A a s => (Ok a, s).
Global Instance M_bind S E : MBind (M S E) := fun A B f m s =>
  match m s with
  | (Ok a, s) => f a s
  | (Err e, s) => (Err e, s)
  | (Panic, s) => (Panic, s)
  end.

Section effects.
Context {S E : Type}.

Definition gets {A} (f : S -> A) : M S E A := fun s => (Ok (f s), s).
Definition modify (f : S -> S) : M S E () := fun s => (Ok (), f s).
(** A part of the state replaced by a function that also returns a value. *)
Definition update {A} (f : S -> A * S) : M S E A := fun s => let '(a, s) := f s in (Ok a, s).
Definition lift {A} (r : res E A) : M S E A := fun s => (r, s).
Definition fail {A} (e : E) : M S E A := lift (Err e).

(** [match m { Ok(a) => .., Err(e) => .. }]: the error as a value. *)
Definition attempt {E' A} (m : M S E' A) : M S E (E' + A) := fun s =>
  match m s with
  | (Ok a, s) => (Ok (inr a), s)
  | (Err e, s) => (Ok (inl e), s)
  | (Panic, s) => (Panic, s)
  end.

(** A computation on a part of the state. *)
Definition zoom {T E' A} (get : S -> T) (put : T -> S -> S) (m : M T E' A) : M S E' A := fun s =>
  let '(r, t) := m (get s) in (r, put t s).

(** [for x in l { f(x)?; }] *)
Fixpoint for_each {A} (f : A -> M S E ()) (l : list A) : M S E () :=
  match l with
  | [] => mret ()
  | x :: l => _ ← f x; for_each f l
  end.
End effects.

(** [post m s Q]: from [s], [m] ends as [Q] says. *)
Definition post {S E A} (m : M S E A) (s : S) (Q : res E A -> S -> Prop) : Prop := Q (m s).1 (m s).2.

Section rules.
Context {S E : Type}.

Lemma post_bind {A B} (m : M S E A) (f : A -> M S E B) s Q :
  post m s (fun r s => match r with
                      | Ok a => post (f a) s Q
                      | Err e => Q (Err e) s
                      | Panic => Q Panic s
                      end) ->
  post (m ≫= f) s Q.
Proof. unfold post, mbind, M_bind. by destruct (m s) as [[a|e|] s']. Qed.

Lemma post_ret {A} (a : A) s (Q : res E A -> S -> Prop) : Q (Ok a) s -> post (mret a) s Q.
Proof. done. Qed.

Lemma post_mono {A} (m : M S E A) s (Q Q' : res E A -> S -> Prop) :
  post m s Q -> (forall r s, Q r s -> Q' r s) -> post m s Q'.
Proof. unfold post. auto. Qed.

Lemma post_attempt {E' A} (m : M S E' A) s (Q : res E (E' + A) -> S -> Prop) :
  post m s (fun r s => Q match r with Ok a => Ok (inr a) | Err e => Ok (inl e) | Panic => Panic end s) ->
  post (attempt m) s Q.
Proof. unfold post, attempt. destruct (m s) as [[a|e|] s']; done. Qed.

Lemma post_zoom {T E' A} (get : S -> T) (put : T -> S -> S) (m : M T E' A) s (Q : res E' A -> S -> Prop) :
  post m (get s) (fun r t => Q r (put t s)) -> post (zoom get put m) s Q.
Proof. unfold post, zoom. by destruct (m (get s)) as [r t]. Qed.

(** The rule of a loop: an invariant kept by every turn. *)
Lemma post_for_each {A} (I : S -> Prop) (f : A -> M S E ()) l s (Q : res E () -> S -> Prop) :
  I s -> (forall s, I s -> Q (Ok ()) s) ->
  (forall x s, x ∈ l -> I s -> post (f x) s (fun r s => match r with Ok _ => I s | r => Q r s end)) ->
  post (for_each f l) s Q.
Proof.
  revert s. induction l as [|x l IH]; intros s Hs HQ Hf; cbn [for_each]; [apply post_ret; auto|].
  apply post_bind. eapply post_mono; [apply Hf; [by left|done]|].
  intros [[]|e|] s' H'; [|done..]. apply IH; [done..|]. intros y s'' Hy. apply Hf. by right.
Qed.

(** Equations of a run that reached a point. *)
Lemma bind_step {A B} (m : M S E A) (f : A -> M S E B) s a s' : m s = (Ok a, s') -> (m ≫= f) s = f a s'.
Proof. unfold mbind, M_bind. by intros ->. Qed.
End rules.

(** ** Runs under an invariant

    [runs I full m s Q]: from [s], [m] ends in [I] with [Q] of what it returns,
    or fails in [I]; it panics only as [full] says. *)
Section runs.
Context {S : Type} (I full : S -> Prop).

Definition runs {E A} (m : M S E A) (s : S) (Q : A -> S -> Prop) : Prop :=
  match m s with
  | (Ok a, s) => I s /\ Q a s
  | (Err _, s) => I s
  | (Panic, s) => full s
  end.
(** A run of which nothing but the invariant is asked. *)
Definition sound {E A} (m : M S E A) : Prop := forall s, I s -> runs m s (fun _ _ => True).

Context {E : Type}.

Lemma runs_bind {A B} (m : M S E A) (f : A -> M S E B) s P Q :
  runs m s P -> (forall a s, I s -> P a s -> runs (f a) s Q) -> runs (m ≫= f) s Q.
Proof. unfold runs, mbind, M_bind. destruct (m s) as [[a|e|] s']; [|done..]. intros [? ?] Hf. by apply Hf. Qed.

Lemma runs_mono {A} (m : M S E A) s (P Q : A -> S -> Prop) :
  runs m s P -> (forall a s, I s -> P a s -> Q a s) -> runs m s Q.
Proof. unfold runs. destruct (m s) as [[a|e|] s']; [|done..]. intros [? ?]. auto. Qed.

Lemma runs_ret {A} (a : A) s Q : I s -> Q a s -> runs (mret a : M S E A) s Q.
Proof. done. Qed.

Lemma runs_gets {A} (f : S -> A) s Q : I s -> Q (f s) s -> runs (gets f : M S E A) s Q.
Proof. done. Qed.

Lemma runs_modify (f : S -> S) s Q : I (f s) -> Q () (f s) -> runs (modify f : M S E ()) s Q.
Proof. done. Qed.

Lemma runs_lift {A} (r : res E A) s Q : I s -> safe r -> (forall a, r = Ok a -> Q a s) -> runs (lift r) s Q.
Proof. unfold runs, lift. destruct r; [auto|done|done]. Qed.

Lemma runs_attempt {E' A} (m : M S E A) s (Q : E + A -> S -> Prop) :
  runs m s (fun a s => Q (inr a) s) -> (forall e s, I s -> Q (inl e) s) -> runs (attempt m : M S E' (E + A)) s Q.
Proof. unfold runs, attempt. destruct (m s) as [[a|e|] s']; [done|auto|done]. Qed.

Lemma runs_for_each {A} (f : A -> M S E ()) l s Q :
  I s -> (forall x s, x ∈ l -> I s -> runs (f x) s (fun _ _ => True)) -> (forall s, I s -> Q () s) ->
  runs (for_each f l) s Q.
Proof.
  intros Hs Hf HQ. revert s Hs Hf. induction l as [|x l IH]; intros s Hs Hf; cbn [for_each]; [apply runs_ret; auto|].
  apply runs_bind with (P := fun _ _ => True); [apply Hf; [by left|done]|]. intros [] s' Hs' _.
  apply IH; [done|]. intros y s'' Hy. apply Hf. by right.
Qed.
End runs.

(** A run on a part of the state, whose invariant the whole's includes. *)
Lemma runs_zoom {S T E A} (I full : S -> Prop) (J stuck : T -> Prop) (get : S -> T) (put : T -> S -> S)
    (m : M T E A) s (Q : A -> S -> Prop) :
  runs J stuck m (get s) (fun a t => I (put t s) /\ Q a (put t s)) ->
  (forall t, J t -> I (put t s)) -> (forall t, stuck t -> full (put t s)) ->
  runs I full (zoom get put m) s Q.
Proof. unfold runs, zoom. destruct (m (get s)) as [[a|e|] t]; naive_solver. Qed.

(** A stretch of a run under an invariant of its own, which cannot fail. *)
Lemma runs_scope {S A B} (I J full : S -> Prop) (m : M S Infallible A) (f : A -> M S Infallible B) s P Q :
  runs J full m s P -> (forall a s, J s -> P a s -> runs I full (f a) s Q) -> runs I full (m ≫= f) s Q.
Proof. unfold runs, mbind, M_bind. destruct (m s) as [[a|[]|] s']; [|done]. intros [? ?] Hf. by apply Hf. Qed.
