(* ===== verification/Text.v ===== *)
(** Text as the standard library reads it: ASCII classes and case, trimming,
    decimal and hexadecimal integers, the textual forms of IPv4 and IPv6
    addresses.  Text is a list of bytes; every function here accepts only
    ASCII, so the [std::str::from_utf8] that precedes a parse in the source
    cannot change its result and is not repeated. *)

From S2P Require Import Prelude.
From Stdlib Require Import Ascii.

Local Open Scope Z_scope.

(** A byte-string literal [b"..."]. *)
Fixpoint bs (s : string) : bytes :=
  match s with
  | EmptyString => []
  | String c s => Z.of_N (N_of_ascii c) :: bs s
  end.

Definition is_digit (b : Z) : bool := (48 <=? b) && (b <=? 57).
Definition is_upper (b : Z) : bool := (65 <=? b) && (b <=? 90).
Definition is_lower (b : Z) : bool := (97 <=? b) && (b <=? 122).
Definition is_alphanumeric (b : Z) : bool := is_digit b || is_upper b || is_lower b.

(** [u8::is_ascii_whitespace]: space, tab, LF, FF, CR *)
Definition is_space (b : Z) : bool :=
  (b =? 32) || (b =? 9) || (b =? 10) || (b =? 12) || (b =? 13).

Definition to_lower (b : Z) : Z := if is_upper b then b + 32 else b.

(** [eq_ignore_ascii_case] of two bytes and of two slices *)
Definition byte_eq_ic (a b : Z) : bool := to_lower a =? to_lower b.
Definition eq_ic (a b : bytes) : bool := bool_decide (to_lower <$> a = to_lower <$> b).

(** [trim_ascii_start], [trim_ascii_end], [trim_ascii] *)
Fixpoint trim_start (l : bytes) : bytes :=
  match l with
  | [] => []
  | b :: l' => if is_space b then trim_start l' else l
  end.
Definition trim_end (l : bytes) : bytes := reverse (trim_start (reverse l)).
Definition trim (l : bytes) : bytes := trim_end (trim_start l).

(** [str::trim] removes the characters with the [White_Space] property: these
    are their UTF-8 encodings. *)
Definition white_chars : list bytes :=
  [[9]; [10]; [11]; [12]; [13]; [32]; [194; 133]; [194; 160]; [225; 154; 128];
   [226; 128; 128]; [226; 128; 129]; [226; 128; 130]; [226; 128; 131]; [226; 128; 132];
   [226; 128; 133]; [226; 128; 134]; [226; 128; 135]; [226; 128; 136]; [226; 128; 137];
   [226; 128; 138]; [226; 128; 168]; [226; 128; 169]; [226; 128; 175]; [226; 129; 159];
   [227; 128; 128]].

(** What follows the first of [ws] that is a prefix of [l]. *)
Fixpoint strip_any (ws : list bytes) (l : bytes) : option bytes :=
  match ws with
  | [] => None
  | w :: ws => match strip_prefix_by Z.eqb w l with Some l' => Some l' | None => strip_any ws l end
  end.
Fixpoint strip_all (fuel : nat) (ws : list bytes) (l : bytes) : bytes :=
  match fuel with
  | O => l
  | S fuel => match strip_any ws l with Some l' => strip_all fuel ws l' | None => l end
  end.
Definition str_trim_start (l : bytes) : bytes := strip_all (length l) white_chars l.
Definition str_trim_end (l : bytes) : bytes :=
  reverse (strip_all (length l) (reverse <$> white_chars) (reverse l)).
Definition str_trim (l : bytes) : bytes := str_trim_end (str_trim_start l).

(** [char::to_digit(radix)] for radix 10 and 16 *)
Definition digit_val (radix b : Z) : option Z :=
  let v := if is_digit b then Some (b - 48)
           else if is_lower b then Some (b - 87)
           else if is_upper b then Some (b - 55) else None in
  d ← v; if d <? radix then Some d else None.

Definition is_hexdigit (b : Z) : bool := bool_decide (is_Some (digit_val 16 b)).

(** The digits of [l] accumulated; [None] at a non-digit or past [limit]. *)
Fixpoint digits_val (radix limit acc : Z) (l : bytes) : option Z :=
  match l with
  | [] => Some acc
  | b :: l' =>
      d ← digit_val radix b;
      let acc := acc * radix + d in
      if acc <? limit then digits_val radix limit acc l' else None
  end.

(** [from_str_radix] of an unsigned integer below [limit]: digits after an
    optional [+], at least one. *)
Definition parse_uint (radix limit : Z) (l : bytes) : option Z :=
  let l := match l with 43 :: l' => l' | _ => l end in
  match l with [] => None | _ => digits_val radix limit 0 l end.

Definition parse_u8 := parse_uint 10 (2 ^ 8).
Definition parse_u16 := parse_uint 10 (2 ^ 16).
Definition parse_u32 := parse_uint 10 (2 ^ 32).
(** [usize] and [u64], 64 bits on every supported target that is not ARMv5/v7. *)
Definition usize_limit : Z := 2 ^ 64.

(** Decimal rendering of an integer below 100000. *)
Fixpoint show_dec_fuel (fuel : nat) (n : Z) : bytes :=
  match fuel with
  | O => []
  | S f => if n <? 10 then [48 + n] else show_dec_fuel f (n / 10) ++ [48 + n mod 10]
  end.
Definition show_dec (n : Z) : bytes := show_dec_fuel 5 n.

(** [{:02x}] *)
Definition hex_digit (d : Z) : Z := if d <? 10 then 48 + d else 87 + d.
Definition show_hex2 (b : Z) : bytes := [hex_digit (Z.shiftr b 4); hex_digit (Z.land b 15)].

(** ** The parser of [std::net]

    A parser consumes a prefix of its input; a failed one consumes nothing. *)
Section net_parser.
Abbreviation parser A := (bytes -> option (A * bytes)).

Definition given_char (c : Z) : parser unit := fun l =>
  match l with b :: l' => if b =? c then Some ((), l') else None | [] => None end.

(** The leading digits and the rest. *)
Fixpoint span_digits (radix : Z) (l : bytes) : list Z * bytes :=
  match l with
  | [] => ([], [])
  | b :: l' =>
      match digit_val radix b with
      | Some d => let '(ds, r) := span_digits radix l' in (d :: ds, r)
      | None => ([], l)
      end
  end.

(** [read_number(radix, Some(max_digits), allow_zero_prefix)] *)
Definition read_number (radix limit : Z) (max_digits : nat) (allow_zero : bool) : parser Z :=
  fun l =>
    let '(ds, r) := span_digits radix l in
    let value := foldl (fun acc d => acc * radix + d) 0 ds in
    if decide (ds = [] \/ (max_digits < length ds)%nat) then None
    else if negb allow_zero && bool_decide (head ds = Some 0) && bool_decide (1 < length ds)%nat
    then None
    else if value <? limit then Some (value, r) else None.

(** [read_separator(sep, index, inner)]: the separator precedes every item but the first. *)
Definition read_separator {A} (sep : Z) (index : nat) (inner : parser A) : parser A := fun l =>
  match index with
  | O => inner l
  | S _ => '(_, l) ← given_char sep l; inner l
  end.

Definition read_ipv4 : parser Z := fun l =>
  let octet i l := read_separator 46 i (read_number 10 256 3 false) l in
  '(a, l) ← octet 0%nat l; '(b, l) ← octet 1%nat l;
  '(c, l) ← octet 2%nat l; '(d, l) ← octet 3%nat l;
  Some (of_be [a; b; c; d], l).

(** [read_groups] from index [i] up to [limit]: the groups read (an embedded
    IPv4 address counts as two) and whether it ended in an IPv4 address. *)
Fixpoint read_groups (fuel i limit : nat) (l : bytes) : list Z * bool * bytes :=
  match fuel with
  | O => ([], false, l)
  | S fuel =>
      let v4 := if (i <? limit - 1)%nat then read_separator 58 i read_ipv4 l else None in
      match v4 with
      | Some (a, l') => ([Z.shiftr a 16; Z.land a 65535], true, l')
      | None =>
          match read_separator 58 i (read_number 16 65536 4 true) l with
          | Some (g, l') =>
              let '(gs, v4, r) := read_groups fuel (S i) limit l' in (g :: gs, v4, r)
          | None => ([], false, l)
          end
      end
  end.

Definition of_groups (gs : list Z) : Z := foldl (fun acc g => acc * 65536 + g) 0 gs.

Definition read_ipv6 : parser Z := fun l =>
  let '(head, head_v4, l) := read_groups 8 0 8 l in
  if decide (length head = 8%nat) then Some (of_groups head, l)
  else if head_v4 then None
  else
    '(_, l) ← given_char 58 l;
    '(_, l) ← given_char 58 l;
    let limit := (8 - (length head + 1))%nat in
    let '(tail, _, l) := read_groups limit 0 limit l in
    let zeros := (8 - length head - length tail)%nat in
    Some (of_groups (head ++ replicate zeros 0 ++ tail), l).

Definition parse_all {A} (p : parser A) (l : bytes) : option A :=
  '(a, r) ← p l; match r with [] => Some a | _ => None end.
End net_parser.

(** [str::parse::<Ipv4Addr>()]: longer than "255.255.255.255" cannot match. *)
Definition parse_ipv4 (l : bytes) : option Z :=
  if (15 <? length l)%nat then None else parse_all read_ipv4 l.
Definition parse_ipv6 (l : bytes) : option Z := parse_all read_ipv6 l.

(** [Ipv4Addr]'s [Display]: dotted decimal. *)
Definition show_ipv4 (a : Z) : bytes :=
  match be 4 a with
  | [o0; o1; o2; o3] =>
      show_dec o0 ++ [46] ++ show_dec o1 ++ [46] ++ show_dec o2 ++ [46] ++ show_dec o3
  | _ => []
  end.

Example parse_ipv4_ex : parse_ipv4 (bs "192.168.1.20") = Some 3232235796.
Proof. reflexivity. Qed.
Example parse_ipv4_zero : parse_ipv4 (bs "192.168.01.20") = None.
Proof. reflexivity. Qed.
Example parse_ipv6_ex : parse_ipv6 (bs "fe80::1%eth0") = None /\ parse_ipv6 (bs "fe80::1") = Some (of_groups [65152;0;0;0;0;0;0;1]).
Proof. split; reflexivity. Qed.
Example parse_ipv6_v4 : parse_ipv6 (bs "::ffff:127.0.0.1") = Some (of_groups [0;0;0;0;0;65535;32512;1]).
Proof. reflexivity. Qed.

(** ** Lemmas *)

Lemma split_on_app {A} (p : A -> bool) a x l :
  Forall (fun y => p y = false) a -> p x = true -> split_on p (a ++ x :: l) = a :: split_on p l.
Proof.
  intros Ha Hx. induction Ha as [|y a Hy _ IH]; cbn; [by rewrite Hx|]. by rewrite Hy, IH.
Qed.
Lemma split_on_none {A} (p : A -> bool) a : Forall (fun y => p y = false) a -> split_on p a = [a].
Proof. induction 1 as [|y a Hy _ IH]; cbn; [done|]. by rewrite Hy, IH. Qed.

Lemma existsb_none {A} (p : A -> bool) l : Forall (fun y => p y = false) l -> existsb p l = false.
Proof. induction 1 as [|x l Hx _ IH]; cbn; [done|]. by rewrite Hx, IH. Qed.

(** Two hexadecimal digits of a byte, checked for every byte. *)
Lemma hex2_all :
  forallb (fun b => bool_decide (parse_uint 16 256 (show_hex2 b) = Some b) &&
    forallb is_hexdigit (show_hex2 b) &&
    forallb (fun d => negb ((d =? 45) || (d =? 46) || (d =? 58) || (d =? 43))) (show_hex2 b)) (seqZ 0 256) = true.
Proof. vm_compute. reflexivity. Qed.

Lemma hex2_ok b : byte_ok b ->
  parse_uint 16 256 (show_hex2 b) = Some b /\ forallb is_hexdigit (show_hex2 b) = true /\
  Forall (fun d => d <> 45 /\ d <> 46 /\ d <> 58) (show_hex2 b).
Proof.
  intros Hb. pose proof hex2_all as H. rewrite forallb_forall in H. specialize (H b).
  rewrite <- list_elem_of_In, elem_of_seqZ in H. unfold byte_ok in Hb. specialize (H ltac:(lia)).
  rewrite !andb_true_iff, bool_decide_eq_true in H. destruct H as ((H1&H2)&H3).
  split_and!; [done|done|]. rewrite forallb_forall in H3. apply Forall_forall.
  intros d Hd%list_elem_of_In%H3. lia.
Qed.

Lemma length_to_lower l : length (to_lower <$> l) = length l.
Proof. apply length_fmap. Qed.

Lemma eq_ic_refl l : eq_ic l l = true.
Proof. unfold eq_ic. by apply bool_decide_eq_true. Qed.

Lemma eq_ic_length a b : eq_ic a b = true -> length a = length b.
Proof.
  intros H%bool_decide_eq_true. apply (f_equal length) in H. by rewrite !length_fmap in H.
Qed.

Lemma trim_start_suffix l : trim_start l `suffix_of` l.
Proof.
  induction l as [|b l IH]; cbn; [done|]. destruct (is_space b); [|done].
  by apply suffix_cons_r.
Qed.

Lemma length_trim_start l : (length (trim_start l) <= length l)%nat.
Proof. apply suffix_length, trim_start_suffix. Qed.

Lemma to_lower_idem b : to_lower (to_lower b) = to_lower b.
Proof.
  unfold to_lower. destruct (is_upper b) eqn:H; [|by rewrite H].
  assert (is_upper (b + 32) = false) as ->; [|done]. unfold is_upper in *. lia.
Qed.

Lemma position_app_none {A} (p : A -> bool) a l :
  Forall (fun x => p x = false) a -> position p (a ++ l) = (fun n => (length a + n)%nat) <$> position p l.
Proof.
  induction 1 as [|x a Hx _ IH]; cbn; [by destruct (position p l)|]. rewrite Hx, IH.
  by destruct (position p l).
Qed.
