(* ===== verification/Addr.v ===== *)
(** Addresses: [std::net]'s IPv4, IPv6 and socket addresses with the
    predicates the program uses, MAC addresses, link types and the wire
    constants of [src/net.rs]. *)

From S2P Require Import Prelude Text.

Local Open Scope Z_scope.

(** An IPv4 address is its 32-bit value, an IPv6 address its 128-bit value. *)
Inductive IpAddr : Type :=
  | V4 (a : Z)
  | V6 (a : Z).
Global Instance IpAddr_eq_dec : EqDecision IpAddr.
Proof. solve_decision. Defined.

Definition ip_ok (ip : IpAddr) : Prop :=
  match ip with V4 a => word_ok 32 a | V6 a => word_ok 128 a end.

(** [SocketAddr] (the flow info and scope of an IPv6 one are never set from a frame). *)
Record SocketAddr : Type := { ip : IpAddr; port : Z }.
Global Instance SocketAddr_eq_dec : EqDecision SocketAddr.
Proof. solve_decision. Defined.

Definition is_v4 (ip : IpAddr) : bool := match ip with V4 _ => true | V6 _ => false end.
Definition is_v6 (ip : IpAddr) : bool := negb (is_v4 ip).

(** The octets of an address; [octet] is one of them. *)
Definition v4_octets (a : Z) : bytes := be 4 a.
Definition v6_octets (a : Z) : bytes := be 16 a.
Definition v4_octet (i : nat) (a : Z) : Z := Z.land (Z.shiftr a (8 * (3 - Z.of_nat i))) 255.
Definition v6_octet (i : nat) (a : Z) : Z := Z.land (Z.shiftr a (8 * (15 - Z.of_nat i))) 255.

Module Ipv4.
Definition new (a b c d : Z) : Z := of_be [a; b; c; d].
Definition BROADCAST : Z := 2 ^ 32 - 1.
Definition is_multicast (a : Z) : bool :=
  (224 <=? v4_octet 0 a) && (v4_octet 0 a <=? 239).
Definition is_broadcast (a : Z) : bool := a =? BROADCAST.
Definition is_unspecified (a : Z) : bool := a =? 0.
Definition is_loopback (a : Z) : bool := v4_octet 0 a =? 127.
Definition is_link_local (a : Z) : bool := (v4_octet 0 a =? 169) && (v4_octet 1 a =? 254).
End Ipv4.

Module Ipv6.
(** [Ipv6Addr::new]: eight 16-bit segments. *)
Definition new (a b c d e f g h : Z) : Z := of_groups [a; b; c; d; e; f; g; h].
Definition is_multicast (a : Z) : bool := v6_octet 0 a =? 255.
Definition is_unspecified (a : Z) : bool := a =? 0.
Definition is_loopback (a : Z) : bool := a =? 1.
(** [fe80::/10] *)
Definition is_unicast_link_local (a : Z) : bool := Z.shiftr a 118 =? 1018.
(** [fc00::/7] *)
Definition is_unique_local (a : Z) : bool := Z.shiftr a 121 =? 126.
(** [::ffff:a.b.c.d] *)
Definition to_ipv4_mapped (a : Z) : option Z :=
  if Z.shiftr a 32 =? 65535 then Some (Z.land a (2 ^ 32 - 1)) else None.
End Ipv6.

Definition is_multicast (ip : IpAddr) : bool :=
  match ip with V4 a => Ipv4.is_multicast a | V6 a => Ipv6.is_multicast a end.

(** [net::is_link_local] *)
Definition is_link_local (ip : IpAddr) : bool :=
  match ip with
  | V4 v4 => Ipv4.is_link_local v4
  | V6 v6 =>
      match Ipv6.to_ipv4_mapped v6 with
      | Some v4 => Ipv4.is_link_local v4
      | None => Ipv6.is_unicast_link_local v6
      end
  end.

Definition v4_never_a_peer (v4 : Z) : bool :=
  Ipv4.is_loopback v4 || Ipv4.is_unspecified v4 || Ipv4.is_multicast v4 || Ipv4.is_broadcast v4.

(** [net::is_never_a_peer]; the recursive call is always on an IPv4 address. *)
Definition is_never_a_peer (ip : IpAddr) : bool :=
  match ip with
  | V4 v4 => v4_never_a_peer v4
  | V6 v6 =>
      match Ipv6.to_ipv4_mapped v6 with
      | Some v4 => v4_never_a_peer v4
      | None => Ipv6.is_loopback v6 || Ipv6.is_unspecified v6 || Ipv6.is_multicast v6
      end
  end.

(** A MAC address is its six octets. *)
Abbreviation MacAddr := (list Z).
Definition mac_ok (m : MacAddr) : Prop := length m = 6%nat.
Definition mac_broadcast : MacAddr := replicate 6 255.
Definition mac_is_unspecified (m : MacAddr) : bool := bool_decide (m = replicate 6 0).

(** The union over platforms of [net::LinkType]: [DltNull] exists on the BSDs
    and macOS, [RawIp] on Linux. *)
Inductive LinkType : Type := Ethernet | DltNull | RawIp.
Global Instance LinkType_eq_dec : EqDecision LinkType.
Proof. solve_decision. Defined.

(** The constants of [src/net.rs]. *)
Definition IP_PROTO_UDP : Z := 17.
Definition IPV6_NEXT_FRAGMENT : Z := 44.
Definition ETHERNET_HEADER_SIZE : nat := 14.
Definition DLT_NULL_HEADER_SIZE : nat := 4.
Definition IPV4_HEADER_SIZE : nat := 20.
Definition IPV4_MAX_HEADER_SIZE : nat := 60.
Definition IPV6_HEADER_SIZE : nat := 40.
Definition IPV6_FRAGMENT_HEADER_SIZE : nat := 8.
Definition UDP_HEADER_SIZE : nat := 8.
Definition FRAGMENT_UNIT : nat := 8.
Definition MAX_DATAGRAM_LEN : nat := Z.to_nat 9000.
Definition MAX_FRAME_LEN : nat := ETHERNET_HEADER_SIZE + IPV4_MAX_HEADER_SIZE + MAX_DATAGRAM_LEN.
Definition MAX_MTU : nat := MAX_FRAME_LEN - ETHERNET_HEADER_SIZE.

Lemma V6_not_is_v4 a : is_v4 (V6 a) = false.
Proof. done. Qed.

(** [dispatch::CaptureKey]: an index into the interface table, never reused. *)
Record CaptureKey : Type := { ck_index : Z }.
Global Instance CaptureKey_eq_dec : EqDecision CaptureKey.
Proof. solve_decision. Defined.
