(* ===== verification/Checksum.v ===== *)
(** The Internet checksum of [src/net/checksum.rs]: the summation over 16-bit
    words in a wrapping 32-bit accumulator, the two folds, and the IPv4 header,
    UDP/IPv4 and UDP/IPv6 checksums, with the receiver's check of RFC 1071 as
    their specification. *)

From S2P Require Import Prelude Text Addr.

Local Open Scope Z_scope.

(** Wrap-around of a [u32]. *)
Definition u32 (z : Z) : Z := z mod 2 ^ 32.
(** [u16::try_from] *)
Definition u16_try (z : Z) : option Z := if (0 <=? z) && (z <? 2 ^ 16) then Some z else None.

(** A trailing odd byte is the high byte of a final word. *)
Fixpoint sum_words (data : bytes) (seed : Z) : Z :=
  match data with
  | hi :: lo :: rest => sum_words rest (u32 (seed + of_be [hi; lo]))
  | [tail] => u32 (seed + Z.shiftl tail 8)
  | [] => seed
  end.

Definition fold_once (sum : Z) : Z := u32 (Z.land sum 65535 + Z.shiftr sum 16).

(** Two folds; [!] on a [u16] flips its 16 bits. *)
Definition fold {E} (sum : Z) : res E Z :=
  sum ← expect (u16_try (fold_once (fold_once sum)));
  Ok (Z.lxor sum 65535).

(** The checksum field (bytes 10-11) is skipped. *)
Definition ipv4_header {E} (header : bytes) : res E Z :=
  a ← range header 0 10;
  let sum := sum_words a 0 in
  b ← range_from header 12;
  let sum := sum_words b sum in
  fold sum.

Definition udp_length {E} (payload : bytes) : res E Z :=
  expect (u16_try (Z.of_nat (UDP_HEADER_SIZE + length payload))).

(** The UDP header's first six bytes; its checksum field is skipped. *)
Definition udp_checksum {E} (pseudo header payload : bytes) : res E Z :=
  let sum := sum_words pseudo 0 in
  h ← range header 0 6;
  let sum := sum_words h sum in
  let sum := sum_words payload sum in
  c ← fold sum;
  Ok (if c =? 0 then 65535 else c).

(** Pseudo-header: src(4) dst(4) zero(1) protocol(1) length(2). *)
Definition pseudo_v4 (src dst len : Z) : bytes :=
  v4_octets src ++ v4_octets dst ++ [0; IP_PROTO_UDP] ++ be 2 len.

Definition udp_v4 {E} (src dst : Z) (header payload : bytes) : res E Z :=
  len ← udp_length payload;
  udp_checksum (pseudo_v4 src dst len) header payload.

(** Pseudo-header: src(16) dst(16) length(4) zero(3) next_header(1). *)
Definition pseudo_v6 (src dst len : Z) : bytes :=
  v6_octets src ++ v6_octets dst ++ be 4 len ++ [0; 0; 0; IP_PROTO_UDP].

Definition udp_v6 {E} (src dst : Z) (header payload : bytes) : res E Z :=
  len ← udp_length payload;
  udp_checksum (pseudo_v6 src dst len) header payload.

(** ** The specification: the ones'-complement sum without a machine width *)

Fixpoint word_sum (data : bytes) : Z :=
  match data with
  | hi :: lo :: rest => of_be [hi; lo] + word_sum rest
  | [tail] => tail * 256
  | [] => 0
  end.

(** A receiver accepts data whose ones'-complement sum is all ones (RFC 1071). *)
Definition rfc1071_ok (data : bytes) : Prop :=
  word_sum data <> 0 /\ word_sum data mod 65535 = 0.

Lemma pair_ind {A} (P : list A -> Prop) :
  P [] -> (forall a, P [a]) -> (forall a b l, P l -> P (a :: b :: l)) -> forall l, P l.
Proof.
  intros H0 H1 H2 l. enough (P l /\ forall a, P (a :: l)) by tauto.
  induction l as [|x l [IH1 IH2]]; naive_solver.
Qed.

Lemma of_be_pair a b : of_be [a; b] = a * 256 + b.
Proof. unfold of_be. cbn [foldl]. lia. Qed.

Lemma word_sum_app a b :
  Nat.even (length a) = true -> word_sum (a ++ b) = word_sum a + word_sum b.
Proof.
  induction a as [|x|x y a IH] using pair_ind; cbn [word_sum app length Nat.even];
    intros H; [lia|done|]. rewrite IH by done. lia.
Qed.

Lemma word_sum_bound l : bytes_ok l -> 0 <= word_sum l /\ 2 * word_sum l <= 65535 * (Z.of_nat (length l) + 1).
Proof.
  induction l as [|x|x y l IH] using pair_ind; intros H; cbn [word_sum length].
  - lia.
  - rewrite Forall_singleton in H. unfold byte_ok in H. lia.
  - rewrite !Forall_cons in H. destruct H as (Hx&Hy&Hl). specialize (IH Hl).
    unfold byte_ok in *. rewrite of_be_pair. lia.
Qed.

(** No wrap-around below 2{^16} words: the machine sum is the exact one. *)
Lemma sum_words_exact l s :
  bytes_ok l -> 0 <= s -> 2 * s + 65535 * (Z.of_nat (length l) + 1) < 2 ^ 33 ->
  sum_words l s = s + word_sum l.
Proof.
  revert s. induction l as [|x|x y l IH] using pair_ind; intros s H Hs Hb;
    cbn [word_sum sum_words length] in *.
  - lia.
  - rewrite Forall_singleton in H. unfold byte_ok in H. unfold u32.
    rewrite Z.shiftl_mul_pow2 by lia. rewrite Z.mod_small; lia.
  - rewrite !Forall_cons in H. destruct H as (Hx&Hy&Hl).
    unfold byte_ok in *. rewrite of_be_pair. unfold u32.
    rewrite Z.mod_small by lia. rewrite IH by (done || lia). lia.
Qed.

Lemma fold_once_spec s :
  0 <= s < 2 ^ 32 -> fold_once s = s mod 65536 + s / 65536 /\ fold_once s <= 131070.
Proof.
  intros H. unfold fold_once, u32. change 65535 with (Z.ones 16).
  rewrite Z.land_ones, Z.shiftr_div_pow2 by lia. change (2 ^ 16) with 65536.
  pose proof (Z.mod_pos_bound s 65536 ltac:(lia)).
  assert (0 <= s / 65536 <= 65535) by dlia.
  rewrite Z.mod_small by lia. lia.
Qed.

(** After the second fold the sum is below 2{^16}, congruent to the original,
    and zero only if it was. *)
Lemma fold_twice_spec s :
  0 <= s < 2 ^ 32 ->
  exists t, fold_once (fold_once s) = t /\ 0 <= t < 65536 /\ t mod 65535 = s mod 65535 /\
            (t = 0 <-> s = 0).
Proof.
  intros H. destruct (fold_once_spec s H) as [E1 B1].
  assert (0 <= fold_once s) by (rewrite E1; dlia).
  destruct (fold_once_spec (fold_once s) ltac:(lia)) as [E2 _].
  eexists; split; [reflexivity|]. rewrite E2, E1. rewrite E1 in B1.
  set (q := s / 65536) in *. set (r := s mod 65536) in *.
  assert (s = 65536 * q + r) by (subst q r; apply Z.div_mod; lia).
  assert (0 <= r < 65536) by (subst r; apply Z.mod_pos_bound; lia).
  assert (0 <= q <= 65535) by lia.
  split; [dlia|]. split; [|dlia].
  replace ((r + q) mod 65536 + (r + q) / 65536)
    with (s + - (q + (r + q) / 65536) * 65535) by dlia.
  apply Z.mod_add. lia.
Qed.

Lemma lxor_65535 t : 0 <= t < 65536 -> Z.lxor t 65535 = 65535 - t.
Proof.
  intros H. change 65535 with (Z.ones 16) at 1.
  assert (Z.lxor t (Z.ones 16) = Z.ldiff (Z.ones 16) t) as ->.
  { apply Z.bits_inj'. intros n Hn. rewrite Z.lxor_spec, Z.ldiff_spec.
    destruct (decide (n < 16)).
    - rewrite Z.ones_spec_low by lia. by destruct (Z.testbit t n).
    - rewrite Z.ones_spec_high by lia. rewrite (Z.bits_above_log2 t n); [done|lia|].
      destruct (decide (t = 0)) as [->|]; [cbn; lia|]. apply Z.log2_lt_pow2; [lia|].
      eapply Z.lt_le_trans with (2 ^ 16); [lia|]. apply Z.pow_le_mono_r; lia. }
  rewrite <- Z.sub_nocarry_ldiff; [done|].
  apply Z.bits_inj'. intros n Hn. rewrite Z.ldiff_spec, Z.bits_0.
  destruct (decide (n < 16)).
  - rewrite Z.ones_spec_low by lia. by rewrite andb_false_r.
  - rewrite (Z.bits_above_log2 t n); [done|lia|].
    destruct (decide (t = 0)) as [->|]; [cbn; lia|]. apply Z.log2_lt_pow2; [lia|].
    eapply Z.lt_le_trans with (2 ^ 16); [lia|]. apply Z.pow_le_mono_r; lia.
Qed.

Lemma fold_spec {E} s :
  0 <= s < 2 ^ 32 ->
  exists c, fold (E:=E) s = Ok c /\ 0 <= c < 65536 /\ (s + c) mod 65535 = 0 /\
            (c = 65535 <-> s = 0).
Proof.
  intros H. destruct (fold_twice_spec s H) as (t & Ht & Hb & Hm & Hz).
  exists (65535 - t). unfold fold, u16_try. rewrite Ht.
  assert ((0 <=? t) && (t <? 2 ^ 16) = true) as -> by lia. cbn.
  rewrite lxor_65535 by lia. split_and!; [done|lia|lia| |lia].
  assert (t = 65535 * (t / 65535) + t mod 65535) by (apply Z.div_mod; lia).
  assert (s = 65535 * (s / 65535) + s mod 65535) by (apply Z.div_mod; lia).
  replace (s + (65535 - t)) with ((s / 65535 - t / 65535 + 1) * 65535) by lia.
  apply Z.mod_mul. lia.
Qed.

(** ** Emitted checksums verify *)

(** Splitting off a run of two bytes: the checksum field. *)
Lemma word_sum_set c l r :
  Nat.even (length l) = true -> 0 <= c < 65536 ->
  word_sum (l ++ be 2 c ++ r) = word_sum (l ++ r) + c.
Proof.
  intros Hl Hc. rewrite !word_sum_app by done.
  cbn [be app word_sum]. rewrite of_be_pair, !land_255, !Z.shiftr_div_pow2 by lia.
  replace (8 * Z.of_nat 1) with 8 by lia. replace (8 * Z.of_nat 0) with 0 by lia. dlia.
Qed.

(** The IPv4 header checksum never panics on a header of at least 12 bytes,
    ignores the checksum field, and the header carrying it is accepted. *)
Lemma ipv4_header_spec {E} h1 c0 h2 :
  length h1 = 10%nat -> length c0 = 2%nat -> bytes_ok h1 -> bytes_ok h2 ->
  (length h2 <= 1000)%nat -> word_sum h1 <> 0 ->
  exists c, ipv4_header (E:=E) (h1 ++ c0 ++ h2) = Ok c /\ 0 <= c < 65536 /\
            rfc1071_ok (h1 ++ be 2 c ++ h2).
Proof.
  intros L1 L0 B1 B2 L2 Hnz.
  pose proof (word_sum_bound h1 B1). pose proof (word_sum_bound h2 B2).
  unfold ipv4_header. rewrite range_ok by len. cbn [mbind res_bind].
  rewrite drop_0, Nat.sub_0_r, <- L1, take_app_length.
  unfold range_from, get_from. rewrite decide_True by len. cbn [expect mbind res_bind].
  rewrite app_assoc, drop_app_length' by len.
  rewrite (sum_words_exact h1), (sum_words_exact h2) by (done || lia).
  destruct (fold_spec (E:=E) (0 + word_sum h1 + word_sum h2)) as (c&Hc&Hb&Hm&_); [lia|].
  rewrite Hc. exists c. unfold rfc1071_ok. split_and!; [done|lia|lia|..];
    rewrite word_sum_set, word_sum_app by (done || by rewrite L1); [lia|].
  rewrite <- Hm. f_equal; lia.
Qed.

Section udp.
Variables (pseudo h6 payload : bytes).
Hypothesis (Hpseudo : bytes_ok pseudo) (Hh6 : bytes_ok h6) (Hpayload : bytes_ok payload).
Hypothesis (Lpseudo : length pseudo = 12%nat \/ length pseudo = 40%nat)
           (Lh6 : length h6 = 6%nat) (Lpayload : Z.of_nat (length payload) < 65536).

(** The UDP checksum is never the reserved zero, and the datagram carrying it
    is accepted over its pseudo-header. *)
Lemma udp_checksum_spec {E} c0 :
  word_sum pseudo <> 0 ->
  exists c, udp_checksum (E:=E) pseudo (h6 ++ c0) payload = Ok c /\ 0 < c < 65536 /\
            rfc1071_ok (pseudo ++ h6 ++ be 2 c ++ payload).
Proof.
  intros Hnz. pose proof (word_sum_bound _ Hpseudo). pose proof (word_sum_bound _ Hh6).
  pose proof (word_sum_bound _ Hpayload).
  unfold udp_checksum. rewrite range_ok by len. cbn [mbind res_bind].
  rewrite drop_0, Nat.sub_0_r, <- Lh6, take_app_length.
  rewrite (sum_words_exact pseudo), (sum_words_exact h6), (sum_words_exact payload)
    by (done || lia).
  destruct (fold_spec (E:=E) (0 + word_sum pseudo + word_sum h6 + word_sum payload))
    as (c&Hc&Hb&Hm&_); [lia|].
  rewrite Hc. cbn [mbind res_bind].
  eexists. split; [reflexivity|].
  assert (Nat.even (length pseudo) = true) by (by destruct Lpseudo as [-> | ->]).
  unfold rfc1071_ok. rewrite word_sum_app by done.
  destruct (Z.eqb_spec c 0) as [->|].
  - split_and!; [lia|lia|..]; rewrite word_sum_set, word_sum_app by (lia || by rewrite Lh6); [lia|].
    rewrite Z.add_0_r in Hm.
    replace (word_sum pseudo + (word_sum h6 + word_sum payload + 65535))
      with ((0 + word_sum pseudo + word_sum h6 + word_sum payload) + 1 * 65535) by lia.
    by rewrite Z.mod_add.
  - split_and!; [lia|lia|..]; rewrite word_sum_set, word_sum_app by (lia || by rewrite Lh6); [lia|].
    rewrite <- Hm. f_equal; lia.
Qed.
End udp.

Lemma length_pseudo_v4 s d n : length (pseudo_v4 s d n) = 12%nat.
Proof. unfold pseudo_v4, v4_octets. len. Qed.
Lemma length_pseudo_v6 s d n : length (pseudo_v6 s d n) = 40%nat.
Proof. unfold pseudo_v6, v6_octets. len. Qed.
Lemma bytes_ok_pseudo_v4 s d n : bytes_ok (pseudo_v4 s d n).
Proof. unfold pseudo_v4, v4_octets. rewrite !Forall_app. split_and!; try apply bytes_ok_be; by apply (bool_decide_eq_true_1 (Forall byte_ok _)). Qed.
Lemma bytes_ok_pseudo_v6 s d n : bytes_ok (pseudo_v6 s d n).
Proof. unfold pseudo_v6, v6_octets. rewrite !Forall_app. split_and!; try apply bytes_ok_be; by apply (bool_decide_eq_true_1 (Forall byte_ok _)). Qed.

(** The protocol number keeps every pseudo-header's sum positive. *)
Lemma word_sum_pseudo_v4 s d n : word_sum (pseudo_v4 s d n) <> 0.
Proof.
  unfold pseudo_v4, v4_octets. rewrite app_assoc, word_sum_app by (autorewrite with len; done).
  match goal with |- word_sum ?a + word_sum ?b <> 0 =>
    pose proof (word_sum_bound a); pose proof (word_sum_bound (be 2 n)) end.
  cbn [app]. cbn [word_sum]. rewrite of_be_pair. unfold IP_PROTO_UDP.
  rewrite Forall_app in *.
  pose proof (bytes_ok_be 4 s); pose proof (bytes_ok_be 4 d); pose proof (bytes_ok_be 2 n).
  intuition lia.
Qed.
Lemma word_sum_pseudo_v6 s d n : word_sum (pseudo_v6 s d n) <> 0.
Proof.
  unfold pseudo_v6, v6_octets. rewrite !app_assoc, word_sum_app by (autorewrite with len; done).
  match goal with |- word_sum ?a + word_sum ?b <> 0 => pose proof (word_sum_bound a) end.
  cbn [word_sum]. rewrite !of_be_pair. unfold IP_PROTO_UDP. rewrite !Forall_app in *.
  pose proof (bytes_ok_be 16 s); pose proof (bytes_ok_be 16 d); pose proof (bytes_ok_be 4 n).
  intuition lia.
Qed.

Lemma udp_length_ok {E} payload :
  Z.of_nat (8 + length payload) < 65536 ->
  udp_length (E:=E) payload = Ok (Z.of_nat (8 + length payload)).
Proof.
  intros. unfold udp_length, u16_try, UDP_HEADER_SIZE.
  by assert ((0 <=? Z.of_nat (8 + length payload)) && (Z.of_nat (8 + length payload) <? 2 ^ 16) = true) as -> by lia.
Qed.

(** Neither checksum can panic, whatever the bytes. *)
Lemma sum_words_range l s : 0 <= s < 2 ^ 32 -> 0 <= sum_words l s < 2 ^ 32.
Proof.
  assert (forall z, 0 <= u32 z < 2 ^ 32) as H by (intros; by apply Z.mod_pos_bound).
  revert s. induction l as [|x|x y l IH] using pair_ind; intros s Hs; cbn [sum_words]; auto.
Qed.

Lemma udp_checksum_safe {E} pseudo header payload :
  (6 <= length header)%nat -> safe (udp_checksum (E:=E) pseudo header payload).
Proof.
  intros. unfold udp_checksum. rewrite range_ok, bind_ret by lia.
  match goal with |- safe (fold ?s ≫= _) =>
    destruct (fold_spec (E:=E) s ltac:(by repeat apply sum_words_range)) as (c&->&_) end.
  rewrite bind_ret. apply safe_Ok.
Qed.
