(* ===== verification/Packet.v ===== *)
(** Parsing a captured frame ([src/net/packet.rs]): link header, IPv4 or IPv6
    header, UDP, into a datagram or one fragment of it, with the panics of
    the slice indexing made explicit, and the theorem that none can happen. *)

From S2P Require Import Prelude Text Addr Checksum.

Local Open Scope Z_scope.

(** A parsed UDP datagram. *)
Record Packet : Type := {
  pk_source : SocketAddr;
  pk_dest : SocketAddr;
  pk_ttl : Z;
  pk_dst_mac : option MacAddr;
  pk_src_mac : option MacAddr;
  pk_payload : bytes;
}.

Record FragmentHeader : Type := {
  fh_source : IpAddr;
  fh_dest : IpAddr;
  fh_id : Z;
  fh_offset : nat;
  fh_more : bool;
  fh_ttl : Z;
  fh_dst_mac : option MacAddr;
  fh_src_mac : option MacAddr;
}.

Record Fragment : Type := { fr_header : FragmentHeader; fr_data : bytes }.

Inductive Parsed : Type :=
  | Datagram (p : Packet)
  | Fragmented (f : Fragment).

Inductive ParseError : Type :=
  | Truncated
  | BadIpVersion (version : Z)
  | NotUdp (proto : Z)
  | BadLength
  | BadChecksum
  | VlanTagged (vid : Z).

Global Instance Packet_eq_dec : EqDecision Packet.
Proof. solve_decision. Defined.
Global Instance FragmentHeader_eq_dec : EqDecision FragmentHeader.
Proof. solve_decision. Defined.
Global Instance Fragment_eq_dec : EqDecision Fragment.
Proof. solve_decision. Defined.
Global Instance Parsed_eq_dec : EqDecision Parsed.
Proof. solve_decision. Defined.
Global Instance ParseError_eq_dec : EqDecision ParseError.
Proof. solve_decision. Defined.

Abbreviation parse_result A := (res ParseError A).

(** [LinkHeader]: the MACs, absent on a link without them, and the bytes past the header. *)
Record LinkView : Type := {
  lv_dst_mac : option MacAddr;
  lv_src_mac : option MacAddr;
  l3 : bytes;
}.

Definition ETHERTYPE_VLAN : Z := 33024.
Definition VLAN_ID_MASK : Z := 4095.

(** The fixed-size array conversions: the slice must have exactly that length. *)
Definition ipv4_addr (b : bytes) : parse_result Z :=
  if decide (length b = 4%nat) then Ok (of_be b) else Err Truncated.
Definition ipv6_addr (b : bytes) : parse_result Z :=
  if decide (length b = 16%nat) then Ok (of_be b) else Err Truncated.
Definition read_mac (b : bytes) : parse_result MacAddr :=
  if decide (length b = 6%nat) then Ok b else Err Truncated.

(** [u16::from_be_bytes([l[i], l[i+1]])] *)
Definition be16_at {E} (l : bytes) (i : nat) : res E Z :=
  a ← idx l i; b ← idx l (S i); Ok (of_be [a; b]).

Definition ethernet_l3 (frame : bytes) : parse_result bytes :=
  '(header, rest) ← ok_or (split_at_checked ETHERNET_HEADER_SIZE frame) Truncated;
  ethertype ← range_from header 12;
  if negb (bool_decide (ethertype = be 2 ETHERTYPE_VLAN)) then Ok rest
  else
    '(tag, l3) ← ok_or (split_at_checked 4 rest) Truncated;
    tci ← be16_at tag 0;
    let vid := Z.land tci VLAN_ID_MASK in
    if vid =? 0 then Ok l3 else Err (VlanTagged vid).

Definition parse_link_header (link_type : LinkType) (frame : bytes) : parse_result LinkView :=
  match link_type with
  | Ethernet =>
      l3 ← ethernet_l3 frame;
      dst ← range frame 0 6; dst ← read_mac dst;
      src ← range frame 6 12; src ← read_mac src;
      Ok {| lv_dst_mac := Some dst; lv_src_mac := Some src; l3 := l3 |}
  | DltNull =>
      l3 ← ok_or (get_from DLT_NULL_HEADER_SIZE frame) Truncated;
      Ok {| lv_dst_mac := None; lv_src_mac := None; l3 := l3 |}
  | RawIp => Ok {| lv_dst_mac := None; lv_src_mac := None; l3 := frame |}
  end.

Definition parse_udp (l4 : bytes) : parse_result (Z * Z * bytes) :=
  if decide (length l4 < UDP_HEADER_SIZE)%nat then Err Truncated
  else
    src_port ← be16_at l4 0;
    dst_port ← be16_at l4 2;
    udp_len ← be16_at l4 4;
    let udp_len := Z.to_nat udp_len in
    if decide (udp_len < UDP_HEADER_SIZE \/ length l4 < udp_len)%nat then Err BadLength
    else
      payload ← range l4 UDP_HEADER_SIZE udp_len;
      Ok (src_port, dst_port, payload).

Definition datagram (link : LinkView) (source dest : IpAddr) (ttl : Z) (l4 : bytes)
  : parse_result Parsed :=
  '(src_port, dst_port, payload) ← parse_udp l4;
  Ok (Datagram {|
    pk_source := {| ip := source; port := src_port |};
    pk_dest := {| ip := dest; port := dst_port |};
    pk_ttl := ttl;
    pk_dst_mac := lv_dst_mac link;
    pk_src_mac := lv_src_mac link;
    pk_payload := payload |}).

Definition parse_ipv4 (link : LinkView) : parse_result Parsed :=
  let l3 := l3 link in
  if decide (length l3 < IPV4_HEADER_SIZE)%nat then Err Truncated
  else
    b0 ← idx l3 0;
    let header_len := (Z.to_nat (Z.land b0 15) * 4)%nat in
    if decide (header_len < IPV4_HEADER_SIZE \/ length l3 < header_len)%nat then Err BadLength
    else
      proto ← idx l3 9;
      if negb (proto =? IP_PROTO_UDP) then Err (NotUdp proto)
      else
        total_len ← be16_at l3 2;
        let total_len := Z.to_nat total_len in
        if decide (total_len < header_len \/ length l3 < total_len)%nat then Err BadLength
        else
          src ← range l3 12 16; src ← ipv4_addr src; let source := V4 src in
          dst ← range l3 16 20; dst ← ipv4_addr dst; let dest := V4 dst in
          ttl ← idx l3 8;
          body ← range l3 header_len total_len;
          flags_offset ← be16_at l3 6;
          let offset := (Z.to_nat (Z.land flags_offset 8191) * FRAGMENT_UNIT)%nat in
          let more := negb (Z.land flags_offset 8192 =? 0) in
          if (offset =? 0)%nat && negb more then datagram link source dest ttl body
          else
            id ← be16_at l3 4;
            Ok (Fragmented {|
              fr_header := {|
                fh_source := source; fh_dest := dest; fh_id := id; fh_offset := offset;
                fh_more := more; fh_ttl := ttl; fh_dst_mac := lv_dst_mac link;
                fh_src_mac := lv_src_mac link |};
              fr_data := body |}).

Definition parse_ipv6 (link : LinkView) : parse_result Parsed :=
  let l3 := l3 link in
  if decide (length l3 < IPV6_HEADER_SIZE)%nat then Err Truncated
  else
    payload_len ← be16_at l3 4;
    let total_len := (IPV6_HEADER_SIZE + Z.to_nat payload_len)%nat in
    if decide (length l3 < total_len)%nat then Err BadLength
    else
      src ← range l3 8 24; src ← ipv6_addr src; let source := V6 src in
      dst ← range l3 24 40; dst ← ipv6_addr dst; let dest := V6 dst in
      hop_limit ← idx l3 7;
      body ← range l3 IPV6_HEADER_SIZE total_len;
      next ← idx l3 6;
      if next =? IP_PROTO_UDP then datagram link source dest hop_limit body
      else if next =? IPV6_NEXT_FRAGMENT then
        '(fragment, data) ← ok_or (split_at_checked IPV6_FRAGMENT_HEADER_SIZE body) Truncated;
        proto ← idx fragment 0;
        if negb (proto =? IP_PROTO_UDP) then Err (NotUdp proto)
        else
          offset_more ← be16_at fragment 2;
          let offset := (Z.to_nat (Z.shiftr offset_more 3) * FRAGMENT_UNIT)%nat in
          let more := negb (Z.land offset_more 1 =? 0) in
          if (offset =? 0)%nat && negb more then datagram link source dest hop_limit data
          else
            id ← range fragment 4 8;
            Ok (Fragmented {|
              fr_header := {|
                fh_source := source; fh_dest := dest; fh_id := of_be id; fh_offset := offset;
                fh_more := more; fh_ttl := hop_limit; fh_dst_mac := lv_dst_mac link;
                fh_src_mac := lv_src_mac link |};
              fr_data := data |})
      else Err (NotUdp next).

(** [Parsed::parse]: the version nibble governs the header layout. *)
Definition parse (link_type : LinkType) (frame : bytes) : parse_result Parsed :=
  link ← parse_link_header link_type frame;
  first ← ok_or (head (l3 link)) Truncated;
  let version := Z.shiftr first 4 in
  if version =? 4 then parse_ipv4 link
  else if version =? 6 then parse_ipv6 link
  else Err (BadIpVersion version).

(** [Packet::reassembled] *)
Definition reassembled (first : FragmentHeader) (dgram : bytes) : parse_result Packet :=
  '(src_port, dst_port, payload) ← parse_udp dgram;
  '(header, _) ← ok_or (split_at_checked UDP_HEADER_SIZE dgram) Truncated;
  if negb (UDP_HEADER_SIZE + length payload =? length dgram)%nat then Err BadLength
  else
    stored ← be16_at header 6;
    valid ← match fh_source first, fh_dest first with
            | V4 src, V4 dst =>
                if stored =? 0 then Ok true
                else c ← udp_v4 src dst header payload; Ok (c =? stored)
            | V6 src, V6 dst => c ← udp_v6 src dst header payload; Ok (c =? stored)
            | _, _ => Ok false
            end;
    if negb valid then Err BadChecksum
    else Ok {|
      pk_source := {| ip := fh_source first; port := src_port |};
      pk_dest := {| ip := fh_dest first; port := dst_port |};
      pk_ttl := fh_ttl first;
      pk_dst_mac := fh_dst_mac first;
      pk_src_mac := fh_src_mac first;
      pk_payload := payload |}.

(** [Packet::is_broadcast] *)
Definition is_broadcast (p : Packet) (directed_broadcast : option Z) : bool :=
  match ip (pk_dest p), pk_dst_mac p with
  | V4 v4, Some mac => negb (Ipv4.is_multicast v4) && bool_decide (mac = mac_broadcast)
  | V4 v4, None => Ipv4.is_broadcast v4 || bool_decide (Some v4 = directed_broadcast)
  | V6 _, _ => false
  end.

(** [Fragment::headers]: the addressing of a datagram whose first fragment this is. *)
Definition headers (f : Fragment) : option Packet :=
  if negb (fh_offset (fr_header f) =? 0)%nat then None
  else
    '(udp, _) ← split_at_checked UDP_HEADER_SIZE (fr_data f);
    match udp with
    | s0 :: s1 :: d0 :: d1 :: _ =>
        Some {|
          pk_source := {| ip := fh_source (fr_header f); port := of_be [s0; s1] |};
          pk_dest := {| ip := fh_dest (fr_header f); port := of_be [d0; d1] |};
          pk_ttl := fh_ttl (fr_header f);
          pk_dst_mac := fh_dst_mac (fr_header f);
          pk_src_mac := fh_src_mac (fr_header f);
          pk_payload := [] |}
    | _ => None
    end.

(** ** No panic *)

Lemma be16_at_safe {E} l i : (S i < length l)%nat -> safe (be16_at (E:=E) l i).
Proof. intros. unfold be16_at. repeat safe_step; lia. Qed.

Lemma be16_at_Ok {E} l i z :
  be16_at (E:=E) l i = Ok z <-> exists a b, l !! i = Some a /\ l !! S i = Some b /\ z = of_be [a; b].
Proof.
  unfold be16_at. split.
  - intros. inv_res. rewrite idx_Ok in *. naive_solver.
  - intros (a&b&Ha&Hb&->). unfold idx. by rewrite Ha, Hb.
Qed.

Lemma ethernet_l3_safe frame : safe (ethernet_l3 frame).
Proof.
  unfold ethernet_l3. repeat safe_step; inv_res; rewrite split_at_checked_Some in *;
    destruct_and!; subst; unfold ETHERNET_HEADER_SIZE in *; try apply be16_at_safe; len.
Qed.

Lemma ethernet_l3_length frame l : ethernet_l3 frame = Ok l -> (14 <= length frame)%nat.
Proof.
  unfold ethernet_l3. intros H. inv_res. destruct x as [h r]. inv_res.
  rewrite split_at_checked_Some in *. by destruct_and!.
Qed.

Lemma parse_link_header_safe lt frame : safe (parse_link_header lt frame).
Proof.
  unfold parse_link_header. destruct lt; repeat safe_step;
    try apply ethernet_l3_safe; unfold read_mac; repeat safe_step;
    match goal with H : ethernet_l3 _ = Ok _ |- _ => apply ethernet_l3_length in H | _ => idtac end; lia.
Qed.

Lemma parse_udp_safe l4 : safe (parse_udp l4).
Proof.
  unfold parse_udp, UDP_HEADER_SIZE. repeat safe_step; try apply be16_at_safe; lia.
Qed.

Lemma datagram_safe link s d t l4 : safe (datagram link s d t l4).
Proof. unfold datagram. safe_step; [apply parse_udp_safe|]. repeat safe_step. Qed.

Lemma parse_ipv4_safe link : safe (parse_ipv4 link).
Proof.
  unfold parse_ipv4, ipv4_addr, IPV4_HEADER_SIZE.
  repeat safe_step; try apply be16_at_safe; try apply datagram_safe; lia.
Qed.

Lemma parse_ipv6_safe link : safe (parse_ipv6 link).
Proof.
  unfold parse_ipv6, ipv6_addr, IPV6_HEADER_SIZE, IPV6_FRAGMENT_HEADER_SIZE.
  repeat safe_step; try apply be16_at_safe; try apply datagram_safe; try lia;
    inv_res; rewrite split_at_checked_Some in *; destruct_and!; subst; len.
Qed.

Lemma parse_safe lt frame : safe (parse lt frame).
Proof.
  unfold parse. safe_step; [apply parse_link_header_safe|]. safe_step; [apply safe_ok_or|].
  repeat case_match; auto using parse_ipv4_safe, parse_ipv6_safe, safe_Err.
Qed.

(** The payload lies inside the UDP length, itself inside the bytes given. *)
Lemma parse_udp_length l4 sp dp payload :
  bytes_ok l4 -> parse_udp l4 = Ok (sp, dp, payload) ->
  (8 + length payload <= length l4)%nat /\ Z.of_nat (8 + length payload) < 65536 /\
  payload = take (length payload) (drop 8 l4) /\ word_ok 16 sp /\ word_ok 16 dp.
Proof.
  unfold parse_udp, UDP_HEADER_SIZE. intros Hb H.
  case_decide; [done|]. inv_res.
  assert (forall i z, be16_at (E:=ParseError) l4 i = Ok z -> word_ok 16 z) as Hw.
  { intros i z (a&b&Ha&Hb'&->)%be16_at_Ok. apply (of_be_bound [a; b]).
    rewrite !Forall_cons. split_and!; [by eapply Forall_lookup_1..|done]. }
  repeat match goal with H : be16_at _ _ = _ |- _ => apply Hw in H end.
  case_decide; [done|]. inv_res. rewrite range_Ok in *. destruct_and!. subst.
  unfold word_ok in *. split_and!; try lia; [len|len|]. f_equal. len.
Qed.

Lemma reassembled_safe first dgram : bytes_ok dgram -> safe (reassembled first dgram).
Proof.
  intros Hb. unfold reassembled. safe_step; [apply parse_udp_safe|]. destruct a as [[sp dp] payload].
  destruct (parse_udp_length _ _ _ _ Hb H) as (Hl&Hl'&_).
  safe_step; [apply safe_ok_or|]. inv_res. destruct a as [hdr rest].
  rewrite split_at_checked_Some in *. destruct_and!. subst. unfold UDP_HEADER_SIZE in *.
  case_match; [done|]. safe_step; [apply be16_at_safe; len|].
  safe_step; [|destruct (negb a0); [apply safe_Err|apply safe_Ok]].
  repeat case_match; try apply safe_Ok; (safe_step; [|apply safe_Ok]);
    unfold udp_v4, udp_v6; rewrite udp_length_ok, bind_ret by done; apply udp_checksum_safe; len.
Qed.

(** [s] is a run of [l]. *)
Definition slice_of {A} (s l : list A) : Prop := exists a b, l = a ++ s ++ b.

Lemma slice_of_trans {A} (a b c : list A) : slice_of a b -> slice_of b c -> slice_of a c.
Proof. intros (x&y&->) (u&v&->). exists (u ++ x), (y ++ v). by rewrite <- !app_assoc. Qed.

Lemma slice_of_range {E A} (l s : list A) a b : range (E:=E) l a b = Ok s -> slice_of s l.
Proof.
  intros (?&?&->)%range_Ok. exists (take a l), (drop (b - a) (drop a l)). by rewrite !take_drop.
Qed.
Lemma slice_of_drop {A} (l : list A) n : slice_of (drop n l) l.
Proof. exists (take n l), []. by rewrite app_nil_r, take_drop. Qed.

Lemma ethernet_l3_slice frame l : ethernet_l3 frame = Ok l -> slice_of l frame.
Proof.
  unfold ethernet_l3. intros H. inv_res. split_pairs. inv_res.
  rewrite split_at_checked_Some in *. destruct_and!. subst.
  case_match; inv_res; [apply slice_of_drop|]. split_pairs. inv_res.
  rewrite split_at_checked_Some in *. destruct_and!. subst. case_match; inv_res.
  eapply slice_of_trans; apply slice_of_drop.
Qed.

Lemma parse_link_header_slice lt frame link : parse_link_header lt frame = Ok link -> slice_of (l3 link) frame.
Proof.
  destruct lt; cbn [parse_link_header]; intros H; inv_res; cbn [l3].
  - by apply ethernet_l3_slice.
  - rewrite get_from_Some in *. destruct_and!. subst. apply slice_of_drop.
  - exists [], []. by rewrite app_nil_r.
Qed.

(** The bytes a parse result carries. *)
Definition parsed_bytes (p : Parsed) : bytes :=
  match p with Datagram p => pk_payload p | Fragmented f => fr_data f end.

Lemma datagram_slice link s d t l4 p : datagram link s d t l4 = Ok p -> slice_of (parsed_bytes p) l4.
Proof.
  unfold datagram, parse_udp. intros H. inv_res. split_pairs. inv_res.
  case_decide; [done|]. inv_res. case_decide; [done|]. inv_res. by eapply slice_of_range.
Qed.

Lemma parse_ipv4_slice link p : parse_ipv4 link = Ok p -> slice_of (parsed_bytes p) (l3 link).
Proof.
  unfold parse_ipv4. intros H. case_decide; [done|]. inv_res. case_decide; [done|]. inv_res.
  case_match; [done|]. inv_res. case_decide; [done|]. inv_res.
  case_match; inv_res; cbn [parsed_bytes fr_data]; [eapply slice_of_trans; [by eapply datagram_slice|]|];
    by eapply slice_of_range.
Qed.

Lemma parse_ipv6_slice link p : parse_ipv6 link = Ok p -> slice_of (parsed_bytes p) (l3 link).
Proof.
  unfold parse_ipv6. intros H. case_decide; [done|]. inv_res. case_decide; [done|]. inv_res.
  assert (slice_of x5 (l3 link)) as Hb by (by eapply slice_of_range).
  case_match; [eapply slice_of_trans; [by eapply datagram_slice|done]|].
  case_match; [|done]. inv_res. split_pairs. inv_res.
  rewrite split_at_checked_Some in *. destruct_and!. subst.
  eapply slice_of_trans; [|exact Hb]. eapply slice_of_trans; [|apply slice_of_drop].
  case_match; [done|]. inv_res. case_match; inv_res; [by eapply datagram_slice|].
  exists [], []. by rewrite app_nil_r.
Qed.

(** C6. Parsing a captured frame never panics, on any link type and any bytes
    at all, and neither does checking a reassembled datagram; whatever is
    parsed carries a contiguous run of the frame's own bytes. *)
Theorem parse_never_panics lt frame first dgram :
  bytes_ok dgram ->
  safe (parse lt frame) /\ safe (reassembled first dgram) /\
  (forall p, parse lt frame = Ok p -> slice_of (parsed_bytes p) frame).
Proof.
  intros Hd. split_and!; [apply parse_safe|by apply reassembled_safe|].
  unfold parse. intros p H. inv_res. eapply slice_of_trans; [|by eapply parse_link_header_slice].
  repeat case_match; try done; [by apply parse_ipv4_slice|by apply parse_ipv6_slice].
Qed.

Lemma parse_never_panics_witness : safe (parse Ethernet [1; 2]) /\ parse RawIp [69] = Err Truncated.
Proof.
  split; [|reflexivity].
  apply (parse_never_panics Ethernet [1; 2]
    {| fh_source := V4 1; fh_dest := V4 2; fh_id := 1; fh_offset := 0; fh_more := true;
       fh_ttl := 1; fh_dst_mac := None; fh_src_mac := None |} [0; 1]).
  by apply (bool_decide_eq_true_1 (Forall byte_ok _)).
Defined.
