(* ===== verification/Frame.v ===== *)
(** Building the frames injected on the egress path ([src/net/frame.rs]): the
    link and IP headers written into a caller's buffer, a UDP datagram laid
    out as one frame or as IP fragments, every [expect], index and
    [copy_from_slice] explicit. *)

From S2P Require Import Prelude Text Addr Checksum.

Local Open Scope Z_scope.

(** The libc constants and byte order a [DLT_NULL] header depends on. *)
Record Platform : Type := { af_inet : Z; af_inet6 : Z; little_endian : bool }.

Definition IPV4_ETHERTYPE : Z := 2048.
Definition IPV6_ETHERTYPE : Z := 34525.
Definition IPV4_FLAG_MF : Z := 8192.

Inductive FrameError : Type :=
  | BufferTooSmall (needed available : nat)
  | PayloadTooLarge (payload : nat)
  | MtuTooSmall (mtu : nat).
Global Instance FrameError_eq_dec : EqDecision FrameError.
Proof. solve_decision. Defined.

Inductive LinkHeader : Type :=
  | LEthernet (dst src : MacAddr)
  | LDltNull
  | LRawIp.

(** [LinkHeader::size] *)
Definition link_size (h : LinkHeader) : nat :=
  match h with
  | LEthernet _ _ => ETHERNET_HEADER_SIZE
  | LDltNull => DLT_NULL_HEADER_SIZE
  | LRawIp => 0
  end.

(** [u32::to_ne_bytes] *)
Definition ne_bytes (pf : Platform) (z : Z) : bytes :=
  if little_endian pf then reverse (be 4 z) else be 4 z.

(** [LinkHeader::write] *)
Definition link_write {E} (pf : Platform) (h : LinkHeader) (out : bytes) (ipv6 : bool) : res E bytes :=
  match h with
  | LEthernet dst src =>
      let ethertype := if ipv6 then IPV6_ETHERTYPE else IPV4_ETHERTYPE in
      out ← copy_at out 0 6 dst;
      out ← copy_at out 6 12 src;
      copy_at out 12 14 (be 2 ethertype)
  | LDltNull =>
      let family := if ipv6 then af_inet6 pf else af_inet pf in
      copy_at out 0 4 (ne_bytes pf family)
  | LRawIp => Ok out
  end.

(** Where a fragment's data sits in its datagram. *)
Record Placement : Type := { pl_offset : nat; pl_more : bool }.

(** [Placement::units] *)
Definition units {E} (p : Placement) : res E Z :=
  expect (u16_try (Z.of_nat (pl_offset p / FRAGMENT_UNIT)%nat)).

Inductive IpHeader : Type :=
  | IpV4 (src dst ttl id : Z)
  | IpV6 (src dst hop_limit id : Z).

(** [IpHeader::size] *)
Definition ip_size (h : IpHeader) (fragmented : bool) : nat :=
  match h with
  | IpV4 _ _ _ _ => IPV4_HEADER_SIZE
  | IpV6 _ _ _ _ => if fragmented then IPV6_HEADER_SIZE + IPV6_FRAGMENT_HEADER_SIZE else IPV6_HEADER_SIZE
  end.

(** [IpHeader::write]; [out] is exactly the header. *)
Definition ip_write {E} (h : IpHeader) (out : bytes) (data_len : nat) (placement : option Placement)
  : res E bytes :=
  let out := replicate (length out) 0 in
  match h with
  | IpV4 src dst ttl id =>
      total_length ← expect (u16_try (Z.of_nat (IPV4_HEADER_SIZE + data_len)));
      flags_offset ← match placement with
                     | None => Ok 0
                     | Some p => u ← units p; Ok (Z.lor u (if pl_more p then IPV4_FLAG_MF else 0))
                     end;
      out ← set_at out 0 69;
      out ← copy_at out 2 4 (be 2 total_length);
      out ← copy_at out 4 6 (be 2 id);
      out ← copy_at out 6 8 (be 2 flags_offset);
      out ← set_at out 8 ttl;
      out ← set_at out 9 IP_PROTO_UDP;
      out ← copy_at out 12 16 (v4_octets src);
      out ← copy_at out 16 20 (v4_octets dst);
      checksum ← ipv4_header out;
      copy_at out 10 12 (be 2 checksum)
  | IpV6 src dst hop_limit id =>
      payload_length ← expect (u16_try (Z.of_nat (length out - IPV6_HEADER_SIZE + data_len)));
      out ← set_at out 0 96;
      out ← copy_at out 4 6 (be 2 payload_length);
      out ← set_at out 6 IP_PROTO_UDP;
      out ← set_at out 7 hop_limit;
      out ← copy_at out 8 24 (v6_octets src);
      out ← copy_at out 24 40 (v6_octets dst);
      match placement with
      | None => Ok out
      | Some p =>
          out ← set_at out 6 IPV6_NEXT_FRAGMENT;
          fragment ← range_from out IPV6_HEADER_SIZE;
          fragment ← set_at fragment 0 IP_PROTO_UDP;
          u ← units p;
          let offset_more := Z.lor (Z.land (Z.shiftl u 3) 65535) (Z.b2z (pl_more p)) in
          fragment ← copy_at fragment 2 4 (be 2 offset_more);
          fragment ← copy_at fragment 4 8 (be 4 id);
          Ok (take IPV6_HEADER_SIZE out ++ fragment)
      end
  end.

(** A UDP datagram laid out for one link. *)
Record UdpFrames : Type := {
  uf_link : LinkHeader;
  uf_ip : IpHeader;
  uf_udp : bytes;
  uf_payload : bytes;
  uf_chunk : nat;
  uf_fragmented : bool;
}.

(** [udp_header]: the checksum field is left zero. *)
Definition udp_header (src_port dst_port : Z) (payload : bytes) (ipv4_header : nat)
  : res FrameError bytes :=
  let length := (UDP_HEADER_SIZE + length payload)%nat in
  match u16_try (Z.of_nat (ipv4_header + length)) with
  | None => Err (PayloadTooLarge (List.length payload))
  | Some _ =>
      len ← expect (u16_try (Z.of_nat length));
      let udp := replicate UDP_HEADER_SIZE 0 in
      udp ← copy_at udp 0 2 (be 2 src_port);
      udp ← copy_at udp 2 4 (be 2 dst_port);
      copy_at udp 4 6 (be 2 len)
  end.

(** [UdpFrames::new]; [saturating_sub] is subtraction on [nat]. *)
Definition new (link : LinkHeader) (ip : IpHeader) (udp payload : bytes) (mtu : nat)
  : res FrameError UdpFrames :=
  let dgram := (UDP_HEADER_SIZE + length payload)%nat in
  '(chunk, fragmented) ←
    (if decide (ip_size ip false + dgram <= mtu)%nat then Ok (dgram, false)
     else
       let room := (mtu - ip_size ip true)%nat in
       let chunk := (room - room mod FRAGMENT_UNIT)%nat in
       if (chunk =? 0)%nat then Err (MtuTooSmall mtu) else Ok (chunk, true));
  Ok {| uf_link := link; uf_ip := ip; uf_udp := udp; uf_payload := payload;
        uf_chunk := chunk; uf_fragmented := fragmented |}.

(** [UdpFrames::ipv4] and [UdpFrames::ipv6] *)
Definition udp_frames_ipv4 (link : LinkHeader) (src : Z) (src_port : Z) (dst : Z) (dst_port : Z)
    (ttl id : Z) (payload : bytes) (mtu : nat) : res FrameError UdpFrames :=
  udp ← udp_header src_port dst_port payload IPV4_HEADER_SIZE;
  checksum ← udp_v4 src dst udp payload;
  udp ← copy_at udp 6 8 (be 2 checksum);
  new link (IpV4 src dst ttl id) udp payload mtu.

Definition udp_frames_ipv6 (link : LinkHeader) (src : Z) (src_port : Z) (dst : Z) (dst_port : Z)
    (hop_limit id : Z) (payload : bytes) (mtu : nat) : res FrameError UdpFrames :=
  udp ← udp_header src_port dst_port payload 0;
  checksum ← udp_v6 src dst udp payload;
  udp ← copy_at udp 6 8 (be 2 checksum);
  new link (IpV6 src dst hop_limit id) udp payload mtu.

Definition datagram_len (f : UdpFrames) : nat := (UDP_HEADER_SIZE + length (uf_payload f))%nat.

(** [usize::div_ceil] by a positive divisor. *)
Definition div_ceil (a b : nat) : nat := ((a + (b - 1)) / b)%nat.

(** [UdpFrames::count] *)
Definition count (f : UdpFrames) : nat := div_ceil (datagram_len f) (uf_chunk f).

Definition ip_is_v6 (h : IpHeader) : bool := match h with IpV6 _ _ _ _ => true | _ => false end.

(** [UdpFrames::write]: frame [index] into [out]; the length written and the
    buffer afterwards. *)
Definition write (pf : Platform) (f : UdpFrames) (index : nat) (out : bytes)
  : res FrameError (nat * bytes) :=
  let dlen := datagram_len f in
  let start := (index * uf_chunk f)%nat in
  if negb (start <? dlen)%nat then Panic
  else
    let end_ := Nat.min (start + uf_chunk f) dlen in
    let link_len := link_size (uf_link f) in
    let ip_len := ip_size (uf_ip f) (uf_fragmented f) in
    let frame_len := (link_len + ip_len + (end_ - start))%nat in
    let available := length out in
    out' ← ok_or (get_range 0 frame_len out) (BufferTooSmall frame_len available);
    let link := take link_len out' in
    let rest := drop link_len out' in
    let header := take ip_len rest in
    let body := drop ip_len rest in
    link ← link_write pf (uf_link f) link (ip_is_v6 (uf_ip f));
    let placement := if uf_fragmented f
                     then Some {| pl_offset := start; pl_more := (end_ <? dlen)%nat |} else None in
    header ← ip_write (uf_ip f) header (length body) placement;
    body ←
      (if (start =? 0)%nat then
         '(udp, rest) ← expect (split_at_checked UDP_HEADER_SIZE body);
         udp ← copy_at udp 0 (length udp) (uf_udp f);
         p ← range (uf_payload f) 0 (length rest);
         rest ← copy_at rest 0 (length rest) p;
         Ok (udp ++ rest)
       else
         let from := (start - UDP_HEADER_SIZE)%nat in
         p ← range (uf_payload f) from (from + length body);
         copy_at body 0 (length body) p);
    Ok (frame_len, link ++ header ++ body ++ drop frame_len out).
