(* ===== verification/FrameSpec.v ===== *)
(** What a built frame is: the bytes of each header as one list, and the
    theorem that [UdpFrames::write] produces exactly link header, IP header
    and the frame's share of the datagram, without a panic. *)

From S2P Require Import Prelude Text Addr Checksum Packet Frame.

Local Open Scope Z_scope.

Definition ipv4_bytes (src dst ttl id total flags csum : Z) : bytes :=
  [69; 0] ++ be 2 total ++ be 2 id ++ be 2 flags ++ [ttl; IP_PROTO_UDP] ++ be 2 csum ++
  v4_octets src ++ v4_octets dst.

Definition ipv6_bytes (src dst hop len next : Z) : bytes :=
  [96; 0; 0; 0] ++ be 2 len ++ [next; hop] ++ v6_octets src ++ v6_octets dst.

Definition fragment_bytes (offset_more id : Z) : bytes :=
  [IP_PROTO_UDP; 0] ++ be 2 offset_more ++ be 4 id.

(** The UDP header with checksum [c]. *)
Definition udp_bytes (src_port dst_port len c : Z) : bytes :=
  be 2 src_port ++ be 2 dst_port ++ be 2 len ++ be 2 c.

Definition link_bytes (pf : Platform) (h : LinkHeader) (v6 : bool) : bytes :=
  match h with
  | LEthernet dst src => dst ++ src ++ be 2 (if v6 then IPV6_ETHERTYPE else IPV4_ETHERTYPE)
  | LDltNull => ne_bytes pf (if v6 then af_inet6 pf else af_inet pf)
  | LRawIp => []
  end.

Definition link_ok (h : LinkHeader) : Prop :=
  match h with LEthernet dst src => mac_ok dst /\ mac_ok src | _ => True end.

Definition v4_flags (pl : option Placement) : Z :=
  match pl with
  | None => 0
  | Some p => Z.lor (Z.of_nat (pl_offset p / 8)) (if pl_more p then 8192 else 0)
  end.

Definition v6_offset_more (p : Placement) : Z :=
  Z.lor (Z.land (Z.shiftl (Z.of_nat (pl_offset p / 8)) 3) 65535) (Z.b2z (pl_more p)).

(** The IP header as bytes; [c] is the IPv4 checksum. *)
Definition ip_bytes (h : IpHeader) (data_len : nat) (pl : option Placement) (c : Z) : bytes :=
  match h with
  | IpV4 src dst ttl id =>
      ipv4_bytes src dst ttl id (Z.of_nat (20 + data_len)) (v4_flags pl) c
  | IpV6 src dst hop id =>
      match pl with
      | None => ipv6_bytes src dst hop (Z.of_nat data_len) IP_PROTO_UDP
      | Some p => ipv6_bytes src dst hop (Z.of_nat (8 + data_len)) IPV6_NEXT_FRAGMENT ++
                  fragment_bytes (v6_offset_more p) id
      end
  end.

Definition ip_header_ok (h : IpHeader) : Prop :=
  match h with
  | IpV4 src dst ttl id => word_ok 32 src /\ word_ok 32 dst /\ byte_ok ttl /\ word_ok 16 id
  | IpV6 src dst hop id => word_ok 128 src /\ word_ok 128 dst /\ byte_ok hop /\ word_ok 32 id
  end.

(** A header whose checksum field a receiver accepts: IPv6 has none. *)
Definition ip_verifies (h : IpHeader) (b : bytes) : Prop :=
  match h with IpV4 _ _ _ _ => rfc1071_ok b | IpV6 _ _ _ _ => True end.

Lemma u16_try_Some z : 0 <= z < 65536 -> u16_try z = Some z.
Proof. intros. unfold u16_try. by assert ((0 <=? z) && (z <? 2 ^ 16) = true) as -> by lia. Qed.

Lemma length_ne_bytes pf z : length (ne_bytes pf z) = 4%nat.
Proof. unfold ne_bytes. destruct (little_endian pf); len. Qed.

Lemma copy_at_full {E A} (l d : list A) :
  length d = length l -> copy_at (E:=E) l 0 (length l) d = Ok d.
Proof.
  intros. rewrite copy_at_ok by lia. rewrite take_0, drop_all. cbn. by rewrite app_nil_r.
Qed.

Lemma link_write_spec {E} pf h out v6 :
  link_ok h -> length out = link_size h ->
  link_write (E:=E) pf h out v6 = Ok (link_bytes pf h v6).
Proof.
  destruct h as [dst src| |]; cbn [link_ok link_size link_write link_bytes]; intros Hok Hl.
  - destruct Hok as [Hd Hs]. unfold mac_ok, ETHERNET_HEADER_SIZE in *.
    do 14 (destruct out as [|? out]; [discriminate Hl|]). destruct out; [|discriminate Hl].
    do 6 (destruct dst as [|? dst]; [discriminate Hd|]). destruct dst; [|discriminate Hd].
    do 6 (destruct src as [|? src]; [discriminate Hs|]). destruct src; [|discriminate Hs].
    rewrite copy_at_ok by (cbn; lia). cbn [mbind res_bind take drop app].
    rewrite copy_at_ok by (cbn; lia). cbn [mbind res_bind take drop app].
    rewrite copy_at_ok by (cbn; lia). done.
  - unfold DLT_NULL_HEADER_SIZE in Hl. rewrite <- Hl at 1. apply copy_at_full.
    by rewrite length_ne_bytes.
  - by destruct out.
Qed.

(** One buffer write on a list of known length. *)
Ltac wr :=
  first [rewrite set_at_ok by (cbn; lia) | rewrite copy_at_ok by (cbn; lia)];
  cbn [mbind res_bind take drop app insert list_insert].

Lemma units_ok {E} p : Z.of_nat (pl_offset p) < 65536 ->
  units (E:=E) p = Ok (Z.of_nat (pl_offset p / 8)).
Proof. intros. unfold units, FRAGMENT_UNIT. rewrite u16_try_Some; [done|dlia]. Qed.

Lemma v4_flags_write {E} pl :
  (forall p, pl = Some p -> Z.of_nat (pl_offset p) < 65536) ->
  match pl with
  | None => Ok 0
  | Some p => u ← units p; Ok (E:=E) (Z.lor u (if pl_more p then IPV4_FLAG_MF else 0))
  end = Ok (v4_flags pl).
Proof. intros H. destruct pl as [p|]; [|done]. by rewrite units_ok by (by apply H). Qed.

(** The header around its checksum field. *)
Definition ipv4_front (ttl id total flags : Z) : bytes :=
  [69; 0] ++ be 2 total ++ be 2 id ++ be 2 flags ++ [ttl; IP_PROTO_UDP].
Definition ipv4_back (src dst : Z) : bytes := v4_octets src ++ v4_octets dst.

Lemma ipv4_bytes_split src dst ttl id total flags c :
  ipv4_bytes src dst ttl id total flags c =
  ipv4_front ttl id total flags ++ be 2 c ++ ipv4_back src dst.
Proof. unfold ipv4_bytes, ipv4_front, ipv4_back. by rewrite <- !app_assoc. Qed.

Lemma length_ipv4_front ttl id total flags : length (ipv4_front ttl id total flags) = 10%nat.
Proof. unfold ipv4_front. len. Qed.
Lemma length_ipv4_back src dst : length (ipv4_back src dst) = 8%nat.
Proof. unfold ipv4_back, v4_octets. len. Qed.

Lemma bytes_ok_ipv4_front ttl id total flags : byte_ok ttl -> bytes_ok (ipv4_front ttl id total flags).
Proof.
  intros. unfold ipv4_front. rewrite !Forall_app. split_and!; try apply bytes_ok_be;
    rewrite ?Forall_cons; split_and!; try done; by unfold byte_ok, IP_PROTO_UDP.
Qed.
Lemma bytes_ok_ipv4_back src dst : bytes_ok (ipv4_back src dst).
Proof. apply Forall_app. split; apply bytes_ok_be. Qed.

Lemma word_sum_ipv4_front ttl id total flags :
  byte_ok ttl -> word_sum (ipv4_front ttl id total flags) <> 0.
Proof.
  intros Ht. pose proof (bytes_ok_ipv4_front ttl id total flags Ht) as B.
  unfold ipv4_front in *. rewrite word_sum_app by done. apply Forall_app in B as [_ B].
  pose proof (word_sum_bound _ B).
  assert (word_sum [69; 0] = 17664) as -> by reflexivity. lia.
Qed.

Lemma ipv4_header_checksum {E} src dst ttl id total flags :
  byte_ok ttl ->
  exists c, ipv4_header (E:=E) (ipv4_front ttl id total flags ++ [0; 0] ++ ipv4_back src dst) = Ok c /\
    0 <= c < 65536 /\ rfc1071_ok (ipv4_bytes src dst ttl id total flags c).
Proof.
  intros Ht.
  destruct (ipv4_header_spec (E:=E) (ipv4_front ttl id total flags) [0; 0] (ipv4_back src dst))
    as (c&Hc&Hb&Hv); rewrite ?length_ipv4_front, ?length_ipv4_back;
    auto using bytes_ok_ipv4_front, bytes_ok_ipv4_back, word_sum_ipv4_front; [lia|].
  exists c. by rewrite ipv4_bytes_split.
Qed.

(** The buffer writes of the two headers, by evaluation. *)
Lemma ipv4_writes {E} (k : bytes -> res E bytes) t1 t0 i1 i0 f1 f0 ttl s3 s2 s1 s0 d3 d2 d1 d0 :
  (out ← set_at (replicate 20 0) 0 69;
   out ← copy_at out 2 4 [t1; t0];
   out ← copy_at out 4 6 [i1; i0];
   out ← copy_at out 6 8 [f1; f0];
   out ← set_at out 8 ttl;
   out ← set_at out 9 IP_PROTO_UDP;
   out ← copy_at out 12 16 [s3; s2; s1; s0];
   out ← copy_at out 16 20 [d3; d2; d1; d0];
   k out) =
  k [69; 0; t1; t0; i1; i0; f1; f0; ttl; IP_PROTO_UDP; 0; 0; s3; s2; s1; s0; d3; d2; d1; d0].
Proof. reflexivity. Qed.

Lemma ipv6_writes {E} (k : bytes -> res E bytes) n l1 l0 hop
    s0 s1 s2 s3 s4 s5 s6 s7 s8 s9 sa sb sc sd se sf d0 d1 d2 d3 d4 d5 d6 d7 d8 d9 da db dc dd de df :
  let src := [s0; s1; s2; s3; s4; s5; s6; s7; s8; s9; sa; sb; sc; sd; se; sf] in
  let dst := [d0; d1; d2; d3; d4; d5; d6; d7; d8; d9; da; db; dc; dd; de; df] in
  (out ← set_at (replicate (40 + n) 0) 0 96;
   out ← copy_at out 4 6 [l1; l0];
   out ← set_at out 6 IP_PROTO_UDP;
   out ← set_at out 7 hop;
   out ← copy_at out 8 24 src;
   out ← copy_at out 24 40 dst;
   k out) =
  k ([96; 0; 0; 0; l1; l0; IP_PROTO_UDP; hop] ++ src ++ dst ++ replicate n 0).
Proof. reflexivity. Qed.

Lemma fragment_header_writes {E} (k : bytes -> res E bytes) id3 id2 id1 id0 u1 u0 :
  (fragment ← set_at (replicate 8 0) 0 IP_PROTO_UDP;
   fragment ← copy_at fragment 2 4 [u1; u0];
   fragment ← copy_at fragment 4 8 [id3; id2; id1; id0];
   k fragment) =
  k [IP_PROTO_UDP; 0; u1; u0; id3; id2; id1; id0].
Proof. reflexivity. Qed.

Lemma fragment_writes {E} hdr next hop src dst id3 id2 id1 id0 u1 u0 :
  length hdr = 6%nat -> length (src ++ dst) = 32%nat ->
  (out ← set_at (E:=E) (hdr ++ [next; hop] ++ src ++ dst ++ replicate 8 0) 6 IPV6_NEXT_FRAGMENT;
   fragment ← range_from out 40;
   fragment ← set_at fragment 0 IP_PROTO_UDP;
   fragment ← copy_at fragment 2 4 [u1; u0];
   fragment ← copy_at fragment 4 8 [id3; id2; id1; id0];
   Ok (take 40 out ++ fragment)) =
  Ok (hdr ++ [IPV6_NEXT_FRAGMENT; hop] ++ src ++ dst ++
      [IP_PROTO_UDP; 0; u1; u0; id3; id2; id1; id0]).
Proof.
  intros Hh Hsd. rewrite set_at_ok by len. cbn [mbind res_bind].
  rewrite insert_app_r_alt by lia. rewrite Hh, (app_assoc src dst). cbn [Nat.sub app insert list_insert].
  assert (drop 40 (hdr ++ IPV6_NEXT_FRAGMENT :: hop :: (src ++ dst) ++ replicate 8 0) = replicate 8 0) as Hd.
  { rewrite (app_comm_cons (src ++ dst)), (app_comm_cons (hop :: _)), app_assoc.
    apply drop_app_length'. len. }
  unfold range_from, get_from. rewrite decide_True by len. rewrite Hd.
  rewrite (app_comm_cons (src ++ dst)), (app_comm_cons (hop :: _)), app_assoc.
  rewrite take_app_length' by len. cbn [expect mbind res_bind].
  etrans; [apply (fragment_header_writes
    (fun f => Ok ((hdr ++ IPV6_NEXT_FRAGMENT :: hop :: src ++ dst) ++ f)))|].
  by rewrite <- !app_assoc, <- !app_comm_cons, <- !app_assoc.
Qed.

Lemma ip_write_v4_spec {E} src dst ttl id data_len pl :
  byte_ok ttl -> Z.of_nat (20 + data_len) < 65536 ->
  (forall p, pl = Some p -> Z.of_nat (pl_offset p) < 65536) ->
  let h := IpV4 src dst ttl id in
  exists c, 0 <= c < 65536 /\ ip_verifies h (ip_bytes h data_len pl c) /\
    forall out, length out = 20%nat ->
      ip_write (E:=E) h out data_len pl = Ok (ip_bytes h data_len pl c).
Proof.
  intros Httl Ht Hpl h. subst h.
  destruct (ipv4_header_checksum (E:=E) src dst ttl id (Z.of_nat (20 + data_len)) (v4_flags pl) Httl)
    as (c&Hc&Hb&Hv).
  exists c. split_and!; [lia|lia|exact Hv|]. intros out Hl.
  unfold ip_write, IPV4_HEADER_SIZE. rewrite Hl, u16_try_Some by lia. cbn [expect mbind res_bind].
  rewrite v4_flags_write by done. cbn [mbind res_bind ip_bytes]. rewrite ipv4_bytes_split.
  unfold ipv4_front, ipv4_back, v4_octets in *.
  name_be2 (Z.of_nat (20 + data_len)). name_be2 id. name_be2 (v4_flags pl).
  name_be4 src. name_be4 dst.
  etrans; [apply (ipv4_writes (fun out => checksum ← ipv4_header out;
                                          copy_at out 10 12 (be 2 checksum)))|].
  cbn [app] in Hc. rewrite Hc. cbn [mbind res_bind].
  rewrite copy_at_ok; [reflexivity|lia|cbn; lia|by rewrite length_be].
Qed.

Lemma ip_write_v6_spec {E} src dst hop id out data_len pl :
  length out = ip_size (IpV6 src dst hop id) (bool_decide (is_Some pl)) ->
  Z.of_nat (length out - 40 + data_len) < 65536 ->
  (forall p, pl = Some p -> Z.of_nat (pl_offset p) < 65536) ->
  let h := IpV6 src dst hop id in
  ip_write (E:=E) h out data_len pl = Ok (ip_bytes h data_len pl 0).
Proof.
  intros Hl Ht Hpl h. subst h. unfold ip_write, ip_bytes, ipv6_bytes, fragment_bytes, v6_octets.
  rewrite length_replicate. name_be16 src. name_be16 dst.
  destruct pl as [p|]; cbn [ip_size] in Hl; rewrite Hl in *.
  - rewrite bool_decide_true in * by done. unfold IPV6_FRAGMENT_HEADER_SIZE, IPV6_HEADER_SIZE in Ht.
    change (IPV6_HEADER_SIZE + IPV6_FRAGMENT_HEADER_SIZE - IPV6_HEADER_SIZE)%nat with 8%nat.
    rewrite u16_try_Some by lia. cbn [expect mbind res_bind].
    change (IPV6_HEADER_SIZE + IPV6_FRAGMENT_HEADER_SIZE)%nat with (40 + 8)%nat.
    name_be2 (Z.of_nat (8 + data_len)). name_be4 id.
    rewrite (units_ok p) by (by apply Hpl). cbn [mbind res_bind]. change IPV6_HEADER_SIZE with 40%nat.
    rewrite ipv6_writes. fold (v6_offset_more p). name_be2 (v6_offset_more p).
    match goal with |- context [[96; 0; 0; 0; ?a; ?b; ?c; ?d] ++ ?r] =>
      change ([96; 0; 0; 0; a; b; c; d] ++ r) with ([96; 0; 0; 0; a; b] ++ [c; d] ++ r) end.
    etrans; [by apply fragment_writes|]. reflexivity.
  - rewrite bool_decide_false in * by (by intros [? ?]). unfold IPV6_HEADER_SIZE in Ht.
    change (IPV6_HEADER_SIZE - IPV6_HEADER_SIZE + data_len)%nat with data_len.
    rewrite u16_try_Some by lia. cbn [expect mbind res_bind].
    change IPV6_HEADER_SIZE with (40 + 0)%nat.
    name_be2 (Z.of_nat data_len). rewrite ipv6_writes. reflexivity.
Qed.

(** ** Laying out a datagram *)

(** The UDP header and payload of a datagram. *)
Definition datagram_bytes (f : UdpFrames) : bytes := uf_udp f ++ uf_payload f.

(** What [UdpFrames::new] establishes for a datagram laid out under [mtu]. *)
Record frames_wf (mtu : nat) (f : UdpFrames) : Prop := {
  wf_link : link_ok (uf_link f);
  wf_ip : ip_header_ok (uf_ip f);
  wf_udp : length (uf_udp f) = 8%nat;
  wf_len : Z.of_nat (datagram_len f + if ip_is_v6 (uf_ip f) then 0 else 20) < 65536;
  wf_chunk_pos : (0 < uf_chunk f)%nat;
  wf_whole : uf_fragmented f = false ->
    uf_chunk f = datagram_len f /\ (ip_size (uf_ip f) false + datagram_len f <= mtu)%nat;
  wf_fragmented : uf_fragmented f = true ->
    (uf_chunk f mod 8 = 0)%nat /\ (ip_size (uf_ip f) true + uf_chunk f <= mtu)%nat /\
    (mtu < ip_size (uf_ip f) false + datagram_len f)%nat;
}.

Lemma length_datagram_bytes mtu f : frames_wf mtu f -> length (datagram_bytes f) = datagram_len f.
Proof. intros H. unfold datagram_bytes, datagram_len. len. rewrite (wf_udp _ _ H). done. Qed.

Lemma ip_size_mono h : (ip_size h false <= ip_size h true)%nat.
Proof. destruct h; unfold ip_size; lia. Qed.

(** A fragmented datagram does not fit one chunk, and the chunk is aligned. *)
Lemma wf_chunk_lt mtu f :
  frames_wf mtu f -> uf_fragmented f = true ->
  (uf_chunk f + (ip_size (uf_ip f) true - ip_size (uf_ip f) false) < datagram_len f)%nat.
Proof.
  intros H Hf. destruct (wf_fragmented _ _ H Hf) as (?&?&?).
  pose proof (ip_size_mono (uf_ip f)). lia.
Qed.

Lemma wf_chunk_le mtu f : frames_wf mtu f -> (uf_chunk f <= datagram_len f)%nat.
Proof.
  intros H. destruct (uf_fragmented f) eqn:Hf.
  - pose proof (wf_chunk_lt _ _ H Hf). lia.
  - destruct (wf_whole _ _ H Hf). lia.
Qed.

Lemma div_ceil_lt i a b : (0 < b)%nat -> (i < div_ceil a b <-> i * b < a)%nat.
Proof.
  intros Hb. unfold div_ceil. rewrite Nat.lt_nge, (Nat.lt_nge (i * b)).
  pose proof (Nat.div_mod_eq (a + (b - 1)) b). pose proof (Nat.mod_upper_bound (a + (b - 1)) b).
  set (q := ((a + (b - 1)) / b)%nat) in *. split; intros Hn Hc; apply Hn; nia.
Qed.

Lemma count_lt mtu f i :
  frames_wf mtu f -> (i < count f <-> i * uf_chunk f < datagram_len f)%nat.
Proof. intros H. apply div_ceil_lt, H. Qed.

(** The share of the datagram frame [i] carries: [seg_start], [seg_end]. *)
Definition seg_start (f : UdpFrames) (i : nat) : nat := i * uf_chunk f.
Definition seg_end (f : UdpFrames) (i : nat) : nat :=
  Nat.min (seg_start f i + uf_chunk f) (datagram_len f).
Definition segment (f : UdpFrames) (i : nat) : bytes :=
  take (seg_end f i - seg_start f i) (drop (seg_start f i) (datagram_bytes f)).

Definition placement (f : UdpFrames) (i : nat) : option Placement :=
  if uf_fragmented f
  then Some {| pl_offset := seg_start f i; pl_more := (seg_end f i <? datagram_len f)%nat |}
  else None.

Definition frame_bytes (pf : Platform) (f : UdpFrames) (i : nat) (c : Z) : bytes :=
  link_bytes pf (uf_link f) (ip_is_v6 (uf_ip f)) ++
  ip_bytes (uf_ip f) (seg_end f i - seg_start f i) (placement f i) c ++ segment f i.

Lemma length_link_bytes pf h v6 : link_ok h -> length (link_bytes pf h v6) = link_size h.
Proof.
  destruct h; cbn [link_ok link_bytes link_size]; [|by rewrite length_ne_bytes|done].
  unfold mac_ok, ETHERNET_HEADER_SIZE. intros [? ?]. len.
Qed.

Lemma length_ip_bytes h n pl c :
  length (ip_bytes h n pl c) = ip_size h (bool_decide (is_Some pl)).
Proof.
  destruct h; cbn [ip_bytes ip_size].
  - unfold ipv4_bytes, v4_octets, IPV4_HEADER_SIZE. len.
  - destruct pl; [rewrite bool_decide_true by done|rewrite bool_decide_false by (by intros [? ?])];
      unfold ipv6_bytes, fragment_bytes, v6_octets, IPV6_HEADER_SIZE, IPV6_FRAGMENT_HEADER_SIZE; len.
Qed.

Lemma length_segment mtu f i :
  frames_wf mtu f -> (i < count f)%nat -> length (segment f i) = (seg_end f i - seg_start f i)%nat.
Proof.
  intros H Hi%(count_lt _ _ _ H). unfold segment. len.
  rewrite (length_datagram_bytes _ _ H). unfold seg_end, seg_start. lia.
Qed.

Lemma placement_is_Some f i : bool_decide (is_Some (placement f i)) = uf_fragmented f.
Proof.
  unfold placement. destruct (uf_fragmented f); [by rewrite bool_decide_true|].
  rewrite bool_decide_false; [done|by intros [? ?]].
Qed.

Lemma length_frame_bytes mtu pf f i c :
  frames_wf mtu f -> (i < count f)%nat ->
  length (frame_bytes pf f i c) =
  (link_size (uf_link f) + ip_size (uf_ip f) (uf_fragmented f) + (seg_end f i - seg_start f i))%nat.
Proof.
  intros H Hi. unfold frame_bytes. rewrite !length_app, (length_segment _ _ _ H Hi).
  rewrite length_link_bytes by apply H. rewrite length_ip_bytes, placement_is_Some. lia.
Qed.

(** Every IP packet of the layout fits the MTU. *)
Lemma frame_fits mtu pf f i c :
  frames_wf mtu f -> (i < count f)%nat ->
  (length (frame_bytes pf f i c) <= link_size (uf_link f) + mtu)%nat.
Proof.
  intros H Hi. rewrite (length_frame_bytes _ _ _ _ _ H Hi). unfold seg_end, seg_start.
  destruct (uf_fragmented f) eqn:Hf.
  - destruct (wf_fragmented _ _ H Hf) as (?&?&?). lia.
  - destruct (wf_whole _ _ H Hf) as (?&?). lia.
Qed.

(** The segments, in order, are the datagram. *)
Lemma segments_take mtu f n :
  frames_wf mtu f ->
  concat (segment f <$> seq 0 n) = take (Nat.min (n * uf_chunk f) (datagram_len f)) (datagram_bytes f).
Proof.
  intros H. induction n as [|n IH]; [done|].
  rewrite seq_S, fmap_app, concat_app, IH. cbn [fmap list_fmap concat Nat.add]. rewrite app_nil_r.
  destruct (decide (n * uf_chunk f < datagram_len f)%nat) as [Hlt|Hge].
  - unfold segment. replace (Nat.min (n * uf_chunk f) (datagram_len f)) with (seg_start f n)
      by (unfold seg_start; lia).
    rewrite take_take_drop. f_equal. unfold seg_end, seg_start. lia.
  - unfold segment. replace (seg_end f n - seg_start f n)%nat with 0%nat
      by (unfold seg_end, seg_start; lia).
    rewrite take_0, app_nil_r. f_equal. nia.
Qed.

Lemma segments_concat mtu f :
  frames_wf mtu f -> concat (segment f <$> seq 0 (count f)) = datagram_bytes f.
Proof.
  intros H. rewrite (segments_take _ _ _ H). apply take_ge.
  rewrite (length_datagram_bytes _ _ H).
  assert (~ (count f * uf_chunk f < datagram_len f)%nat); [|lia].
  rewrite <- (count_lt _ _ _ H). lia.
Qed.

Lemma placement_offset mtu f i p :
  frames_wf mtu f -> (i < count f)%nat -> placement f i = Some p -> Z.of_nat (pl_offset p) < 65536.
Proof.
  intros H Hi%(count_lt _ _ _ H) Hp. unfold placement in Hp.
  destruct (uf_fragmented f); [|done]. injection Hp as <-. cbn.
  pose proof (wf_len _ _ H). unfold seg_start. lia.
Qed.

(** The IP header of frame [i], whatever the family. *)
Lemma ip_write_frame {E} mtu f i :
  frames_wf mtu f -> (i < count f)%nat ->
  let n := (seg_end f i - seg_start f i)%nat in
  exists c, 0 <= c < 65536 /\ ip_verifies (uf_ip f) (ip_bytes (uf_ip f) n (placement f i) c) /\
    forall out, length out = ip_size (uf_ip f) (uf_fragmented f) ->
      ip_write (E:=E) (uf_ip f) out n (placement f i) = Ok (ip_bytes (uf_ip f) n (placement f i) c).
Proof.
  intros H Hi n. subst n. pose proof (wf_ip _ _ H) as Hip. pose proof (wf_len _ _ H) as Hlen.
  assert (seg_end f i - seg_start f i <= uf_chunk f)%nat by (unfold seg_end; lia).
  pose proof (wf_chunk_le _ _ H). pose proof (placement_offset mtu f i) as Hpl.
  destruct (uf_ip f) as [src dst ttl id|src dst hop id] eqn:Eip; cbn [ip_is_v6 ip_header_ok] in *.
  - apply ip_write_v4_spec; [by destruct_and!|lia|].
    intros p Hp. by apply (Hpl p).
  - exists 0. split_and!; [lia|lia|done|]. intros out Ho.
    apply ip_write_v6_spec; [by rewrite placement_is_Some| |intros p Hp; by apply (Hpl p)].
    rewrite Ho. cbn [ip_size]. unfold IPV6_HEADER_SIZE, IPV6_FRAGMENT_HEADER_SIZE.
    destruct (uf_fragmented f) eqn:Hf; [|lia].
    pose proof (wf_chunk_lt _ _ H Hf) as Hc. rewrite Eip in Hc. cbn [ip_size] in Hc.
    unfold IPV6_HEADER_SIZE, IPV6_FRAGMENT_HEADER_SIZE in Hc. lia.
Qed.

(** The datagram bytes of frame [i], whether or not it holds the UDP header. *)
Lemma body_write {E} mtu f i body :
  frames_wf mtu f -> (i < count f)%nat -> length body = (seg_end f i - seg_start f i)%nat ->
  (if (seg_start f i =? 0)%nat then
     '(udp, rest) ← expect (split_at_checked UDP_HEADER_SIZE body);
     udp ← copy_at udp 0 (length udp) (uf_udp f);
     p ← range (uf_payload f) 0 (length rest);
     rest ← copy_at rest 0 (length rest) p;
     Ok (E:=E) (udp ++ rest)
   else
     let from := (seg_start f i - UDP_HEADER_SIZE)%nat in
     p ← range (uf_payload f) from (from + length body);
     copy_at body 0 (length body) p) = Ok (segment f i).
Proof.
  intros H Hi Hb. pose proof Hi as Hi'%(count_lt _ _ _ H). fold (seg_start f i) in Hi'.
  pose proof (length_datagram_bytes _ _ H). pose proof (wf_udp _ _ H) as Hu.
  pose proof (wf_chunk_pos _ _ H). pose proof (wf_chunk_le _ _ H).
  assert (8 <= uf_chunk f)%nat as H8.
  { destruct (uf_fragmented f) eqn:Hf.
    - destruct (wf_fragmented _ _ H Hf) as (Hm&_&_). dlia.
    - destruct (wf_whole _ _ H Hf) as [-> _]. unfold datagram_len, UDP_HEADER_SIZE. lia. }
  unfold segment. unfold datagram_len, UDP_HEADER_SIZE in *.
  destruct (seg_start f i =? 0)%nat eqn:Hs; cbn zeta.
  - assert (8 <= length body)%nat by (rewrite Hb; unfold seg_end, datagram_len, UDP_HEADER_SIZE; lia).
    unfold split_at_checked. rewrite decide_True by lia. cbn [expect mbind res_bind].
    rewrite copy_at_full by len. cbn [mbind res_bind].
    rewrite range_ok by (len; unfold seg_end, datagram_len, UDP_HEADER_SIZE in *; lia).
    cbn [mbind res_bind]. rewrite copy_at_full by (len; unfold seg_end, datagram_len, UDP_HEADER_SIZE in *; lia).
    cbn [mbind res_bind]. f_equal. assert (seg_start f i = 0%nat) as -> by lia.
    rewrite !drop_0, !Nat.sub_0_r. unfold datagram_bytes. rewrite take_app, (take_ge (uf_udp f)) by lia.
    f_equal. f_equal. len.
  - assert (8 <= seg_start f i)%nat.
    { unfold seg_start in *. destruct i; [cbn in Hs; lia|]. nia. }
    assert (length body <= length (uf_payload f) + 8 - seg_start f i)%nat
      by (rewrite Hb; unfold seg_end, datagram_len, UDP_HEADER_SIZE; lia).
    rewrite range_ok by lia. cbn [mbind res_bind]. rewrite copy_at_full by len. f_equal.
    unfold datagram_bytes. rewrite drop_app_ge by lia. rewrite Hu. f_equal. lia.
Qed.

(** [UdpFrames::write] on a layout: never a panic; the frame, then the rest of
    the buffer as it was, or [BufferTooSmall] when it does not fit. *)
Lemma write_spec mtu pf f i out :
  frames_wf mtu f -> (i < count f)%nat ->
  exists c, 0 <= c < 65536 /\
    ip_verifies (uf_ip f)
      (ip_bytes (uf_ip f) (seg_end f i - seg_start f i) (placement f i) c) /\
    let fb := frame_bytes pf f i c in
    write pf f i out =
    if decide (length fb <= length out)%nat
    then Ok (length fb, fb ++ drop (length fb) out)
    else Err (BufferTooSmall (length fb) (length out)).
Proof.
  intros H Hi. pose proof Hi as Hlt%(count_lt _ _ _ H).
  destruct (ip_write_frame (E:=FrameError) mtu f i H Hi) as (c&Hc&Hv&Hw).
  set (ipl := ip_size (uf_ip f) (uf_fragmented f)) in *.
  exists c. split_and!; [lia|lia|exact Hv|]. cbn zeta.
  rewrite (length_frame_bytes _ _ _ _ _ H Hi). unfold write.
  rewrite (proj2 (Nat.ltb_lt _ _) Hlt). cbn [negb].
  fold (seg_start f i). fold (seg_end f i). fold ipl.
  set (n := (link_size (uf_link f) + ipl + (seg_end f i - seg_start f i))%nat).
  unfold get_range. case_decide as Hfit; [rewrite decide_True by lia|by rewrite decide_False by lia].
  cbn [ok_or mbind res_bind]. rewrite drop_0, Nat.sub_0_r, take_take.
  rewrite link_write_spec by (apply H || (len; lia)). cbn [mbind res_bind].
  set (body := drop ipl (drop (link_size (uf_link f)) (take n out))).
  assert (length body = (seg_end f i - seg_start f i)%nat) as Hb by (subst body; len).
  rewrite Hb, Hw by len. cbn [mbind res_bind].
  rewrite <- Hb, (body_write mtu f i body H Hi Hb). cbn [mbind res_bind].
  unfold frame_bytes. by rewrite Hb, <- !app_assoc.
Qed.

(** ** Construction *)

Lemma aligned_chunk room : ((room - room mod 8) mod 8 = 0)%nat.
Proof.
  pose proof (Nat.div_mod_eq room 8) as E.
  replace (room - room mod 8)%nat with ((room / 8) * 8)%nat by lia. apply Nat.Div0.mod_mul.
Qed.

Lemma new_spec link ip udp payload mtu :
  link_ok link -> ip_header_ok ip -> length udp = 8%nat ->
  Z.of_nat (8 + length payload + if ip_is_v6 ip then 0 else 20) < 65536 ->
  match new link ip udp payload mtu with
  | Ok f => frames_wf mtu f /\ uf_link f = link /\ uf_ip f = ip /\ uf_udp f = udp /\
            uf_payload f = payload
  | Err e => e = MtuTooSmall mtu /\ (mtu < ip_size ip true + 8)%nat /\
             (mtu < ip_size ip false + (8 + length payload))%nat
  | Panic => False
  end.
Proof.
  intros Hl Hip Hu Hlen. unfold new, UDP_HEADER_SIZE, FRAGMENT_UNIT.
  case_decide as Hfit; cbn [mbind res_bind].
  - split; [|done]. constructor; cbn; unfold datagram_len, UDP_HEADER_SIZE; cbn; try done; lia.
  - pose proof (aligned_chunk (mtu - ip_size ip true)) as Ha.
    pose proof (Nat.mod_upper_bound (mtu - ip_size ip true) 8).
    set (room := (mtu - ip_size ip true)%nat) in *.
    destruct (Nat.eqb_spec (room - room mod 8) 0) as [Hz|Hz]; cbn [mbind res_bind].
    + split_and!; [done|lia|lia].
    + split; [|done]. constructor; cbn; unfold datagram_len, UDP_HEADER_SIZE; cbn; try done; [lia|].
      intros _. split_and!; [done|lia|lia].
Qed.

Lemma udp_header_spec src_port dst_port payload h :
  udp_header src_port dst_port payload h =
  if decide (Z.of_nat (h + (8 + length payload)) < 65536)
  then Ok (be 2 src_port ++ be 2 dst_port ++ be 2 (Z.of_nat (8 + length payload)) ++ [0; 0])
  else Err (PayloadTooLarge (length payload)).
Proof.
  unfold udp_header, UDP_HEADER_SIZE. case_decide as Hd.
  - rewrite !u16_try_Some by lia. cbn [expect mbind res_bind].
    name_be2 src_port. name_be2 dst_port. name_be2 (Z.of_nat (8 + length payload)). reflexivity.
  - unfold u16_try. by assert ((0 <=? Z.of_nat (h + (8 + length payload))) &&
      (Z.of_nat (h + (8 + length payload)) <? 2 ^ 16) = false) as -> by lia.
Qed.

Section construct.
Context (link : LinkHeader) (src_port dst_port : Z) (payload : bytes) (mtu : nat).
Hypothesis (Hlink : link_ok link) (Hpayload : bytes_ok payload).
Let len : Z := Z.of_nat (8 + length payload).

Lemma udp_fill {E} c :
  copy_at (E:=E) (be 2 src_port ++ be 2 dst_port ++ be 2 len ++ [0; 0]) 6 8 (be 2 c) =
  Ok (udp_bytes src_port dst_port len c).
Proof using Type.
  unfold udp_bytes. rewrite copy_at_ok; [|lia|len|len].
  name_be2 src_port. name_be2 dst_port. name_be2 len. cbn [take drop app]. by rewrite app_nil_r.
Qed.

Lemma udp_checksum_ok {E} pseudo :
  len < 65536 -> bytes_ok pseudo -> length pseudo = 12%nat \/ length pseudo = 40%nat ->
  word_sum pseudo <> 0 ->
  exists c, 0 < c < 65536 /\
    (forall c', udp_checksum (E:=E) pseudo (udp_bytes src_port dst_port len c') payload = Ok c) /\
    udp_checksum (E:=E) pseudo (be 2 src_port ++ be 2 dst_port ++ be 2 len ++ [0; 0]) payload = Ok c /\
    rfc1071_ok (pseudo ++ udp_bytes src_port dst_port len c ++ payload).
Proof using Hpayload.
  intros Hlen Hp Hl Hnz.
  destruct (udp_checksum_spec pseudo (be 2 src_port ++ be 2 dst_port ++ be 2 len) payload
              Hp ltac:(rewrite !Forall_app; split_and!; apply bytes_ok_be) Hpayload Hl
              ltac:(len) ltac:(lia) (E:=E) [0; 0] Hnz) as (c&Hc&Hb&Hv).
  exists c. split; [done|]. rewrite <- !app_assoc in Hc, Hv. unfold udp_bytes.
  rewrite <- !app_assoc. split_and!; [|done|done].
  intros c'. rewrite <- Hc. unfold udp_checksum.
  name_be2 src_port. name_be2 dst_port. name_be2 len. name_be2 c'. reflexivity.
Qed.

(** The common tail of both constructors. *)
Lemma construct_spec ip pseudo :
  ip_header_ok ip -> len + (if ip_is_v6 ip then 0 else 20) < 65536 ->
  bytes_ok pseudo -> length pseudo = 12%nat \/ length pseudo = 40%nat -> word_sum pseudo <> 0 ->
  let udp := be 2 src_port ++ be 2 dst_port ++ be 2 len ++ [0; 0] in
  match (checksum ← udp_checksum pseudo udp payload;
         udp ← copy_at udp 6 8 (be 2 checksum);
         new link ip udp payload mtu) with
  | Ok f => frames_wf mtu f /\ uf_link f = link /\ uf_ip f = ip /\ uf_payload f = payload /\
            exists c, uf_udp f = udp_bytes src_port dst_port len c /\ 0 < c < 65536 /\
              udp_checksum (E:=ParseError) pseudo (uf_udp f) payload = Ok c /\
              rfc1071_ok (pseudo ++ uf_udp f ++ payload)
  | Err e => e = MtuTooSmall mtu /\ (mtu < ip_size ip true + 8)%nat /\
             (mtu < ip_size ip false + (8 + length payload))%nat
  | Panic => False
  end.
Proof using Hlink Hpayload.
  intros Hip Hlen Hb Hl Hnz udp. subst udp.
  assert (len < 65536) by (subst len; destruct (ip_is_v6 ip); lia).
  destruct (udp_checksum_ok (E:=FrameError) pseudo) as (c&Hc&_&Ec&Hv); [done..|].
  destruct (udp_checksum_ok (E:=ParseError) pseudo) as (c'&_&Ec'&Ec0'&_); [done..|].
  assert (c' = c) as ->.
  { revert Ec Ec0'. unfold udp_checksum, fold, range.
    destruct (get_range 0 6 _); [|done]. cbn [expect mbind res_bind].
    destruct (u16_try _); cbn; congruence. }
  rewrite Ec. cbn [mbind res_bind]. rewrite udp_fill. cbn [mbind res_bind].
  pose proof (new_spec link ip (udp_bytes src_port dst_port len c) payload mtu Hlink Hip) as Hn.
  destruct (new _ _ _ _ _) as [f|e|].
  - destruct Hn as (?&?&?&Eu&?); [by unfold udp_bytes; rewrite !length_app, !length_be|subst len; destruct (ip_is_v6 ip); lia|].
    split_and!; [done..|]. exists c. rewrite Eu. auto.
  - apply Hn; [by unfold udp_bytes; rewrite !length_app, !length_be|subst len; destruct (ip_is_v6 ip); lia].
  - apply Hn; [by unfold udp_bytes; rewrite !length_app, !length_be|subst len; destruct (ip_is_v6 ip); lia].
Qed.
End construct.

(** Both constructors: a layout with a checksum a receiver accepts, or the
    error that names what does not fit; never a panic. *)
Definition frames_built (link : LinkHeader) (ip : IpHeader) (src_port dst_port : Z)
    (payload : bytes) (mtu : nat) (pseudo : bytes) (r : res FrameError UdpFrames) : Prop :=
  let len := Z.of_nat (8 + length payload) in
  match r with
  | Ok f => frames_wf mtu f /\ uf_link f = link /\ uf_ip f = ip /\ uf_payload f = payload /\
            exists c, uf_udp f = udp_bytes src_port dst_port len c /\ 0 < c < 65536 /\
              udp_checksum (E:=ParseError) pseudo (uf_udp f) payload = Ok c /\
              rfc1071_ok (pseudo ++ uf_udp f ++ payload)
  | Err (PayloadTooLarge n) => n = length payload /\ 65536 <= len + (if ip_is_v6 ip then 0 else 20)
  | Err (MtuTooSmall m) => m = mtu /\ (mtu < ip_size ip true + 8)%nat /\
                           (mtu < ip_size ip false + (8 + length payload))%nat
  | _ => False
  end.

Lemma frames_built_ipv4 link src src_port dst dst_port ttl id payload mtu :
  link_ok link -> bytes_ok payload -> ip_header_ok (IpV4 src dst ttl id) ->
  frames_built link (IpV4 src dst ttl id) src_port dst_port payload mtu
    (pseudo_v4 src dst (Z.of_nat (8 + length payload)))
    (udp_frames_ipv4 link src src_port dst dst_port ttl id payload mtu).
Proof.
  intros Hl Hp Hip. unfold udp_frames_ipv4, udp_v4. rewrite udp_header_spec. unfold IPV4_HEADER_SIZE.
  case_decide as Hfit; cbn [mbind res_bind]; [|cbn -[Z.of_nat]; lia].
  rewrite udp_length_ok by lia. cbn [mbind res_bind].
  pose proof (construct_spec link src_port dst_port payload mtu Hl Hp (IpV4 src dst ttl id)
    (pseudo_v4 src dst (Z.of_nat (8 + length payload))) Hip ltac:(cbn [ip_is_v6]; lia)
    (bytes_ok_pseudo_v4 _ _ _) (or_introl (length_pseudo_v4 _ _ _)) (word_sum_pseudo_v4 _ _ _)) as H.
  cbn zeta in H. unfold frames_built. destruct (_ ≫= _) as [f|e|]; [done| |done].
  by destruct H as (->&?&?).
Qed.

Lemma frames_built_ipv6 link src src_port dst dst_port hop id payload mtu :
  link_ok link -> bytes_ok payload -> ip_header_ok (IpV6 src dst hop id) ->
  frames_built link (IpV6 src dst hop id) src_port dst_port payload mtu
    (pseudo_v6 src dst (Z.of_nat (8 + length payload)))
    (udp_frames_ipv6 link src src_port dst dst_port hop id payload mtu).
Proof.
  intros Hl Hp Hip. unfold udp_frames_ipv6, udp_v6. rewrite udp_header_spec.
  case_decide as Hfit; cbn [mbind res_bind]; [|cbn -[Z.of_nat]; lia].
  rewrite udp_length_ok by lia. cbn [mbind res_bind].
  pose proof (construct_spec link src_port dst_port payload mtu Hl Hp (IpV6 src dst hop id)
    (pseudo_v6 src dst (Z.of_nat (8 + length payload))) Hip ltac:(cbn [ip_is_v6]; lia)
    (bytes_ok_pseudo_v6 _ _ _) (or_intror (length_pseudo_v6 _ _ _)) (word_sum_pseudo_v6 _ _ _)) as H.
  cbn zeta in H. unfold frames_built. destruct (_ ≫= _) as [f|e|]; [done| |done].
  by destruct H as (->&?&?).
Qed.

(** Building and parsing are inverse: every frame [UdpFrames::write] lays out
    ([src/net/frame.rs]) is read back by [Parsed::parse] ([src/net/packet.rs])
    as the datagram, or the fragment of it, that was laid out, whatever
    padding the link added. *)

Definition link_type_of (h : LinkHeader) : LinkType :=
  match h with LEthernet _ _ => Ethernet | LDltNull => DltNull | LRawIp => RawIp end.
Definition link_dst (h : LinkHeader) : option MacAddr :=
  match h with LEthernet dst _ => Some dst | _ => None end.
Definition link_src (h : LinkHeader) : option MacAddr :=
  match h with LEthernet _ src => Some src | _ => None end.

Definition ip_source (h : IpHeader) : IpAddr :=
  match h with IpV4 src _ _ _ => V4 src | IpV6 src _ _ _ => V6 src end.
Definition ip_dest (h : IpHeader) : IpAddr :=
  match h with IpV4 _ dst _ _ => V4 dst | IpV6 _ dst _ _ => V6 dst end.
Definition ip_ttl (h : IpHeader) : Z := match h with IpV4 _ _ t _ | IpV6 _ _ t _ => t end.
Definition ip_id (h : IpHeader) : Z := match h with IpV4 _ _ _ i | IpV6 _ _ _ i => i end.

(** The datagram [f] lays out. *)
Definition frames_packet (f : UdpFrames) (src_port dst_port : Z) : Packet := {|
  pk_source := {| ip := ip_source (uf_ip f); port := src_port |};
  pk_dest := {| ip := ip_dest (uf_ip f); port := dst_port |};
  pk_ttl := ip_ttl (uf_ip f);
  pk_dst_mac := link_dst (uf_link f);
  pk_src_mac := link_src (uf_link f);
  pk_payload := uf_payload f |}.

(** Fragment [i] of it. *)
Definition frames_fragment (f : UdpFrames) (i : nat) : Fragment := {|
  fr_header := {|
    fh_source := ip_source (uf_ip f); fh_dest := ip_dest (uf_ip f); fh_id := ip_id (uf_ip f);
    fh_offset := seg_start f i; fh_more := (seg_end f i <? datagram_len f)%nat;
    fh_ttl := ip_ttl (uf_ip f); fh_dst_mac := link_dst (uf_link f);
    fh_src_mac := link_src (uf_link f) |};
  fr_data := segment f i |}.

Definition frames_parsed (f : UdpFrames) (src_port dst_port : Z) (i : nat) : Parsed :=
  if uf_fragmented f then Fragmented (frames_fragment f i)
  else Datagram (frames_packet f src_port dst_port).

(** ** The pieces of a parse *)

Lemma split_at_app {A} (a b : list A) n : length a = n -> split_at_checked n (a ++ b) = Some (a, b).
Proof.
  intros <-. unfold split_at_checked. rewrite decide_True by len. by rewrite take_app_length, drop_app_length.
Qed.

Lemma parse_link_bytes pf h v6 rest :
  link_ok h ->
  parse_link_header (link_type_of h) (link_bytes pf h v6 ++ rest) =
  Ok {| lv_dst_mac := link_dst h; lv_src_mac := link_src h; l3 := rest |}.
Proof.
  destruct h as [dst src| |]; cbn [link_ok link_type_of link_bytes parse_link_header link_dst link_src].
  - unfold mac_ok. intros [Hd Hs].
    do 6 (destruct dst as [|? dst]; [discriminate Hd|]). destruct dst; [|discriminate Hd].
    do 6 (destruct src as [|? src]; [discriminate Hs|]). destruct src; [|discriminate Hs].
    unfold ethernet_l3. rewrite split_at_app by (by destruct v6). cbn [ok_or mbind res_bind].
    destruct v6; cbn; done.
  - intros _. unfold get_from, DLT_NULL_HEADER_SIZE. rewrite decide_True by (rewrite length_app, length_ne_bytes; lia).
    cbn [ok_or mbind res_bind]. by rewrite drop_app_length' by (by rewrite length_ne_bytes).
  - done.
Qed.

Lemma parse_udp_bytes src_port dst_port len c payload :
  word_ok 16 src_port -> word_ok 16 dst_port -> len = Z.of_nat (8 + length payload) -> len < 65536 ->
  parse_udp (udp_bytes src_port dst_port len c ++ payload) = Ok (src_port, dst_port, payload).
Proof.
  unfold word_ok. intros Hs Hd Hlen Hb.
  assert (of_be (be 2 src_port) = src_port) as E1 by (apply of_be_be; lia).
  assert (of_be (be 2 dst_port) = dst_port) as E2 by (apply of_be_be; lia).
  assert (of_be (be 2 len) = len) as E3 by (apply of_be_be; lia).
  unfold udp_bytes. name_be2 src_port. name_be2 dst_port. name_be2 len. name_be2 c.
  unfold parse_udp, UDP_HEADER_SIZE. rewrite decide_False by (cbn; lia).
  unfold be16_at, idx. cbn [app lookup list_lookup expect mbind res_bind]. rewrite E3, Hlen.
  rewrite Nat2Z.id, decide_False by (cbn; lia).
  rewrite range_ok by (cbn; lia). cbn [mbind res_bind]. rewrite E1, E2.
  repeat f_equal. cbn [drop]. apply take_ge. lia.
Qed.

Lemma ipv4_fields {E} l t1 t0 i1 i0 f1 f0 ttl c1 c0 src dst rest :
  l = [69; 0; t1; t0; i1; i0; f1; f0; ttl; IP_PROTO_UDP; c1; c0] ++ src ++ dst ++ rest ->
  length src = 4%nat -> length dst = 4%nat ->
  be16_at (E:=E) l 2 = Ok (of_be [t1; t0]) /\ be16_at (E:=E) l 4 = Ok (of_be [i1; i0]) /\
  be16_at (E:=E) l 6 = Ok (of_be [f1; f0]) /\ idx (E:=E) l 8 = Ok ttl /\
  idx (E:=E) l 9 = Ok IP_PROTO_UDP /\ idx (E:=E) l 0 = Ok 69 /\
  range (E:=E) l 12 16 = Ok src /\ range (E:=E) l 16 20 = Ok dst /\ drop 20 l = rest.
Proof.
  intros -> Hs Hd.
  do 4 (destruct src as [|? src]; [discriminate Hs|]). destruct src; [|discriminate Hs].
  do 4 (destruct dst as [|? dst]; [discriminate Hd|]). destruct dst; [|discriminate Hd].
  split_and!; try reflexivity; rewrite range_ok by (cbn; lia); reflexivity.
Qed.

(** An IPv4 header over [data]: the datagram, or the fragment its flags say. *)
Lemma parse_ipv4_bytes dm sm src dst ttl id flags c data pad :
  word_ok 32 src -> word_ok 32 dst -> word_ok 16 id -> word_ok 16 flags ->
  Z.of_nat (20 + length data) < 65536 ->
  let link := {| lv_dst_mac := dm; lv_src_mac := sm;
                 l3 := ipv4_bytes src dst ttl id (Z.of_nat (20 + length data)) flags c ++ data ++ pad |} in
  let offset := (Z.to_nat (Z.land flags 8191) * 8)%nat in
  let more := negb (Z.land flags 8192 =? 0) in
  parse_ipv4 link =
  if (offset =? 0)%nat && negb more then datagram link (V4 src) (V4 dst) ttl data
  else Ok (Fragmented {|
    fr_header := {| fh_source := V4 src; fh_dest := V4 dst; fh_id := id; fh_offset := offset;
                    fh_more := more; fh_ttl := ttl; fh_dst_mac := dm; fh_src_mac := sm |};
    fr_data := data |}).
Proof.
  intros Hs Hd Hid Hf Hlen link offset more. subst offset more. unfold word_ok in *.
  unfold parse_ipv4. set (l := l3 link).
  set (total := Z.of_nat (20 + length data)) in *.
  assert (of_be (be 2 total) = total) as E1 by (apply of_be_be; lia).
  assert (of_be (be 2 id) = id) as E2 by (apply of_be_be; lia).
  assert (of_be (be 2 flags) = flags) as E3 by (apply of_be_be; lia).
  assert (l = ipv4_bytes src dst ttl id total flags c ++ data ++ pad) as El by done.
  assert (length l = (20 + length data + length pad)%nat) as Ll.
  { rewrite El. unfold ipv4_bytes, v4_octets. len. }
  clearbody l. unfold ipv4_bytes in El. rewrite <- !app_assoc in El.
  destruct (be_2_list total) as (t1&t0&Et), (be_2_list id) as (i1&i0&Ei),
    (be_2_list flags) as (f1&f0&Ef), (be_2_list c) as (c1&c0&Ec).
  rewrite Et, Ei, Ef, Ec in *.
  destruct (ipv4_fields (E:=ParseError) l t1 t0 i1 i0 f1 f0 ttl c1 c0 (v4_octets src) (v4_octets dst)
    (data ++ pad) El) as (F2&F4&F6&F8&F9&F0&F12&F16&F20); [apply length_be..|].
  unfold IPV4_HEADER_SIZE. rewrite decide_False by lia. rewrite F0. cbn [mbind res_bind].
  change (Z.to_nat (Z.land 69 15) * 4)%nat with 20%nat. rewrite decide_False by lia.
  rewrite F9. cbn [mbind res_bind]. rewrite Z.eqb_refl. cbn [negb].
  rewrite F2, E1. cbn [mbind res_bind]. subst total. rewrite Nat2Z.id, decide_False by lia.
  rewrite F12, F16, F8. cbn [mbind res_bind].
  unfold ipv4_addr, v4_octets. rewrite !decide_True by apply length_be. cbn [mbind res_bind].
  rewrite !of_be_be by lia.
  rewrite range_ok by lia. rewrite F20. cbn [mbind res_bind].
  replace (20 + length data - 20)%nat with (length data) by lia. rewrite take_app_length.
  rewrite F6, E3, F4, E2. reflexivity.
Qed.

Lemma ipv6_fields {E} l l1 l0 next hop src dst rest :
  l = [96; 0; 0; 0; l1; l0; next; hop] ++ src ++ dst ++ rest ->
  length src = 16%nat -> length dst = 16%nat ->
  be16_at (E:=E) l 4 = Ok (of_be [l1; l0]) /\ idx (E:=E) l 6 = Ok next /\
  idx (E:=E) l 7 = Ok hop /\ range (E:=E) l 8 24 = Ok src /\ range (E:=E) l 24 40 = Ok dst /\
  drop 40 l = rest.
Proof.
  intros -> Hs Hd.
  do 16 (destruct src as [|? src]; [discriminate Hs|]). destruct src; [|discriminate Hs].
  do 16 (destruct dst as [|? dst]; [discriminate Hd|]). destruct dst; [|discriminate Hd].
  split_and!; try reflexivity; rewrite range_ok by (cbn; lia); reflexivity.
Qed.

(** An IPv6 header over [body], up to the dispatch on the next header. *)
Lemma parse_ipv6_bytes dm sm src dst hop next body pad :
  word_ok 128 src -> word_ok 128 dst -> Z.of_nat (length body) < 65536 ->
  let link := {| lv_dst_mac := dm; lv_src_mac := sm;
                 l3 := ipv6_bytes src dst hop (Z.of_nat (length body)) next ++ body ++ pad |} in
  parse_ipv6 link =
  if next =? IP_PROTO_UDP then datagram link (V6 src) (V6 dst) hop body
  else if next =? IPV6_NEXT_FRAGMENT then
    '(fragment, data) ← ok_or (split_at_checked IPV6_FRAGMENT_HEADER_SIZE body) Truncated;
    proto ← idx fragment 0;
    if negb (proto =? IP_PROTO_UDP) then Err (NotUdp proto)
    else
      offset_more ← be16_at fragment 2;
      let offset := (Z.to_nat (Z.shiftr offset_more 3) * FRAGMENT_UNIT)%nat in
      let more := negb (Z.land offset_more 1 =? 0) in
      if (offset =? 0)%nat && negb more then datagram link (V6 src) (V6 dst) hop data
      else
        id ← range fragment 4 8;
        Ok (Fragmented {|
          fr_header := {|
            fh_source := V6 src; fh_dest := V6 dst; fh_id := of_be id; fh_offset := offset;
            fh_more := more; fh_ttl := hop; fh_dst_mac := dm; fh_src_mac := sm |};
          fr_data := data |})
  else Err (NotUdp next).
Proof.
  intros Hs Hd Hlen link. assert (exists l, l = l3 link) as [l El] by eauto.
  unfold parse_ipv6. rewrite <- El.
  assert (length l = (40 + length body + length pad)%nat) as Ll.
  { rewrite El. cbn [l3 link]. unfold ipv6_bytes, v6_octets. len. }
  assert (of_be (be 2 (Z.of_nat (length body))) = Z.of_nat (length body)) as E1 by (apply of_be_be; lia).
  assert (of_be (v6_octets src) = src) as Es by (by apply of_be_be).
  assert (of_be (v6_octets dst) = dst) as Ed by (by apply of_be_be).
  assert (length (v6_octets src) = 16%nat) as Ls by apply length_be.
  assert (length (v6_octets dst) = 16%nat) as Ld by apply length_be.
  assert (exists t1 t0, of_be [t1; t0] = Z.of_nat (length body) /\
    l = [96; 0; 0; 0; t1; t0; next; hop] ++ v6_octets src ++ v6_octets dst ++ body ++ pad)
    as (t1&t0&E1'&El').
  { destruct (be_2_list (Z.of_nat (length body))) as (t1&t0&Et). rewrite Et in E1.
    exists t1, t0. split; [done|]. rewrite El. subst link. cbn [l3]. unfold ipv6_bytes. rewrite Et.
    by rewrite <- !app_assoc. }
  destruct (ipv6_fields (E:=ParseError) l t1 t0 next hop _ _ _ El' Ls Ld) as (F4&F6&F7&F8&F24&F40).
  clear El El'.
  assert (ipv6_addr (v6_octets src) = Ok src) as As by (unfold ipv6_addr; by rewrite Ls, Es, decide_True).
  assert (ipv6_addr (v6_octets dst) = Ok dst) as Ad by (unfold ipv6_addr; by rewrite Ld, Ed, decide_True).
  unfold IPV6_HEADER_SIZE. rewrite decide_False by lia. rewrite F4, bind_ret, E1'.
  rewrite Nat2Z.id, decide_False by lia.
  rewrite F8, bind_ret, As, bind_ret, F24, bind_ret, Ad, bind_ret, F7, bind_ret.
  rewrite range_ok, bind_ret by lia. rewrite F40, F6, bind_ret.
  replace (40 + length body - 40)%nat with (length body) by lia. rewrite take_app_length.
  reflexivity.
Qed.

Lemma fragment_fields {E} om id data :
  word_ok 16 om -> word_ok 32 id ->
  split_at_checked IPV6_FRAGMENT_HEADER_SIZE (fragment_bytes om id ++ data) =
    Some (fragment_bytes om id, data) /\
  idx (E:=E) (fragment_bytes om id) 0 = Ok IP_PROTO_UDP /\
  be16_at (E:=E) (fragment_bytes om id) 2 = Ok om /\
  range (E:=E) (fragment_bytes om id) 4 8 = Ok (be 4 id).
Proof.
  unfold word_ok. intros Ho Hi. unfold fragment_bytes, IPV6_FRAGMENT_HEADER_SIZE.
  rewrite split_at_app by len.
  assert (of_be (be 2 om) = om) as E1 by (apply of_be_be; lia).
  name_be2 om. name_be4 id. split_and!; [done|done| |].
  - unfold be16_at, idx. cbn [app lookup list_lookup expect mbind res_bind]. by rewrite E1.
  - rewrite range_ok by (cbn; lia). done.
Qed.

(** ** The offset fields *)

(** ** The offset fields

    An offset is below 2{^13} units, so both encodings are checked on every
    value they can take. *)
Definition offset_codes_ok (u : Z) (more : bool) : bool :=
  let flags := Z.lor u (if more then 8192 else 0) in
  let om := Z.lor (Z.land (Z.shiftl u 3) 65535) (Z.b2z more) in
  (0 <=? flags) && (flags <? 65536) && (Z.land flags 8191 =? u) &&
  Bool.eqb (negb (Z.land flags 8192 =? 0)) more &&
  (0 <=? om) && (om <? 65536) && (Z.shiftr om 3 =? u) && Bool.eqb (negb (Z.land om 1 =? 0)) more.

Lemma offset_codes_all :
  forallb (fun u => offset_codes_ok u true && offset_codes_ok u false) (seqZ 0 8192) = true.
Proof. vm_compute. reflexivity. Qed.

Lemma offset_codes p :
  Z.of_nat (pl_offset p) < 65536 -> (pl_offset p mod 8 = 0)%nat ->
  let flags := v4_flags (Some p) in let om := v6_offset_more p in
  word_ok 16 flags /\ (Z.to_nat (Z.land flags 8191) * 8)%nat = pl_offset p /\
  negb (Z.land flags 8192 =? 0) = pl_more p /\
  word_ok 16 om /\ (Z.to_nat (Z.shiftr om 3) * 8)%nat = pl_offset p /\
  negb (Z.land om 1 =? 0) = pl_more p.
Proof.
  intros Hp Hm. pose proof offset_codes_all as H. rewrite forallb_forall in H.
  specialize (H (Z.of_nat (pl_offset p / 8))).
  rewrite <- list_elem_of_In, elem_of_seqZ in H. specialize (H ltac:(dlia)).
  apply andb_prop in H as [Ht Hf].
  assert (offset_codes_ok (Z.of_nat (pl_offset p / 8)) (pl_more p) = true) as H
    by (by destruct (pl_more p)).
  unfold offset_codes_ok in H. unfold v4_flags, v6_offset_more, word_ok.
  rewrite !andb_true_iff, !eqb_true_iff, !Z.eqb_eq in H. destruct_and!.
  assert (Z.to_nat (Z.of_nat (pl_offset p / 8)) * 8 = pl_offset p)%nat by (rewrite Nat2Z.id; dlia).
  split_and!; try lia; try congruence.
Qed.

(** ** Round trip *)

Section roundtrip.
Context (mtu : nat) (pf : Platform) (f : UdpFrames) (src_port dst_port : Z).
Hypothesis Hwf : frames_wf mtu f.
Hypothesis (Hsp : word_ok 16 src_port) (Hdp : word_ok 16 dst_port).
Hypothesis Hudp : exists c, uf_udp f = udp_bytes src_port dst_port (Z.of_nat (datagram_len f)) c.

Lemma datagram_len_lt : Z.of_nat (datagram_len f) < 65536.
Proof using Hwf. pose proof (wf_len _ _ Hwf). destruct (ip_is_v6 (uf_ip f)); lia. Qed.

(** A fragmented layout has offsets in whole units, and never the offset and
    flag of an unfragmented datagram. *)
Lemma fragment_placement i :
  uf_fragmented f = true -> (i < count f)%nat ->
  (seg_start f i mod 8 = 0)%nat /\ Z.of_nat (seg_start f i) < 65536 /\
  (seg_start f i =? 0)%nat && negb (seg_end f i <? datagram_len f)%nat = false.
Proof using Hwf.
  intros Hf Hi%(count_lt _ _ _ Hwf). destruct (wf_fragmented _ _ Hwf Hf) as (Hm&_&_).
  pose proof (wf_chunk_lt _ _ Hwf Hf). pose proof datagram_len_lt.
  unfold seg_end, seg_start in *. split_and!; [|lia|].
  - rewrite Nat.Div0.mul_mod, Hm, Nat.mul_0_r. apply Nat.Div0.mod_0_l.
  - destruct i; [apply andb_false_intro2, negb_false_iff, Nat.ltb_lt; lia|].
    pose proof (wf_chunk_pos _ _ Hwf). assert ((S i * uf_chunk f =? 0)%nat = false) as -> by nia. done.
Qed.

(** One frame is the whole datagram. *)
Lemma whole_segment i :
  uf_fragmented f = false -> (i < count f)%nat ->
  seg_start f i = 0%nat /\ segment f i = datagram_bytes f /\
  (seg_end f i - seg_start f i = datagram_len f)%nat /\ placement f i = None.
Proof using Hwf.
  intros Hf Hi%(count_lt _ _ _ Hwf). destruct (wf_whole _ _ Hwf Hf) as [Hc _].
  assert (seg_start f i = 0%nat) as E.
  { unfold seg_start. rewrite Hc in Hi. destruct i; [done|]. nia. }
  unfold segment. rewrite E, Nat.sub_0_r. unfold seg_end. rewrite E, Hc, drop_0.
  split_and!; [done| |lia|by unfold placement; rewrite Hf].
  apply take_ge. rewrite (length_datagram_bytes _ _ Hwf). lia.
Qed.

Lemma datagram_link link s d t :
  datagram link s d t (datagram_bytes f) = Ok (Datagram {|
    pk_source := {| ip := s; port := src_port |}; pk_dest := {| ip := d; port := dst_port |};
    pk_ttl := t; pk_dst_mac := lv_dst_mac link; pk_src_mac := lv_src_mac link;
    pk_payload := uf_payload f |}).
Proof using Hwf Hsp Hdp Hudp.
  destruct Hudp as [c Hc]. pose proof datagram_len_lt. unfold datagram, datagram_bytes.
  rewrite Hc, parse_udp_bytes; done.
Qed.

Lemma parse_frame i c pad :
  (i < count f)%nat ->
  parse (link_type_of (uf_link f)) (frame_bytes pf f i c ++ pad) =
  Ok (frames_parsed f src_port dst_port i).
Proof using Hwf Hsp Hdp Hudp.
  intros Hi. pose proof (length_segment _ _ _ Hwf Hi) as Hseg.
  pose proof (wf_ip _ _ Hwf) as Hip. pose proof (wf_len _ _ Hwf) as Hlen.
  assert (seg_end f i - seg_start f i <= datagram_len f)%nat as Hle by (unfold seg_end; lia).
  unfold parse, frame_bytes. rewrite <- !app_assoc, parse_link_bytes by apply Hwf.
  rewrite bind_ret. cbn [l3].
  unfold frames_parsed, frames_fragment, frames_packet.
  destruct (uf_ip f) as [src dst ttl id|src dst hop id] eqn:Eip;
    cbn [ip_is_v6 ip_header_ok ip_source ip_dest ip_ttl ip_id ip_bytes] in *.
  - destruct Hip as (Hs&Hd&_&Hid). rewrite <- Hseg in *.
    assert (head (ipv4_bytes src dst ttl id (Z.of_nat (20 + length (segment f i)))
      (v4_flags (placement f i)) c ++ segment f i ++ pad) = Some 69) as -> by done.
    cbn [ok_or]. rewrite bind_ret. change (Z.shiftr 69 4 =? 4) with true. cbv iota.
    destruct (uf_fragmented f) eqn:Hf.
    + destruct (fragment_placement i Hf Hi) as (Hm&Hb&Hn).
      unfold placement. rewrite Hf.
      destruct (offset_codes {| pl_offset := seg_start f i;
        pl_more := (seg_end f i <? datagram_len f)%nat |} Hb Hm) as (Hw&E1&E2&_).
      rewrite parse_ipv4_bytes by (done || lia). rewrite E1, E2. cbn [pl_offset pl_more].
      by rewrite Hn.
    + destruct (whole_segment i Hf Hi) as (_&Es&_&->).
      rewrite parse_ipv4_bytes by (done || lia).
      cbn [v4_flags]. rewrite Es. apply datagram_link.
  - destruct Hip as (Hs&Hd&_&Hid). rewrite <- Hseg in *. pose proof datagram_len_lt.
    destruct (uf_fragmented f) eqn:Hf.
    + destruct (fragment_placement i Hf Hi) as (Hm&Hb&Hn).
      pose proof (wf_chunk_lt _ _ Hwf Hf) as Hc. rewrite Eip in Hc. cbn [ip_size] in Hc.
      unfold IPV6_HEADER_SIZE, IPV6_FRAGMENT_HEADER_SIZE in Hc.
      unfold placement. rewrite Hf. cbn [ip_bytes].
      destruct (offset_codes {| pl_offset := seg_start f i;
        pl_more := (seg_end f i <? datagram_len f)%nat |} Hb Hm) as (_&_&_&Hw&E1&E2).
      set (om := v6_offset_more _) in *. set (fb := fragment_bytes om id).
      assert (length fb = 8%nat) as Lfb by (subst fb; unfold fragment_bytes; len).
      assert (length (fb ++ segment f i) = 8 + length (segment f i))%nat as Lb by len.
      rewrite <- Lb, <- !app_assoc, (app_assoc fb).
      match goal with |- context [ok_or (head ?l) _] => assert (head l = Some 96) as -> by done end.
      cbn [ok_or]. rewrite bind_ret. change (Z.shiftr 96 4 =? 4) with false.
      change (Z.shiftr 96 4 =? 6) with true. cbv iota.
      assert (length (segment f i) <= uf_chunk f)%nat by (rewrite Hseg; unfold seg_end; lia).
      rewrite parse_ipv6_bytes by (done || (rewrite Lb; lia)).
      change (IPV6_NEXT_FRAGMENT =? IP_PROTO_UDP) with false.
      change (IPV6_NEXT_FRAGMENT =? IPV6_NEXT_FRAGMENT) with true. cbv iota.
      destruct (fragment_fields (E:=ParseError) om id (segment f i) Hw Hid) as (F1&F2&F3&F4).
      fold fb in F1, F2, F3, F4. rewrite F1. cbn [ok_or]. rewrite bind_ret, F2, bind_ret.
      change (negb (IP_PROTO_UDP =? IP_PROTO_UDP)) with false. cbv iota.
      rewrite F3, bind_ret. cbv zeta. unfold FRAGMENT_UNIT. rewrite E1, E2. cbn [pl_offset pl_more].
      rewrite Hn, F4, bind_ret, of_be_be by done. done.
    + destruct (whole_segment i Hf Hi) as (_&Es&_&->). cbn [ip_bytes].
      match goal with |- context [ok_or (head ?l) _] => assert (head l = Some 96) as -> by done end.
      cbn [ok_or]. rewrite bind_ret. change (Z.shiftr 96 4 =? 4) with false.
      change (Z.shiftr 96 4 =? 6) with true. cbv iota.
      rewrite parse_ipv6_bytes by (done || lia).
      rewrite Z.eqb_refl, Es. apply datagram_link.
Qed.
End roundtrip.

(** ** Both constructors at once *)

(** [UdpFrames::ipv4] or [UdpFrames::ipv6], by the header asked for. *)
Definition udp_frames (link : LinkHeader) (h : IpHeader) (src_port dst_port : Z) (payload : bytes)
    (mtu : nat) : res FrameError UdpFrames :=
  match h with
  | IpV4 src dst ttl id => udp_frames_ipv4 link src src_port dst dst_port ttl id payload mtu
  | IpV6 src dst hop id => udp_frames_ipv6 link src src_port dst dst_port hop id payload mtu
  end.

Definition pseudo_of (h : IpHeader) (len : Z) : bytes :=
  match h with IpV4 src dst _ _ => pseudo_v4 src dst len | IpV6 src dst _ _ => pseudo_v6 src dst len end.

(** The addressing a caller hands over: types that Rust enforces. *)
Definition addressing_ok (link : LinkHeader) (h : IpHeader) (src_port dst_port : Z) (payload : bytes) : Prop :=
  link_ok link /\ ip_header_ok h /\ word_ok 16 src_port /\ word_ok 16 dst_port /\ bytes_ok payload.

Lemma udp_frames_built link h src_port dst_port payload mtu :
  addressing_ok link h src_port dst_port payload ->
  frames_built link h src_port dst_port payload mtu
    (pseudo_of h (Z.of_nat (8 + length payload))) (udp_frames link h src_port dst_port payload mtu).
Proof.
  intros (?&?&_&_&?). destruct h; [by apply frames_built_ipv4|by apply frames_built_ipv6].
Qed.

Lemma udp_frames_Ok link h src_port dst_port payload mtu f :
  addressing_ok link h src_port dst_port payload ->
  udp_frames link h src_port dst_port payload mtu = Ok f ->
  frames_wf mtu f /\ uf_link f = link /\ uf_ip f = h /\ uf_payload f = payload /\
  exists c, uf_udp f = udp_bytes src_port dst_port (Z.of_nat (8 + length payload)) c /\ 0 < c < 65536 /\
    udp_checksum (E:=ParseError) (pseudo_of h (Z.of_nat (8 + length payload))) (uf_udp f) payload = Ok c /\
    rfc1071_ok (pseudo_of h (Z.of_nat (8 + length payload)) ++ uf_udp f ++ payload).
Proof.
  intros Ha E. pose proof (udp_frames_built link h src_port dst_port payload mtu Ha) as H.
  by rewrite E in H.
Qed.

(** A frame that was written is read back, padding or not. *)
Lemma write_parse link h src_port dst_port payload mtu pf f i out n out' pad :
  addressing_ok link h src_port dst_port payload ->
  udp_frames link h src_port dst_port payload mtu = Ok f -> (i < count f)%nat ->
  write pf f i out = Ok (n, out') ->
  parse (link_type_of link) (take n out' ++ pad) = Ok (frames_parsed f src_port dst_port i).
Proof.
  intros Ha E Hi Hw. destruct (udp_frames_Ok _ _ _ _ _ _ _ Ha E) as (Hwf&El&Eh&Ep&c&Hu&_).
  destruct Ha as (_&_&Hs&Hd&_).
  destruct (write_spec mtu pf f i out Hwf Hi) as (ck&_&_&Hspec). cbn zeta in Hspec.
  rewrite Hspec in Hw. case_decide; [|done]. injection Hw as <- <-.
  rewrite take_app_length, <- El. apply (parse_frame mtu); try done.
  exists c. rewrite Hu. unfold datagram_len, UDP_HEADER_SIZE. by rewrite Ep.
Qed.

(** The receiver's checks over the whole datagram, as [Packet::reassembled] runs them. *)
Lemma reassembled_ok link h src_port dst_port payload mtu f :
  addressing_ok link h src_port dst_port payload ->
  udp_frames link h src_port dst_port payload mtu = Ok f ->
  reassembled (fr_header (frames_fragment f 0)) (datagram_bytes f) =
  Ok (frames_packet f src_port dst_port).
Proof.
  intros Ha E. destruct (udp_frames_Ok _ _ _ _ _ _ _ Ha E) as (Hwf&El&Eh&Ep&c&Hu&Hc&Hck&_).
  destruct Ha as (_&_&Hs&Hd&_). pose proof (wf_len _ _ Hwf) as Hl.
  pose proof (datagram_len_lt _ _ Hwf) as Hlen. unfold datagram_len, UDP_HEADER_SIZE in Hlen.
  rewrite Ep in Hlen.
  unfold reassembled, datagram_bytes. rewrite Hu, Ep, parse_udp_bytes by (done || lia).
  rewrite bind_ret, split_at_app by (unfold udp_bytes, UDP_HEADER_SIZE; len). cbn [ok_or].
  rewrite bind_ret.
  assert (length (udp_bytes src_port dst_port (Z.of_nat (8 + length payload)) c) = 8%nat) as Lu
    by (unfold udp_bytes; len).
  rewrite length_app, Lu. unfold UDP_HEADER_SIZE. rewrite Nat.eqb_refl. cbn [negb].
  assert (be16_at (E:=ParseError) (udp_bytes src_port dst_port (Z.of_nat (8 + length payload)) c) 6 = Ok c) as ->.
  { assert (of_be (be 2 c) = c) as E1 by (apply of_be_be; lia).
    unfold udp_bytes. name_be2 src_port. name_be2 dst_port. name_be2 (Z.of_nat (8 + length payload)).
    name_be2 c. unfold be16_at, idx. cbn [app lookup list_lookup expect mbind res_bind]. by rewrite E1. }
  rewrite bind_ret. rewrite <- Hu. cbn [frames_fragment fr_header fh_source fh_dest].
  rewrite Eh. destruct h as [src dst ttl id|src dst hop id]; cbn [ip_source ip_dest pseudo_of] in *.
  - destruct (Z.eqb_spec c 0); [lia|]. unfold udp_v4. rewrite udp_length_ok, bind_ret, Hck, bind_ret by done.
    rewrite Z.eqb_refl, bind_ret. cbn [negb]. unfold frames_packet. by rewrite Eh, Ep.
  - unfold udp_v6. rewrite udp_length_ok, bind_ret, Hck, bind_ret by done.
    rewrite Z.eqb_refl, bind_ret. cbn [negb]. unfold frames_packet. by rewrite Eh, Ep.
Qed.

(** ** Properties *)

(** C3. Every frame built for a datagram is parsed back: for both address
    families and every link header, whatever the frame is followed by, frame
    [i] of the layout parses as the whole datagram when one frame carries it,
    and as fragment [i] with its offset, flag and bytes otherwise. *)
Theorem built_frame_parses_back link h src_port dst_port payload mtu pf f i out n out' pad :
  addressing_ok link h src_port dst_port payload ->
  udp_frames link h src_port dst_port payload mtu = Ok f -> (i < count f)%nat ->
  write pf f i out = Ok (n, out') ->
  parse (link_type_of link) (take n out' ++ pad) = Ok (frames_parsed f src_port dst_port i).
Proof. apply write_parse. Qed.

(** Laying out a datagram never panics.  It fails only for a payload whose
    IP packet would overflow the 16-bit length, or an MTU with no room for one
    fragment unit; otherwise writing any of its frames into any buffer never
    panics, reports exactly the size missing, and the frames' IP packets all
    fit the MTU. *)
Theorem udp_frames_total link h src_port dst_port payload mtu :
  addressing_ok link h src_port dst_port payload ->
  match udp_frames link h src_port dst_port payload mtu with
  | Ok f => forall pf i out, (i < count f)%nat ->
      match write pf f i out with
      | Ok (n, out') => length out' = length out /\ (n <= length out)%nat /\
                        (n <= link_size link + mtu)%nat /\ drop n out' = drop n out
      | Err e => exists n, e = BufferTooSmall n (length out) /\ (length out < n)%nat /\
                           (n <= link_size link + mtu)%nat
      | Panic => False
      end
  | Err (PayloadTooLarge n) =>
      n = length payload /\ 65536 <= Z.of_nat (8 + n) + (if ip_is_v6 h then 0 else 20)
  | Err (MtuTooSmall m) => m = mtu /\ (mtu < ip_size h true + 8)%nat
  | Err _ | Panic => False
  end.
Proof.
  intros Ha. pose proof (udp_frames_built link h src_port dst_port payload mtu Ha) as H.
  destruct (udp_frames _ _ _ _ _ _) as [f|[| |]|]; cbn [frames_built] in H; try done.
  - destruct H as (Hwf&El&_). intros pf i out Hi.
    destruct (write_spec mtu pf f i out Hwf Hi) as (c&_&_&->).
    pose proof (frame_fits mtu pf f i c Hwf Hi) as Hfit. rewrite El in Hfit.
    case_decide.
    + rewrite drop_app_length. split_and!; [len|lia|lia|done].
    + eexists. split_and!; [done|lia|lia].
  - by destruct H as (->&?).
  - by destruct H as (->&?&?).
Qed.

(** The checksums verify: the IPv4 header of every written frame and the
    UDP datagram over its pseudo-header sum to all ones (RFC 1071), and the UDP
    checksum is never the reserved value 0. *)
Theorem built_checksums_verify link h src_port dst_port payload mtu pf f i out n out' :
  addressing_ok link h src_port dst_port payload ->
  udp_frames link h src_port dst_port payload mtu = Ok f -> (i < count f)%nat ->
  write pf f i out = Ok (n, out') ->
  (exists c, uf_udp f = udp_bytes src_port dst_port (Z.of_nat (8 + length payload)) c /\ 0 < c) /\
  rfc1071_ok (pseudo_of h (Z.of_nat (8 + length payload)) ++ uf_udp f ++ payload) /\
  (ip_is_v6 h = false -> rfc1071_ok (take 20 (drop (link_size link) out'))).
Proof.
  intros Ha E Hi Hw. destruct (udp_frames_Ok _ _ _ _ _ _ _ Ha E) as (Hwf&El&Eh&Ep&c&Hu&Hc&_&Hv).
  split_and!; [naive_solver lia|done|]. intros H4.
  destruct (write_spec mtu pf f i out Hwf Hi) as (ck&_&Hck&Hspec). cbn zeta in Hspec.
  rewrite Hspec in Hw. case_decide; [|done]. injection Hw as <- <-.
  pose proof (wf_link _ _ Hwf). rewrite El, Eh in *.
  destruct h as [src dst ttl id|]; [|done]. unfold frame_bytes. rewrite El, Eh, <- !app_assoc.
  rewrite drop_app_length' by (by rewrite length_link_bytes).
  rewrite take_app_length' by (by rewrite length_ip_bytes). exact Hck.
Qed.

(** The fragments carry the datagram: their data, in order, is the UDP
    header followed by the payload; all but the last are a multiple of eight
    bytes; and their concatenation passes the checks of the reassembled
    datagram, which is the packet that was laid out. *)
Theorem fragments_reassemble link h src_port dst_port payload mtu f :
  addressing_ok link h src_port dst_port payload ->
  udp_frames link h src_port dst_port payload mtu = Ok f ->
  concat (segment f <$> seq 0 (count f)) = uf_udp f ++ payload /\
  (forall i, (S i < count f)%nat -> (length (segment f i) mod 8 = 0)%nat) /\
  reassembled (fr_header (frames_fragment f 0)) (concat (segment f <$> seq 0 (count f))) =
  Ok (frames_packet f src_port dst_port).
Proof.
  intros Ha E. destruct (udp_frames_Ok _ _ _ _ _ _ _ Ha E) as (Hwf&_&_&Ep&_).
  rewrite (segments_concat mtu f Hwf). split_and!.
  - unfold datagram_bytes. by rewrite Ep.
  - intros i Hi. rewrite (length_segment _ _ _ Hwf) by lia.
    pose proof Hi as Hi'%(count_lt _ _ _ Hwf). unfold seg_end, seg_start.
    destruct (uf_fragmented f) eqn:Hf.
    + destruct (wf_fragmented _ _ Hwf Hf) as (Hm&_&_).
      replace (Nat.min _ _ - _)%nat with (uf_chunk f) by lia. done.
    + destruct (wf_whole _ _ Hwf Hf). lia.
  - by apply (reassembled_ok link h _ _ payload mtu).
Qed.

(** ** Witnesses: a datagram in three fragments on Ethernet *)

Definition ex_link : LinkHeader := LEthernet [1; 0; 94; 0; 0; 251] [2; 0; 0; 0; 0; 1].
Definition ex_ip : IpHeader := IpV4 3232235777 3758096635 64 77.
Definition ex_ip6 : IpHeader := IpV6 (2 ^ 127 + 5) (2 ^ 127 + 2 ^ 126 + 1) 255 12345.
Definition ex_payload : bytes := seqZ 0 50.

Lemma ex_addressing h : h = ex_ip \/ h = ex_ip6 -> addressing_ok ex_link h 5353 5353 ex_payload.
Proof.
  intros [-> | ->]; (split_and!; [done|by repeat split|done|done|]);
    apply Forall_forall; intros x Hx%elem_of_seqZ; unfold byte_ok; lia.
Qed.

Definition ex_pf : Platform := {| af_inet := 2; af_inet6 := 30; little_endian := true |}.

Lemma built_frame_parses_back_witness : exists f n out',
  udp_frames ex_link ex_ip 5353 5353 ex_payload 50 = Ok f /\ count f = 3%nat /\
  parse Ethernet (take n out' ++ [0; 0]) = Ok (frames_parsed f 5353 5353 1) /\ uf_fragmented f = true.
Proof.
  do 3 eexists. split; [vm_compute; reflexivity|]. split; [vm_compute; reflexivity|].
  split; [|reflexivity].
  eapply (built_frame_parses_back ex_link ex_ip 5353 5353 ex_payload 50 ex_pf _ 1 (replicate 80 7));
    [by apply ex_addressing; left|vm_compute; reflexivity|vm_compute; lia|vm_compute; reflexivity].
Defined.

Lemma udp_frames_total_witness : exists f n out',
  udp_frames ex_link ex_ip6 5353 5353 ex_payload 64 = Ok f /\ count f = 4%nat /\
  write ex_pf f 3 (replicate 100 0) = Ok (n, out') /\ length out' = 100%nat /\ (n <= 78)%nat.
Proof.
  pose proof (udp_frames_total ex_link ex_ip6 5353 5353 ex_payload 64 (ex_addressing _ (or_intror eq_refl))) as H.
  destruct (udp_frames ex_link ex_ip6 5353 5353 ex_payload 64) as [f|e|] eqn:E;
    [|vm_compute in E; discriminate E..].
  vm_compute in E. injection E as <-.
  specialize (H ex_pf 3%nat (replicate 100 0) ltac:(vm_compute; lia)).
  destruct (write _ _ _ _) as [[n out']|e|] eqn:Ew; [|vm_compute in Ew; discriminate Ew..].
  destruct H as (H1&_&H2&_). eexists _, n, out'.
  split; [reflexivity|]. split; [vm_compute; reflexivity|]. split; [exact Ew|].
  split; [exact H1|exact H2].
Defined.

Lemma built_checksums_verify_witness : exists f n out',
  udp_frames ex_link ex_ip 5353 5353 ex_payload 50 = Ok f /\
  write ex_pf f 1 (replicate 80 7) = Ok (n, out') /\ rfc1071_ok (take 20 (drop 14 out')).
Proof.
  do 3 eexists. split; [vm_compute; reflexivity|]. split; [vm_compute; reflexivity|].
  eapply (built_checksums_verify ex_link ex_ip 5353 5353 ex_payload 50 ex_pf _ 1 (replicate 80 7));
    [by apply ex_addressing; left|vm_compute; reflexivity|vm_compute; lia|vm_compute; reflexivity|reflexivity].
Defined.

Lemma fragments_reassemble_witness : exists f,
  udp_frames ex_link ex_ip6 5353 5353 ex_payload 64 = Ok f /\
  concat (segment f <$> seq 0 (count f)) = uf_udp f ++ ex_payload.
Proof.
  eexists. split; [vm_compute; reflexivity|].
  eapply (fragments_reassemble ex_link ex_ip6 5353 5353 ex_payload 64);
    [by apply ex_addressing; right|vm_compute; reflexivity].
Defined.
