(* ===== verification/LinearMap.v ===== *)
(** The map over a vector of pairs ([src/linear_map.rs]): every operation as
    the scan it is, [remove] as the [swap_remove] it is, and the theorem that
    they are those of a finite map whose keys stay distinct. *)

From S2P Require Import Prelude.

(** [Vec::swap_remove]; it panics out of range, which [position] excludes. *)
Definition swap_remove {A} (l : list A) (pos : nat) : option (A * list A) :=
  match l !! pos, last l with
  | Some x, Some y => Some (x, take (length l - 1) (<[pos := y]> l))
  | _, _ => None
  end.

Definition LinearMap (K V : Type) : Type := list (K * V).

Section ops.
Context {K V : Type} `{EqDecision K}.
Implicit Types (m : LinearMap K V) (k : K) (v : V).

Definition lm_new : LinearMap K V := [].

(** [get] *)
Fixpoint lm_get (m : list (K * V)) (k : K) : option V :=
  match m with
  | [] => None
  | (k', v) :: m' => if decide (k' = k) then Some v else lm_get m' k
  end.

(** A write through [get_mut]: the first pair with the key, in place. *)
Fixpoint lm_get_mut (f : V -> V) (m : list (K * V)) (k : K) : list (K * V) :=
  match m with
  | [] => []
  | (k', v) :: m' => if decide (k' = k) then (k', f v) :: m' else (k', v) :: lm_get_mut f m' k
  end.

(** [insert]: the value it replaced, and the map. *)
Definition lm_insert (m : list (K * V)) (k : K) (v : V) : option V * list (K * V) :=
  match lm_get m k with
  | Some old => (Some old, lm_get_mut (fun _ => v) m k)
  | None => (None, m ++ [(k, v)])
  end.

Definition lm_is_empty (m : list (K * V)) : bool := match m with [] => true | _ => false end.
Definition lm_len (m : list (K * V)) : nat := length m.
Definition lm_iter (m : list (K * V)) : list (K * V) := m.

(** [remove] *)
Definition lm_remove (m : list (K * V)) (k : K) : option (V * list (K * V)) :=
  pos ← position (fun p => bool_decide (p.1 = k)) m;
  '(p, m') ← swap_remove m pos;
  Some (p.2, m').

(** The map [remove] leaves, whether or not it found the key. *)
Definition lm_delete (m : list (K * V)) (k : K) : list (K * V) :=
  match lm_remove m k with Some (_, m') => m' | None => m end.

(** [retain]; [keep] may change the value it keeps. *)
Fixpoint lm_retain (keep : K -> V -> bool * V) (m : list (K * V)) : list (K * V) :=
  match m with
  | [] => []
  | (k, v) :: m' =>
      let '(kept, v') := keep k v in
      if kept then (k, v') :: lm_retain keep m' else lm_retain keep m'
  end.

Definition lm_clear (m : list (K * V)) : list (K * V) := [].

(** [iter().min_by_key(f)]: the first of the least. *)
Fixpoint min_by_key (f : K * V -> Z) (m : list (K * V)) : option (K * V) :=
  match m with
  | [] => None
  | p :: m' => match min_by_key f m' with
               | Some q => if (f p <=? f q)%Z then Some p else Some q
               | None => Some p
               end
  end.

(** ** Laws *)

(** Keys are distinct: what [insert] establishes. *)
Definition lm_wf (m : list (K * V)) : Prop := NoDup m.*1.

Lemma lm_get_None m k : lm_get m k = None <-> k ∉ m.*1.
Proof.
  induction m as [|[k' v] m IH]; cbn; [split; [intros _; apply not_elem_of_nil|done]|].
  case_decide; subst; rewrite not_elem_of_cons; [naive_solver|]. rewrite IH. naive_solver.
Qed.

Lemma lm_get_elem m k v : lm_get m k = Some v -> (k, v) ∈ m.
Proof.
  induction m as [|[k' v'] m IH]; cbn; [done|]. rewrite elem_of_cons.
  case_decide; naive_solver.
Qed.

Lemma lm_get_Some m k v : lm_wf m -> (lm_get m k = Some v <-> (k, v) ∈ m).
Proof.
  intros Hwf. split; [apply lm_get_elem|].
  induction m as [|[k' v'] m IH]; cbn; [by intros ?%not_elem_of_nil|].
  apply NoDup_cons in Hwf as [Hn Hwf]. rewrite elem_of_cons. intros [[= -> ->]|Hin].
  - by rewrite decide_True.
  - rewrite decide_False; [by apply IH|]. intros ->. apply Hn. by apply (list_elem_of_fmap_2 fst _ _ Hin).
Qed.

Lemma lm_get_mut_keys f m k : (lm_get_mut f m k).*1 = m.*1.
Proof. induction m as [|[k' v] m IH]; cbn; [done|]. case_decide; cbn; by rewrite ?IH. Qed.

Lemma lm_get_get_mut f m k k' :
  lm_get (lm_get_mut f m k) k' = if decide (k = k') then f <$> lm_get m k' else lm_get m k'.
Proof.
  induction m as [|[k0 v] m IH]; cbn; [by case_decide|].
  repeat (case_decide; cbn; subst); try congruence; rewrite ?IH; try done.
  all: by rewrite decide_True || by rewrite decide_False.
Qed.

Lemma lm_insert_wf m k v : lm_wf m -> lm_wf (lm_insert m k v).2.
Proof.
  unfold lm_wf, lm_insert. intros Hwf. destruct (lm_get m k) eqn:E; cbn.
  - by rewrite lm_get_mut_keys.
  - rewrite lm_get_None in E. rewrite fmap_app. apply NoDup_app. split_and!; [done| |cbn; apply NoDup_singleton].
    intros x Hx. cbn. rewrite list_elem_of_singleton. by intros ->.
Qed.

Lemma lm_get_app m m' k : lm_get (m ++ m') k = match lm_get m k with Some v => Some v | None => lm_get m' k end.
Proof. induction m as [|[k' v] m IH]; cbn; [done|]. by case_decide. Qed.

Lemma lm_get_insert m k v k' :
  lm_get (lm_insert m k v).2 k' = if decide (k = k') then Some v else lm_get m k'.
Proof.
  unfold lm_insert. destruct (lm_get m k) eqn:E; cbn.
  - rewrite lm_get_get_mut. case_decide; [|done]. subst. by rewrite E.
  - rewrite lm_get_app. cbn. case_decide; subst; [by rewrite E|]. by destruct (lm_get m k').
Qed.

Lemma lm_len_insert m k v :
  length (lm_insert m k v).2 = if decide (is_Some (lm_get m k)) then length m else S (length m).
Proof.
  unfold lm_insert. destruct (lm_get m k) eqn:E; cbn.
  - rewrite decide_True by done. rewrite <- (length_fmap fst), lm_get_mut_keys. apply length_fmap.
  - rewrite decide_False by (by intros [? ?]). rewrite length_app. cbn. lia.
Qed.
End ops.

(** [swap_remove] takes one element away, up to order. *)
Lemma swap_remove_perm {A} (l : list A) pos x l' :
  swap_remove l pos = Some (x, l') -> l ≡ₚ x :: l' /\ l !! pos = Some x.
Proof.
  unfold swap_remove. destruct (l !! pos) as [a|] eqn:Ha; [|done].
  destruct (last l) as [y|] eqn:Hy; [|done]. intros [= <- <-]. split; [|done].
  destruct l as [|z l0 _] using rev_ind; [done|]. rewrite last_snoc in Hy. injection Hy as ->.
  rewrite length_app. cbn [length]. replace (length l0 + 1 - 1)%nat with (length l0) by lia.
  pose proof (lookup_lt_Some _ _ _ Ha) as Hlt. rewrite length_app in Hlt. cbn [length] in Hlt.
  destruct (decide (pos = length l0)) as [->|Hne].
  - rewrite lookup_app_r, Nat.sub_diag in Ha by lia. injection Ha as ->.
    rewrite insert_app_r_alt, Nat.sub_diag by lia. cbn [insert list_insert].
    rewrite take_app_length. apply Permutation_app_comm.
  - rewrite lookup_app_l in Ha by lia. rewrite insert_app_l by lia.
    rewrite take_app_length' by (by rewrite length_insert).
    rewrite <- (take_drop_middle l0 pos a Ha) at 1.
    rewrite (insert_take_drop l0 pos y) by lia.
    rewrite (Permutation_app_comm _ [y]). cbn [app].
    rewrite <- !Permutation_middle. apply Permutation_swap.
Qed.

Lemma position_swap_remove {A} (p : A -> bool) (l : list A) pos :
  position p l = Some pos -> exists x l', swap_remove l pos = Some (x, l') /\ p x = true.
Proof.
  intros (x&Hx&Hp&_)%position_Some. unfold swap_remove. rewrite Hx.
  destruct (last l) as [y|] eqn:Hl; [by eauto|]. apply last_None in Hl. by subst.
Qed.

Section remove.
Context {K V : Type} `{EqDecision K}.
Implicit Types (m : list (K * V)) (k : K) (v : V).

Lemma lm_remove_perm m k :
  match lm_remove m k with
  | Some (v, m') => m ≡ₚ (k, v) :: m'
  | None => k ∉ m.*1
  end.
Proof.
  unfold lm_remove. destruct (position _ m) as [pos|] eqn:Hp; cbn.
  - destruct (position_swap_remove _ _ _ Hp) as (p&m'&Hs&Hk%bool_decide_eq_true). rewrite Hs. cbn.
    destruct (swap_remove_perm _ _ _ _ Hs) as [Hperm _]. destruct p; cbn in *. by subst.
  - apply position_None in Hp. intros ([k' v]&->&Hin)%list_elem_of_fmap_1.
    rewrite Forall_forall in Hp. specialize (Hp _ Hin). by rewrite bool_decide_eq_false in Hp.
Qed.

Lemma lm_wf_perm m m' : m ≡ₚ m' -> lm_wf m -> lm_wf m'.
Proof. unfold lm_wf. intros E. by rewrite E. Qed.

Lemma lm_delete_wf m k : lm_wf m -> lm_wf (lm_delete m k).
Proof.
  intros Hwf. unfold lm_delete. pose proof (lm_remove_perm m k) as H.
  destruct (lm_remove m k) as [[v m']|]; [|done].
  pose proof (lm_wf_perm _ _ H Hwf) as H'. unfold lm_wf in *. cbn in H'. by apply NoDup_cons in H' as [_ ?].
Qed.

Lemma lm_get_delete m k k' :
  lm_wf m -> lm_get (lm_delete m k) k' = if decide (k = k') then None else lm_get m k'.
Proof.
  intros Hwf. pose proof (lm_delete_wf m k Hwf) as Hwf'. revert Hwf'.
  unfold lm_delete. pose proof (lm_remove_perm m k) as H.
  destruct (lm_remove m k) as [[v m']|]; intros Hwf'.
  - pose proof (lm_wf_perm _ _ H Hwf) as Hc. unfold lm_wf in Hc. cbn in Hc.
    apply NoDup_cons in Hc as [Hn _]. case_decide; subst; [by apply lm_get_None|].
    apply option_eq. intros v'. rewrite !lm_get_Some by done. rewrite H, elem_of_cons. naive_solver.
  - case_decide; subst; [by apply lm_get_None|done].
Qed.

Lemma lm_remove_get m k : lm_wf m -> fst <$> lm_remove m k = lm_get m k.
Proof.
  intros Hwf. pose proof (lm_remove_perm m k) as H. destruct (lm_remove m k) as [[v m']|]; cbn.
  - symmetry. apply lm_get_Some; [done|]. rewrite H. apply elem_of_cons. by left.
  - symmetry. by apply lm_get_None.
Qed.

Lemma lm_len_delete m k :
  length (lm_delete m k) = (length m - if decide (is_Some (lm_remove m k)) then 1 else 0)%nat.
Proof.
  unfold lm_delete. pose proof (lm_remove_perm m k) as H.
  destruct (lm_remove m k) as [[v m']|].
  - rewrite decide_True by done. rewrite H. cbn. lia.
  - rewrite decide_False by (by intros [? ?]). lia.
Qed.

Lemma lm_delete_elem m k p : p ∈ lm_delete m k -> p ∈ m.
Proof.
  unfold lm_delete. pose proof (lm_remove_perm m k) as H.
  destruct (lm_remove m k) as [[v m']|]; [|done]. rewrite H, elem_of_cons. auto.
Qed.

Lemma lm_retain_elem keep m k v :
  (k, v) ∈ lm_retain keep m <-> exists v0, (k, v0) ∈ m /\ keep k v0 = (true, v).
Proof.
  induction m as [|[k0 v0] m IH]; cbn.
  - split; [by intros ?%not_elem_of_nil|]. by intros (?&?%not_elem_of_nil&_).
  - destruct (keep k0 v0) as [[] v'] eqn:E; rewrite ?elem_of_cons, IH.
    + split; [intros [[= -> ->]|(?&?&?)]; eexists; rewrite elem_of_cons; eauto|].
      intros (v1&Hin&Hk). rewrite elem_of_cons in Hin. destruct Hin as [[= -> ->]|?]; [|naive_solver].
      left. congruence.
    + split; [intros (?&?&?); eexists; rewrite elem_of_cons; eauto|].
      intros (v1&Hin&Hk). rewrite elem_of_cons in Hin. destruct Hin as [[= -> ->]|?]; [congruence|eauto].
Qed.

Lemma lm_retain_keys keep m : sublist (lm_retain keep m).*1 m.*1.
Proof.
  induction m as [|[k v] m IH]; cbn; [constructor|]. destruct (keep k v) as [[] v']; cbn; by constructor.
Qed.

Lemma lm_retain_wf keep m : lm_wf m -> lm_wf (lm_retain keep m).
Proof. unfold lm_wf. intros H. eapply sublist_NoDup; [exact H|apply lm_retain_keys]. Qed.

Lemma lm_len_retain keep m : (length (lm_retain keep m) <= length m)%nat.
Proof. rewrite <- !(length_fmap fst). apply sublist_length, lm_retain_keys. Qed.

Lemma lm_get_retain keep m k v :
  lm_wf m ->
  (lm_get (lm_retain keep m) k = Some v <-> exists v0, lm_get m k = Some v0 /\ keep k v0 = (true, v)).
Proof.
  intros Hwf. rewrite lm_get_Some, lm_retain_elem by (by apply lm_retain_wf).
  by setoid_rewrite <- lm_get_Some.
Qed.

Lemma min_by_key_spec f m :
  match min_by_key f m with
  | Some p => p ∈ m /\ forall q, q ∈ m -> (f p <= f q)%Z
  | None => m = []
  end.
Proof.
  induction m as [|p m IH]; cbn; [done|]. destruct (min_by_key f m) as [q|].
  - destruct IH as [Hin Hmin]. destruct (f p <=? f q)%Z eqn:E; rewrite elem_of_cons;
      (split; [auto|]); intros r; rewrite elem_of_cons; intros [->|Hr]; try lia;
      specialize (Hmin _ Hr); lia.
  - subst. rewrite elem_of_cons. split; [auto|]. intros q. rewrite elem_of_cons.
    intros [->|?%not_elem_of_nil]; [lia|done].
Qed.
End remove.

(** [LinearMap] is a finite map: from distinct keys, [insert] and [remove]
    return the value that was there, leave keys distinct, and read back as the
    pointwise update, whatever order [swap_remove] leaves the pairs in; [retain]
    keeps exactly the accepted entries with their new values. *)
Theorem linear_map_is_finite_map {K V} `{EqDecision K} (m : LinearMap K V) k v keep :
  lm_wf m ->
  ((lm_insert m k v).1 = lm_get m k /\ lm_wf (lm_insert m k v).2 /\
   forall k', lm_get (lm_insert m k v).2 k' = if decide (k = k') then Some v else lm_get m k') /\
  (fst <$> lm_remove m k = lm_get m k /\ lm_wf (lm_delete m k) /\
   forall k', lm_get (lm_delete m k) k' = if decide (k = k') then None else lm_get m k') /\
  (lm_wf (lm_retain keep m) /\
   forall k' v', lm_get (lm_retain keep m) k' = Some v' <->
     exists v0, lm_get m k' = Some v0 /\ keep k' v0 = (true, v')).
Proof.
  intros Hwf. split_and!; auto using lm_insert_wf, lm_get_insert, lm_remove_get, lm_delete_wf,
    lm_get_delete, lm_retain_wf, lm_get_retain.
  unfold lm_insert. by destruct (lm_get m k).
Qed.

Lemma linear_map_is_finite_map_witness :
  lm_get (lm_delete [(1, true); (2, false); (3, true)] 1) 3 = Some true /\
  lm_delete [(1, true); (2, false); (3, true)] 1 = [(3, true); (2, false)].
Proof.
  split; [|reflexivity].
  destruct (linear_map_is_finite_map [(1, true); (2, false); (3, true)] 1 true (fun _ v => (true, v)))
    as (_&(_&_&H)&_); [by apply (bool_decide_eq_true_1 (NoDup _))|].
  by rewrite H.
Defined.
