(* ===== verification/UniqueList.v ===== *)
(** The duplicate-free list of [src/unique_list.rs]: the admission loop in the
    order it reports errors, and parsing from comma-separated text. *)

From S2P Require Import Prelude Text.

(** [trait ListRule]: the element type with its text form, its noun, and why
    an element is refused. *)
Class ListRule (Item : Type) := {
  NOUN : bytes;
  refuse : Item -> option bytes;
  item_parse : bytes -> option Item;
  item_eq_dec :: EqDecision Item;
}.

Inductive ListError (T : Type) : Type :=
  | LEmpty
  | LDuplicate (item : T)
  | LRefused (item : T) (reason : bytes)
  | LInvalid (token : bytes).
Arguments LEmpty {T}.
Arguments LDuplicate {T} item.
Arguments LRefused {T} item reason.
Arguments LInvalid {T} token.

(** [serde::de::Error::custom], its message dropped: why a value of the file is
    refused. *)
Inductive SerdeError : Type := Custom.

(** [Vec::deserialize]: each element in turn, up to the first that fails. *)
Fixpoint vec_deserialize {W T} (deserialize : W -> res SerdeError T) (values : list W) : res SerdeError (list T) :=
  match values with
  | [] => Ok []
  | v :: values => item ← deserialize v; items ← vec_deserialize deserialize values; Ok (item :: items)
  end.

Section list.
Context {T : Type} `{ListRule T}.
Implicit Types (items : list T).

(** The loop of [try_from], past the items [seen]. *)
Fixpoint admit_items (seen items : list T) : res (ListError T) () :=
  match items with
  | [] => Ok ()
  | item :: rest =>
      match refuse item with
      | Some reason => Err (LRefused item reason)
      | None => if bool_decide (item ∈ seen) then Err (LDuplicate item)
                else admit_items (seen ++ [item]) rest
      end
  end.

(** [UniqueList::try_from] *)
Definition try_from (items : list T) : res (ListError T) (list T) :=
  match items with
  | [] => Err LEmpty
  | _ => _ ← admit_items [] items; Ok items
  end.

(** [collect::<Result<Vec<_>, _>>()] over the trimmed tokens *)
Fixpoint parse_tokens (tokens : list bytes) : res (ListError T) (list T) :=
  match tokens with
  | [] => Ok []
  | token :: tokens =>
      let token := str_trim token in
      item ← ok_or (item_parse token) (LInvalid token);
      items ← parse_tokens tokens;
      Ok (item :: items)
  end.

(** [UniqueList::from_str] *)
Definition list_from_str (s : bytes) : res (ListError T) (list T) :=
  items ← parse_tokens (split_on (Z.eqb 44) s);
  try_from items.

(** [UniqueList::deserialize], over the elements as the format reads them *)
Definition list_deserialize (items : res SerdeError (list T)) : res SerdeError (list T) :=
  items ← items;
  map_err (fun _ => Custom) (try_from items).

(** What a [UniqueList] promises. *)
Definition unique_list_ok items : Prop :=
  items <> [] /\ NoDup items /\ Forall (fun i => refuse i = None) items.

Lemma admit_items_spec seen items :
  NoDup seen ->
  match admit_items seen items with
  | Ok _ => NoDup (seen ++ items) /\ Forall (fun i => refuse i = None) items
  | Err e => exists pre item post, items = pre ++ item :: post /\
      NoDup (seen ++ pre) /\ Forall (fun i => refuse i = None) pre /\
      ((exists reason, refuse item = Some reason /\ e = LRefused item reason) \/
       (refuse item = None /\ item ∈ seen ++ pre /\ e = LDuplicate item))
  | Panic => False
  end.
Proof.
  revert seen. induction items as [|item items IH]; intros seen Hs; cbn.
  - rewrite app_nil_r. auto.
  - destruct (refuse item) as [reason|] eqn:Hr.
    { exists [], item, items. rewrite app_nil_r. split_and!; eauto. }
    case_bool_decide as Hin.
    { exists [], item, items. rewrite app_nil_r. split_and!; eauto. }
    assert (NoDup (seen ++ [item])) as Hs'.
    { apply NoDup_app. split_and!; [done| |apply NoDup_singleton].
      intros x Hx. rewrite list_elem_of_singleton. by intros ->. }
    specialize (IH _ Hs'). destruct (admit_items _ _) as [[]|e|]; [..|done].
    + rewrite <- app_assoc in IH. destruct IH. by rewrite Forall_cons.
    + destruct IH as (pre&i&post&->&Hn&Hf&He). exists (item :: pre), i, post.
      rewrite <- app_assoc in *. rewrite Forall_cons. auto.
Qed.

Lemma try_from_Ok items l :
  try_from items = Ok l <-> l = items /\ unique_list_ok items.
Proof.
  unfold try_from, unique_list_ok. destruct items as [|i items]; [naive_solver|].
  pose proof (admit_items_spec [] (i :: items) (NoDup_nil_2)) as Hs. cbn [app] in Hs.
  destruct (admit_items [] (i :: items)) as [[]|e|]; cbn [mbind res_bind].
  - split; [intros [= <-]|intros (->&_)]; naive_solver.
  - split; [done|]. intros (_&_&Hnd&Hall). destruct Hs as (pre&x&post&E&Hn&_&Hc). exfalso.
    rewrite E in *. apply Forall_app in Hall as [_ Hx%Forall_cons]. destruct Hx as [Hx _].
    destruct Hc as [(?&?&_)|(_&Hin&_)]; [congruence|].
    apply NoDup_app in Hnd as (_&Hd&_). by apply (Hd x Hin), list_elem_of_here.
  - done.
Qed.

Lemma try_from_safe items : safe (try_from items).
Proof.
  unfold try_from. destruct items as [|i items]; [apply safe_Err|].
  pose proof (admit_items_spec [] (i :: items) (NoDup_nil_2)).
  destruct (admit_items _ _); [apply safe_Ok|apply safe_Err|done].
Qed.
End list.

(** [UniqueList::try_from] admits exactly the non-empty, duplicate-free
    lists whose elements its rule accepts, unchanged; otherwise it names the
    first element, in list order, that is refused or repeats an earlier one,
    with refusal reported before repetition. *)
Theorem unique_list_admission {T} `{ListRule T} (items : list T) :
  match try_from items with
  | Ok l => l = items /\ unique_list_ok items
  | Err LEmpty => items = []
  | Err e => exists pre item post, items = pre ++ item :: post /\
      NoDup pre /\ Forall (fun i => refuse i = None) pre /\
      ((exists reason, refuse item = Some reason /\ e = LRefused item reason) \/
       (refuse item = None /\ item ∈ pre /\ e = LDuplicate item))
  | Panic => False
  end.
Proof.
  destruct (try_from items) as [l|e|] eqn:E.
  - by apply try_from_Ok.
  - unfold try_from in E. destruct items as [|i items]; [by injection E as <-|].
    pose proof (admit_items_spec [] (i :: items) (NoDup_nil_2)) as Hs. cbn [app] in Hs.
    destruct (admit_items _ _) as [|e'|]; [done| |done]. cbn in E. injection E as ->.
    destruct e; naive_solver.
  - by apply (try_from_safe items).
Qed.
