(* ===== verification/Mac.v ===== *)
(** MAC addresses ([src/net/mac.rs]): text forms and the link-layer group an
    IP group maps to.  The address type and its constants are in [Addr]. *)

From S2P Require Import Prelude Text Addr Checksum UniqueList.

Local Open Scope Z_scope.

(** [MacAddr::multicast_for]; the assertion that [addr] is multicast is
    compiled out of a release build. *)
Definition multicast_for (addr : IpAddr) : MacAddr :=
  match addr with
  | V4 v4 => [1; 0; 94; Z.land (v4_octet 1 v4) 127; v4_octet 2 v4; v4_octet 3 v4]
  | V6 v6 => [51; 51; v6_octet 12 v6; v6_octet 13 v6; v6_octet 14 v6; v6_octet 15 v6]
  end.

(** [Display]; [intersperse] joins with a separator. *)
Fixpoint intersperse (sep : Z) (groups : list bytes) : bytes :=
  match groups with
  | [] => []
  | [g] => g
  | g :: gs => g ++ sep :: intersperse sep gs
  end.
Definition mac_display (m : MacAddr) : bytes := intersperse 58 (show_hex2 <$> m).

(** The octets of one group, in pairs of digits. *)
Fixpoint group_octets (n i : nat) (group : bytes) : option bytes :=
  match n with
  | O => Some []
  | S n =>
      octet ← get_range (2 * i) (2 * i + 2) group;
      b ← parse_uint 16 256 octet;
      bs ← group_octets n (S i) group;
      Some (b :: bs)
  end.

(** The loop over [chunks_exact_mut(group_len / 2)]. *)
Fixpoint mac_groups (chunks group_len : nat) (groups : list bytes) : option (bytes * list bytes) :=
  match chunks with
  | O => Some ([], groups)
  | S chunks =>
      match groups with
      | [] => None
      | group :: groups =>
          if negb (length group =? group_len)%nat || negb (forallb is_hexdigit group) then None
          else
            octets ← group_octets (group_len / 2) 0 group;
            '(rest, groups) ← mac_groups chunks group_len groups;
            Some (octets ++ rest, groups)
      end
  end.

(** [MacAddr::from_str] *)
Definition mac_from_str (s : bytes) : option MacAddr :=
  let '(separator, group_len) :=
    if existsb (Z.eqb 46) s then (46, 4%nat)
    else if existsb (Z.eqb 45) s then (45, 2%nat)
    else (58, 2%nat) in
  '(m, groups) ← mac_groups (6 / (group_len / 2)) group_len (split_on (Z.eqb separator) s);
  match groups with [] => Some m | _ => None end.

(** [MacAddr::deserialize] *)
Definition mac_deserialize (s : bytes) : res SerdeError MacAddr := ok_or (mac_from_str s) Custom.

(** [Macs]: the rule of [MacSet] refuses nothing. *)
#[export] Instance Macs : ListRule MacAddr := {
  NOUN := bs "MAC";
  refuse := fun _ => None;
  item_parse := mac_from_str;
}.

(** The three spellings. *)
Definition mac_dashes (m : MacAddr) : bytes := intersperse 45 (show_hex2 <$> m).
Fixpoint pairs_hex (m : bytes) : list bytes :=
  match m with
  | a :: b :: m => (show_hex2 a ++ show_hex2 b) :: pairs_hex m
  | _ => []
  end.
Definition mac_dots (m : MacAddr) : bytes := intersperse 46 (pairs_hex m).

Lemma intersperse_cons sep g g' gs :
  intersperse sep (g :: g' :: gs) = g ++ sep :: intersperse sep (g' :: gs).
Proof. done. Qed.

Lemma intersperse_split sep groups :
  groups <> [] -> Forall (Forall (fun d => (sep =? d) = false)) groups ->
  split_on (Z.eqb sep) (intersperse sep groups) = groups.
Proof.
  intros Hne H. induction H as [|g gs Hg Hgs IH]; [done|].
  destruct gs as [|g' gs].
  - by apply split_on_none.
  - rewrite intersperse_cons, split_on_app; [by rewrite IH|done|apply Z.eqb_refl].
Qed.

Lemma intersperse_none sep d groups :
  sep <> d -> Forall (Forall (fun x => x <> d)) groups ->
  existsb (Z.eqb d) (intersperse sep groups) = false.
Proof.
  intros Hs H. apply existsb_none. induction H as [|g gs Hg Hgs IH]; [constructor|].
  assert (Forall (fun y => (d =? y) = false) g) by (eapply Forall_impl; [exact Hg|]; intros x Hx; cbn in *; lia).
  destruct gs as [|g' gs]; [done|]. rewrite intersperse_cons.
  apply Forall_app. split; [done|]. constructor; [lia|done].
Qed.

Lemma intersperse_some sep g g' gs : existsb (Z.eqb sep) (intersperse sep (g :: g' :: gs)) = true.
Proof. rewrite intersperse_cons, existsb_app. cbn [existsb]. by rewrite Z.eqb_refl, orb_true_r. Qed.

Lemma show_hex2_cons b : exists x y, show_hex2 b = [x; y].
Proof. by do 2 eexists. Qed.

(** Groups of one octet, then of two. *)
Lemma mac_groups_pairs m :
  bytes_ok m -> mac_groups (length m) 2 (show_hex2 <$> m) = Some (m, []).
Proof.
  induction 1 as [|b m Hb _ IH]; [done|]. destruct (hex2_ok b Hb) as (Hp&Hh&_).
  cbn [length mac_groups fmap list_fmap]. rewrite Hh.
  destruct (show_hex2_cons b) as (x&y&E). rewrite E in *. change (2 / 2)%nat with 1%nat.
  assert (group_octets 1 0 [x; y] = Some [b]) as ->.
  { transitivity (b0 ← parse_uint 16 256 [x; y]; Some [b0]); [reflexivity|by rewrite Hp]. }
  cbn [length Nat.eqb negb orb mbind option_bind]. by rewrite IH.
Qed.

Lemma mac_groups_quads a b c d e f :
  bytes_ok [a; b; c; d; e; f] ->
  mac_groups 3 4 (pairs_hex [a; b; c; d; e; f]) = Some ([a; b; c; d; e; f], []).
Proof.
  assert (forall a b gs n r rest, byte_ok a -> byte_ok b -> mac_groups n 4 gs = Some (r, rest) ->
    mac_groups (S n) 4 ((show_hex2 a ++ show_hex2 b) :: gs) = Some (a :: b :: r, rest)) as Hstep.
  { intros a' b' gs n r rest Ha Hb Hr. destruct (hex2_ok a' Ha) as (Hp&Hh&_).
    destruct (hex2_ok b' Hb) as (Hp'&Hh'&_). cbn [mac_groups]. rewrite forallb_app, Hh, Hh'.
    destruct (show_hex2_cons a') as (x&y&E), (show_hex2_cons b') as (x'&y'&E'). rewrite E, E' in *.
    change (4 / 2)%nat with 2%nat.
    assert (group_octets 2 0 ([x; y] ++ [x'; y']) = Some [a'; b']) as ->.
    { transitivity (b0 ← parse_uint 16 256 [x; y];
                    bs0 ← (b1 ← parse_uint 16 256 [x'; y']; bs1 ← Some []; Some (b1 :: bs1));
                    Some (b0 :: bs0)); [reflexivity|by rewrite Hp, Hp']. }
    cbn [length app Nat.eqb negb orb andb mbind option_bind]. by rewrite Hr. }
  intros H. rewrite !Forall_cons in H. destruct_and!. cbn [pairs_hex]. by repeat apply Hstep.
Qed.

Lemma hex_groups_avoid d m :
  d = 45 \/ d = 46 \/ d = 58 -> bytes_ok m -> Forall (Forall (fun x => x <> d)) (show_hex2 <$> m).
Proof.
  intros Hd Hm. apply Forall_fmap. eapply Forall_impl; [exact Hm|]. intros b Hb.
  destruct (hex2_ok b Hb) as (_&_&H). eapply Forall_impl; [exact H|]. intros x Hx. cbn in *. lia.
Qed.

Lemma pairs_hex_avoid d m :
  d = 45 \/ d = 46 \/ d = 58 -> bytes_ok m -> Forall (Forall (fun x => x <> d)) (pairs_hex m).
Proof.
  intros Hd. induction m as [|a|a b m IH] using Checksum.pair_ind; intros Hm; cbn [pairs_hex]; [done|done|]. constructor.
  - rewrite !Forall_cons in Hm. destruct Hm as (Ha&Hb&_).
    pose proof (hex_groups_avoid d [a; b] Hd ltac:(rewrite !Forall_cons; auto)) as H.
    cbn [fmap list_fmap] in H. rewrite !Forall_cons in H. apply Forall_app. destruct H as (?&?&_); auto.
  - rewrite !Forall_cons in Hm. apply IH; tauto.
Qed.

Lemma avoid_eqb d l : Forall (Forall (fun x => x <> d)) l -> Forall (Forall (fun x => (d =? x) = false)) l.
Proof. intros H. eapply Forall_impl; [exact H|]. intros g Hg. eapply Forall_impl; [exact Hg|]. intros x Hx. cbn in *. lia. Qed.

(** A MAC address survives its text form: the displayed form, and the
    dashed and dotted spellings, all parse back to the address. *)
Theorem mac_text_roundtrip m :
  mac_ok m -> bytes_ok m ->
  mac_from_str (mac_display m) = Some m /\ mac_from_str (mac_dashes m) = Some m /\
  mac_from_str (mac_dots m) = Some m.
Proof.
  intros Hm Hb. unfold mac_ok in Hm.
  assert (exists a b c d e f, m = [a; b; c; d; e; f]) as (a&b&c&d&e&f&Em).
  { do 6 (destruct m as [|? m]; [discriminate Hm|]). destruct m; [|discriminate Hm]. by do 6 eexists. }
  pose proof (mac_groups_pairs m Hb) as Hg. rewrite Hm in Hg.
  assert (show_hex2 <$> m <> []) as Hne by (by rewrite Em).
  unfold mac_from_str, mac_display, mac_dashes, mac_dots. split_and!.
  - rewrite !intersperse_none by (lia || apply hex_groups_avoid; auto).
    rewrite intersperse_split by (done || apply avoid_eqb, hex_groups_avoid; auto).
    change (6 / (2 / 2))%nat with 6%nat. by rewrite Hg.
  - rewrite (intersperse_none 45 46) by (lia || apply hex_groups_avoid; auto).
    assert (existsb (Z.eqb 45) (intersperse 45 (show_hex2 <$> m)) = true) as ->
      by (rewrite Em; apply intersperse_some).
    rewrite intersperse_split by (done || apply avoid_eqb, hex_groups_avoid; auto).
    change (6 / (2 / 2))%nat with 6%nat. by rewrite Hg.
  - assert (existsb (Z.eqb 46) (intersperse 46 (pairs_hex m)) = true) as ->
      by (rewrite Em; apply intersperse_some).
    rewrite intersperse_split; [|by rewrite Em|apply avoid_eqb, pairs_hex_avoid; auto].
    change (6 / (4 / 2))%nat with 3%nat. rewrite Em in *. by rewrite mac_groups_quads.
Qed.

Lemma mac_text_roundtrip_witness :
  mac_display [2; 0; 94; 16; 171; 255] = bs "02:00:5e:10:ab:ff" /\
  mac_from_str (bs "02:00:5e:10:ab:ff") = Some [2; 0; 94; 16; 171; 255].
Proof.
  split; [reflexivity|].
  apply (mac_text_roundtrip [2; 0; 94; 16; 171; 255]); [done|by apply (bool_decide_eq_true_1 (Forall byte_ok _))].
Defined.
