(* ===== verification/Arena.v ===== *)
(** The generational arena ([src/reactor/arena.rs]): slots, the stack of free
    indices, and the theorem that a key to a removed value never reaches a
    later occupant of its slot. *)

From S2P Require Import Prelude.

Local Open Scope Z_scope.

Record Key : Type := { index : Z; generation : Z }.
Global Instance Key_eq_dec : EqDecision Key.
Proof. solve_decision. Defined.

Definition key_ok (k : Key) : Prop := word_ok 32 (index k) /\ word_ok 32 (generation k).

(** [Key::to_u64] and [Key::from_u64] *)
Definition to_u64 (k : Key) : Z := Z.lor (Z.shiftl (index k) 32) (generation k).
Definition from_u64 (packed : Z) : Key :=
  {| index := Z.land (Z.shiftr packed 32) (2 ^ 32 - 1); generation := Z.land packed (2 ^ 32 - 1) |}.

Record Slot (T : Type) : Type := { sl_generation : Z; sl_value : option T }.
Arguments sl_generation {T} _.
Arguments sl_value {T} _.

(** The head of [free] is the end of the vector, where it is pushed and popped. *)
Record Arena (T : Type) : Type := { slots : list (Slot T); free : list Z }.
Arguments slots {T} _.
Arguments free {T} _.
Arguments Build_Slot {T} _ _.
Arguments Build_Arena {T} _ _.

Section arena.
Context {T : Type}.
Implicit Types (a : Arena T) (k : Key) (v : T).

Definition arena_new : Arena T := {| slots := []; free := [] |}.

(** [insert_from] *)
Definition insert_from {E} (a : Arena T) (make : Key -> T) : res E (Key * Arena T) :=
  match free a with
  | index :: rest =>
      slot ← idx (slots a) (Z.to_nat index);
      let key := {| index := index; generation := sl_generation slot |} in
      slots' ← set_at (slots a) (Z.to_nat index)
                 {| sl_generation := sl_generation slot; sl_value := Some (make key) |};
      Ok (key, {| slots := slots'; free := rest |})
  | [] =>
      let index := Z.of_nat (length (slots a)) in
      if index <? 2 ^ 32 then
        let key := {| index := index; generation := 0 |} in
        Ok (key, {| slots := slots a ++ [{| sl_generation := 0; sl_value := Some (make key) |}];
                    free := [] |})
      else Panic
  end.

(** [insert] *)
Definition arena_insert {E} (a : Arena T) (value : T) : res E (Key * Arena T) :=
  insert_from a (fun _ => value).

(** [slot] and [slot_mut] *)
Definition slot (a : Arena T) (key : Key) : option (Slot T) :=
  s ← slots a !! Z.to_nat (index key);
  if sl_generation s =? generation key then Some s else None.

(** [get] *)
Definition get (a : Arena T) (key : Key) : option T := s ← slot a key; sl_value s.

(** A write through [get_mut]. *)
Definition get_mut (a : Arena T) (key : Key) (f : T -> T) : Arena T :=
  match slot a key with
  | Some s => {| slots := <[Z.to_nat (index key) :=
                           {| sl_generation := sl_generation s; sl_value := f <$> sl_value s |}]> (slots a);
                 free := free a |}
  | None => a
  end.

(** [remove] *)
Definition remove (a : Arena T) (key : Key) : option (T * Arena T) :=
  s ← slot a key;
  value ← sl_value s;
  Some (value,
    {| slots := <[Z.to_nat (index key) :=
                 {| sl_generation := (sl_generation s + 1) mod 2 ^ 32; sl_value := None |}]> (slots a);
       free := index key :: free a |}).

Definition contains (a : Arena T) (key : Key) : bool := bool_decide (is_Some (get a key)).

(** [iter]; the index conversion panics past the index space. *)
Fixpoint iter_from (i : Z) (l : list (Slot T)) : list (Key * T) :=
  match l with
  | [] => []
  | s :: l => match sl_value s with
              | Some v => ({| index := i; generation := sl_generation s |}, v) :: iter_from (i + 1) l
              | None => iter_from (i + 1) l
              end
  end.
Definition iter (a : Arena T) : list (Key * T) := iter_from 0 (slots a).

(** ** Invariant: exactly the empty slots are free, each once. *)
Record arena_wf (a : Arena T) : Prop := {
  aw_nodup : NoDup (free a);
  aw_len : Z.of_nat (length (slots a)) <= 2 ^ 32;
  aw_free : forall i, i ∈ free a <->
    0 <= i /\ exists s, slots a !! Z.to_nat i = Some s /\ sl_value s = None;
  aw_gen : Forall (fun s => word_ok 32 (sl_generation s)) (slots a);
}.

Lemma slot_Some a k s :
  slot a k = Some s <-> slots a !! Z.to_nat (index k) = Some s /\ sl_generation s = generation k.
Proof.
  unfold slot. destruct (slots a !! _) as [s'|]; cbn; [|naive_solver].
  destruct (Z.eqb_spec (sl_generation s') (generation k)); naive_solver.
Qed.

Lemma get_Some a k v :
  get a k = Some v <->
  exists s, slots a !! Z.to_nat (index k) = Some s /\ sl_generation s = generation k /\ sl_value s = Some v.
Proof.
  unfold get. rewrite bind_Some. setoid_rewrite slot_Some. naive_solver.
Qed.

Lemma arena_new_wf : arena_wf arena_new.
Proof.
  split; cbn; [constructor|lia| |constructor].
  intros i. split; [by intros ?%not_elem_of_nil|]. by intros (_&s&[=]&_).
Qed.

(** [insert_from] on a well-formed arena: only an exhausted index space panics. *)
Lemma insert_from_spec {E} a make :
  arena_wf a ->
  match insert_from (E:=E) a make with
  | Ok (k, a') =>
      arena_wf a' /\ key_ok k /\ get a k = None /\ get a' k = Some (make k) /\
      (forall k', 0 <= index k' -> k' <> k -> get a' k' = get a k') /\
      (forall i s, slots a !! i = Some s -> exists s', slots a' !! i = Some s' /\ sl_generation s' = sl_generation s)
  | Err _ => False
  | Panic => free a = [] /\ Z.of_nat (length (slots a)) = 2 ^ 32
  end.
Proof.
  intros [Hnd Hlen Hfree Hgen]. unfold insert_from. destruct (free a) as [|i rest] eqn:Ef.
  - destruct (Z.ltb_spec (Z.of_nat (length (slots a))) (2 ^ 32)) as [Hlt|]; [|split; [done|lia]].
    set (k := {| index := _; generation := 0 |}). split_and!.
    + split; cbn; [constructor|rewrite length_app; cbn; lia| |].
      * intros j. split; [by intros ?%not_elem_of_nil|]. intros (Hj&s&Hs&Hv).
        apply Hfree. split; [done|]. exists s. split; [|done].
        apply lookup_app_Some in Hs as [?|[? Hs]]; [done|].
        apply list_lookup_singleton_Some in Hs as [_ <-]. discriminate Hv.
      * apply Forall_app. split; [done|]. constructor; [|done]. by split.
    + split; cbn; split; lia.
    + destruct (get a k) as [v|] eqn:Eg; [|done]. apply get_Some in Eg as (s&Hs&_).
      cbn in Hs. apply lookup_lt_Some in Hs. lia.
    + apply get_Some. eexists. cbn. rewrite Nat2Z.id, lookup_app_r, Nat.sub_diag by lia. done.
    + intros k' Hk' Hne. unfold get, slot. cbn.
      destruct (decide (Z.to_nat (index k') < length (slots a))%nat).
      { by rewrite lookup_app_l by lia. }
      rewrite (lookup_ge_None_2 (slots a)) by lia. rewrite lookup_app_r by lia.
      destruct (decide (Z.to_nat (index k') = length (slots a))) as [Ei|].
      * rewrite Ei, Nat.sub_diag. cbn [lookup list_lookup mbind option_bind sl_generation sl_value].
        destruct (Z.eqb_spec 0 (generation k')); [|done].
        destruct Hne. destruct k' as [i g]. cbn in *. subst k g. f_equal. lia.
      * rewrite lookup_ge_None_2; [done|]. cbn. lia.
    + intros i s Hs. exists s. split; [|done]. cbn. by apply lookup_app_l_Some.
  - pose proof (proj1 (Hfree i) ltac:(by apply list_elem_of_here)) as (Hi&s&Hs&Hv).
    pose proof (lookup_lt_Some _ _ _ Hs) as Hlt. unfold idx. rewrite Hs. cbn [expect mbind res_bind].
    rewrite set_at_ok by done. cbn [mbind res_bind].
    apply NoDup_cons in Hnd as [Hni Hnd].
    assert (word_ok 32 (sl_generation s)) as Hg by apply (Forall_lookup_1 _ _ _ _ Hgen Hs).
    set (k := {| index := i; generation := sl_generation s |}). split_and!.
    + split; cbn; [done|by rewrite length_insert| |].
      * intros j. split.
        -- intros Hj. destruct (proj1 (Hfree j) ltac:(by apply list_elem_of_further)) as (?&s'&Hs'&Hv').
           split; [done|]. exists s'. split; [|done]. rewrite list_lookup_insert_ne; [done|].
           intros Heq. assert (i = j) by lia. by subst.
        -- intros (Hj&s'&Hs'&Hv'). destruct (decide (i = j)) as [<-|Hij].
           { rewrite list_lookup_insert_eq in Hs' by done. injection Hs' as <-. done. }
           rewrite list_lookup_insert_ne in Hs' by lia.
           assert (j ∈ i :: rest) as Hin by (apply Hfree; eauto).
           apply elem_of_cons in Hin. naive_solver.
      * apply Forall_insert; [done|]. by cbn.
    + split; [|done]. unfold word_ok in *. cbn. lia.
    + destruct (get a k) as [v|] eqn:Eg; [|done]. apply get_Some in Eg as (s'&Hs'&_&?).
      cbn in Hs'. naive_solver.
    + apply get_Some. cbn. rewrite list_lookup_insert_eq by done. eauto.
    + intros k' Hk' Hne. unfold get, slot. cbn. destruct (decide (Z.to_nat (index k') = Z.to_nat i)) as [Ei|].
      * rewrite Ei, list_lookup_insert_eq, Hs by done. cbn.
        destruct (Z.eqb_spec (sl_generation s) (generation k')); [|done].
        destruct Hne. destruct k' as [j g]. cbn in *. subst k g. f_equal. lia.
      * by rewrite list_lookup_insert_ne by done.
    + intros j s' Hs'. cbn. destruct (decide (j = Z.to_nat i)) as [->|].
      * rewrite list_lookup_insert_eq by done. eexists. split; [done|]. cbn. congruence.
      * rewrite list_lookup_insert_ne by done. eauto.
Qed.

Lemma remove_spec a k :
  arena_wf a -> 0 <= index k ->
  match remove a k with
  | Some (v, a') =>
      get a k = Some v /\ arena_wf a' /\ get a' k = None /\
      (forall k', 0 <= index k' -> k' <> k -> word_ok 32 (generation k') ->
         generation k' <> (generation k + 1) mod 2 ^ 32 -> get a' k' = get a k') /\
      (forall i s, slots a !! i = Some s -> exists s', slots a' !! i = Some s' /\
         (sl_generation s' = sl_generation s \/
          (i = Z.to_nat (index k) /\ sl_generation s = generation k /\
           sl_generation s' = (sl_generation s + 1) mod 2 ^ 32)))
  | None => get a k = None
  end.
Proof.
  intros [Hnd Hlen Hfree Hgen] Hk. unfold remove, get.
  destruct (slot a k) as [s|] eqn:Es; cbn; [|done].
  destruct (sl_value s) as [v|] eqn:Ev; cbn; [|done].
  apply slot_Some in Es as [Hs Hg]. pose proof (lookup_lt_Some _ _ _ Hs) as Hlt.
  assert (0 <= (sl_generation s + 1) mod 2 ^ 32 < 2 ^ 32) as Hm by (apply Z.mod_pos_bound; lia).
  assert (word_ok 32 (sl_generation s)) as Hw by apply (Forall_lookup_1 _ _ _ _ Hgen Hs).
  split_and!; [done|..].
  - split; cbn.
    + constructor; [|done]. rewrite Hfree. intros (_&s'&Hs'&?). naive_solver.
    + by rewrite length_insert.
    + intros j. rewrite elem_of_cons, Hfree. destruct (decide (j = index k)) as [->|Hne].
      * rewrite list_lookup_insert_eq by done. naive_solver.
      * split.
        -- intros [?|(?&s'&Hs'&?)]; [done|]. split; [done|]. exists s'.
           rewrite list_lookup_insert_ne by lia. done.
        -- intros (?&s'&Hs'&?). rewrite list_lookup_insert_ne in Hs' by lia. eauto.
    + apply Forall_insert; [done|]. exact Hm.
  - unfold slot. cbn. rewrite list_lookup_insert_eq by done. cbn.
    by destruct (Z.eqb_spec ((sl_generation s + 1) mod 2 ^ 32) (generation k)).
  - intros k' Hk' Hne Hw' Hg'. unfold slot. cbn.
    destruct (decide (Z.to_nat (index k') = Z.to_nat (index k))) as [Ei|].
    + rewrite Ei, list_lookup_insert_eq, Hs by done. cbn.
      destruct (Z.eqb_spec ((sl_generation s + 1) mod 2 ^ 32) (generation k')); [congruence|].
      destruct (Z.eqb_spec (sl_generation s) (generation k')); [|done].
      destruct Hne. destruct k, k'. cbn in *. f_equal; [lia|congruence].
    + by rewrite list_lookup_insert_ne by done.
  - intros i s' Hs'. destruct (decide (i = Z.to_nat (index k))) as [->|].
    + rewrite list_lookup_insert_eq by done. eexists. split; [done|]. right. cbn. naive_solver.
    + rewrite list_lookup_insert_ne by done. eauto.
Qed.
End arena.

(** ** Sequences of operations *)

Inductive ArenaOp (T : Type) : Type := OpInsert (v : T) | OpRemove (k : Key).
Arguments OpInsert {T} v.
Arguments OpRemove {T} k.

(** An insertion into an exhausted arena ends the run. *)
Fixpoint run {T} (ops : list (ArenaOp T)) (a : Arena T) : res Empty_set (Arena T) :=
  match ops with
  | [] => Ok a
  | OpInsert v :: ops => '(_, a) ← arena_insert a v; run ops a
  | OpRemove k :: ops => run ops (match remove a k with Some (_, a) => a | None => a end)
  end.

Definition op_key_ok {T} (op : ArenaOp T) : Prop :=
  match op with OpRemove k => key_ok k | _ => True end.

(** After [n] removals a slot's generation is its old one plus at most [n]. *)
Lemma run_generation {T} (ops : list (ArenaOp T)) a a' i s :
  arena_wf a -> Forall op_key_ok ops -> run ops a = Ok a' -> slots a !! i = Some s ->
  arena_wf a' /\ exists s' n, slots a' !! i = Some s' /\ 0 <= n <= Z.of_nat (length ops) /\
    sl_generation s' = (sl_generation s + n) mod 2 ^ 32.
Proof.
  revert a s. induction ops as [|op ops IH]; intros a s Hwf Hops Hrun Hs.
  - injection Hrun as <-. split; [done|]. exists s, 0. split_and!; [done|lia|cbn; lia|].
    rewrite Z.add_0_r, Z.mod_small; [done|]. exact (Forall_lookup_1 _ _ _ _ (aw_gen _ Hwf) Hs).
  - rewrite Forall_cons in Hops. destruct Hops as [Hop Hops].
    assert (forall a1, arena_wf a1 -> run ops a1 = Ok a' ->
      (exists s1 d, slots a1 !! i = Some s1 /\ (d = 0 \/ d = 1) /\
         sl_generation s1 = (sl_generation s + d) mod 2 ^ 32) ->
      arena_wf a' /\ exists s' n, slots a' !! i = Some s' /\ 0 <= n <= Z.of_nat (length (op :: ops)) /\
        sl_generation s' = (sl_generation s + n) mod 2 ^ 32) as Hstep.
    { intros a1 Hwf1 Hr1 (s1&d&Hs1&Hd&Hg1). destruct (IH a1 s1 Hwf1 Hops Hr1 Hs1) as (?&s'&n&Hs'&Hn&Hg).
      split; [done|]. exists s', (d + n). split_and!; [done|lia|cbn [length]; lia|].
      rewrite Hg, Hg1, Zplus_mod_idemp_l. f_equal. lia. }
    assert (sl_generation s = (sl_generation s + 0) mod 2 ^ 32) as E0.
    { rewrite Z.add_0_r, Z.mod_small; [done|]. exact (Forall_lookup_1 _ _ _ _ (aw_gen _ Hwf) Hs). }
    destruct op as [v|k]; cbn [run] in Hrun.
    + unfold arena_insert in Hrun. pose proof (insert_from_spec (E:=Empty_set) a (fun _ => v) Hwf) as Hi.
      destruct (insert_from _ _) as [[k a1]| |]; [|done..]. destruct Hi as (Hwf1&_&_&_&_&Hg).
      apply (Hstep a1 Hwf1 Hrun). destruct (Hg i s Hs) as (s1&Hs1&E1). exists s1, 0. rewrite E1. auto.
    + pose proof (remove_spec a k Hwf ltac:(destruct Hop as [[? ?] _]; done)) as Hr.
      destruct (remove a k) as [[v a1]|].
      * destruct Hr as (_&Hwf1&_&_&Hg). apply (Hstep a1 Hwf1 Hrun).
        destruct (Hg i s Hs) as (s1&Hs1&[E1|(_&_&E1)]); [exists s1, 0|exists s1, 1]; rewrite E1; auto.
      * apply (Hstep a Hwf Hrun). exists s, 0. auto.
Qed.

(** C27. A key is never aliased: once its value is removed, the key resolves to
    nothing, however many values are inserted and removed afterwards, as long
    as the operations are fewer than the 2{^32} - 1 it takes one slot's
    generation to come around. *)
Theorem stale_key_resolves_to_nothing {T} (a : Arena T) k v a' ops a'' :
  arena_wf a -> key_ok k -> remove a k = Some (v, a') -> Forall op_key_ok ops ->
  Z.of_nat (length ops) < 2 ^ 32 - 1 -> run ops a' = Ok a'' ->
  get a k = Some v /\ get a'' k = None.
Proof.
  intros Hwf [Hi Hg] Hr Hops Hlen Hrun.
  pose proof (remove_spec a k Hwf ltac:(destruct Hi; done)) as Hs. rewrite Hr in Hs.
  destruct Hs as (Hget&Hwf'&_&_&Hgen). split; [done|].
  apply get_Some in Hget as (s&Hs&Hsg&_). destruct (Hgen _ s Hs) as (s'&Hs'&E).
  assert (sl_generation s' = (generation k + 1) mod 2 ^ 32) as Es'.
  { unfold remove in Hr. inv_res. cbn in Hs'. apply slot_Some in H as [H1 H2].
    rewrite list_lookup_insert_eq in Hs' by (by eapply lookup_lt_Some). injection Hs' as <-. cbn. congruence. }
  destruct (run_generation ops a' a'' _ s' Hwf' Hops Hrun Hs') as (_&s''&n&Hs''&Hn&En).
  destruct (get a'' k) as [w|] eqn:Eg; [|done].
  apply get_Some in Eg as (s3&Hs3&E3&_). assert (s3 = s'') as -> by congruence.
  rewrite En, Es', Zplus_mod_idemp_l in E3. unfold word_ok in Hg.
  assert (generation k + 1 + n = 2 ^ 32 * ((generation k + 1 + n) / 2 ^ 32) + generation k)
    by (rewrite <- E3 at 3; apply Z.div_mod; lia).
  exfalso. nia.
Qed.

Lemma lor_high_low a b : 0 <= b < 2 ^ 32 -> Z.lor (Z.shiftl a 32) b = a * 2 ^ 32 + b.
Proof.
  intros Hb. rewrite <- Z.shiftl_mul_pow2 by lia. symmetry. apply Z.add_nocarry_lor.
  apply Z.bits_inj'. intros i Hi. rewrite Z.land_spec, Z.bits_0.
  destruct (decide (i < 32)); [by rewrite Z.shiftl_spec_low|].
  rewrite (proj1 (Z.bounded_iff_bits_nonneg' 32 b ltac:(lia) ltac:(lia)) Hb i) by lia.
  apply andb_false_r.
Qed.

(** A key survives its packing into the kernel's 64-bit token, which
    itself fits 64 bits. *)
Theorem key_u64_roundtrip k :
  key_ok k -> word_ok 64 (to_u64 k) /\ from_u64 (to_u64 k) = k.
Proof.
  unfold key_ok, word_ok, to_u64, from_u64. intros [Hi Hg]. rewrite lor_high_low by done.
  change (2 ^ 32 - 1) with (Z.ones 32). rewrite !Z.land_ones, Z.shiftr_div_pow2 by lia.
  split; [lia|]. destruct k as [i g]. cbn in *. f_equal.
  - rewrite Z.div_add_l, (Z.div_small g), Z.add_0_r by lia. by apply Z.mod_small.
  - rewrite Z.add_comm, Z.mod_add by lia. by apply Z.mod_small.
Qed.

Lemma key_u64_roundtrip_witness : from_u64 (to_u64 {| index := 7; generation := 4294967295 |}) =
  {| index := 7; generation := 4294967295 |}.
Proof. apply (key_u64_roundtrip {| index := 7; generation := 4294967295 |}). split; split; cbn; lia. Defined.

Definition ex_arena : Arena nat :=
  {| slots := [{| sl_generation := 3; sl_value := Some 10%nat |}]; free := [] |}.

Lemma stale_key_resolves_to_nothing_witness :
  get ex_arena {| index := 0; generation := 3 |} = Some 10%nat /\
  get {| slots := [{| sl_generation := 4; sl_value := Some 20%nat |}]; free := [] |}
    {| index := 0; generation := 3 |} = None.
Proof.
  eapply (stale_key_resolves_to_nothing ex_arena {| index := 0; generation := 3 |} 10%nat _ [OpInsert 20%nat]).
  - split; cbn; [constructor|lia| |by repeat constructor].
    intros i. split; [by intros ?%not_elem_of_nil|].
    intros (_&s&Hs&Hv). destruct (Z.to_nat i) as [|n]; cbn in Hs; [by injection Hs as <-|done].
  - by split.
  - reflexivity.
  - by repeat constructor.
  - done.
  - reflexivity.
Defined.

(** ** Handlers taken out for the duration of a call *)

(** [trait HandlerSlot]: a value with a handler slot. *)
Class HandlerSlot (T H : Type) := {
  handler_slot : T -> option H;
  set_slot : option H -> T -> T;
  slot_set_slot h t : handler_slot (set_slot h t) = h;
  set_slot_slot h h' t : set_slot h (set_slot h' t) = set_slot h t;
  set_slot_same t : set_slot (handler_slot t) t = t;
}.

Section handlers.
Context {T H : Type} `{HandlerSlot T H}.
Implicit Types a : Arena T.

(** [take_handler]: the handler, and the arena with its slot empty. *)
Definition take_handler (a : Arena T) (key : Key) : option H * Arena T :=
  match get a key with
  | Some t => (handler_slot t, get_mut a key (set_slot None))
  | None => (None, a)
  end.

(** [restore_handler] *)
Definition restore_handler (a : Arena T) (key : Key) (handler : H) : Arena T :=
  get_mut a key (set_slot (Some handler)).

Definition handlers (a : Arena T) : list (Key * H) :=
  omap (fun p => (fun h => (p.1, h)) <$> handler_slot p.2) (iter a).

Lemma get_mut_same a key (f : T -> T) :
  (forall t, get a key = Some t -> f t = t) -> get_mut a key f = a.
Proof.
  intros Hf. unfold get_mut. destruct (slot a key) as [s|] eqn:Es; [|done].
  assert (f <$> sl_value s = sl_value s) as ->.
  { destruct (sl_value s) as [t|] eqn:Ev; [|done]. cbn. f_equal. apply Hf. unfold get. by rewrite Es. }
  apply slot_Some in Es as [Hs _]. destruct s. cbn. rewrite list_insert_id by done. by destruct a.
Qed.

Lemma get_mut_get_mut a key (f g : T -> T) : get_mut (get_mut a key f) key g = get_mut a key (g ∘ f).
Proof.
  unfold get_mut at 2 3. destruct (slot a key) as [s|] eqn:Es; [|by unfold get_mut; rewrite Es].
  apply slot_Some in Es as [Hs Hg]. pose proof (lookup_lt_Some _ _ _ Hs).
  unfold get_mut, slot. cbn. rewrite list_lookup_insert_eq by done. cbn. rewrite Hg, Z.eqb_refl.
  cbn. rewrite list_insert_insert_eq. by rewrite option_fmap_compose.
Qed.

(** Taking a handler out and putting it back changes nothing. *)
Lemma restore_take a key h a' : take_handler a key = (Some h, a') -> restore_handler a' key h = a.
Proof.
  unfold take_handler, restore_handler. destruct (get a key) as [t|] eqn:Eg; [|done].
  intros [= Hh <-]. rewrite get_mut_get_mut. apply get_mut_same. intros t'.
  rewrite Eg. intros [= <-]. cbn. rewrite set_slot_slot, <- Hh. apply set_slot_same.
Qed.
End handlers.

(** The arena as a finite map from keys: what each operation does to every
    lookup, and what an iteration visits. *)

Section arena_map.
Context {T : Type}.
Implicit Types (a : Arena T) (k : Key).

Lemma key_eq k k' : Z.to_nat (index k) = Z.to_nat (index k') -> 0 <= index k -> 0 <= index k' ->
  generation k = generation k' -> k = k'.
Proof. intros. destruct k, k'. cbn in *. f_equal; lia. Qed.

Lemma get_insert_from {E} a make k a' :
  arena_wf a -> insert_from (E:=E) a make = Ok (k, a') ->
  arena_wf a' /\ key_ok k /\ get a k = None /\
  forall k', 0 <= index k' -> get a' k' = if decide (k' = k) then Some (make k) else get a k'.
Proof.
  intros Hwf E'. pose proof (insert_from_spec (E:=E) a make Hwf) as H. rewrite E' in H.
  destruct H as (Hwf'&Hk&Hn&Hs&Ho&_). split_and!; [done..|]. intros k' Hk'. case_decide; [by subst|auto].
Qed.

Lemma get_remove a k v a' :
  arena_wf a -> 0 <= index k -> remove a k = Some (v, a') ->
  arena_wf a' /\ get a k = Some v /\
  forall k', 0 <= index k' -> get a' k' = if decide (k' = k) then None else get a k'.
Proof.
  intros Hwf Hk E. pose proof (remove_spec a k Hwf Hk) as H. rewrite E in H.
  destruct H as (Hv&Hwf'&Hn&_). split_and!; [done..|]. intros k' Hk'. case_decide as Hd; [by subst|].
  unfold remove in E. apply bind_Some in E as (s&Hs&E). apply bind_Some in E as (v'&Hv'&E). injection E as <- <-.
  apply slot_Some in Hs as [Hs Hg]. unfold get, slot. cbn [slots].
  destruct (decide (Z.to_nat (index k') = Z.to_nat (index k))) as [Ei|]; [|by rewrite list_lookup_insert_ne by done].
  rewrite Ei, list_lookup_insert_eq, Hs by (by eapply lookup_lt_Some). cbn.
  destruct (Z.eqb_spec (sl_generation s) (generation k')) as [E'|]; [exfalso; apply Hd, key_eq; congruence|].
  by destruct (_ =? _).
Qed.

Lemma remove_None a k : remove a k = None <-> get a k = None.
Proof.
  unfold remove, get. destruct (slot a k) as [s|]; cbn; [|done]. by destruct (sl_value s).
Qed.

Lemma get_get_mut a k f k' :
  0 <= index k -> 0 <= index k' -> get (get_mut a k f) k' = if decide (k' = k) then f <$> get a k else get a k'.
Proof.
  intros Hk Hk'. unfold get at 1, get_mut. destruct (slot a k) as [s|] eqn:Es.
  - apply slot_Some in Es as [Hs Hg]. unfold slot at 1. cbn [slots].
    destruct (decide (Z.to_nat (index k') = Z.to_nat (index k))) as [Ei|Hne].
    + rewrite Ei, list_lookup_insert_eq by (by eapply lookup_lt_Some). cbn.
      case_decide as Hd.
      * subst. rewrite Hg, Z.eqb_refl. cbn. unfold get, slot. rewrite Hs. cbn. by rewrite Hg, Z.eqb_refl.
      * unfold get, slot. rewrite Ei, Hs. cbn. destruct (Z.eqb_spec (sl_generation s) (generation k')); [|done].
        exfalso. apply Hd, key_eq; congruence.
    + rewrite list_lookup_insert_ne by done. rewrite decide_False by (by intros ->). done.
  - case_decide as Hd; [|done]. subst. unfold get. by rewrite Es.
Qed.

Lemma get_mut_wf a k f : arena_wf a -> arena_wf (get_mut a k f).
Proof.
  intros [Hnd Hlen Hfree Hgen]. unfold get_mut. destruct (slot a k) as [s|] eqn:Es; [|done].
  apply slot_Some in Es as [Hs Hg]. pose proof (lookup_lt_Some _ _ _ Hs). split; cbn [slots free]; [done| | |].
  - by rewrite length_insert.
  - intros i. rewrite Hfree. split; intros (Hi&s'&Hs'&Hv); (split; [done|]).
    + destruct (decide (Z.to_nat i = Z.to_nat (index k))) as [E|].
      * rewrite E, list_lookup_insert_eq by done. rewrite E, Hs in Hs'. injection Hs' as <-. eexists. split; [done|].
        cbn. by rewrite Hv.
      * exists s'. by rewrite list_lookup_insert_ne.
    + destruct (decide (Z.to_nat i = Z.to_nat (index k))) as [E|].
      * rewrite E, list_lookup_insert_eq in Hs' by done. injection Hs' as <-. cbn in Hv. exists s. rewrite E.
        split; [done|]. by destruct (sl_value s).
      * rewrite list_lookup_insert_ne in Hs' by done. eauto.
  - apply Forall_insert; [done|]. cbn. by eapply Forall_lookup_1 in Hgen.
Qed.

Lemma elem_of_iter_from i (l : list (Slot T)) k (v : T) :
  0 <= i -> ((k, v) ∈ iter_from i l <->
  exists s, i <= index k /\ l !! Z.to_nat (index k - i) = Some s /\ sl_generation s = generation k /\ sl_value s = Some v).
Proof.
  revert i. induction l as [|s l IH]; intros i Hi.
  { cbn. split; [by intros ?%not_elem_of_nil|]. by intros (s&_&?&_). }
  assert (Htail : (k, v) ∈ iter_from (i + 1) l <->
    exists s', i < index k /\ (s :: l) !! Z.to_nat (index k - i) = Some s' /\ sl_generation s' = generation k /\ sl_value s' = Some v).
  { rewrite IH by lia. split; intros (s'&Hle&Hs'&Hr); exists s'; (split; [lia|]).
    - replace (Z.to_nat (index k - i)) with (S (Z.to_nat (index k - (i + 1)))) by lia. by split.
    - replace (Z.to_nat (index k - i)) with (S (Z.to_nat (index k - (i + 1)))) in Hs' by lia. by split. }
  cbn [iter_from]. destruct (sl_value s) as [v'|] eqn:Ev.
  - rewrite elem_of_cons, Htail. split.
    + intros [[= -> ->]|(s'&Hlt&Hr)]; [|exists s'; split; [lia|done]].
      exists s. cbn. replace (Z.to_nat (i - i)) with 0%nat by lia. by split_and!.
    + intros (s'&Hle&Hs'&Hg&Hv). destruct (decide (index k = i)) as [E|]; [left|right; exists s'; split; [lia|done]].
      rewrite E, Z.sub_diag in Hs'. injection Hs' as <-. rewrite Hv in Ev. injection Ev as <-.
      destruct k. cbn in *. congruence.
  - rewrite Htail. split; intros (s'&Hle&Hr); exists s'; (split; [|done]); [lia|].
    destruct (decide (index k = i)) as [E|]; [|lia]. exfalso. rewrite E, Z.sub_diag in Hr.
    destruct Hr as ([= <-]&_&Hv). congruence.
Qed.

Lemma elem_of_iter a k (v : T) : (k, v) ∈ iter a <-> 0 <= index k /\ get a k = Some v.
Proof.
  unfold iter. rewrite elem_of_iter_from by lia. setoid_rewrite Z.sub_0_r. rewrite get_Some. naive_solver.
Qed.

Lemma iter_NoDup a : NoDup (iter a).*1.
Proof.
  unfold iter. generalize 0 as i. induction (slots a) as [|s l IH]; intros i; cbn [iter_from]; [constructor|].
  destruct (sl_value s) as [v|]; [|apply IH]. cbn [fmap list_fmap fst]. constructor; [|apply IH].
  intros Hin. apply list_elem_of_fmap in Hin as ([k v']&Ek&Hin). cbn in Ek. subst k.
  assert (Hlo : forall i (l : list (Slot T)) (k : Key) (v : T), (k, v) ∈ iter_from i l -> i <= index k).
  { clear. intros i l. revert i. induction l as [|s l IH]; intros i k v; cbn [iter_from]; [by intros ?%not_elem_of_nil|].
    destruct (sl_value s); [rewrite elem_of_cons; intros [[= -> _]|H]; [cbn; lia|]|intros H]; apply IH in H; lia. }
  apply Hlo in Hin. cbn in Hin. lia.
Qed.

Lemma NoDup_iter a : NoDup (iter a).
Proof. eapply (NoDup_fmap_1 fst), iter_NoDup. Qed.

(** The live values after an insertion and a removal. *)
Lemma iter_insert_from {E} a make k a' :
  arena_wf a -> insert_from (E:=E) a make = Ok (k, a') -> iter a' ≡ₚ (k, make k) :: iter a.
Proof.
  intros Hwf E0. destruct (get_insert_from _ _ _ _ Hwf E0) as (_&[Hk _]&Hfresh&Hg).
  apply NoDup_Permutation; [apply NoDup_iter|constructor; [|apply NoDup_iter]|].
  - rewrite elem_of_iter. intros [_ Hget]. congruence.
  - intros [k' v]. rewrite elem_of_cons, !elem_of_iter. destruct Hk as [Hk _]. split.
    + intros [Hk' Hv]. rewrite Hg in Hv by done. case_decide; [left; congruence|by right].
    + intros [[= -> ->]|[Hk' Hv]]; (split; [done|]); rewrite Hg by done; [by rewrite decide_True|].
      case_decide; [congruence|done].
Qed.

Lemma iter_remove a k v a' : arena_wf a -> 0 <= index k -> remove a k = Some (v, a') -> iter a ≡ₚ (k, v) :: iter a'.
Proof.
  intros Hwf Hk E. destruct (get_remove _ _ _ _ Hwf Hk E) as (_&Hget&Hg).
  apply NoDup_Permutation; [apply NoDup_iter|constructor; [|apply NoDup_iter]|].
  - rewrite elem_of_iter. intros [_ Hget']. rewrite Hg, decide_True in Hget' by done. done.
  - intros [k' v']. rewrite elem_of_cons, !elem_of_iter. split.
    + intros [Hk' Hv]. destruct (decide (k' = k)) as [->|]; [left; congruence|right]. split; [done|]. by rewrite Hg, decide_False.
    + intros [[= -> ->]|[Hk' Hv]]; [by split|]. split; [done|]. rewrite Hg in Hv by done. by case_decide.
Qed.

Lemma get_key_ok a k v : arena_wf a -> 0 <= index k -> get a k = Some v -> key_ok k.
Proof.
  intros [_ Hlen _ Hgen] Hk (s&Hs&Hg&_)%get_Some. pose proof (lookup_lt_Some _ _ _ Hs). split; [split; lia|].
  rewrite <- Hg. exact (Forall_lookup_1 _ _ _ _ Hgen Hs).
Qed.

(** ** The number of slots *)

Lemma length_iter_from i (l : list (Slot T)) : Forall (fun s => is_Some (sl_value s)) l -> length (iter_from i l) = length l.
Proof. intros Hl. revert i. induction Hl as [|s l [v Hv] _ IH]; intros i; cbn; [done|]. rewrite Hv. cbn. by rewrite IH. Qed.

Lemma length_iter_slots a : (length (iter a) <= length (slots a))%nat.
Proof.
  unfold iter. generalize 0. induction (slots a) as [|s l IH]; intros i; cbn; [done|]. destruct (sl_value s); cbn; specialize (IH (i + 1)); lia.
Qed.

(** An arena that holds fewer than [n] values in at most [n] slots takes one more in them. *)
Lemma insert_bounded {E} a v n :
  arena_wf a -> (length (slots a) <= n)%nat -> (length (iter a) < n)%nat -> Z.of_nat n < 2 ^ 32 ->
  exists k a', arena_insert (E:=E) a v = Ok (k, a') /\ (length (slots a') <= n)%nat.
Proof.
  intros Hwf Hlen Hiter Hn. unfold arena_insert. pose proof (insert_from_spec (E:=E) a (fun _ => v) Hwf) as Hs.
  destruct (insert_from a _) as [[k a']|e|] eqn:Ei; [|done|lia]. exists k, a'. split; [done|]. clear Hs.
  unfold insert_from in Ei. destruct (free a) as [|i rest] eqn:Ef.
  - assert (Hfull : length (iter a) = length (slots a)).
    { apply length_iter_from, Forall_lookup. intros i s Hs. destruct (sl_value s) eqn:Ev; [done|exfalso].
      assert (Hin : Z.of_nat i ∈ free a) by (apply (aw_free _ Hwf); split; [lia|]; exists s; by rewrite Nat2Z.id).
      rewrite Ef in Hin. by apply not_elem_of_nil in Hin. }
    destruct (_ <? _); [|done]. injection Ei as <- <-. cbn. rewrite length_app. cbn. lia.
  - destruct (idx _ _) as [s|?|]; [|done..]. cbn in Ei. unfold set_at in Ei. case_decide; [|done]. injection Ei as <- <-.
    cbn. by rewrite length_insert.
Qed.
Lemma remove_slots a k v a' : remove a k = Some (v, a') -> length (slots a') = length (slots a).
Proof.
  unfold remove. intros (s&_&(v'&_&[= _ <-])%bind_Some)%bind_Some. cbn. by rewrite length_insert.
Qed.
Lemma get_mut_slots a k f : length (slots (get_mut a k f)) = length (slots a).
Proof. unfold get_mut. destruct (slot a k); [|done]. cbn. by rewrite length_insert. Qed.

Lemma contains_iff a k : contains a k = true <-> is_Some (get a k).
Proof. unfold contains. by rewrite bool_decide_eq_true. Qed.
End arena_map.

Section handler_map.
Context {T H : Type} `{HandlerSlot T H}.
Implicit Types (a : Arena T) (k : Key).

Lemma take_handler_Some a k h a' :
  take_handler a k = (Some h, a') <-> exists t, get a k = Some t /\ handler_slot t = Some h /\ a' = get_mut a k (set_slot None).
Proof.
  unfold take_handler. destruct (get a k) as [t|].
  - split; [intros [= Hh <-]; eauto|]. intros (t'&[= <-]&->&->). done.
  - split; [done|]. by intros (t&?&_).
Qed.

Lemma elem_of_handlers a k h : (k, h) ∈ handlers a <-> 0 <= index k /\ exists t, get a k = Some t /\ handler_slot t = Some h.
Proof.
  unfold handlers. rewrite list_elem_of_omap. split.
  - intros ([k' t]&Hin&E). cbn in E. apply fmap_Some in E as (h'&Hh&[= <- <-]).
    apply elem_of_iter in Hin as [? ?]. eauto.
  - intros (Hk&t&Hg&Hh). exists (k, t). split; [by apply elem_of_iter|]. cbn. by rewrite Hh.
Qed.
End handler_map.
