(* ===== verification/StreamBuffer.v ===== *)
(** The fixed-capacity byte FIFO of a proxied stream ([src/net/stream_buffer.rs]):
    the lazily allocated store with its two cursors, and its refinement of a
    bounded queue of bytes. *)

From S2P Require Import Prelude.

(** Live bytes are [storage[consumed..filled]]. *)
Record StreamBuffer : Type := {
  storage : option bytes;
  capacity : nat;
  filled : nat;
  consumed : nat;
}.

Inductive Overflow : Type := overflow.

Definition with_capacity (cap : nat) : StreamBuffer :=
  {| storage := None; capacity := cap; filled := 0; consumed := 0 |}.

(** [pending] *)
Definition pending {E} (b : StreamBuffer) : res E bytes :=
  match storage b with
  | None => Ok []
  | Some s => range s (consumed b) (filled b)
  end.

Definition sb_len (b : StreamBuffer) : nat := filled b - consumed b.
Definition sb_is_empty (b : StreamBuffer) : bool := filled b =? consumed b.

(** [storage_mut]: the store, allocated on first use. *)
Definition storage_mut (b : StreamBuffer) : bytes :=
  match storage b with Some s => s | None => replicate (capacity b) 0%Z end.

(** [copy_within(from..to, 0)] panics on a range out of bounds. *)
Definition compact {E} (b : StreamBuffer) : res E StreamBuffer :=
  storage' ← match storage b with
             | None => Ok None
             | Some s => live ← range s (consumed b) (filled b);
                         Ok (Some (live ++ drop (length live) s))
             end;
  Ok {| storage := storage'; capacity := capacity b;
        filled := filled b - consumed b; consumed := 0 |}.

(** [push] *)
Definition push {E} (b : StreamBuffer) (data : bytes) : res E StreamBuffer :=
  match data with
  | [] => Ok b
  | _ =>
      b ← (if decide (capacity b < filled b + length data) then compact b else Ok b);
      s ← copy_at (storage_mut b) (filled b) (filled b + length data) data;
      Ok {| storage := Some s; capacity := capacity b;
            filled := filled b + length data; consumed := consumed b |}
  end.

(** [append] *)
Definition append (b : StreamBuffer) (data : bytes) : res Overflow StreamBuffer :=
  if decide (capacity b < sb_len b + length data) then Err overflow else push b data.

(** [free_tail_mut]: the buffer with its store allocated, and the free tail. *)
Definition free_tail_mut {E} (b : StreamBuffer) : res E (StreamBuffer * bytes) :=
  b ← (if decide (filled b = capacity b /\ 0 < consumed b) then compact b else Ok b);
  tail ← range_from (storage_mut b) (filled b);
  Ok ({| storage := Some (storage_mut b); capacity := capacity b;
         filled := filled b; consumed := consumed b |}, tail).

(** The caller's writes into that tail. *)
Definition write_tail (b : StreamBuffer) (tail : bytes) : StreamBuffer :=
  {| storage := (fun s => take (filled b) s ++ tail) <$> storage b;
     capacity := capacity b; filled := filled b; consumed := consumed b |}.

(** [commit] and [consume]; their assertions are compiled out of a release build. *)
Definition commit (b : StreamBuffer) (n : nat) : StreamBuffer :=
  {| storage := storage b; capacity := capacity b; filled := filled b + n; consumed := consumed b |}.

Definition consume (b : StreamBuffer) (n : nat) : StreamBuffer :=
  let consumed' := consumed b + n in
  if decide (filled b <= consumed')
  then {| storage := storage b; capacity := capacity b; filled := 0; consumed := 0 |}
  else {| storage := storage b; capacity := capacity b; filled := filled b; consumed := consumed' |}.

Definition clear (b : StreamBuffer) : StreamBuffer :=
  {| storage := storage b; capacity := capacity b; filled := 0; consumed := 0 |}.

(** [io::Write::write]: a short write when the data does not fit. *)
Definition sb_write {E} (b : StreamBuffer) (data : bytes) : res E (nat * StreamBuffer) :=
  let n := Nat.min (length data) (capacity b - sb_len b) in
  b ← push b (take n data);
  Ok (n, b).

(** ** The queue it refines *)

Record sb_wf (b : StreamBuffer) : Prop := {
  sb_consumed : consumed b <= filled b;
  sb_filled : filled b <= capacity b;
  sb_storage : forall s, storage b = Some s -> length s = capacity b;
  sb_lazy : storage b = None -> filled b = 0;
}.

(** The bytes waiting, oldest first. *)
Definition queue (b : StreamBuffer) : bytes :=
  take (sb_len b) (drop (consumed b) (storage_mut b)).

Lemma with_capacity_wf cap : sb_wf (with_capacity cap) /\ queue (with_capacity cap) = [].
Proof. split; [split; cbn; done || lia|done]. Qed.

Section refinement.
Context (b : StreamBuffer).
Hypothesis Hwf : sb_wf b.

Lemma length_storage_mut : length (storage_mut b) = capacity b.
Proof using Hwf.
  unfold storage_mut. destruct (storage b) eqn:E; [by apply Hwf|apply length_replicate].
Qed.

Lemma length_queue : length (queue b) = sb_len b.
Proof using Hwf.
  destruct Hwf. unfold queue, sb_len. rewrite length_take, length_drop, length_storage_mut. lia.
Qed.

Lemma pending_queue {E} : pending (E:=E) b = Ok (queue b).
Proof using Hwf.
  pose proof length_storage_mut as Hl. destruct Hwf as [Hc Hf _ Hz].
  unfold pending, queue, storage_mut, sb_len in *. destruct (storage b) as [s|].
  - by rewrite range_ok by lia.
  - rewrite Hz by done. done.
Qed.

Lemma compact_spec {E} : exists b', compact (E:=E) b = Ok b' /\ sb_wf b' /\ queue b' = queue b /\
  capacity b' = capacity b /\ consumed b' = 0 /\ filled b' = sb_len b.
Proof using Hwf.
  pose proof length_storage_mut as Hl. pose proof length_queue as Hq.
  destruct Hwf as [Hc Hf _ Hz]. unfold queue, compact, storage_mut, sb_len in *.
  destruct (storage b) as [s|] eqn:Es.
  - rewrite range_ok, bind_ret, bind_ret by lia. eexists. split; [done|].
    unfold queue, storage_mut, sb_len. cbn. rewrite drop_0, Nat.sub_0_r, take_app_length' by (by rewrite Hq).
    split_and!; try done. split; cbn; [lia|lia| |done]. intros s' [= <-].
    rewrite length_app, Hq, length_drop. lia.
  - rewrite bind_ret. eexists. split; [done|]. rewrite (Hz eq_refl) in *. cbn.
    unfold queue, sb_len, storage_mut. cbn. split_and!; try done.
Qed.
End refinement.

Lemma push_spec {E} b data :
  sb_wf b -> sb_len b + length data <= capacity b ->
  exists b', push (E:=E) b data = Ok b' /\ sb_wf b' /\ queue b' = queue b ++ data /\
             capacity b' = capacity b.
Proof.
  intros Hwf Hlen. unfold push. destruct data as [|x data]; [exists b; by rewrite app_nil_r|].
  cbv iota. remember (x :: data) as d eqn:Ed. clear Ed.
  assert (exists b1, (if decide (capacity b < filled b + length d) then compact b else Ok b) = Ok (E:=E) b1 /\
    sb_wf b1 /\ queue b1 = queue b /\ capacity b1 = capacity b /\ filled b1 + length d <= capacity b)
    as (b1&->&Hwf1&Hq1&Hc1&Hf1).
  { case_decide.
    - destruct (compact_spec b Hwf (E:=E)) as (b'&->&?&?&?&?&?). exists b'. split_and!; try done. lia.
    - exists b. split_and!; try done. lia. }
  rewrite bind_ret. pose proof (length_storage_mut b1 Hwf1) as Hl.
  rewrite copy_at_ok, bind_ret by lia. destruct Hwf1 as [H1 H2 H3 H4].
  eexists. split; [done|]. rewrite <- Hq1. unfold queue, storage_mut, sb_len. cbn. fold (storage_mut b1).
  split_and!; [| |done].
  - split; cbn; [lia|lia| |done]. intros s [= <-]. len.
  - rewrite drop_app_le by len. rewrite take_app.
    rewrite take_ge by len. f_equal.
    + apply skipn_firstn_comm.
    + len. replace (_ - _) with (length d) by lia. by rewrite take_app_length.
Qed.

Lemma append_spec b data : sb_wf b ->
  match append b data with
  | Ok b' => sb_wf b' /\ queue b' = queue b ++ data /\ capacity b' = capacity b /\ length (queue b) + length data <= capacity b
  | Err _ => capacity b < length (queue b) + length data
  | Panic => False
  end.
Proof.
  intros Hwf. rewrite (length_queue b Hwf). unfold append. case_decide; [done|].
  destruct (push_spec (E:=Overflow) b data Hwf) as (b'&->&?&?&?); [lia|]. split_and!; [done..|lia].
Qed.

Lemma consume_spec b n : sb_wf b -> n <= length (queue b) ->
  sb_wf (consume b n) /\ queue (consume b n) = drop n (queue b) /\ capacity (consume b n) = capacity b.
Proof.
  intros Hwf. rewrite (length_queue b Hwf). intros Hn. pose proof (length_storage_mut b Hwf) as Hl.
  destruct Hwf as [H1 H2 H3 H4]. unfold consume, queue, storage_mut, sb_len in *. split_and!.
  - case_decide; split; cbn; try done || lia.
  - case_decide; cbn.
    + symmetry. apply nil_length_inv. len.
    + rewrite skipn_firstn_comm, drop_drop. f_equal. lia.
  - by case_decide.
Qed.

(** The free tail, and a write of [k] bytes into it. *)
Lemma free_tail_spec {E} b : sb_wf b -> exists b' tail, free_tail_mut (E:=E) b = Ok (b', tail) /\
  queue b' = queue b /\ sb_wf b' /\ capacity b' = capacity b /\ (tail = [] <-> length (queue b) = capacity b) /\
  length tail <= capacity b - length (queue b) /\
  forall tail' k, length tail' = length tail -> k <= length tail ->
    sb_wf (commit (write_tail b' tail') k) /\ queue (commit (write_tail b' tail') k) = queue b ++ take k tail' /\
    capacity (commit (write_tail b' tail') k) = capacity b.
Proof.
  intros Hwf. rewrite (length_queue b Hwf). unfold free_tail_mut.
  assert (exists b1, (if decide (filled b = capacity b /\ 0 < consumed b) then compact b else Ok b)
    = Ok (E:=E) b1 /\ sb_wf b1 /\ queue b1 = queue b /\ capacity b1 = capacity b /\
    sb_len b1 = sb_len b /\ (filled b1 = capacity b1 <-> sb_len b = capacity b)) as (b1&->&Hwf1&Hq&Hc&Hs&Hf).
  { case_decide.
    - destruct (compact_spec b Hwf (E:=E)) as (b'&->&?&?&?&?&?). exists b'. unfold sb_len in *.
      split_and!; try done; lia.
    - exists b. destruct Hwf. unfold sb_len. split_and!; try done; lia. }
  rewrite bind_ret. pose proof (length_storage_mut b1 Hwf1) as Hl1. destruct Hwf1 as [H1 H2 H3 H4].
  unfold range_from, get_from. rewrite decide_True by lia. cbn [expect]. rewrite bind_ret.
  do 2 eexists. split; [done|]. split; [exact Hq|]. split; [split; cbn; [lia|lia| |done]; by intros s [= <-]|].
  split; [exact Hc|]. rewrite length_drop. split; [rewrite <- length_zero_iff_nil, length_drop; lia|].
  split; [unfold sb_len in *; lia|]. intros tail' k Ht Hk. unfold write_tail, commit. cbn.
  rewrite <- Hq. unfold queue, storage_mut, sb_len. cbn. fold (storage_mut b1). split_and!; [| |done].
  - split; cbn; [lia|lia| |done]. intros s [= <-]. len.
  - rewrite drop_app_le by len. rewrite take_app. rewrite take_ge by len. f_equal.
    + apply skipn_firstn_comm.
    + f_equal. len.
Qed.

(** C26. [StreamBuffer] refines a queue of at most [capacity] bytes.  From a
    well-formed buffer no operation panics, each keeps it well-formed, and:
    [append] adds all of the data at the end, or reports overflow exactly when
    it does not fit; [write] adds the longest prefix that fits and says how
    much; [consume] drops from the front; the free tail is empty exactly when
    the buffer is full of live bytes, and committing bytes written into it
    appends them. *)
Theorem stream_buffer_is_bounded_queue b data n :
  sb_wf b -> n <= sb_len b ->
  pending (E:=Overflow) b = Ok (queue b) /\ length (queue b) <= capacity b /\
  (match append b data with
   | Ok b' => sb_wf b' /\ queue b' = queue b ++ data /\ length (queue b) + length data <= capacity b
   | Err _ => capacity b < length (queue b) + length data
   | Panic => False
   end) /\
  (exists k b', sb_write (E:=Overflow) b data = Ok (k, b') /\ sb_wf b' /\
     queue b' = queue b ++ take k data /\ k = Nat.min (length data) (capacity b - length (queue b))) /\
  (sb_wf (consume b n) /\ queue (consume b n) = drop n (queue b)) /\
  (exists b' tail, free_tail_mut (E:=Overflow) b = Ok (b', tail) /\ queue b' = queue b /\
     (tail = [] <-> length (queue b) = capacity b) /\
     forall tail' k, length tail' = length tail -> k <= length tail ->
       sb_wf (commit (write_tail b' tail') k) /\
       queue (commit (write_tail b' tail') k) = queue b ++ take k tail').
Proof.
  intros Hwf Hn. pose proof (append_spec b data Hwf) as Happ. pose proof (consume_spec b n Hwf) as Hcons.
  rewrite (length_queue b Hwf) in *. destruct (free_tail_spec (E:=Overflow) b Hwf) as (b'&tail&Et&Hq&_&_&Hfull&_&Hw).
  split_and!; [by apply pending_queue|destruct Hwf; unfold sb_len; lia| | |by apply Hcons..|].
  - by destruct (append b data); [destruct Happ as (?&?&_&?)|..].
  - unfold sb_write. destruct (push_spec (E:=Overflow) b
      (take (Nat.min (length data) (capacity b - sb_len b)) data) Hwf) as (b1&->&?&?&?).
    { rewrite length_take. destruct Hwf. unfold sb_len. lia. }
    rewrite bind_ret. by do 2 eexists.
  - exists b', tail. rewrite (length_queue b Hwf) in Hfull. split_and!; [done..|]. intros tail' k Ht Hk. by destruct (Hw tail' k Ht Hk) as (?&?&_).
Qed.

Lemma stream_buffer_is_bounded_queue_witness :
  queue (consume {| storage := Some [1; 2; 3; 4]%Z; capacity := 4; filled := 4; consumed := 1 |} 2) = [4]%Z /\
  sb_wf {| storage := Some [1; 2; 3; 4]%Z; capacity := 4; filled := 4; consumed := 1 |}.
Proof.
  assert (sb_wf {| storage := Some [1; 2; 3; 4]%Z; capacity := 4; filled := 4; consumed := 1 |}) as Hwf
    by (split; cbn; [lia|lia|by intros ? [= <-]|done]).
  split; [|exact Hwf].
  apply (stream_buffer_is_bounded_queue _ [9]%Z 2 Hwf). cbn. lia.
Defined.
