(* ===== verification/Reassembly.v ===== *)
(** Reassembly of fragmented datagrams ([src/dispatch/reassembly.rs]): the
    buffer of one datagram, the slots, the list of datagrams given up on, and
    their invariants: no panic, bounded memory, expiry that terminates. *)

From S2P Require Import Prelude Addr Packet Frame LinearMap.

Local Open Scope Z_scope.

Definition SLOTS : nat := 16.
Definition DISCARDS : nat := 64.
(** Two seconds; an [Instant] is a number of nanoseconds. *)
Definition EXPIRY : Z := 2 * 10 ^ 9.

Record DatagramKey : Type := { dk_ingress : CaptureKey; dk_source : IpAddr; dk_dest : IpAddr; dk_id : Z }.
Global Instance DatagramKey_eq_dec : EqDecision DatagramKey.
Proof. solve_decision. Defined.

Inductive Loss : Type :=
  | TooLarge (end_ : nat)
  | Inconsistent
  | Malformed
  | Expired
  | Evicted.
Global Instance Loss_eq_dec : EqDecision Loss.
Proof. solve_decision. Defined.

Record Lost : Type := { lost_ingress : CaptureKey; lost_source : IpAddr; lost_dest : IpAddr; lost_loss : Loss }.
Definition lost_new (key : DatagramKey) (loss : Loss) : Lost :=
  {| lost_ingress := dk_ingress key; lost_source := dk_source key; lost_dest := dk_dest key;
     lost_loss := loss |}.

Definition BLOCKS : nat := div_ceil MAX_DATAGRAM_LEN FRAGMENT_UNIT.

Record Buffer : Type := { buf_bytes : bytes; received : list bool }.
Definition buffer_new : Buffer :=
  {| buf_bytes := replicate MAX_DATAGRAM_LEN 0; received := replicate BLOCKS false |}.

Record Reassembled : Type := { ra_first : FragmentHeader; ra_buf : Buffer; ra_len : nat }.

(** [Reassembled::packet] *)
Definition packet (r : Reassembled) : parse_result Packet :=
  b ← range (buf_bytes (ra_buf r)) 0 (ra_len r);
  reassembled (ra_first r) b.

Record Collecting : Type := {
  co_buf : Buffer;
  co_started : Z;
  co_len : option nat;
  co_first : option FragmentHeader;
}.

Definition collecting_new (buf : Buffer) (started : Z) : Collecting :=
  {| co_buf := {| buf_bytes := buf_bytes buf; received := replicate (length (received buf)) false |};
     co_started := started; co_len := None; co_first := None |}.

(** [slice[a..b].fill(true)] *)
Definition fill_true {E} (l : list bool) (a b : nat) : res E (list bool) :=
  _ ← range l a b; copy_at l a b (replicate (b - a) true).

(** [Collecting::add] *)
Definition add (c : Collecting) (fragment : Fragment) : res Loss Collecting :=
  let header := fr_header fragment in
  let offset := fh_offset header in
  let more := fh_more header in
  let data := fr_data fragment in
  let end_ := (offset + length data)%nat in
  if (more && negb (length data mod FRAGMENT_UNIT =? 0)%nat)
     || ((offset =? 0)%nat && bool_decide (headers fragment = None))
  then Err Malformed
  else if decide (MAX_DATAGRAM_LEN < end_)%nat then Err (TooLarge end_)
  else
    let start := (offset / FRAGMENT_UNIT)%nat in
    let stop := div_ceil end_ FRAGMENT_UNIT in
    ends_elsewhere ←
      match co_len c with
      | Some len => Ok (if more then (len <? end_)%nat else negb (end_ =? len)%nat)
      | None => if more then Ok false
                else tail ← range_from (received (co_buf c)) stop; Ok (existsb id tail)
      end;
    overlap ← (if ends_elsewhere : bool then Ok true
               else blocks ← range (received (co_buf c)) start stop; Ok (existsb id blocks));
    if overlap : bool then Err Inconsistent
    else
      bytes ← copy_at (buf_bytes (co_buf c)) offset end_ data;
      received ← fill_true (received (co_buf c)) start stop;
      Ok {| co_buf := {| buf_bytes := bytes; received := received |};
            co_started := co_started c;
            co_len := if more then co_len c else Some end_;
            co_first := if (offset =? 0)%nat then Some header else co_first c |}.

(** [is_complete] *)
Definition is_complete {E} (c : Collecting) : res E bool :=
  match co_first c, co_len c with
  | Some _, Some len =>
      blocks ← range (received (co_buf c)) 0 (div_ceil len FRAGMENT_UNIT);
      Ok (forallb id blocks)
  | _, _ => Ok false
  end.

(** [finish] *)
Definition finish {E} (c : Collecting) : res E (option Reassembled) :=
  complete ← is_complete c;
  if negb complete then Ok None
  else
    Ok (first ← co_first c; len ← co_len c;
        Some {| ra_first := first; ra_buf := co_buf c; ra_len := len |}).

(** The head of [spare] is the end of the vector. *)
Record Reassembler : Type := {
  collecting : LinearMap DatagramKey Collecting;
  discarding : LinearMap DatagramKey Z;
  spare : list Buffer;
  lost : list Lost;
}.

Definition reassembler_new : Reassembler :=
  {| collecting := []; discarding := []; spare := []; lost := [] |}.

(** [Instant::duration_since] saturates at zero. *)
Definition duration_since (now since : Z) : Z := Z.max 0 (now - since).

Definition recycle (r : Reassembler) (done : Reassembled) : Reassembler :=
  {| collecting := collecting r; discarding := discarding r; spare := ra_buf done :: spare r; lost := lost r |}.

Definition drain_lost (r : Reassembler) : list Lost * Reassembler :=
  (lost r, {| collecting := collecting r; discarding := discarding r; spare := spare r; lost := [] |}).

(** [discard] *)
Definition discard (r : Reassembler) (key : DatagramKey) (now : Z) : Reassembler :=
  let d := discarding r in
  let d := if decide (DISCARDS <= lm_len d)%nat
           then match min_by_key snd d with Some (oldest, _) => lm_delete d oldest | None => d end
           else d in
  {| collecting := collecting r; discarding := (lm_insert d key now).2; spare := spare r; lost := lost r |}.

(** [give_up] *)
Definition give_up_on (r : Reassembler) (key : DatagramKey) (loss : Loss) (now : Z) : Reassembler :=
  let r := match lm_remove (collecting r) key with
           | Some (c, m) =>
               {| collecting := m; discarding := discarding r; spare := co_buf c :: spare r;
                  lost := lost r ++ [lost_new key loss] |}
           | None => r
           end in
  discard r key now.

(** [make_room] *)
Definition make_room (r : Reassembler) (now : Z) : Reassembler :=
  if decide (SLOTS <= lm_len (collecting r))%nat
  then match min_by_key (fun p => co_started p.2) (collecting r) with
       | Some (oldest, _) => give_up_on r oldest Evicted now
       | None => r
       end
  else r.

(** [first_expired] *)
Fixpoint first_expired_in (m : list (DatagramKey * Collecting)) (now : Z) : option DatagramKey :=
  match m with
  | [] => None
  | (key, c) :: m => if EXPIRY <=? duration_since now (co_started c) then Some key
                     else first_expired_in m now
  end.
Definition first_expired (r : Reassembler) (now : Z) : option DatagramKey :=
  first_expired_in (collecting r) now.

(** The loop of [expire]. *)
Fixpoint expire_loop (fuel : nat) (r : Reassembler) (now : Z) : Reassembler :=
  match fuel with
  | O => r
  | S fuel => match first_expired r now with
              | Some key => expire_loop fuel (give_up_on r key Expired now) now
              | None => r
              end
  end.

(** [expire]; each turn of the loop removes one slot. *)
Definition expire (r : Reassembler) (now : Z) : Reassembler :=
  let d := lm_retain (fun _ since => (duration_since now since <? EXPIRY, since)) (discarding r) in
  let r := {| collecting := collecting r; discarding := d; spare := spare r; lost := lost r |} in
  expire_loop (length (collecting r)) r now.

Definition datagram_key (ingress : CaptureKey) (f : Fragment) : DatagramKey :=
  {| dk_ingress := ingress; dk_source := fh_source (fr_header f);
     dk_dest := fh_dest (fr_header f); dk_id := fh_id (fr_header f) |}.

(** The slot for a datagram: found, or made. *)
Definition with_slot (r : Reassembler) (key : DatagramKey) (now : Z) : Reassembler :=
  match lm_get (collecting r) key with
  | Some _ => r
  | None =>
      let r := make_room r now in
      let '(buf, spare) := match spare r with b :: s => (b, s) | [] => (buffer_new, []) end in
      {| collecting := (lm_insert (collecting r) key (collecting_new buf now)).2;
         discarding := discarding r; spare := spare; lost := lost r |}
  end.

Definition set_collecting (r : Reassembler) (m : LinearMap DatagramKey Collecting) : Reassembler :=
  {| collecting := m; discarding := discarding r; spare := spare r; lost := lost r |}.

(** [offer] *)
Definition offer {E} (r : Reassembler) (ingress : CaptureKey) (fragment : Fragment) (wanted : bool)
    (now : Z) : res E (option Reassembled * Reassembler) :=
  let r := expire r now in
  let key := datagram_key ingress fragment in
  match lm_get (discarding r) key with
  | Some _ => Ok (None, r)
  | None =>
      if negb wanted then
        let r := match lm_remove (collecting r) key with
                 | Some (c, m) => {| collecting := m; discarding := discarding r;
                                     spare := co_buf c :: spare r; lost := lost r |}
                 | None => r
                 end in
        Ok (None, discard r key now)
      else
        let r := with_slot r key now in
        match lm_get (collecting r) key with
        | None => Ok (None, r)
        | Some c =>
            match add c fragment with
            | Panic => Panic
            | Err loss => Ok (None, give_up_on r key loss now)
            | Ok c =>
                let r := set_collecting r (lm_get_mut (fun _ => c) (collecting r) key) in
                complete ← is_complete c;
                if negb complete then Ok (None, r)
                else match lm_remove (collecting r) key with
                     | None => Ok (None, r)
                     | Some (c, m) => done ← finish c; Ok (done, set_collecting r m)
                     end
            end
        end
  end.

(** ** Invariants *)

Definition buffer_ok (b : Buffer) : Prop :=
  length (buf_bytes b) = MAX_DATAGRAM_LEN /\ length (received b) = BLOCKS.

Definition collecting_ok (c : Collecting) : Prop :=
  buffer_ok (co_buf c) /\ (forall len, co_len c = Some len -> (len <= MAX_DATAGRAM_LEN)%nat).

Definition coll_map_ok (m : LinearMap DatagramKey Collecting) : Prop :=
  lm_wf m /\ Forall (fun p => collecting_ok p.2) m.

(** Distinct keys, every buffer of its size, no datagram both collected and
    discarded, and at most [SLOTS] buffers between the slots and the spares
    once the [loaned] ones are counted. *)
Record reassembler_ok (loaned : nat) (r : Reassembler) : Prop := {
  ro_coll : coll_map_ok (collecting r);
  ro_disc : lm_wf (discarding r);
  ro_spare : Forall buffer_ok (spare r);
  ro_buffers : (length (collecting r) + length (spare r) + loaned <= SLOTS)%nat;
  ro_discards : (length (discarding r) <= DISCARDS)%nat;
  ro_apart : forall k, is_Some (lm_get (collecting r) k) -> lm_get (discarding r) k = None;
}.

Lemma blocks_bound n : (n <= MAX_DATAGRAM_LEN -> div_ceil n FRAGMENT_UNIT <= BLOCKS)%nat.
Proof. intros. unfold BLOCKS, div_ceil, FRAGMENT_UNIT. apply Nat.Div0.div_le_mono. lia. Qed.

Lemma div_floor_ceil n m : (n <= m -> n / FRAGMENT_UNIT <= div_ceil m FRAGMENT_UNIT)%nat.
Proof. intros. unfold div_ceil, FRAGMENT_UNIT. apply Nat.Div0.div_le_mono. lia. Qed.

Lemma buffer_new_ok : buffer_ok buffer_new.
Proof. split; apply length_replicate. Qed.

Lemma collecting_new_ok b now : buffer_ok b -> collecting_ok (collecting_new b now).
Proof. intros [? ?]. split; [split; cbn; [done|by rewrite length_replicate]|done]. Qed.

(** A fragment never panics a slot, and a slot that took it is still one. *)
Lemma add_ok c fragment :
  collecting_ok c ->
  match add c fragment with
  | Ok c' => collecting_ok c' /\ co_started c' = co_started c
  | Err _ => True
  | Panic => False
  end.
Proof.
  intros [[Hb Hr] Hl]. unfold add. destruct (_ || _); [done|]. case_decide as Hmax; [done|].
  set (end_ := (fh_offset _ + length _)%nat) in *.
  assert (div_ceil end_ FRAGMENT_UNIT <= BLOCKS)%nat as He by (apply blocks_bound; lia).
  assert (fh_offset (fr_header fragment) / FRAGMENT_UNIT <= div_ceil end_ FRAGMENT_UNIT)%nat as Hs
    by (apply div_floor_ceil; lia).
  set (stop := div_ceil end_ _) in *. set (start := (fh_offset _ / _)%nat) in *. clearbody start stop.
  assert (forall k, match k with Ok c' => collecting_ok c' /\ co_started c' = co_started c
                    | Err _ => True | Panic => False end ->
    forall r, r = Ok (E:=Loss) true \/ r = Ok false ->
    match (overlap ← r; if overlap : bool then Err Inconsistent else k) with
    | Ok c' => collecting_ok c' /\ co_started c' = co_started c | Err _ => True | Panic => False end) as Hk.
  { intros k Hk r [-> | ->]; rewrite bind_ret; [exact I|exact Hk]. }
  assert (exists e, match co_len c with
      | Some len => Ok (if fh_more (fr_header fragment) then (len <? end_)%nat else negb (end_ =? len)%nat)
      | None => if fh_more (fr_header fragment) then Ok false
                else tail ← range_from (received (co_buf c)) stop; Ok (existsb id tail)
      end = Ok (E:=Loss) e) as [e ->].
  { destruct (co_len c); [by eauto|]. case_match; [by eauto|].
    unfold range_from, get_from. rewrite decide_True by lia. cbn [expect]. rewrite bind_ret. eauto. }
  rewrite bind_ret. apply Hk.
  - rewrite copy_at_ok, bind_ret by lia. unfold fill_true. rewrite range_ok, bind_ret by lia.
    rewrite copy_at_ok, bind_ret by len. split; [|done]. split; [split; cbn [buf_bytes received co_buf]; len|].
    intros len. cbn [co_len]. destruct (fh_more _); [apply Hl|]. intros [= <-]. lia.
  - destruct e; [by left|]. rewrite range_ok, bind_ret by lia. destruct (existsb _ _); auto.
Qed.

Lemma is_complete_ok {E} c : collecting_ok c -> exists b, is_complete (E:=E) c = Ok b.
Proof.
  intros [[_ Hr] Hl]. unfold is_complete. destruct (co_first c); [|eauto].
  destruct (co_len c) as [len|]; [|eauto]. pose proof (blocks_bound len (Hl _ eq_refl)).
  rewrite range_ok, bind_ret by lia. eauto.
Qed.

Lemma finish_ok {E} c : collecting_ok c -> exists o, finish (E:=E) c = Ok o.
Proof.
  intros Hc. unfold finish. destruct (is_complete_ok (E:=E) c Hc) as [b ->]. rewrite bind_ret.
  destruct b; cbn; eauto.
Qed.

(** *** The slots as a map *)

Lemma coll_map_get m key c : coll_map_ok m -> lm_get m key = Some c -> collecting_ok c.
Proof. intros [_ Hall] H%lm_get_elem. rewrite Forall_forall in Hall. by apply (Hall _ H). Qed.

Lemma coll_map_intro m :
  lm_wf m -> (forall k c, lm_get m k = Some c -> collecting_ok c) -> coll_map_ok m.
Proof.
  intros Hwf H. split; [done|]. apply Forall_forall. intros [k c] Hin.
  apply (H k). by apply lm_get_Some.
Qed.

Lemma coll_map_insert m key c : coll_map_ok m -> collecting_ok c -> coll_map_ok (lm_insert m key c).2.
Proof.
  intros Hm Hc. apply coll_map_intro; [apply lm_insert_wf, Hm|]. intros k c'.
  rewrite lm_get_insert. case_decide; [by intros [= <-]|by apply coll_map_get].
Qed.

Lemma coll_map_set m key c : coll_map_ok m -> collecting_ok c -> coll_map_ok (lm_get_mut (fun _ => c) m key).
Proof.
  intros Hm Hc. apply coll_map_intro; [unfold lm_wf; rewrite lm_get_mut_keys; apply Hm|].
  intros k c'. rewrite lm_get_get_mut. case_decide; [|by apply coll_map_get].
  by intros (?&?&<-)%fmap_Some.
Qed.

Lemma coll_map_delete m key : coll_map_ok m -> coll_map_ok (lm_delete m key).
Proof.
  intros Hm. apply coll_map_intro; [apply lm_delete_wf, Hm|]. intros k c.
  rewrite lm_get_delete by apply Hm. case_decide; [done|by apply coll_map_get].
Qed.

(** What [remove] finds, and how many pairs it leaves. *)
Lemma lm_remove_cases {V} (m : LinearMap DatagramKey V) key :
  lm_wf m ->
  match lm_remove m key with
  | Some (v, m') => lm_get m key = Some v /\ m' = lm_delete m key /\ (length m = S (length m'))%nat
  | None => lm_get m key = None
  end.
Proof.
  intros Hwf. pose proof (lm_remove_get m key Hwf) as Hg. pose proof (lm_remove_perm m key) as Hp.
  unfold lm_delete. destruct (lm_remove m key) as [[v m']|]; [|done].
  split_and!; [done|done|by rewrite Hp].
Qed.

(** *** Every step keeps the invariant *)

Lemma discard_ok n r key now :
  reassembler_ok n r -> lm_get (collecting r) key = None ->
  reassembler_ok n (discard r key now) /\ collecting (discard r key now) = collecting r /\
  spare (discard r key now) = spare r /\ lost (discard r key now) = lost r /\
  lm_get (discarding (discard r key now)) key = Some now /\
  (forall k, k <> key -> lm_get (discarding r) k = None -> lm_get (discarding (discard r key now)) k = None).
Proof.
  intros [Hc Hd Hs Hb Hn Ha] Hk. unfold discard, lm_len. cbn.
  set (d := if decide _ then _ else _).
  assert (lm_wf d /\ (length d < DISCARDS)%nat /\
          forall k, is_Some (lm_get d k) -> is_Some (lm_get (discarding r) k)) as (Hwf&Hlt&Hsub).
  { subst d. case_decide as Hfull; [|split_and!; [done|unfold DISCARDS in *; lia|done]].
    pose proof (min_by_key_spec snd (discarding r)) as Hmin.
    destruct (min_by_key _ _) as [[old since]|] eqn:E.
    - destruct Hmin as [Hin _]. split_and!; [by apply lm_delete_wf| |].
      + unfold lm_delete. pose proof (lm_remove_cases (discarding r) old Hd) as Hr.
        apply (lm_get_Some _ _ _ Hd) in Hin. destruct (lm_remove _ _) as [[v m']|]; [|congruence].
        destruct Hr as (_&_&Hlen). lia.
      + intros k [v Hv]. rewrite lm_get_delete in Hv by done. case_decide; naive_solver.
    - subst. rewrite Hmin in Hfull. cbn in Hfull. unfold DISCARDS in Hfull. lia. }
  split_and!; try done; [|by rewrite lm_get_insert, decide_True|].
  2: { intros k Hk' Hn'. rewrite lm_get_insert, decide_False by done.
       destruct (lm_get d k) as [v|] eqn:E; [|done]. destruct (Hsub k) as [? ?]; [by eexists|congruence]. }
  split; cbn; try done; [by apply lm_insert_wf| |].
  - rewrite lm_len_insert. case_decide; lia.
  - intros k Hk'. rewrite lm_get_insert. case_decide as Heq; [subst; rewrite Hk in Hk'; by destruct Hk'|].
    specialize (Ha k Hk'). destruct (lm_get d k) as [v|] eqn:E; [|done].
    destruct (Hsub k) as [? ?]; [by eexists|congruence].
Qed.

Lemma give_up_ok n r key loss now :
  reassembler_ok n r ->
  let r' := give_up_on r key loss now in
  reassembler_ok n r' /\ collecting r' = lm_delete (collecting r) key /\
  lm_get (discarding r') key = Some now /\
  (forall k, k <> key -> lm_get (discarding r) k = None -> lm_get (discarding r') k = None) /\
  (is_Some (lm_get (collecting r) key) ->
     lost r' = lost r ++ [lost_new key loss] /\ (length (collecting r) = S (length (collecting r')))%nat).
Proof.
  intros [Hc Hd Hs Hb Hn Ha]. unfold give_up_on. cbn zeta.
  pose proof (lm_remove_cases (collecting r) key (proj1 Hc)) as Hr.
  destruct (lm_remove (collecting r) key) as [[c m]|] eqn:E.
  - destruct Hr as (Hg&->&Hlen).
    match goal with |- context [discard ?x key now] => set (r1 := x) end.
    assert (reassembler_ok n r1) as H1.
    { split; cbn; try done; [by apply coll_map_delete| |lia|].
      - constructor; [|done]. by eapply coll_map_get.
      - intros k [v Hv]. apply Ha. rewrite lm_get_delete in Hv by apply Hc. case_decide; [done|by eexists]. }
    destruct (discard_ok n r1 key now H1) as (?&Ec&Es&El&?&?).
    { cbn. rewrite lm_get_delete by apply Hc. by rewrite decide_True. }
    rewrite Ec, El. split_and!; try done.
  - destruct (discard_ok n r key now) as (?&Ec&Es&El&?&?); [done|done|].
    rewrite Ec. split_and!; try done; [unfold lm_delete; by rewrite E|]. rewrite Hr. by intros [? ?].
Qed.

Lemma first_expired_Some r now key :
  first_expired r now = Some key -> exists c, (key, c) ∈ collecting r /\ EXPIRY <= duration_since now (co_started c).
Proof.
  unfold first_expired. induction (collecting r) as [|[k c] m IH]; cbn; [done|].
  destruct (Z.leb_spec EXPIRY (duration_since now (co_started c))).
  - intros [= <-]. exists c. split; [apply list_elem_of_here|done].
  - intros (c'&?&?)%IH. exists c'. split; [by apply list_elem_of_further|done].
Qed.

Lemma first_expired_None r now :
  first_expired r now = None <->
  Forall (fun p => duration_since now (co_started p.2) < EXPIRY) (collecting r).
Proof.
  unfold first_expired. induction (collecting r) as [|[k c] m IH]; cbn; [by split; [constructor|]|].
  rewrite Forall_cons. cbn. destruct (Z.leb_spec EXPIRY (duration_since now (co_started c))); [|rewrite IH; naive_solver].
  split; [done|lia].
Qed.

(** The loop ends with no slot expired, having removed only expired slots. *)
Lemma expire_loop_ok n fuel r now :
  reassembler_ok n r -> (length (collecting r) <= fuel)%nat ->
  let r' := expire_loop fuel r now in
  reassembler_ok n r' /\ first_expired r' now = None /\
  (forall k, lm_get (collecting r') k =
     match lm_get (collecting r) k with
     | Some c => if EXPIRY <=? duration_since now (co_started c) then None else Some c
     | None => None
     end).
Proof.
  revert r. induction fuel as [|fuel IH]; intros r Hr Hf; cbn.
  - assert (collecting r = []) as E by (by apply nil_length_inv; lia).
    split_and!; [done| |]; unfold first_expired; by rewrite E.
  - destruct (first_expired r now) as [key|] eqn:Ee.
    + destruct (first_expired_Some r now key Ee) as (c&Hin&Hexp).
      apply (lm_get_Some _ _ _ (proj1 (ro_coll _ _ Hr))) in Hin.
      destruct (give_up_ok n r key Expired now Hr) as (Hr'&Ec&_&_&Hl).
      destruct (Hl ltac:(by eexists)) as [_ Hlen].
      destruct (IH (give_up_on r key Expired now) Hr' ltac:(lia)) as (?&?&Hk). split_and!; [done|done|].
      intros k. rewrite Hk, Ec, lm_get_delete by apply Hr. case_decide; [|done].
      subst. rewrite Hin. by destruct (Z.leb_spec EXPIRY (duration_since now (co_started c))); [|lia].
    + split_and!; [done|done|]. intros k. destruct (lm_get (collecting r) k) as [c|] eqn:Eg; [|done].
      apply first_expired_None in Ee. rewrite Forall_forall in Ee. apply lm_get_elem in Eg.
      specialize (Ee _ Eg). cbn in Ee.
      by destruct (Z.leb_spec EXPIRY (duration_since now (co_started c))); [lia|].
Qed.

Lemma expire_ok n r now :
  reassembler_ok n r ->
  let r' := expire r now in
  reassembler_ok n r' /\ first_expired r' now = None /\
  (forall k, lm_get (collecting r') k =
     match lm_get (collecting r) k with
     | Some c => if EXPIRY <=? duration_since now (co_started c) then None else Some c
     | None => None
     end).
Proof.
  intros [Hc Hd Hs Hb Hn Ha]. unfold expire. cbn zeta.
  match goal with |- context [expire_loop _ ?x now] => set (r1 := x) end.
  assert (reassembler_ok n r1) as H1.
  { split; cbn; try done; [by apply lm_retain_wf| |].
    - etrans; [apply lm_len_retain|done].
    - intros k Hk. destruct (lm_get (lm_retain _ _) k) as [v|] eqn:E; [|done].
      apply (lm_get_retain _ _ _ _ Hd) in E as (v0&Hv0&_). rewrite (Ha k Hk) in Hv0. done. }
  exact (expire_loop_ok n _ r1 now H1 (le_n _)).
Qed.

Lemma make_room_ok n r now :
  reassembler_ok n r ->
  reassembler_ok n (make_room r now) /\ (length (collecting (make_room r now)) < SLOTS)%nat /\
  (forall k, lm_get (collecting r) k = None -> lm_get (collecting (make_room r now)) k = None) /\
  (forall k, lm_get (discarding r) k = None -> lm_get (collecting r) k = None ->
     lm_get (discarding (make_room r now)) k = None).
Proof.
  intros Hr. unfold make_room, lm_len. case_decide as Hfull; [|split_and!; try done; lia].
  pose proof (min_by_key_spec (fun p => co_started p.2) (collecting r)) as Hmin.
  destruct (min_by_key _ (collecting r)) as [[old c]|] eqn:E.
  - destruct Hmin as [Hin _]. apply (lm_get_Some _ _ _ (proj1 (ro_coll _ _ Hr))) in Hin.
    destruct (give_up_ok n r old Evicted now Hr) as (Hr'&Ec&_&Hd&Hl).
    destruct (Hl ltac:(by eexists)) as [_ Hlen]. pose proof (ro_buffers _ _ Hr).
    split_and!; [done|lia| |].
    + intros k Hk. rewrite Ec, lm_get_delete by apply Hr. by case_decide.
    + intros k Hk Hk'. apply Hd; [|done]. intros ->. congruence.
  - rewrite Hmin in Hfull. cbn in Hfull. unfold SLOTS in Hfull. lia.
Qed.

(** The slot an offer collects into: the one there was, or a fresh one. *)
Lemma with_slot_ok r key now :
  reassembler_ok 0 r -> lm_get (discarding r) key = None ->
  let r' := with_slot r key now in
  reassembler_ok 0 r' /\ lm_get (discarding r') key = None /\
  exists c, lm_get (collecting r') key = Some c /\
    match lm_get (collecting r) key with
    | Some c0 => c = c0 /\ r' = r
    | None => exists buf, buffer_ok buf /\ c = collecting_new buf now
    end.
Proof.
  intros Hr Hk. unfold with_slot. destruct (lm_get (collecting r) key) as [c0|] eqn:Eg; cbn zeta.
  { split_and!; try done. eauto. }
  destruct (make_room_ok 0 r now Hr) as (Hr1&Hlen&Hc1&Hd1).
  set (r1 := make_room r now) in *. specialize (Hc1 key Eg). specialize (Hd1 key Hk Eg).
  destruct Hr1 as [Hc Hd Hs Hb Hn Ha].
  assert (exists buf sp, (match spare r1 with b :: s => (b, s) | [] => (buffer_new, []) end) = (buf, sp) /\
    buffer_ok buf /\ Forall buffer_ok sp /\
    (S (length (collecting r1)) + length sp <= SLOTS)%nat) as (buf&sp&->&Hbuf&Hsp&Hbnd).
  { destruct (spare r1) as [|b s] eqn:Es.
    - do 2 eexists. split_and!; [done|apply buffer_new_ok|done|cbn; lia].
    - rewrite Forall_cons in Hs. destruct Hs. cbn in Hb. do 2 eexists. split_and!; [done..|lia]. }
  split_and!.
  - split; cbn; try done; [by apply coll_map_insert, collecting_new_ok| |].
    + rewrite lm_len_insert, decide_False by (rewrite Hc1; by intros [? ?]). lia.
    + intros k. rewrite lm_get_insert. case_decide; [by subst|]. apply Ha.
  - done.
  - exists (collecting_new buf now). cbn. rewrite lm_get_insert, decide_True by done. eauto.
Qed.

Lemma set_collecting_ok n r m :
  reassembler_ok n r -> coll_map_ok m -> length m = length (collecting r) ->
  (forall k, is_Some (lm_get m k) -> is_Some (lm_get (collecting r) k)) ->
  reassembler_ok n (set_collecting r m).
Proof. intros [Hc Hd Hs Hb Hn Ha] Hm Hl Hsub. split; cbn; try done; [lia|]. auto. Qed.

Lemma remove_slot_ok r key c :
  reassembler_ok 0 r -> lm_get (collecting r) key = Some c ->
  reassembler_ok 1 (set_collecting r (lm_delete (collecting r) key)).
Proof.
  intros [Hc Hd Hs Hb Hn Ha] Hg. pose proof (lm_remove_cases (collecting r) key (proj1 Hc)) as Hr.
  destruct (lm_remove (collecting r) key) as [[c' m]|]; [|congruence]. destruct Hr as (_&->&Hlen).
  split; cbn; try done; [by apply coll_map_delete|lia|].
  intros k. rewrite lm_get_delete by apply Hc. case_decide; [by intros [? ?]|apply Ha].
Qed.

Lemma reassembler_ok_loan n n' r : reassembler_ok n r -> (n' <= n)%nat -> reassembler_ok n' r.
Proof. intros [Hc Hd Hs Hb Hn Ha] Hle. split; try done. lia. Qed.

(** One offer: no panic, and the buffer of a completed datagram on loan. *)
Lemma offer_ok {E} r ingress fragment wanted now :
  reassembler_ok 0 r ->
  exists done r', offer (E:=E) r ingress fragment wanted now = Ok (done, r') /\
    first_expired (expire r now) now = None /\
    match done with
    | Some d => reassembler_ok 1 r' /\ buffer_ok (ra_buf d) /\ (ra_len d <= MAX_DATAGRAM_LEN)%nat
    | None => reassembler_ok 0 r'
    end.
Proof.
  intros Hr. unfold offer. destruct (expire_ok 0 r now Hr) as (Hr1&Hexp&_).
  set (r1 := expire r now) in *. set (key := datagram_key ingress fragment). clearbody r1 key.
  destruct (lm_get (discarding r1) key) as [since|] eqn:Ed; [by do 2 eexists|].
  destruct wanted; cbn [negb].
  - destruct (with_slot_ok r1 key now Hr1 Ed) as (Hr2&Ed2&c&Hg&_).
    set (r2 := with_slot r1 key now) in *. rewrite Hg.
    pose proof (coll_map_get _ _ _ (ro_coll _ _ Hr2) Hg) as Hc. pose proof (add_ok c fragment Hc) as Ha.
    destruct (add c fragment) as [c'|loss|]; [|by do 2 eexists; split; [done|]; split; [done|]; apply give_up_ok|done].
    destruct Ha as [Hc' _]. destruct (is_complete_ok (E:=E) c' Hc') as [b Eb]. rewrite Eb, bind_ret.
    assert (reassembler_ok 0 (set_collecting r2 (lm_get_mut (fun _ => c') (collecting r2) key))) as Hr3.
    { apply set_collecting_ok; [done|apply coll_map_set; [apply Hr2|done]| |].
      - rewrite <- !(length_fmap fst). by rewrite lm_get_mut_keys.
      - intros k. rewrite lm_get_get_mut. case_decide; [|done]. subst. rewrite Hg. by eexists. }
    destruct b; cbn [negb]; [|by do 2 eexists].
    set (r3 := set_collecting _ _) in *.
    assert (lm_get (collecting r3) key = Some c') as Hg3
      by (cbn; by rewrite lm_get_get_mut, decide_True, Hg).
    pose proof (lm_remove_cases (collecting r3) key (proj1 (ro_coll _ _ Hr3))) as Hrem.
    destruct (lm_remove (collecting r3) key) as [[c3 m]|]; [|congruence].
    destruct Hrem as (Hg3'&->&_). assert (c3 = c') as -> by congruence.
    unfold finish. rewrite Eb, bind_ret. cbn [negb]. rewrite bind_ret.
    pose proof (remove_slot_ok r3 key c' Hr3 Hg3) as Hr4.
    do 2 eexists. split; [done|]. split; [done|].
    destruct (co_first c') as [first|]; [|by apply (reassembler_ok_loan 1); [exact Hr4|lia]].
    destruct (co_len c') as [len|] eqn:El; [|by apply (reassembler_ok_loan 1); [exact Hr4|lia]].
    destruct Hc' as [Hb Hl]. split_and!; [done|exact Hb|cbn; auto].
  - do 2 eexists. split; [done|]. split; [done|].
    pose proof (lm_remove_cases (collecting r1) key (proj1 (ro_coll _ _ Hr1))) as Hrem.
    destruct (lm_remove (collecting r1) key) as [[c m]|].
    + destruct Hrem as (Hg&->&Hlen). pose proof (coll_map_get _ _ _ (ro_coll _ _ Hr1) Hg) as Hc.
      destruct Hr1 as [Hc1 Hd Hs Hb Hn Ha]. apply discard_ok.
      * split; cbn [collecting discarding spare length]; try done; [by apply coll_map_delete| |lia|].
        -- constructor; [apply Hc|done].
        -- intros k. rewrite lm_get_delete by apply Hc1. case_decide; [by intros [? ?]|apply Ha].
      * cbn. rewrite lm_get_delete by apply Hc1; by rewrite decide_True.
    + by apply discard_ok.
Qed.

(** The buffer comes back. *)
Lemma recycle_ok r d : reassembler_ok 1 r -> buffer_ok (ra_buf d) -> reassembler_ok 0 (recycle r d).
Proof. intros [Hc Hd Hs Hb Hn Ha] Hbuf. split; cbn; try done; [by constructor|lia]. Qed.

(** *** Reachable states *)

Inductive ReassemblyStep : Type :=
  | StepOffer (ingress : CaptureKey) (fragment : Fragment) (wanted : bool) (now : Z)
  | StepDrain.

(** The dispatcher's use: a completed datagram is recycled before the next offer. *)
Definition reassembly_step {E} (s : ReassemblyStep) (r : Reassembler) : res E Reassembler :=
  match s with
  | StepOffer ingress fragment wanted now =>
      '(done, r) ← offer r ingress fragment wanted now;
      Ok (match done with Some d => recycle r d | None => r end)
  | StepDrain => Ok (drain_lost r).2
  end.

Fixpoint reassembly_run {E} (ss : list ReassemblyStep) (r : Reassembler) : res E Reassembler :=
  match ss with
  | [] => Ok r
  | s :: ss => r ← reassembly_step s r; reassembly_run ss r
  end.

Lemma reassembler_new_ok : reassembler_ok 0 reassembler_new.
Proof.
  split; cbn; [split; [constructor|constructor]|constructor|constructor|unfold SLOTS; lia|unfold DISCARDS; lia|].
  by intros k [? ?].
Qed.

Lemma reassembly_run_ok {E} ss r :
  reassembler_ok 0 r -> exists r', reassembly_run (E:=E) ss r = Ok r' /\ reassembler_ok 0 r'.
Proof.
  revert r. induction ss as [|s ss IH]; intros r Hr; [by eauto|]. cbn [reassembly_run].
  assert (exists r1, reassembly_step (E:=E) s r = Ok r1 /\ reassembler_ok 0 r1) as (r1&->&Hr1).
  { destruct s as [ingress fragment wanted now|]; cbn [reassembly_step].
    - destruct (offer_ok (E:=E) r ingress fragment wanted now Hr) as (d&r'&->&_&H). rewrite bind_ret.
      eexists. split; [done|]. destruct d as [d|]; [|done]. apply recycle_ok; apply H.
    - eexists. split; [done|]. destruct Hr as [Hc Hd Hs Hb Hn Ha]. split; done. }
  rewrite bind_ret. by apply IH.
Qed.

(** C5. Reassembly is memory-safe and bounded.  Whatever sequence of fragments
    is offered, at whatever times (even going backwards) and however malformed,
    nothing panics: at most [SLOTS] datagrams are collected and at most that
    many buffers exist, at most [DISCARDS] are remembered as given up on, keys
    stay distinct, and no datagram is both collected and discarded. *)
Theorem reassembly_bounded ss :
  exists r, reassembly_run (E:=Empty_set) ss reassembler_new = Ok r /\
    (length (collecting r) + length (spare r) <= SLOTS)%nat /\
    (length (discarding r) <= DISCARDS)%nat /\ lm_wf (collecting r) /\ lm_wf (discarding r) /\
    (forall k, is_Some (lm_get (collecting r) k) -> lm_get (discarding r) k = None).
Proof.
  destruct (reassembly_run_ok (E:=Empty_set) ss reassembler_new reassembler_new_ok) as (r&->&Hr).
  exists r. destruct Hr as [[Hc _] Hd _ Hb Hn Ha]. split_and!; try done. lia.
Qed.

(** Expiry terminates and is complete: every datagram collected for two
    seconds or more is given up on and no other, each is then discarded, and
    none is left for the offer that follows. *)
Theorem expire_complete n r now :
  reassembler_ok n r ->
  reassembler_ok n (expire r now) /\
  Forall (fun p => duration_since now (co_started p.2) < EXPIRY) (collecting (expire r now)) /\
  forall k c, lm_get (collecting r) k = Some c ->
    lm_get (collecting (expire r now)) k =
    if EXPIRY <=? duration_since now (co_started c) then None else Some c.
Proof.
  intros Hr. destruct (expire_ok n r now Hr) as (H1&H2&H3). split_and!; [done|by apply first_expired_None|].
  intros k c Hc. by rewrite H3, Hc.
Qed.

Definition ex_fragment (offset : nat) (more : bool) (data : bytes) : Fragment := {|
  fr_header := {| fh_source := V4 1; fh_dest := V4 2; fh_id := 9; fh_offset := offset; fh_more := more;
                  fh_ttl := 4; fh_dst_mac := None; fh_src_mac := None |};
  fr_data := data |}.

(** A reassembler one fragment was offered to. *)
Definition ex_reassembler : Reassembler :=
  match offer (E:=Empty_set) reassembler_new {| ck_index := 0 |} (ex_fragment 0 true (replicate 16 1)) true 0 with
  | Ok (_, r) => r
  | _ => reassembler_new
  end.

Lemma expire_complete_witness :
  length (collecting ex_reassembler) = 1%nat /\
  Forall (fun p => duration_since (2 * 10 ^ 9) (co_started p.2) < EXPIRY) (collecting (expire ex_reassembler (2 * 10 ^ 9))).
Proof.
  split; [vm_compute; reflexivity|]. apply (expire_complete 0).
  destruct (offer_ok (E:=Empty_set) reassembler_new {| ck_index := 0 |} (ex_fragment 0 true (replicate 16 1)) true 0
    reassembler_new_ok) as (d&r'&E&_&H).
  unfold ex_reassembler. rewrite E. destruct d; [by apply (reassembler_ok_loan 1); [apply H|lia]|exact H].
Defined.
