(* ===== verification/ReassemblySpec.v ===== *)
(** Fragments put back together: the fragments [UdpFrames] lays out
    ([src/net/frame.rs]), offered to the [Reassembler]
    ([src/dispatch/reassembly.rs]) in any order, give back the datagram. *)

From S2P Require Import Prelude Text Addr Checksum Packet Frame FrameSpec LinearMap Reassembly.

Local Open Scope nat_scope.

Lemma existsb_range_false (l : list bool) a n :
  (forall b, a <= b < a + n -> b < length l -> l !! b = Some false) ->
  existsb id (take n (drop a l)) = false.
Proof.
  intros H. apply existsb_none, Forall_lookup. intros i x Hx.
  apply lookup_take_Some in Hx as [Hx Hi]. rewrite lookup_drop in Hx.
  pose proof (lookup_lt_Some _ _ _ Hx). rewrite H in Hx by lia. by injection Hx as <-.
Qed.

Lemma range_fill_splice {E} (l : list bool) a b :
  a <= b -> b <= length l -> fill_true (E:=E) l a b = Ok (splice a (replicate (b - a) true) l).
Proof.
  intros. unfold fill_true. rewrite range_ok, bind_ret by lia. rewrite copy_at_ok by len.
  unfold splice. len. by replace (a + (b - a)) with b by lia.
Qed.

Lemma div_between b k i : 0 < k -> (b / k = i <-> i * k <= b < (i + 1) * k).
Proof.
  intros Hk. pose proof (Nat.div_mod_eq b k). pose proof (Nat.mod_upper_bound b k).
  split; [intros <-; nia|]. intros Hb. symmetry. apply (Nat.div_unique b k i (b - i * k)); nia.
Qed.

Section spec.
Context (mtu : nat) (f : UdpFrames) (k : nat).
Hypothesis (Hwf : frames_wf mtu f) (Hfrag : uf_fragmented f = true).
Hypothesis (Hmax : datagram_len f <= MAX_DATAGRAM_LEN) (Hk : uf_chunk f = k * 8).

Let nb := div_ceil (datagram_len f) 8.

Lemma k_pos : 0 < k.
Proof using Hwf Hfrag Hmax Hk. pose proof (wf_chunk_pos _ _ Hwf). lia. Qed.

Lemma nb_bounds : datagram_len f <= nb * 8 /\ nb * 8 < datagram_len f + 8.
Proof using Hwf Hfrag Hmax Hk. clear Hmax Hk Hfrag Hwf. subst nb. unfold div_ceil. dlia. Qed.

Lemma stop_block i : i < count f -> div_ceil (seg_end f i) 8 = Nat.min ((i + 1) * k) nb.
Proof using Hwf Hfrag Hmax Hk.
  intros Hi%(count_lt _ _ _ Hwf). pose proof nb_bounds. pose proof k_pos.
  unfold seg_end, seg_start. rewrite Hk in *. 
  destruct (decide (i * (k * 8) + k * 8 <= datagram_len f)).
  - rewrite Nat.min_l by lia. rewrite Nat.min_l by lia. unfold div_ceil.
    replace (i * (k * 8) + k * 8 + (8 - 1)) with (((i + 1) * k) * 8 + 7) by lia.
    rewrite Nat.div_add_l by lia. change (7 / 8) with 0. lia.
  - rewrite Nat.min_r by lia. fold nb. lia.
Qed.

Lemma block_of i b :
  i < count f -> (i * k <= b < Nat.min ((i + 1) * k) nb <-> b < nb /\ b / k = i).
Proof using Hwf Hfrag Hmax Hk. intros Hi. pose proof k_pos. rewrite (div_between b k i) by lia. lia. Qed.

Lemma nb_le_blocks : nb <= BLOCKS.
Proof using Hwf Hfrag Hmax Hk. apply blocks_bound. exact Hmax. Qed.

Lemma two_fragments : 1 < count f.
Proof using Hwf Hfrag Hmax Hk.
  apply (count_lt _ _ _ Hwf). pose proof (wf_chunk_lt _ _ Hwf Hfrag). lia.
Qed.

(** Fragment [i] claims to be followed exactly when it is not the last. *)
Lemma more_last i : i < count f -> (fh_more (fr_header (frames_fragment f i)) = negb (i =? count f - 1)).
Proof using Hwf Hfrag Hmax Hk.
  intros Hi. cbn [frames_fragment fr_header fh_more]. pose proof Hi as Hi'%(count_lt _ _ _ Hwf).
  assert (i + 1 < count f <-> (i + 1) * uf_chunk f < datagram_len f) by apply (count_lt _ _ _ Hwf).
  unfold seg_end, seg_start. destruct (Nat.eqb_spec i (count f - 1)); cbn [negb].
  - apply Nat.ltb_ge. lia.
  - apply Nat.ltb_lt. lia.
Qed.

(** What a slot holds after the fragments [S]. *)
Record coll_inv (S : list nat) (c : Collecting) : Prop := {
  ci_ok : collecting_ok c;
  ci_received : forall b, b < BLOCKS -> received (co_buf c) !! b = Some (bool_decide (b < nb /\ b / k ∈ S));
  ci_bytes : forall p, p < datagram_len f -> p / uf_chunk f ∈ S -> buf_bytes (co_buf c) !! p = datagram_bytes f !! p;
  ci_len : co_len c = if decide (count f - 1 ∈ S) then Some (datagram_len f) else None;
  ci_first : co_first c = if decide (0 ∈ S) then Some (fr_header (frames_fragment f 0)) else None;
}.

Lemma coll_inv_new buf now : buffer_ok buf -> coll_inv [] (collecting_new buf now).
Proof using Hwf Hfrag Hmax Hk.
  intros Hb. split; [by apply collecting_new_ok| |by intros ? ? ?%not_elem_of_nil|done|done].
  intros b Hlt. cbn. destruct Hb as [_ Hr]. rewrite lookup_replicate_2 by lia.
  rewrite bool_decide_false; [done|]. by intros [_ ?%not_elem_of_nil].
Qed.

Lemma headers_first : headers (frames_fragment f 0) <> None.
Proof using Hwf Hfrag Hmax Hk.
  unfold headers. cbn [frames_fragment fr_header fh_offset fr_data].
  assert ((seg_start f 0 =? 0) = true) as -> by done. cbn [negb].
  pose proof two_fragments. pose proof k_pos. pose proof (wf_chunk_lt _ _ Hwf Hfrag).
  assert (8 <= length (segment f 0)) as Hl.
  { rewrite (length_segment _ _ _ Hwf) by lia. unfold seg_end, seg_start. rewrite Hk in *. lia. }
  unfold split_at_checked, UDP_HEADER_SIZE. rewrite decide_True by done. cbn [mbind option_bind].
  destruct (segment f 0) as [|a [|b [|c [|d l]]]]; cbn in Hl; try lia. by cbn.
Qed.

(** The three refusals that cannot apply. *)
Lemma not_malformed i :
  i < count f ->
  (fh_more (fr_header (frames_fragment f i)) && negb (length (segment f i) mod FRAGMENT_UNIT =? 0))
  || ((seg_start f i =? 0) && bool_decide (headers (frames_fragment f i) = None)) = false.
Proof using Hwf Hfrag Hmax Hk.
  intros Hi. apply orb_false_iff. split.
  - rewrite more_last by done. destruct (Nat.eqb_spec i (count f - 1)); [done|]. cbn [negb andb].
    rewrite (length_segment _ _ _ Hwf) by done.
    assert (i + 1 < count f) as Hn%(count_lt _ _ _ Hwf) by lia. unfold seg_end, seg_start, FRAGMENT_UNIT.
    rewrite Nat.min_l by lia. replace (_ - _) with (k * 8) by lia.
    by rewrite Nat.Div0.mod_mul.
  - destruct (Nat.eqb_spec (seg_start f i) 0) as [Hs|]; [|done]. cbn [andb].
    apply bool_decide_eq_false. unfold seg_start in Hs. pose proof k_pos.
    assert (i = 0) as -> by nia. apply headers_first.
Qed.

Lemma add_fresh S c i :
  coll_inv S c -> i < count f -> i ∉ S ->
  exists c', add c (frames_fragment f i) = Ok c' /\ coll_inv (i :: S) c' /\ co_started c' = co_started c.
Proof using Hwf Hfrag Hmax Hk.
  intros [[[Lb Lr] Hcl] Hr Hby Hle Hfi] Hi Hn.
  pose proof k_pos as Hkp. pose proof nb_le_blocks as Hnb. pose proof nb_bounds as Hnbb.
  pose proof Hi as Hlt%(count_lt _ _ _ Hwf). pose proof (length_segment _ _ _ Hwf Hi) as Hls.
  assert (seg_end f i <= datagram_len f /\ seg_start f i <= seg_end f i) as [Hse Hss] by (unfold seg_end, seg_start; lia).
  unfold add. cbv zeta. change (fr_data (frames_fragment f i)) with (segment f i).
  change (fh_offset (fr_header (frames_fragment f i))) with (seg_start f i).
  rewrite (not_malformed i Hi).
  replace (seg_start f i + length (segment f i)) with (seg_end f i) by lia.
  rewrite decide_False by lia. unfold FRAGMENT_UNIT. rewrite stop_block by done.
  assert (seg_start f i / 8 = i * k) as ->
    by (unfold seg_start; rewrite Hk, Nat.mul_assoc; by apply Nat.div_mul).
  pose proof (block_of i) as Hbl. set (stop := Nat.min ((i + 1) * k) nb) in *.
  assert (i * k <= stop <= BLOCKS) as Hstop.
  { subst stop. unfold seg_start in *. rewrite Hk in Hlt.  lia. }
  rewrite (more_last i Hi).
  assert (match co_len c with
    | Some len => Ok (if negb (i =? count f - 1) then len <? seg_end f i else negb (seg_end f i =? len))
    | None => if negb (i =? count f - 1) then Ok false
              else tail ← range_from (received (co_buf c)) stop; Ok (existsb id tail)
    end = Ok (E:=Loss) false) as ->.
  { rewrite Hle. destruct (Nat.eqb_spec i (count f - 1)) as [Hil|Hil]; cbn [negb];
      destruct (decide (count f - 1 ∈ S)) as [Hin|Hin].
    - subst i. by destruct Hn.
    - unfold range_from, get_from. rewrite decide_True by lia. cbn [expect]. rewrite bind_ret. f_equal.
      rewrite <- (take_ge (drop stop (received (co_buf c))) (BLOCKS - stop)) by len.
      apply existsb_range_false. intros b Hb1 Hb2. rewrite Hr by lia. rewrite bool_decide_false; [done|].
      intros [Hb3 _]. assert (nb <= (i + 1) * k); [|lia].
      assert (~ (i + 1) * uf_chunk f < datagram_len f) as Hc
        by (rewrite <- (count_lt _ _ _ Hwf); lia).
      rewrite Hk in Hc.  lia.
    - f_equal. apply Nat.ltb_ge. exact Hse.
    - done. }
  rewrite bind_ret, range_ok, bind_ret by lia.
  rewrite existsb_range_false.
  2: { intros b Hb1 Hb2. rewrite Hr by lia. rewrite bool_decide_false; [done|]. intros [Hb3 Hb4].
       assert (b / k = i) as Hbi by (apply (Hbl b Hi); lia). rewrite Hbi in Hb4. exact (Hn Hb4). }
  rewrite bind_ret.
  assert (copy_at (E:=Loss) (buf_bytes (co_buf c)) (seg_start f i) (seg_end f i) (segment f i) =
          Ok (splice (seg_start f i) (segment f i) (buf_bytes (co_buf c)))) as ->.
  { rewrite <- copy_at_splice by lia. f_equal. lia. }
  rewrite bind_ret.
  rewrite range_fill_splice, bind_ret by lia. eexists. split; [done|]. split; [|done].
  split; cbn [co_buf co_len co_first buf_bytes received].
  - split; [split; cbn [co_buf buf_bytes received]; rewrite length_splice; len|]. intros len. cbn [co_len].
    destruct (negb _); [apply Hcl|]. intros [= <-]. lia.
  - intros b Hb. destruct (decide (i * k <= b < stop)) as [Hin|Hout].
    + rewrite lookup_splice_in by len. rewrite lookup_replicate_2 by lia. f_equal. symmetry.
      apply bool_decide_eq_true. apply (Hbl b Hi) in Hin as [? ->]. split; [done|]. apply list_elem_of_here.
    + rewrite lookup_splice_out by len. rewrite Hr by done. f_equal. apply bool_decide_ext.
      rewrite elem_of_cons. rewrite (Hbl b Hi) in Hout. clear -Hout. tauto.
  - intros p Hp. rewrite elem_of_cons. intros Hin.
    assert (p / uf_chunk f = i <-> seg_start f i <= p < seg_end f i) as Hpi.
    { pose proof (wf_chunk_pos _ _ Hwf). rewrite div_between by lia. unfold seg_end, seg_start.  lia. }
    destruct (decide (seg_start f i <= p < seg_end f i)) as [Hd|Hd].
    + rewrite lookup_splice_in by lia. unfold segment. rewrite lookup_take_lt by lia.
      rewrite lookup_drop. f_equal. lia.
    + rewrite lookup_splice_out by lia. apply Hby; [done|]. clear -Hin Hd Hpi. tauto.
  - rewrite Hle. destruct (Nat.eqb_spec i (count f - 1)) as [->|Hil]; cbn [negb].
    + rewrite decide_True by apply list_elem_of_here. unfold seg_end, seg_start. f_equal.
      assert (~ ((count f - 1) + 1) * uf_chunk f < datagram_len f) as Hc
        by (rewrite <- (count_lt _ _ _ Hwf); lia).  lia.
    + apply decide_ext. rewrite elem_of_cons. clear -Hil. naive_solver.
  - rewrite Hfi. unfold seg_start. destruct (Nat.eqb_spec (i * uf_chunk f) 0) as [Hz|Hz].
    + assert (i = 0) as -> by nia. by rewrite decide_True by apply list_elem_of_here.
    + apply decide_ext. rewrite elem_of_cons. destruct i; [lia|]. clear. naive_solver.
Qed.

(** Every unit is in exactly when every fragment is. *)
Lemma complete_missing {E} S c i :
  coll_inv S c -> i < count f -> i ∉ S -> is_complete (E:=E) c = Ok false.
Proof using Hwf Hfrag Hmax Hk.
  intros [[[_ Lr] _] Hr _ Hle Hfi] Hi Hn. unfold is_complete. rewrite Hle, Hfi.
  destruct (decide (0 ∈ S)); [|done]. destruct (decide (count f - 1 ∈ S)); [|done].
  pose proof nb_le_blocks. pose proof nb_bounds. pose proof k_pos.
  pose proof Hi as Hlt%(count_lt _ _ _ Hwf). rewrite Hk in Hlt.
  unfold FRAGMENT_UNIT. fold nb. rewrite range_ok, bind_ret by lia. f_equal.
  apply not_true_iff_false. rewrite forallb_forall. intros Hall.
  assert (i * k < nb) as Hb by lia.
  assert (received (co_buf c) !! (i * k) = Some false) as Hf.
  { rewrite Hr by lia. rewrite bool_decide_false; [done|]. intros [_ Hin].
    rewrite Nat.div_mul in Hin by lia. exact (Hn Hin). }
  specialize (Hall false). rewrite Nat.sub_0_r, drop_0 in Hall.
  assert (id false = true); [|done]. apply Hall. apply list_elem_of_In, list_elem_of_lookup.
  exists (i * k). by rewrite lookup_take_lt.
Qed.

Lemma complete_all {E} S c :
  coll_inv S c -> (forall i, i < count f -> i ∈ S) ->
  is_complete (E:=E) c = Ok true /\
  finish (E:=E) c = Ok (Some {| ra_first := fr_header (frames_fragment f 0); ra_buf := co_buf c;
                                ra_len := datagram_len f |}) /\
  take (datagram_len f) (buf_bytes (co_buf c)) = datagram_bytes f.
Proof using Hwf Hfrag Hmax Hk.
  intros [[[Lb Lr] _] Hr Hby Hle Hfi] Hall.
  pose proof two_fragments as H2. pose proof nb_le_blocks. pose proof nb_bounds. pose proof k_pos.
  rewrite decide_True in Hle by (apply Hall; lia). rewrite decide_True in Hfi by (apply Hall; lia).
  assert (is_complete (E:=E) c = Ok true) as Hc.
  { unfold is_complete. rewrite Hle, Hfi. unfold FRAGMENT_UNIT. fold nb.
    rewrite range_ok, bind_ret by lia. f_equal. apply forallb_forall. intros x Hx%list_elem_of_In.
    apply list_elem_of_lookup in Hx as [b Hx]. rewrite drop_0, Nat.sub_0_r in Hx.
    apply lookup_take_Some in Hx as [Hx Hb]. rewrite Hr in Hx by lia. injection Hx as <-.
    apply bool_decide_eq_true. split; [done|]. apply Hall, (count_lt _ _ _ Hwf).
    rewrite Hk. pose proof (Nat.div_mod_eq b k). nia. }
  split_and!; [done| |].
  - unfold finish. rewrite Hc, bind_ret. cbn [negb]. by rewrite Hle, Hfi.
  - apply list_eq_same_length with (datagram_len f).
    + apply (length_datagram_bytes _ _ Hwf).
    + rewrite length_take. lia.
    + intros p x y Hp Hx Hy. rewrite lookup_take_lt in Hx by done.
      rewrite Hby in Hx; [congruence|done|]. apply Hall, (count_lt _ _ _ Hwf).
      pose proof (Nat.div_mod_eq p (uf_chunk f)). nia.
Qed.
End spec.

(** ** Offering the fragments *)

(** Offer after offer; what each returned. *)
Fixpoint offers {E} (r : Reassembler) (ingress : CaptureKey) (l : list (Fragment * Z))
  : res E (list (option Reassembled) * Reassembler) :=
  match l with
  | [] => Ok ([], r)
  | (fragment, now) :: l =>
      '(d, r) ← offer r ingress fragment true now;
      '(ds, r) ← offers r ingress l;
      Ok (d :: ds, r)
  end.

(** Expiry leaves the discard list alone for a datagram that is still collected
    or was never seen. *)
Lemma expire_discarding n r now key :
  reassembler_ok n r -> lm_get (discarding r) key = None ->
  (forall c, lm_get (collecting r) key = Some c -> (duration_since now (co_started c) < EXPIRY)%Z) ->
  lm_get (discarding (expire r now)) key = None.
Proof.
  intros Hr Hk Hc. unfold expire. cbn zeta.
  match goal with |- context [expire_loop _ ?x now] => set (r1 := x) end.
  assert (reassembler_ok n r1) as H1.
  { destruct Hr as [H1 H2 H3 H4 H5 H6]. split; cbn; try done; [by apply lm_retain_wf| |].
    - etrans; [apply lm_len_retain|done].
    - intros k' Hk'. destruct (lm_get (lm_retain _ _) k') as [v|] eqn:E; [|done].
      apply (lm_get_retain _ _ _ _ H2) in E as (v0&Hv0&_). rewrite (H6 k' Hk') in Hv0. done. }
  assert (lm_get (discarding r1) key = None) as Hk1.
  { cbn. destruct (lm_get (lm_retain _ _) key) as [v|] eqn:E; [|done].
    apply (lm_get_retain _ _ _ _ (ro_disc _ _ Hr)) in E as (v0&Hv0&_). congruence. }
  assert (forall c, lm_get (collecting r1) key = Some c -> (duration_since now (co_started c) < EXPIRY)%Z) as Hc1
    by exact Hc.
  generalize (length (collecting r1)) as fuel. clearbody r1. clear r Hr Hk Hc. rename Hc1 into Hc. intros fuel.
  revert r1 H1 Hk1 Hc. induction fuel as [|fuel IH]; intros r1 H1 Hk1 Hc; [done|]. cbn [expire_loop].
  destruct (first_expired r1 now) as [old|] eqn:Ee; [|done].
  destruct (first_expired_Some r1 now old Ee) as (c&Hin&Hexp).
  apply (lm_get_Some _ _ _ (proj1 (ro_coll _ _ H1))) in Hin.
  destruct (give_up_ok n r1 old Expired now H1) as (Hr'&Ec&_&Hd&_).
  assert (key <> old) as Hne by (intros ->; specialize (Hc c Hin); lia).
  apply IH; [done|by apply Hd|]. intros c'. rewrite Ec, lm_get_delete by apply H1.
  rewrite decide_False by congruence. apply Hc.
Qed.

Section order.
Context (mtu : nat) (f : UdpFrames) (k : nat) (ingress : CaptureKey) (t0 : Z).
Hypothesis (Hwf : frames_wf mtu f) (Hfrag : uf_fragmented f = true).
Hypothesis (Hmax : datagram_len f <= MAX_DATAGRAM_LEN) (Hk : uf_chunk f = k * 8).

Let key : DatagramKey := datagram_key ingress (frames_fragment f 0).

(** The datagram is under way with the fragments [S] in, or not seen yet. *)
Definition under_way (S : list nat) (r : Reassembler) : Prop :=
  reassembler_ok 0 r /\ lm_get (discarding r) key = None /\
  match S with
  | [] => lm_get (collecting r) key = None
  | _ => exists c, lm_get (collecting r) key = Some c /\ coll_inv f k S c /\ co_started c = t0
  end.

(** The slot the next fragment goes to. *)
Lemma under_way_slot S r now :
  under_way S r -> (S = [] -> now = t0) -> (duration_since now t0 < EXPIRY)%Z ->
  let r1 := expire r now in
  lm_get (discarding r1) key = None /\
  let r2 := with_slot r1 key now in
  reassembler_ok 0 r2 /\ lm_get (discarding r2) key = None /\
  exists c, lm_get (collecting r2) key = Some c /\ coll_inv f k S c /\ co_started c = t0.
Proof using Hwf Hfrag Hmax Hk.
  intros (Hr&Hd&Hs) Hnow Hexp. destruct (expire_ok 0 r now Hr) as (Hr1&_&Hc1).
  assert (lm_get (discarding (expire r now)) key = None) as Hd1.
  { apply (expire_discarding 0); [done|done|]. intros c Hc. destruct S; [congruence|].
    destruct Hs as (c'&Hc'&_&Hst). assert (c = c') as -> by congruence. by rewrite Hst. }
  split; [done|]. destruct (with_slot_ok (expire r now) key now Hr1 Hd1) as (Hr2&Hd2&c&Hc&Hm).
  split_and!; [done|done|]. rewrite Hc1 in Hm. exists c. split; [done|]. destruct S as [|i S].
  - rewrite Hs in Hm. destruct Hm as (buf&Hbuf&->). rewrite Hnow by done.
    split; [by apply (coll_inv_new mtu f k Hwf Hfrag Hmax Hk)|done].
  - destruct Hs as (c'&Hc'&Hinv&Hst). rewrite Hc', Hst in Hm.
    destruct (Z.leb_spec EXPIRY (duration_since now t0)); [lia|]. by destruct Hm as [-> _].
Qed.

Lemma key_of i : datagram_key ingress (frames_fragment f i) = key.
Proof using Type. done. Qed.

(** One more fragment: the datagram if it was the last one missing. *)
Lemma offer_fragment {E} S r i now (last : bool) :
  under_way S r -> i < count f -> i ∉ S -> (S = [] -> now = t0) ->
  (duration_since now t0 < EXPIRY)%Z ->
  (if last then forall j, j < count f -> j ∈ i :: S else exists j, j < count f /\ j ∉ i :: S) ->
  exists d r', offer (E:=E) r ingress (frames_fragment f i) true now = Ok (d, r') /\
    if last then exists d', d = Some d' /\ ra_first d' = fr_header (frames_fragment f 0) /\
      range (E:=ParseError) (buf_bytes (ra_buf d')) 0 (ra_len d') = Ok (datagram_bytes f)
    else d = None /\ under_way (i :: S) r'.
Proof using Hwf Hfrag Hmax Hk.
  intros Hu Hi Hn Hnow Hexp Hlast.
  destruct (under_way_slot S r now Hu Hnow Hexp) as (Hd1&Hr2&Hd2&c&Hc&Hinv&Hst).
  unfold offer. rewrite key_of, Hd1. cbn [negb]. set (r2 := with_slot _ key now) in *.
  rewrite Hc. destruct (add_fresh mtu f k Hwf Hfrag Hmax Hk S c i Hinv Hi Hn) as (c'&->&Hinv'&Hst').
  assert (lm_get (lm_get_mut (fun _ => c') (collecting r2) key) key = Some c') as Hg
    by (rewrite lm_get_get_mut, decide_True, Hc by done; done).
  assert (coll_map_ok (lm_get_mut (fun _ => c') (collecting r2) key)) as Hm
    by (apply coll_map_set; [apply Hr2|apply (ci_ok _ _ _ _ Hinv')]).
  destruct last.
  - destruct (complete_all (E:=E) mtu f k Hwf Hfrag Hmax Hk (i :: S) c' Hinv' Hlast) as (->&Hfin&Hby).
    rewrite bind_ret. cbn [negb]. cbn [set_collecting collecting].
    pose proof (lm_remove_cases _ key (proj1 Hm)) as Hrem.
    destruct (lm_remove _ key) as [[c3 m]|]; [|congruence]. destruct Hrem as (Hg3&_&_).
    assert (c3 = c') as -> by congruence. rewrite Hfin, bind_ret. do 2 eexists. split; [done|].
    eexists. split; [done|]. split; [done|]. cbn [ra_buf ra_len].
    destruct (ci_ok _ _ _ _ Hinv') as [[Lb _] _].
    rewrite range_ok by lia. by rewrite Nat.sub_0_r, drop_0, Hby.
  - destruct Hlast as (j&Hj&Hjn).
    rewrite (complete_missing mtu f k Hwf Hfrag Hmax Hk (i :: S) c' j Hinv' Hj Hjn), bind_ret.
    cbn [negb]. do 2 eexists. split; [done|]. split; [done|]. split_and!.
    + apply set_collecting_ok; [done|done| |].
      * rewrite <- !(length_fmap fst). by rewrite lm_get_mut_keys.
      * intros k'. rewrite lm_get_get_mut. case_decide; [|done]. subst. rewrite Hc. by eexists.
    + done.
    + exists c'. split_and!; [done|done|congruence].
Qed.

(** The fragments of [order] after those of [S]. *)
Lemma offers_order {E} order : forall S r times,
  order ++ S ≡ₚ seq 0 (count f) -> order <> [] -> length times = length order -> under_way S r ->
  (S = [] -> head times = Some t0) -> Forall (fun now => (duration_since now t0 < EXPIRY)%Z) times ->
  exists d r', offers (E:=E) r ingress (zip (frames_fragment f <$> order) times) =
      Ok (replicate (length order - 1) None ++ [Some d], r') /\
    ra_first d = fr_header (frames_fragment f 0) /\
    range (E:=ParseError) (buf_bytes (ra_buf d)) 0 (ra_len d) = Ok (datagram_bytes f).
Proof using Hwf Hfrag Hmax Hk.
  induction order as [|i order IH]; intros S r times Hperm Hne Hlen Hu Hhd Htimes; [done|].
  destruct times as [|now times]; [done|]. rewrite Forall_cons in Htimes. destruct Htimes as [Hnow Htimes].
  assert (NoDup (i :: order ++ S)) as Hnd by (change (NoDup ((i :: order) ++ S)); rewrite Hperm; apply NoDup_seq).
  apply NoDup_cons in Hnd as [Hni Hnd]. rewrite elem_of_app in Hni.
  assert (forall j, j ∈ (i :: order) ++ S <-> j < count f) as Hmem
    by (intros j; rewrite Hperm, elem_of_seq; lia).
  assert (i < count f) as Hi by (apply Hmem, list_elem_of_here).
  cbn [fmap list_fmap zip zip_with offers length].
  assert (S = [] -> now = t0) as Hnow0 by (intros HS; specialize (Hhd HS); by injection Hhd).
  destruct order as [|i' order].
  - destruct (offer_fragment (E:=E) S r i now true) as (d&r'&->&d'&->&Hf&Hb); auto.
    { intros j Hj. by apply Hmem. }
    exists d', r'. split; [reflexivity|done].
  - destruct (offer_fragment (E:=E) S r i now false) as (d&r'&->&->&Hu'); auto.
    { exists i'. split; [apply Hmem; set_solver|]. rewrite elem_of_cons. intros [->|HS].
      - apply Hni. left. apply list_elem_of_here.
      - cbn [app] in Hnd. apply NoDup_cons in Hnd as [Hnd _]. apply Hnd, elem_of_app. by right. }
    rewrite bind_ret.
    destruct (IH (i :: S) r' times) as (d&r''&->&Hf&Hb); auto.
    { rewrite <- Hperm. symmetry. apply (Permutation_middle (i' :: order) S i). }
    { done. }
    rewrite bind_ret. exists d, r''. cbn [length]. split; [|done].
    replace (Datatypes.S (Datatypes.S (length order)) - 1) with (Datatypes.S (length order)) by lia.
    replace (Datatypes.S (length order) - 1) with (length order) by lia. done.
Qed.
End order.

(** C4. Fragmentation and reassembly are inverse, in any order of arrival.  The
    fragments [UdpFrames] lays out for a datagram the reassembler has room for,
    offered once each, in any order and at any times within two seconds of the
    first, to a reassembler in any reachable state that has not met the
    datagram, return nothing until the last one, which returns a datagram that
    passes the checks of [Packet::reassembled] and is the packet laid out. *)
Theorem reassembly_any_order link h src_port dst_port payload mtu f ingress r order times t0 :
  addressing_ok link h src_port dst_port payload ->
  udp_frames link h src_port dst_port payload mtu = Ok f -> uf_fragmented f = true ->
  datagram_len f <= MAX_DATAGRAM_LEN ->
  reassembler_ok 0 r ->
  lm_get (collecting r) (datagram_key ingress (frames_fragment f 0)) = None ->
  lm_get (discarding r) (datagram_key ingress (frames_fragment f 0)) = None ->
  order ≡ₚ seq 0 (count f) -> length times = length order ->
  head times = Some t0 -> Forall (fun now => (duration_since now t0 < EXPIRY)%Z) times ->
  exists d r', offers (E:=Empty_set) r ingress (zip (frames_fragment f <$> order) times) =
      Ok (replicate (count f - 1) None ++ [Some d], r') /\
    packet d = Ok (frames_packet f src_port dst_port).
Proof.
  intros Ha E Hfrag Hmax Hr Hc Hd Hperm Hlen Hhd Ht.
  destruct (udp_frames_Ok _ _ _ _ _ _ _ Ha E) as (Hwf&_).
  destruct (wf_fragmented _ _ Hwf Hfrag) as (Hmod&_&_).
  assert (uf_chunk f = uf_chunk f / 8 * 8) as Hk by (pose proof (Nat.div_mod_eq (uf_chunk f) 8); lia).
  assert (length order = count f) as Hlo by (rewrite Hperm; apply length_seq).
  pose proof (two_fragments mtu f (uf_chunk f / 8) Hwf Hfrag Hmax Hk) as H2.
  destruct (offers_order (E:=Empty_set) mtu f (uf_chunk f / 8) ingress t0 Hwf Hfrag Hmax Hk order [] r times)
    as (d&r'&Ho&Hf&Hb); auto.
  - by rewrite app_nil_r.
  - intros ->. cbn in Hlo. lia.
  - by split_and!.
  - exists d, r'. rewrite Hlo in Ho. split; [exact Ho|]. unfold packet. rewrite Hb, bind_ret, Hf.
    by apply (reassembled_ok link h _ _ payload mtu).
Qed.

(** Three fragments, the last first. *)
Lemma reassembly_any_order_witness : exists f d r',
  udp_frames ex_link ex_ip 5353 5353 ex_payload 50 = Ok f /\
  offers (E:=Empty_set) reassembler_new {| ck_index := 3 |}
    (zip (frames_fragment f <$> [2; 0; 1]) [0; 5; 3]%Z) = Ok ([None; None; Some d], r') /\
  packet d = Ok (frames_packet f 5353 5353).
Proof.
  destruct (udp_frames ex_link ex_ip 5353 5353 ex_payload 50) as [f|e|] eqn:E;
    [|vm_compute in E; discriminate E..].
  assert (uf_fragmented f = true /\ datagram_len f = 58 /\ count f = 3) as (Hf&Hl&Hc)
    by (vm_compute in E; injection E as <-; done).
  exists f.
  destruct (reassembly_any_order ex_link ex_ip 5353 5353 ex_payload 50 f {| ck_index := 3 |}
    reassembler_new [2; 0; 1] [0; 5; 3]%Z 0%Z) as (d&r'&Ho&Hp).
  - by apply ex_addressing; left.
  - exact E.
  - exact Hf.
  - rewrite Hl. unfold MAX_DATAGRAM_LEN. lia.
  - apply reassembler_new_ok.
  - done.
  - done.
  - rewrite Hc. apply (bool_decide_eq_true_1 (_ ≡ₚ _)). reflexivity.
  - done.
  - done.
  - by apply (bool_decide_eq_true_1 (Forall _ _)).
  - exists d, r'. rewrite Hc in Ho. split; [reflexivity|]. split; [exact Ho|exact Hp].
Defined.
