(* ===== verification/Http.v ===== *)
(** HTTP/1.1 message helpers ([src/net/http.rs]): authorities, URL hosts and
    header lookup, shared by the DIAL framer and the SSDP rewrites. *)

From S2P Require Import Prelude Text Addr.

Local Open Scope Z_scope.

(** [SocketAddrV4] *)
Record SocketAddrV4 : Type := { sa_ip : Z; sa_port : Z }.
Global Instance SocketAddrV4_eq_dec : EqDecision SocketAddrV4.
Proof. solve_decision. Defined.

Definition endpoint_ok (e : SocketAddrV4) : Prop := word_ok 32 (sa_ip e) /\ word_ok 16 (sa_port e).

Record Authority : Type := { endpoint : SocketAddrV4; au_offset : nat; au_len : nat }.
Global Instance Authority_eq_dec : EqDecision Authority.
Proof. solve_decision. Defined.

(** [strip_prefix_ignore_ascii_case] *)
Definition strip_prefix_ic (line prefix : bytes) : option bytes :=
  '(head, rest) ← split_at_checked (length prefix) line;
  if eq_ic head prefix then Some rest else None.

Definition matches (set : string) (b : Z) : bool := existsb (Z.eqb b) (bs set).
Definition TAB : Z := 9.
Definition CR : Z := 13.
Definition LF : Z := 10.

(** Where the authority of a URL ends. *)
Definition authority_end (b : Z) : bool := matches "/?# " b || (b =? TAB) || (b =? CR).

(** [parse_authority] *)
Definition parse_authority (value : bytes) (bare : bool) : option Authority :=
  '(rest, auth_offset) ←
    (if bare then Some (value, 0%nat)
     else rest ← strip_prefix_ic value (bs "http://");
          Some (rest, (length value - length rest)%nat));
  let len := default (length rest) (position authority_end rest) in
  let authority := take len rest in
  '(host, port) ←
    match rposition (Z.eqb 58) authority with
    | Some colon =>
        port ← parse_u16 (drop (S colon) authority);
        if port =? 0 then None else Some (take colon authority, port)
    | None => Some (authority, 80)
    end;
  addr ← parse_ipv4 host;
  Some {| endpoint := {| sa_ip := addr; sa_port := port |}; au_offset := auth_offset; au_len := len |}.

(** [url_host_ip] *)
Definition url_host_ip (url : bytes) : option IpAddr :=
  rest ← match strip_prefix_ic url (bs "http://") with
         | Some rest => Some rest
         | None => strip_prefix_ic url (bs "https://")
         end;
  match strip_prefix_by Z.eqb (bs "[") rest with
  | Some v6 =>
      close ← position (Z.eqb 93) v6;
      let host := take close v6 in
      let host := take (default (length host) (position (Z.eqb 37) host)) host in
      V6 <$> parse_ipv6 host
  | None =>
      let host := take (default (length rest)
        (position (fun b => (b =? 58) || authority_end b) rest)) rest in
      V4 <$> parse_ipv4 host
  end.

(** [strip_suffix(b"\r").unwrap_or(line)] *)
Definition strip_cr (line : bytes) : bytes :=
  match last line with
  | Some b => if b =? CR then take (length line - 1) line else line
  | None => line
  end.

(** [find_map] *)
Fixpoint find_map {A B} (f : A -> option B) (l : list A) : option B :=
  match l with
  | [] => None
  | x :: l => match f x with Some y => Some y | None => find_map f l end
  end.

(** [header_value] *)
Definition header_value (message name : bytes) : option bytes :=
  trim_start <$>
    find_map (fun line => rest ← strip_prefix_ic line name; strip_prefix_by Z.eqb (bs ":") rest)
      (strip_cr <$> split_on (Z.eqb LF) message).

(** [SocketAddrV4]'s [Display] *)
Definition show_endpoint (e : SocketAddrV4) : bytes := show_ipv4 (sa_ip e) ++ [58] ++ show_dec (sa_port e).

Example parse_authority_ex :
  parse_authority (bs "http://10.0.0.7:8008/apps?x") false =
  Some {| endpoint := {| sa_ip := Ipv4.new 10 0 0 7; sa_port := 8008 |}; au_offset := 7; au_len := 13 |}.
Proof. reflexivity. Qed.
Example url_host_ip_ex : url_host_ip (bs "HTTPS://[fe80::1%25eth0]:5357/x") = Some (V6 (Ipv6.new 65152 0 0 0 0 0 0 1)).
Proof. reflexivity. Qed.
Example header_value_ex : header_value ([78; 84; 58; 13; 10] ++ bs "Location: http://a" ++ [13; 10]) (bs "LOCATION") = Some (bs "http://a").
Proof. reflexivity. Qed.

(** ** Lemmas *)

Lemma strip_prefix_ic_Some line prefix rest :
  strip_prefix_ic line prefix = Some rest ->
  line = take (length prefix) line ++ rest /\ length line = (length prefix + length rest)%nat.
Proof.
  unfold strip_prefix_ic, split_at_checked. case_decide; cbn; [|done].
  destruct (eq_ic _ _); [|done]. intros [= <-]. rewrite take_drop. split; [done|len].
Qed.

Lemma strip_prefix_ic_app prefix p rest :
  eq_ic p prefix = true -> strip_prefix_ic (p ++ rest) prefix = Some rest.
Proof.
  intros H. pose proof (eq_ic_length _ _ H) as Hl. unfold strip_prefix_ic, split_at_checked.
  rewrite decide_True by len. cbn. rewrite take_app_length', drop_app_length' by done. by rewrite H.
Qed.

(** An authority lies inside the value it was read from. *)
Lemma parse_authority_span value bare a :
  parse_authority value bare = Some a ->
  (au_offset a + au_len a <= length value)%nat /\ (bare = true -> au_offset a = 0%nat).
Proof.
  unfold parse_authority. intros H. apply bind_Some in H as ([rest off]&H1&H).
  assert ((off + length rest <= length value)%nat /\ (bare = true -> off = 0%nat)) as [Hl Hb].
  { destruct bare; [injection H1 as <- <-; split; [lia|done]|].
    apply bind_Some in H1 as (r&Hr&[= <- <-]). apply strip_prefix_ic_Some in Hr as [_ Hr].
    split; [lia|done]. }
  apply bind_Some in H as ([host port]&_&H). apply bind_Some in H as (addr&_&[= <-]). cbn.
  split; [|done]. destruct (position authority_end rest) as [n|] eqn:E; cbn; [|lia].
  apply position_lt in E. lia.
Qed.

(** ** Dotted-decimal text *)

Lemma span_digits_app radix ds l :
  Forall (fun b => is_Some (digit_val radix b)) ds ->
  (forall b l', l = b :: l' -> digit_val radix b = None) ->
  span_digits radix (ds ++ l) = (omap (digit_val radix) ds, l).
Proof.
  intros H Hl. induction H as [|b ds [d Hd] _ IH]; cbn.
  - destruct l as [|b l]; [done|]. cbn. by rewrite (Hl b l eq_refl).
  - by rewrite Hd, IH.
Qed.

(** What [read_number] makes of the decimal text of an octet, for all 256. *)
Definition octet_ok (o : Z) : bool :=
  let ds := show_dec o in
  forallb (fun b => bool_decide (is_Some (digit_val 10 b))) ds &&
  bool_decide (read_number 10 256 3 false ds = Some (o, [])) && (length ds <=? 3)%nat.

Lemma octets_ok_all : forallb octet_ok (seqZ 0 256) = true.
Proof. vm_compute. reflexivity. Qed.

Lemma octet_text o : byte_ok o ->
  Forall (fun b => is_Some (digit_val 10 b)) (show_dec o) /\ (length (show_dec o) <= 3)%nat /\
  read_number 10 256 3 false (show_dec o) = Some (o, []).
Proof.
  intros Ho. pose proof octets_ok_all as H. rewrite forallb_forall in H. specialize (H o).
  rewrite <- list_elem_of_In, elem_of_seqZ in H. unfold byte_ok in Ho. specialize (H ltac:(lia)).
  unfold octet_ok in H. rewrite !andb_true_iff, bool_decide_eq_true in H. destruct H as ((H1&H2)&H3).
  split_and!; [|lia|done]. rewrite forallb_forall in H1. apply Forall_forall. intros b Hb%list_elem_of_In%H1.
  by apply bool_decide_eq_true in Hb.
Qed.

Lemma read_octet o l :
  byte_ok o -> (forall b l', l = b :: l' -> digit_val 10 b = None) ->
  read_number 10 256 3 false (show_dec o ++ l) = Some (o, l).
Proof.
  intros Ho Hl. destruct (octet_text o Ho) as (Hd&_&Hr). revert Hr.
  rewrite <- (app_nil_r (show_dec o)) at 1. unfold read_number.
  rewrite !span_digits_app; [|done..].
  repeat case_match; try done. intros [= ->]. done.
Qed.

Lemma read_ipv4_show a b c d l :
  byte_ok a -> byte_ok b -> byte_ok c -> byte_ok d ->
  (forall x l', l = x :: l' -> digit_val 10 x = None) ->
  read_ipv4 (show_dec a ++ [46] ++ show_dec b ++ [46] ++ show_dec c ++ [46] ++ show_dec d ++ l) =
  Some (of_be [a; b; c; d], l).
Proof.
  intros Ha Hb Hc Hd Hl. unfold read_ipv4, read_separator.
  assert (forall r x l', 46 :: r = x :: l' -> digit_val 10 x = None) as Hdot by (by intros r x l' [= <- _]).
  cbn [app].
  rewrite read_octet by eauto. cbn [mbind option_bind app given_char]. rewrite Z.eqb_refl.
  cbn [mbind option_bind]. rewrite (read_octet b) by eauto. cbn [mbind option_bind given_char]. rewrite Z.eqb_refl.
  cbn [mbind option_bind]. rewrite (read_octet c) by eauto. cbn [mbind option_bind given_char]. rewrite Z.eqb_refl.
  cbn [mbind option_bind]. by rewrite (read_octet d) by done.
Qed.

Lemma parse_show_ipv4 z : word_ok 32 z -> parse_ipv4 (show_ipv4 z) = Some z.
Proof.
  intros Hz. assert (of_be (be 4 z) = z) as E by (by apply of_be_be).
  pose proof (bytes_ok_be 4 z) as Hb. unfold show_ipv4.
  destruct (be_4_list z) as (a&b&c&d&Ez). rewrite Ez in *. rewrite !Forall_cons in Hb.
  destruct Hb as (Ha&Hb&Hc&Hd&_). unfold parse_ipv4, parse_all.
  destruct (octet_text a Ha) as (_&La&_), (octet_text b Hb) as (_&Lb&_), (octet_text c Hc) as (_&Lc&_),
    (octet_text d Hd) as (_&Ld&_).
  destruct (Nat.ltb_spec 15 (length (show_dec a ++ [46] ++ show_dec b ++ [46] ++ show_dec c ++ [46] ++ show_dec d)))
    as [Hl|_]; [rewrite !length_app in Hl; cbn [length] in Hl; lia|].
  rewrite <- (app_nil_r (show_dec d)), (read_ipv4_show a b c d []) by done.
  cbn [mbind option_bind]. by rewrite E.
Qed.

(** The decimal text of every port, checked on each. *)
Definition port_ok (p : Z) : bool :=
  bool_decide (parse_u16 (show_dec p) = Some p) && forallb is_digit (show_dec p).
Lemma ports_ok_all :
  forallb (fun hi => forallb (fun lo => port_ok (hi * 256 + lo)) (seqZ 0 256)) (seqZ 0 256) = true.
Proof. vm_compute. reflexivity. Qed.

Lemma parse_show_port p :
  word_ok 16 p -> parse_u16 (show_dec p) = Some p /\ Forall (fun b => is_digit b = true) (show_dec p).
Proof.
  intros Hp. pose proof ports_ok_all as H. unfold word_ok in Hp.
  rewrite forallb_forall in H. specialize (H (p / 256)).
  rewrite <- list_elem_of_In, elem_of_seqZ in H. specialize (H ltac:(dlia)).
  rewrite forallb_forall in H. specialize (H (p mod 256)).
  rewrite <- list_elem_of_In, elem_of_seqZ in H. specialize (H ltac:(dlia)).
  replace (p / 256 * 256 + p mod 256) with p in H by dlia.
  unfold port_ok in H. rewrite andb_true_iff, bool_decide_eq_true in H. destruct H as [H1 H2].
  split; [done|]. rewrite forallb_forall in H2. apply Forall_forall. intros b Hb%list_elem_of_In. auto.
Qed.

Lemma rposition_last {A} (p : A -> bool) a x b :
  p x = true -> Forall (fun y => p y = false) b -> rposition p (a ++ x :: b) = Some (length a).
Proof.
  intros Hx Hb. unfold rposition. rewrite reverse_app, reverse_cons, <- app_assoc.
  rewrite position_app_none by (by apply Forall_reverse). cbn. rewrite Hx. cbn.
  rewrite length_reverse, length_app. cbn. f_equal. lia.
Qed.

Lemma octet_bytes_digit o : byte_ok o -> Forall (fun b => is_digit b = true) (show_dec o).
Proof. intros Ho. apply (parse_show_port o). unfold word_ok. unfold byte_ok in Ho. lia. Qed.

Lemma show_ipv4_chars z : Forall (fun b => is_digit b = true \/ b = 46) (show_ipv4 z).
Proof.
  unfold show_ipv4. pose proof (bytes_ok_be 4 z) as Hb. destruct (be_4_list z) as (a&b&c&d&Ez).
  rewrite Ez in *. rewrite !Forall_cons in Hb. destruct Hb as (Ha&Hb&Hc&Hd&_).
  assert (forall o, byte_ok o -> Forall (fun b => is_digit b = true \/ b = 46) (show_dec o)) as Ho.
  { intros o Ho. eapply Forall_impl; [by apply octet_bytes_digit|]. auto. }
  rewrite !Forall_app, !Forall_singleton. auto 10.
Qed.

(** An endpoint is read back from its text as a bare authority, with its span. *)
Lemma parse_authority_show e l :
  endpoint_ok e -> sa_port e <> 0 -> (forall b l', l = b :: l' -> authority_end b = true) ->
  parse_authority (show_endpoint e ++ l) true =
  Some {| endpoint := e; au_offset := 0; au_len := length (show_endpoint e) |}.
Proof.
  intros [Hi Hp] Hz Hl. destruct (parse_show_port _ Hp) as [Hpp Hpd].
  assert (forall b, is_digit b = true \/ b = 46 \/ b = 58 -> authority_end b = false) as Hend.
  { intros b Hb. unfold authority_end, matches, TAB, CR, is_digit in *. cbn. lia. }
  assert (Forall (fun b => authority_end b = false) (show_endpoint e)) as Hall.
  { unfold show_endpoint. rewrite !Forall_app, Forall_singleton. split_and!.
    - eapply Forall_impl; [apply show_ipv4_chars|]. cbn. naive_solver.
    - auto.
    - eapply Forall_impl; [exact Hpd|]. cbn. auto. }
  assert (default (length (show_endpoint e ++ l)) (position authority_end (show_endpoint e ++ l)) =
          length (show_endpoint e)) as Hlen.
  { rewrite position_app_none by done. destruct l as [|b l]; cbn; [by rewrite app_nil_r|].
    rewrite (Hl b l eq_refl). cbn. lia. }
  unfold parse_authority. cbn [mbind option_bind]. rewrite Hlen, take_app_length.
  assert (rposition (Z.eqb 58) (show_endpoint e) = Some (length (show_ipv4 (sa_ip e)))) as ->.
  { apply rposition_last; [done|]. eapply Forall_impl; [exact Hpd|]. intros b Hb. unfold is_digit in Hb. lia. }
  assert (drop (S (length (show_ipv4 (sa_ip e)))) (show_endpoint e) = show_dec (sa_port e)) as ->.
  { unfold show_endpoint. rewrite app_assoc. apply drop_app_length'. len. }
  rewrite Hpp. cbn [mbind option_bind]. destruct (Z.eqb_spec (sa_port e) 0); [done|]. cbn [mbind option_bind].
  assert (take (length (show_ipv4 (sa_ip e))) (show_endpoint e) = show_ipv4 (sa_ip e)) as ->
    by (unfold show_endpoint; apply take_app_length).
  rewrite parse_show_ipv4 by done. by destruct e.
Qed.
