(* ===== verification/Framing.v ===== *)
(** The streaming HTTP/1.1 framer of the DIAL proxy ([src/net/http/framing.rs]):
    header scan and rewrite, the body state machine with its content-length,
    chunked and close-delimited phases, and what it promises per feed. *)

From S2P Require Import Prelude Text Addr Http.

Local Open Scope Z_scope.

Definition CRLF : bytes := [13; 10].
Definition HEADER_TERMINATOR : bytes := [13; 10; 13; 10].
Definition MAX_HEADER : nat := Z.to_nat 2048.
Definition MAX_CHUNK_LINE : nat := 256.
Definition MAX_TRAILER_LINE : nat := Z.to_nat 1024.

Inductive Kind : Type := Request | Response.
Inductive Phase : Type :=
  | Header
  | BodyContentLength
  | BodyChunked
  | BodyChunkedTrailers
  | BodyCloseDelimited.
Global Instance Phase_eq_dec : EqDecision Phase.
Proof. solve_decision. Defined.

Inductive FramingError : Type :=
  | UnsupportedMethod
  | HeaderTooLong
  | MalformedContentLength
  | ConflictingContentLength
  | ContentLengthWithChunked
  | MalformedChunkSize
  | ChunkSizeTooLarge
  | ChunkLineTooLong
  | TrailerLineTooLong.
Global Instance FramingError_eq_dec : EqDecision FramingError.
Proof. solve_decision. Defined.

Inductive AuthorityHeader : Type :=
  | Host (e : SocketAddrV4)
  | ApplicationUrl (e : SocketAddrV4)
  | Location (e : SocketAddrV4).

Record RewritePolicy : Type := {
  rp_host : option SocketAddrV4;
  rp_application_url : option SocketAddrV4;
  rp_location : option SocketAddrV4;
}.

(** [RewritePolicy::target] *)
Definition target (p : RewritePolicy) (h : AuthorityHeader) : option SocketAddrV4 :=
  match h with
  | Host _ => rp_host p
  | ApplicationUrl _ => rp_application_url p
  | Location _ => rp_location p
  end.

Record HttpFraming : Type := {
  fr_kind : Kind;
  fr_rewrite : RewritePolicy;
  fr_phase : Phase;
  fr_header : bytes;
  body_remaining : Z;
  chunk_remaining : Z;
}.

Definition framing_new (kind : Kind) (rewrite : RewritePolicy) : HttpFraming :=
  {| fr_kind := kind; fr_rewrite := rewrite; fr_phase := Header; fr_header := [];
     body_remaining := 0; chunk_remaining := 0 |}.

(** One feed's output. *)
Record Framed : Type := {
  fd_header : bytes;
  fd_body : bytes;
  fd_consumed : nat;
  fd_application_url : option SocketAddrV4;
}.

(** [windows(n).position(|w| w == pat)] *)
Fixpoint find_window (pat l : bytes) : option nat :=
  if bool_decide (take (length pat) l = pat) then Some 0%nat
  else match l with [] => None | _ :: l' => S <$> find_window pat l' end.

Definition find_header_end (input : bytes) : option nat :=
  (fun i => (i + length HEADER_TERMINATOR)%nat) <$> find_window HEADER_TERMINATOR input.
Definition find_crlf (s : bytes) : option nat := find_window CRLF s.

(** [parse_chunk_size] *)
Definition parse_chunk_size (line : bytes) : res FramingError Z :=
  let hex := match position (Z.eqb 59) line with Some semi => take semi line | None => line end in
  let hex := trim hex in
  match hex with
  | b :: _ => if is_hexdigit b then ok_or (parse_uint 16 usize_limit hex) MalformedChunkSize
              else Err MalformedChunkSize
  | [] => Err MalformedChunkSize
  end.

(** [parse_status_code]: 0 when unparseable. *)
Definition parse_status_code (line : bytes) : Z :=
  default 0 (field ← split_on (Z.eqb 32) line !! 1%nat; parse_u16 field).

(** [parse_content_length] *)
Definition parse_content_length (value : bytes) : res FramingError Z :=
  let digits := trim value in
  match digits with
  | b :: _ => if is_digit b then ok_or (parse_uint 10 usize_limit digits) MalformedContentLength
              else Err MalformedContentLength
  | [] => Err MalformedContentLength
  end.

(** [value_has_chunked] *)
Definition value_has_chunked (value : bytes) : bool :=
  existsb (fun coding => eq_ic (trim coding) (bs "chunked")) (split_on (Z.eqb 44) value).

(** [rewritable_authority]: the value's offset, the authority in it, the header. *)
Definition rewritable_authority (line : bytes) (kind : Kind)
  : option (nat * Authority * AuthorityHeader) :=
  '(value, bare, wrap) ←
    match kind with
    | Request => value ← strip_prefix_ic line (bs "Host:"); Some (value, true, Host)
    | Response =>
        match strip_prefix_ic line (bs "Application-URL:") with
        | Some rest => Some (rest, false, ApplicationUrl)
        | None => rest ← strip_prefix_ic line (bs "Location:"); Some (rest, false, Location)
        end
    end;
  let trimmed := trim_start value in
  let value_off := (length line - length trimmed)%nat in
  found ← parse_authority trimmed bare;
  Some (value_off, found, wrap (endpoint found)).

(** [append_authority] *)
Definition append_authority (addr : SocketAddrV4) : bytes := show_endpoint addr.

(** What [inspect_and_emit] threads through the lines. *)
Record Scan : Type := {
  sc_out : bytes;
  sc_content_length : option Z;
  sc_chunked : bool;
  sc_application_url : option SocketAddrV4;
  sc_status : Z;
}.

(** [copy_line] *)
Definition copy_line (s : Scan) (line : bytes) : Scan :=
  {| sc_out := sc_out s ++ line ++ CRLF; sc_content_length := sc_content_length s;
     sc_chunked := sc_chunked s; sc_application_url := sc_application_url s; sc_status := sc_status s |}.
Definition set_content_length (s : Scan) (n : Z) : Scan :=
  {| sc_out := sc_out s; sc_content_length := Some n; sc_chunked := sc_chunked s;
     sc_application_url := sc_application_url s; sc_status := sc_status s |}.
Definition or_chunked (s : Scan) (b : bool) : Scan :=
  {| sc_out := sc_out s; sc_content_length := sc_content_length s; sc_chunked := sc_chunked s || b;
     sc_application_url := sc_application_url s; sc_status := sc_status s |}.
Definition emit (s : Scan) (out : bytes) : Scan :=
  {| sc_out := sc_out s ++ out; sc_content_length := sc_content_length s; sc_chunked := sc_chunked s;
     sc_application_url := sc_application_url s; sc_status := sc_status s |}.
(** [application_url.get_or_insert(ep)] *)
Definition note_application_url (s : Scan) (ep : SocketAddrV4) : Scan :=
  {| sc_out := sc_out s; sc_content_length := sc_content_length s; sc_chunked := sc_chunked s;
     sc_application_url := match sc_application_url s with Some e => Some e | None => Some ep end;
     sc_status := sc_status s |}.
Definition set_status (s : Scan) (status : Z) : Scan :=
  {| sc_out := sc_out s; sc_content_length := sc_content_length s; sc_chunked := sc_chunked s;
     sc_application_url := sc_application_url s; sc_status := status |}.

(** [inspect_and_emit] *)
Definition inspect_and_emit (f : HttpFraming) (s : Scan) (line : bytes)
  : res FramingError (Scan * option AuthorityHeader) :=
  match strip_prefix_ic line (bs "Content-Length:") with
  | Some value =>
      n ← parse_content_length value;
      if match sc_content_length s with Some prev => negb (prev =? n) | None => false end
      then Err ConflictingContentLength
      else Ok (copy_line (set_content_length s n) line, None)
  | None =>
      match strip_prefix_ic line (bs "Transfer-Encoding:") with
      | Some value => Ok (copy_line (or_chunked s (value_has_chunked value)) line, None)
      | None =>
          match rewritable_authority line (fr_kind f) with
          | Some (value_off, found, header) =>
              s ← match target (fr_rewrite f) header with
                  | Some repl =>
                      let auth_start := (value_off + au_offset found)%nat in
                      before ← range line 0 auth_start;
                      after ← range_from line (auth_start + au_len found);
                      Ok (emit s (before ++ append_authority repl ++ after ++ CRLF))
                  | None => Ok (copy_line s line)
                  end;
              Ok (s, Some header)
          | None => Ok (copy_line s line, None)
          end
      end
  end.

(** One line of the scan: the first is the request or status line. *)
Definition scan_line (f : HttpFraming) (first : bool) (s : Scan) (line : bytes) : res FramingError Scan :=
  if first then
    match fr_kind f with
    | Response => Ok (copy_line (set_status s (parse_status_code line)) line)
    | Request =>
        if bool_decide (is_Some (strip_prefix_by Z.eqb (bs "HEAD ") line)) then Err UnsupportedMethod
        else Ok (copy_line s line)
    end
  else
    '(s, header) ← inspect_and_emit f s line;
    Ok (match header with Some (ApplicationUrl ep) => note_application_url s ep | _ => s end).

(** The loop of [scan_and_rewrite_header]; each turn consumes a line and its
    CRLF, so the block's length is fuel enough. *)
Fixpoint scan_lines (fuel : nat) (f : HttpFraming) (block : bytes) (pos : nat) (first : bool) (s : Scan)
  : res FramingError Scan :=
  if (length block <=? pos)%nat then Ok s
  else match fuel with
       | O => Panic
       | S fuel =>
           rest ← range_from block pos;
           let line_end := match find_crlf rest with Some i => (pos + i)%nat | None => length block end in
           line ← range block pos line_end;
           s ← scan_line f first s line;
           scan_lines fuel f block (line_end + length CRLF) false s
       end.

Definition scan_start : Scan :=
  {| sc_out := []; sc_content_length := None; sc_chunked := false; sc_application_url := None; sc_status := 0 |}.

(** [set_body_phase]: the phase and the content length to count down. *)
Definition body_phase (kind : Kind) (status : Z) (content_length : option Z) (chunked : bool) : Phase * Z :=
  let bodyless_status :=
    match kind with
    | Response => ((100 <=? status) && (status <=? 199)) || (status =? 204) || (status =? 304)
    | Request => false
    end in
  if bodyless_status then (Header, 0)
  else if chunked then (BodyChunked, 0)
  else match content_length with
       | Some n => if n =? 0 then (Header, 0) else (BodyContentLength, n)
       | None => match kind with Request => (Header, 0) | Response => (BodyCloseDelimited, 0) end
       end.

(** [scan_and_rewrite_header] *)
Definition scan_and_rewrite_header (f : HttpFraming) (block : bytes)
  : res FramingError (HttpFraming * option SocketAddrV4) :=
  s ← scan_lines (length block) f block 0 true scan_start;
  if bool_decide (is_Some (sc_content_length s)) && sc_chunked s then Err ContentLengthWithChunked
  else
    let '(phase, remaining) := body_phase (fr_kind f) (sc_status s) (sc_content_length s) (sc_chunked s) in
    Ok ({| fr_kind := fr_kind f; fr_rewrite := fr_rewrite f; fr_phase := phase; fr_header := sc_out s;
           body_remaining := remaining; chunk_remaining := 0 |}, sc_application_url s).

(** The empty lines before a message. *)
Fixpoint skip_crlf (l : bytes) : nat :=
  match l with
  | 13 :: 10 :: l' => S (S (skip_crlf l'))
  | _ => 0%nat
  end.

Definition with_phase (f : HttpFraming) (p : Phase) (body chunk : Z) : HttpFraming :=
  {| fr_kind := fr_kind f; fr_rewrite := fr_rewrite f; fr_phase := p; fr_header := fr_header f;
     body_remaining := body; chunk_remaining := chunk |}.

(** One turn of the body loop: the state and position, and whether to go on. *)
Definition body_turn (f : HttpFraming) (input : bytes) (pos : nat)
  : res FramingError (HttpFraming * nat * bool) :=
  let left := (length input - pos)%nat in
  match fr_phase f with
  | Header => Ok (f, pos, false)
  | BodyContentLength =>
      let take := Z.min (body_remaining f) (Z.of_nat left) in
      let remaining := body_remaining f - take in
      Ok (with_phase f (if remaining =? 0 then Header else BodyContentLength) remaining (chunk_remaining f),
          (pos + Z.to_nat take)%nat, false)
  | BodyCloseDelimited => Ok (f, length input, false)
  | BodyChunked =>
      if 0 <? chunk_remaining f then
        let take := Z.min (chunk_remaining f) (Z.of_nat left) in
        let remaining := chunk_remaining f - take in
        Ok (with_phase f BodyChunked (body_remaining f) remaining, (pos + Z.to_nat take)%nat, negb (0 <? remaining))
      else
        rest ← range_from input pos;
        match find_crlf rest with
        | None => if (MAX_CHUNK_LINE <? left)%nat then Err ChunkLineTooLong else Ok (f, pos, false)
        | Some rel =>
            line ← range input pos (pos + rel);
            size ← parse_chunk_size line;
            let pos := (pos + rel + length CRLF)%nat in
            if size =? 0 then Ok (with_phase f BodyChunkedTrailers (body_remaining f) (chunk_remaining f), pos, true)
            else
              (* the chunk's data and its CRLF: [checked_add] *)
              let total := size + 2 in
              if total <? usize_limit then Ok (with_phase f BodyChunked (body_remaining f) total, pos, true)
              else Err ChunkSizeTooLarge
        end
  | BodyChunkedTrailers =>
      rest ← range_from input pos;
      match find_crlf rest with
      | None => if (MAX_TRAILER_LINE <? left)%nat then Err TrailerLineTooLong else Ok (f, pos, false)
      | Some rel =>
          Ok (if (rel =? 0)%nat then with_phase f Header (body_remaining f) (chunk_remaining f) else f,
              (pos + rel + length CRLF)%nat, true)
      end
  end.

(** The body loop; each turn that goes on consumes a byte. *)
Fixpoint body_loop (fuel : nat) (f : HttpFraming) (input : bytes) (pos : nat)
  : res FramingError (HttpFraming * nat) :=
  if (length input <=? pos)%nat then Ok (f, pos)
  else match fuel with
       | O => Panic
       | S fuel =>
           '(f, pos, go) ← body_turn f input pos;
           if go : bool then body_loop fuel f input pos else Ok (f, pos)
       end.

(** [feed] *)
Definition feed (f : HttpFraming) (input : bytes) : res FramingError (Framed * HttpFraming) :=
  (* [None]: the header is still incomplete *)
  head ←
    match fr_phase f with
    | Header =>
        let pos := skip_crlf input in
        rest ← range_from input pos;
        match find_header_end rest with
        | None => if (MAX_HEADER <? length rest)%nat then Err HeaderTooLong else Ok None
        | Some end_ =>
            if (MAX_HEADER <? end_)%nat then Err HeaderTooLong
            else
              block ← range rest 0 end_;
              '(f, url) ← scan_and_rewrite_header f block;
              Ok (Some (f, (pos + end_)%nat, true, url))
        end
    | _ => Ok (Some (f, 0%nat, false, None))
    end;
  match head with
  | None => Ok ({| fd_header := []; fd_body := []; fd_consumed := 0; fd_application_url := None |}, f)
  | Some (f, pos, header_complete, url) =>
      let body_start := pos in
      '(f, pos) ← body_loop (S (length input)) f input pos;
      body ← range input body_start pos;
      Ok ({| fd_header := if header_complete : bool then fr_header f else [];
             fd_body := body; fd_consumed := pos; fd_application_url := url |}, f)
  end.
