(* ===== verification/FramingSpec.v ===== *)
(** What the framer promises ([src/net/http/framing.rs]): it never panics or
    loops, makes progress on a full buffer, refuses ambiguous framing, and its
    body output does not depend on how the stream was cut into reads. *)

From S2P Require Import Prelude Text Addr Http Framing.

Local Open Scope Z_scope.

(** ** Windows *)

Lemma find_window_Some pat l i :
  find_window pat l = Some i ->
  take (length pat) (drop i l) = pat /\ (i + length pat <= length l)%nat.
Proof.
  revert i. induction l as [|x l IH]; intros i; cbn -[take]; case_bool_decide as Hp.
  - intros [= <-]. rewrite drop_0. split; [done|]. apply (f_equal length) in Hp.
    rewrite length_take in Hp. cbn in *. lia.
  - done.
  - intros [= <-]. rewrite drop_0. split; [done|]. apply (f_equal length) in Hp.
    rewrite length_take in Hp. cbn in *. lia.
  - intros (j&Hj&->)%fmap_Some. destruct (IH j Hj) as [? ?]. split; [done|cbn; lia].
Qed.

Lemma find_window_app pat l r i : find_window pat l = Some i -> find_window pat (l ++ r) = Some i.
Proof.
  revert i. induction l as [|x l IH]; intros i Hi.
  - cbn in Hi. rewrite take_nil in Hi. case_bool_decide as Hp; [|done]. subst pat. injection Hi as <-.
    by destruct r.
  - destruct (find_window_Some _ _ _ Hi) as [_ Hl].
    assert (take (length pat) (x :: l ++ r) = take (length pat) (x :: l)) as Hpre
      by (rewrite app_comm_cons, take_app_le; [done|lia]).
    cbn [find_window app] in Hi |- *. rewrite Hpre. case_bool_decide; [done|].
    apply fmap_Some in Hi as (j&Hj&->). by rewrite (IH j Hj).
Qed.

Lemma find_crlf_Some s i : find_crlf s = Some i -> (i + 2 <= length s)%nat /\ take 2 (drop i s) = CRLF.
Proof. intros H%find_window_Some. cbn [length CRLF] in H. naive_solver. Qed.

(** ** Invariant *)

Record framing_wf (f : HttpFraming) : Prop := {
  fw_body : fr_phase f = BodyContentLength -> 0 < body_remaining f;
  fw_chunk : 0 <= chunk_remaining f;
}.

Lemma framing_new_wf k p : framing_wf (framing_new k p).
Proof. split; cbn; [done|lia]. Qed.

(** ** The body loop *)

(** A turn looks only at what is left. *)
Lemma body_turn_drop f input pos :
  (pos <= length input)%nat ->
  body_turn f input pos =
  ('(f', p, go) ← body_turn f (drop pos input) 0; Ok (f', (pos + p)%nat, go)).
Proof.
  intros Hp. unfold body_turn. rewrite length_drop, Nat.sub_0_r.
  unfold range_from, get_from. rewrite !decide_True by lia. rewrite drop_0.
  assert (forall a, find_crlf (drop pos input) = Some a ->
    range (E:=FramingError) input pos (pos + a) = range (drop pos input) 0 (0 + a)) as Hr.
  { intros a Ha. apply find_crlf_Some in Ha as [Ha _]. rewrite length_drop in Ha.
    rewrite !range_ok by len. rewrite drop_0. do 2 f_equal. lia. }
  cbn [expect]. destruct (fr_phase f).
  - rewrite bind_ret. by rewrite Nat.add_0_r.
  - rewrite bind_ret. done.
  - destruct (0 <? chunk_remaining f); [by rewrite bind_ret|]. rewrite !bind_ret.
    destruct (find_crlf _) as [rel|] eqn:E.
    + rewrite (Hr rel eq_refl). destruct (range _ _ _); [|done..]. rewrite !bind_ret.
      destruct (parse_chunk_size _); [|done..]. rewrite !bind_ret.
      destruct (_ =? 0); [rewrite bind_ret; do 3 f_equal; lia|].
      destruct (_ <? _); [rewrite bind_ret; do 3 f_equal; lia|done].
    + destruct (_ <? _)%nat; [done|]. rewrite bind_ret. do 3 f_equal. lia.
  - rewrite !bind_ret. destruct (find_crlf _) as [rel|] eqn:E.
    + rewrite bind_ret. do 3 f_equal. lia.
    + destruct (_ <? _)%nat; [done|]. rewrite bind_ret. do 3 f_equal. lia.
  - rewrite bind_ret. do 3 f_equal. lia.
Qed.

Lemma parse_chunk_size_ok line :
  match parse_chunk_size line with Ok n => 0 <= n < usize_limit | Err _ => True | Panic => False end.
Proof.
  unfold parse_chunk_size. destruct (trim _) as [|b l]; [done|]. destruct (is_hexdigit b); [|done].
  destruct (parse_uint 16 usize_limit (b :: l)) as [n|] eqn:E; [|done]. cbn.
  assert (forall l acc n, 0 <= acc < usize_limit -> digits_val 16 usize_limit acc l = Some n -> 0 <= n < usize_limit) as Hd.
  { clear. induction l as [|c l IH]; intros acc n Ha H; cbn in H; [by injection H as <-|].
    apply bind_Some in H as (d&Hd&H). destruct (Z.ltb_spec (acc * 16 + d) usize_limit) as [Hlt|]; [|done].
    apply (IH (acc * 16 + d)); [|done]. unfold digit_val in Hd. apply bind_Some in Hd as (v&Hv&Hd).
    destruct (_ <? _); [|done]. injection Hd as <-. unfold is_digit, is_lower, is_upper in Hv.
    repeat case_match; try done; injection Hv as <-; lia. }
  unfold parse_uint in E. repeat case_match; try done;
    (eapply Hd; [|exact E]; unfold usize_limit; lia).
Qed.

Ltac turn_ok := split_and!; try done; try lia; try (split; cbn; try congruence; lia).

Lemma body_turn_ok f rest :
  framing_wf f -> rest <> [] ->
  match body_turn f rest 0 with
  | Ok (f', p, go) => framing_wf f' /\ (p <= length rest)%nat /\ (go = true -> (0 < p)%nat) /\
                      (p = 0%nat -> f' = f) /\ fr_kind f' = fr_kind f /\ fr_header f' = fr_header f
  | Err _ => True
  | Panic => False
  end.
Proof.
  intros [Hb Hc] Hne. assert (0 < length rest)%nat as Hl by (destruct rest; [done|cbn; lia]).
  unfold body_turn. rewrite Nat.sub_0_r. unfold range_from, get_from. rewrite decide_True, drop_0 by lia.
  cbn [expect]. destruct (fr_phase f) eqn:Ep.
  - turn_ok.
  - specialize (Hb eq_refl).
    set (t := Z.min (body_remaining f) (Z.of_nat (length rest))).
    turn_ok. split; cbn; [|done]. destruct (Z.eqb_spec (body_remaining f - t) 0); [done|]. lia.
  - destruct (Z.ltb_spec 0 (chunk_remaining f)); [turn_ok|].
    rewrite bind_ret. destruct (find_crlf rest) as [rel|] eqn:E.
    + apply find_crlf_Some in E as [E _]. rewrite range_ok, bind_ret by lia.
      pose proof (parse_chunk_size_ok (take (0 + rel - 0) (drop 0 rest))) as Hs.
      destruct (parse_chunk_size _) as [size| |]; [|done..]. rewrite bind_ret. cbn [length CRLF].
      destruct (Z.eqb_spec size 0); [turn_ok|]. destruct (_ <? usize_limit); [turn_ok|done].
    + destruct (_ <? _)%nat; [done|]. turn_ok.
  - rewrite bind_ret. destruct (find_crlf rest) as [rel|] eqn:E.
    + apply find_crlf_Some in E as [E _]. cbn [length CRLF]. destruct (rel =? 0)%nat; turn_ok.
    + destruct (_ <? _)%nat; [done|]. turn_ok.
  - turn_ok.
Qed.

Lemma body_loop_ok fuel f input pos :
  framing_wf f -> (pos <= length input)%nat -> (length input - pos < fuel)%nat ->
  match body_loop fuel f input pos with
  | Ok (f', p) => framing_wf f' /\ (pos <= p <= length input)%nat /\ (p = pos -> f' = f) /\
                  fr_kind f' = fr_kind f /\ fr_header f' = fr_header f
  | Err _ => True
  | Panic => False
  end.
Proof.
  revert f pos. induction fuel as [|fuel IH]; intros f pos Hf Hp Hfuel; [lia|]. cbn [body_loop].
  destruct (Nat.leb_spec (length input) pos); [split_and!; done || lia|].
  rewrite body_turn_drop by lia.
  pose proof (body_turn_ok f (drop pos input) Hf) as Ht.
  destruct (body_turn _ _ _) as [[[f' p] go]| |]; [|done|apply Ht; intros E; apply (f_equal length) in E; rewrite length_drop in E; cbn in E; lia].
  rewrite !bind_ret. rewrite length_drop in Ht.
  destruct Ht as (Hf'&Hp'&Hgo&H0&Hk&Hh); [intros E; apply (f_equal length) in E; rewrite length_drop in E; cbn in E; lia|].
  destruct go.
  - specialize (Hgo eq_refl). specialize (IH f' (pos + p)%nat Hf' ltac:(lia) ltac:(lia)).
    destruct (body_loop _ _ _ _) as [[f'' p']| |]; [|done..].
    destruct IH as (?&?&_&?&?). split_and!; try done; try lia; congruence.
  - split_and!; try done; try lia. intros. apply H0. lia.
Qed.

(** ** The header scan *)

(** The lines of a block, without their CRLFs. *)
Fixpoint header_lines (fuel : nat) (l : bytes) : list bytes :=
  match l, fuel with
  | [], _ | _, O => []
  | _, S fuel => match find_crlf l with
                 | Some i => take i l :: header_lines fuel (drop (i + 2) l)
                 | None => [l]
                 end
  end.

Fixpoint scan_all (f : HttpFraming) (first : bool) (lines : list bytes) (s : Scan) : res FramingError Scan :=
  match lines with
  | [] => Ok s
  | line :: lines => s ← scan_line f first s line; scan_all f false lines s
  end.

Lemma scan_lines_all fuel f block pos first s :
  (length block - pos <= fuel)%nat ->
  scan_lines fuel f block pos first s = scan_all f first (header_lines fuel (drop pos block)) s.
Proof.
  revert pos first s. induction fuel as [|fuel IH]; intros pos first s Hf.
  - cbn. destruct (Nat.leb_spec (length block) pos); [|lia]. by rewrite drop_ge by lia.
  - cbn [scan_lines]. destruct (Nat.leb_spec (length block) pos) as [Hle|Hlt].
    { by rewrite drop_ge by lia. }
    unfold range_from, get_from. rewrite decide_True by lia. cbn [expect]. rewrite bind_ret.
    destruct (drop pos block) as [|x l] eqn:El.
    { apply (f_equal length) in El. rewrite length_drop in El. cbn in El. lia. }
    cbn [header_lines]. rewrite <- El. pose proof (length_drop block pos) as Hd.
    destruct (find_crlf (drop pos block)) as [i|] eqn:E.
    + apply find_crlf_Some in E as [E _]. rewrite range_ok, bind_ret by lia. cbn [scan_all length CRLF].
      replace (pos + i - pos)%nat with i by lia.
      destruct (scan_line f first s (take i (drop pos block))) as [s'| |]; [|done..].
      rewrite !bind_ret, IH by lia. by rewrite drop_drop, Nat.add_assoc.
    + rewrite range_ok, bind_ret by lia. cbn [scan_all length CRLF].
      rewrite take_ge by lia.
      destruct (scan_line f first s (drop pos block)) as [s'| |]; [|done..].
      rewrite !bind_ret, IH by lia. rewrite drop_ge by lia. by destruct fuel.
Qed.

(** What leaves for a line: the authority replaced where the policy says, and
    nothing else touched. *)
Definition rewritten (f : HttpFraming) (line : bytes) : bytes :=
  if bool_decide (is_Some (strip_prefix_ic line (bs "Content-Length:")) \/
                  is_Some (strip_prefix_ic line (bs "Transfer-Encoding:"))) then line
  else match rewritable_authority line (fr_kind f) with
       | Some (off, found, h) =>
           match target (fr_rewrite f) h with
           | Some repl => take (off + au_offset found) line ++ show_endpoint repl ++
                          drop (off + au_offset found + au_len found) line
           | None => line
           end
       | None => line
       end.

Lemma rewritable_span line kind off found h :
  rewritable_authority line kind = Some (off, found, h) ->
  (off + au_offset found + au_len found <= length line)%nat.
Proof.
  unfold rewritable_authority. intros H. apply bind_Some in H as ([[value bare] wrap]&Hv&H).
  apply bind_Some in H as (a&Ha&[= <- <- _]). apply parse_authority_span in Ha as [Ha _].
  pose proof (length_trim_start value). assert (length value <= length line)%nat; [|lia].
  destruct kind.
  - apply bind_Some in Hv as (v&Hv&[= <- _ _]). apply strip_prefix_ic_Some in Hv as [_ Hv]. lia.
  - destruct (strip_prefix_ic line (bs "Application-URL:")) eqn:E.
    + injection Hv as <- _ _. apply strip_prefix_ic_Some in E as [_ E]. lia.
    + apply bind_Some in Hv as (v&Hv&[= <- _ _]). apply strip_prefix_ic_Some in Hv as [_ Hv]. lia.
Qed.

Lemma parse_content_length_safe v : safe (parse_content_length v).
Proof. unfold parse_content_length. repeat case_match; auto using safe_Err, safe_ok_or. Qed.

(** One header line after the first. *)
Lemma inspect_spec f s line :
  match inspect_and_emit f s line with
  | Ok (s', h) =>
      sc_out s' = sc_out s ++ rewritten f line ++ CRLF /\ sc_status s' = sc_status s /\
      sc_application_url s' = sc_application_url s /\
      match strip_prefix_ic line (bs "Content-Length:") with
      | Some v => exists n, parse_content_length v = Ok n /\ sc_content_length s' = Some n /\
                  sc_chunked s' = sc_chunked s /\ (forall n', sc_content_length s = Some n' -> n' = n)
      | None => sc_content_length s' = sc_content_length s /\
          sc_chunked s' = match strip_prefix_ic line (bs "Transfer-Encoding:") with
                          | Some v => sc_chunked s || value_has_chunked v
                          | None => sc_chunked s
                          end
      end
  | Err _ => True
  | Panic => False
  end.
Proof.
  unfold inspect_and_emit, rewritten.
  destruct (strip_prefix_ic line (bs "Content-Length:")) as [v|] eqn:E1.
  - rewrite bool_decide_true by (left; done).
    pose proof (parse_content_length_safe v) as Hs. destruct (parse_content_length v) as [n| |]; [|done..].
    rewrite bind_ret. destruct (sc_content_length s) as [prev|] eqn:Ec.
    + destruct (Z.eqb_spec prev n); [|done]. cbn. split_and!; try done. exists n. split_and!; try done. naive_solver.
    + cbn. split_and!; try done. exists n. split_and!; done.
  - destruct (strip_prefix_ic line (bs "Transfer-Encoding:")) as [v|] eqn:E2.
    + rewrite bool_decide_true by (right; done). cbn. done.
    + rewrite bool_decide_false by (intros [[? ?]|[? ?]]; done).
      destruct (rewritable_authority line (fr_kind f)) as [[[off found] h]|] eqn:E3; [|by cbn].
      apply rewritable_span in E3. destruct (target (fr_rewrite f) h) as [repl|]; [|by cbn].
      rewrite range_ok, bind_ret by lia. unfold range_from, get_from. rewrite decide_True by lia.
      cbn [expect]. rewrite !bind_ret. cbn. rewrite Nat.sub_0_r, drop_0.
      rewrite <- !app_assoc. done.
Qed.

(** All of them. *)
Lemma scan_all_spec f lines s :
  match scan_all f false lines s with
  | Ok s' =>
      sc_out s' = sc_out s ++ concat ((fun l => rewritten f l ++ CRLF) <$> lines) /\
      sc_status s' = sc_status s /\
      (forall line v, line ∈ lines -> strip_prefix_ic line (bs "Content-Length:") = Some v ->
         exists n, parse_content_length v = Ok n /\ sc_content_length s' = Some n) /\
      (forall n, sc_content_length s = Some n -> sc_content_length s' = Some n) /\
      (sc_content_length s' <> sc_content_length s ->
         exists line, line ∈ lines /\ is_Some (strip_prefix_ic line (bs "Content-Length:"))) /\
      (sc_chunked s' = true <-> sc_chunked s = true \/
         exists line v, line ∈ lines /\ strip_prefix_ic line (bs "Content-Length:") = None /\
           strip_prefix_ic line (bs "Transfer-Encoding:") = Some v /\ value_has_chunked v = true)
  | Err _ => True
  | Panic => False
  end.
Proof.
  revert s. induction lines as [|line lines IH]; intros s; cbn [scan_all].
  - rewrite app_nil_r. split_and!; try done.
    + by intros ? ? ?%not_elem_of_nil.
    + split; [auto|]. intros [?|(?&?&?%not_elem_of_nil&_)]; done.
  - unfold scan_line. pose proof (inspect_spec f s line) as Hl.
    destruct (inspect_and_emit f s line) as [[s1 h]| |]; [|done..]. rewrite !bind_ret.
    set (s2 := match h with Some (ApplicationUrl ep) => note_application_url s1 ep | _ => s1 end).
    assert (sc_out s2 = sc_out s1 /\ sc_status s2 = sc_status s1 /\ sc_content_length s2 = sc_content_length s1 /\
      sc_chunked s2 = sc_chunked s1) as (E1&E2&E3&E4) by (subst s2; destruct h as [[]|]; repeat split).
    specialize (IH s2). destruct (scan_all f false lines s2) as [s'| |]; [|done..].
    rewrite E1, E2, E3, E4 in IH. destruct IH as (Ho&Hst&Hcl&Hkeep&Hnew&Hch).
    destruct Hl as (Lo&Lst&_&Lm).
    split_and!.
    + rewrite Ho, Lo. cbn. by rewrite <- !app_assoc.
    + congruence.
    + intros l v. rewrite elem_of_cons. intros [->|Hin] Hv; [|by eapply Hcl].
      rewrite Hv in Lm. destruct Lm as (n&Hn&Hc&_). exists n. split; [done|]. by apply Hkeep.
    + intros n Hn. apply Hkeep. destruct (strip_prefix_ic line (bs "Content-Length:")) as [v|].
      * destruct Lm as (n'&_&Hc&_&Heq). by rewrite (Heq n Hn).
      * destruct Lm as [-> _]. done.
    + intros Hne. destruct (strip_prefix_ic line (bs "Content-Length:")) as [v|] eqn:Ev.
      * exists line. rewrite Ev. split; [apply list_elem_of_here|done].
      * destruct Lm as [Lc _]. rewrite Lc in *. destruct (Hnew Hne) as (l&Hin&?).
        exists l. split; [by apply list_elem_of_further|done].
    + rewrite Hch. clear Hch Hnew Hkeep Hcl Hst Ho. destruct (strip_prefix_ic line (bs "Content-Length:")) as [v|] eqn:Ev.
      * destruct Lm as (n&_&_&->&_). split.
        -- intros [?|(l&v'&?&?&?&?)]; [by left|]. right. exists l, v'. rewrite elem_of_cons. auto.
        -- intros [?|(l&v'&Hin&?&?&?)]; [by left|]. right. rewrite elem_of_cons in Hin.
           destruct Hin as [->|Hin]; [congruence|]. eauto 6.
      * destruct Lm as [_ ->]. split.
        -- destruct (strip_prefix_ic line (bs "Transfer-Encoding:")) as [v|] eqn:Et.
           ++ rewrite orb_true_iff. intros [[?|?]|(l&v'&?&?&?&?)]; [by left| |].
              ** right. exists line, v. rewrite elem_of_cons. auto.
              ** right. exists l, v'. rewrite elem_of_cons. auto.
           ++ intros [?|(l&v'&?&?&?&?)]; [by left|]. right. exists l, v'. rewrite elem_of_cons. auto.
        -- intros [?|(l&v'&Hin&?&Ht&?)].
           ++ left. destruct (strip_prefix_ic line (bs "Transfer-Encoding:")); [|done]. by apply orb_true_iff; left.
           ++ rewrite elem_of_cons in Hin. destruct Hin as [->|Hin]; [|eauto 8].
              left. rewrite Ht. by apply orb_true_iff; right.
Qed.

Lemma scan_line_first f s line :
  match scan_line f true s line with
  | Ok s' => s' = copy_line (set_status s (match fr_kind f with Response => parse_status_code line | Request => sc_status s end)) line /\
             (fr_kind f = Request -> strip_prefix_by Z.eqb (bs "HEAD ") line = None)
  | Err _ => fr_kind f = Request
  | Panic => False
  end.
Proof.
  unfold scan_line. destruct (fr_kind f); [|done]. case_bool_decide as Hh; [done|].
  split; [by destruct s|]. intros _. destruct (strip_prefix_by _ _ _); [|done]. by destruct Hh.
Qed.

Lemma scan_header_ok f block :
  framing_wf f ->
  match scan_and_rewrite_header f block with
  | Ok (f', _) => framing_wf f' /\ fr_kind f' = fr_kind f
  | Err _ => True
  | Panic => False
  end.
Proof.
  intros Hf. unfold scan_and_rewrite_header. rewrite scan_lines_all by lia. rewrite drop_0.
  assert (match scan_all f true (header_lines (length block) block) scan_start with
          | Ok s => forall n, sc_content_length s = Some n -> 0 <= n | Err _ => True | Panic => False end) as Hs.
  { destruct (header_lines _ _) as [|line lines]; [done|]. cbn [scan_all].
    pose proof (scan_line_first f scan_start line) as H1. destruct (scan_line _ _ _ _) as [s1| |]; [|done..].
    rewrite bind_ret. destruct H1 as [-> _].
    pose proof (scan_all_spec f lines (copy_line (set_status scan_start
      (match fr_kind f with Response => parse_status_code line | Request => sc_status scan_start end)) line)) as Ha.
    destruct (scan_all _ _ _ _) as [s'| |]; [|done..]. destruct Ha as (_&_&Hcl&_&Hnew&_).
    intros n Hn. destruct Hnew as (l&Hin&v&Hv); [rewrite Hn; done|].
    destruct (Hcl l v Hin Hv) as (n'&Hp&Hn'). assert (n' = n) as -> by congruence.
    clear -Hp. unfold parse_content_length in Hp. destruct (trim v) as [|b t]; [done|].
    destruct (is_digit b); [|done]. apply ok_or_Ok in Hp. unfold parse_uint in Hp.
    assert (forall l acc, 0 <= acc -> digits_val 10 usize_limit acc l = Some n -> 0 <= n) as Hd.
    { clear. induction l as [|c l IH]; intros acc Ha H; cbn in H; [by injection H as <-|].
      apply bind_Some in H as (d&Hd&H). destruct (_ <? _); [|done]. apply (IH (acc * 10 + d)); [|done].
      unfold digit_val in Hd. apply bind_Some in Hd as (w&Hw&Hd). destruct (_ <? _); [|done]. injection Hd as <-.
      unfold is_digit, is_lower, is_upper in Hw. repeat case_match; try done; injection Hw as <-; lia. }
    repeat case_match; try done; (eapply Hd; [|exact Hp]; lia). }
  destruct (scan_all _ _ _ _) as [s| |]; [|done..]. rewrite bind_ret.
  destruct (_ && _); [done|]. destruct (body_phase _ _ _ _) as [ph rem] eqn:Ep. split; [|done].
  unfold body_phase in Ep. split; cbn; [|lia]. intros ->.
  repeat case_match; try done; injection Ep as <-; specialize (Hs _ eq_refl); lia.
Qed.

Lemma skip_crlf_le l : (skip_crlf l <= length l)%nat.
Proof.
  assert (forall n l, (length l <= n)%nat -> (skip_crlf l <= length l)%nat) as H; [|by eapply H].
  clear l. induction n as [|n IH]; intros l Hl; [destruct l; cbn in *; lia|].
  destruct l as [|a [|b l]]; cbn [skip_crlf length] in *; [lia|repeat case_match; lia|].
  specialize (IH l ltac:(lia)). repeat case_match; lia.
Qed.

Lemma find_header_end_Some rest e : find_header_end rest = Some e -> (4 <= e <= length rest)%nat.
Proof.
  unfold find_header_end. intros (i&Hi&->)%fmap_Some. apply find_window_Some in Hi as [_ Hi].
  cbn [length HEADER_TERMINATOR] in *. lia.
Qed.

(** What a feed's header stage does. *)
Lemma feed_header f input :
  framing_wf f -> fr_phase f = Header ->
  let rest := drop (skip_crlf input) input in
  feed f input =
  match find_header_end rest with
  | None => if (MAX_HEADER <? length rest)%nat then Err HeaderTooLong
            else Ok ({| fd_header := []; fd_body := []; fd_consumed := 0; fd_application_url := None |}, f)
  | Some e =>
      if (MAX_HEADER <? e)%nat then Err HeaderTooLong
      else
        '(f1, url) ← scan_and_rewrite_header f (take e rest);
        let start := (skip_crlf input + e)%nat in
        '(f2, pos) ← body_loop (S (length input)) f1 input start;
        body ← range input start pos;
        Ok ({| fd_header := fr_header f2; fd_body := body; fd_consumed := pos; fd_application_url := url |}, f2)
  end.
Proof.
  intros Hf Hp rest. unfold feed. rewrite Hp. unfold range_from, get_from.
  pose proof (skip_crlf_le input). rewrite decide_True by lia. cbn [expect]. rewrite bind_ret. fold rest.
  destruct (find_header_end rest) as [e|] eqn:E.
  - apply find_header_end_Some in E. destruct (_ <? _)%nat; [done|].
    rewrite range_ok, bind_ret by lia. rewrite drop_0, Nat.sub_0_r.
    destruct (scan_and_rewrite_header f (take e rest)) as [[f1 url]| |]; [|done..]. by rewrite !bind_ret.
  - destruct (_ <? _)%nat; [done|]. by rewrite bind_ret.
Qed.

Lemma feed_body f input :
  fr_phase f <> Header ->
  feed f input =
  ('(f2, pos) ← body_loop (S (length input)) f input 0;
   body ← range input 0 pos;
   Ok ({| fd_header := []; fd_body := body; fd_consumed := pos; fd_application_url := None |}, f2)).
Proof. intros Hp. unfold feed. destruct (fr_phase f) eqn:E; [done|..]; by rewrite bind_ret. Qed.

Lemma feed_spec f input :
  framing_wf f ->
  match feed f input with
  | Ok (out, f') =>
      framing_wf f' /\ fr_kind f' = fr_kind f /\ (fd_consumed out <= length input)%nat /\
      (exists start, (start <= fd_consumed out)%nat /\
         fd_body out = take (fd_consumed out - start) (drop start input) /\
         (fr_phase f <> Header -> start = 0%nat /\ fd_header out = [])) /\
      (fd_consumed out = 0%nat -> f' = f /\ fd_header out = [] /\ fd_body out = [])
  | Err _ => True
  | Panic => False
  end.
Proof.
  intros Hf. destruct (decide (fr_phase f = Header)) as [Hp|Hp].
  - rewrite feed_header by done. pose proof (skip_crlf_le input).
    set (rest := drop _ input). assert (length rest = length input - skip_crlf input)%nat as Hr
      by (subst rest; len).
    destruct (find_header_end rest) as [e|] eqn:E.
    + apply find_header_end_Some in E. destruct (_ <? _)%nat; [done|].
      pose proof (scan_header_ok f (take e rest) Hf) as Hs.
      destruct (scan_and_rewrite_header _ _) as [[f1 url]| |]; [|done..]. rewrite bind_ret.
      destruct Hs as [Hf1 Hk1]. cbv zeta.
      pose proof (body_loop_ok (S (length input)) f1 input (skip_crlf input + e) Hf1 ltac:(lia) ltac:(lia)) as Hb.
      destruct (body_loop _ _ _ _) as [[f2 pos]| |]; [|done..]. rewrite bind_ret.
      destruct Hb as (Hf2&Hpos&_&Hk2&_). rewrite range_ok, bind_ret by lia. cbn.
      split_and!; try done; try lia; [congruence|].
      exists (skip_crlf input + e)%nat. split_and!; try done; lia.
    + destruct (_ <? _)%nat; [done|]. cbn. split_and!; try done; [lia|].
      exists 0%nat. split_and!; try done.
  - rewrite feed_body by done.
    pose proof (body_loop_ok (S (length input)) f input 0 Hf ltac:(lia) ltac:(lia)) as Hb.
    destruct (body_loop _ _ _ _) as [[f2 pos]| |]; [|done..]. rewrite bind_ret.
    destruct Hb as (Hf2&Hpos&H0&Hk2&_). rewrite range_ok, bind_ret by lia. cbn.
    split_and!; try done; try lia.
    + exists 0%nat. split_and!; try done; lia.
    + intros ->. split_and!; try done. by apply H0.
Qed.

(** C9. The framer is total: fed any bytes in any reachable state it never
    panics and its loops end; it consumes at most what it was given, its body
    is the input's own bytes from the end of the header to what was consumed,
    and a feed that consumes nothing changes nothing. *)
Theorem feed_total f input :
  framing_wf f ->
  match feed f input with
  | Ok (out, f') =>
      framing_wf f' /\ fr_kind f' = fr_kind f /\ (fd_consumed out <= length input)%nat /\
      (exists start, (start <= fd_consumed out)%nat /\
         fd_body out = take (fd_consumed out - start) (drop start input) /\
         (fr_phase f <> Header -> start = 0%nat /\ fd_header out = [])) /\
      (fd_consumed out = 0%nat -> f' = f /\ fd_header out = [] /\ fd_body out = [])
  | Err _ => True
  | Panic => False
  end.
Proof. exact (feed_spec f input). Qed.

Lemma feed_total_witness : exists out f',
  feed (framing_new Request {| rp_host := None; rp_application_url := None; rp_location := None |})
    (bs "GET / HTTP/1.1" ++ HEADER_TERMINATOR ++ bs "POST") = Ok (out, f') /\
  fd_consumed out = 18%nat /\ fd_body out = [] /\ framing_wf f'.
Proof.
  pose proof (feed_total (framing_new Request {| rp_host := None; rp_application_url := None; rp_location := None |})
    (bs "GET / HTTP/1.1" ++ HEADER_TERMINATOR ++ bs "POST") (framing_new_wf _ _)) as H.
  destruct (feed _ _) as [[out f']|e|] eqn:E; [|vm_compute in E; discriminate E..].
  destruct H as (Hf&_&_&_&_). exists out, f'. vm_compute in E. injection E as <- <-.
  split; [reflexivity|]. split; [reflexivity|]. split; [reflexivity|exact Hf].
Defined.

(** ** Progress *)

(** A full buffer always moves: given more than [MAX_HEADER] bytes past any
    leading empty lines, a feed refuses the message or consumes some of it, in
    every phase; and a header block over the cap is refused whether or not its
    end has arrived. *)
Theorem feed_progress f input :
  framing_wf f ->
  (MAX_HEADER < length input - (if bool_decide (fr_phase f = Header) then skip_crlf input else 0))%nat ->
  match feed f input with
  | Ok (out, _) => (0 < fd_consumed out)%nat
  | Err _ => True
  | Panic => False
  end /\
  (fr_phase f = Header ->
   match find_header_end (drop (skip_crlf input) input) with None => True | Some e => (MAX_HEADER < e)%nat end ->
   feed f input = Err HeaderTooLong).
Proof.
  intros Hf Hlen. assert (Z.of_nat MAX_HEADER = 2048) as HM by done.
  assert (Z.of_nat MAX_TRAILER_LINE = 1024) as HT by done.
  split.
  - pose proof (feed_total f input Hf) as Ht. destruct (decide (fr_phase f = Header)) as [Hp|Hp].
    + rewrite bool_decide_true in Hlen by done. rewrite feed_header in * by done.
      destruct (find_header_end _) as [e|] eqn:E.
      * pose proof E as He%find_header_end_Some. rewrite length_drop in He.
        destruct (Nat.ltb_spec MAX_HEADER e); [done|].
        pose proof (scan_header_ok f (take e (drop (skip_crlf input) input)) Hf) as Hs.
        destruct (scan_and_rewrite_header _ _) as [[f1 url]| |]; [|done..]. rewrite bind_ret in *. cbv zeta in *.
        pose proof (skip_crlf_le input). destruct Hs as [Hf1 _].
        pose proof (body_loop_ok (S (length input)) f1 input (skip_crlf input + e) Hf1 ltac:(lia) ltac:(lia)) as Hb.
        destruct (body_loop _ _ _ _) as [[f2 pos]| |]; [|done..]. rewrite bind_ret in *.
        destruct Hb as (_&Hpos&_). rewrite range_ok, bind_ret in * by lia. cbn. lia.
      * destruct (Nat.ltb_spec MAX_HEADER (length (drop (skip_crlf input) input))); [done|].
        rewrite length_drop in *. lia.
    + rewrite bool_decide_false in Hlen by done. rewrite feed_body in * by done.
      cbn [body_loop] in *. destruct (Nat.leb_spec (length input) 0); [lia|].
      assert (match body_turn f input 0 with
              | Ok (_, p, _) => (0 < p)%nat | Err _ => True | Panic => True end) as Hturn.
      { unfold body_turn. unfold range_from, get_from. rewrite decide_True by lia. cbn [expect]. rewrite drop_0.
        destruct Hf as [Hb Hc]. destruct (fr_phase f) eqn:Ep; [done|..].
        - specialize (Hb eq_refl). lia.
        - destruct (Z.ltb_spec 0 (chunk_remaining f)); [lia|]. rewrite bind_ret.
          destruct (find_crlf input) as [rel|].
          + destruct (range _ _ _); [|done..]. rewrite bind_ret. destruct (parse_chunk_size _); [|done..].
            rewrite bind_ret. destruct (_ =? 0); [cbn; lia|]. destruct (_ <? _); [cbn; lia|done].
          + destruct (Nat.ltb_spec MAX_CHUNK_LINE (length input - 0)); [done|]. unfold MAX_CHUNK_LINE in *. lia.
        - rewrite bind_ret. destruct (find_crlf input) as [rel|]; [cbn; lia|].
          destruct (Nat.ltb_spec MAX_TRAILER_LINE (length input - 0)); [done|lia].
        - lia. }
      pose proof (body_turn_ok f input Hf ltac:(intros ->; cbn in *; lia)) as Hok.
      destruct (body_turn f input 0) as [[[f' p] go]| |]; [|done..]. rewrite bind_ret in *.
      destruct Hok as (Hf'&Hp'&_).
      assert (match (if go then body_loop (length input) f' input p else Ok (f', p)) with
              | Ok (_, q) => (p <= q <= length input)%nat | Err _ => True | Panic => False end) as Hq.
      { destruct go; [|lia]. pose proof (body_loop_ok (length input) f' input p Hf' ltac:(lia) ltac:(lia)) as Hb.
        destruct (body_loop _ _ _ _) as [[f2 q]| |]; naive_solver. }
      destruct (if go then _ else _) as [[f2 q]| |]; [|done..]. rewrite bind_ret in *.
      rewrite range_ok, bind_ret in * by lia. cbn. lia.
  - intros Hp Hend. rewrite bool_decide_true in Hlen by done. rewrite feed_header by done.
    destruct (find_header_end _) as [e|].
    + by destruct (Nat.ltb_spec MAX_HEADER e); [|lia].
    + destruct (Nat.ltb_spec MAX_HEADER (length (drop (skip_crlf input) input))); [done|].
      rewrite length_drop in *. lia.
Qed.

Definition ex_framer (k : Kind) : HttpFraming :=
  framing_new k {| rp_host := None; rp_application_url := None; rp_location := None |}.

Lemma feed_progress_witness : feed (ex_framer Request) (replicate (S MAX_HEADER) 65) = Err HeaderTooLong.
Proof.
  apply (feed_progress (ex_framer Request) (replicate (S MAX_HEADER) 65)).
  - apply framing_new_wf.
  - rewrite length_replicate. vm_compute. lia.
  - reflexivity.
  - vm_compute. exact I.
Defined.

(** ** Framing decisions *)

(** The message body of RFC 9112 section 6.3, as the framer reads it: the body
    phase and the bytes to count down. *)
Definition bodyless (kind : Kind) (status : Z) : Prop :=
  kind = Response /\ (100 <= status <= 199 \/ status = 204 \/ status = 304).
Inductive body_rule (kind : Kind) (status : Z) : option Z -> bool -> Phase -> Z -> Prop :=
  | rule_bodyless cl chunked : bodyless kind status -> body_rule kind status cl chunked Header 0
  | rule_chunked cl : ~ bodyless kind status -> body_rule kind status cl true BodyChunked 0
  | rule_empty : ~ bodyless kind status -> body_rule kind status (Some 0) false Header 0
  | rule_length n : ~ bodyless kind status -> n <> 0 ->
      body_rule kind status (Some n) false BodyContentLength n
  | rule_request : kind = Request -> body_rule kind status None false Header 0
  | rule_response : kind = Response -> ~ bodyless kind status ->
      body_rule kind status None false BodyCloseDelimited 0.

Lemma body_phase_rule kind status cl chunked ph n :
  body_phase kind status cl chunked = (ph, n) -> body_rule kind status cl chunked ph n.
Proof.
  unfold body_phase.
  set (b := match kind with Response => _ | Request => _ end).
  assert (Hb : b = true <-> bodyless kind status).
  { unfold b, bodyless. destruct kind; [split; [done|by intros [? _]]|]. split; [intros ?; split; [done|lia]|intros [_ ?]; lia]. }
  clearbody b. destruct b; [intros [= <- <-]; constructor; tauto|].
  assert (Hn : ~ bodyless kind status) by (rewrite <- Hb; done).
  destruct chunked; [intros [= <- <-]; by constructor|].
  destruct cl as [z|]; [destruct (Z.eqb_spec z 0) as [-> | Hz]; intros [= <- <-]; by constructor|].
  destruct kind; intros [= <- <-]; by constructor.
Qed.

(** C10. No ambiguous message is forwarded.  When a header block is accepted,
    every [Content-Length] line parses and all agree, [Content-Length] and
    chunked coding never occur together, a request is never a [HEAD]; the body
    phase is then the one RFC 9112 gives those headers and the status line;
    and what is forwarded is the block's lines, each unchanged but for an
    authority the policy replaces. *)
Theorem header_framing_sound f block f' url :
  scan_and_rewrite_header f block = Ok (f', url) -> block <> [] ->
  exists start lines cl chunked,
    header_lines (length block) block = start :: lines /\
    (fr_kind f = Request -> strip_prefix_by Z.eqb (bs "HEAD ") start = None) /\
    (forall line v, line ∈ lines -> strip_prefix_ic line (bs "Content-Length:") = Some v ->
       exists n, parse_content_length v = Ok n /\ cl = Some n) /\
    (is_Some cl -> exists line, line ∈ lines /\ is_Some (strip_prefix_ic line (bs "Content-Length:"))) /\
    (chunked = true <-> exists line v, line ∈ lines /\
       strip_prefix_ic line (bs "Content-Length:") = None /\
       strip_prefix_ic line (bs "Transfer-Encoding:") = Some v /\ value_has_chunked v = true) /\
    ~ (is_Some cl /\ chunked = true) /\
    body_rule (fr_kind f) (match fr_kind f with Response => parse_status_code start | Request => 0 end) cl chunked
      (fr_phase f') (body_remaining f') /\
    fr_header f' = start ++ CRLF ++ concat ((fun l => rewritten f l ++ CRLF) <$> lines).
Proof.
  intros H Hne. unfold scan_and_rewrite_header in H. rewrite scan_lines_all, drop_0 in H by lia.
  destruct (header_lines (length block) block) as [|start lines] eqn:El.
  { destruct block as [|x l]; [done|]. cbn [header_lines length] in El. destruct (find_crlf (x :: l)); discriminate El. }
  cbn [scan_all] in H. pose proof (scan_line_first f scan_start start) as H1.
  destruct (scan_line _ _ _ _) as [s1| |]; [|done..]. rewrite bind_ret in H. destruct H1 as [-> Hhead].
  match type of H with context [scan_all f false lines ?s] => pose proof (scan_all_spec f lines s) as Ha end.
  destruct (scan_all _ _ _ _) as [s| |]; [|done..]. rewrite bind_ret in H.
  destruct Ha as (Ho&Hst&Hcl&_&Hnew&Hch).
  destruct (bool_decide (is_Some (sc_content_length s)) && sc_chunked s) eqn:Hb; [done|].
  destruct (body_phase _ _ _ _) as [ph rem] eqn:Ep. injection H as <- _. cbn in *.
  exists start, lines, (sc_content_length s), (sc_chunked s). split_and!; try done.
  - intros [n Hn]. apply Hnew. by rewrite Hn.
  - rewrite Hch. split; [|auto]. intros [?|?]; done.
  - intros [Hs Hc]. rewrite bool_decide_true, Hc in Hb by done. done.
  - apply body_phase_rule. rewrite <- Ep, Hst. by destruct (fr_kind f).
  - rewrite Ho, <- app_assoc. done.
Qed.

Lemma header_framing_sound_witness : exists f',
  scan_and_rewrite_header (framing_new Request {| rp_host := Some {| sa_ip := 16909060; sa_port := 8008 |};
      rp_application_url := None; rp_location := None |})
    (bs "POST /x HTTP/1.1" ++ CRLF ++ bs "Host: 10.0.0.1:80" ++ CRLF ++ bs "Content-Length: 5" ++ CRLF ++ CRLF) = Ok (f', None) /\
  fr_phase f' = BodyContentLength /\
  fr_header f' = bs "POST /x HTTP/1.1" ++ CRLF ++ bs "Host: 1.2.3.4:8008" ++ CRLF ++ bs "Content-Length: 5" ++ CRLF ++ CRLF.
Proof.
  eexists. split; [vm_compute; reflexivity|].
  edestruct (header_framing_sound (framing_new Request {| rp_host := Some {| sa_ip := 16909060; sa_port := 8008 |};
      rp_application_url := None; rp_location := None |})
    (bs "POST /x HTTP/1.1" ++ CRLF ++ bs "Host: 10.0.0.1:80" ++ CRLF ++ bs "Content-Length: 5" ++ CRLF ++ CRLF))
    as (start&lines&cl&chunked&El&_&_&_&_&_&_&Eh); [vm_compute; reflexivity|done|].
  split; [reflexivity|]. rewrite Eh. vm_compute in El. injection El as <- <-. reflexivity.
Defined.

(** ** The stream is cut anywhere *)

(** More fuel changes nothing once the loop has ended. *)
Lemma body_loop_fuel fuel fuel' f input pos :
  framing_wf f -> (pos <= length input)%nat -> (length input - pos < fuel)%nat -> (length input - pos < fuel')%nat ->
  body_loop fuel f input pos = body_loop fuel' f input pos.
Proof.
  revert fuel' f pos. induction fuel as [|fuel IH]; intros fuel' f pos Hf Hp H1 H2; [lia|].
  destruct fuel' as [|fuel']; [lia|]. cbn [body_loop].
  destruct (Nat.leb_spec (length input) pos) as [|Hlt]; [done|].
  rewrite body_turn_drop by lia.
  assert (drop pos input <> []) as Hne
    by (intros E; apply (f_equal length) in E; rewrite length_drop in E; cbn in E; lia).
  pose proof (body_turn_ok f (drop pos input) Hf Hne) as Ht. rewrite length_drop in Ht.
  destruct (body_turn _ _ _) as [[[f' p] go]| |]; [|done..]. rewrite !bind_ret.
  destruct go; [|done]. destruct Ht as (Hf'&Hp'&Hgo&_). specialize (Hgo eq_refl).
  apply IH; done || lia.
Qed.

(** A shifted input. *)
Lemma body_loop_drop fuel f input pos :
  (pos <= length input)%nat ->
  body_loop fuel f input pos = ('(f', p) ← body_loop fuel f (drop pos input) 0; Ok (f', (pos + p)%nat)).
Proof.
  assert (forall fuel f q, (pos + q <= length input)%nat -> (pos <= length input)%nat ->
    body_loop fuel f input (pos + q) =
    ('(f', p) ← body_loop fuel f (drop pos input) q; Ok (f', (pos + p)%nat))) as H.
  { clear. intros fuel. induction fuel as [|fuel IH]; intros f q Hq Hp; cbn [body_loop]; rewrite length_drop.
    - destruct (Nat.leb_spec (length input) (pos + q)), (Nat.leb_spec (length input - pos) q);
        try lia; by rewrite ?bind_ret.
    - destruct (Nat.leb_spec (length input) (pos + q)), (Nat.leb_spec (length input - pos) q); try lia;
        [by rewrite bind_ret|].
      rewrite (body_turn_drop f input) by lia. rewrite (body_turn_drop f (drop pos input)) by (rewrite length_drop; lia).
      rewrite drop_drop. destruct (body_turn f (drop (pos + q) input) 0) as [[[f' p] go]| |] eqn:Et; [|done..].
      rewrite !bind_ret. destruct go; [|rewrite bind_ret; do 2 f_equal; lia].
      destruct (decide (pos + (q + p) <= length input)%nat) as [Hle|Hgt].
      + rewrite <- Nat.add_assoc. by apply IH.
      + destruct fuel; cbn [body_loop]; rewrite length_drop;
          destruct (Nat.leb_spec (length input) (pos + q + p)), (Nat.leb_spec (length input - pos) (q + p)); try lia;
          rewrite bind_ret; do 2 f_equal; lia. }
  intros Hp. pose proof (H fuel f 0%nat ltac:(lia) Hp) as E. by rewrite Nat.add_0_r in E.
Qed.

Lemma find_crlf_app a b i : find_crlf a = Some i -> find_crlf (a ++ b) = Some i.
Proof. apply find_window_app. Qed.

(** A turn that stops short of the message's end resumes where it stopped. *)
Lemma stalled_turn f f' a b p :
  framing_wf f -> (0 < length a)%nat -> body_turn f a 0 = Ok (f', p, false) -> fr_phase f' <> Header ->
  body_loop (S (length (a ++ b))) f (a ++ b) 0 = body_loop (S (length (a ++ b))) f' (a ++ b) p.
Proof.
  intros Hf Ha Et Hh.
  (* only a turn that took all of [a] moved at all *)
  assert (p = 0%nat /\ f' = f \/ p = length a /\
    body_turn f (a ++ b) 0 = ('(g, q, go) ← body_turn f' b 0; Ok (g, (length a + q)%nat, go))) as [[-> ->]|[-> Hab]].
  - revert Et. unfold body_turn, range_from, get_from.
    rewrite !decide_True, !drop_0, !Nat.sub_0_r by lia. cbn [expect].
    destruct Hf as [Hb Hc]. destruct (fr_phase f) eqn:Ep.
    + intros [= <- <-]. congruence.
    + intros [= <- <-]. right. cbn in *.
      destruct (Z.eqb_spec (body_remaining f - Z.min (body_remaining f) (Z.of_nat (length a))) 0) as [|Hn]; [done|].
      split; [lia|]. rewrite bind_ret, length_app.
      replace (body_remaining f - Z.min (body_remaining f) (Z.of_nat (length a)) -
        Z.min (body_remaining f - Z.min (body_remaining f) (Z.of_nat (length a))) (Z.of_nat (length b)))
        with (body_remaining f - Z.min (body_remaining f) (Z.of_nat (length a + length b))) by lia.
      repeat f_equal. lia.
    + destruct (Z.ltb_spec 0 (chunk_remaining f)).
      * intros [= <- <- Hr]. right. cbn in *. split; [lia|].
        assert (0 < chunk_remaining f - Z.min (chunk_remaining f) (Z.of_nat (length a))) as Hr' by lia.
        apply Z.ltb_lt in Hr'. rewrite Hr', bind_ret, length_app.
        replace (chunk_remaining f - Z.min (chunk_remaining f) (Z.of_nat (length a)) -
          Z.min (chunk_remaining f - Z.min (chunk_remaining f) (Z.of_nat (length a))) (Z.of_nat (length b)))
          with (chunk_remaining f - Z.min (chunk_remaining f) (Z.of_nat (length a + length b))) by lia.
        repeat f_equal. lia.
      * rewrite !bind_ret. destruct (find_crlf a) as [rel|] eqn:E; [|destruct (_ <? _)%nat; [done|]; intros [= <- <-]; by left].
        destruct (range _ _ _); [|done..]. rewrite bind_ret. destruct (parse_chunk_size _); [|done..].
        rewrite bind_ret. destruct (_ =? _); [done|]. by destruct (_ <? _).
    + rewrite !bind_ret. destruct (find_crlf a) as [rel|] eqn:E; [done|].
      destruct (_ <? _)%nat; [done|]. intros [= <- <-]. by left.
    + intros [= <- <-]. right. rewrite Ep, bind_ret, length_app. done.
  - done.
  - cbn [body_loop]. destruct (Nat.leb_spec (length (a ++ b)) 0) as [Hl|Hl]; [len|].
    rewrite Hab. rewrite (body_turn_drop f' (a ++ b)) by len. rewrite drop_app_length.
    destruct (Nat.leb_spec (length (a ++ b)) (length a)) as [Hb|Hb].
    + assert (b = []) as -> by (apply nil_length_inv; len). rewrite app_nil_r in *.
      rewrite Et in Hab. destruct (body_turn f' [] 0) as [[[g q] go]| |]; [|done..].
      rewrite bind_ret in *. injection Hab as -> Hq <-. rewrite <- Hq. done.
    + done.
Qed.

(** The body loop over [a ++ b] is the loop over [a], resumed. *)
Lemma body_loop_resume fuel f a b :
  framing_wf f -> (length a < fuel)%nat ->
  match body_loop fuel f a 0 with
  | Ok (f1, p1) =>
      fr_phase f1 <> Header ->
      body_loop (S (length (a ++ b))) f (a ++ b) 0 = body_loop (S (length (a ++ b))) f1 (a ++ b) p1
  | _ => True
  end.
Proof.
  assert (forall n f a, (length a <= n)%nat -> framing_wf f ->
    match body_loop (S (length a)) f a 0 with
    | Ok (f1, p1) => fr_phase f1 <> Header ->
        body_loop (S (length (a ++ b))) f (a ++ b) 0 = body_loop (S (length (a ++ b))) f1 (a ++ b) p1
    | _ => True
    end) as H.
  2: { intros Hf Hfu. rewrite (body_loop_fuel fuel (S (length a))) by (done || lia). by apply (H (length a)). }
  clear fuel f a. induction n as [|n IH]; intros f a Hn Hf.
  { assert (a = []) as -> by (by apply nil_length_inv; lia). cbn. done. }
  destruct (decide (a = [])) as [->|Hne]; [by cbn|].
  assert (0 < length a)%nat as Ha by (destruct a; [done|cbn; lia]).
  assert (forall g c, (0 < length c)%nat -> body_loop (S (length c)) g c 0 =
    ('(f, pos, go) ← body_turn g c 0; if go : bool then body_loop (length c) f c pos else Ok (f, pos))) as Hunf.
  { intros g c Hc. cbn [body_loop]. by rewrite (proj2 (Nat.leb_gt _ _) Hc). }
  rewrite (Hunf f a Ha).
  pose proof (body_turn_ok f a Hf Hne) as Hok.
  (* a turn that goes on does the same with more input *)
  assert (forall f' p, body_turn f a 0 = Ok (f', p, true) -> body_turn f (a ++ b) 0 = Ok (f', p, true)) as Hgo.
  { intros f' p. unfold body_turn, range_from, get_from. rewrite !decide_True, !drop_0, !Nat.sub_0_r by len.
    cbn [expect]. rewrite length_app. destruct (fr_phase f); try done.
    - destruct (0 <? chunk_remaining f).
      + intros [= <- <- Hr]. assert (Z.min (chunk_remaining f) (Z.of_nat (length a + length b)) =
          Z.min (chunk_remaining f) (Z.of_nat (length a))) as -> by lia.
        repeat f_equal. lia.
      + rewrite !bind_ret. destruct (find_crlf a) as [rel|] eqn:E; [|by destruct (_ <? _)%nat].
        rewrite (find_crlf_app a b rel E). pose proof E as [E' _]%find_crlf_Some.
        rewrite !range_ok, !bind_ret by len. rewrite !drop_0, take_app_le by lia. done.
    - rewrite !bind_ret. destruct (find_crlf a) as [rel|] eqn:E; [|by destruct (_ <? _)%nat].
      by rewrite (find_crlf_app a b rel E). }
  destruct (body_turn f a 0) as [[[f' p] go]| |] eqn:Et; [|done..]. rewrite bind_ret.
  destruct Hok as (Hf'&Hp&Hpos&_).
  destruct go.
  - specialize (Hpos eq_refl). specialize (Hgo f' p eq_refl).
    specialize (IH f' (drop p a) ltac:(len) Hf').
    rewrite body_loop_drop by lia.
    rewrite (body_loop_fuel (length a) (S (length (drop p a)))) by (done || len).
    destruct (body_loop _ f' (drop p a) 0) as [[f1 p1]| |] eqn:E1; [|done..].
    rewrite bind_ret. intros Hh. specialize (IH Hh).
    rewrite (Hunf f (a ++ b)), Hgo, bind_ret by len.
    rewrite body_loop_drop by len. rewrite (body_loop_drop _ f1 (a ++ b) (p + p1)).
    2: { pose proof (body_loop_ok (S (length (drop p a))) f' (drop p a) 0 Hf' ltac:(lia) ltac:(lia)) as Hb.
         rewrite E1 in Hb. destruct Hb as (_&Hb&_). rewrite length_drop in Hb. len. }
    assert (drop p (a ++ b) = drop p a ++ b) as Hd by (apply drop_app_le; lia).
    rewrite <- drop_drop, Hd.
    rewrite (body_loop_fuel (length (a ++ b)) (S (length (drop p a ++ b)))) by (done || len).
    rewrite IH.
    pose proof (body_loop_ok (S (length (drop p a))) f' (drop p a) 0 Hf' ltac:(lia) ltac:(lia)) as Hb.
    rewrite E1 in Hb. destruct Hb as (Hf1&Hb&_). rewrite length_drop in Hb.
    rewrite (body_loop_drop _ f1 (drop p a ++ b) p1) by len.
    rewrite (body_loop_fuel (S (length (drop p a ++ b))) (S (length (a ++ b)))) by (done || len).
    destruct (body_loop _ f1 (drop p1 (drop p a ++ b)) 0) as [[f2 p2]| |]; [|done..].
    rewrite !bind_ret. do 2 f_equal. lia.
  - intros Hh. by apply (stalled_turn f f' a b p Hf Ha Et Hh).
Qed.

(** C12. A body's framing does not depend on TCP segmentation.  In any body
    phase, if the bytes [a] are fed first, are accepted and leave the message
    unfinished, then feeding what was left of them followed by [b] gives,
    together, what feeding [a ++ b] at once gives: the same body bytes, the same
    count consumed, the same state, the same error.  (A first segment may be
    refused where the whole is not: one that ends within a chunk-size or trailer
    line already past the guard on unterminated lines.) *)
Theorem feed_segmentation f a b o1 f1 :
  framing_wf f -> fr_phase f <> Header -> feed f a = Ok (o1, f1) -> fr_phase f1 <> Header ->
  feed f (a ++ b) =
  ('(o2, f2) ← feed f1 (drop (fd_consumed o1) a ++ b);
   Ok ({| fd_header := []; fd_body := fd_body o1 ++ fd_body o2;
          fd_consumed := (fd_consumed o1 + fd_consumed o2)%nat; fd_application_url := None |}, f2)).
Proof.
  intros Hf Hp H1 Hp1. rewrite feed_body in H1 by done. rewrite !feed_body by done.
  pose proof (body_loop_ok (S (length a)) f a 0 Hf ltac:(lia) ltac:(lia)) as Hok.
  pose proof (body_loop_resume (S (length a)) f a b Hf ltac:(lia)) as Hr.
  destruct (body_loop _ f a 0) as [[f1' p1]| |]; [|done..]. rewrite bind_ret in H1.
  destruct Hok as (Hf1&Hp1'&_). rewrite range_ok, bind_ret in H1 by lia. injection H1 as <- <-. cbn [fd_consumed fd_body].
  rewrite (Hr Hp1). rewrite body_loop_drop by len. rewrite <- drop_app_le by lia.
  rewrite (body_loop_fuel (S (length (a ++ b))) (S (length (drop p1 (a ++ b))))) by (done || len).
  pose proof (body_loop_ok (S (length (drop p1 (a ++ b)))) f1' (drop p1 (a ++ b)) 0 Hf1 ltac:(lia) ltac:(lia)) as Hok2.
  destruct (body_loop _ f1' _ 0) as [[f2 p2]| |]; [|done..]. rewrite !bind_ret.
  destruct Hok2 as (_&Hp2&_). rewrite length_drop, length_app in Hp2.
  rewrite !range_ok by len. rewrite ?bind_ret. cbn [fd_consumed fd_body]. rewrite !drop_0, !Nat.sub_0_r.
  do 3 f_equal. rewrite <- (take_drop p1 (a ++ b)) at 1. rewrite take_app, take_take.
  rewrite length_take, length_app. f_equal.
  - rewrite Nat.min_r by lia. rewrite take_app_le by lia. done.
  - f_equal. lia.
Qed.

Lemma feed_segmentation_witness :
  feed (with_phase (ex_framer Response) BodyChunked 0 0) ((bs "5" ++ CRLF ++ bs "he") ++ bs "llo") =
  ('(o2, f2) ← feed (with_phase (ex_framer Response) BodyChunked 0 5) ([] ++ bs "llo");
   Ok ({| fd_header := []; fd_body := (bs "5" ++ CRLF ++ bs "he") ++ fd_body o2;
          fd_consumed := (5 + fd_consumed o2)%nat; fd_application_url := None |}, f2)).
Proof.
  apply (feed_segmentation (with_phase (ex_framer Response) BodyChunked 0 0) (bs "5" ++ CRLF ++ bs "he") (bs "llo")
    {| fd_header := []; fd_body := bs "5" ++ CRLF ++ bs "he"; fd_consumed := 5; fd_application_url := None |}).
  - split; [done|cbn; lia].
  - done.
  - vm_compute. reflexivity.
  - done.
Defined.

(** ** A whole chunked body *)

(** A line that ends at the first CRLF after it. *)
Definition line_ok (l : bytes) : Prop := forall r, find_crlf (l ++ CRLF ++ r) = Some (length l).

Record Chunk : Type := { ck_line : bytes; ck_data : bytes }.
Definition chunk_ok (c : Chunk) : Prop :=
  line_ok (ck_line c) /\ parse_chunk_size (ck_line c) = Ok (Z.of_nat (length (ck_data c))) /\
  ck_data c <> [] /\ Z.of_nat (length (ck_data c)) + 2 < usize_limit.
Definition chunk_bytes (c : Chunk) : bytes := ck_line c ++ CRLF ++ ck_data c ++ CRLF.
Definition trailer_bytes (t : bytes) : bytes := t ++ CRLF.

(** Chunks, the last-chunk line, trailers, the empty line. *)
Definition chunked_body (chunks : list Chunk) (last : bytes) (trailers : list bytes) : bytes :=
  concat (chunk_bytes <$> chunks) ++ (last ++ CRLF) ++ concat (trailer_bytes <$> trailers) ++ CRLF.

Definition run_body (f : HttpFraming) (input : bytes) : res FramingError (HttpFraming * nat) :=
  body_loop (S (length input)) f input 0.

Lemma run_body_step f input f' p :
  framing_wf f -> input <> [] -> body_turn f input 0 = Ok (f', p, true) ->
  run_body f input = ('(g, q) ← run_body f' (drop p input); Ok (g, (p + q)%nat)).
Proof.
  intros Hf Hne Ht. pose proof (body_turn_ok f input Hf Hne) as Hok. rewrite Ht in Hok.
  destruct Hok as (Hf'&Hp&Hpos&_). specialize (Hpos eq_refl).
  unfold run_body at 1. cbn [body_loop]. destruct (Nat.leb_spec (length input) 0); [lia|].
  rewrite Ht, bind_ret, body_loop_drop by lia.
  rewrite (body_loop_fuel (length input) (S (length (drop p input)))) by (done || len). done.
Qed.

Lemma ne_app (l r : bytes) : r <> [] -> l ++ r <> [].
Proof. destruct l; done. Qed.

Lemma run_body_line f line r size :
  framing_wf f -> fr_phase f = BodyChunked -> chunk_remaining f = 0 -> line_ok line ->
  parse_chunk_size line = Ok size -> 0 < size -> size + 2 < usize_limit ->
  run_body f (line ++ CRLF ++ r) =
  ('(g, q) ← run_body (with_phase f BodyChunked (body_remaining f) (size + 2)) r; Ok (g, (length line + 2 + q)%nat)).
Proof.
  intros Hf Hp Hc Hl Hs H0 H1. rewrite (run_body_step _ _ (with_phase f BodyChunked (body_remaining f) (size + 2))
    (length line + 2)); [|done|by apply ne_app|].
  - rewrite (app_assoc line), drop_app_length' by (rewrite length_app; done). done.
  - unfold body_turn. rewrite Hp, Hc. cbn [Z.ltb]. unfold range_from, get_from.
    rewrite decide_True, drop_0 by lia. cbn [expect]. rewrite bind_ret, Hl.
    rewrite range_ok, bind_ret by len. rewrite drop_0.
    replace (0 + length line - 0)%nat with (length line) by lia. rewrite take_app_length, Hs, bind_ret.
    destruct (Z.eqb_spec size 0); [lia|]. destruct (Z.ltb_spec (size + 2) usize_limit); [|lia]. done.
Qed.

Lemma run_body_chunk f c r :
  framing_wf f -> fr_phase f = BodyChunked -> chunk_remaining f = 0 -> chunk_ok c ->
  run_body f (chunk_bytes c ++ r) =
  ('(g, q) ← run_body (with_phase f BodyChunked (body_remaining f) 0) r; Ok (g, (length (chunk_bytes c) + q)%nat)).
Proof.
  intros Hf Hp Hc (Hl&Hs&Hne&Hlim). unfold chunk_bytes. rewrite <- !app_assoc.
  assert (0 < length (ck_data c))%nat as Hpos by (destruct (ck_data c); [done|cbn; lia]).
  rewrite (run_body_line f _ _ (Z.of_nat (length (ck_data c)))) by (done || lia).
  set (f1 := with_phase f BodyChunked (body_remaining f) _).
  rewrite (run_body_step f1 _ (with_phase f BodyChunked (body_remaining f) 0) (length (ck_data c) + 2)).
  - rewrite (app_assoc (ck_data c)), drop_app_length' by (rewrite length_app; done).
    destruct (run_body _ r) as [[g q]| |]; [|done..]. rewrite !bind_ret. do 2 f_equal.
    rewrite !length_app. cbn [length CRLF]. lia.
  - split; cbn; [done|lia].
  - by apply ne_app.
  - unfold body_turn. subst f1. cbn [with_phase fr_phase chunk_remaining body_remaining].
    destruct (Z.ltb_spec 0 (Z.of_nat (length (ck_data c)) + 2)); [|lia].
    rewrite Nat.sub_0_r, !length_app. cbn [length CRLF].
    replace (Z.min _ _) with (Z.of_nat (length (ck_data c)) + 2) by lia.
    rewrite Z.sub_diag. cbn [Z.ltb negb Z.compare]. do 3 f_equal. lia.
Qed.

Lemma with_phase_ok f p body : (p <> BodyContentLength) -> framing_wf (with_phase f p body 0).
Proof. split; cbn; [done|lia]. Qed.

Lemma run_body_trailers f trailers r :
  framing_wf f -> fr_phase f = BodyChunkedTrailers -> chunk_remaining f = 0 ->
  Forall (fun t => line_ok t /\ t <> []) trailers ->
  exists f', run_body f (concat (trailer_bytes <$> trailers) ++ CRLF ++ r) =
    Ok (f', (length (concat (trailer_bytes <$> trailers)) + 2)%nat) /\ fr_phase f' = Header.
Proof.
  intros Hf Hp Hc H. induction H as [|t ts [Ht Hne] _ IH].
  - cbn [fmap list_fmap concat app]. exists (with_phase f Header (body_remaining f) 0). split; [|done].
    rewrite (run_body_step f _ (with_phase f Header (body_remaining f) 0) 2); [|done|done|].
    + change (drop 2 (CRLF ++ r)) with r. unfold run_body. cbn [body_loop].
      destruct (Nat.leb_spec (length r) 0); reflexivity.
    + unfold body_turn. rewrite Hp, Hc. unfold range_from, get_from. rewrite decide_True, drop_0 by lia.
      cbn [expect]. rewrite bind_ret. done.
  - destruct IH as (f'&IH&Hh). exists f'. split; [|done]. cbn [fmap list_fmap concat].
    unfold trailer_bytes at 1 3. rewrite <- !app_assoc.
    assert (0 < length t)%nat by (destruct t; [done|cbn; lia]).
    rewrite (run_body_step f _ f (length t + 2)); [|done|by apply ne_app|].
    + rewrite (app_assoc t), drop_app_length' by (rewrite length_app; done).
      rewrite IH, bind_ret. do 2 f_equal. rewrite !length_app. cbn [length CRLF]. lia.
    + unfold body_turn. rewrite Hp. unfold range_from, get_from. rewrite decide_True, drop_0 by lia.
      cbn [expect]. rewrite bind_ret, Ht. destruct (Nat.eqb_spec (length t) 0); [lia|]. do 3 f_equal.
Qed.

Lemma run_body_chunked f chunks last trailers r :
  framing_wf f -> fr_phase f = BodyChunked -> chunk_remaining f = 0 ->
  Forall chunk_ok chunks -> line_ok last -> parse_chunk_size last = Ok 0 ->
  Forall (fun t => line_ok t /\ t <> []) trailers ->
  exists f', run_body f (chunked_body chunks last trailers ++ r) =
    Ok (f', length (chunked_body chunks last trailers)) /\ fr_phase f' = Header.
Proof.
  intros Hf Hp Hc H Hlast Hz Htr. revert f Hf Hp Hc. unfold chunked_body.
  induction H as [|c cs Hck _ IH]; intros f Hf Hp Hc.
  - cbn [fmap list_fmap concat app]. rewrite <- !app_assoc.
    rewrite (run_body_step f _ (with_phase f BodyChunkedTrailers (body_remaining f) 0) (length last + 2)).
    + rewrite (app_assoc last), drop_app_length' by (rewrite length_app; done).
      destruct (run_body_trailers (with_phase f BodyChunkedTrailers (body_remaining f) 0) trailers r) as (f'&->&Hh);
        [by apply with_phase_ok|done..|].
      rewrite bind_ret. exists f'. split; [|done]. do 2 f_equal. rewrite !length_app. cbn [length CRLF]. lia.
    + done.
    + by apply ne_app.
    + unfold body_turn. rewrite Hp, Hc. cbn [Z.ltb Z.compare]. unfold range_from, get_from.
      rewrite decide_True, drop_0 by lia. cbn [expect]. rewrite bind_ret, Hlast.
      rewrite range_ok, bind_ret by len. rewrite drop_0.
      replace (0 + length last - 0)%nat with (length last) by lia. by rewrite take_app_length, Hz, bind_ret.
  - cbn [fmap list_fmap concat]. rewrite <- app_assoc. rewrite <- (app_assoc (chunk_bytes c)).
    rewrite run_body_chunk by done.
    destruct (IH (with_phase f BodyChunked (body_remaining f) 0)) as (f'&Hr&Hh); [by apply with_phase_ok|done..|].
    rewrite <- app_assoc in Hr. rewrite Hr, bind_ret. exists f'. split; [|done]. do 2 f_equal. rewrite !length_app. lia.
Qed.

(** C11. A chunked body is consumed exactly: its chunks, last-chunk line and
    trailers are forwarded verbatim, the framer is back at a header, and none
    of the next message is touched. *)
Theorem chunked_body_exact f chunks last trailers next :
  framing_wf f -> fr_phase f = BodyChunked -> chunk_remaining f = 0 ->
  Forall chunk_ok chunks -> line_ok last -> parse_chunk_size last = Ok 0 ->
  Forall (fun t => line_ok t /\ t <> []) trailers ->
  exists f', feed f (chunked_body chunks last trailers ++ next) =
    Ok ({| fd_header := []; fd_body := chunked_body chunks last trailers;
           fd_consumed := length (chunked_body chunks last trailers); fd_application_url := None |}, f') /\
    fr_phase f' = Header.
Proof.
  intros Hf Hp Hc H Hlast Hz Htr. rewrite feed_body by congruence.
  destruct (run_body_chunked f chunks last trailers next) as (f'&Hr&Hh); [done..|].
  unfold run_body in Hr. rewrite Hr, bind_ret, range_ok, bind_ret by len.
  rewrite drop_0, Nat.sub_0_r, take_app_length. by exists f'.
Qed.

Lemma line_ok_bytes l : Forall (fun b => b <> 13) l -> line_ok l.
Proof.
  intros H r. unfold find_crlf. induction H as [|b l Hb _ IH]; [by destruct r|].
  cbn [app find_window length]. rewrite bool_decide_false; [by rewrite IH|].
  cbn [CRLF length take]. intros E. apply Hb. by injection E.
Qed.

Lemma chunked_body_exact_witness : exists f',
  feed (with_phase (ex_framer Response) BodyChunked 0 0)
    (chunked_body [{| ck_line := bs "5;x=y"; ck_data := bs "hello" |}] (bs "0") [bs "A: b"] ++ bs "HTTP/1.1") =
    Ok ({| fd_header := []; fd_body := bs "5;x=y" ++ CRLF ++ bs "hello" ++ CRLF ++ bs "0" ++ CRLF ++ bs "A: b" ++ CRLF ++ CRLF;
           fd_consumed := 25; fd_application_url := None |}, f') /\ fr_phase f' = Header.
Proof.
  apply (chunked_body_exact (with_phase (ex_framer Response) BodyChunked 0 0)
    [{| ck_line := bs "5;x=y"; ck_data := bs "hello" |}] (bs "0") [bs "A: b"] (bs "HTTP/1.1")).
  - by apply with_phase_ok.
  - done.
  - done.
  - apply Forall_singleton. split; [|by split; [vm_compute|]].
    apply line_ok_bytes. by apply (bool_decide_eq_true_1 (Forall _ _)).
  - apply line_ok_bytes. by apply (bool_decide_eq_true_1 (Forall _ _)).
  - vm_compute. reflexivity.
  - apply Forall_singleton. split; [|done]. apply line_ok_bytes. by apply (bool_decide_eq_true_1 (Forall _ _)).
Defined.
