(* ===== verification/Counters.v ===== *)
(** Outcomes and counters ([src/dispatch/counters.rs]): what handlers report
    for a packet, the fold of several reports into one, and the counters of an
    interface with their log line. *)

From S2P Require Import Prelude Text.

Local Open Scope Z_scope.

Inductive MessageType : Type :=
  | MdnsQuery | MdnsResponse | SsdpAdvertisement | SsdpSearch | SsdpResponse
  | WsdAnnouncement | WsdSearch | WsdResponse | WakeOnLan | UdpDatagram.
Global Instance MessageType_eq_dec : EqDecision MessageType.
Proof. solve_decision. Defined.

Definition ALL : list MessageType :=
  [MdnsQuery; MdnsResponse; SsdpAdvertisement; SsdpSearch; SsdpResponse;
   WsdAnnouncement; WsdSearch; WsdResponse; WakeOnLan; UdpDatagram].
Definition MESSAGE_TYPE_COUNT : nat := length ALL.

(** [t as usize] *)
Definition type_index (t : MessageType) : nat :=
  match t with
  | MdnsQuery => 0 | MdnsResponse => 1 | SsdpAdvertisement => 2 | SsdpSearch => 3 | SsdpResponse => 4
  | WsdAnnouncement => 5 | WsdSearch => 6 | WsdResponse => 7 | WakeOnLan => 8 | UdpDatagram => 9
  end.

Definition labels (t : MessageType) : string * string :=
  match t with
  | MdnsQuery => ("mDNS", "query") | MdnsResponse => ("mDNS", "response")
  | SsdpAdvertisement => ("SSDP", "advertisement") | SsdpSearch => ("SSDP", "search")
  | SsdpResponse => ("SSDP", "response") | WsdAnnouncement => ("WSD", "announcement")
  | WsdSearch => ("WSD", "search") | WsdResponse => ("WSD", "response")
  | WakeOnLan => ("WoL", "") | UdpDatagram => ("UDP relay", "")
  end%string.

(** [Display] *)
Definition show_type (t : MessageType) : bytes :=
  let '(protocol, direction) := labels t in
  if bool_decide (direction = EmptyString) then bs protocol else bs protocol ++ [32] ++ bs direction.

(** The UDP relay's type yields to a protocol's. *)
Definition is_specific (t : MessageType) : bool := negb (bool_decide (t = UdpDatagram)).

Inductive Disposition : Type := DFiltered | DSkipped | DRefused | DStalled | DDropped | DReflected.

(** The derived order: declaration order. *)
Definition rank (d : Disposition) : nat :=
  match d with
  | DFiltered => 0 | DSkipped => 1 | DRefused => 2 | DStalled => 3 | DDropped => 4 | DReflected => 5
  end.

Record Anomalies : Type := { type_mismatch : bool }.

Inductive Outcome : Type :=
  | Reflected (t : MessageType)
  | Skipped (t : MessageType)
  | Refused (t : MessageType)
  | Dropped (t : MessageType)
  | Stalled (t : MessageType)
  | Filtered.
Global Instance Outcome_eq_dec : EqDecision Outcome.
Proof. solve_decision. Defined.

Definition disposition (o : Outcome) : Disposition :=
  match o with
  | Reflected _ => DReflected | Dropped _ => DDropped | Stalled _ => DStalled
  | Refused _ => DRefused | Skipped _ => DSkipped | Filtered => DFiltered
  end.

Definition message_type (o : Outcome) : option MessageType :=
  match o with
  | Reflected t | Skipped t | Refused t | Dropped t | Stalled t => Some t
  | Filtered => None
  end.

Definition with_type (o : Outcome) (t : MessageType) : Outcome :=
  match o with
  | Reflected _ => Reflected t | Skipped _ => Skipped t | Refused _ => Refused t
  | Dropped _ => Dropped t | Stalled _ => Stalled t | Filtered => Filtered
  end.

(** [Outcome::combine] *)
Definition combine (self other : Outcome) : Outcome * Anomalies :=
  let types := (message_type self, message_type other) in
  let anomalies := {| type_mismatch :=
    match types with
    | (Some a, Some b) => negb (bool_decide (a = b)) && is_specific a && is_specific b
    | _ => false
    end |} in
  let merged := if (rank (disposition self) <? rank (disposition other))%nat then other else self in
  let merged :=
    match types with
    | (Some a, Some b) =>
        if negb (Bool.eqb (is_specific a) (is_specific b))
        then with_type merged (if is_specific a then a else b) else merged
    | _ => merged
    end in
  (merged, anomalies).

(** ** Counters *)

Record TypeCounters : Type := { reflected : Z; skipped : Z; refused : Z; dropped : Z; stalled : Z }.
Definition type_counters_zero : TypeCounters :=
  {| reflected := 0; skipped := 0; refused := 0; dropped := 0; stalled := 0 |}.

Record CaptureCounters : Type := {
  types : list TypeCounters;
  filtered : Z;
  echoed : Z;
  recoveries : Z;
  oversized : Z;
  unreassembled : Z;
}.
Definition counters_zero : CaptureCounters :=
  {| types := replicate MESSAGE_TYPE_COUNT type_counters_zero; filtered := 0; echoed := 0;
     recoveries := 0; oversized := 0; unreassembled := 0 |}.

(** [+=] on a [u64] of a release build. *)
Definition add64 (a b : Z) : Z := (a + b) mod 2 ^ 64.

Definition bump_reflected (c : TypeCounters) : TypeCounters :=
  {| reflected := add64 (reflected c) 1; skipped := skipped c; refused := refused c; dropped := dropped c; stalled := stalled c |}.
Definition bump_skipped (c : TypeCounters) : TypeCounters :=
  {| reflected := reflected c; skipped := add64 (skipped c) 1; refused := refused c; dropped := dropped c; stalled := stalled c |}.
Definition bump_refused (c : TypeCounters) : TypeCounters :=
  {| reflected := reflected c; skipped := skipped c; refused := add64 (refused c) 1; dropped := dropped c; stalled := stalled c |}.
Definition bump_dropped (c : TypeCounters) : TypeCounters :=
  {| reflected := reflected c; skipped := skipped c; refused := refused c; dropped := add64 (dropped c) 1; stalled := stalled c |}.
Definition bump_stalled (c : TypeCounters) : TypeCounters :=
  {| reflected := reflected c; skipped := skipped c; refused := refused c; dropped := dropped c; stalled := add64 (stalled c) 1 |}.

(** [self.types[t as usize]] updated in place. *)
Definition at_type {E} (c : CaptureCounters) (t : MessageType) (f : TypeCounters -> TypeCounters) : res E CaptureCounters :=
  row ← idx (types c) (type_index t);
  rows ← set_at (types c) (type_index t) (f row);
  Ok {| types := rows; filtered := filtered c; echoed := echoed c; recoveries := recoveries c;
        oversized := oversized c; unreassembled := unreassembled c |}.

(** [CaptureCounters::record] *)
Definition record {E} (c : CaptureCounters) (o : Outcome) : res E CaptureCounters :=
  match o with
  | Reflected t => at_type c t bump_reflected
  | Skipped t => at_type c t bump_skipped
  | Refused t => at_type c t bump_refused
  | Dropped t => at_type c t bump_dropped
  | Stalled t => at_type c t bump_stalled
  | Filtered => Ok {| types := types c; filtered := add64 (filtered c) 1; echoed := echoed c;
                      recoveries := recoveries c; oversized := oversized c; unreassembled := unreassembled c |}
  end.

Definition record_recovery (c : CaptureCounters) : CaptureCounters :=
  {| types := types c; filtered := filtered c; echoed := echoed c; recoveries := add64 (recoveries c) 1;
     oversized := oversized c; unreassembled := unreassembled c |}.
Definition record_oversized (c : CaptureCounters) (n : Z) : CaptureCounters :=
  {| types := types c; filtered := filtered c; echoed := echoed c; recoveries := recoveries c;
     oversized := add64 (oversized c) n; unreassembled := unreassembled c |}.
Definition record_echo (c : CaptureCounters) : CaptureCounters :=
  {| types := types c; filtered := filtered c; echoed := add64 (echoed c) 1; recoveries := recoveries c;
     oversized := oversized c; unreassembled := unreassembled c |}.
Definition record_unreassembled (c : CaptureCounters) : CaptureCounters :=
  {| types := types c; filtered := filtered c; echoed := echoed c; recoveries := recoveries c;
     oversized := oversized c; unreassembled := add64 (unreassembled c) 1 |}.

(** A [u64] has at most twenty digits. *)
Definition show_u64 (n : Z) : bytes := show_dec_fuel 20 n.

Fixpoint join (sep : bytes) (parts : list bytes) : bytes :=
  match parts with
  | [] => []
  | [p] => p
  | p :: ps => p ++ sep ++ join sep ps
  end.

(** [(!parts.is_empty()).then(|| parts.join(sep))] *)
Definition joined (sep : bytes) (parts : list bytes) : option bytes :=
  match parts with [] => None | _ => Some (join sep parts) end.

Definition field (label : string) (count : Z) : list bytes :=
  if 0 <? count then [bs label ++ [61] ++ show_u64 count] else [].

(** [TypeCounters::format_nonzero] *)
Definition type_format (c : TypeCounters) : option bytes :=
  joined [32] (field "reflected" (reflected c) ++ field "skipped" (skipped c) ++
               field "refused" (refused c) ++ field "dropped" (dropped c) ++ field "stalled" (stalled c)).

(** [CaptureCounters::format_nonzero] *)
Definition counters_format (c : CaptureCounters) : option bytes :=
  joined (bs "; ")
    (field "recoveries" (recoveries c) ++
     omap (fun '(ty, counts) => (fun fields => show_type ty ++ [32] ++ fields) <$> type_format counts)
       (zip ALL (types c)) ++
     field "filtered" (filtered c) ++ field "echoed" (echoed c) ++
     field "oversized" (oversized c) ++ field "unreassembled" (unreassembled c)).

Example counters_format_ex :
  counters_format (record_echo {| types := {| reflected := 42; skipped := 10; refused := 0; dropped := 0; stalled := 0 |}
      :: replicate 9 type_counters_zero; filtered := 2; echoed := 0; recoveries := 1; oversized := 0; unreassembled := 0 |})
  = Some (bs "recoveries=1; mDNS query reflected=42 skipped=10; filtered=2; echoed=1").
Proof. vm_compute. reflexivity. Qed.

(** ** The fold *)

(** What the dispatcher keeps of several handlers' outcomes: the fold, and
    whether any step saw two protocols. *)
Fixpoint combine_all (acc : Outcome) (os : list Outcome) : Outcome * bool :=
  match os with
  | [] => (acc, false)
  | o :: os => let '(acc, a) := combine acc o in
               let '(r, b) := combine_all acc os in (r, type_mismatch a || b)
  end.

(** The protocols named. *)
Definition specific_types (os : list Outcome) : list MessageType :=
  filter (fun t => is_specific t = true) (omap message_type os).

(** The specification of a fold: the highest disposition, under the one
    protocol named if any is. *)
Definition best_rank (os : list Outcome) : nat := max_list (rank ∘ disposition <$> os).

Lemma rank_inj d d' : rank d = rank d' -> d = d'.
Proof. by destruct d, d'. Qed.

Lemma outcome_eq o o' : rank (disposition o) = rank (disposition o') -> message_type o = message_type o' -> o = o'.
Proof. destruct o, o'; cbn; intros; simplify_eq; done. Qed.

(** The type of an outcome counted under a protocol [p], if one is named. *)
Definition typed (p : MessageType) (o : Outcome) : Prop :=
  match message_type o with Some t => t = p \/ t = UdpDatagram | None => True end.

Lemma combine_typed p a b :
  is_specific p = true -> typed p a -> typed p b ->
  let '(m, an) := combine a b in
  typed p m /\ type_mismatch an = false /\
  rank (disposition m) = Nat.max (rank (disposition a)) (rank (disposition b)) /\
  message_type m = match message_type a, message_type b with
                   | None, t | t, None => t
                   | Some x, Some y => Some (if is_specific x then x else y)
                   end.
Proof.
  intros Hp Ha Hb. unfold combine, typed in *.
  assert (is_specific UdpDatagram = false) as Hu by done.
  assert (type_mismatch {| type_mismatch := match message_type a, message_type b with
     | Some a, Some b => negb (bool_decide (a = b)) && is_specific a && is_specific b | _, _ => false end |} = false) as Hmis.
  { cbn. destruct (message_type a) as [x|], (message_type b) as [y|]; try done.
    destruct Ha as [-> | ->], Hb as [-> | ->]; rewrite ?Hp, ?Hu, ?andb_false_r, ?bool_decide_true; done. }
  assert (forall o t, rank (disposition (with_type o t)) = rank (disposition o)) as Hwr by (by intros []).
  assert (forall o t, message_type (with_type o t) = (fun _ => t) <$> message_type o) as Hwt by (by intros []).
  assert (forall o, message_type o = None -> rank (disposition o) = 0%nat) as H0 by (by intros []).
  assert (forall o t, message_type o = Some t -> (0 < rank (disposition o))%nat) as H1 by (intros [] ? ?; cbn; done || lia).
  set (m := if (rank (disposition a) <? rank (disposition b))%nat then b else a).
  assert (rank (disposition m) = Nat.max (rank (disposition a)) (rank (disposition b))) as Hr
    by (subst m; destruct (Nat.ltb_spec (rank (disposition a)) (rank (disposition b))); lia).
  assert (message_type m = if (rank (disposition a) <? rank (disposition b))%nat then message_type b else message_type a) as Hm
    by (subst m; by destruct (_ <? _)%nat).
  clearbody m.
  destruct (message_type a) as [x|] eqn:Ea, (message_type b) as [y|] eqn:Eb.
  - assert (Bool.eqb (is_specific x) (is_specific y) = true -> x = y) as Hxy.
    { destruct Ha as [-> | ->], Hb as [-> | ->]; rewrite ?Hp, ?Hu; done. }
    destruct (Bool.eqb (is_specific x) (is_specific y)) eqn:Es; cbn [negb].
    + specialize (Hxy eq_refl) as ->. split_and!; [by rewrite Hm; destruct (_ <? _)%nat|done|done|].
      rewrite Hm. by destruct (_ <? _)%nat, (is_specific y).
    + assert (is_Some (message_type m)) as [t Et] by (rewrite Hm; by destruct (_ <? _)%nat).
      split_and!; [rewrite Hwt, Et; cbn; by destruct (is_specific x)|done|by rewrite Hwr|].
      by rewrite Hwt, Et.
  - specialize (H1 a x Ea). specialize (H0 b Eb).
    destruct (Nat.ltb_spec (rank (disposition a)) (rank (disposition b))); [lia|]. rewrite Hm. by split_and!.
  - specialize (H1 b y Eb). specialize (H0 a Ea).
    destruct (Nat.ltb_spec (rank (disposition a)) (rank (disposition b))); [|lia]. rewrite Hm. by split_and!.
  - assert (message_type m = None) as Hn by (rewrite Hm; by destruct (_ <? _)%nat). rewrite Hn. by split_and!.
Qed.

Lemma combine_all_typed p a os :
  is_specific p = true -> Forall (typed p) (a :: os) ->
  let '(m, an) := combine_all a os in
  an = false /\ rank (disposition m) = best_rank (a :: os) /\ typed p m /\
  (message_type m = Some p <-> p ∈ omap message_type (a :: os)) /\
  (message_type m = None <-> omap message_type (a :: os) = []).
Proof.
  intros Hp. revert a. induction os as [|o os IH]; intros a H.
  - rewrite Forall_singleton in H. cbn. unfold best_rank. cbn. rewrite Nat.max_0_r.
    split_and!; try done; destruct (message_type a); cbn; rewrite ?list_elem_of_singleton;
      split; try done; try (intros [= ->]; done); try (by intros ->); try (by intros ?%not_elem_of_nil).
  - rewrite !Forall_cons in H. destruct H as (Ha&Ho&Hos). cbn [combine_all].
    pose proof (combine_typed p a o Hp Ha Ho) as Hc. destruct (combine a o) as [m an].
    destruct Hc as (Hm&Han&Hr&Hmt). specialize (IH m ltac:(by constructor)).
    destruct (combine_all m os) as [m' b]. destruct IH as (->&Hr'&Ht&Hp'&Hn). rewrite Han.
    split_and!; [done| |done| |].
    + rewrite Hr'. unfold best_rank. cbn. unfold compose. rewrite Hr. lia.
    + rewrite Hp'. cbn. unfold typed in *. rewrite Hmt.
      destruct (message_type a) as [x|], (message_type o) as [y|]; try done; cbn; rewrite ?elem_of_cons; try done.
      destruct Ha as [-> | ->], Ho as [-> | ->]; rewrite ?Hp; cbn; clear; try tauto; naive_solver.
    + rewrite Hn. cbn. rewrite Hmt. by destruct (message_type a), (message_type o).
Qed.

(** The fold of several handlers' outcomes is order-independent: as long as
    they name at most one protocol, any permutation of them gives the same
    outcome and no anomaly; its disposition is the highest of theirs, and its
    type is the protocol's whenever one of them named it. *)
Theorem combine_order_independent p a os a' os' :
  is_specific p = true -> Forall (typed p) (a :: os) -> a :: os ≡ₚ a' :: os' ->
  combine_all a os = combine_all a' os' /\ (combine_all a os).2 = false /\
  rank (disposition (combine_all a os).1) = best_rank (a :: os) /\
  (p ∈ omap message_type (a :: os) -> message_type (combine_all a os).1 = Some p).
Proof.
  intros Hp H Hperm. pose proof H as H'. rewrite Hperm in H'.
  pose proof (combine_all_typed p a os Hp H) as H1. pose proof (combine_all_typed p a' os' Hp H') as H2.
  assert (best_rank (a :: os) = best_rank (a' :: os')) as Hbest.
  { unfold best_rank. clear -Hperm.
    assert (forall l l' : list nat, l ≡ₚ l' -> max_list l = max_list l') as Hmax.
    { induction 1; cbn; lia. }
    apply Hmax. by rewrite Hperm. }
  destruct (combine_all a os) as [m b], (combine_all a' os') as [m' b'].
  destruct H1 as (->&R1&T1&P1&N1), H2 as (->&R2&T2&P2&N2). rewrite <- Hbest in R2.
  split_and!; try done; [|by intros ?%P1]. f_equal.
  assert (p ∈ omap message_type (a :: os) <-> p ∈ omap message_type (a' :: os')) as Hpe by (by rewrite Hperm).
  assert (omap message_type (a :: os) = [] <-> omap message_type (a' :: os') = []) as Hne.
  { split; intros E; apply Permutation_nil_r.
    - rewrite <- E. by rewrite Hperm.
    - rewrite <- E. by rewrite Hperm. }
  apply outcome_eq; [congruence|]. unfold typed in *.
  destruct (message_type m) as [t|], (message_type m') as [t'|]; try done.
  - destruct (decide (t = p)) as [->|Hn], (decide (t' = p)) as [->|Hn']; try done.
    + exfalso. apply Hn'. assert (Some t' = Some p) as [= E]; [|done]. by apply P2, Hpe, P1.
    + exfalso. apply Hn. assert (Some t = Some p) as [= E]; [|done]. by apply P1, Hpe, P2.
    + f_equal. naive_solver.
  - exfalso. assert (Some t = None) as [=]. by apply N1, Hne, N2.
  - exfalso. assert (Some t' = None) as [=]. by apply N2, Hne, N1.
Qed.

Lemma combine_order_independent_witness :
  combine_all (Reflected UdpDatagram) [Skipped MdnsQuery; Filtered] =
  combine_all Filtered [Reflected UdpDatagram; Skipped MdnsQuery] /\
  (combine_all (Reflected UdpDatagram) [Skipped MdnsQuery; Filtered]).1 = Reflected MdnsQuery.
Proof.
  split; [|reflexivity].
  apply (combine_order_independent MdnsQuery (Reflected UdpDatagram) [Skipped MdnsQuery; Filtered]
    Filtered [Reflected UdpDatagram; Skipped MdnsQuery]); [done|rewrite !Forall_cons, Forall_nil; unfold typed; cbn; tauto|].
  apply (bool_decide_eq_true_1 (_ ≡ₚ _)). reflexivity.
Defined.

(** ** Recording *)

Definition counters_ok (c : CaptureCounters) : Prop := length (types c) = MESSAGE_TYPE_COUNT.

Definition type_value (o : Outcome) (c : TypeCounters) : Z :=
  match o with
  | Reflected _ => reflected c | Skipped _ => skipped c | Refused _ => refused c
  | Dropped _ => dropped c | Stalled _ => stalled c | Filtered => 0
  end.

Lemma type_index_lt t : (type_index t < MESSAGE_TYPE_COUNT)%nat.
Proof. destruct t; cbn; lia. Qed.
Lemma ALL_index t : ALL !! type_index t = Some t.
Proof. by destruct t. Qed.

Lemma at_type_ok {E} c t f : counters_ok c ->
  exists row, types c !! type_index t = Some row /\
    at_type (E:=E) c t f = Ok {| types := <[type_index t := f row]> (types c); filtered := filtered c;
      echoed := echoed c; recoveries := recoveries c; oversized := oversized c; unreassembled := unreassembled c |}.
Proof.
  intros Hc. unfold counters_ok in Hc. pose proof (type_index_lt t) as Hlt. rewrite <- Hc in Hlt.
  destruct (lookup_lt_is_Some_2 _ _ Hlt) as [row Hr]. exists row. split; [done|].
  unfold at_type, idx. rewrite Hr. cbn [expect]. by rewrite bind_ret, set_at_ok, bind_ret.
Qed.

Lemma record_ok {E} c o : counters_ok c -> exists c', record (E:=E) c o = Ok c' /\ counters_ok c'.
Proof.
  intros Hc. destruct o as [t|t|t|t|t|]; cbn [record]; [..|by eexists];
    (edestruct (at_type_ok (E:=E) c t) as (row&_&->); [done|]; eexists; split; [done|]);
    unfold counters_ok; cbn; by rewrite length_insert.
Qed.

(** Recording never panics and counts exactly one event: the row of the
    outcome's type and disposition, or the filtered count, goes up by one and
    every other counter of the interface stays; the row recorded is the one
    the log line labels with that type. *)
Theorem record_counts_one c o :
  counters_ok c ->
  exists c', record (E:=Empty_set) c o = Ok c' /\ counters_ok c' /\
    echoed c' = echoed c /\ recoveries c' = recoveries c /\ oversized c' = oversized c /\
    unreassembled c' = unreassembled c /\
    match message_type o with
    | None => types c' = types c /\ filtered c' = add64 (filtered c) 1
    | Some t => filtered c' = filtered c /\ ALL !! type_index t = Some t /\
        (forall i, i <> type_index t -> types c' !! i = types c !! i) /\
        exists row row', types c !! type_index t = Some row /\ types c' !! type_index t = Some row' /\
          type_value o row' = add64 (type_value o row) 1 /\
          (forall o', disposition o' <> disposition o -> type_value o' row' = type_value o' row)
    end.
Proof.
  intros Hc. pose proof (at_type_ok (E:=Empty_set) c) as Hat.
  destruct o as [t|t|t|t|t|]; cbn [record message_type];
    try match goal with |- context [at_type c t ?f] => destruct (Hat t f Hc) as (row&Hrow&->) end;
    unfold counters_ok in Hc; eexists; (split; [done|]); cbn; unfold counters_ok; cbn;
    rewrite ?length_insert; split_and!; try done; try apply ALL_index;
    try (intros i Hi; by rewrite list_lookup_insert_ne by congruence);
    (do 2 eexists; split_and!; [exact Hrow|rewrite list_lookup_insert_eq; [done|by eapply lookup_lt_Some]|done|
       by intros [] Ho]).
Qed.

Lemma record_counts_one_witness : exists c',
  record (E:=Empty_set) counters_zero (Dropped SsdpSearch) = Ok c' /\ counters_ok c' /\ filtered c' = 0.
Proof.
  destruct (record_counts_one counters_zero (Dropped SsdpSearch) eq_refl) as (c'&E&Hok&_&_&_&_&Hf&_).
  exists c'. split; [exact E|]. split; [exact Hok|exact Hf].
Defined.

(** An idle row, or an idle interface, logs nothing. *)
Lemma field_nil label n : 0 <= n -> (field label n = [] <-> n = 0).
Proof. intros. unfold field. destruct (Z.ltb_spec 0 n); split; try done; lia. Qed.
