(* ===== verification/Names.v ===== *)
(** Checked names: the interface names of [src/interface/name.rs] and the
    DNS-SD service types of [src/net/mdns/services.rs]. *)

From S2P Require Import Prelude Text Addr UniqueList.

Local Open Scope Z_scope.

(** [s.chars().any(char::is_whitespace)]: an encoding of a white character is
    found in UTF-8 text only where the character is. *)
Fixpoint has_white (s : bytes) : bool :=
  match s with
  | [] => false
  | _ :: s' => bool_decide (is_Some (strip_any white_chars s)) || has_white s'
  end.

(** ** Interface names *)

(** [libc::IF_NAMESIZE], the same on every supported platform. *)
Definition IF_NAMESIZE : nat := 16.

(** [InterfaceName]: the checked text. *)
Record InterfaceName : Type := { if_str : bytes }.
Global Instance InterfaceName_eq_dec : EqDecision InterfaceName.
Proof. solve_decision. Defined.

Inductive ParseInterfaceNameError : Type := Blank | TooLong | Colon | Nul.
Global Instance ParseInterfaceNameError_eq_dec : EqDecision ParseInterfaceNameError.
Proof. solve_decision. Defined.

(** [InterfaceName::from_str] *)
Definition interface_name_from_str (s : bytes) : res ParseInterfaceNameError InterfaceName :=
  if bool_decide (s = []) || has_white s then Err Blank
  else if (IF_NAMESIZE <=? length s)%nat then Err TooLong
  else if existsb (Z.eqb 58) s then Err Colon
  else if existsb (Z.eqb 0) s then Err Nul
  else Ok {| if_str := s |}.

(** [InterfaceName::deserialize] *)
Definition interface_name_deserialize (s : bytes) : res SerdeError InterfaceName :=
  map_err (fun _ => Custom) (interface_name_from_str s).

(** [InterfaceName::to_c_array]: the zip stops at the shorter side; an octet
    stands for the [c_char] of the same bits. *)
Definition to_c_array (n : InterfaceName) : bytes :=
  take IF_NAMESIZE (if_str n) ++ replicate (IF_NAMESIZE - length (if_str n)) 0.

(** What an [InterfaceName] promises. *)
Definition interface_name_ok (n : InterfaceName) : Prop :=
  if_str n <> [] /\ (length (if_str n) < IF_NAMESIZE)%nat /\ has_white (if_str n) = false /\
  58 ∉ if_str n /\ 0 ∉ if_str n.

(** The string a C reader finds in a buffer: up to the first NUL, which must be
    there. *)
Fixpoint c_str (buf : bytes) : option bytes :=
  match buf with
  | [] => None
  | b :: buf => if b =? 0 then Some [] else s ← c_str buf; Some (b :: s)
  end.

Lemma existsb_eqb_elem x (s : bytes) : existsb (Z.eqb x) s = false <-> x ∉ s.
Proof.
  induction s as [|y s IH]; cbn [existsb].
  - split; [intros _ H; by apply elem_of_nil in H|done].
  - rewrite orb_false_iff, IH, Z.eqb_neq, not_elem_of_cons. tauto.
Qed.

Lemma c_str_pad s n : 0 ∉ s -> (0 < n)%nat -> c_str (s ++ replicate n 0) = Some s.
Proof.
  intros Hs Hn. induction s as [|b s IH].
  - destruct n as [|n]; [lia|done].
  - apply not_elem_of_cons in Hs as [Hb Hs]. cbn [app c_str].
    destruct (Z.eqb_spec b 0); [congruence|]. by rewrite IH.
Qed.

Lemma interface_name_from_str_Ok s n :
  interface_name_from_str s = Ok n <-> n = {| if_str := s |} /\ interface_name_ok n.
Proof.
  unfold interface_name_from_str, interface_name_ok.
  destruct (bool_decide_reflect (s = [])) as [-> | Hne].
  { cbn [orb]. split; [done|]. intros (->&H&_). by destruct H. }
  destruct (has_white s) eqn:Hw; cbn [orb].
  { split; [done|]. intros (->&_&_&H&_). cbn in H. congruence. }
  destruct (Nat.leb_spec IF_NAMESIZE (length s)).
  { split; [done|]. intros (->&_&H'&_). cbn [if_str] in H'. lia. }
  destruct (existsb (Z.eqb 58) s) eqn:Hc.
  { split; [done|]. intros (->&_&_&_&H'&_). apply existsb_eqb_elem in H'. cbn [if_str] in H'. congruence. }
  destruct (existsb (Z.eqb 0) s) eqn:Hz.
  { split; [done|]. intros (->&_&_&_&_&H'). apply existsb_eqb_elem in H'. cbn [if_str] in H'. congruence. }
  apply existsb_eqb_elem in Hc, Hz.
  split; [intros [= <-]|intros (->&_); done]. cbn [if_str]. split_and!; done || lia.
Qed.

(** An accepted interface name reaches the kernel as is: the name field is
    [IF_NAMESIZE] octets and, read as a C string, is the configured text.
    Nothing else is accepted under that text. *)
Theorem interface_name_reaches_kernel s n :
  interface_name_from_str s = Ok n ->
  length (to_c_array n) = IF_NAMESIZE /\ c_str (to_c_array n) = Some s /\ interface_name_ok n.
Proof.
  intros (->&H)%interface_name_from_str_Ok. pose proof H as (_&Hl&_&_&Hz).
  unfold to_c_array. cbn [if_str] in *. rewrite take_ge by lia. split_and!.
  - rewrite length_app, length_replicate. lia.
  - apply c_str_pad; [done|lia].
  - done.
Qed.

Lemma interface_name_reaches_kernel_witness :
  c_str (to_c_array {| if_str := bs "eth0.100" |}) = Some (bs "eth0.100").
Proof. apply (interface_name_reaches_kernel (bs "eth0.100") {| if_str := bs "eth0.100" |}). reflexivity. Defined.

Example interface_name_errors :
  interface_name_from_str (bs "eth0:1") = Err Colon /\ interface_name_from_str (bs " eth0") = Err Blank /\
  interface_name_from_str (bs "enp0s31f6u2u1c22") = Err TooLong.
Proof. by vm_compute. Qed.

(** ** Service types *)

Definition MAX_SERVICE_LEN : nat := 62.

Inductive Proto : Type := Tcp | Udp.
Global Instance Proto_eq_dec : EqDecision Proto.
Proof. solve_decision. Defined.

Definition from_label (label : bytes) : option Proto :=
  if eq_ic label (bs "_tcp") then Some Tcp
  else if eq_ic label (bs "_udp") then Some Udp else None.

Definition proto_label (p : Proto) : bytes :=
  match p with Tcp => bs "_tcp" | Udp => bs "_udp" end.

(** [ServiceType]: the label in a zero-padded array of [MAX_SERVICE_LEN]. *)
Record ServiceType : Type := { st_service : bytes; st_len : nat; st_proto : Proto }.
Global Instance ServiceType_eq_dec : EqDecision ServiceType.
Proof. solve_decision. Defined.

(** [ServiceType::from_wire] *)
Definition from_wire (service : bytes) (proto : Proto) : option ServiceType :=
  if negb ((1 <=? length service) && (length service <=? MAX_SERVICE_LEN))%nat then None
  else Some {| st_service := to_lower <$> (service ++ replicate (MAX_SERVICE_LEN - length service) 0);
               st_len := length service;
               st_proto := proto |}.

(** [ServiceType::service]; the length never exceeds the array. *)
Definition service (t : ServiceType) : bytes := take (st_len t) (st_service t).

(** [u8::escape_ascii] *)
Definition escape_byte (b : Z) : bytes :=
  if b =? 9 then [92; 116] else if b =? 10 then [92; 110] else if b =? 13 then [92; 114]
  else if (b =? 34) || (b =? 39) || (b =? 92) then [92; b]
  else if (32 <=? b) && (b <=? 126) then [b]
  else [92; 120] ++ show_hex2 b.

(** [ServiceType]'s [Display] *)
Definition service_display (t : ServiceType) : bytes :=
  [95] ++ mjoin (escape_byte <$> service t) ++ [46] ++ proto_label (st_proto t).

Definition LOCAL_SUFFIX : bytes := bs ".local".

(** [str::strip_suffix('.')], with the text itself when there is none *)
Definition strip_root_dot (s : bytes) : bytes :=
  if bool_decide (last s = Some 46) then take (length s - 1) s else s.

(** [ServiceType::from_str] *)
Definition service_from_str (s : bytes) : option ServiceType :=
  let s := strip_root_dot s in
  let cut := (length s - length LOCAL_SUFFIX)%nat in
  let s := if (length LOCAL_SUFFIX <=? length s)%nat && eq_ic (drop cut s) LOCAL_SUFFIX
           then take cut s else s in
  i ← position (Z.eqb 46) s;
  let '(service, proto) := (take i s, drop (S i) s) in
  proto ← from_label proto;
  match service with
  | 95 :: service =>
      if forallb (fun b => is_alphanumeric b || (b =? 45) || (b =? 95)) service
      then from_wire service proto else None
  | _ => None
  end.

(** [ServiceType::deserialize] *)
Definition service_deserialize (s : bytes) : res SerdeError ServiceType := ok_or (service_from_str s) Custom.

(** [Services]: any type but DNS-SD's own. *)
#[export] Instance Services : ListRule ServiceType := {
  NOUN := bs "service type";
  refuse := fun item => if bool_decide (service item = bs "dns-sd")
                        then Some (bs "names DNS-SD's own records, not a service") else None;
  item_parse := service_from_str;
}.
Abbreviation ServiceList := (list ServiceType).

Example service_from_str_ex :
  service_from_str (bs "_IPP._TCP.Local.") = from_wire (bs "ipp") Tcp /\
  service_from_str (bs "ipp._tcp") = None /\ service_from_str (bs "_ipp._sctp") = None /\
  (service_display <$> service_from_str (bs "_androidtvremote2._tcp")) = Some (bs "_androidtvremote2._tcp").
Proof. by vm_compute. Qed.

(** A service label that [from_str] accepts: its octets, and how they print. *)
Definition label_byte (b : Z) : bool := is_alphanumeric b || (b =? 45) || (b =? 95).

Lemma from_wire_Some l p t :
  from_wire l p = Some t <->
  t = {| st_service := to_lower <$> (l ++ replicate (MAX_SERVICE_LEN - length l) 0);
         st_len := length l; st_proto := p |} /\ (1 <= length l <= MAX_SERVICE_LEN)%nat.
Proof.
  unfold from_wire. split.
  - intros H. destruct (negb _) eqn:E in H; [done|]. apply negb_false_iff in E.
    injection H as <-. split; [done|lia].
  - intros (->&H). destruct (negb _) eqn:E; [|done]. apply negb_true_iff in E. lia.
Qed.

Lemma from_wire_service l p t : from_wire l p = Some t -> service t = to_lower <$> l.
Proof.
  intros (->&H)%from_wire_Some. unfold service. cbn [st_len st_service].
  rewrite fmap_app. by rewrite take_app_length' by (by rewrite length_fmap).
Qed.

(** The bytes a service label takes, checked one by one. *)
Lemma label_byte_all :
  forallb (fun b => implb (label_byte b)
    (bool_decide (escape_byte (to_lower b) = [to_lower b]) && label_byte (to_lower b) &&
     negb (to_lower b =? 46))) (seqZ 0 128) = true.
Proof. vm_compute. reflexivity. Qed.

Lemma label_byte_ok b :
  label_byte b = true ->
  escape_byte (to_lower b) = [to_lower b] /\ label_byte (to_lower b) = true /\ (46 =? to_lower b) = false.
Proof.
  intros H. pose proof label_byte_all as Ha. rewrite forallb_forall in Ha. specialize (Ha b).
  rewrite <- list_elem_of_In, elem_of_seqZ in Ha.
  assert (0 <= b < 128) by (unfold label_byte, is_alphanumeric, is_digit, is_upper, is_lower in H; lia).
  specialize (Ha ltac:(lia)). rewrite H in Ha. cbn [implb] in Ha.
  rewrite !andb_true_iff, bool_decide_eq_true in Ha. destruct Ha as ((?&?)&?). split_and!; [done..|lia].
Qed.

Lemma label_bytes_display l :
  forallb label_byte l = true ->
  mjoin (escape_byte <$> (to_lower <$> l)) = to_lower <$> l /\
  forallb label_byte (to_lower <$> l) = true /\
  Forall (fun b => (46 =? b) = false) (to_lower <$> l).
Proof.
  induction l as [|b l IH]; [by intros _; split_and!|]. cbn [forallb]. intros [Hb Hl]%andb_true_iff.
  destruct (label_byte_ok b Hb) as (E&Hb'&Hd), (IH Hl) as (IH1&IH2&IH3).
  rewrite !fmap_cons, E. cbn [forallb]. rewrite Hb'. split_and!.
  - change (to_lower b :: mjoin (escape_byte <$> (to_lower <$> l)) = to_lower b :: (to_lower <$> l)).
    by rewrite IH1.
  - done.
  - by constructor.
Qed.

Lemma to_lower_fmap_idem (l : bytes) : to_lower <$> (to_lower <$> l) = to_lower <$> l.
Proof. rewrite <- list_fmap_compose. apply list_fmap_ext. intros i b _. apply to_lower_idem. Qed.

Lemma from_wire_lower l p : from_wire (to_lower <$> l) p = from_wire l p.
Proof.
  unfold from_wire. rewrite length_fmap. destruct (negb _); [done|]. do 2 f_equal.
  by rewrite !fmap_app, to_lower_fmap_idem.
Qed.

(** What [service_from_str] reads when there is no domain to drop. *)
Lemma service_from_str_plain l p :
  forallb label_byte l = true -> Forall (fun b => (46 =? b) = false) l ->
  service_from_str (95 :: l ++ 46 :: proto_label p) = from_wire l p.
Proof.
  intros Hl Hd. destruct (exists_last (l:=95 :: l)) as (pre&x&E); [done|].
  rewrite app_comm_cons, E. unfold service_from_str.
  assert (strip_root_dot ((pre ++ [x]) ++ 46 :: proto_label p) = (pre ++ [x]) ++ 46 :: proto_label p) as ->.
  { unfold strip_root_dot. rewrite bool_decide_false; [done|]. rewrite last_app_cons. by destruct p. }
  assert ((length ((pre ++ [x]) ++ 46%Z :: proto_label p) - length LOCAL_SUFFIX = length pre)%nat) as ->
    by (rewrite !length_app; destruct p; cbn; lia).
  rewrite <- app_assoc, drop_app_length. cbn [app].
  assert (eq_ic (x :: 46 :: proto_label p) LOCAL_SUFFIX = false) as ->.
  { apply bool_decide_eq_false. destruct p; intros [=]. }
  rewrite andb_false_r.
  replace (pre ++ x :: 46 :: proto_label p) with ((95 :: l) ++ 46 :: proto_label p)
    by (by rewrite E, <- app_assoc).
  rewrite position_app_none by (by constructor).
  cbn [position Z.eqb Pos.eqb fmap option_fmap option_map mbind option_bind].
  rewrite Nat.add_0_r, take_app_length.
  replace (drop (S (length (95 :: l))) ((95 :: l) ++ 46 :: proto_label p)) with (proto_label p)
    by (rewrite <- Nat.add_1_r, <- drop_drop, drop_app_length; done).
  replace (from_label (proto_label p)) with (Some p) by (by destruct p).
  cbn [mbind option_bind]. change (fun b => is_alphanumeric b || (b =? 45) || (b =? 95)) with label_byte.
  by rewrite Hl.
Qed.

(** A service type survives its text form: whatever spelling was accepted
    (any case, with or without the [local] domain), the displayed type parses
    back to the same value, so [Eq] is DNS's identity of names. *)
Theorem service_text_roundtrip s t :
  service_from_str s = Some t -> service_from_str (service_display t) = Some t.
Proof.
  intros H. unfold service_from_str in H.
  set (s' := if _ && _ then take _ _ else _) in H. clearbody s'. cbv zeta beta in H.
  apply bind_Some in H as (i&_&H). cbv beta iota in H. apply bind_Some in H as (p&_&H).
  destruct (take i s') as [|b l]; [done|].
  assert (b = 95 /\ forallb label_byte l = true /\ from_wire l p = Some t) as (->&Hl&Ht).
  { repeat (destruct b as [|b|b]; try done). 
    change (fun b0 => is_alphanumeric b0 || (b0 =? 45) || (b0 =? 95)) with label_byte in H.
    destruct (forallb label_byte l); done. }
  unfold service_display. rewrite (from_wire_service _ _ _ Ht).
  destruct (label_bytes_display l Hl) as (->&Hl'&Hd).
  change ([95] ++ (to_lower <$> l) ++ [46] ++ proto_label (st_proto t))
    with (95 :: (to_lower <$> l) ++ 46 :: proto_label (st_proto t)).
  rewrite service_from_str_plain by done. rewrite from_wire_lower.
  pose proof Ht as (->&_)%from_wire_Some. exact Ht.
Qed.

Lemma service_text_roundtrip_witness :
  exists t, service_from_str (bs "_IPP._tcp.local.") = Some t /\ service_display t = bs "_ipp._tcp" /\
    service_from_str (service_display t) = Some t.
Proof.
  eexists. split; [vm_compute; reflexivity|]. split; [vm_compute; reflexivity|].
  apply (service_text_roundtrip (bs "_IPP._tcp.local.")). vm_compute. reflexivity.
Defined.
