(* ===== verification/Interface.v ===== *)
(** An interface's source addresses ([src/interface.rs]): what it holds, how a
    read is adopted, and the choice of its IPv6 sources. *)

From S2P Require Import Prelude Text Addr Names.

Local Open Scope Z_scope.

(** [InterfaceAddresses] *)
Record InterfaceAddresses : Type := {
  ia_mac : option MacAddr;
  ia_v4 : option Z;
  ia_v4_prefix : option Z;
  ia_v6 : option Z;
  ia_v6_routable : option Z;
}.
Global Instance InterfaceAddresses_eq_dec : EqDecision InterfaceAddresses.
Proof. solve_decision. Defined.

(** [InterfaceAddresses::default] *)
Definition no_addrs : InterfaceAddresses :=
  {| ia_mac := None; ia_v4 := None; ia_v4_prefix := None; ia_v6 := None; ia_v6_routable := None |}.

(** [InterfaceAddresses::v4_directed_broadcast] *)
Definition v4_directed_broadcast (a : InterfaceAddresses) : option Z :=
  addr ← ia_v4 a;
  prefix ← ia_v4_prefix a;
  if 30 <? prefix then None
  else Some (Z.lor addr (Z.shiftr (2 ^ 32 - 1) prefix)).

(** [Ipv6Scope] *)
Inductive Ipv6Scope : Type := ScopeLinkLocal | ScopeRoutable.

(** [is_multicast_link_local] *)
Definition is_multicast_link_local (addr : Z) : bool :=
  Ipv6.is_multicast addr && (Z.land (v6_octet 1 addr) 15 =? 2).

(** [Ipv6Scope::of] *)
Definition scope_of_v6 (addr : Z) : Ipv6Scope :=
  if is_multicast_link_local addr || Ipv6.is_unicast_link_local addr then ScopeLinkLocal else ScopeRoutable.

(** [InterfaceAddresses::v6] *)
Definition source_v6 (a : InterfaceAddresses) (dest_scope : Ipv6Scope) : option Z :=
  match dest_scope with
  | ScopeLinkLocal => ia_v6 a
  | ScopeRoutable => match ia_v6_routable a with Some v6 => Some v6 | None => ia_v6 a end
  end.

(** [InterfaceAddresses::has], [has_v4] and [has_v6] *)
Definition has (a : InterfaceAddresses) (addr : IpAddr) : bool :=
  match addr with
  | V4 v4 => bool_decide (ia_v4 a = Some v4)
  | V6 v6 => bool_decide (ia_v6 a = Some v6) || bool_decide (ia_v6_routable a = Some v6)
  end.
Definition has_v4 (a : InterfaceAddresses) : bool := bool_decide (is_Some (ia_v4 a)).
Definition has_v6 (a : InterfaceAddresses) : bool := bool_decide (is_Some (ia_v6 a)).

(** [AddressChange] *)
Record AddressChange : Type := { ch_mac : bool; ch_v4 : bool; ch_v6 : bool }.
Definition no_change : AddressChange := {| ch_mac := false; ch_v4 := false; ch_v6 := false |}.

(** [Reading]; [loopback] exists on the BSDs and macOS. *)
Record Reading : Type := { rd_addrs : InterfaceAddresses; rd_mtu : option Z; rd_loopback : bool }.

(** [Interface] *)
Record Interface : Type := {
  if_name : InterfaceName;
  if_addrs : InterfaceAddresses;
  if_mtu : option Z;
  if_loopback : bool;
}.

(** [log_field_change], whose value is whether the field changed *)
Definition field_changed {A} `{EqDecision A} (old new : option A) : bool := negb (bool_decide (old = new)).

(** [Interface::replace_addrs] *)
Definition replace_addrs (i : Interface) (addrs : InterfaceAddresses) (mtu : option Z) : AddressChange * Interface :=
  let v6 := field_changed (ia_v6 (if_addrs i)) (ia_v6 addrs) in
  let v6_routable := field_changed (ia_v6_routable (if_addrs i)) (ia_v6_routable addrs) in
  ({| ch_mac := field_changed (ia_mac (if_addrs i)) (ia_mac addrs);
      ch_v4 := field_changed (ia_v4 (if_addrs i)) (ia_v4 addrs);
      ch_v6 := v6 || v6_routable |},
   {| if_name := if_name i; if_addrs := addrs; if_mtu := mtu; if_loopback := if_loopback i |}).

(** [Interface::take_link] *)
Definition take_link (i : Interface) (r : Reading) : Interface :=
  {| if_name := if_name i; if_addrs := if_addrs i; if_mtu := if_mtu i; if_loopback := rd_loopback r |}.

(** [Interface::adopt] *)
Definition adopt (i : Interface) (r : Reading) : AddressChange * Interface :=
  replace_addrs (take_link i r) (rd_addrs r) (rd_mtu r).

(** [Interface::forget] *)
Definition forget (i : Interface) : AddressChange * Interface := replace_addrs i no_addrs None.

(** ** The IPv6 sources *)

(** [V6Rank], worst to best *)
Inductive V6Rank : Type := NotASource | Global | UniqueLocal | LinkLocal.
Definition v6_rank_index (r : V6Rank) : nat :=
  match r with NotASource => 0 | Global => 1 | UniqueLocal => 2 | LinkLocal => 3 end.

(** [v6_rank] *)
Definition v6_rank (addr : Z) : V6Rank :=
  if Ipv6.is_multicast addr || Ipv6.is_unspecified addr || Ipv6.is_loopback addr then NotASource
  else if Ipv6.is_unicast_link_local addr then LinkLocal
  else if Ipv6.is_unique_local addr then UniqueLocal
  else Global.

Record V6Pick : Type := { best_rank : V6Rank; best_routable_rank : V6Rank }.
Definition v6_pick_new : V6Pick := {| best_rank := NotASource; best_routable_rank := NotASource |}.

Definition rank_lt (a b : V6Rank) : bool := (v6_rank_index a <? v6_rank_index b)%nat.

(** [V6Pick::consider] *)
Definition consider (p : V6Pick) (a : InterfaceAddresses) (addr : Z) : V6Pick * InterfaceAddresses :=
  let rank := v6_rank addr in
  if decide (v6_rank_index rank = 0%nat) then (p, a)
  else
    let first := bool_decide (ia_v6 a = None) || rank_lt (best_rank p) rank in
    let routable := rank_lt rank LinkLocal &&
      (bool_decide (ia_v6_routable a = None) || rank_lt (best_routable_rank p) rank) in
    ({| best_rank := if first then rank else best_rank p;
        best_routable_rank := if routable then rank else best_routable_rank p |},
     {| ia_mac := ia_mac a; ia_v4 := ia_v4 a; ia_v4_prefix := ia_v4_prefix a;
        ia_v6 := if first then Some addr else ia_v6 a;
        ia_v6_routable := if routable then Some addr else ia_v6_routable a |}).

(** The scan of a back end over an interface's usable addresses. *)
Fixpoint consider_all (p : V6Pick) (a : InterfaceAddresses) (addrs : list Z) : V6Pick * InterfaceAddresses :=
  match addrs with
  | [] => (p, a)
  | addr :: addrs => let '(p, a) := consider p a addr in consider_all p a addrs
  end.

(** ** What is picked *)

(** An address that can be a source, of a rank [ok] accepts. *)
Definition usable_v6 (ok : V6Rank -> bool) (addr : Z) : bool := rank_lt NotASource (v6_rank addr) && ok (v6_rank addr).

(** The best of [addrs]: the first of those of the highest rank. *)
Definition best_source (ok : V6Rank -> bool) (addrs : list Z) (best : option Z) : Prop :=
  match best with
  | None => Forall (fun x => usable_v6 ok x = false) addrs
  | Some b =>
      usable_v6 ok b = true /\
      exists before after, addrs = before ++ b :: after /\
        Forall (fun x => usable_v6 ok x = true -> rank_lt (v6_rank x) (v6_rank b) = true) before /\
        Forall (fun x => usable_v6 ok x = true -> rank_lt (v6_rank b) (v6_rank x) = false) after
  end.

Definition any_rank (_ : V6Rank) : bool := true.
Definition below_link_local (r : V6Rank) : bool := rank_lt r LinkLocal.

Definition best_rank_of (best : option Z) : V6Rank := match best with Some b => v6_rank b | None => NotASource end.

(** One more address. *)
Lemma best_source_snoc ok addrs best x :
  best_source ok addrs best ->
  best_source ok (addrs ++ [x])
    (if usable_v6 ok x && (bool_decide (best = None) || rank_lt (best_rank_of best) (v6_rank x)) then Some x else best).
Proof.
  intros H. destruct (usable_v6 ok x) eqn:Hx; cbn [andb].
  2: { destruct best as [b|]; cbn in *.
       - destruct H as (Hb&before&after&->&H1&H2). split; [done|]. exists before, (after ++ [x]).
         rewrite <- app_assoc. split_and!; [done|done|]. apply Forall_app. split; [done|]. constructor; [by rewrite Hx|done].
       - apply Forall_app. split; [done|by constructor]. }
  destruct best as [b|]; cbn [best_rank_of] in *.
  - rewrite bool_decide_false by done. cbn [orb]. destruct H as (Hb&before&after&->&H1&H2).
    destruct (rank_lt (v6_rank b) (v6_rank x)) eqn:Hlt.
    + split; [done|]. exists (before ++ b :: after), []. split_and!; [done| |done].
      apply Forall_app. split; [|constructor; [done|]].
      * eapply Forall_impl; [exact H1|]. intros y Hy Hu. specialize (Hy Hu). unfold rank_lt in *. lia.
      * eapply Forall_impl; [exact H2|]. intros y Hy Hu. specialize (Hy Hu). unfold rank_lt in *. lia.
    + split; [done|]. exists before, (after ++ [x]). rewrite <- app_assoc. split_and!; [done|done|].
      apply Forall_app. split; [done|]. by constructor.
  - rewrite bool_decide_true by done. cbn [orb]. split; [done|]. exists addrs, []. split_and!; [done| |done].
    eapply Forall_impl; [exact H|]. intros y Hy Hu. cbn in Hy. congruence.
Qed.

(** What a scan has picked so far. *)
Definition picked (p : V6Pick) (a : InterfaceAddresses) (addrs : list Z) : Prop :=
  best_source any_rank addrs (ia_v6 a) /\ best_rank p = best_rank_of (ia_v6 a) /\
  best_source below_link_local addrs (ia_v6_routable a) /\ best_routable_rank p = best_rank_of (ia_v6_routable a).

Lemma consider_picked p a addrs x :
  picked p a addrs ->
  let '(p', a') := consider p a x in
  picked p' a' (addrs ++ [x]) /\ ia_mac a' = ia_mac a /\ ia_v4 a' = ia_v4 a /\ ia_v4_prefix a' = ia_v4_prefix a.
Proof.
  intros (H1&E1&H2&E2). apply (best_source_snoc _ _ _ x) in H1. apply (best_source_snoc _ _ _ x) in H2.
  unfold consider. case_decide as Hz.
  - assert (Hu : forall ok, usable_v6 ok x = false) by (intros ok; unfold usable_v6, rank_lt; rewrite Hz; done).
    rewrite Hu in H1, H2. cbn [andb] in H1, H2. by split_and!.
  - assert (Hu : forall ok, usable_v6 ok x = ok (v6_rank x)).
    { intros ok. unfold usable_v6. replace (rank_lt NotASource (v6_rank x)) with true; [done|]. symmetry. apply Nat.ltb_lt. cbn [v6_rank_index]. lia. }
    rewrite Hu in H1, H2. rewrite E1, E2. unfold any_rank in H1 at 2. unfold below_link_local in H2 at 2. cbn [andb] in H1.
    cbv zeta. split_and!; [|reflexivity..]. unfold picked. cbn [ia_v6 ia_v6_routable best_rank best_routable_rank].
    split_and!; [exact H1| |exact H2|].
    + by destruct (_ || _).
    + by destruct (rank_lt (v6_rank x) LinkLocal && _).
Qed.

Lemma consider_all_picked p a addrs more :
  picked p a addrs ->
  let '(p', a') := consider_all p a more in
  picked p' a' (addrs ++ more) /\ ia_mac a' = ia_mac a /\ ia_v4 a' = ia_v4 a /\ ia_v4_prefix a' = ia_v4_prefix a.
Proof.
  revert p a addrs. induction more as [|x more IH]; intros p a addrs H; cbn [consider_all]; [by rewrite app_nil_r|].
  pose proof (consider_picked p a addrs x H) as Hc. destruct (consider p a x) as [p1 a1]. destruct Hc as (H1&E1&E2&E3).
  specialize (IH p1 a1 (addrs ++ [x]) H1). destruct (consider_all p1 a1 more) as [p2 a2].
  rewrite <- app_assoc in IH. destruct IH as (H2&F1&F2&F3). split_and!; [done|congruence..].
Qed.

(** Whatever the addresses of an interface and their order, the scan picks
    as its IPv6 source the first of the best-ranked ones, link-local before
    unique-local before global, and as its routable source the first of the
    best-ranked ones that are not link-local; so it has an IPv6 source exactly
    when any address can be one, and a send to a routable destination leaves
    from a routable address whenever there is one. *)
Theorem v6_sources_picked a addrs :
  ia_v6 a = None -> ia_v6_routable a = None ->
  let '(_, a') := consider_all v6_pick_new a addrs in
  best_source any_rank addrs (source_v6 a' ScopeLinkLocal) /\
  (best_source below_link_local addrs (source_v6 a' ScopeRoutable) \/
   Forall (fun x => usable_v6 below_link_local x = false) addrs /\ source_v6 a' ScopeRoutable = source_v6 a' ScopeLinkLocal) /\
  (has_v6 a' = existsb (usable_v6 any_rank) addrs) /\
  ia_mac a' = ia_mac a /\ ia_v4 a' = ia_v4 a /\ ia_v4_prefix a' = ia_v4_prefix a.
Proof.
  intros H1 H2. pose proof (consider_all_picked v6_pick_new a [] addrs) as H.
  destruct (consider_all v6_pick_new a addrs) as [p a'].
  destruct H as ((Hb&_&Hr&_)&E1&E2&E3).
  { unfold picked. rewrite H1, H2. by split_and!; [constructor| |constructor|]. }
  cbn [app] in Hb, Hr. cbn [source_v6]. split_and!; try done.
  - destruct (ia_v6_routable a') as [r|]; [by left|by right].
  - unfold has_v6. destruct (ia_v6 a') as [b|].
    + rewrite bool_decide_true by done. destruct Hb as (Hu&before&after&->&_). symmetry. apply existsb_exists.
      exists b. split; [|done]. apply in_or_app. right. by left.
    + rewrite bool_decide_false by (by intros [? ?]). symmetry. apply not_true_iff_false. intros (x&Hx&Hu)%existsb_exists.
      cbn in Hb. rewrite List.Forall_forall in Hb. by rewrite (Hb x Hx) in Hu.
Qed.

Lemma v6_sources_picked_witness :
  let '(_, a') := consider_all v6_pick_new no_addrs [Ipv6.new 8193 3512 0 0 0 0 0 2; Ipv6.new 65152 0 0 0 0 0 0 2] in
  has_v6 a' = true.
Proof.
  pose proof (v6_sources_picked no_addrs [Ipv6.new 8193 3512 0 0 0 0 0 2; Ipv6.new 65152 0 0 0 0 0 0 2] eq_refl eq_refl) as H.
  vm_compute in H |- *. apply H.
Defined.

(** The directed broadcast keeps the subnet's bits and sets every host
    bit, and a /31 or /32 has none. *)
Theorem directed_broadcast_bits a addr prefix :
  ia_v4 a = Some addr -> ia_v4_prefix a = Some prefix -> 0 <= prefix <= 32 -> word_ok 32 addr ->
  match v4_directed_broadcast a with
  | None => 31 <= prefix
  | Some b =>
      prefix <= 30 /\ word_ok 32 b /\
      forall i, 0 <= i < 32 -> Z.testbit b i = if 32 - prefix <=? i then Z.testbit addr i else true
  end.
Proof.
  intros H1 H2 Hp Ha. unfold v4_directed_broadcast. rewrite H1, H2. cbn [mbind option_bind].
  destruct (Z.ltb_spec 30 prefix) as [|Hle]; [lia|].
  assert (Hbit : forall i, 0 <= i -> Z.testbit (Z.lor addr (Z.shiftr (2 ^ 32 - 1) prefix)) i = Z.testbit addr i || (i <? 32 - prefix)).
  { intros i Hi. rewrite Z.lor_spec, Z.shiftr_spec by lia. change (2 ^ 32 - 1) with (Z.ones 32).
    rewrite Z.testbit_ones by lia. f_equal. lia. }
  split_and!; [lia| |].
  - unfold word_ok in *. split.
    + apply Z.lor_nonneg. split; [lia|]. apply Z.shiftr_nonneg. lia.
    + destruct (Z.lt_ge_cases (Z.lor addr (Z.shiftr (2 ^ 32 - 1) prefix)) (2 ^ 32)) as [|Hge]; [done|exfalso].
      set (b := Z.lor addr (Z.shiftr (2 ^ 32 - 1) prefix)) in *.
      assert (Hl : 32 <= Z.log2 b) by (apply Z.log2_le_pow2; lia).
      pose proof (Z.bit_log2 b ltac:(lia)) as Hb. rewrite Hbit in Hb by lia.
      apply orb_true_iff in Hb as [Hb|Hb]; [|lia].
      rewrite Z.bits_above_log2 in Hb; [done|lia|].
      destruct (Z.eq_dec addr 0) as [-> |]; [cbn; lia|]. apply Z.lt_le_trans with 32; [|done]. apply Z.log2_lt_pow2; lia.
  - intros i Hi. rewrite Hbit by lia. destruct (Z.leb_spec (32 - prefix) i).
    + replace (i <? 32 - prefix) with false by lia. by rewrite orb_false_r.
    + replace (i <? 32 - prefix) with true by lia. by rewrite orb_true_r.
Qed.

Lemma directed_broadcast_bits_witness :
  exists b,
    v4_directed_broadcast {| ia_mac := None; ia_v4 := Some (Ipv4.new 10 1 2 3); ia_v4_prefix := Some 24; ia_v6 := None; ia_v6_routable := None |}
      = Some b /\ b = Ipv4.new 10 1 2 255 /\
    forall i, 0 <= i < 32 -> Z.testbit b i = if 8 <=? i then Z.testbit (Ipv4.new 10 1 2 3) i else true.
Proof.
  pose proof (directed_broadcast_bits
    {| ia_mac := None; ia_v4 := Some (Ipv4.new 10 1 2 3); ia_v4_prefix := Some 24; ia_v6 := None; ia_v6_routable := None |}
    (Ipv4.new 10 1 2 3) 24 eq_refl eq_refl ltac:(lia) ltac:(unfold word_ok; vm_compute; split; congruence)) as H.
  exists (Ipv4.new 10 1 2 255). split; [reflexivity|]. split; [reflexivity|]. exact (proj2 (proj2 H)).
Defined.
