(* ===== verification/Kernel.v ===== *)
(** What the program asks of the operating system, as an interface: the system
    calls and the packet captures, whose answers may depend on everything asked
    before.  A theorem about code that makes these calls holds for every
    instance. *)

From S2P Require Import Prelude Text Addr Names Interface.

Local Open Scope Z_scope.

(** The target systems, which [cfg!] tells apart. *)
Inductive Os : Type := Linux | MacOs | FreeBsd.
Global Instance Os_eq_dec : EqDecision Os.
Proof. solve_decision. Defined.

(** [io::Error]: a raw errno, or an error the program makes. *)
Inductive IoError : Type :=
  | OsError (errno : Z)
  | NotConnected
  | OtherError.
Definition raw_os_error (e : IoError) : option Z :=
  match e with OsError errno => Some errno | _ => None end.

(** [io::Result] of a call, which never panics: [inl] is the error. *)
Abbreviation io A := (IoError + A)%type.

(** A packet capture: its handle, the link type it reads, and the octets of the
    batch it last read that no frame was taken from yet (none on Linux, which
    reads a frame at a time). *)
Record Capture : Type := { cap_fd : Z; cap_link : LinkType; cap_batch : bytes }.

(** [capture::Read] *)
Inductive Read : Type := RdFrame (frame : bytes) | RdOversized.

(** The [libc] errnos the program names. *)
Record Errnos : Type := {
  EMFILE : Z; ENFILE : Z; ENOMEM : Z; ENOBUFS : Z; EADDRINUSE : Z; ENODEV : Z; EADDRNOTAVAIL : Z;
  EINVAL : Z; EAFNOSUPPORT : Z; ENETDOWN : Z; EMSGSIZE : Z;
}.

(** The environment: its state and the answer to each call in that state. *)
Class Kernel (W : Type) : Type := {
  os : Os;
  errnos : Errnos;
  (** [Instant::now] *)
  clock : W -> Z * W;
  (** [if_nametoindex] on a C name: the index, 0 with an errno when there is none *)
  if_nametoindex : bytes -> W -> (Z * Z) * W;
  (** the back ends of [Interface::read] *)
  resolve : InterfaceName -> Z -> W -> io Reading * W;
  (** [sys::open_socket] of an IPv6 or IPv4 datagram socket *)
  open_socket : bool -> W -> io Z * W;
  (** [setsockopt(fd, .., MCAST_JOIN_GROUP, ..)] *)
  join_group : Z -> IpAddr -> Z -> W -> io () * W;
  (** [Capture]'s methods *)
  capture_open : Interface -> Z -> W -> io Capture * W;
  capture_rebind : Capture -> Interface -> Z -> W -> (Capture * io ()) * W;
  capture_attached : Capture -> Z -> W -> bool * W;
  capture_send : Capture -> bytes -> W -> io () * W;
  capture_next : Capture -> W -> (Capture * io (option Read)) * W;
  (** the length of the buffer a capture reads its batches into *)
  batch_limit : nat;
  capture_lost : IoError -> bool;
  (** [PortReservation::create], whose value is the port, and its [Drop] *)
  reserve_port : IpAddr -> Z -> W -> io Z * W;
  release_port : SocketAddr -> W -> W;
}.

(** [dispatch::retry_delay]: 1 s doubling to 30 s. *)
Definition RETRY_FLOOR : Z := 10 ^ 9.
Definition RETRY_CEILING : Z := 30 * 10 ^ 9.
Definition retry_delay (attempts : Z) : Z :=
  if attempts <? 32 then Z.min (RETRY_FLOOR * Z.shiftl 1 attempts) RETRY_CEILING else RETRY_CEILING.

(** [u32::saturating_add(1)] *)
Definition saturating_succ (n : Z) : Z := Z.min (n + 1) (2 ^ 32 - 1).

Section kernel.
Context {W : Type} `{Kernel W}.

(** [if_index_checked]: [Some] index, [None] for no such interface, or an error
    when the lookup could not run. *)
Definition if_index_checked (name : InterfaceName) (w : W) : io (option Z) * W :=
  let '((index, errno), w) := if_nametoindex (to_c_array name) w in
  (if negb (index =? 0) then inr (Some index)
   else if existsb (Z.eqb errno) [EMFILE errnos; ENFILE errnos; ENOMEM errnos; ENOBUFS errnos]
   then inl (OsError errno) else inr None, w).
End kernel.

Lemma retry_delay_bounds attempts : 0 <= attempts -> RETRY_FLOOR <= retry_delay attempts <= RETRY_CEILING.
Proof.
  intros Ha. unfold retry_delay. destruct (Z.ltb_spec attempts 32); [|unfold RETRY_FLOOR, RETRY_CEILING; lia].
  rewrite Z.shiftl_1_l. pose proof (Z.pow_pos_nonneg 2 attempts ltac:(lia) Ha).
  unfold RETRY_FLOOR, RETRY_CEILING. lia.
Qed.

Lemma retry_delay_pos attempts : 0 <= attempts -> 0 < retry_delay attempts.
Proof. intros Ha. pose proof (retry_delay_bounds attempts Ha). unfold RETRY_FLOOR in *. lia. Qed.

(** A Linux whose every call succeeds: one interface, at index 1, with an IPv4
    address, and an empty capture. *)
Definition quiet_reading : Reading :=
  {| rd_addrs := {| ia_mac := Some [2; 0; 0; 0; 0; 1]; ia_v4 := Some (Ipv4.new 192 168 0 2);
                    ia_v4_prefix := Some 24; ia_v6 := None; ia_v6_routable := None |};
     rd_mtu := Some 1500; rd_loopback := false |}.
Definition quiet_kernel : Kernel () :=
  {| os := Linux;
     errnos := {| EMFILE := 24; ENFILE := 23; ENOMEM := 12; ENOBUFS := 105; EADDRINUSE := 98; ENODEV := 19;
                  EADDRNOTAVAIL := 99; EINVAL := 22; EAFNOSUPPORT := 97; ENETDOWN := 100; EMSGSIZE := 90 |};
     clock := fun w => (0, w);
     if_nametoindex := fun _ w => ((1, 0), w);
     resolve := fun _ _ w => (inr quiet_reading, w);
     open_socket := fun _ w => (inr 3, w);
     join_group := fun _ _ _ w => (inr (), w);
     capture_open := fun _ _ w => (inr {| cap_fd := 4; cap_link := Ethernet; cap_batch := [] |}, w);
     capture_rebind := fun c _ _ w => ((c, inr ()), w);
     capture_attached := fun _ _ w => (true, w);
     capture_send := fun _ _ w => (inr (), w);
     capture_next := fun c w => ((c, inr None), w);
     batch_limit := 0;
     capture_lost := fun _ => false;
     reserve_port := fun _ _ w => (inr 40000, w);
     release_port := fun _ w => w |}.

(** A kernel that only tells the time. *)
Definition clocked_kernel {W} (now : W -> Z * W) : Kernel W :=
  {| os := Linux; errnos := @errnos () quiet_kernel; clock := now;
     if_nametoindex := fun _ w => ((0, 0), w);
     resolve := fun _ _ w => (inl OtherError, w);
     open_socket := fun _ w => (inl OtherError, w);
     join_group := fun _ _ _ w => (inl OtherError, w);
     capture_open := fun _ _ w => (inl OtherError, w);
     capture_rebind := fun c _ _ w => ((c, inl OtherError), w);
     capture_attached := fun _ _ w => (false, w);
     capture_send := fun _ _ w => (inl OtherError, w);
     capture_next := fun c w => ((c, inr None), w);
     batch_limit := 0;
     capture_lost := fun _ => false;
     reserve_port := fun _ _ w => (inl OtherError, w);
     release_port := fun _ w => w |}.

(** A kernel that keeps a log of its own beside [K]'s state: of the frames it is
    handed, and of the ports it reserves and releases. *)
Definition logged {W L A} (f : W -> A * W) (w : W * L) : A * (W * L) := let '(a, w') := f w.1 in (a, (w', w.2)).
Definition observing {W L} (K : Kernel W) (on_send : Capture -> bytes -> L -> L) (on_reserve on_release : SocketAddr -> L -> L)
    : Kernel (W * L) :=
  {| os := os; errnos := errnos;
     clock := logged clock;
     if_nametoindex := fun name => logged (if_nametoindex name);
     resolve := fun name i => logged (resolve name i);
     open_socket := fun v6 => logged (open_socket v6);
     join_group := fun fd g i => logged (join_group fd g i);
     capture_open := fun i n => logged (capture_open i n);
     capture_rebind := fun c i n => logged (capture_rebind c i n);
     capture_attached := fun c n => logged (capture_attached c n);
     capture_send := fun c frame w =>
       let '(r, w') := capture_send c frame w.1 in (r, (w', on_send c frame w.2));
     capture_next := fun c => logged (capture_next c);
     batch_limit := batch_limit;
     capture_lost := capture_lost;
     reserve_port := fun a n w =>
       let '(r, w') := reserve_port a n w.1 in
       (r, (w', match r with inr p => on_reserve {| ip := a; port := p |} w.2 | inl _ => w.2 end));
     release_port := fun a w => (release_port a w.1, on_release a w.2) |}.
