(* ===== verification/Multicast.v ===== *)
(** Multicast group membership ([src/dispatch/multicast.rs]): the groups an
    interface's reflectors want, each with its state, and the sockets that hold
    them. *)

From S2P Require Import Prelude Text Addr Names Interface Kernel.

Local Open Scope Z_scope.

(** [Wait]: why a live interface takes no membership as it is. *)
Inductive Wait : Type := NoAddress | NoFamily | NotMulticast.
Global Instance Wait_eq_dec : EqDecision Wait.
Proof. solve_decision. Defined.

(** [log::Level] by its number, the more severe first. *)
Definition Level : Type := Z.

Record Wanted : Type := { wd_label : bytes; wd_required : bool; wd_wait_level : Level }.

Inductive JoinError : Type := JoinGone | JoinNoFamily | JoinFailed (source : IoError) (capped : bool).

Record Target : Type := { tg_name : InterfaceName; tg_ifindex : Z }.

(** [State] *)
Inductive MState : Type := MPending | MJoined | MWaiting (w : Wait) | MFailed (attempts retry_at : Z).
Global Instance MState_eq_dec : EqDecision MState.
Proof. solve_decision. Defined.

Inductive Problem : Type := ProblemWait (w : Wait) | ProblemFailed.
Global Instance Problem_eq_dec : EqDecision Problem.
Proof. solve_decision. Defined.

(** [Outcome]: one attempt on a live interface. *)
Inductive Attempt : Type := AJoined | AWaits (w : Wait) | AFailed (source : IoError) (capped : bool).

(** [Gone] *)
Inductive Gone : Type := gone.

Record Membership : Type := {
  mb_group : IpAddr;
  mb_label : bytes;
  mb_wait_level : Level;
  mb_state : MState;
  mb_reported : option Problem;
}.
Definition with_state (m : Membership) (s : MState) : Membership :=
  {| mb_group := mb_group m; mb_label := mb_label m; mb_wait_level := mb_wait_level m; mb_state := s; mb_reported := mb_reported m |}.
Definition with_reported (m : Membership) (p : option Problem) : Membership :=
  {| mb_group := mb_group m; mb_label := mb_label m; mb_wait_level := mb_wait_level m; mb_state := mb_state m; mb_reported := p |}.

(** [Membership::report_wait], which logs *)
Definition report_wait (m : Membership) (w : Wait) : Membership := with_reported m (Some (ProblemWait w)).

(** [Membership::settle] *)
Definition settle (m : Membership) (a : Attempt) (now : Z) : Membership :=
  match a with
  | AJoined => with_state (with_reported m None) MJoined
  | AWaits w =>
      if decide (mb_state m = MWaiting w) then m else with_state (report_wait m w) (MWaiting w)
  | AFailed _ _ =>
      let attempts := match mb_state m with MFailed attempts _ => saturating_succ attempts | _ => 0 end in
      with_state (with_reported m (Some ProblemFailed)) (MFailed attempts (now + retry_delay attempts))
  end.

(** [Sockets]: a socket per family, opened on first use. *)
Record Sockets : Type := { sk_v4 : option Z; sk_v6 : option Z }.
Definition no_sockets : Sockets := {| sk_v4 := None; sk_v6 := None |}.
Definition socket_of (s : Sockets) (group : IpAddr) : option Z := if is_v4 group then sk_v4 s else sk_v6 s.
Definition with_socket (s : Sockets) (group : IpAddr) (fd : Z) : Sockets :=
  if is_v4 group then {| sk_v4 := Some fd; sk_v6 := sk_v6 s |} else {| sk_v4 := sk_v4 s; sk_v6 := Some fd |}.

(** [Memberships] *)
Record Memberships : Type := { ms_sockets : Sockets; ms_groups : list Membership }.
Definition memberships_new : Memberships := {| ms_sockets := no_sockets; ms_groups := [] |}.

Section multicast.
Context {W : Type} `{Kernel W}.

(** [Target::is_live] *)
Definition is_live (t : Target) (w : W) : io bool * W :=
  let '(r, w) := if_index_checked (tg_name t) w in
  (match r with inl e => inl e | inr current => inr (bool_decide (current = Some (tg_ifindex t))) end, w).

(** What [classify] makes of an errno before asking whether the interface
    lives: the answer, or the wait a live interface means. *)
Definition classify_errno (errno : option Z) (err : IoError) (group : IpAddr) : Attempt + Wait :=
  let v6 := is_v6 group in
  let is_errno e := bool_decide (errno = Some e) in
  if is_errno (EADDRINUSE errnos) then inl AJoined
  else if is_errno (ENODEV errnos) then inr NoFamily
  else if is_errno (EADDRNOTAVAIL errnos) && negb (bool_decide (os = Linux)) then inr NotMulticast
  else if is_errno (EINVAL errnos) && (v6 && bool_decide (os = Linux)) then inl (AWaits NoFamily)
  else if is_errno (EINVAL errnos) && (v6 && bool_decide (os = MacOs)) then inl (AWaits NoAddress)
  else if is_errno (EAFNOSUPPORT errnos) && bool_decide (os = MacOs) then inl (AWaits NoAddress)
  else inl (AFailed err (bool_decide (os = Linux) && negb v6 && is_errno (ENOBUFS errnos))).

(** [classify] *)
Definition classify_join (err : IoError) (group : IpAddr) (live : W -> io bool * W) (w : W) : (Gone + Attempt) * W :=
  match classify_errno (raw_os_error err) err group with
  | inl a => (inr a, w)
  | inr if_live =>
      let '(r, w) := live w in
      (match r with
       | inr true => inr (AWaits if_live)
       | inr false => inl gone
       | inl _ => inr (AFailed err false)
       end, w)
  end.

(** [Sockets::join] *)
Definition sockets_join (s : Sockets) (group : IpAddr) (t : Target) (w : W) : (Gone + Attempt) * Sockets * W :=
  let '(opened, w) :=
    match socket_of s group with
    | Some fd => (inr (fd, s), w)
    | None =>
        let '(r, w) := open_socket (is_v6 group) w in
        (match r with inl e => inl e | inr fd => inr (fd, with_socket s group fd) end, w)
    end in
  match opened with
  | inl e => (inr (AFailed e false), s, w)
  | inr (fd, s) =>
      let '(r, w) := join_group fd group (tg_ifindex t) w in
      match r with
      | inr () => (inr AJoined, s, w)
      | inl e => let '(a, w) := classify_join e group (is_live t) w in (a, s, w)
      end
  end.

(** [Memberships::add]: the memberships, and the index of the group. *)
Definition ms_add (ms : Memberships) (group : IpAddr) (wanted : Wanted) : nat * Memberships :=
  match position (fun m => bool_decide (mb_group m = group)) (ms_groups ms) with
  | Some index =>
      let raise (known : Membership) :=
        if wd_wait_level wanted <? mb_wait_level known then
          {| mb_group := mb_group known; mb_label := mb_label known; mb_wait_level := wd_wait_level wanted;
             mb_state := mb_state known;
             mb_reported := match mb_state known with MWaiting _ => None | _ => mb_reported known end |}
        else known in
      (index, {| ms_sockets := ms_sockets ms; ms_groups := alter raise index (ms_groups ms) |})
  | None =>
      (length (ms_groups ms),
       {| ms_sockets := ms_sockets ms;
          ms_groups := ms_groups ms ++ [{| mb_group := group; mb_label := wd_label wanted;
                                           mb_wait_level := wd_wait_level wanted; mb_state := MPending;
                                           mb_reported := None |}] |})
  end.

Definition set_group (ms : Memberships) (s : Sockets) (index : nat) (m : Membership) : Memberships :=
  {| ms_sockets := s; ms_groups := <[index := m]> (ms_groups ms) |}.

(** [Memberships::join] *)
Definition ms_join (ms : Memberships) (group : IpAddr) (wanted : Wanted) (t : Target) (now : Z) (w : W)
    : res JoinError () * Memberships * W :=
  let '(index, ms) := ms_add ms group wanted in
  match ms_groups ms !! index with
  | None => (Panic, ms, w)
  | Some m =>
      let attempt :=
        let '(r, s, w) := sockets_join (ms_sockets ms) group t w in
        let unsettled := set_group ms s index m in
        match r with
        | inl gone => (Err JoinGone, unsettled, w)
        | inr (AFailed source capped) => (Err (JoinFailed source capped), unsettled, w)
        | inr (AWaits NoFamily as a) =>
            if wd_required wanted then (Err JoinNoFamily, unsettled, w)
            else (Ok (), set_group ms s index (settle m a now), w)
        | inr a => (Ok (), set_group ms s index (settle m a now), w)
        end in
      match mb_state m with
      | MPending => attempt
      | MWaiting wait =>
          if bool_decide (wait = NoFamily) && wd_required wanted then (Err JoinNoFamily, ms, w)
          else if bool_decide (mb_reported m = None) then
            (Ok (), set_group ms (ms_sockets ms) index (report_wait m wait), w)
          else (Ok (), ms, w)
      | _ => (Ok (), ms, w)
      end
  end.

(** Whether a pass attempts a group. *)
Definition is_due (now : Z) (m : Membership) : bool :=
  match mb_state m with
  | MJoined => false
  | MFailed _ retry_at => negb (now <? retry_at)
  | _ => true
  end.

(** The loop of [Memberships::converge]. *)
Fixpoint converge_groups (s : Sockets) (groups : list Membership) (t : Target) (now : Z) (w : W)
    : (Gone + ()) * Sockets * list Membership * W :=
  match groups with
  | [] => (inr (), s, [], w)
  | m :: groups =>
      if negb (is_due now m) then
        let '(r, s, groups, w) := converge_groups s groups t now w in (r, s, m :: groups, w)
      else
        let '(r, s, w) := sockets_join s (mb_group m) t w in
        match r with
        | inl gone => (inl gone, s, with_state m MPending :: groups, w)
        | inr a =>
            let '(r, s, groups, w) := converge_groups s groups t now w in (r, s, settle m a now :: groups, w)
        end
  end.
(** [Memberships::converge] *)
Definition ms_converge (ms : Memberships) (t : Target) (now : Z) (w : W) : (Gone + ()) * Memberships * W :=
  let '(r, s, groups, w) := converge_groups (ms_sockets ms) (ms_groups ms) t now w in
  (r, {| ms_sockets := s; ms_groups := groups |}, w).
End multicast.

(** [Memberships::rebase] *)
Definition rebase (ms : Memberships) : Memberships :=
  {| ms_sockets := no_sockets; ms_groups := (fun m => with_state m MPending) <$> ms_groups ms |}.

(** [Memberships::unjoined] *)
Definition unjoined (ms : Memberships) : list Membership :=
  List.filter (fun m => negb (bool_decide (mb_state m = MJoined))) (ms_groups ms).

(** [Iterator::min] of the instants found *)
Definition min_instant (l : list Z) : option Z := foldr (fun x acc => match acc with Some y => Some (Z.min x y) | None => Some x end) None l.
Lemma min_instant_elem l d : min_instant l = Some d -> d ∈ l.
Proof.
  revert d. induction l as [|x l IH]; intros d; cbn; [done|]. destruct (foldr _ None l) as [y|] eqn:E.
  - intros [= <-]. rewrite elem_of_cons. destruct (Z.min_spec x y) as [[_ ->]|[_ ->]]; [by left|right; by apply IH].
  - intros [= <-]. by left.
Qed.
Lemma min_instant_le l d x : min_instant l = Some d -> x ∈ l -> d <= x.
Proof.
  revert d. induction l as [|y l IH]; intros d; cbn; [done|]. rewrite elem_of_cons. unfold min_instant in IH.
  destruct (foldr _ None l) as [z|] eqn:E; intros [= <-] Hx.
  - destruct Hx as [->|Hx]; [lia|]. specialize (IH z eq_refl Hx). lia.
  - destruct Hx as [->|Hx]; [lia|]. exfalso. clear -E Hx. destruct l as [|a l]; [by apply not_elem_of_nil in Hx|].
    cbn in E. by destruct (foldr _ None l).
Qed.

(** [Memberships::next_retry] *)
Definition next_retry (ms : Memberships) : option Z :=
  min_instant (omap (fun m => match mb_state m with MFailed _ retry_at => Some retry_at | _ => None end) (ms_groups ms)).

(** ** The invariant *)

(** A joined group is held by its family's socket, groups are wanted once, and
    the retry counts are [u32]s. *)
Definition membership_ok (s : Sockets) (m : Membership) : Prop :=
  (mb_state m = MJoined -> is_Some (socket_of s (mb_group m))) /\
  match mb_state m with MFailed attempts _ => 0 <= attempts | _ => True end.
Definition memberships_ok (ms : Memberships) : Prop :=
  NoDup (mb_group <$> ms_groups ms) /\ Forall (membership_ok (ms_sockets ms)) (ms_groups ms).

(** Sockets are opened, never replaced. *)
Definition sockets_le (s s' : Sockets) : Prop := forall g fd, socket_of s g = Some fd -> socket_of s' g = Some fd.

Lemma sockets_le_refl s : sockets_le s s.
Proof. by intros g fd. Qed.
Lemma sockets_le_trans s1 s2 s3 : sockets_le s1 s2 -> sockets_le s2 s3 -> sockets_le s1 s3.
Proof. unfold sockets_le. auto. Qed.

Lemma with_socket_le s group fd : socket_of s group = None -> sockets_le s (with_socket s group fd).
Proof.
  intros H g fd' Hg. unfold socket_of, with_socket in *.
  destruct (is_v4 group), (is_v4 g); cbn; try done; congruence.
Qed.

Lemma socket_of_with s group fd : socket_of (with_socket s group fd) group = Some fd.
Proof. unfold socket_of, with_socket. by destruct (is_v4 group). Qed.

Lemma membership_ok_le s s' m : sockets_le s s' -> membership_ok s m -> membership_ok s' m.
Proof. intros Hle [H1 H2]. split; [|done]. intros Hj. destruct (H1 Hj) as [fd Hfd]. exists fd. by apply Hle. Qed.

Lemma saturating_succ_nonneg n : 0 <= n -> 0 <= saturating_succ n.
Proof. unfold saturating_succ. lia. Qed.

Lemma settle_group m a now : mb_group (settle m a now) = mb_group m.
Proof. destruct a; cbn; try done. by case_decide. Qed.

Lemma settle_ok s m a now :
  membership_ok s m -> (a = AJoined -> is_Some (socket_of s (mb_group m))) -> membership_ok s (settle m a now).
Proof.
  intros [H1 H2] Ha. destruct a as [|w|e c]; cbn [settle].
  - split; [intros _; by apply Ha|done].
  - case_decide; [by split|]. by split.
  - split; [done|]. cbn. destruct (mb_state m); try lia. by apply saturating_succ_nonneg.
Qed.

#[local] Arguments settle : simpl never.

Section spec.
Context {W : Type} `{Kernel W}.

Lemma sockets_join_le s group t (w : W) r s' w' :
  sockets_join s group t w = (r, s', w') ->
  sockets_le s s' /\ (r = inr AJoined -> is_Some (socket_of s' group)).
Proof.
  unfold sockets_join. destruct (socket_of s group) as [fd|] eqn:Es.
  - destruct (join_group fd group (tg_ifindex t) w) as [[e|[]] w1].
    + destruct (classify_join e group (is_live t) w1) as [a w2]. intros [= <- <- <-].
      split; [apply sockets_le_refl|]. intros _. by rewrite Es.
    + intros [= <- <- <-]. split; [apply sockets_le_refl|]. intros _. by rewrite Es.
  - destruct (open_socket (is_v6 group) w) as [[e|fd] w1].
    + intros [= <- <- <-]. split; [apply sockets_le_refl|done].
    + pose proof (with_socket_le s group fd Es) as Hle. pose proof (socket_of_with s group fd) as Hfd.
      destruct (join_group fd group (tg_ifindex t) w1) as [[e|[]] w2].
      * destruct (classify_join e group (is_live t) w2) as [a w3]. intros [= <- <- <-]. split; [done|]. intros _. by rewrite Hfd.
      * intros [= <- <- <-]. split; [done|]. intros _. by rewrite Hfd.
Qed.

Lemma ms_add_spec ms group wanted index ms' :
  ms_add ms group wanted = (index, ms') -> memberships_ok ms ->
  memberships_ok ms' /\ (exists m, ms_groups ms' !! index = Some m /\ mb_group m = group) /\
  ms_sockets ms' = ms_sockets ms /\ (forall g, g ∈ mb_group <$> ms_groups ms -> g ∈ mb_group <$> ms_groups ms').
Proof.
  unfold ms_add. intros Hadd [Hnd Hok]. destruct (position _ _) as [i|] eqn:Ep; injection Hadd as <- <-; cbn [ms_sockets ms_groups].
  - apply position_Some in Ep as (m&Hm&Hg%bool_decide_eq_true&_).
    match goal with |- context [alter ?f i _] => set (raise := f) end.
    assert (Hgr : forall m, mb_group (raise m) = mb_group m) by (intros m0; unfold raise; by destruct (_ <? _)).
    assert (Hst : forall m, mb_state (raise m) = mb_state m) by (intros m0; unfold raise; by destruct (_ <? _)).
    assert (Hf : mb_group <$> alter raise i (ms_groups ms) = mb_group <$> ms_groups ms).
    { apply list_eq. intros j. rewrite !list_lookup_fmap. destruct (decide (i = j)) as [<- |Hne].
      - rewrite list_lookup_alter, decide_True by done. destruct (ms_groups ms !! i); [|done]. cbn. by rewrite Hgr.
      - by rewrite list_lookup_alter_ne. }
    unfold memberships_ok. cbn [ms_sockets ms_groups]. rewrite Hf. split_and!; try done.
    + apply Forall_alter; [done|]. intros m0 _ [H1 H2]. split; rewrite Hst, ?Hgr; done.
    + exists (raise m). rewrite list_lookup_alter, decide_True, Hm, Hgr by done. done.
  - apply position_None in Ep. unfold memberships_ok. cbn [ms_sockets ms_groups]. split_and!.
    + rewrite fmap_app. apply NoDup_app. split_and!; [done| |apply NoDup_singleton].
      intros g (m&->&Hin)%list_elem_of_fmap Hg. apply list_elem_of_singleton in Hg.
      rewrite Forall_forall in Ep. specialize (Ep m Hin). by apply bool_decide_eq_false in Ep.
    + apply Forall_app. split; [done|]. by repeat constructor.
    + eexists. rewrite list_lookup_middle by done. done.
    + done.
    + intros g Hg. rewrite fmap_app. apply elem_of_app. by left.
Qed.

Lemma set_group_ok ms s index m m0 :
  memberships_ok ms -> sockets_le (ms_sockets ms) s -> ms_groups ms !! index = Some m0 ->
  mb_group m = mb_group m0 -> membership_ok s m ->
  memberships_ok (set_group ms s index m) /\ mb_group <$> ms_groups (set_group ms s index m) = mb_group <$> ms_groups ms.
Proof.
  intros [Hnd Hok] Hle Hi Hg Hm. assert (Hf : mb_group <$> <[index := m]> (ms_groups ms) = mb_group <$> ms_groups ms).
  { rewrite list_fmap_insert, Hg. apply list_insert_id. by rewrite list_lookup_fmap, Hi. }
  split; [|done]. split; cbn [set_group ms_groups ms_sockets]; [by rewrite Hf|].
  apply Forall_insert; [|done]. eapply Forall_impl; [exact Hok|]. intros m1. by apply membership_ok_le.
Qed.

Lemma ms_join_spec ms group wanted t now (w : W) r ms' w' :
  ms_join ms group wanted t now w = (r, ms', w') -> memberships_ok ms ->
  r <> Panic /\ memberships_ok ms' /\ group ∈ mb_group <$> ms_groups ms' /\
  (forall g, g ∈ mb_group <$> ms_groups ms -> g ∈ mb_group <$> ms_groups ms').
Proof.
  unfold ms_join. intros Hj Hok. destruct (ms_add ms group wanted) as [index ms1] eqn:Ea.
  destruct (ms_add_spec _ _ _ _ _ Ea Hok) as (Hok1&(m&Hm&Hg)&_&Hin). rewrite Hm in Hj.
  assert (Hgin : group ∈ mb_group <$> ms_groups ms1).
  { apply list_elem_of_fmap. exists m. split; [by rewrite Hg|]. by eapply list_elem_of_lookup_2. }
  pose proof (proj2 Hok1) as Hall. rewrite Forall_lookup in Hall. pose proof (Hall _ _ Hm) as Hmok.
  assert (Hset : forall s m', sockets_le (ms_sockets ms1) s -> mb_group m' = mb_group m -> membership_ok s m' ->
    r <> Panic -> ms' = set_group ms1 s index m' ->
    r <> Panic /\ memberships_ok ms' /\ group ∈ mb_group <$> ms_groups ms' /\
    (forall g, g ∈ mb_group <$> ms_groups ms -> g ∈ mb_group <$> ms_groups ms')).
  { intros s m' Hle Hgm Hmok' Hr ->. destruct (set_group_ok ms1 s index m' m Hok1 Hle Hm Hgm Hmok') as [H1 H2].
    rewrite H2. by split_and!. }
  destruct (mb_state m) as [| |wait|attempts at_] eqn:Es.
  - destruct (sockets_join (ms_sockets ms1) group t w) as [[jr s] w1] eqn:Ej.
    destruct (sockets_join_le _ _ _ _ _ _ _ Ej) as [Hle Hjoined].
    assert (Hmok' : membership_ok s m) by (by eapply membership_ok_le).
    assert (Hset' : forall a, jr = inr a -> membership_ok s (settle m a now)).
    { intros a ->. apply settle_ok; [done|]. intros ->. rewrite Hg. by apply Hjoined. }
    destruct jr as [[]|[|[]|e c]]; try (destruct (wd_required wanted)); injection Hj as <- <- <-.
    all: eapply Hset; [exact Hle|..|reflexivity].
    all: try done. all: try apply settle_group. all: by apply Hset'.
  - injection Hj as <- <- <-. by split_and!.
  - destruct (_ && _); [injection Hj as <- <- <-; by split_and!|]. case_bool_decide.
    + injection Hj as <- <- <-. eapply (Hset _ (report_wait m wait)); [apply sockets_le_refl|done| |done|reflexivity].
      destruct Hmok as [H1 H2]. by split.
    + injection Hj as <- <- <-. by split_and!.
  - injection Hj as <- <- <-. by split_and!.
Qed.

Lemma converge_groups_spec s groups t now (w : W) r s' groups' w' :
  converge_groups s groups t now w = (r, s', groups', w') -> Forall (membership_ok s) groups ->
  sockets_le s s' /\ Forall (membership_ok s') groups' /\ mb_group <$> groups' = mb_group <$> groups /\
  (forall i m, groups !! i = Some m -> mb_state m = MJoined -> groups' !! i = Some m) /\
  match r with
  | inr () => Forall (fun m => match mb_state m with MPending => False | MFailed _ at_ => now < at_ | _ => True end) groups'
  | inl _ => exists m, m ∈ groups' /\ mb_state m = MPending
  end.
Proof.
  revert s w r s' groups' w'. induction groups as [|m groups IH]; intros s w r s' groups' w'; cbn [converge_groups].
  { intros [= <- <- <- <-] _. split_and!; try done. apply sockets_le_refl. }
  intros Hc [Hm Hok]%Forall_cons. destruct (is_due now m) eqn:Hdue; cbn [negb] in Hc.
  - destruct (sockets_join s (mb_group m) t w) as [[jr s1] w1] eqn:Ej.
    destruct (sockets_join_le _ _ _ _ _ _ _ Ej) as [Hle Hjoined].
    destruct jr as [[]|a].
    + injection Hc as <- <- <- <-. split_and!; [done| |done| |].
      * constructor; [by split|]. eapply Forall_impl; [exact Hok|]. intros. by eapply membership_ok_le.
      * intros [|i] m' Hi Hj; [|done]. injection Hi as ->. unfold is_due in Hdue. by rewrite Hj in Hdue.
      * exists (with_state m MPending). split; [constructor|done].
    + destruct (converge_groups s1 groups t now w1) as [[[r1 s2] groups1] w2] eqn:Ec. injection Hc as <- <- <- <-.
      apply IH in Ec as (Hle2&Hok2&Hg&Hkeep&Hr).
      2: { eapply Forall_impl; [exact Hok|]. intros. by eapply membership_ok_le. }
      assert (Hset : membership_ok s1 (settle m a now)).
      { apply settle_ok; [by eapply membership_ok_le|]. intros ->. by apply Hjoined. }
      split_and!.
      * by eapply sockets_le_trans.
      * constructor; [by eapply membership_ok_le|done].
      * cbn. by rewrite settle_group, Hg.
      * intros [|i] m' Hi Hj; [|by apply Hkeep]. injection Hi as ->. unfold is_due in Hdue. by rewrite Hj in Hdue.
      * destruct r1 as [[]|[]].
        -- destruct Hr as (m'&Hin&Hp). exists m'. split; [by constructor|done].
        -- constructor; [|done]. unfold settle. destruct a as [|wt|e c]; [done| |].
           ++ case_decide as Hd; [by rewrite Hd|done].
           ++ cbn. destruct Hm as [_ Hm]. destruct (mb_state m) as [| | |at0 re0].
              1-3: pose proof (retry_delay_pos 0); lia.
              pose proof (retry_delay_pos (saturating_succ at0) (saturating_succ_nonneg _ Hm)). lia.
  - destruct (converge_groups s groups t now w) as [[[r1 s2] groups1] w2] eqn:Ec. injection Hc as <- <- <- <-.
    apply IH in Ec as (Hle2&Hok2&Hg&Hkeep&Hr); [|done]. split_and!; [done| | | |].
    + constructor; [by eapply membership_ok_le|done].
    + cbn. by rewrite Hg.
    + intros [|i] m' Hi Hj; [done|by apply Hkeep].
    + destruct r1 as [[]|[]].
      * destruct Hr as (m'&Hin&Hp). exists m'. split; [by constructor|done].
      * constructor; [|done]. unfold is_due in Hdue. destruct (mb_state m); try done. lia.
Qed.
End spec.

(** ** The memberships over time *)

(** What the table does to an interface's memberships. *)
Inductive MsOp : Type :=
  | OpAdd (group : IpAddr) (wanted : Wanted)
  | OpJoin (group : IpAddr) (wanted : Wanted) (t : Target) (now : Z)
  | OpConverge (t : Target) (now : Z)
  | OpRebase.

Definition op_group (op : MsOp) : option IpAddr :=
  match op with OpAdd g _ => Some g | OpJoin g _ _ _ => Some g | _ => None end.

Section run.
Context {W : Type} `{Kernel W}.

(** One operation; a failed join or convergence leaves its memberships. *)
Definition ms_step (op : MsOp) (ms : Memberships) (w : W) : res Infallible Memberships * W :=
  match op with
  | OpAdd group wanted => (Ok (ms_add ms group wanted).2, w)
  | OpJoin group wanted t now =>
      let '(r, ms, w) := ms_join ms group wanted t now w in
      (match r with Panic => Panic | _ => Ok ms end, w)
  | OpConverge t now => let '(_, ms, w) := ms_converge ms t now w in (Ok ms, w)
  | OpRebase => (Ok (rebase ms), w)
  end.

Fixpoint ms_run (ops : list MsOp) (ms : Memberships) (w : W) : res Infallible Memberships * W :=
  match ops with
  | [] => (Ok ms, w)
  | op :: ops => match ms_step op ms w with (Ok ms, w) => ms_run ops ms w | (r, w) => (r, w) end
  end.

Lemma ms_step_ok op ms w :
  memberships_ok ms ->
  exists ms' w', ms_step op ms w = (Ok ms', w') /\ memberships_ok ms' /\
    (forall g, g ∈ mb_group <$> ms_groups ms -> g ∈ mb_group <$> ms_groups ms') /\
    (forall g, op_group op = Some g -> g ∈ mb_group <$> ms_groups ms').
Proof.
  intros Hok. destruct op as [group wanted|group wanted t now|t now|]; cbn [ms_step op_group].
  - destruct (ms_add ms group wanted) as [i ms1] eqn:Ea. destruct (ms_add_spec _ _ _ _ _ Ea Hok) as (H1&(m&Hm&Hg)&_&H2).
    exists ms1, w. split_and!; [done..|]. intros g [= <-]. apply list_elem_of_fmap. exists m. split; [done|]. by eapply list_elem_of_lookup_2.
  - destruct (ms_join ms group wanted t now w) as [[r ms1] w1] eqn:Ej.
    destruct (ms_join_spec _ _ _ _ _ _ _ _ _ Ej Hok) as (Hr&H1&H2&H3). exists ms1, w1.
    split_and!; [by destruct r|done|done|by intros g [= <-]].
  - unfold ms_converge. destruct (converge_groups _ _ _ _ _) as [[[r s] groups] w1] eqn:Ec. destruct Hok as [Hnd Hall].
    destruct (converge_groups_spec _ _ _ _ _ _ _ _ _ Ec Hall) as (_&H1&H2&_&_).
    eexists _, w1. split; [reflexivity|]. unfold memberships_ok. cbn [ms_groups ms_sockets]. rewrite H2. by split_and!.
  - exists (rebase ms), w. destruct Hok as [Hnd Hall]. unfold rebase, memberships_ok. cbn [ms_groups ms_sockets].
    rewrite <- list_fmap_compose.
    assert ((mb_group ∘ (fun m => with_state m MPending)) <$> ms_groups ms = mb_group <$> ms_groups ms) as -> by (by apply list_fmap_ext).
    split_and!; [done|done| |done|done]. apply Forall_fmap, Forall_true. by intros m.
Qed.

(** Over any sequence of wants, joins, convergences and rebuilds, and
    whatever the kernel answers, an interface's memberships never panic, hold
    each group once, never forget a wanted group, and call a group joined only
    while the socket of its family is open: a rebuild, which drops the sockets,
    leaves none joined. *)
Theorem memberships_invariant ops w :
  exists ms w', ms_run ops memberships_new w = (Ok ms, w') /\ memberships_ok ms /\
    (forall op g, op ∈ ops -> op_group op = Some g -> g ∈ mb_group <$> ms_groups ms) /\
    (last ops = Some OpRebase -> Forall (fun m => mb_state m = MPending) (ms_groups ms)).
Proof.
  assert (Hgen : forall ms w, memberships_ok ms ->
    exists ms' w', ms_run ops ms w = (Ok ms', w') /\ memberships_ok ms' /\
      (forall g, g ∈ mb_group <$> ms_groups ms -> g ∈ mb_group <$> ms_groups ms') /\
      (forall op g, op ∈ ops -> op_group op = Some g -> g ∈ mb_group <$> ms_groups ms') /\
      (last ops = Some OpRebase -> Forall (fun m => mb_state m = MPending) (ms_groups ms'))).
  { clear w. induction ops as [|op ops IH]; intros ms w Hok; cbn [ms_run].
    - exists ms, w. split_and!; [done..| |done]. by intros op g Hin%not_elem_of_nil.
    - destruct (ms_step_ok op ms w Hok) as (ms1&w1&Hs&Hok1&Hmono1&Hg1). rewrite Hs.
      destruct (IH ms1 w1 Hok1) as (ms2&w2&Hr&Hok2&Hmono2&Hg2&Hlast). exists ms2, w2. split_and!; [done|done|auto| |].
      + intros op' g [-> |Hin]%elem_of_cons Ho; [by apply Hmono2, Hg1|by eapply Hg2].
      + destruct ops as [|op2 ops]; [|done]. intros [= ->]. cbn [ms_run] in Hr. injection Hr as <- _.
        cbn [ms_step] in Hs. injection Hs as <- _. unfold rebase. cbn [ms_groups]. apply Forall_fmap, Forall_true. done. }
  destruct (Hgen memberships_new w) as (ms&w'&H1&H2&_&H3&H4); [split; constructor|]. by exists ms, w'.
Qed.

(** A convergence keeps the joined groups joined and every group wanted;
    when it runs to its end each group is joined, waits for the interface to
    change, or failed with its retry in the future, so the retry timer never
    fires again at once; when the interface is found gone, a group is left
    pending for the rebuild.  A pass with nothing due asks the kernel nothing. *)
Theorem converge_settles ms t now (w : W) :
  memberships_ok ms ->
  let '(r, ms', w') := ms_converge ms t now w in
  mb_group <$> ms_groups ms' = mb_group <$> ms_groups ms /\
  (forall i m, ms_groups ms !! i = Some m -> mb_state m = MJoined -> ms_groups ms' !! i = Some m) /\
  match r with
  | inr () =>
      Forall (fun m => match mb_state m with MPending => False | MFailed _ at_ => now < at_ | _ => True end) (ms_groups ms') /\
      (forall at_, next_retry ms' = Some at_ -> now < at_)
  | inl _ => exists m, m ∈ ms_groups ms' /\ mb_state m = MPending
  end /\
  (Forall (fun m => is_due now m = false) (ms_groups ms) -> r = inr () /\ ms' = ms /\ w' = w).
Proof.
  intros [_ Hall]. unfold ms_converge. destruct (converge_groups _ _ _ _ _) as [[[r s] groups] w'] eqn:Ec.
  destruct (converge_groups_spec _ _ _ _ _ _ _ _ _ Ec Hall) as (_&_&Hg&Hkeep&Hr). cbn [ms_groups].
  split_and!; [done|done| |].
  - destruct r as [[]|[]]; [done|]. split; [done|]. unfold next_retry. cbn [ms_groups]. clear -Hr.
    induction Hr as [|m groups Hm _ IH]; [done|]. unfold next_retry in *. cbn [omap list_omap].
    destruct (mb_state m) as [| | |attempts re]; cbn [min_instant foldr]; try apply IH.
    intros at_. destruct (foldr _ _ _) as [y|] eqn:E; intros [= <-]; [|done].
    specialize (IH y E). lia.
  - intros Hdue. assert (Hn : forall s, converge_groups s (ms_groups ms) t now w = (inr (), s, ms_groups ms, w)).
    { clear -Hdue. induction Hdue as [|m groups Hm _ IH]; intros s; cbn [converge_groups]; [done|]. by rewrite Hm, IH. }
    rewrite Hn in Ec. injection Ec as <- <- <- <-. by destruct ms.
Qed.
End run.

Definition ex_wanted : Wanted := {| wd_label := bs "mDNS"; wd_required := true; wd_wait_level := 3 |}.
Definition ex_memberships : Memberships := (ms_add memberships_new (V4 (Ipv4.new 224 0 0 251)) ex_wanted).2.
Definition ex_target : Target := {| tg_name := {| if_str := bs "eth0" |}; tg_ifindex := 1 |}.

Lemma converge_settles_witness :
  let '(r, ms', _) := ms_converge (H:=quiet_kernel) ex_memberships ex_target 0 () in
  Forall (fun m => match mb_state m with MPending => False | MFailed _ at_ => 0 < at_ | _ => True end) (ms_groups ms').
Proof.
  assert (Hok : memberships_ok ex_memberships) by (split; vm_compute; repeat constructor; set_solver).
  pose proof (converge_settles (H:=quiet_kernel) ex_memberships ex_target 0 () Hok) as Hc.
  vm_compute in Hc |- *. exact (proj1 (proj1 (proj2 (proj2 Hc)))).
Defined.
