(* ===== verification/InterfaceTable.v ===== *)
(** The dispatcher's interface table ([src/dispatch/interface_table.rs]): every
    interface with its presence and group memberships, every capture linked to
    its interface, addressed by index keys. *)

From S2P Require Import Prelude Text Addr Names Interface Kernel Multicast Counters.

Local Open Scope Z_scope.

(** [InterfaceKey]: an index into the entries, which only grow. *)
Abbreviation InterfaceKey := nat.

Record Unbound : Type := { ub_ifindex : Z; ub_attempts : Z; ub_next_try : Z }.
Global Instance Unbound_eq_dec : EqDecision Unbound.
Proof. solve_decision. Defined.

(** [Presence] *)
Inductive Presence : Type :=
  | Present (ifindex : Z)
  | Parked
  | PrUnbound (u : Unbound).
Global Instance Presence_eq_dec : EqDecision Presence.
Proof. solve_decision. Defined.

(** [Step] *)
Inductive Step : Type :=
  | Kept
  | LookupFailed (e : IoError)
  | StParked (was : option Z)
  | Bound (was : Presence) (ifindex : Z) (gone : bool)
  | BindFailed (was : Presence) (ifindex : Z) (error : IoError) (retry_in : Z) (first : bool).

Record CaptureEntry : Type := {
  ce_capture : option Capture;
  ce_interface : InterfaceKey;
  ce_counters : CaptureCounters;
  ce_sent_packet : Z;
  ce_sent : list Z;
}.

Record InterfaceEntry : Type := {
  ie_interface : Interface;
  ie_presence : Presence;
  ie_memberships : option Memberships;
}.

Record InterfaceTable : Type := {
  it_entries : list InterfaceEntry;
  it_captures : list CaptureEntry;
  it_join_groups : bool;
}.

Definition with_entries (t : InterfaceTable) (entries : list InterfaceEntry) : InterfaceTable :=
  {| it_entries := entries; it_captures := it_captures t; it_join_groups := it_join_groups t |}.
Definition with_captures (t : InterfaceTable) (captures : list CaptureEntry) : InterfaceTable :=
  {| it_entries := it_entries t; it_captures := captures; it_join_groups := it_join_groups t |}.
Definition with_counters (c : CaptureEntry) (counters : CaptureCounters) : CaptureEntry :=
  {| ce_capture := ce_capture c; ce_interface := ce_interface c; ce_counters := counters;
     ce_sent_packet := ce_sent_packet c; ce_sent := ce_sent c |}.
Definition with_capture (c : CaptureEntry) (capture : option Capture) : CaptureEntry :=
  {| ce_capture := capture; ce_interface := ce_interface c; ce_counters := ce_counters c;
     ce_sent_packet := ce_sent_packet c; ce_sent := ce_sent c |}.
Definition with_presence (e : InterfaceEntry) (p : Presence) : InterfaceEntry :=
  {| ie_interface := ie_interface e; ie_presence := p; ie_memberships := ie_memberships e |}.
Definition with_memberships (e : InterfaceEntry) (ms : option Memberships) : InterfaceEntry :=
  {| ie_interface := ie_interface e; ie_presence := ie_presence e; ie_memberships := ms |}.
Definition with_interface (e : InterfaceEntry) (i : Interface) : InterfaceEntry :=
  {| ie_interface := i; ie_presence := ie_presence e; ie_memberships := ie_memberships e |}.

(** [InterfaceTable::new] and [without_group_joins] *)
Definition table_new : InterfaceTable := {| it_entries := []; it_captures := []; it_join_groups := true |}.
Definition without_group_joins : InterfaceTable := {| it_entries := []; it_captures := []; it_join_groups := false |}.

(** [InterfaceEntry::ifindex] *)
Definition entry_ifindex (e : InterfaceEntry) : option Z :=
  match ie_presence e with Present ifindex => Some ifindex | _ => None end.

(** [InterfaceEntry::release] *)
Definition release (e : InterfaceEntry) (presence : Presence) : InterfaceEntry :=
  {| ie_interface := (forget (ie_interface e)).2; ie_presence := presence;
     ie_memberships := rebase <$> ie_memberships e |}.

(** [u32::try_from(index).expect(..)] of an index *)
Definition index_key {E} (i : nat) : res E nat := if Z.of_nat i <? 2 ^ 32 then Ok i else Panic.

Definition capture_index (c : CaptureKey) : nat := Z.to_nat (ck_index c).

(** [l[i]] of an update in place *)
Definition update_at {E A} (l : list A) (i : nat) (f : A -> A) : res E (list A) := x ← idx l i; set_at l i (f x).

(** ** Lookups *)

Definition interface_of (t : InterfaceTable) (c : CaptureKey) : option InterfaceKey :=
  ce_interface <$> it_captures t !! capture_index c.
Definition table_addrs (t : InterfaceTable) (i : InterfaceKey) : option InterfaceAddresses :=
  (fun e => if_addrs (ie_interface e)) <$> it_entries t !! i.
Definition interface_name (t : InterfaceTable) (i : InterfaceKey) : option InterfaceName :=
  (fun e => if_name (ie_interface e)) <$> it_entries t !! i.
Definition interface_index (t : InterfaceTable) (i : InterfaceKey) : option Z := it_entries t !! i ≫= entry_ifindex.
Definition ifindex_of (t : InterfaceTable) (c : CaptureKey) : option Z := interface_of t c ≫= interface_index t.
Definition egress_addrs (t : InterfaceTable) (c : CaptureKey) : option InterfaceAddresses := interface_of t c ≫= table_addrs t.
Definition mtu_of (t : InterfaceTable) (c : CaptureKey) : option Z :=
  i ← interface_of t c; e ← it_entries t !! i; if_mtu (ie_interface e).
(** [InterfaceTable::capture], [contains], [take] and [restore] *)
Definition capture (t : InterfaceTable) (c : CaptureKey) : option Capture := it_captures t !! capture_index c ≫= ce_capture.
Definition contains (t : InterfaceTable) (c : CaptureKey) : bool := (capture_index c <? length (it_captures t))%nat.
Definition take_capture (t : InterfaceTable) (c : CaptureKey) : option Capture * InterfaceTable :=
  match it_captures t !! capture_index c with
  | Some e => (ce_capture e, with_captures t (<[capture_index c := with_capture e None]> (it_captures t)))
  | None => (None, t)
  end.
Definition restore_capture (t : InterfaceTable) (c : CaptureKey) (value : Capture) : bool * InterfaceTable :=
  match it_captures t !! capture_index c with
  | Some e => (true, with_captures t (<[capture_index c := with_capture e (Some value)]> (it_captures t)))
  | None => (false, t)
  end.

(** [InterfaceTable::was_sent] and [record_sent] *)
Definition was_sent (t : InterfaceTable) (egress : CaptureKey) (packet digest : Z) : bool :=
  match it_captures t !! capture_index egress with
  | Some e => (ce_sent_packet e =? packet) && existsb (Z.eqb digest) (ce_sent e)
  | None => false
  end.
Definition note_sent (packet digest : Z) (e : CaptureEntry) : CaptureEntry :=
  {| ce_capture := ce_capture e; ce_interface := ce_interface e; ce_counters := ce_counters e;
     ce_sent_packet := packet;
     ce_sent := (if ce_sent_packet e =? packet then ce_sent e else []) ++ [digest] |}.
Definition record_sent (t : InterfaceTable) (egress : CaptureKey) (packet digest : Z) : InterfaceTable :=
  with_captures t (alter (note_sent packet digest) (capture_index egress) (it_captures t)).

(** The [record_*] methods, which index the row *)
Definition table_record {E} (t : InterfaceTable) (c : CaptureKey) (o : Outcome) : res E InterfaceTable :=
  e ← idx (it_captures t) (capture_index c);
  counters ← Counters.record (ce_counters e) o;
  Ok (with_captures t (<[capture_index c := with_counters e counters]> (it_captures t))).
Definition count_row {E} (t : InterfaceTable) (c : CaptureKey) (f : CaptureCounters -> CaptureCounters) : res E InterfaceTable :=
  e ← idx (it_captures t) (capture_index c);
  Ok (with_captures t (<[capture_index c := with_counters e (f (ce_counters e))]> (it_captures t))).
Definition table_record_oversized {E} (t : InterfaceTable) (c : CaptureKey) (n : Z) : res E InterfaceTable :=
  count_row t c (fun counters => record_oversized counters n).
Definition table_record_echo {E} (t : InterfaceTable) (c : CaptureKey) : res E InterfaceTable := count_row t c record_echo.
Definition table_record_unreassembled {E} (t : InterfaceTable) (c : CaptureKey) : res E InterfaceTable :=
  count_row t c record_unreassembled.

(** [InterfaceTable::key_by_ifindex] *)
Definition key_by_ifindex (t : InterfaceTable) (ifindex : Z) : option InterfaceKey :=
  position (fun e => bool_decide (entry_ifindex e = Some ifindex)) (it_entries t).

Definition table_interfaces (t : InterfaceTable) : list InterfaceKey := seq 0 (length (it_entries t)).

(** [InterfaceTable::captures_of] *)
Definition captures_of (t : InterfaceTable) (i : InterfaceKey) : list CaptureKey :=
  omap (fun x => if decide (ce_interface x.2 = i) then Some {| ck_index := Z.of_nat x.1 |} else None)
    (imap pair (it_captures t)).

(** [InterfaceTable::any_parked] *)
Definition any_parked (t : InterfaceTable) : bool := existsb (fun e => bool_decide (ie_presence e = Parked)) (it_entries t).

(** [InterfaceTable::next_bind_retry] and [next_join_retry] *)
Definition next_bind_retry (t : InterfaceTable) : option Z :=
  min_instant (omap (fun e => match ie_presence e with PrUnbound u => Some (ub_next_try u) | _ => None end) (it_entries t)).
Definition next_join_retry (t : InterfaceTable) : option Z :=
  min_instant (omap (fun e => ie_memberships e ≫= next_retry) (it_entries t)).

(** [InterfaceTable::wake_unbound] and [wake_all_unbound] *)
Definition wake (now : Z) (e : InterfaceEntry) : InterfaceEntry :=
  match ie_presence e with
  | PrUnbound u => with_presence e (PrUnbound {| ub_ifindex := ub_ifindex u; ub_attempts := ub_attempts u; ub_next_try := now |})
  | _ => e
  end.
Definition waits_on (ifindex : Z) (e : InterfaceEntry) : bool :=
  match ie_presence e with PrUnbound u => ub_ifindex u =? ifindex | _ => false end.
Definition wake_unbound (t : InterfaceTable) (ifindex now : Z) : bool * InterfaceTable :=
  (existsb (waits_on ifindex) (it_entries t),
   with_entries t ((fun e => if waits_on ifindex e then wake now e else e) <$> it_entries t)).
Definition wake_all_unbound (t : InterfaceTable) (now : Z) : InterfaceTable :=
  with_entries t (wake now <$> it_entries t).

Section table.
Context {W : Type} `{Kernel W}.

(** [InterfaceEntry::converge] *)
Definition entry_converge (e : InterfaceEntry) (now : Z) (w : W) : (Gone + ()) * InterfaceEntry * W :=
  match ie_presence e, ie_memberships e with
  | Present ifindex, Some ms =>
      let target := {| tg_name := if_name (ie_interface e); tg_ifindex := ifindex |} in
      let '(r, ms, w) := ms_converge ms target now w in (r, with_memberships e (Some ms), w)
  | _, _ => (inr (), e, w)
  end.

(** [InterfaceTable::join_on] *)
Definition join_on (t : InterfaceTable) (i : InterfaceKey) (group : IpAddr) (wanted : Wanted) (now : Z) (w : W)
    : res JoinError () * InterfaceTable * W :=
  match it_entries t !! i with
  | None => (Panic, t, w)
  | Some e =>
      match ie_memberships e with
      | None => (Ok (), t, w)
      | Some ms =>
          let put ms := with_entries t (<[i := with_memberships e (Some ms)]> (it_entries t)) in
          match ie_presence e with
          | Present ifindex =>
              let target := {| tg_name := if_name (ie_interface e); tg_ifindex := ifindex |} in
              let '(r, ms, w) := ms_join ms group wanted target now w in (r, put ms, w)
          | _ => (Ok (), put (ms_add ms group wanted).2, w)
          end
      end
  end.

(** [Iterator::all] over the captures of an interface, which stops at the
    first one detached *)
Fixpoint all_attached (captures : list CaptureEntry) (i : InterfaceKey) (ifindex : Z) (w : W) : bool * W :=
  match captures with
  | [] => (true, w)
  | c :: captures =>
      if negb (bool_decide (ce_interface c = i)) then all_attached captures i ifindex w
      else match ce_capture c with
           | None => all_attached captures i ifindex w
           | Some capture =>
               let '(attached, w) := capture_attached capture ifindex w in
               if attached then all_attached captures i ifindex w else (false, w)
           end
  end.
(** [InterfaceTable::probe] *)
Definition probe (t : InterfaceTable) (i : InterfaceKey) (w : W) : bool * W :=
  match interface_index t i with
  | None => (true, w)
  | Some ifindex => all_attached (it_captures t) i ifindex w
  end.

(** [InterfaceTable::converge] *)
Definition table_converge (t : InterfaceTable) (i : InterfaceKey) (now : Z) (w : W) : (Gone + ()) * InterfaceTable * W :=
  let '(live, w) := probe t i w in
  if negb live then (inl gone, t, w)
  else match it_entries t !! i with
       | None => (inr (), t, w)
       | Some e =>
           let '(r, e, w) := entry_converge e now w in (r, with_entries t (<[i := e]> (it_entries t)), w)
       end.

(** The loop of [InterfaceTable::converge_all]. *)
Fixpoint converge_each (is_ : list InterfaceKey) (t : InterfaceTable) (result : Gone + ()) (now : Z) (w : W)
    : (Gone + ()) * InterfaceTable * W :=
  match is_ with
  | [] => (result, t, w)
  | i :: is_ =>
      let '(r, t, w) := table_converge t i now w in
      converge_each is_ t (match r with inl _ => inl gone | inr _ => result end) now w
  end.
Definition converge_all (t : InterfaceTable) (now : Z) (w : W) : (Gone + ()) * InterfaceTable * W :=
  converge_each (table_interfaces t) t (inr ()) now w.

(** [Interface::refresh] *)
Definition interface_refresh (i : Interface) (ifindex : Z) (w : W) : io AddressChange * Interface * W :=
  let '(r, w) := resolve (if_name i) ifindex w in
  match r with
  | inl e => (inl e, i, w)
  | inr reading => let '(change, i) := adopt i reading in (inr change, i, w)
  end.

(** [Interface::open] *)
Definition interface_open (name : InterfaceName) (ifindex : Z) (w : W) : io Interface * W :=
  let i := {| if_name := name; if_addrs := no_addrs; if_mtu := None; if_loopback := false |} in
  let '(r, i, w) := interface_refresh i ifindex w in
  (match r with inl e => inl e | inr _ => inr i end, w).

(** [InterfaceTable::find_or_add_interface] *)
Definition find_or_add_interface (t : InterfaceTable) (name : InterfaceName) (w : W) : res IoError InterfaceKey * InterfaceTable * W :=
  match position (fun e => bool_decide (if_name (ie_interface e) = name)) (it_entries t) with
  | Some index => (index_key index, t, w)
  | None =>
      let '(r, w) := if_index_checked name w in
      match r with
      | inl e => (Err e, t, w)
      | inr None => (Err OtherError, t, w)
      | inr (Some ifindex) =>
          match index_key (E:=IoError) (length (it_entries t)) with
          | Ok key =>
              let '(r, w) := interface_open name ifindex w in
              match r with
              | inl e => (Err e, t, w)
              | inr i =>
                  let entry := {| ie_interface := i; ie_presence := Present ifindex;
                                  ie_memberships := if it_join_groups t then Some memberships_new else None |} in
                  (Ok key, with_entries t (it_entries t ++ [entry]), w)
              end
          | r => (r, t, w)
          end
      end
  end.

(** [InterfaceTable::open_capture] *)
Definition open_capture (t : InterfaceTable) (name : InterfaceName) (w : W) : res IoError CaptureKey * InterfaceTable * W :=
  let '(r, t, w) := find_or_add_interface t name w in
  match r with
  | Err e => (Err e, t, w)
  | Panic => (Panic, t, w)
  | Ok i =>
      match it_entries t !! i with
      | None => (Panic, t, w)
      | Some e =>
          match entry_ifindex e with
          | None => (Err OtherError, t, w)
          | Some ifindex =>
              let '(r, w) := capture_open (ie_interface e) ifindex w in
              match r with
              | inl e => (Err e, t, w)
              | inr cap =>
                  match index_key (E:=IoError) (length (it_captures t)) with
                  | Ok index =>
                      let row := {| ce_capture := Some cap; ce_interface := i; ce_counters := counters_zero;
                                    ce_sent_packet := 0; ce_sent := [] |} in
                      (Ok {| ck_index := Z.of_nat index |}, with_captures t (it_captures t ++ [row]), w)
                  | _ => (Panic, t, w)
                  end
              end
          end
      end
  end.

(** [InterfaceTable::refresh] *)
Definition table_refresh (t : InterfaceTable) (i : InterfaceKey) (w : W) : res IoError AddressChange * InterfaceTable * W :=
  match it_entries t !! i with
  | None => (Panic, t, w)
  | Some e =>
      match ie_presence e with
      | Present ifindex =>
          let '(r, iface, w) := interface_refresh (ie_interface e) ifindex w in
          (match r with inl e => Err e | inr c => Ok c end,
           with_entries t (<[i := with_interface e iface]> (it_entries t)), w)
      | _ => (Ok no_change, t, w)
      end
  end.

(** [InterfaceTable::refresh_all] *)
Fixpoint refresh_entries (i : InterfaceKey) (entries : list InterfaceEntry) (w : W)
    : list (InterfaceKey * io AddressChange) * list InterfaceEntry * W :=
  match entries with
  | [] => ([], [], w)
  | e :: entries =>
      match ie_presence e with
      | Present ifindex =>
          let '(r, iface, w) := interface_refresh (ie_interface e) ifindex w in
          let '(rs, entries, w) := refresh_entries (S i) entries w in
          ((i, r) :: rs, with_interface e iface :: entries, w)
      | _ => let '(rs, entries, w) := refresh_entries (S i) entries w in (rs, e :: entries, w)
      end
  end.
Definition refresh_all (t : InterfaceTable) (w : W) : list (InterfaceKey * io AddressChange) * InterfaceTable * W :=
  let '(rs, entries, w) := refresh_entries 0 (it_entries t) w in (rs, with_entries t entries, w).

(** The loop of [InterfaceTable::rebind_captures], which stops at a failure. *)
Fixpoint rebind_each (captures : list CaptureEntry) (i : InterfaceKey) (record : Interface) (ifindex : Z) (w : W)
    : io () * list CaptureEntry * W :=
  match captures with
  | [] => (inr (), [], w)
  | c :: captures =>
      let skip :=
        let '(r, captures, w) := rebind_each captures i record ifindex w in (r, c :: captures, w) in
      if negb (bool_decide (ce_interface c = i)) then skip
      else match ce_capture c with
           | None => skip
           | Some cap =>
               let '((cap, r), w) := capture_rebind cap record ifindex w in
               let c := with_capture c (Some cap) in
               match r with
               | inl e => (inl e, c :: captures, w)
               | inr () =>
                   let '(r, captures, w) := rebind_each captures i record ifindex w in (r, c :: captures, w)
               end
           end
  end.

(** [InterfaceTable::settle_bind] *)
Definition settle_bind (t : InterfaceTable) (i : InterfaceKey) (ifindex : Z) (was : Presence) (bound : io ()) (now : Z) (w : W)
    : res Infallible Step * InterfaceTable * W :=
  match it_entries t !! i with
  | None => (Panic, t, w)
  | Some e =>
      match bound with
      | inl error =>
          let attempts := match was with
                          | PrUnbound u => if ub_ifindex u =? ifindex then saturating_succ (ub_attempts u) else 0
                          | _ => 0
                          end in
          let retry_in := retry_delay attempts in
          let u := {| ub_ifindex := ifindex; ub_attempts := attempts; ub_next_try := now + retry_in |} in
          (Ok (BindFailed was ifindex error retry_in (attempts =? 0)),
           with_entries t (<[i := release e (PrUnbound u)]> (it_entries t)), w)
      | inr () =>
          let t := with_entries t (<[i := with_presence e (Present ifindex)]> (it_entries t)) in
          let t := with_captures t ((fun c => if decide (ce_interface c = i)
                                              then with_counters c (record_recovery (ce_counters c)) else c) <$> it_captures t) in
          let '(r, t, w) := table_converge t i now w in
          (Ok (Bound was ifindex (match r with inl _ => true | inr _ => false end)), t, w)
      end
  end.

(** [InterfaceTable::bind] *)
Definition bind_interface (t : InterfaceTable) (i : InterfaceKey) (ifindex now : Z) (w : W) : res Infallible Step * InterfaceTable * W :=
  match it_entries t !! i with
  | None => (Panic, t, w)
  | Some e =>
      let was := ie_presence e in
      let e := with_memberships e (rebase <$> ie_memberships e) in
      let put iface := with_entries t (<[i := with_interface e iface]> (it_entries t)) in
      let '(r, w) := resolve (if_name (ie_interface e)) ifindex w in
      match r with
      | inl error => settle_bind (put (ie_interface e)) i ifindex was (inl error) now w
      | inr reading =>
          let linked := if bool_decide (os = Linux) then ie_interface e else take_link (ie_interface e) reading in
          let '(r, captures, w) := rebind_each (it_captures t) i linked ifindex w in
          let iface := match r with inl _ => linked | inr () => (adopt linked reading).2 end in
          settle_bind (with_captures (put iface) captures) i ifindex was r now w
      end
  end.

(** [InterfaceTable::step] *)
Definition table_step (t : InterfaceTable) (i : InterfaceKey) (now : Z) (w : W) : res Infallible Step * InterfaceTable * W :=
  match it_entries t !! i with
  | None => (Panic, t, w)
  | Some e =>
      let '(r, w) := if_index_checked (if_name (ie_interface e)) w in
      let put e := with_entries t (<[i := e]> (it_entries t)) in
      match r with
      | inl err => (Ok (LookupFailed err), t, w)
      | inr cur =>
          match ie_presence e, cur with
          | Parked, None => (Ok Kept, t, w)
          | Present was, None => (Ok (StParked (Some was)), put (release e Parked), w)
          | PrUnbound _, None => (Ok (StParked None), put (with_presence e Parked), w)
          | Present bound, Some cur =>
              if cur =? bound then
                let '(live, w) := probe t i w in
                if live then (Ok Kept, t, w) else bind_interface t i cur now w
              else bind_interface t i cur now w
          | PrUnbound u, Some cur =>
              if (cur =? ub_ifindex u) && (now <? ub_next_try u) then (Ok Kept, t, w)
              else bind_interface t i cur now w
          | Parked, Some cur => bind_interface t i cur now w
          end
      end
  end.
End table.

(** ** The invariant *)

(** An interface that is not bound has no address to send from, no membership
    and no socket. *)
Definition released (e : InterfaceEntry) : Prop :=
  if_addrs (ie_interface e) = no_addrs /\ if_mtu (ie_interface e) = None /\
  forall ms, ie_memberships e = Some ms -> ms_sockets ms = no_sockets /\ Forall (fun m => mb_state m = MPending) (ms_groups ms).

Definition entry_ok (e : InterfaceEntry) : Prop :=
  (forall ms, ie_memberships e = Some ms -> memberships_ok ms) /\
  (entry_ifindex e = None -> released e) /\
  match ie_presence e with PrUnbound u => 0 <= ub_attempts u | _ => True end.

Definition capture_ok (entries : list InterfaceEntry) (c : CaptureEntry) : Prop :=
  (ce_interface c < length entries)%nat /\ counters_ok (ce_counters c).

Record table_ok (t : InterfaceTable) : Prop := {
  tk_entries : Forall entry_ok (it_entries t);
  tk_captures : Forall (capture_ok (it_entries t)) (it_captures t);
  tk_names : NoDup ((fun e => if_name (ie_interface e)) <$> it_entries t);
}.

(** What an operation on one interface leaves: the other interfaces, every
    name, and the captures' links. *)
Record only_entry (i : InterfaceKey) (t t' : InterfaceTable) : Prop := {
  oe_other : forall j, j <> i -> it_entries t' !! j = it_entries t !! j;
  oe_names : (fun e => if_name (ie_interface e)) <$> it_entries t' = (fun e => if_name (ie_interface e)) <$> it_entries t;
  oe_captures : ce_interface <$> it_captures t' = ce_interface <$> it_captures t;
}.

Lemma only_entry_refl i t : only_entry i t t.
Proof. by split. Qed.
Lemma only_entry_trans i t1 t2 t3 : only_entry i t1 t2 -> only_entry i t2 t3 -> only_entry i t1 t3.
Proof. intros [H1 H2 H3] [H4 H5 H6]. split; [intros j Hj; by rewrite H4, H1|congruence..]. Qed.

Lemma only_entry_length i t t' : only_entry i t t' -> length (it_entries t') = length (it_entries t).
Proof. intros [_ H _]. by rewrite <- (length_fmap (fun e => if_name (ie_interface e))), H, length_fmap. Qed.

(** The entry of an interface replaced by one of the same name. *)
Lemma put_entry t i e e' :
  it_entries t !! i = Some e -> if_name (ie_interface e') = if_name (ie_interface e) ->
  only_entry i t (with_entries t (<[i := e']> (it_entries t))).
Proof.
  intros Hi Hn. split; cbn [with_entries it_entries it_captures]; [|..|done].
  - intros j Hj. by apply list_lookup_insert_ne.
  - rewrite list_fmap_insert, Hn. apply list_insert_id. by rewrite list_lookup_fmap, Hi.
Qed.

Lemma put_entry_ok t i e e' :
  table_ok t -> it_entries t !! i = Some e -> if_name (ie_interface e') = if_name (ie_interface e) -> entry_ok e' ->
  table_ok (with_entries t (<[i := e']> (it_entries t))).
Proof.
  intros [H1 H2 H3] Hi Hn Hok. destruct (put_entry t i e e' Hi Hn) as [_ Hnames _].
  split; cbn [with_entries it_entries it_captures] in *.
  - by apply Forall_insert.
  - eapply Forall_impl; [exact H2|]. intros c [? ?]. split; [by rewrite length_insert|done].
  - by rewrite Hnames.
Qed.

Lemma rebase_ok ms : memberships_ok ms -> memberships_ok (rebase ms).
Proof.
  intros [Hnd Hall]. unfold memberships_ok, rebase. cbn [ms_groups ms_sockets]. rewrite <- list_fmap_compose.
  split; [|by apply Forall_fmap, Forall_true].
  by replace ((mb_group ∘ (fun m => with_state m MPending)) <$> ms_groups ms) with (mb_group <$> ms_groups ms) by (by apply list_fmap_ext).
Qed.

Lemma rebase_pending ms : ms_sockets (rebase ms) = no_sockets /\ Forall (fun m => mb_state m = MPending) (ms_groups (rebase ms)).
Proof. split; [done|]. unfold rebase. cbn [ms_groups]. by apply Forall_fmap, Forall_true. Qed.

Lemma release_ok e p :
  entry_ok e -> match p with PrUnbound u => 0 <= ub_attempts u | _ => True end -> entry_ok (release e p).
Proof.
  intros (H1&_&_) Hp. split_and!; [| |done].
  - intros ms. cbn. intros (ms0&Hms&->)%fmap_Some. by apply rebase_ok, H1.
  - intros _. split_and!; [done|done|]. intros ms. cbn. intros (ms0&_&->)%fmap_Some. apply rebase_pending.
Qed.

Section step.
Context {W : Type} `{Kernel W}.

Lemma ms_converge_ok ms t now (w : W) r ms' w' :
  ms_converge ms t now w = (r, ms', w') -> memberships_ok ms -> memberships_ok ms'.
Proof.
  unfold ms_converge. destruct (converge_groups _ _ _ _ _) as [[[r1 s] groups] w1] eqn:Ec. intros [= <- <- <-] [Hnd Hall].
  destruct (converge_groups_spec _ _ _ _ _ _ _ _ _ Ec Hall) as (_&H1&H2&_&_).
  split; cbn [ms_groups ms_sockets]; [by rewrite H2|done].
Qed.

Lemma entry_converge_ok e now (w : W) r e' w' :
  entry_converge e now w = (r, e', w') -> entry_ok e ->
  entry_ok e' /\ ie_interface e' = ie_interface e /\ ie_presence e' = ie_presence e.
Proof.
  unfold entry_converge. intros Hc Hok.
  destruct (ie_presence e) as [ifindex| |u] eqn:Ep; [|by injection Hc as <- <- <-..].
  destruct (ie_memberships e) as [ms|] eqn:Em; [|by injection Hc as <- <- <-].
  destruct (ms_converge _ _ _ _) as [[r1 ms1] w1] eqn:Ec. injection Hc as <- <- <-. destruct Hok as (H1&H2&H3).
  split_and!; [|done|done]. split_and!; cbn.
  - intros ms2 [= <-]. eapply ms_converge_ok; [exact Ec|by apply H1].
  - unfold entry_ifindex. cbn. by rewrite Ep.
  - by rewrite Ep.
Qed.

Lemma table_converge_ok t i now (w : W) r t' w' :
  table_converge t i now w = (r, t', w') -> table_ok t ->
  table_ok t' /\ only_entry i t t' /\
  (forall e, it_entries t !! i = Some e -> exists e', it_entries t' !! i = Some e' /\ ie_presence e' = ie_presence e).
Proof.
  unfold table_converge. intros Hc Hok. destruct (probe t i w) as [live w1].
  destruct live; cbn [negb] in Hc; [|injection Hc as <- <- <-; split_and!; [done|apply only_entry_refl|eauto]].
  destruct (it_entries t !! i) as [e|] eqn:Hi; [|injection Hc as <- <- <-; split_and!; [done|apply only_entry_refl|done]].
  destruct (entry_converge e now w1) as [[r1 e1] w2] eqn:Ec. injection Hc as <- <- <-.
  pose proof (tk_entries _ Hok) as Hall. rewrite Forall_lookup in Hall.
  destruct (entry_converge_ok _ _ _ _ _ _ Ec (Hall _ _ Hi)) as (He1&Hif&Hp).
  assert (Hn : if_name (ie_interface e1) = if_name (ie_interface e)) by (by rewrite Hif).
  split_and!; [by eapply put_entry_ok|by eapply put_entry|]. intros e2 [= <-]. exists e1. split; [|done].
  cbn [with_entries it_entries]. apply list_lookup_insert_eq. by eapply lookup_lt_Some.
Qed.

Lemma rebind_each_ok captures i record ifindex (w : W) r captures' w' :
  rebind_each captures i record ifindex w = (r, captures', w') ->
  ce_interface <$> captures' = ce_interface <$> captures /\
  forall entries, Forall (capture_ok entries) captures -> Forall (capture_ok entries) captures'.
Proof.
  revert w r captures' w'. induction captures as [|c captures IH]; intros w r captures' w'; cbn [rebind_each].
  { intros [= <- <- <-]. done. }
  assert (Hskip : forall r captures' w', 
    (let '(r, captures, w) := rebind_each captures i record ifindex w in (r, c :: captures, w)) = (r, captures', w') ->
    ce_interface <$> captures' = ce_interface <$> (c :: captures) /\
    forall entries, Forall (capture_ok entries) (c :: captures) -> Forall (capture_ok entries) captures').
  { intros r0 c0 w0. destruct (rebind_each captures i record ifindex w) as [[r1 c1] w1] eqn:Er. intros [= <- <- <-].
    apply IH in Er as [E1 E2]. split; [cbn; by rewrite E1|]. intros entries [Hc Hcs]%Forall_cons. constructor; [done|by apply E2]. }
  destruct (negb _); [apply Hskip|]. destruct (ce_capture c) as [cap|]; [|apply Hskip].
  destruct (capture_rebind cap record ifindex w) as [[cap' [e|[]]] w1].
  - intros [= <- <- <-]. split; [done|]. intros entries [[??] Hcs]%Forall_cons. constructor; [by split|done].
  - destruct (rebind_each captures i record ifindex w1) as [[r1 c1] w2] eqn:Er. intros [= <- <- <-].
    apply IH in Er as [E1 E2]. split; [cbn; by rewrite E1|]. intros entries [[??] Hcs]%Forall_cons. constructor; [by split|by apply E2].
Qed.
End step.

(** ** Stepping an interface *)

(** Where a step may leave an interface whose name resolves to [cur]. *)
Definition in_line (cur : option Z) (now : Z) (p : Presence) : Prop :=
  match cur, p with
  | None, Parked => True
  | Some cur, Present ifindex => ifindex = cur
  | Some cur, PrUnbound u => ub_ifindex u = cur /\ now < ub_next_try u
  | _, _ => False
  end.

(** What a step reports, against the presence before and after it. *)
Definition reports (s : Step) (now : Z) (was p : Presence) : Prop :=
  match s with
  | Kept => p = was
  | LookupFailed _ => p = was
  | StParked w => p = Parked /\ was <> Parked /\ w = match was with Present ifindex => Some ifindex | _ => None end
  | Bound w ifindex _ => w = was /\ p = Present ifindex
  | BindFailed w ifindex _ retry_in first =>
      w = was /\ RETRY_FLOOR <= retry_in <= RETRY_CEILING /\
      exists u, p = PrUnbound u /\ ub_ifindex u = ifindex /\ ub_next_try u = now + retry_in /\
        (first = true <-> ub_attempts u = 0)
  end.

Section step_spec.
Context {W : Type} `{Kernel W}.

Lemma settle_bind_spec t i e ifindex was bound now (w : W) :
  table_ok t -> it_entries t !! i = Some e ->
  match was with PrUnbound u => 0 <= ub_attempts u | _ => True end ->
  exists s t' w' e', settle_bind t i ifindex was bound now w = (Ok s, t', w') /\
    table_ok t' /\ only_entry i t t' /\ it_entries t' !! i = Some e' /\
    in_line (Some ifindex) now (ie_presence e') /\ reports s now was (ie_presence e').
Proof.
  intros Hok Hi Hwas. pose proof (tk_entries _ Hok) as Hall. rewrite Forall_lookup in Hall.
  pose proof (Hall _ _ Hi) as He. unfold settle_bind. rewrite Hi. destruct bound as [error|[]].
  - set (attempts := match was with PrUnbound u => _ | _ => _ end).
    assert (Hat : 0 <= attempts).
    { unfold attempts. destruct was as [| |u]; try lia. destruct (_ =? _); [by apply saturating_succ_nonneg|lia]. }
    pose proof (retry_delay_bounds attempts Hat) as Hd. cbv zeta.
    set (u := {| ub_ifindex := ifindex; ub_attempts := attempts; ub_next_try := now + retry_delay attempts |}).
    eexists _, _, w, (release e (PrUnbound u)). split; [reflexivity|].
    assert (Hn : if_name (ie_interface (release e (PrUnbound u))) = if_name (ie_interface e)) by done.
    split_and!; [eapply put_entry_ok; [done|done|done|by apply release_ok]|by eapply put_entry| | |].
    + cbn [with_entries it_entries]. apply list_lookup_insert_eq. by eapply lookup_lt_Some.
    + cbn. split; [done|]. unfold RETRY_FLOOR in Hd. lia.
    + cbn [reports ie_presence release]. split_and!; [done|lia|lia|]. exists u. split_and!; [done|done|done|]. cbn. lia.
  - cbv zeta. set (t1 := with_entries t (<[i := with_presence e (Present ifindex)]> (it_entries t))).
    set (t2 := with_captures t1 _).
    assert (Hp : entry_ok (with_presence e (Present ifindex))).
    { destruct He as (H1&_&_). split_and!; [exact H1|done|done]. }
    assert (Hok1 : table_ok t1) by (by eapply put_entry_ok).
    assert (Ho1 : only_entry i t t1) by (by eapply put_entry).
    assert (Hok2 : table_ok t2).
    { destruct Hok1 as [K1 K2 K3]. split; [exact K1| |exact K3]. unfold t2. cbn [with_captures it_captures it_entries].
      apply Forall_fmap. eapply Forall_impl; [exact K2|]. intros c [? ?]. cbn. case_decide; by split. }
    assert (Ho2 : only_entry i t1 t2).
    { split; [done|done|]. unfold t2. cbn [with_captures it_captures]. rewrite <- list_fmap_compose.
      apply list_fmap_ext. intros j c _. cbn. by case_decide. }
    destruct (table_converge t2 i now w) as [[r t3] w3] eqn:Ec.
    destruct (table_converge_ok _ _ _ _ _ _ _ Ec Hok2) as (Hok3&Ho3&Hpres).
    assert (Hi2 : it_entries t2 !! i = Some (with_presence e (Present ifindex))).
    { unfold t2, t1. cbn. apply list_lookup_insert_eq. by eapply lookup_lt_Some. }
    destruct (Hpres _ Hi2) as (e3&Hi3&Hp3). eexists _, t3, w3, e3. split; [reflexivity|].
    split_and!; [done|eapply only_entry_trans; [exact Ho1|]; by eapply only_entry_trans|done| |]; rewrite Hp3; done.
Qed.

(** A table whose interface's entry and captures are replaced. *)
Lemma binding_ok t i e e1 captures :
  table_ok t -> it_entries t !! i = Some e -> if_name (ie_interface e1) = if_name (ie_interface e) -> entry_ok e1 ->
  ce_interface <$> captures = ce_interface <$> it_captures t ->
  (forall entries, Forall (capture_ok entries) (it_captures t) -> Forall (capture_ok entries) captures) ->
  let t1 := with_captures (with_entries t (<[i := e1]> (it_entries t))) captures in
  table_ok t1 /\ only_entry i t t1 /\ it_entries t1 !! i = Some e1.
Proof.
  intros Hok Hi Hn He1 Hlinks Hcaps. cbv zeta.
  assert (Hok1 : table_ok (with_entries t (<[i := e1]> (it_entries t)))) by (by eapply put_entry_ok).
  split_and!.
  - destruct Hok1 as [K1 K2 K3]. split; [exact K1|by apply Hcaps|exact K3].
  - destruct (put_entry t i e e1 Hi Hn) as [K1 K2 _]. by split.
  - cbn. apply list_lookup_insert_eq. by eapply lookup_lt_Some.
Qed.

(** The entry during a bind: its memberships dropped, its addresses not yet
    adopted unless the bind succeeds. *)
Definition rebased (e : InterfaceEntry) (iface : Interface) : InterfaceEntry :=
  with_interface (with_memberships e (rebase <$> ie_memberships e)) iface.

Lemma rebased_ok e iface :
  entry_ok e -> (entry_ifindex e = None -> if_addrs iface = no_addrs /\ if_mtu iface = None) -> entry_ok (rebased e iface).
Proof.
  intros (H1&H2&H3) Hrel. split_and!; [| |exact H3].
  - intros ms. cbn. intros (ms0&Hms&->)%fmap_Some. by apply rebase_ok, H1.
  - intros Hnone. destruct (Hrel Hnone) as [? ?]. split_and!; [done|done|]. intros ms. cbn.
    intros (ms0&_&->)%fmap_Some. apply rebase_pending.
Qed.

Lemma rebased_bound_ok e iface ifindex : entry_ok e -> entry_ok (with_presence (rebased e iface) (Present ifindex)).
Proof.
  intros (H1&_&_). split_and!; [|done|done]. intros ms. cbn. intros (ms0&Hms&->)%fmap_Some. by apply rebase_ok, H1.
Qed.

(** A successful bind does not look at the presence it replaces. *)
Lemma settle_bound t i e ifindex was captures now (w : W) :
  (i < length (it_entries t))%nat ->
  settle_bind (with_captures (with_entries t (<[i := e]> (it_entries t))) captures) i ifindex was (inr ()) now w =
  settle_bind (with_captures (with_entries t (<[i := with_presence e (Present ifindex)]> (it_entries t))) captures)
    i ifindex was (inr ()) now w.
Proof.
  intros Hlt. unfold settle_bind. cbn [with_captures with_entries it_entries it_captures it_join_groups].
  rewrite !list_lookup_insert_eq by done. rewrite !list_insert_insert_eq. done.
Qed.

Lemma bind_spec t i e ifindex now (w : W) :
  table_ok t -> it_entries t !! i = Some e ->
  exists s t' w' e', bind_interface t i ifindex now w = (Ok s, t', w') /\
    table_ok t' /\ only_entry i t t' /\ it_entries t' !! i = Some e' /\
    in_line (Some ifindex) now (ie_presence e') /\ reports s now (ie_presence e) (ie_presence e').
Proof.
  intros Hok Hi. pose proof (tk_entries _ Hok) as Hall. rewrite Forall_lookup in Hall.
  pose proof (Hall _ _ Hi) as He. pose proof (lookup_lt_Some _ _ _ Hi) as Hlt.
  assert (Hwas : match ie_presence e with PrUnbound u => 0 <= ub_attempts u | _ => True end) by (apply He).
  assert (Hrel : entry_ifindex e = None -> if_addrs (ie_interface e) = no_addrs /\ if_mtu (ie_interface e) = None).
  { intros Hnone. destruct He as (_&H2&_). destruct (H2 Hnone) as (?&?&_). done. }
  unfold bind_interface. rewrite Hi. cbv zeta. cbn [with_memberships ie_interface].
  assert (Hsettle : forall e1 captures bound w1,
    if_name (ie_interface e1) = if_name (ie_interface e) -> entry_ok e1 ->
    ce_interface <$> captures = ce_interface <$> it_captures t ->
    (forall entries, Forall (capture_ok entries) (it_captures t) -> Forall (capture_ok entries) captures) ->
    exists s t' w' e',
      settle_bind (with_captures (with_entries t (<[i := e1]> (it_entries t))) captures) i ifindex (ie_presence e) bound now w1
        = (Ok s, t', w') /\
      table_ok t' /\ only_entry i t t' /\ it_entries t' !! i = Some e' /\
      in_line (Some ifindex) now (ie_presence e') /\ reports s now (ie_presence e) (ie_presence e')).
  { intros e1 captures bound w1 Hn He1 Hlinks Hcaps.
    destruct (binding_ok t i e e1 captures Hok Hi Hn He1 Hlinks Hcaps) as (Hok1&Ho1&Hi1).
    destruct (settle_bind_spec _ i e1 ifindex (ie_presence e) bound now w1 Hok1 Hi1 Hwas) as (s&t'&w'&e'&Hs&Hok'&Ho'&Hi'&Hin&Hre).
    exists s, t', w', e'. split_and!; try done. by eapply only_entry_trans. }
  destruct (resolve (if_name (ie_interface e)) ifindex w) as [[error|reading] w1].
  - apply (Hsettle (rebased e (ie_interface e)) (it_captures t)); [done|by apply rebased_ok|done|done].
  - set (linked := if bool_decide (os = Linux) then ie_interface e else take_link (ie_interface e) reading).
    assert (Hlinked : if_name linked = if_name (ie_interface e) /\ if_addrs linked = if_addrs (ie_interface e) /\ if_mtu linked = if_mtu (ie_interface e)).
    { unfold linked. by destruct (bool_decide _). }
    destruct Hlinked as (Hln&Hla&Hlm).
    destruct (rebind_each (it_captures t) i linked ifindex w1) as [[r captures] w2] eqn:Er.
    destruct (rebind_each_ok _ _ _ _ _ _ _ _ Er) as [Hlinks Hcaps].
    destruct r as [error|[]].
    + apply (Hsettle (rebased e linked) captures); [done| |done|done]. apply rebased_ok; [done|]. rewrite Hla, Hlm. exact Hrel.
    + rewrite settle_bound by done. apply (Hsettle (with_presence (rebased e (adopt linked reading).2) (Present ifindex)) captures);
        [done|by apply rebased_bound_ok|done|done].
Qed.

(** What a step comes to on an interface whose name resolves to [cur]. *)
Definition lands (t : InterfaceTable) (i : InterfaceKey) (now : Z) (cur : option Z) (was : Presence)
    (x : res Infallible Step * InterfaceTable * W) : Prop :=
  exists s t' w' e', x = (Ok s, t', w') /\ table_ok t' /\ only_entry i t t' /\ it_entries t' !! i = Some e' /\
    reports s now was (ie_presence e') /\ in_line cur now (ie_presence e') /\ (entry_ifindex e' = None -> released e').

Lemma table_ok_released t i e : table_ok t -> it_entries t !! i = Some e -> entry_ifindex e = None -> released e.
Proof. intros [Hall _ _] Hi. rewrite Forall_lookup in Hall. by destruct (Hall _ _ Hi) as (_&?&_). Qed.

Lemma kept_lands t i e now cur (w : W) :
  table_ok t -> it_entries t !! i = Some e -> in_line cur now (ie_presence e) ->
  lands t i now cur (ie_presence e) (Ok Kept, t, w).
Proof. intros Hok Hi Hin. exists Kept, t, w, e. split_and!; try done. by eapply table_ok_released. Qed.

Lemma bind_lands t i e c now (w : W) :
  table_ok t -> it_entries t !! i = Some e -> lands t i now (Some c) (ie_presence e) (bind_interface t i c now w).
Proof.
  intros Hok Hi. destruct (bind_spec t i e c now w Hok Hi) as (s&t'&w'&e'&Hs&Hok'&Ho'&Hi'&Hin&Hre).
  exists s, t', w', e'. split_and!; try done. by eapply table_ok_released.
Qed.

Lemma park_lands t i e e' was now (w : W) :
  table_ok t -> it_entries t !! i = Some e -> entry_ok e' -> if_name (ie_interface e') = if_name (ie_interface e) ->
  ie_presence e' = Parked -> reports (StParked was) now (ie_presence e) Parked ->
  lands t i now None (ie_presence e) (Ok (StParked was), with_entries t (<[i := e']> (it_entries t)), w).
Proof.
  intros Hok Hi He' Hn Hp Hre. eexists _, _, w, e'. split; [reflexivity|].
  assert (Hok' : table_ok (with_entries t (<[i := e']> (it_entries t)))) by (by eapply put_entry_ok).
  assert (Hi' : it_entries (with_entries t (<[i := e']> (it_entries t))) !! i = Some e').
  { cbn. apply list_lookup_insert_eq. by eapply lookup_lt_Some. }
  split_and!; [done|by eapply put_entry|done|by rewrite Hp|by rewrite Hp|by eapply table_ok_released].
Qed.

Lemma step_lands t i e cur now (w w1 : W) :
  table_ok t -> it_entries t !! i = Some e -> if_index_checked (if_name (ie_interface e)) w = (inr cur, w1) ->
  lands t i now cur (ie_presence e) (table_step t i now w).
Proof.
  intros Hok Hi El. unfold table_step. rewrite Hi, El.
  pose proof (tk_entries _ Hok) as Hall. rewrite Forall_lookup in Hall. pose proof (Hall _ _ Hi) as He.
  destruct (ie_presence e) as [bound| |u] eqn:Ep; rewrite <- Ep; destruct cur as [cur|].
  - destruct (Z.eqb_spec cur bound) as [-> |]; [|by apply bind_lands].
    destruct (probe t i w1) as [live w2]. destruct live; [apply kept_lands; by rewrite ?Ep|by apply bind_lands].
  - apply park_lands; try done; [by apply release_ok|by rewrite Ep].
  - by apply bind_lands.
  - apply kept_lands; by rewrite ?Ep.
  - destruct ((cur =? ub_ifindex u) && (now <? ub_next_try u)) eqn:Ed; [|by apply bind_lands].
    apply andb_true_iff in Ed as [Ed1%Z.eqb_eq Ed2%Z.ltb_lt]. apply kept_lands; by rewrite ?Ep.
  - apply park_lands; try done; [|by rewrite Ep]. destruct He as (H1&H2&_). split_and!; [exact H1| |done].
    intros _. apply H2. unfold entry_ifindex. by rewrite Ep.
Qed.

Lemma step_lookup_failed t i e err now (w w1 : W) :
  it_entries t !! i = Some e -> if_index_checked (if_name (ie_interface e)) w = (inl err, w1) ->
  table_step t i now w = (Ok (LookupFailed err), t, w1).
Proof. intros Hi El. unfold table_step. by rewrite Hi, El. Qed.

(** C28. A step never panics on a table in order, whatever the kernel answers,
    and touches one interface only. It leaves an interface as it is when the
    lookup of its name could not run; otherwise it brings it in line with what
    the name resolves to: parked when it resolves to nothing, and else bound
    to the index it resolves to or waiting for a retry of that very index that
    is still to come, one to thirty seconds away. An interface it does not
    leave bound has no address to send from and no group joined. *)
Theorem step_brings_in_line t i e now (w : W) :
  table_ok t -> it_entries t !! i = Some e ->
  exists s t' w' e', table_step t i now w = (Ok s, t', w') /\
    table_ok t' /\ only_entry i t t' /\ it_entries t' !! i = Some e' /\
    reports s now (ie_presence e) (ie_presence e') /\
    match (if_index_checked (if_name (ie_interface e)) w).1 with
    | inl err => s = LookupFailed err /\ t' = t
    | inr cur => in_line cur now (ie_presence e')
    end /\
    (entry_ifindex e' = None -> released e').
Proof.
  intros Hok Hi. destruct (if_index_checked (if_name (ie_interface e)) w) as [[err|cur] w1] eqn:El; cbn [fst].
  - rewrite (step_lookup_failed t i e err now w w1) by done.
    exists (LookupFailed err), t, w1, e. split_and!; try done. by eapply table_ok_released.
  - exact (step_lands t i e cur now w w1 Hok Hi El).
Qed.
End step_spec.

Definition ex_interface : Interface :=
  {| if_name := {| if_str := bs "eth0" |}; if_addrs := no_addrs; if_mtu := None; if_loopback := false |}.
Definition ex_table : InterfaceTable :=
  {| it_entries := [{| ie_interface := ex_interface; ie_presence := Parked; ie_memberships := Some ex_memberships |}];
     it_captures := [{| ce_capture := Some {| cap_fd := 4; cap_link := Ethernet; cap_batch := [] |}; ce_interface := 0;
                        ce_counters := counters_zero; ce_sent_packet := 0; ce_sent := [] |}];
     it_join_groups := true |}.

Lemma ex_table_ok : table_ok ex_table.
Proof.
  assert (Hms : memberships_ok ex_memberships) by (split; [apply NoDup_singleton|repeat constructor; done]).
  split; [constructor; [|constructor]|constructor; [split; [cbn; lia|done]|constructor]|apply NoDup_singleton].
  split_and!; [by intros ms [= <-]| |done]. intros _. split_and!; [done|done|]. intros ms [= <-]. by repeat constructor.
Qed.

Lemma step_brings_in_line_witness :
  exists s t' e', (table_step (H:=quiet_kernel) ex_table 0 7 ()).1 = (Ok s, t') /\
    it_entries t' !! 0%nat = Some e' /\ in_line (Some 1) 7 (ie_presence e').
Proof.
  destruct (step_brings_in_line (H:=quiet_kernel) ex_table 0
    {| ie_interface := ex_interface; ie_presence := Parked; ie_memberships := Some ex_memberships |} 7 () ex_table_ok eq_refl)
    as (s&t'&w'&e'&Hs&_&_&He'&_&Hin&_).
  exists s, t', e'. split; [by rewrite Hs|]. split; [exact He'|exact Hin].
Defined.
