(* ===== verification/Lifecycle.v ===== *)
(** Interface lifecycle ([src/dispatch/lifecycle.rs]): the monitor drain, the
    periodic re-read and the reconcile that keep the interface table current. *)

From S2P Require Import Prelude Text Addr Names Interface Kernel Multicast Counters LinearMap InterfaceTable.

Local Open Scope Z_scope.

Definition RECONCILE_TICK : Z := 30 * 10 ^ 9.
Definition RECONCILE_RETRY : Z := 10 ^ 9.
Definition RECHECK_INTERVAL : Z := 30 * 10 ^ 9.

(** [InterfaceEvent] *)
Inductive InterfaceEvent : Type := EvAddress (ifindex : Z) | EvLink (ifindex : Z) | EvOverflow.

Record Changes : Type := { cg_v4_moved : list CaptureKey; cg_touched : list CaptureKey; cg_reconcile : bool }.
Definition no_changes : Changes := {| cg_v4_moved := []; cg_touched := []; cg_reconcile := false |}.

Record Rebuilt : Type := { rb_captures : list CaptureKey; rb_removed : bool }.

(** [InterfaceLifecycle]; [lc_monitor] is whether a monitor is open. *)
Record Lifecycle : Type := {
  lc_monitor : bool;
  lc_max_seen : option Z;
  lc_next_reconcile : Z;
  lc_next_recheck : Z;
}.

(** [InterfaceLifecycle::new] at [now] *)
Definition lifecycle_new (monitor : bool) (now : Z) : Lifecycle :=
  {| lc_monitor := monitor; lc_max_seen := None; lc_next_reconcile := now + RECONCILE_TICK;
     lc_next_recheck := now + RECHECK_INTERVAL |}.

(** [Option::max], [None] below any index *)
Definition max_index (a : option Z) (b : Z) : option Z := Some (match a with Some a => Z.max a b | None => b end).
Definition above (a : Z) (ceiling : option Z) : bool := match ceiling with Some c => c <? a | None => true end.

Definition set_max_seen (l : Lifecycle) (m : option Z) : Lifecycle :=
  {| lc_monitor := lc_monitor l; lc_max_seen := m; lc_next_reconcile := lc_next_reconcile l; lc_next_recheck := lc_next_recheck l |}.
Definition set_next_reconcile (l : Lifecycle) (at_ : Z) : Lifecycle :=
  {| lc_monitor := lc_monitor l; lc_max_seen := lc_max_seen l; lc_next_reconcile := at_; lc_next_recheck := lc_next_recheck l |}.
Definition set_next_recheck (l : Lifecycle) (at_ : Z) : Lifecycle :=
  {| lc_monitor := lc_monitor l; lc_max_seen := lc_max_seen l; lc_next_reconcile := lc_next_reconcile l; lc_next_recheck := at_ |}.

(** [saw_interface] and [reconcile_now] *)
Definition saw_interface (l : Lifecycle) (ifindex : Z) : Lifecycle := set_max_seen l (max_index (lc_max_seen l) ifindex).
Definition reconcile_now (l : Lifecycle) (now : Z) : Lifecycle := set_next_reconcile l now.

(** [captures_for] *)
Definition captures_for (t : InterfaceTable) (is_ : list InterfaceKey) : list CaptureKey := is_ ≫= captures_of t.

(** What a pass over re-read interfaces notes: those whose IPv4 address moved,
    and those any address of which did.  A failed re-read counts as moved where
    [failed_moves]. *)
Definition note_refresh (failed_moves : bool) (key : InterfaceKey) (r : io AddressChange)
    (noted : list InterfaceKey * list InterfaceKey) : list InterfaceKey * list InterfaceKey :=
  let '(v4_moved, touched) := noted in
  match r with
  | inr change =>
      (if ch_v4 change then v4_moved ++ [key] else v4_moved,
       if ch_v4 change || ch_v6 change then touched ++ [key] else touched)
  | inl _ => if failed_moves then (v4_moved ++ [key], touched ++ [key]) else (v4_moved, touched)
  end.
Definition note_all (failed_moves : bool) (rs : list (InterfaceKey * io AddressChange)) : list InterfaceKey * list InterfaceKey :=
  foldl (fun noted x => note_refresh failed_moves x.1 x.2 noted) ([], []) rs.

(** [Moved], and how a step moved what the captures read *)
Inductive Moved : Type := Rebound | Removed.
Definition moved (s : Step) : option Moved :=
  match s with
  | StParked (Some _) | BindFailed (Present _) _ _ _ _ => Some Removed
  | Bound _ _ _ => Some Rebound
  | Kept | LookupFailed _ | StParked None | BindFailed _ _ _ _ _ => None
  end.

(** [next_pass] *)
Definition next_pass (now : Z) (soon : bool) (bind_retry : option Z) : Z :=
  let next := now + (if soon then RECONCILE_RETRY else RECONCILE_TICK) in
  match bind_retry with
  | Some due => if now <? due then Z.min due next else next
  | None => next
  end.

(** The events of a drain, each index once, with whether one was a link event. *)
Definition collect_event (ev : InterfaceEvent) (s : bool * LinearMap Z bool) : bool * LinearMap Z bool :=
  let '(overflow, changed) := s in
  match ev with
  | EvOverflow => (true, changed)
  | EvAddress ifindex | EvLink ifindex =>
      let is_link := match ev with EvLink _ => true | _ => false end in
      (overflow,
       match lm_get changed ifindex with
       | Some _ => lm_get_mut (fun link => link || is_link) changed ifindex
       | None => (lm_insert changed ifindex is_link).2
       end)
  end.
Definition collect_events (evs : list InterfaceEvent) : bool * LinearMap Z bool :=
  foldl (fun s ev => collect_event ev s) (false, lm_new) evs.

Section lifecycle.
Context {W : Type} `{Kernel W}.

(** [InterfaceMonitor::INDEXES_MONOTONIC] and [LIFECYCLE_EVENTS] *)
Definition INDEXES_MONOTONIC : bool := bool_decide (os = Linux).
Definition LIFECYCLE_EVENTS : bool := negb (bool_decide (os = MacOs)).

(** [InterfaceLifecycle::recheck] *)
Definition recheck (l : Lifecycle) (t : InterfaceTable) (now : Z) (w : W) : Changes * Lifecycle * InterfaceTable * W :=
  let '(rs, t, w) := refresh_all t w in
  let '(v4_moved, touched) := note_all false rs in
  let '(r, t1, w) := converge_all t now w in
  ({| cg_v4_moved := captures_for t v4_moved; cg_touched := captures_for t touched;
      cg_reconcile := match r with inl _ => true | inr _ => false end |},
   set_next_recheck l (now + RECHECK_INTERVAL), t1, w).

(** [unwatched_event_reconciles] *)
Definition unwatched_event_reconciles (t : InterfaceTable) (ifindex : Z) (is_link : bool) (prior_ceiling : option Z) (now : Z)
    : bool * InterfaceTable :=
  let '(woke, t) := wake_unbound t ifindex now in
  (if woke then true
   else
     let creation := if INDEXES_MONOTONIC then is_link && above ifindex prior_ceiling else is_link in
     creation || negb LIFECYCLE_EVENTS, t).

(** One changed index of [drain]. *)
Definition drain_index (prior_ceiling : option Z) (now : Z) (ifindex : Z) (is_link : bool)
    (s : bool * (list InterfaceKey * list InterfaceKey) * InterfaceTable * W)
    : res Infallible (bool * (list InterfaceKey * list InterfaceKey) * InterfaceTable * W) :=
  let '(want, noted, t, w) := s in
  match key_by_ifindex t ifindex with
  | None =>
      let '(r, t) := unwatched_event_reconciles t ifindex is_link prior_ceiling now in
      Ok (want || r, noted, t, w)
  | Some key =>
      let '(r, t, w) := table_refresh t key w in
      match r with
      | Panic => Panic
      | Err e => Ok (true, note_refresh true key (inl e) noted, t, w)
      | Ok change =>
          let '(dead, t, w) := table_converge t key now w in
          Ok (want || is_link || match dead with inl _ => true | inr _ => false end,
              note_refresh true key (inr change) noted, t, w)
      end
  end.
Fixpoint drain_indexes (prior_ceiling : option Z) (now : Z) (changed : list (Z * bool))
    (s : bool * (list InterfaceKey * list InterfaceKey) * InterfaceTable * W)
    : res Infallible (bool * (list InterfaceKey * list InterfaceKey) * InterfaceTable * W) :=
  match changed with
  | [] => Ok s
  | (ifindex, is_link) :: changed =>
      s ← drain_index prior_ceiling now ifindex is_link s;
      drain_indexes prior_ceiling now changed s
  end.

(** [InterfaceLifecycle::drain], on the events read before the monitor's end or
    its error *)
Definition drain (l : Lifecycle) (t : InterfaceTable) (evs : list InterfaceEvent) (now : Z) (w : W)
    : res Infallible (Changes * Lifecycle * InterfaceTable * W) :=
  if negb (lc_monitor l) then Ok (no_changes, l, t, w)
  else
    let '(overflow, changed) := collect_events evs in
    if lm_is_empty changed && negb overflow then Ok (no_changes, l, t, w)
    else
      let prior_ceiling := lc_max_seen l in
      let l := set_max_seen l (foldl (fun m x => max_index m x.1) prior_ceiling (lm_iter changed)) in
      '(want, noted, t, w) ←
        (if overflow then
           let t := wake_all_unbound t now in
           let '(rs, t, w) := refresh_all t w in
           Ok (true, note_all true rs, t, w)
         else drain_indexes prior_ceiling now (lm_iter changed) (false, ([], []), t, w));
      Ok ({| cg_v4_moved := captures_for t noted.1; cg_touched := captures_for t noted.2; cg_reconcile := want |}, l, t, w).

(** One interface of [reconcile]. *)
Definition reconcile_interface (i : InterfaceKey) (now : Z) (s : bool * list Rebuilt * InterfaceTable * W)
    : res Infallible (bool * list Rebuilt * InterfaceTable * W) :=
  let '(retry_soon, rebuilt, t, w) := s in
  let '(r, t, w) := table_step t i now w in
  step ← r;
  let '(dead, t, w) :=
    match step with
    | Kept => let '(r, t, w) := table_converge t i now w in (match r with inl _ => true | inr _ => false end, t, w)
    | _ => (false, t, w)
    end in
  let unsettled := match step with LookupFailed _ | Bound _ _ true => true | _ => false end in
  Ok (retry_soon || (dead || unsettled),
      match moved step with
      | Some m => rebuilt ++ [{| rb_captures := captures_of t i; rb_removed := match m with Removed => true | Rebound => false end |}]
      | None => rebuilt
      end, t, w).
Fixpoint reconcile_each (is_ : list InterfaceKey) (now : Z) (s : bool * list Rebuilt * InterfaceTable * W)
    : res Infallible (bool * list Rebuilt * InterfaceTable * W) :=
  match is_ with
  | [] => Ok s
  | i :: is_ => s ← reconcile_interface i now s; reconcile_each is_ now s
  end.
(** [InterfaceLifecycle::reconcile] *)
Definition reconcile (l : Lifecycle) (t : InterfaceTable) (now : Z) (w : W) : res Infallible (list Rebuilt * Lifecycle * InterfaceTable * W) :=
  '(retry_soon, rebuilt, t, w) ← reconcile_each (table_interfaces t) now (false, [], t, w);
  Ok (rebuilt, set_next_reconcile l (next_pass now (retry_soon || any_parked t) (next_bind_retry t)), t, w).
End lifecycle.

(** ** The reconcile *)

Lemma captures_of_links t t' i :
  ce_interface <$> it_captures t' = ce_interface <$> it_captures t -> captures_of t' i = captures_of t i.
Proof.
  unfold captures_of.
  assert (H : forall k (l l' : list CaptureEntry), ce_interface <$> l' = ce_interface <$> l ->
    omap (fun x : nat * CaptureEntry => if decide (ce_interface x.2 = i) then Some {| ck_index := Z.of_nat x.1 |} else None)
      (imap (fun n c => ((k + n)%nat, c)) l') =
    omap (fun x : nat * CaptureEntry => if decide (ce_interface x.2 = i) then Some {| ck_index := Z.of_nat x.1 |} else None)
      (imap (fun n c => ((k + n)%nat, c)) l)).
  { intros k l. revert k. induction l as [|c l IH]; intros k [|c' l'] E; try discriminate E; [done|].
    cbn in E. injection E as Ec El. cbn [imap omap list_omap fst snd]. rewrite Ec.
    specialize (IH (S k) l' El). unfold compose in *.
    assert (Hshift : forall m : list CaptureEntry, imap (fun n c => ((k + S n)%nat, c)) m = imap (fun n c => ((S k + n)%nat, c)) m)
      by (intros m; apply imap_ext; intros n x _; f_equal; lia).
    rewrite !Hshift. destruct (decide (ce_interface c = i)); [f_equal|]; exact IH. }
  intros E. exact (H 0%nat (it_captures t) (it_captures t') E).
Qed.

(** An interface the pass leaves with nothing left to do soon. *)
Definition settled (now : Z) (e : InterfaceEntry) : Prop := exists cur, in_line cur now (ie_presence e).

Definition reported (t : InterfaceTable) (rebuilt : list Rebuilt) (i : InterfaceKey) (e e' : InterfaceEntry) : Prop :=
  entry_ifindex e <> entry_ifindex e' ->
  exists r, r ∈ rebuilt /\ rb_captures r = captures_of t i /\ (rb_removed r = true <-> entry_ifindex e' = None).

Section reconcile.
Context {W : Type} `{Kernel W}.

Lemma reconcile_interface_spec i e now soon rebuilt t (w : W) :
  table_ok t -> it_entries t !! i = Some e ->
  exists soon' more t' w' e', reconcile_interface i now (soon, rebuilt, t, w) = Ok (soon', rebuilt ++ more, t', w') /\
    table_ok t' /\ only_entry i t t' /\ it_entries t' !! i = Some e' /\
    (soon = true -> soon' = true) /\ (soon' = false -> settled now e') /\ reported t more i e e'.
Proof.
  intros Hok Hi. unfold reconcile_interface.
  destruct (if_index_checked (if_name (ie_interface e)) w) as [[err|cur] w1] eqn:El.
  { rewrite (step_lookup_failed t i e err now w w1 Hi El). rewrite bind_ret. cbn [moved].
    exists true, [], t, w1, e. rewrite app_nil_r, orb_true_r. split_and!; try done. intros []. reflexivity. }
  destruct (step_lands t i e cur now w w1 Hok Hi El) as (s&t1&w2&e1&->&Hok1&Ho1&Hi1&Hre&Hin&_). rewrite bind_ret.
  set (conv := match s with Kept => _ | _ => _ end).
  assert (Hconv : exists dead t2 w3 e2, conv = (dead, t2, w3) /\ table_ok t2 /\ only_entry i t1 t2 /\
    it_entries t2 !! i = Some e2 /\ ie_presence e2 = ie_presence e1).
  { unfold conv. destruct s; try (exists false, t1, w2, e1; by split_and!).
    destruct (table_converge t1 i now w2) as [[r t2] w3] eqn:Ec.
    destruct (table_converge_ok _ _ _ _ _ _ _ Ec Hok1) as (Hok2&Ho2&Hp). destruct (Hp _ Hi1) as (e2&Hi2&Hp2).
    exists (match r with inl _ => true | inr _ => false end), t2, w3, e2. by split_and!. }
  destruct Hconv as (dead&t2&w3&e2&->&Hok2&Ho2&Hi2&Hp2). cbv beta iota.
  assert (Ho : only_entry i t t2) by (by eapply only_entry_trans).
  assert (Hcap : captures_of t2 i = captures_of t i) by (apply captures_of_links, Ho).
  exists (soon || (dead || match s with LookupFailed _ | Bound _ _ true => true | _ => false end)),
    (match moved s with Some m => [{| rb_captures := captures_of t2 i; rb_removed := match m with Removed => true | Rebound => false end |}] | None => [] end),
    t2, w3, e2.
  split_and!; [by destruct (moved s); rewrite ?app_nil_r|done|done|done|by intros -> | |].
  - intros _. exists cur. by rewrite Hp2.
  - intros Hne. unfold entry_ifindex in Hne |- *. rewrite Hp2 in *. rewrite Hcap.
    destruct s as [|err|was|was ifindex dead'|was ifindex error d first]; cbn [reports] in Hre.
    + by rewrite Hre in Hne.
    + by rewrite Hre in Hne.
    + destruct Hre as (Hp&_&Hw). rewrite Hp in *. rewrite <- Hw in Hne. destruct was; [|done]. cbn [moved].
      eexists. split; [by apply list_elem_of_singleton|]. by split_and!.
    + destruct Hre as [_ Hp]. rewrite Hp in *. cbn [moved].
      eexists. split; [by apply list_elem_of_singleton|]. by split_and!.
    + destruct Hre as (Hw&_&u&Hp&_). rewrite Hp in *. subst was. destruct (ie_presence e); [|done..]. cbn [moved].
      eexists. split; [by apply list_elem_of_singleton|]. by split_and!.
Qed.

Lemma reconcile_each_spec is_ now soon rebuilt t (w : W) :
  table_ok t -> NoDup is_ -> Forall (fun i => (i < length (it_entries t))%nat) is_ ->
  exists soon' more t' w', reconcile_each is_ now (soon, rebuilt, t, w) = Ok (soon', rebuilt ++ more, t', w') /\
    table_ok t' /\ length (it_entries t') = length (it_entries t) /\
    ce_interface <$> it_captures t' = ce_interface <$> it_captures t /\
    (forall j, j ∉ is_ -> it_entries t' !! j = it_entries t !! j) /\
    (soon = true -> soon' = true) /\
    (forall i e e', i ∈ is_ -> it_entries t !! i = Some e -> it_entries t' !! i = Some e' ->
       (soon' = false -> settled now e') /\ reported t more i e e').
Proof.
  revert soon rebuilt t w. induction is_ as [|i is_ IH]; intros soon rebuilt t w Hok Hnd Hlt; cbn [reconcile_each].
  { exists soon, [], t, w. rewrite app_nil_r. split_and!; try done. by intros i e e' Hi%not_elem_of_nil. }
  apply NoDup_cons in Hnd as [Hni Hnd]. apply Forall_cons in Hlt as [Hi Hlt].
  destruct (lookup_lt_is_Some_2 _ _ Hi) as [e He].
  destruct (reconcile_interface_spec i e now soon rebuilt t w Hok He) as (soon1&more1&t1&w1&e1&->&Hok1&Ho1&Hi1&Hs1&Hset1&Hrep1).
  rewrite bind_ret.
  destruct (IH soon1 (rebuilt ++ more1) t1 w1 Hok1 Hnd) as (soon2&more2&t2&w2&->&Hok2&Hl2&Hc2&Hkeep2&Hs2&Hall2).
  { by rewrite (only_entry_length _ _ _ Ho1). }
  exists soon2, (more1 ++ more2), t2, w2. rewrite app_assoc. split_and!; try done.
  - by rewrite Hl2, (only_entry_length _ _ _ Ho1).
  - by rewrite Hc2, (oe_captures _ _ _ Ho1).
  - intros j Hj. rewrite Hkeep2 by set_solver. apply (oe_other _ _ _ Ho1). set_solver.
  - auto.
  - intros k ek ek' Hk Hek Hek'. apply elem_of_cons in Hk as [-> |Hk].
    + rewrite He in Hek. injection Hek as <-. rewrite Hkeep2, Hi1 in Hek' by done. injection Hek' as <-. split.
      * intros Hf. apply Hset1. destruct soon1; [by rewrite Hs2 in Hf|done].
      * intros Hne. destruct (Hrep1 Hne) as (r&Hr&Hrest). exists r. split; [apply elem_of_app; by left|done].
    + assert (k <> i) as Hki by (by intros ->). rewrite <- (oe_other _ _ _ Ho1 k Hki) in Hek.
      destruct (Hall2 k ek ek' Hk Hek Hek') as [H1 H2]. split; [done|]. intros Hne.
      destruct (H2 Hne) as (r&Hr&Hrc&Hrr). exists r. split_and!; [apply elem_of_app; by right| |done].
      rewrite Hrc. apply captures_of_links, Ho1.
Qed.

(** One interface's turn: its step, and a kept one's joins, with whether the
    kernel answered that the interface is gone. *)
Inductive turn (now : Z) (i : InterfaceKey) (t : InterfaceTable) (w : W) : Step -> bool -> InterfaceTable -> W -> Prop :=
  | turn_kept t1 w1 r t2 w2 : table_step t i now w = (Ok Kept, t1, w1) -> table_converge t1 i now w1 = (r, t2, w2) ->
      turn now i t w Kept (match r with inl _ => true | inr _ => false end) t2 w2
  | turn_moved s t1 w1 : table_step t i now w = (Ok s, t1, w1) -> s <> Kept ->
      turn now i t w s (match s with Bound _ _ dead => dead | _ => false end) t1 w1.
(** A pass over the interfaces, one turn after the other. *)
Inductive pass (now : Z) : list InterfaceKey -> InterfaceTable -> W -> list (Step * bool) -> InterfaceTable -> W -> Prop :=
  | pass_done t w : pass now [] t w [] t w
  | pass_turn i is_ t w s dead t1 w1 turns t2 w2 : turn now i t w s dead t1 w1 -> pass now is_ t1 w1 turns t2 w2 ->
      pass now (i :: is_) t w ((s, dead) :: turns) t2 w2.
(** A turn with nothing to do again soon: the name was looked up, and the
    interface not found gone. *)
Definition turn_settled (x : Step * bool) : Prop := x.2 = false /\ forall e, x.1 <> LookupFailed e.

Lemma reconcile_each_pass now is_ : forall soon rebuilt t w soon' rebuilt' t' w',
  reconcile_each is_ now (soon, rebuilt, t, w) = Ok (soon', rebuilt', t', w') ->
  exists turns, pass now is_ t w turns t' w' /\ (soon' = false -> soon = false /\ Forall turn_settled turns).
Proof.
  induction is_ as [|i is_ IH]; intros soon rebuilt t w soon' rebuilt' t' w'; cbn [reconcile_each].
  { intros [= <- <- <- <-]. exists []. by split; [constructor|]. }
  intros ([[[soon1 rebuilt1] t1] w1]&H1&H2)%bind_Ok. apply IH in H2 as (turns&Hp&Hs). clear IH.
  unfold reconcile_interface in H1. destruct (table_step t i now w) as [[r t0] w0] eqn:Et. apply bind_Ok in H1 as (s&->&H1).
  assert (exists dead, turn now i t w s dead t1 w1 /\ (soon1 = false -> soon = false /\ turn_settled (s, dead))) as (dead&Ht&Hg).
  { destruct s; try (injection H1 as <- <- <- <-; eexists; split; [by eapply turn_moved|]; unfold turn_settled; cbn;
      rewrite ?orb_false_r, ?orb_true_r; try (match goal with d : bool |- _ => destruct d end; rewrite ?orb_false_r, ?orb_true_r); naive_solver).
    destruct (table_converge t0 i now w0) as [[r t2] w2] eqn:Ec. injection H1 as <- <- <- <-. eexists. split; [by eapply turn_kept|].
    unfold turn_settled. cbn. rewrite orb_false_r. destruct r; rewrite ?orb_true_r, ?orb_false_r; naive_solver. }
  exists ((s, dead) :: turns). split; [by econstructor|]. intros Hf. destruct (Hs Hf) as [H' Hall]. destruct (Hg H'). split; [done|by constructor].
Qed.

Lemma next_pass_bounds now soon retry :
  now < next_pass now soon retry <= now + RECONCILE_TICK /\
  (soon = true -> next_pass now soon retry <= now + RECONCILE_RETRY) /\
  (forall due, retry = Some due -> now < due -> next_pass now soon retry <= due).
Proof.
  unfold next_pass, RECONCILE_TICK, RECONCILE_RETRY. destruct retry as [d|]; [destruct (Z.ltb_spec now d)|]; destruct soon;
    split_and!; try done; try lia; intros due [= <-]; lia.
Qed.

(** C29. A reconcile never panics on a table in order, whatever the kernel
    answers. It gives every interface its turn, in order, and always arms the
    next pass in the future and within the tick: within a second where a turn
    could not look its interface up or the kernel answered that the interface,
    kept or just bound, is gone, and while an interface is parked; and no later
    than the retry of a failed bind. Every interface whose bound index
    changed is reported with all its captures, as removed exactly when it is
    left unbound. *)
Theorem reconcile_reports_changes l t now (w : W) :
  table_ok t ->
  exists rebuilt l' t' w', reconcile l t now w = Ok (rebuilt, l', t', w') /\ table_ok t' /\
    now < lc_next_reconcile l' <= now + RECONCILE_TICK /\
    (exists turns, pass now (table_interfaces t) t w turns t' w' /\
       (now + RECONCILE_RETRY < lc_next_reconcile l' -> Forall turn_settled turns)) /\
    (forall due, next_bind_retry t' = Some due -> now < due -> lc_next_reconcile l' <= due) /\
    (forall i e e', it_entries t !! i = Some e -> it_entries t' !! i = Some e' ->
       reported t rebuilt i e e' /\
       (now + RECONCILE_RETRY < lc_next_reconcile l' ->
          ie_presence e' <> Parked /\ forall u, ie_presence e' = PrUnbound u -> now < ub_next_try u)).
Proof.
  intros Hok. unfold reconcile, table_interfaces.
  destruct (reconcile_each_spec (seq 0 (length (it_entries t))) now false [] t w Hok)
    as (soon&more&t'&w'&E&Hok'&Hl&_&_&_&Hall); [apply NoDup_seq|apply Forall_forall; intros i Hi; apply elem_of_seq in Hi; lia|].
  destruct (reconcile_each_pass _ _ _ _ _ _ _ _ _ _ E) as (turns&Hpass&Hturns).
  rewrite E, bind_ret. cbn [app]. destruct (next_pass_bounds now (soon || any_parked t') (next_bind_retry t')) as (Hb&Hsoon&Hretry).
  exists more, (set_next_reconcile l (next_pass now (soon || any_parked t') (next_bind_retry t'))), t', w'.
  cbn [set_next_reconcile lc_next_reconcile].
  assert (Hlate : now + RECONCILE_RETRY < next_pass now (soon || any_parked t') (next_bind_retry t') -> soon || any_parked t' = false).
  { intros Hl'. destruct (soon || any_parked t'); [specialize (Hsoon eq_refl); lia|done]. }
  split_and!; try done; [apply Hb..|exists turns; split; [done|by intros [? _]%Hlate%orb_false_iff; apply Hturns]|].
  intros i e e' Hi Hi'. destruct (Hall i e e') as [Hset Hrep]; [apply elem_of_seq; split; [lia|]; cbn; by eapply lookup_lt_Some|done|done|].
  split; [done|]. intros [Hs Hp]%Hlate%orb_false_iff.
  destruct (Hset Hs) as (cur&Hin). split.
  - intros Hpk. assert (any_parked t' = true) as Hx; [|by rewrite Hx in Hp].
    apply existsb_exists. exists e'. split; [apply list_elem_of_In; by eapply list_elem_of_lookup_2|by rewrite Hpk].
  - intros u Hu. rewrite Hu in Hin. destruct cur; [apply Hin|done].
Qed.
End reconcile.

Lemma reconcile_reports_changes_witness :
  exists rebuilt l' t', (fun x => x.1) <$> reconcile (H:=quiet_kernel) (lifecycle_new true 0) ex_table 7 () = Ok (rebuilt, l', t') /\
    7 < lc_next_reconcile l'.
Proof.
  destruct (reconcile_reports_changes (H:=quiet_kernel) (lifecycle_new true 0) ex_table 7 () ex_table_ok)
    as (rebuilt&l'&t'&w'&E&_&Hb&_).
  exists rebuilt, l', t'. split; [by rewrite E|]. apply Hb.
Defined.
