(* ===== verification/Value.v ===== *)
(** The typed configuration values of [src/config/value.rs] with their text
    forms, and the validated entry ([Reflector]) of [src/config.rs]. *)

From S2P Require Import Prelude Text Addr UniqueList Mac Names.

Local Open Scope Z_scope.

(** [to_ascii_lowercase] *)
Definition lowercase (s : bytes) : bytes := to_lower <$> s.

(** ** Enumerations *)

Inductive LogLevel : Type := LOff | LError | LWarn | LInfo | LDebug | LTrace.
Global Instance LogLevel_eq_dec : EqDecision LogLevel.
Proof. solve_decision. Defined.
Inductive LogTarget : Type := Stderr | Syslog.
Global Instance LogTarget_eq_dec : EqDecision LogTarget.
Proof. solve_decision. Defined.
Inductive AddressFamily : Type := FDefault | Dual | FIpv4 | FIpv6.
Global Instance AddressFamily_eq_dec : EqDecision AddressFamily.
Proof. solve_decision. Defined.

(** A [match] on string literals: the first arm whose literal is [s]. *)
Fixpoint match_str {A} (arms : list (bytes * A)) (s : bytes) : option A :=
  match arms with
  | [] => None
  | (lit, a) :: arms => if bool_decide (s = lit) then Some a else match_str arms s
  end.

(** [LogLevel::from_str], [LogTarget::from_str], [AddressFamily::from_str] *)
Definition log_level_from_str (s : bytes) : option LogLevel :=
  match_str [(bs "off", LOff); (bs "error", LError); (bs "warn", LWarn);
             (bs "info", LInfo); (bs "debug", LDebug); (bs "trace", LTrace)] (lowercase s).
Definition log_target_from_str (s : bytes) : option LogTarget :=
  match_str [(bs "stderr", Stderr); (bs "syslog", Syslog)] (lowercase s).
Definition address_family_from_str (s : bytes) : option AddressFamily :=
  match_str [(bs "default", FDefault); (bs "dual", Dual); (bs "ipv4", FIpv4); (bs "ipv6", FIpv6)]
    (lowercase s).

(** Their [Deserialize], as for every value here: the text the file gives,
    through the same [FromStr]. *)
Definition log_level_deserialize (s : bytes) : res SerdeError LogLevel := ok_or (log_level_from_str s) Custom.
Definition log_target_deserialize (s : bytes) : res SerdeError LogTarget := ok_or (log_target_from_str s) Custom.
Definition address_family_deserialize (s : bytes) : res SerdeError AddressFamily :=
  ok_or (address_family_from_str s) Custom.

Definition uses_ipv4 (f : AddressFamily) : bool :=
  match f with FDefault | Dual | FIpv4 => true | FIpv6 => false end.
Definition uses_ipv6 (f : AddressFamily) : bool :=
  match f with FDefault | Dual | FIpv6 => true | FIpv4 => false end.
Definition uses (f : AddressFamily) (ip : IpAddr) : bool :=
  match ip with V4 _ => uses_ipv4 f | V6 _ => uses_ipv6 f end.
Definition requires_ipv4 (f : AddressFamily) : bool :=
  match f with FDefault | Dual | FIpv4 => true | FIpv6 => false end.
Definition requires_ipv6 (f : AddressFamily) : bool :=
  match f with Dual | FIpv6 => true | FDefault | FIpv4 => false end.
Definition requires (f : AddressFamily) (ip : IpAddr) : bool :=
  match ip with V4 _ => requires_ipv4 f | V6 _ => requires_ipv6 f end.

(** ** Accounts *)

Inductive Principal : Type := PName (name : bytes) | PId (id : Z).
Global Instance Principal_eq_dec : EqDecision Principal.
Proof. solve_decision. Defined.

(** [Principal::parse] *)
Definition principal_parse (text : bytes) : option Principal :=
  if bool_decide (text = []) || existsb (Z.eqb 58) text then None
  else Some (match parse_u32 text with Some id => PId id | None => PName text end).

Record RunAs : Type := { ra_user : Principal; ra_group : option Principal }.
Global Instance RunAs_eq_dec : EqDecision RunAs.
Proof. solve_decision. Defined.

(** [str::split_once] at a byte *)
Definition split_once (sep : Z) (s : bytes) : option (bytes * bytes) :=
  i ← position (Z.eqb sep) s; Some (take i s, drop (S i) s).

(** [RunAs::from_str] *)
Definition run_as_from_str (s : bytes) : option RunAs :=
  let '(user, group) := match split_once 58 s with
                        | Some (user, group) => (user, Some group)
                        | None => (s, None)
                        end in
  user ← principal_parse user;
  group ← match group with
          | None => Some None
          | Some group => Some <$> principal_parse group
          end;
  Some {| ra_user := user; ra_group := group |}.

(** [RunAs::deserialize] *)
Definition run_as_deserialize (s : bytes) : res SerdeError RunAs := ok_or (run_as_from_str s) Custom.

(** ** Names *)

Record ReflectorName : Type := { rn_str : bytes }.
Global Instance ReflectorName_eq_dec : EqDecision ReflectorName.
Proof. solve_decision. Defined.

(** [ReflectorName::from_str] *)
Definition reflector_name_from_str (s : bytes) : option ReflectorName :=
  let trimmed := str_trim s in
  if bool_decide (trimmed = []) then None else Some {| rn_str := lowercase trimmed |}.

(** ** Lists *)

(** [NonZeroU16::from_str], [IpAddr::from_str] *)
Definition nonzero_u16_from_str (s : bytes) : option Z :=
  n ← parse_u16 s; if n =? 0 then None else Some n.
Definition ip_from_str : bytes -> option IpAddr :=
  parse_all (fun l => match read_ipv4 l with
                      | Some (a, r) => Some (V4 a, r)
                      | None => '(a, r) ← read_ipv6 l; Some (V6 a, r)
                      end).

(** [Ports], [Groups] and [Peers] share their element types, so each rule is
    passed by name. *)
Definition Ports : ListRule Z := {|
  NOUN := bs "port"; refuse := fun _ => None; item_parse := nonzero_u16_from_str |}.
Definition Groups : ListRule IpAddr := {|
  NOUN := bs "group";
  refuse := fun group => if is_multicast group then None else Some (bs "is not a multicast address");
  item_parse := ip_from_str |}.
Definition is_unicast_peer (peer : IpAddr) : bool :=
  match peer with
  | V4 v4 => negb (Ipv4.is_multicast v4) && negb (Ipv4.is_broadcast v4) && negb (Ipv4.is_unspecified v4)
  | V6 v6 => negb (Ipv6.is_multicast v6) && negb (Ipv6.is_unspecified v6)
  end.
Definition Peers : ListRule IpAddr := {|
  NOUN := bs "peer";
  refuse := fun peer => if is_unicast_peer peer then None else Some (bs "is not a unicast address");
  item_parse := ip_from_str |}.

Abbreviation PortList := (list Z).
Abbreviation GroupList := (list IpAddr).
Abbreviation PeerList := (list IpAddr).
Abbreviation MacSet := (list MacAddr).

(** What the list types promise. *)
Definition ports_ok : PortList -> Prop := unique_list_ok (H := Ports).
Definition groups_ok : GroupList -> Prop := unique_list_ok (H := Groups).
Definition peers_ok : PeerList -> Prop := unique_list_ok (H := Peers).
Definition macs_ok : MacSet -> Prop := unique_list_ok (H := Macs).
Definition services_ok : ServiceList -> Prop := unique_list_ok (H := Services).

(** ** The validated entry *)

Record Wol : Type := { wol_ports : PortList }.
Record UdpRelay : Type := { udp_ports : PortList; udp_groups : option GroupList; udp_broadcast : bool }.
Record Mdns : Type := { services : option ServiceList }.
Record Ssdp : Type := { dial : bool }.

Record Reflector : Type := {
  name : ReflectorName;
  source_if : InterfaceName;
  target_if : InterfaceName;
  source_peers : option PeerList;
  target_peers : option PeerList;
  macs : option MacSet;
  address_family : AddressFamily;
  wol : option Wol;
  mdns : option Mdns;
  ssdp : option Ssdp;
  wsd : bool;
  bidirectional : bool;
  udp : option UdpRelay;
}.
Global Instance Wol_eq_dec : EqDecision Wol.
Proof. solve_decision. Defined.
Global Instance UdpRelay_eq_dec : EqDecision UdpRelay.
Proof. solve_decision. Defined.
Global Instance Mdns_eq_dec : EqDecision Mdns.
Proof. solve_decision. Defined.
Global Instance Ssdp_eq_dec : EqDecision Ssdp.
Proof. solve_decision. Defined.
Global Instance Reflector_eq_dec : EqDecision Reflector.
Proof. solve_decision. Defined.

(** [Reflector::reversed]: the second leg of a bidirectional entry. *)
Definition reversed (r : Reflector) : Reflector :=
  {| name := name r; source_if := target_if r; target_if := source_if r;
     source_peers := target_peers r; target_peers := source_peers r;
     macs := macs r; address_family := address_family r; wol := wol r; mdns := mdns r;
     ssdp := ssdp r; wsd := wsd r; bidirectional := bidirectional r; udp := udp r |}.

(** [as_deref().unwrap_or(&[])] *)
Definition or_empty {A} (o : option (list A)) : list A := default [] o.

(** ** Lemmas *)

Lemma uses_some_family f : uses_ipv4 f = true \/ uses_ipv6 f = true.
Proof. destruct f; auto. Qed.

Lemma group_multicast l g : groups_ok l -> g ∈ l -> is_multicast g = true.
Proof.
  intros (_&_&H) Hg. eapply Forall_forall in H; [|done]. cbn in H. by destruct (is_multicast g).
Qed.

Lemma multicast_not_broadcast a : Ipv4.is_multicast a = true -> Ipv4.is_broadcast a = false.
Proof.
  intros H. unfold Ipv4.is_broadcast. apply Z.eqb_neq. intros ->. by vm_compute in H.
Qed.

Example values_ex :
  log_level_from_str (bs "TRACE") = Some LTrace /\
  run_as_from_str (bs "nobody:65534") = Some {| ra_user := PName (bs "nobody"); ra_group := Some (PId 65534) |} /\
  run_as_from_str (bs "a:b:c") = None /\
  reflector_name_from_str (bs " Living Room ") = Some {| rn_str := bs "living room" |} /\
  list_from_str (H := Ports) (bs "7, 9") = Ok [7; 9] /\
  list_from_str (H := Ports) (bs "7,0") = Err (LInvalid (bs "0")) /\
  list_from_str (H := Groups) (bs "224.0.0.251,ff02::fb") =
    Ok [V4 (Ipv4.new 224 0 0 251); V6 (Ipv6.new 65282 0 0 0 0 0 0 251)] /\
  list_from_str (H := Peers) (bs "224.0.0.251") =
    Err (LRefused (V4 (Ipv4.new 224 0 0 251)) (bs "is not a unicast address")).
Proof. by vm_compute. Qed.

Lemma split_once_Some sep s a b :
  split_once sep s = Some (a, b) <-> s = a ++ sep :: b /\ sep ∉ a.
Proof.
  unfold split_once. split.
  - intros (i&Hi&[= <- <-])%bind_Some. apply position_Some in Hi as (x&Hx&E&Hlt).
    apply Z.eqb_eq in E as <-. split; [by rewrite take_drop_middle|].
    intros (j&Hj)%list_elem_of_lookup. apply lookup_take_Some in Hj as (Hj&Hji).
    specialize (Hlt j sep Hji Hj). by rewrite Z.eqb_refl in Hlt.
  - intros (->&Ha). rewrite position_app_none.
    + cbn [position]. rewrite Z.eqb_refl. cbn [fmap option_fmap option_map mbind option_bind].
      by rewrite Nat.add_0_r, take_app_length, <- Nat.add_1_r, <- drop_drop, drop_app_length.
    + apply Forall_forall. intros x Hx. apply Z.eqb_neq. by intros ->.
Qed.

Lemma split_once_None sep s : split_once sep s = None <-> sep ∉ s.
Proof.
  unfold split_once. destruct (position (Z.eqb sep) s) as [i|] eqn:Hi; cbn.
  - apply position_Some in Hi as (x&Hx&E&_). apply Z.eqb_eq in E as <-.
    split; [done|]. intros H. destruct H. by eapply list_elem_of_lookup_2.
  - split; [|done]. intros _ Hin. apply position_None in Hi. rewrite Forall_forall in Hi.
    specialize (Hi sep Hin). by rewrite Z.eqb_refl in Hi.
Qed.

Lemma principal_parse_no_colon s p : principal_parse s = Some p -> s <> [] /\ 58 ∉ s.
Proof.
  unfold principal_parse. destruct (bool_decide_reflect (s = [])); [done|].
  destruct (existsb (Z.eqb 58) s) eqn:E; [done|]. by apply existsb_eqb_elem in E.
Qed.

(** The text forms of an account: what [RunAs::from_str] accepts is
    exactly one non-empty user, or a user and a group around the only colon,
    each read as a number when it is one and as a name otherwise. *)
Theorem run_as_form s r :
  run_as_from_str s = Some r <->
  exists user, principal_parse user = Some (ra_user r) /\
    match ra_group r with
    | None => s = user
    | Some g => exists group, s = user ++ 58 :: group /\ principal_parse group = Some g
    end.
Proof.
  unfold run_as_from_str. destruct r as [u g]. cbn [ra_user ra_group]. split.
  - destruct (split_once 58 s) as [[us gr]|] eqn:E.
    + intros (u'&Hu&(g'&Hg&[= <- <-])%bind_Some)%bind_Some.
      apply split_once_Some in E as (->&_). destruct (principal_parse gr) as [g''|] eqn:Hg'; [|done].
      injection Hg as <-. eauto.
    + intros (u'&Hu&[= <- <-])%bind_Some. eauto.
  - intros (us&Hu&Hg). pose proof (principal_parse_no_colon _ _ Hu) as (_&Hc). destruct g as [g|].
    + destruct Hg as (gr&->&Hg). assert (split_once 58 (us ++ 58 :: gr) = Some (us, gr)) as ->
        by (by apply split_once_Some).
      rewrite Hu. cbn [mbind option_bind]. by rewrite Hg.
    + subst s. assert (split_once 58 us = None) as -> by (by apply split_once_None).
      by rewrite Hu.
Qed.
