(* ===== verification/Ssdp.v ===== *)
(** SSDP and its DIAL part ([src/net/ssdp.rs], [src/net/ssdp/dial.rs]): the
    group constants, the classifier, the MX window and the LOCATION
    authority. *)

From S2P Require Import Prelude Text Addr Http.

Local Open Scope Z_scope.

Definition SSDP_PORT : Z := 1900.
Definition SSDP_TTL : Z := 2.
Definition SSDP_GROUP_V4 : Z := Ipv4.new 239 255 255 250.
Definition SSDP_GROUP_V6_LINK_LOCAL : Z := Ipv6.new 65282 0 0 0 0 0 0 12.
Definition SSDP_GROUP_V6_SITE_LOCAL : Z := Ipv6.new 65285 0 0 0 0 0 0 12.
Definition MSEARCH_MX_DEFAULT : Z := 3.

Inductive SsdpKind : Type := Search | Advertisement.
Global Instance SsdpKind_eq_dec : EqDecision SsdpKind.
Proof. solve_decision. Defined.

Definition MSEARCH_PREFIX : bytes := bs "M-SEARCH ".
Definition NOTIFY_PREFIX : bytes := bs "NOTIFY ".

(** [starts_with] *)
Definition starts_with (prefix l : bytes) : bool :=
  bool_decide (is_Some (strip_prefix_by Z.eqb prefix l)).

(** [ssdp::classify] *)
Definition classify (payload : bytes) : option SsdpKind :=
  if starts_with MSEARCH_PREFIX payload then Some Search
  else if starts_with NOTIFY_PREFIX payload then Some Advertisement
  else None.

Definition MX_MIN : Z := 1.
Definition MX_MAX : Z := 5.

(** [parse_msearch_mx]: the clamped value fits a [u8]. *)
Definition parse_msearch_mx (payload : bytes) : option Z :=
  value ← header_value payload (bs "MX");
  let stop := default (length value) (position (fun b => negb (is_digit b)) value) in
  mx ← parse_u32 (take stop value);
  Some (Z.min (Z.max mx MX_MIN) MX_MAX).

(** ** DIAL *)

Definition DIAL_SERVICE_TYPE : bytes := bs "urn:dial-multiscreen-org:service:dial".

(** [contains_ignore_ascii_case]: some window of the haystack, or an empty needle. *)
Fixpoint contains_ic (haystack needle : bytes) : bool :=
  bool_decide (needle = []) ||
  match haystack with
  | [] => false
  | _ :: haystack' =>
      ((length needle <=? length haystack)%nat && eq_ic (take (length needle) haystack) needle)
      || contains_ic haystack' needle
  end.

Definition is_dial_service_message (payload : bytes) : bool := contains_ic payload DIAL_SERVICE_TYPE.

(** [dial_location_value] *)
Definition dial_location_value (payload : bytes) : option bytes :=
  url ← header_value payload (bs "LOCATION");
  match url with [] => None | _ => Some url end.

(** Where the value of [header_value] starts: the subslice's address less the
    message's.  [start] is the offset of the first of [lines]. *)
Fixpoint header_offset (start : nat) (lines : list bytes) (name : bytes) : option nat :=
  match lines with
  | [] => None
  | line :: lines =>
      let line' := strip_cr line in
      match (rest ← strip_prefix_ic line' name; strip_prefix_by Z.eqb (bs ":") rest) with
      | Some value => Some (start + (length line' - length (trim_start value)))%nat
      | None => header_offset (start + S (length line)) lines name
      end
  end.

(** [parse_dial_location_authority] *)
Definition parse_dial_location_authority (payload : bytes) : option Authority :=
  url ← dial_location_value payload;
  found ← parse_authority url false;
  url_offset ← header_offset 0 (split_on (Z.eqb LF) payload) (bs "LOCATION");
  Some {| endpoint := endpoint found; au_offset := url_offset + au_offset found; au_len := au_len found |}.

(** [ssdp::advertises_only_unreachable] *)
Definition advertises_only_unreachable (payload : bytes) : bool :=
  match (url ← dial_location_value payload; url_host_ip url) with
  | Some ip => is_link_local ip || is_never_a_peer ip
  | None => false
  end.

(** [max_age_seconds]: the first [max-age] directive decides. *)
Fixpoint max_age_directives (directives : list bytes) : option Z :=
  match directives with
  | [] => None
  | directive :: directives =>
      match position (Z.eqb 61) directive with
      | None => max_age_directives directives
      | Some eq =>
          let '(name, digits) := (take eq directive, drop (S eq) directive) in
          if eq_ic (trim name) (bs "max-age") then parse_u32 (trim digits)
          else max_age_directives directives
      end
  end.
Definition max_age_seconds (value : bytes) : option Z := max_age_directives (split_on (Z.eqb 44) value).
Definition parse_cache_control_max_age (payload : bytes) : option Z :=
  value ← header_value payload (bs "CACHE-CONTROL"); max_age_seconds value.

(** ** Lemmas *)

Definition crlf : bytes := [13; 10].
Definition ex_notify : bytes :=
  bs "NOTIFY * HTTP/1.1" ++ crlf ++ bs "NT: urn:dial-multiscreen-org:service:dial:1" ++ crlf ++
  bs "Cache-Control: no-cache, max-age = 1800" ++ crlf ++
  bs "Location:  http://192.168.1.20:8008/dd.xml" ++ crlf ++ crlf.

Example ssdp_ex :
  classify ex_notify = Some Advertisement /\ classify (bs "NOTIFYING ") = None /\
  is_dial_service_message ex_notify = true /\
  parse_cache_control_max_age ex_notify = Some 1800 /\
  option_map (fun a => (endpoint a, take (au_len a) (drop (au_offset a) ex_notify)))
    (parse_dial_location_authority ex_notify)
  = Some ({| sa_ip := Ipv4.new 192 168 1 20; sa_port := 8008 |}, bs "192.168.1.20:8008") /\
  parse_msearch_mx (bs "M-SEARCH * HTTP/1.1" ++ crlf ++ bs "MX: 12s") = Some 5.
Proof. by vm_compute. Qed.

(** ** The LOCATION span *)

Lemma strip_prefix_by_Some p l rest : strip_prefix_by Z.eqb p l = Some rest -> l = p ++ rest.
Proof.
  revert l. induction p as [|x p IH]; intros l; cbn; [by intros [= <-]|].
  destruct l as [|y l]; [done|]. destruct (Z.eqb_spec x y) as [-> |]; [|done].
  intros H. by rewrite (IH _ H).
Qed.

Lemma strip_cr_prefix line : exists tail, line = strip_cr line ++ tail.
Proof.
  unfold strip_cr. destruct (last line) as [b|] eqn:E; [|exists []; by rewrite app_nil_r].
  destruct (b =? CR); [|exists []; by rewrite app_nil_r].
  exists (drop (length line - 1) line). by rewrite take_drop.
Qed.

Lemma suffix_drop {A} (v l : list A) : v `suffix_of` l -> drop (length l - length v) l = v.
Proof.
  intros (k&->). rewrite length_app. replace (length k + length v - length v)%nat with (length k) by lia.
  by rewrite drop_app_length.
Qed.

(** [s] occurs in [l] at [n]. *)
Definition occurs_at {A} (l : list A) (n : nat) (s : list A) : Prop := exists tail, drop n l = s ++ tail.

Lemma occurs_take {A} (l : list A) n s : occurs_at l n s -> take (length s) (drop n l) = s.
Proof. intros (tail&->). by rewrite take_app_length. Qed.

Lemma occurs_trans {A} (l : list A) n s m t :
  occurs_at l n s -> occurs_at s m t -> (m <= length s)%nat -> occurs_at l (n + m) t.
Proof.
  intros (x&Hx) (y&Hy) Hm. exists (y ++ x).
  by rewrite <- drop_drop, Hx, drop_app_le, Hy, <- app_assoc by done.
Qed.

(** Where the lines of a message are: [rest] is what is left from [start] on. *)
Fixpoint lines_at (l : bytes) (start : nat) (lines : list bytes) : Prop :=
  match lines with
  | [] => True
  | line :: lines => occurs_at l start line /\ lines_at l (start + S (length line)) lines
  end.

Lemma lines_at_cons x l start lines : lines_at l start lines -> lines_at (x :: l) (S start) lines.
Proof.
  revert start. induction lines as [|line lines IH]; intros start; cbn; [done|].
  intros [Ho Hl]. split; [exact Ho|]. by apply IH.
Qed.

Lemma split_on_lines sep l : lines_at l 0 (split_on (Z.eqb sep) l).
Proof.
  induction l as [|x l IH]; cbn [split_on].
  - split; [by exists []|done].
  - destruct (Z.eqb_spec sep x) as [-> |Hx].
    + split; [by exists (x :: l)|]. by apply lines_at_cons.
    + destruct (split_on (Z.eqb sep) l) as [|run runs] eqn:E; cbn in IH |- *.
      * split; [by exists l|done].
      * destruct IH as [(tail&Ht) Hr]. unfold occurs_at in *. rewrite drop_0 in *. split.
        { exists tail. by rewrite Ht. }
        by apply (lines_at_cons x l (S (length run))).
Qed.

Lemma header_offset_value l start lines hname o :
  lines_at l start lines -> header_offset start lines hname = Some o ->
  exists v, trim_start <$> find_map (fun line => rest ← strip_prefix_ic line hname; strip_prefix_by Z.eqb (bs ":") rest)
      (strip_cr <$> lines) = Some v /\ occurs_at l o v.
Proof.
  revert start. induction lines as [|line lines IH]; intros start Hl Ho; [done|].
  cbn [header_offset] in Ho. destruct Hl as [Hline Hl]. rewrite fmap_cons. cbn [find_map].
  set (found := rest ← _; _) in *. destruct found as [value|] eqn:Ef; subst found; [|by eapply IH].
  injection Ho as <-. exists (trim_start value). split; [done|].
  destruct (strip_cr_prefix line) as (cr&Ecr).
  assert (trim_start value `suffix_of` strip_cr line) as Hs.
  { apply bind_Some in Ef as (rest&Hr&Hv). apply strip_prefix_by_Some in Hv.
    apply strip_prefix_ic_Some in Hr as [Hr _]. rewrite Hr.
    etransitivity; [apply trim_start_suffix|]. rewrite Hv.
    do 2 apply suffix_app_r. done. }
  eapply occurs_trans; [exact Hline| |].
  - exists cr. rewrite Ecr at 2. rewrite drop_app_le by lia. by rewrite (suffix_drop _ _ Hs).
  - rewrite Ecr at 2. rewrite length_app. lia.
Qed.

(** The authority of a URL, taken alone, is the same authority. *)
Lemma parse_authority_bare url a :
  parse_authority url false = Some a ->
  (au_offset a + au_len a <= length url)%nat /\
  parse_authority (take (au_len a) (drop (au_offset a) url)) true
  = Some {| endpoint := endpoint a; au_offset := 0; au_len := au_len a |}.
Proof.
  intros H. split; [by apply (parse_authority_span url false)|].
  unfold parse_authority in H. apply bind_Some in H as ([rest off]&H1&H).
  apply bind_Some in H1 as (r&Hr&[= <- <-]). apply strip_prefix_ic_Some in Hr as [Er Hl].
  set (n := default (length r) (position authority_end r)) in *.
  assert (Hn : (n <= length r)%nat).
  { unfold n. destruct (position authority_end r) eqn:E; cbn; [|lia]. apply position_lt in E. lia. }
  apply bind_Some in H as ([host port]&Hhp&H). apply bind_Some in H as (addr&Ha&[= <-]).
  cbn [au_offset au_len endpoint].
  assert (drop (length url - length r) url = r) as ->.
  { rewrite Hl, Nat.add_sub. rewrite Er at 1. rewrite drop_app_length'; [done|].
    rewrite length_take. lia. }
  assert (position authority_end (take n r) = None) as Hnone.
  { apply position_None, Forall_forall. intros x (i&Hi)%list_elem_of_lookup.
    apply lookup_take_Some in Hi as [Hi Hlt]. unfold n in Hlt.
    destruct (position authority_end r) as [m|] eqn:E; cbn in Hlt.
    - apply position_Some in E as (y&_&_&Hbefore). by eapply Hbefore.
    - apply position_None in E. rewrite Forall_lookup in E. by apply (E i). }
  unfold parse_authority. cbn [mbind option_bind]. rewrite Hnone. cbn [default].
  rewrite take_take, length_take, Nat.min_l, Nat.min_l by lia.
  cbv zeta in Hhp. fold n in Hhp. 
  rewrite Hhp. cbn [mbind option_bind].
  by rewrite Ha.
Qed.

Lemma dial_span payload a :
  parse_dial_location_authority payload = Some a ->
  (au_offset a + au_len a <= length payload)%nat /\
  parse_authority (take (au_len a) (drop (au_offset a) payload)) true
  = Some {| endpoint := endpoint a; au_offset := 0; au_len := au_len a |}.
Proof.
  unfold parse_dial_location_authority. intros H.
  apply bind_Some in H as (url&Hurl&H). apply bind_Some in H as (found&Hf&H).
  apply bind_Some in H as (o&Ho&[= <-]). cbn [endpoint au_offset au_len].
  destruct (header_offset_value payload 0 _ _ _ (split_on_lines LF payload) Ho) as (v&Hv&Hocc).
  assert (url = v /\ v <> []) as (->&Hne).
  { unfold dial_location_value, header_value in Hurl. rewrite Hv in Hurl. cbn in Hurl.
    destruct v; [done|]. by injection Hurl as <-. }
  apply parse_authority_bare in Hf as [Hlen Hbare].
  assert (occurs_at payload (o + au_offset found) (take (au_len found) (drop (au_offset found) v))) as Hs.
  { eapply occurs_trans; [exact Hocc| |lia].
    exists (drop (au_len found) (drop (au_offset found) v)). by rewrite take_drop. }
  split.
  - destruct Hs as (tail&Hs). apply (f_equal length) in Hs.
    rewrite length_app, length_take, !length_drop in Hs.
    destruct (decide (au_len found = 0)%nat) as [E|E]; [|lia].
    rewrite E. destruct Hocc as (t&Ht). apply (f_equal length) in Ht. rewrite length_app, length_drop in Ht.
    destruct v; [by destruct Hne|]. cbn [length] in *. lia.
  - apply occurs_take in Hs. rewrite length_take, length_drop, Nat.min_l in Hs by lia.
    by rewrite Hs.
Qed.

(** The span [parse_dial_location_authority] reports lies inside the
    payload and covers exactly the authority text of the LOCATION: read alone,
    it is the reported endpoint, so splicing a replacement over it rewrites the
    authority and nothing else. *)
Theorem dial_location_span payload a :
  parse_dial_location_authority payload = Some a ->
  (au_offset a + au_len a <= length payload)%nat /\
  parse_authority (take (au_len a) (drop (au_offset a) payload)) true
  = Some {| endpoint := endpoint a; au_offset := 0; au_len := au_len a |}.
Proof. apply dial_span. Qed.

Lemma dial_location_span_witness :
  exists a, parse_dial_location_authority ex_notify = Some a /\
    parse_authority (take (au_len a) (drop (au_offset a) ex_notify)) true
    = Some {| endpoint := {| sa_ip := Ipv4.new 192 168 1 20; sa_port := 8008 |}; au_offset := 0; au_len := 17 |}.
Proof.
  eexists. split; [vm_compute; reflexivity|].
  apply (dial_location_span ex_notify {| endpoint := {| sa_ip := Ipv4.new 192 168 1 20; sa_port := 8008 |};
                                         au_offset := 123; au_len := 17 |}).
  vm_compute. reflexivity.
Defined.
