(* ===== verification/Wsd.v ===== *)
(** WS-Discovery ([src/net/wsd.rs]): the group constants, and the classifier
    over the SOAP text's elements. *)

From S2P Require Import Prelude Text Addr Http.

Local Open Scope Z_scope.

Definition WSD_PORT : Z := 3702.
Definition WSD_TTL : Z := 1.
Definition WSD_GROUP_V4 : Z := Ipv4.new 239 255 255 250.
Definition WSD_GROUP_V6 : Z := Ipv6.new 65282 0 0 0 0 0 0 12.

Inductive WsdKind : Type := Announcement | Search.
Global Instance WsdKind_eq_dec : EqDecision WsdKind.
Proof. solve_decision. Defined.

(** [tag.split(ws or '/').next()], then [rsplit(':').next()]: neither iterator
    is ever empty. *)
Definition tag_local (tag : bytes) : bytes :=
  let name := default tag (head (split_on (fun b => is_space b || (b =? 47)) tag)) in
  default name (last (split_on (Z.eqb 58) name)).

Definition starts_any (set : string) (l : bytes) : bool :=
  match l with b :: _ => existsb (Z.eqb b) (bs set) | [] => false end.

(** [element_text]: each turn of the loop consumes at least the ['<'] it found;
    running out of [fuel] is [Panic]. *)
Fixpoint element_text_loop (fuel : nat) (rest local_name : bytes) : res Infallible (option (bytes * bytes)) :=
  match fuel with
  | O => Panic
  | S fuel =>
      match position (Z.eqb 60) rest with
      | None => Ok None
      | Some opening =>
          let rest := drop (S opening) rest in
          match position (Z.eqb 62) rest with
          | None => Ok None
          | Some close =>
              let '(tag, after) := (take close rest, drop close rest) in
              let rest := drop 1 after in
              if starts_any "/?!" tag then element_text_loop fuel rest local_name
              else if bool_decide (last tag = Some 47) then element_text_loop fuel rest local_name
              else if eq_ic (tag_local tag) local_name then
                let stop := default (length rest) (position (Z.eqb 60) rest) in
                Ok (Some (trim (take stop rest), drop stop rest))
              else element_text_loop fuel rest local_name
          end
      end
  end.
Definition element_text (payload local_name : bytes) : res Infallible (option (bytes * bytes)) :=
  element_text_loop (S (length payload)) payload local_name.

(** [action_segment] *)
Definition action_segment (payload : bytes) : res Infallible (option bytes) :=
  found ← element_text payload (bs "Action");
  Ok ('(uri, _) ← found;
      s ← last (split_on (Z.eqb 47) uri);
      match s with [] => None | _ => Some s end).

(** [wsd::classify] *)
Definition classify (payload : bytes) : res Infallible (option WsdKind) :=
  found ← action_segment payload;
  Ok (s ← found;
      if bool_decide (s = bs "Hello") || bool_decide (s = bs "Bye") then Some Announcement
      else if bool_decide (s = bs "Probe") || bool_decide (s = bs "Resolve") then Some Search
      else None).

Definition unreachable_uri (uri : bytes) : bool :=
  match url_host_ip uri with Some ip => is_link_local ip || is_never_a_peer ip | None => false end.

(** The URIs of one [XAddrs] text; [None] is the [return false]. *)
Fixpoint xaddr_uris (saw_ip : bool) (uris : list bytes) : option bool :=
  match uris with
  | [] => Some saw_ip
  | [] :: uris => xaddr_uris saw_ip uris
  | uri :: uris => if unreachable_uri uri then xaddr_uris true uris else None
  end.

Fixpoint xaddrs_loop (fuel : nat) (saw_ip : bool) (rest : bytes) : res Infallible bool :=
  match fuel with
  | O => Panic
  | S fuel =>
      found ← element_text rest (bs "XAddrs");
      match found with
      | None => Ok saw_ip
      | Some (text, after) =>
          match xaddr_uris saw_ip (split_on is_space text) with
          | None => Ok false
          | Some saw_ip => xaddrs_loop fuel saw_ip after
          end
      end
  end.
(** [wsd::advertises_only_unreachable] *)
Definition advertises_only_unreachable (payload : bytes) : res Infallible bool :=
  xaddrs_loop (S (length payload)) false payload.

Definition ex_probe : bytes :=
  bs "<?xml version='1.0'?><s:Envelope xmlns:s='x'><s:Header><a:Action s:mustUnderstand='1'>http://schemas.xmlsoap.org/ws/2005/04/discovery/Probe</a:Action></s:Header></s:Envelope>".
Definition ex_matches : bytes :=
  bs "<e><Action>http://x/discovery/ProbeMatches</Action><d:XAddrs>http://[fe80::1%25eth0]:5357/ http://169.254.3.4/</d:XAddrs></e>".
Example wsd_ex :
  classify ex_probe = Ok (Some Search) /\ classify ex_matches = Ok None /\
  advertises_only_unreachable ex_matches = Ok true /\ advertises_only_unreachable ex_probe = Ok false.
Proof. by vm_compute. Qed.

(** ** Lemmas *)

(** Enough fuel always yields an answer, and what follows a found element is
    shorter than what was searched. *)
Lemma element_text_loop_total fuel rest local_name :
  (length rest < fuel)%nat ->
  exists found, element_text_loop fuel rest local_name = Ok found /\
    (forall text after, found = Some (text, after) -> (length after < length rest)%nat).
Proof.
  revert rest. induction fuel as [|fuel IH]; intros rest Hf; [lia|]. cbn [element_text_loop].
  destruct (position (Z.eqb 60) rest) as [op|] eqn:Eo; [|by eexists].
  apply position_lt in Eo.
  set (rest1 := drop (S op) rest). assert (H1 : (length rest1 < length rest)%nat) by (unfold rest1; len).
  destruct (position (Z.eqb 62) rest1) as [close|] eqn:Ec; [|by eexists].
  apply position_lt in Ec.
  set (rest2 := drop 1 (drop close rest1)).
  assert (H2 : (length rest2 < length rest1)%nat) by (unfold rest2; len).
  assert (Hrec : exists found, element_text_loop fuel rest2 local_name = Ok found /\
    (forall text after, found = Some (text, after) -> (length after < length rest)%nat)).
  { destruct (IH rest2) as (found&E&Hlt); [lia|]. exists found. split; [done|].
    intros t a Hta. specialize (Hlt t a Hta). lia. }
  cbv zeta beta iota. fold rest1 rest2.
  destruct (starts_any _ _); [done|]. destruct (bool_decide _); [done|].
  destruct (eq_ic _ _); [|done]. eexists. split; [done|]. intros t a [= _ <-]. len.
Qed.

Lemma element_text_total payload local_name :
  exists found, element_text payload local_name = Ok found /\
    (forall text after, found = Some (text, after) -> (length after < length payload)%nat).
Proof. apply element_text_loop_total. lia. Qed.

(** The texts of the successive [XAddrs] elements of a message. *)
Inductive xaddrs_of : bytes -> list bytes -> Prop :=
  | xaddrs_none payload : element_text payload (bs "XAddrs") = Ok None -> xaddrs_of payload []
  | xaddrs_some payload text after texts :
      element_text payload (bs "XAddrs") = Ok (Some (text, after)) ->
      xaddrs_of after texts -> xaddrs_of payload (text :: texts).

(** The URIs of those texts. *)
Definition uris_of (texts : list bytes) : list bytes :=
  filter (fun uri => uri <> []) (mjoin ((fun text => split_on is_space text) <$> texts)).

Lemma xaddr_uris_spec saw uris :
  xaddr_uris saw uris =
  let named := filter (fun uri => uri <> []) uris in
  if forallb unreachable_uri named then Some (saw || bool_decide (named <> [])) else None.
Proof.
  revert saw. induction uris as [|uri uris IH]; intros saw; [by destruct saw|]. cbn zeta in *.
  destruct uri as [|b uri].
  - rewrite filter_cons_False by (intros H; by apply H). apply IH.
  - rewrite filter_cons_True by done. cbn [xaddr_uris forallb]. destruct (unreachable_uri _); cbn [andb]; [|done].
    rewrite IH. destruct (forallb _ _); [|done]. by rewrite orb_true_r.
Qed.

Lemma xaddrs_loop_spec fuel saw rest :
  (length rest < fuel)%nat ->
  exists texts, xaddrs_of rest texts /\
    xaddrs_loop fuel saw rest
    = Ok (forallb unreachable_uri (uris_of texts) && (saw || bool_decide (uris_of texts <> []))).
Proof.
  revert saw rest. induction fuel as [|fuel IH]; intros saw rest Hf; [lia|]. cbn [xaddrs_loop].
  destruct (element_text_total rest (bs "XAddrs")) as (found&E&Hlt). rewrite E, bind_ret.
  destruct found as [[text after]|].
  - specialize (Hlt text after eq_refl). rewrite xaddr_uris_spec. cbv zeta.
    set (named := filter _ (split_on is_space text)).
    assert (Huris : forall texts, uris_of (text :: texts) = named ++ uris_of texts).
    { intros texts. unfold uris_of. rewrite fmap_cons.
      change (mjoin (?x :: ?l)) with (x ++ mjoin l). by rewrite filter_app. }
    destruct (IH (saw || bool_decide (named <> [])) after) as (texts&Ht&Hl); [lia|].
    exists (text :: texts). split; [by econstructor|]. rewrite Huris, forallb_app.
    destruct (forallb unreachable_uri named); cbn [andb]; [|done]. rewrite Hl. do 2 f_equal.
    destruct named as [|n named]; cbn [app]; [by rewrite orb_false_r|].
    cbn. by rewrite !orb_true_r.
  - exists []. split; [by constructor|]. cbn. by rewrite orb_false_r.
Qed.

(** [advertises_only_unreachable] returns on every payload, and holds
    exactly when the message's XAddrs elements name at least one URI and every
    URI they name is a literal address no client on another link could use. *)
Theorem wsd_unreachable_exact payload :
  exists texts, xaddrs_of payload texts /\
    advertises_only_unreachable payload
    = Ok (bool_decide (uris_of texts <> [] /\ Forall (fun uri => unreachable_uri uri = true) (uris_of texts))).
Proof.
  destruct (xaddrs_loop_spec (S (length payload)) false payload) as (texts&Ht&Hl); [lia|].
  exists texts. split; [done|]. unfold advertises_only_unreachable. rewrite Hl. f_equal. cbn [orb].
  apply eq_true_iff_eq. rewrite andb_true_iff, !bool_decide_eq_true.
  rewrite forallb_forall, Forall_forall. setoid_rewrite list_elem_of_In. tauto.
Qed.

Lemma classify_total payload : exists k, classify payload = Ok k.
Proof.
  unfold classify, action_segment. destruct (element_text_total payload (bs "Action")) as (found&->&_).
  rewrite !bind_ret. by eexists.
Qed.
