(* ===== verification/Mdns.v ===== *)
(** mDNS ([src/net/mdns.rs]): the group constants and the query/response
    classifier that gates each direction. *)

From S2P Require Import Prelude Text Addr.

Local Open Scope Z_scope.

Definition MDNS_PORT : Z := 5353.
Definition MDNS_TTL : Z := 255.
Definition MDNS_GROUP_V4 : Z := Ipv4.new 224 0 0 251.
Definition MDNS_GROUP_V6 : Z := Ipv6.new 65282 0 0 0 0 0 0 251.

Inductive MdnsKind : Type := Query | Response.
Global Instance MdnsKind_eq_dec : EqDecision MdnsKind.
Proof. solve_decision. Defined.

Definition DNS_HEADER_LEN : nat := 12.
Definition FLAGS_HIGH : nat := 2.
Definition QR_BIT : Z := 128.

(** [mdns::classify]; indexing past the end panics. *)
Definition classify (payload : bytes) : res Infallible (option MdnsKind) :=
  if (length payload <? DNS_HEADER_LEN)%nat then Ok None
  else
    flags ← idx payload FLAGS_HIGH;
    Ok (Some (if Z.land flags QR_BIT =? 0 then Query else Response)).

Lemma classify_ok payload :
  (DNS_HEADER_LEN <= length payload)%nat ->
  exists flags, payload !! FLAGS_HIGH = Some flags /\
    classify payload = Ok (Some (if Z.land flags QR_BIT =? 0 then Query else Response)).
Proof.
  intros H. unfold DNS_HEADER_LEN in H. destruct (lookup_lt_is_Some_2 payload FLAGS_HIGH) as [flags Hf].
  { unfold FLAGS_HIGH. lia. }
  exists flags. split; [done|]. unfold classify, idx. rewrite Hf.
  destruct (Nat.ltb_spec (length payload) DNS_HEADER_LEN); [unfold DNS_HEADER_LEN in *; lia|done].
Qed.
