(* ===== verification/DnsMessage.v ===== *)
(** A DNS message's questions and records ([src/net/mdns/message.rs]): the walk
    of names and entries within a budget, and the re-encoding without the
    entries a filter drops. *)

From S2P Require Import Prelude Text Addr Mdns.

Local Open Scope Z_scope.

(** The error of a message that cannot be walked. *)
Inductive Malformed : Type := malformed.
Abbreviation walk := (res Malformed).

Definition QDCOUNT_AT : nat := 4.
Definition ANCOUNT_AT : nat := 6.
Definition NSCOUNT_AT : nat := 8.
Definition ARCOUNT_AT : nat := 10.
Definition MAX_NAME_LEN : nat := 255.
Definition MAX_POINTER_HOPS : nat := MAX_NAME_LEN / 2.
Definition STEPS_PER_BYTE : nat := 4.

(** [Budget::for_message] and [Budget::spend]; a budget is its steps left. *)
Definition for_message (payload : bytes) : nat := length payload * STEPS_PER_BYTE.
Definition spend (budget : nat) : walk nat :=
  match budget with O => Err malformed | S budget => Ok budget end.

(** The tags of a label octet. *)
Definition is_label (tag : Z) : bool := (1 <=? tag) && (tag <=? 63).
Definition is_pointer (tag : Z) : bool := (192 <=? tag) && (tag <=? 255).
Definition pointer_target (tag low : Z) : nat := Z.to_nat (Z.lor (Z.shiftl (Z.land tag 63) 8) low).

(** The labels from [at_] on, as a [Labels] iterator run to its end yields
    them: one turn is one turn of the loop of [Labels::step], which spends a
    step, so the budget bounds the recursion. *)
Fixpoint labels_loop (budget : nat) (payload : bytes) (at_ hops len : nat) : walk (list bytes * nat) :=
  match budget with
  | O => Err malformed
  | S budget =>
      tag ← ok_or (payload !! at_) malformed;
      if tag =? 0 then Ok ([], budget)
      else if is_label tag then
        let start := S at_ in
        label ← ok_or (get_range start (start + Z.to_nat tag) payload) malformed;
        let len := (len + (1 + length label))%nat in
        if (MAX_NAME_LEN <=? len)%nat then Err malformed
        else
          '(rest, budget) ← labels_loop budget payload (start + length label) hops len;
          Ok (label :: rest, budget)
      else if is_pointer tag then
        low ← ok_or (payload !! S at_) malformed;
        let hops := S hops in
        if (MAX_POINTER_HOPS <? hops)%nat then Err malformed
        else labels_loop budget payload (pointer_target tag low) hops len
      else Err malformed
  end.
Definition labels (payload : bytes) (at_ budget : nat) : walk (list bytes * nat) :=
  labels_loop budget payload at_ 0 0.

(** [check_name] *)
Definition check_name (payload : bytes) (at_ budget : nat) : walk nat :=
  '(_, budget) ← labels payload at_ budget; Ok budget.

(** [skip_name]: each turn moves past at least an octet of the message. *)
Fixpoint skip_name_loop (fuel : nat) (payload : bytes) (at_ : nat) : option nat :=
  match fuel with
  | O => None
  | S fuel =>
      tag ← payload !! at_;
      if tag =? 0 then Some (S at_)
      else if is_label tag then skip_name_loop fuel payload (at_ + (1 + Z.to_nat tag))
      else if is_pointer tag then _ ← payload !! S at_; Some (at_ + 2)%nat
      else None
  end.
Definition skip_name (payload : bytes) (at_ : nat) : option nat :=
  skip_name_loop (S (length payload)) payload at_.

(** ** Entries *)

(** [Section] *)
Inductive DnsSection : Type := Question | Answer | Authority | Additional.
Global Instance DnsSection_eq_dec : EqDecision DnsSection.
Proof. solve_decision. Defined.
Definition section_index (s : DnsSection) : nat :=
  match s with Question => 0 | Answer => 1 | Authority => 2 | Additional => 3 end.

Record RdataNames : Type := { rn_offset : nat; rn_count : nat }.

Record Entry : Type := {
  section : DnsSection;
  e_name : nat;
  e_fixed : nat;
  rtype : Z;
  rdata : nat;
  e_end : nat;
}.

Definition TYPE_PTR : Z := 12.

(** [rdata_names] *)
Definition rdata_names_of (rtype : Z) : option RdataNames :=
  let among (types : list Z) := existsb (Z.eqb rtype) types in
  (* NS, MD, MF, CNAME, MB, MG, MR, PTR, DNAME, NSEC *)
  if among [2; 3; 4; 5; 7; 8; 9; TYPE_PTR; 39; 47] then Some {| rn_offset := 0; rn_count := 1 |}
  (* SOA, MINFO, RP *)
  else if among [6; 14; 17] then Some {| rn_offset := 0; rn_count := 2 |}
  (* MX, AFSDB, RT, KX *)
  else if among [15; 18; 21; 36] then Some {| rn_offset := 2; rn_count := 1 |}
  (* PX *)
  else if among [26] then Some {| rn_offset := 2; rn_count := 2 |}
  (* SRV *)
  else if among [33] then Some {| rn_offset := 6; rn_count := 1 |}
  else None.

(** [Entry::rdata_names] *)
Definition rdata_names (e : Entry) : option RdataNames :=
  if (rdata e <? e_end e)%nat then rdata_names_of (rtype e) else None.

(** The loop of [Entry::check_names]. *)
Fixpoint check_names_from (count : nat) (payload : bytes) (at_ end_ budget : nat) : walk nat :=
  match count with
  | O => Ok budget
  | S count =>
      budget ← check_name payload at_ budget;
      at_ ← ok_or (skip_name payload at_) malformed;
      if (end_ <? at_)%nat then Err malformed else check_names_from count payload at_ end_ budget
  end.
(** [Entry::check_names] *)
Definition check_names (e : Entry) (payload : bytes) (budget : nat) : walk nat :=
  budget ← check_name payload (e_name e) budget;
  match rdata_names e with
  | None => Ok budget
  | Some names => check_names_from (rn_count names) payload (rdata e + rn_offset names) (e_end e) budget
  end.

(** [Entries]: where the walk is, and the entries still to come per section. *)
Record Entries : Type := {
  en_at : nat;
  en_remaining : list (DnsSection * nat);
  en_done : bool;
}.

(** A big-endian [u16] of the message. *)
Definition u16_at (payload : bytes) (at_ : nat) : option Z := of_be <$> get_range at_ (at_ + 2) payload.

(** [Entries::new] *)
Definition entries_new (payload : bytes) : Entries :=
  let count at_ := Z.to_nat (default 0 (u16_at payload at_)) in
  {| en_at := DNS_HEADER_LEN;
     en_remaining := [(Question, count QDCOUNT_AT); (Answer, count ANCOUNT_AT);
                      (Authority, count NSCOUNT_AT); (Additional, count ARCOUNT_AT)];
     en_done := (length payload <? DNS_HEADER_LEN)%nat |}.

(** [Entries::step]: the entry, whose end is where the walk goes on. *)
Definition entries_step (payload : bytes) (name : nat) (sec : DnsSection) : walk Entry :=
  fixed ← ok_or (skip_name payload name) malformed;
  '(rdata, end_) ←
    (if decide (sec = Question) then
       _ ← ok_or (get_range fixed (fixed + 4) payload) malformed;
       Ok ((fixed + 4)%nat, (fixed + 4)%nat)
     else
       head ← ok_or (get_range fixed (fixed + 10) payload) malformed;
       let rdata := (fixed + 10)%nat in
       length_hi ← idx head 8; length_lo ← idx head 9;
       let end_ := (rdata + Z.to_nat (of_be [length_hi; length_lo]))%nat in
       if (length payload <? end_)%nat then Err malformed else Ok (rdata, end_));
  type_hi ← idx payload fixed; type_lo ← idx payload (S fixed);
  Ok {| section := sec; e_name := name; e_fixed := fixed; rtype := of_be [type_hi; type_lo];
        rdata := rdata; e_end := end_ |}.

(** The first section with entries left, and the counts with one taken. *)
Fixpoint take_slot (remaining : list (DnsSection * nat)) : option (DnsSection * list (DnsSection * nat)) :=
  match remaining with
  | [] => None
  | (s, S n) :: remaining => Some (s, (s, n) :: remaining)
  | (s, O) :: remaining => '(s', remaining) ← take_slot remaining; Some (s', (s, O) :: remaining)
  end.

(** [Entries::next] *)
Definition entries_next (payload : bytes) (en : Entries) : option (walk Entry) * Entries :=
  if en_done en then (None, en)
  else match take_slot (en_remaining en) with
       | None => (None, {| en_at := en_at en; en_remaining := en_remaining en; en_done := true |})
       | Some (sec, remaining) =>
           let step := entries_step payload (en_at en) sec in
           (Some step,
            {| en_at := match step with Ok e => e_end e | _ => en_at en end;
               en_remaining := remaining;
               en_done := match step with Ok _ => false | _ => true end |})
       end.

(** [for entry in Entries::new(payload) { let entry = entry?; .. }]: the loop
    over what is left of [en], threading [s]; a [continue] is a body that
    returns.  Each turn takes one of the entries counted. *)
Fixpoint for_entries {S} (fuel : nat) (payload : bytes) (en : Entries) (body : Entry -> S -> walk S) (s : S) : walk S :=
  match fuel with
  | O => Panic
  | Datatypes.S fuel =>
      match entries_next payload en with
      | (None, _) => Ok s
      | (Some step, en) =>
          entry ← step;
          s ← body entry s;
          for_entries fuel payload en body s
      end
  end.
Definition entries_left (en : Entries) : nat := sum_list (snd <$> en_remaining en).
Definition each_entry {S} (payload : bytes) (body : Entry -> S -> walk S) (s : S) : walk S :=
  let en := entries_new payload in
  for_entries (Datatypes.S (entries_left en)) payload en body s.

(** ** Re-encoding *)

Definition UNPLACED : Z := 65535.
Definition MAX_POINTER_TARGET : nat := Z.to_nat 16383.

(** What [Trimmer] writes into, and the budget of the pass.  The buffers it
    keeps between messages are cleared first, so nothing is carried over. *)
Record Writer : Type := { out : bytes; placed : list Z; w_budget : nat }.

(** [extend_from_slice] *)
Definition emit (w : Writer) (data : bytes) : Writer :=
  {| out := out w ++ data; placed := placed w; w_budget := w_budget w |}.

(** The loop of [write_name]: each turn spends a step. *)
Fixpoint write_name_loop (budget : nat) (payload : bytes) (at_ start hops : nat) (out : bytes) (placed : list Z)
    : walk Writer :=
  match budget with
  | O => Err malformed
  | S budget =>
      let here := default UNPLACED (placed !! at_) in
      if negb (here =? UNPLACED) then
        if (start <=? Z.to_nat here)%nat then Err malformed
        else Ok {| out := out ++ be 2 (Z.lor 49152 here); placed := placed; w_budget := budget |}
      else
        tag ← ok_or (payload !! at_) malformed;
        if tag =? 0 then Ok {| out := out ++ [0]; placed := placed; w_budget := budget |}
        else if is_label tag then
          label ← ok_or (get_range at_ (at_ + (1 + Z.to_nat tag)) payload) malformed;
          placed ← (if (length out <=? MAX_POINTER_TARGET)%nat
                    then set_at placed at_ (Z.of_nat (length out)) else Ok placed);
          write_name_loop budget payload (at_ + length label) start hops (out ++ label) placed
        else if is_pointer tag then
          low ← ok_or (payload !! S at_) malformed;
          let hops := S hops in
          if (MAX_POINTER_HOPS <? hops)%nat then Err malformed
          else write_name_loop budget payload (pointer_target tag low) start hops out placed
        else Err malformed
  end.
(** [Trimmer::write_name] *)
Definition write_name (payload : bytes) (at_ : nat) (w : Writer) : walk Writer :=
  write_name_loop (w_budget w) payload at_ (length (out w)) 0 (out w) (placed w).

Definition message_span (payload : bytes) (from to : nat) : walk bytes := ok_or (get_range from to payload) malformed.

(** The names of a record's rdata, back to back from [at_]: where they end. *)
Fixpoint write_names (count : nat) (payload : bytes) (at_ : nat) (w : Writer) : walk (nat * Writer) :=
  match count with
  | O => Ok (at_, w)
  | S count =>
      w ← write_name payload at_ w;
      at_ ← ok_or (skip_name payload at_) malformed;
      write_names count payload at_ w
  end.

(** The rdata part of [write_entry]. *)
Definition write_rdata (payload : bytes) (e : Entry) (w : Writer) : walk Writer :=
  match rdata_names e with
  | Some names =>
      let at_ := (rdata e + rn_offset names)%nat in
      before ← message_span payload (rdata e) at_;
      '(at_, w) ← write_names (rn_count names) payload at_ (emit w before);
      after ← message_span payload at_ (e_end e);
      Ok (emit w after)
  | None => data ← message_span payload (rdata e) (e_end e); Ok (emit w data)
  end.

(** [Trimmer::write_entry] *)
Definition write_entry (payload : bytes) (e : Entry) (w : Writer) : walk Writer :=
  w ← write_name payload (e_name e) w;
  if decide (section e = Question) then
    fixed ← message_span payload (e_fixed e) (e_end e);
    Ok (emit w fixed)
  else
    fixed ← message_span payload (e_fixed e) (e_fixed e + 8);
    let w := emit w fixed in
    let length_at := length (out w) in
    w ← write_rdata payload e (emit w [0; 0]);
    let len := (length (out w) - length_at - 2)%nat in
    if 65535 <? Z.of_nat len then Err malformed
    else
      out ← copy_at (out w) length_at (length_at + 2) (be 2 (Z.of_nat len));
      Ok {| out := out; placed := placed w; w_budget := w_budget w |}.

Record Trim : Type := {
  tr_writer : Writer;
  tr_counts : list Z;
  tr_removed : nat;
  tr_answered : bool;
  tr_refilled : bool;
}.

(** [counts[s] += 1] on a [u16] of a release build *)
Definition bump (counts : list Z) (s : DnsSection) : list Z :=
  alter (fun n => (n + 1) mod 65536) (section_index s) counts.

Definition past_answers (s : DnsSection) : bool :=
  match s with Authority | Additional => true | Question | Answer => false end.
Definition refills (refill : Entry -> bool) (e : Entry) : bool := past_answers (section e) && refill e.

(** One candidate of the inner loop of [trim]. *)
Definition refill_entry (payload : bytes) (refill : Entry -> bool) (candidate : Entry) (t : Trim) : walk Trim :=
  if refills refill candidate then
    w ← write_entry payload candidate (tr_writer t);
    n ← idx (tr_counts t) (section_index Answer);
    if n + 1 <? 65536 then
      Ok {| tr_writer := w; tr_counts := <[section_index Answer := n + 1]> (tr_counts t);
            tr_removed := tr_removed t; tr_answered := tr_answered t; tr_refilled := tr_refilled t |}
    else Err malformed
  else Ok t.

(** The turn of the loop of [trim] from [if refilled && ..] on. *)
Definition trim_select (payload : bytes) (keep : Entry -> nat -> walk (bool * nat)) (refill : Entry -> bool)
    (e : Entry) (t : Trim) : walk Trim :=
  if tr_refilled t && refills refill e then Ok t
  else
    '(kept, budget) ← keep e (w_budget (tr_writer t));
    let w := {| out := out (tr_writer t); placed := placed (tr_writer t); w_budget := budget |} in
    if negb kept then
      Ok {| tr_writer := w; tr_counts := tr_counts t; tr_removed := S (tr_removed t);
            tr_answered := tr_answered t; tr_refilled := tr_refilled t |}
    else
      w ← write_entry payload e w;
      Ok {| tr_writer := w; tr_counts := bump (tr_counts t) (section e); tr_removed := tr_removed t;
            tr_answered := tr_answered t; tr_refilled := tr_refilled t |}.

(** The start of a turn: the first entry past the answers refills them when
    none was kept. *)
Definition trim_answers (payload : bytes) (refill : Entry -> bool) (e : Entry) (t : Trim) : walk Trim :=
  if negb (tr_answered t) && past_answers (section e) then
    n ← idx (tr_counts t) (section_index Answer);
    let t := {| tr_writer := tr_writer t; tr_counts := tr_counts t; tr_removed := tr_removed t;
                tr_answered := true; tr_refilled := (n =? 0) |} in
    if n =? 0 then each_entry payload (refill_entry payload refill) t else Ok t
  else Ok t.

(** One entry of the loop of [trim]. *)
Definition trim_entry (payload : bytes) (keep : Entry -> nat -> walk (bool * nat)) (refill : Entry -> bool)
    (e : Entry) (t : Trim) : walk Trim :=
  t ← trim_answers payload refill e t;
  trim_select payload keep refill e t.

(** The counts written back into the header. *)
Fixpoint write_counts (fields : list (Z * nat)) (out : bytes) : walk bytes :=
  match fields with
  | [] => Ok out
  | (count, at_) :: fields =>
      out ← copy_at out at_ (at_ + 2) (be 2 count);
      write_counts fields out
  end.

(** [Trimmer::trim] *)
Definition trim (payload : bytes) (keep : Entry -> nat -> walk (bool * nat)) (refill : Entry -> bool)
    : walk (bytes * nat) :=
  header ← ok_or (get_range 0 DNS_HEADER_LEN payload) malformed;
  t ← each_entry payload (trim_entry payload keep refill)
        {| tr_writer := {| out := header; placed := replicate (length payload) UNPLACED;
                           w_budget := for_message payload |};
           tr_counts := [0; 0; 0; 0]; tr_removed := 0; tr_answered := false; tr_refilled := false |};
  let out := out (tr_writer t) in
  if (length payload <? length out)%nat then Err malformed
  else
    out ← write_counts (zip (tr_counts t) [QDCOUNT_AT; ANCOUNT_AT; NSCOUNT_AT; ARCOUNT_AT]) out;
    Ok (out, tr_removed t).
