(* ===== verification/MdnsFilters.v ===== *)
(** What the mDNS legs do to a message: the service-type allow-list
    ([src/net/mdns/services.rs]) and the unreachable-address strip
    ([src/net/mdns/addresses.rs]). *)

From S2P Require Import Prelude Text Addr UniqueList Names Mdns DnsMessage.

Local Open Scope Z_scope.

(** ** The service types a message names *)

(** The loop of [service_of]: the last pair wins. *)
Fixpoint service_pairs (previous : option bytes) (found : option (bytes * Proto)) (labels : list bytes)
    : option (bytes * Proto) :=
  match labels with
  | [] => found
  | label :: labels =>
      let found :=
        match previous, from_label label with
        | Some service, Some proto =>
            match strip_prefix_by Z.eqb (bs "_") service with
            | Some service => if eq_ic service (bs "dns-sd") then found else Some (service, proto)
            | None => found
            end
        | _, _ => found
        end in
      service_pairs (Some label) found labels
  end.

(** [service_of] *)
Definition service_of (payload : bytes) (at_ budget : nat) : walk (option (bytes * Proto) * nat) :=
  '(ls, budget) ← labels payload at_ budget;
  Ok (service_pairs None None ls, budget).

(** [entry_service] *)
Definition entry_service (e : Entry) (payload : bytes) (budget : nat) : walk (option (bytes * Proto) * nat) :=
  '(by_target, budget) ←
    (if (rtype e =? TYPE_PTR) && (rdata e <? e_end e)%nat then service_of payload (rdata e) budget
     else Ok (None, budget));
  match by_target with
  | Some service => Ok (Some service, budget)
  | None => service_of payload (e_name e) budget
  end.

(** [allows] *)
Definition allows (allowed : ServiceList) (s : bytes * Proto) : bool :=
  existsb (fun a => bool_decide (st_proto a = s.2) && eq_ic (service a) s.1) allowed.

(** ** The allow-list's decision *)

Definition MAX_NAMED_REFUSALS : nat := 8.

Inductive Scope : Type := ScPass | ScRefuse | ScTrim.
Global Instance Scope_eq_dec : EqDecision Scope.
Proof. solve_decision. Defined.

(** What the loop of [assess] threads. *)
Record Assess : Type := {
  as_budget : nat;
  granted : bool;
  any_refused : bool;
  unscoped : bool;
  answer_scoped : bool;
  answer_granted : bool;
  answer_unscoped : bool;
  refused : list ServiceType;
}.

(** [refused.push(service)], unless it is full, holds it, or the label is no
    service type's. *)
Definition note_refused (refused : list ServiceType) (s : bytes * Proto) : list ServiceType :=
  match from_wire s.1 s.2 with
  | Some t => if (length refused <? MAX_NAMED_REFUSALS)%nat && negb (bool_decide (t ∈ refused))
              then refused ++ [t] else refused
  | None => refused
  end.

(** One entry of the loop of [assess]. *)
Definition assess_entry (payload : bytes) (allowed : ServiceList) (kind : MdnsKind) (e : Entry) (a : Assess)
    : walk Assess :=
  budget ← check_names e payload (as_budget a);
  let asked := match kind with
               | Query => bool_decide (section e = Question)
               | Response => negb (bool_decide (section e = Question))
               end in
  if negb asked then
    Ok {| as_budget := budget; granted := granted a; any_refused := any_refused a; unscoped := unscoped a;
          answer_scoped := answer_scoped a; answer_granted := answer_granted a;
          answer_unscoped := answer_unscoped a; refused := refused a |}
  else
    let answer := bool_decide (section e = Answer) in
    '(s, budget) ← entry_service e payload budget;
    Ok match s with
       | None =>
           {| as_budget := budget; granted := granted a; any_refused := any_refused a; unscoped := true;
              answer_scoped := answer_scoped a; answer_granted := answer_granted a;
              answer_unscoped := answer_unscoped a || answer; refused := refused a |}
       | Some s =>
           if allows allowed s then
             {| as_budget := budget; granted := true; any_refused := any_refused a; unscoped := unscoped a;
                answer_scoped := answer_scoped a || answer; answer_granted := answer_granted a || answer;
                answer_unscoped := answer_unscoped a; refused := refused a |}
           else
             {| as_budget := budget; granted := granted a; any_refused := true; unscoped := unscoped a;
                answer_scoped := answer_scoped a || answer; answer_granted := answer_granted a;
                answer_unscoped := answer_unscoped a; refused := note_refused (refused a) s |}
       end.

(** The verdict at the end of [assess]. *)
Definition scope_of (kind : MdnsKind) (a : Assess) : Scope :=
  if negb (any_refused a) then ScPass
  else match kind with
       | Query => if granted a || unscoped a then ScPass else ScRefuse
       | Response => if answer_granted a || (answer_unscoped a && negb (answer_scoped a)) then ScTrim
                     else ScRefuse
       end.

(** [classify(payload).ok_or(Malformed)] *)
Definition classified (payload : bytes) : walk MdnsKind :=
  match classify payload with
  | Ok (Some kind) => Ok kind
  | Ok None | Err _ => Err malformed
  | Panic => Panic
  end.

(** [assess]: the scope, and the service types refused. *)
Definition assess (payload : bytes) (allowed : ServiceList) : walk (Scope * list ServiceType) :=
  kind ← classified payload;
  a ← each_entry payload (assess_entry payload allowed kind)
        {| as_budget := for_message payload; granted := false; any_refused := false; unscoped := false;
           answer_scoped := false; answer_granted := false; answer_unscoped := false; refused := [] |};
  Ok (scope_of kind a, refused a).

(** [Decision] *)
Inductive MdnsDecision : Type :=
  | Pass
  | Refuse (refused : list ServiceType)
  | Trimmed (payload : bytes) (removed : nat) (refused : list ServiceType)
  | MalformedMessage.

(** The filter [decide] trims with. *)
Definition keep_allowed (allowed : ServiceList) (payload : bytes) (e : Entry) (budget : nat) : walk (bool * nat) :=
  if decide (section e = Question) then Ok (true, budget)
  else
    '(s, budget) ← entry_service e payload budget;
    Ok (match s with Some s => allows allowed s | None => true end, budget).

(** [ServiceFilter::decide] *)
Definition decide_services (allowed : ServiceList) (payload : bytes) : res Infallible MdnsDecision :=
  match assess payload allowed with
  | Err malformed => Ok MalformedMessage
  | Panic => Panic
  | Ok (ScPass, _) => Ok Pass
  | Ok (ScRefuse, refused) => Ok (Refuse refused)
  | Ok (ScTrim, refused) =>
      match trim payload (keep_allowed allowed payload) (fun _ => false) with
      | Ok (payload, removed) => Ok (Trimmed payload removed refused)
      | Err malformed => Ok MalformedMessage
      | Panic => Panic
      end
  end.

(** [RefusedServices]'s [Display] *)
Fixpoint refused_display (refused : list ServiceType) : bytes :=
  match refused with
  | [] => []
  | [t] => service_display t
  | t :: refused => service_display t ++ bs ", " ++ refused_display refused
  end.

(** ** Addresses *)

Definition TYPE_A : Z := 1.
Definition TYPE_AAAA : Z := 28.

(** [address] *)
Definition address (payload : bytes) (e : Entry) : option IpAddr :=
  data ← get_range (rdata e) (e_end e) payload;
  if rtype e =? TYPE_A then if decide (length data = 4%nat) then Some (V4 (of_be data)) else None
  else if rtype e =? TYPE_AAAA then if decide (length data = 16%nat) then Some (V6 (of_be data)) else None
  else None.

(** [is_unreachable] *)
Definition is_unreachable (ip : IpAddr) : bool := is_link_local ip || is_never_a_peer ip.

(** [Option::is_some_and] *)
Definition some_and {A} (p : A -> bool) (o : option A) : bool :=
  match o with Some a => p a | None => false end.

Record Advertised : Type := { usable : bool; unreachable : bool }.

(** [advertised] *)
Definition advertised_entry (payload : bytes) (e : Entry) (a : Advertised) : walk Advertised :=
  let ip := address payload e in
  let dead := some_and is_unreachable ip in
  Ok {| usable := usable a || (bool_decide (is_Some ip) && negb dead); unreachable := unreachable a || dead |}.
Definition advertised (payload : bytes) : walk Advertised :=
  each_entry payload (advertised_entry payload) {| usable := false; unreachable := false |}.

(** [addresses::advertises_only_unreachable] *)
Definition advertises_only_unreachable (payload : bytes) : res Infallible bool :=
  match advertised payload with
  | Ok a => Ok (unreachable a && negb (usable a))
  | Err malformed => Ok false
  | Panic => Panic
  end.

(** [AddressFilter::strip] *)
Definition strip (payload : bytes) : res Infallible (option (bytes * nat)) :=
  match advertised payload with
  | Panic => Panic
  | Err malformed => Ok None
  | Ok a =>
      if negb (usable a && unreachable a) then Ok None
      else
        match trim payload
                (fun e budget => Ok (negb (some_and is_unreachable (address payload e)), budget))
                (fun e => some_and (fun ip => negb (is_unreachable ip)) (address payload e)) with
        | Ok stripped => Ok (Some stripped)
        | Err malformed => Ok None
        | Panic => Panic
        end
  end.

(** ** A message *)

Definition ex_label (s : string) : bytes := Z.of_nat (String.length s) :: bs s.
Definition ex_local : bytes := ex_label "local" ++ [0].
(** An answer PTR for [_ipp._tcp.local], one for [_raop._tcp.local] pointing
    back into the first name, an A record and a link-local one. *)
Definition ex_response : bytes :=
  [0; 0; 132; 0; 0; 0; 0; 2; 0; 0; 0; 2] ++
  ex_label "_ipp" ++ ex_label "_tcp" ++ ex_local ++ be 2 12 ++ be 2 1 ++ be 4 120 ++ be 2 4 ++ ex_label "p" ++ [192; 12] ++
  ex_label "_raop" ++ [192; 17] ++ be 2 12 ++ be 2 1 ++ be 4 120 ++ be 2 4 ++ ex_label "q" ++ [192; 43] ++
  ex_label "h" ++ [192; 22] ++ be 2 1 ++ be 2 1 ++ be 4 120 ++ be 2 4 ++ [10; 0; 0; 9] ++
  ex_label "h" ++ [192; 22] ++ be 2 1 ++ be 2 1 ++ be 4 120 ++ be 2 4 ++ [169; 254; 0; 9].
Definition ex_allowed (s : string) : ServiceList := match service_from_str (bs s) with Some t => [t] | None => [] end.

Definition decision_summary (d : MdnsDecision) : bytes * nat * nat :=
  match d with
  | Pass => (bs "pass", 0%nat, 0%nat)
  | Refuse r => (refused_display r, 1%nat, 0%nat)
  | Trimmed p n r => (refused_display r, n, length p)
  | MalformedMessage => (bs "malformed", 0%nat, 0%nat)
  end.

Example decide_services_ex :
  decision_summary <$> decide_services (ex_allowed "_ipp._tcp") ex_response = Ok (bs "_raop._tcp", 1%nat, 79%nat) /\
  decision_summary <$> decide_services (ex_allowed "_smb._tcp") ex_response = Ok (bs "_ipp._tcp, _raop._tcp", 1%nat, 0%nat) /\
  option_map (fun p => (length p.1, p.2)) <$> strip ex_response = Ok (Some (83%nat, 1%nat)).
Proof. by vm_compute. Qed.
