(* ===== verification/DnsSpec.v ===== *)
(** The DNS walk and re-encoding: they never panic, and a re-encoded message
    holds exactly the selected records, name for name. *)

From S2P Require Import Prelude Text Addr Mdns DnsMessage.

Local Open Scope Z_scope.

(** ** The entries of a message as a list *)

Fixpoint entries_from (fuel : nat) (payload : bytes) (en : Entries) : walk (list Entry) :=
  match fuel with
  | O => Panic
  | S fuel =>
      match entries_next payload en with
      | (None, _) => Ok []
      | (Some step, en) => e ← step; es ← entries_from fuel payload en; Ok (e :: es)
      end
  end.

(** Every entry, or the error the walk ends in. *)
Definition entry_list (payload : bytes) : walk (list Entry) :=
  let en := entries_new payload in entries_from (S (entries_left en)) payload en.

Fixpoint fold_entries {S} (body : Entry -> S -> walk S) (es : list Entry) (s : S) : walk S :=
  match es with
  | [] => Ok s
  | e :: es => s ← body e s; fold_entries body es s
  end.

Lemma fold_entries_app {S} (body : Entry -> S -> walk S) es es' s :
  fold_entries body (es ++ es') s = (s ← fold_entries body es s; fold_entries body es' s).
Proof.
  revert s. induction es as [|e es IH]; intros s; cbn [app fold_entries]; [done|].
  destruct (body e s); cbn [mbind res_bind]; [apply IH|done..].
Qed.

(** A loop over the entries is the fold over their list. *)
Lemma for_entries_fold {S} fuel payload en (body : Entry -> S -> walk S) s s' :
  for_entries fuel payload en body s = Ok s' ->
  exists es, entries_from fuel payload en = Ok es /\ fold_entries body es s = Ok s'.
Proof.
  revert en s. induction fuel as [|fuel IH]; intros en s; cbn [for_entries entries_from]; [done|].
  destruct (entries_next payload en) as [[step|] en'].
  - intros (e&->&H)%bind_Ok. apply bind_Ok in H as (s1&Hs&H). apply IH in H as (es&He&Hf).
    exists (e :: es). rewrite bind_ret, He. cbn [fold_entries]. by rewrite Hs.
  - intros [= <-]. by exists [].
Qed.

Lemma each_entry_fold {S} payload (body : Entry -> S -> walk S) s s' :
  each_entry payload body s = Ok s' ->
  exists es, entry_list payload = Ok es /\ fold_entries body es s = Ok s'.
Proof. apply for_entries_fold. Qed.

Lemma take_slot_Some remaining sec remaining' :
  take_slot remaining = Some (sec, remaining') ->
  sum_list (snd <$> remaining) = S (sum_list (snd <$> remaining')).
Proof.
  revert sec remaining'. induction remaining as [|[s [|n]] rem IH]; intros sec remaining'; cbn [take_slot]; [done| |].
  - intros ([s' r']&E&[= <- <-])%bind_Some. cbn. by apply IH in E.
  - intros [= <- <-]. done.
Qed.

Lemma entries_next_left payload en step en' :
  entries_next payload en = (Some step, en') -> entries_left en = S (entries_left en').
Proof.
  unfold entries_next. destruct (en_done en); [done|].
  destruct (take_slot _) as [[sec rem]|] eqn:E; [|done]. intros [= <- <-]. by apply take_slot_Some in E.
Qed.

(** The offsets of an entry lie in the message. *)
Definition entry_in (payload : bytes) (e : Entry) : Prop :=
  (e_fixed e + 4 <= rdata e)%nat /\ (rdata e <= e_end e)%nat /\ (e_end e <= length payload)%nat /\
  skip_name payload (e_name e) = Some (e_fixed e) /\
  (section e = Question -> e_end e = e_fixed e + 4 /\ rdata e = e_end e)%nat /\
  (section e <> Question -> rdata e = e_fixed e + 10)%nat.

Lemma get_range_lookup {A} (l : list A) a b s i :
  get_range a b l = Some s -> (i < b - a)%nat -> s !! i = l !! (a + i)%nat.
Proof.
  intros (_&_&->)%get_range_Some Hi. rewrite lookup_take_lt by done. by rewrite lookup_drop.
Qed.

Lemma idx_lookup {E A} (l : list A) i : (i < length l)%nat -> exists x, l !! i = Some x /\ idx (E:=E) l i = Ok x.
Proof. intros [x Hx]%lookup_lt_is_Some_2. exists x. unfold idx. by rewrite Hx. Qed.

Lemma u16_at_bytes payload at_ v :
  u16_at payload at_ = Some v <->
  exists hi lo, payload !! at_ = Some hi /\ payload !! S at_ = Some lo /\ v = of_be [hi; lo].
Proof.
  unfold u16_at. split.
  - intros (s&Hs&->)%fmap_Some. pose proof Hs as (_&Hl&Es)%get_range_Some.
    destruct (lookup_lt_is_Some_2 payload at_) as [hi Hhi]; [lia|].
    destruct (lookup_lt_is_Some_2 payload (S at_)) as [lo Hlo]; [lia|].
    exists hi, lo. split_and!; [done|done|]. rewrite Es. replace (at_ + 2 - at_)%nat with 2%nat by lia.
    by rewrite (drop_S _ _ _ Hhi), (drop_S _ _ _ Hlo).
  - intros (hi&lo&Hhi&Hlo&->). pose proof (lookup_lt_Some _ _ _ Hlo).
    assert (get_range at_ (at_ + 2) payload = Some [hi; lo]) as ->; [|done].
    apply get_range_Some. split_and!; [lia|lia|]. replace (at_ + 2 - at_)%nat with 2%nat by lia.
    by rewrite (drop_S _ _ _ Hhi), (drop_S _ _ _ Hlo).
Qed.

(** An entry as the walk read it. *)
Record entry_read (payload : bytes) (e : Entry) : Prop := {
  er_fixed : skip_name payload (e_name e) = Some (e_fixed e);
  er_type : u16_at payload (e_fixed e) = Some (rtype e);
  er_end : (e_fixed e + 4 <= rdata e <= e_end e)%nat /\ (e_end e <= length payload)%nat;
  er_question : section e = Question -> (rdata e = e_fixed e + 4 /\ e_end e = e_fixed e + 4)%nat;
  er_record : section e <> Question -> rdata e = (e_fixed e + 10)%nat /\
    exists n, u16_at payload (e_fixed e + 8) = Some n /\ e_end e = (rdata e + Z.to_nat n)%nat;
}.

Lemma entries_step_read payload at_ sec :
  match entries_step payload at_ sec with
  | Ok e => section e = sec /\ e_name e = at_ /\ entry_read payload e
  | Err _ => True
  | Panic => False
  end.
Proof.
  unfold entries_step. destruct (skip_name payload at_) as [fixed|] eqn:Ef; [cbn [ok_or]; rewrite bind_ret|done].
  destruct (decide (sec = Question)) as [Hq|Hq].
  - destruct (get_range fixed (fixed + 4) payload) as [s|] eqn:Hg; [cbn [ok_or]|done].
    rewrite !bind_ret. apply get_range_Some in Hg as (_&Hl&_).
    destruct (idx_lookup (E:=Malformed) payload fixed) as (hi&Hhi&->); [lia|].
    destruct (idx_lookup (E:=Malformed) payload (S fixed)) as (lo&Hlo&->); [lia|].
    rewrite !bind_ret. split_and!; [done|done|].
    split; cbn [e_name e_fixed rtype rdata e_end section]; [done| |lia|done|done].
    apply u16_at_bytes. eauto.
  - destruct (get_range fixed (fixed + 10) payload) as [s|] eqn:Hg; [cbn [ok_or]; rewrite bind_ret|done].
    pose proof (get_range_lookup payload _ _ s 8 Hg ltac:(lia)) as H8.
    pose proof (get_range_lookup payload _ _ s 9 Hg ltac:(lia)) as H9.
    apply get_range_Some in Hg as (_&Hl&Es).
    destruct (idx_lookup (E:=Malformed) s 8) as (nh&Hnh&->); [subst s; len|].
    destruct (idx_lookup (E:=Malformed) s 9) as (nl&Hnl&->); [subst s; len|]. rewrite !bind_ret. cbv zeta.
    destruct (Nat.ltb_spec (length payload) (fixed + 10 + Z.to_nat (of_be [nh; nl]))); [done|]. rewrite bind_ret.
    destruct (idx_lookup (E:=Malformed) payload fixed) as (hi&Hhi&->); [lia|].
    destruct (idx_lookup (E:=Malformed) payload (S fixed)) as (lo&Hlo&->); [lia|].
    rewrite !bind_ret. split_and!; [done|done|].
    split; cbn [e_name e_fixed rtype rdata e_end section]; [done| |lia|done|].
    + apply u16_at_bytes. eauto.
    + intros _. split; [done|]. exists (of_be [nh; nl]). split; [|done].
      apply u16_at_bytes. exists nh, nl. rewrite <- H8, <- Nat.add_succ_r, <- H9. done.
Qed.

(** Every entry listed was read. *)
Lemma entries_from_read fuel payload en es :
  entries_from fuel payload en = Ok es -> Forall (entry_read payload) es.
Proof.
  revert en es. induction fuel as [|fuel IH]; intros en es; cbn [entries_from]; [done|].
  unfold entries_next. destruct (en_done en); [intros [= <-]; constructor|].
  destruct (take_slot _) as [[sec rem]|]; [|intros [= <-]; constructor].
  pose proof (entries_step_read payload (en_at en) sec) as Hs.
  intros (e&Ee&H)%bind_Ok. rewrite Ee in Hs. apply bind_Ok in H as (es'&He&[= <-]).
  constructor; [apply Hs|by eapply IH].
Qed.

(** A loop whose body keeps [I] and does not panic does not panic. *)
Lemma for_entries_safe {S} (I : S -> Prop) payload (body : Entry -> S -> walk S) fuel en s :
  (forall e s, entry_read payload e -> I s ->
     match body e s with Ok s' => I s' | Err _ => True | Panic => False end) ->
  (entries_left en < fuel)%nat -> I s ->
  match for_entries fuel payload en body s with Ok s' => I s' | Err _ => True | Panic => False end.
Proof.
  intros Hb. revert en s. induction fuel as [|fuel IH]; intros en s Hf Hs; [lia|]. cbn [for_entries].
  destruct (entries_next payload en) as [[step|] en'] eqn:E; [|done].
  pose proof (entries_next_left _ _ _ _ E) as Hl.
  assert (Hst : match step with Ok e => entry_read payload e | Err _ => True | Panic => False end).
  { unfold entries_next in E. destruct (en_done en); [done|].
    destruct (take_slot _) as [[sec rem]|]; [|done]. injection E as <- _.
    pose proof (entries_step_read payload (en_at en) sec) as Hs'. destruct (entries_step _ _ _); [apply Hs'|done|done]. }
  destruct step as [e|e|]; cbn [mbind res_bind]; [|done|done].
  specialize (Hb e s Hst Hs). destruct (body e s) as [s'|e'|]; cbn [mbind res_bind]; [|done|done].
  apply IH; [lia|done].
Qed.

Lemma each_entry_safe {S} (I : S -> Prop) payload (body : Entry -> S -> walk S) s :
  (forall e s, entry_read payload e -> I s ->
     match body e s with Ok s' => I s' | Err _ => True | Panic => False end) ->
  I s ->
  match each_entry payload body s with Ok s' => I s' | Err _ => True | Panic => False end.
Proof. intros Hb Hs. apply for_entries_safe; [done|lia|done]. Qed.

(** ** Names *)

(** The labels of the name at an offset, pointers followed, and where its
    inline octets end; only octets whose offsets satisfy [P] are read. *)
Inductive name_at (P : nat -> Prop) (m : bytes) : nat -> list bytes -> nat -> Prop :=
  | name_end at_ : m !! at_ = Some 0 -> P at_ -> name_at P m at_ [] (S at_)
  | name_label at_ tag label ls stop :
      m !! at_ = Some tag -> is_label tag = true ->
      get_range (S at_) (S at_ + Z.to_nat tag) m = Some label ->
      (forall i, at_ <= i -> i < S at_ + Z.to_nat tag -> P i)%nat ->
      name_at P m (S at_ + Z.to_nat tag) ls stop -> name_at P m at_ (label :: ls) stop
  | name_pointer at_ tag low ls stop :
      m !! at_ = Some tag -> is_pointer tag = true -> m !! S at_ = Some low ->
      P at_ -> P (S at_) ->
      name_at P m (pointer_target tag low) ls stop -> name_at P m at_ ls (at_ + 2).

Definition anywhere (_ : nat) : Prop := True.

(** A name stays where the octets it reads stay. *)
Lemma name_at_mono (P Q : nat -> Prop) m m' at_ ls stop :
  name_at P m at_ ls stop ->
  (forall i, P i -> (i < length m)%nat -> m' !! i = m !! i /\ Q i) ->
  name_at Q m' at_ ls stop.
Proof.
  intros Hn H. induction Hn as [at_ H0 HP|at_ tag label ls stop Ht Hl Hg HP Hn IH|at_ tag low ls stop Ht Hp Hlow HP1 HP2 Hn IH].
  - destruct (H at_ HP) as [E ?]; [by eapply lookup_lt_Some|]. constructor; [by rewrite E|done].
  - pose proof (lookup_lt_Some _ _ _ Ht) as Hlt. pose proof Hg as (_&Hle&_)%get_range_Some.
    assert (1 <= Z.to_nat tag)%nat by (unfold is_label in Hl; lia).
    destruct (H at_ (HP at_ ltac:(lia) ltac:(lia)) Hlt) as [E ?].
    eapply name_label; [by rewrite E|done| | |exact IH].
    + assert (S at_ + Z.to_nat tag <= length m')%nat as Hle'.
      { destruct (H (at_ + Z.to_nat tag)%nat) as [E' _]; [apply HP; lia|lia|].
        destruct (lookup_lt_is_Some_2 m (at_ + Z.to_nat tag)) as [x Hx]; [lia|].
        rewrite Hx in E'. apply lookup_lt_Some in E'. lia. }
      apply get_range_Some in Hg as (_&_&->). apply get_range_Some. split_and!; [lia|done|].
      apply list_eq. intros i. destruct (decide (i < Z.to_nat tag)%nat) as [Hi|Hi].
      * rewrite !lookup_take_lt, !lookup_drop by lia. symmetry. apply H; [apply HP; lia|lia].
      * rewrite !lookup_take_ge by lia. done.
    + intros i Hi1 Hi2. apply H; [by apply HP|lia].
  - destruct (H at_ HP1) as [E ?]; [by eapply lookup_lt_Some|].
    destruct (H (S at_) HP2) as [E' ?]; [by eapply lookup_lt_Some|].
    eapply name_pointer; [by rewrite E|done|by rewrite E'|done|done|exact IH].
Qed.

Lemma pointer_not_label tag : is_pointer tag = true -> is_label tag = false /\ (tag =? 0) = false.
Proof. unfold is_pointer, is_label. lia. Qed.
Lemma label_not_end tag : is_label tag = true -> (tag =? 0) = false.
Proof. unfold is_label. lia. Qed.

(** A tag is one of an end, a label and a pointer. *)
Ltac tag_clash :=
  try match goal with
  | H : is_label 0 = true |- _ => discriminate H
  | H : is_pointer 0 = true |- _ => discriminate H
  | H : is_label ?t = true, H' : is_pointer ?t = true |- _ =>
      exfalso; clear -H H'; unfold is_label, is_pointer in *; lia
  end.

Lemma name_at_det P Q m at_ ls stop ls' stop' :
  name_at P m at_ ls stop -> name_at Q m at_ ls' stop' -> ls = ls' /\ stop = stop'.
Proof.
  intros H. revert ls' stop'.
  induction H as [at_ H0 HP|at_ tag label ls stop Ht Hl Hg HP Hn IH|at_ tag low ls stop Ht Hp Hlow HP1 HP2 Hn IH];
    intros ls' stop' H'.
  - inversion H'; simplify_eq; done.
  - inversion H'; simplify_eq; tag_clash. edestruct IH as [-> ->]; [eassumption|]. done.
  - inversion H'; simplify_eq; tag_clash. edestruct IH as [-> _]; [eassumption|]. done.
Qed.

(** What the budgeted walk yields is the name. *)
Lemma labels_loop_name budget payload at_ hops len :
  match labels_loop budget payload at_ hops len with
  | Ok (ls, _) => exists stop, name_at anywhere payload at_ ls stop
  | Err _ => True
  | Panic => False
  end.
Proof.
  revert at_ hops len. induction budget as [|budget IH]; intros at_ hops len; cbn [labels_loop]; [done|].
  destruct (payload !! at_) as [tag|] eqn:Ht; cbn [ok_or]; [rewrite bind_ret|done].
  destruct (Z.eqb_spec tag 0) as [-> |_]; [eexists; by constructor|].
  destruct (is_label tag) eqn:Hl.
  - destruct (get_range _ _ _) as [label|] eqn:Hg; cbn [ok_or]; [rewrite bind_ret|done].
    cbv zeta. destruct (_ <=? _)%nat; [done|].
    assert (length label = Z.to_nat tag) as El by (apply get_range_Some in Hg as (_&?&->); len).
    rewrite El. specialize (IH (S at_ + Z.to_nat tag)%nat hops (len + (1 + Z.to_nat tag))%nat).
    destruct (labels_loop _ _ _ _ _) as [[rest b]|e|]; [|done|done].
    destruct IH as (stop&?). exists stop. by eapply name_label.
  - destruct (is_pointer tag) eqn:Hp; [|done].
    destruct (payload !! S at_) as [low|] eqn:Hlow; cbn [ok_or]; [rewrite bind_ret|done].
    cbv zeta. destruct (_ <? _)%nat; [done|].
    specialize (IH (pointer_target tag low) (S hops) len).
    destruct (labels_loop _ _ _ _ _) as [[ls b]|e|]; [|done|done].
    destruct IH as (stop&?). eexists. by eapply name_pointer.
Qed.

Lemma labels_name payload at_ budget ls b :
  labels payload at_ budget = Ok (ls, b) -> exists stop, name_at anywhere payload at_ ls stop.
Proof. intros H. pose proof (labels_loop_name budget payload at_ 0 0) as Hn. unfold labels in H. by rewrite H in Hn. Qed.

Lemma labels_safe payload at_ budget : safe (labels payload at_ budget).
Proof. pose proof (labels_loop_name budget payload at_ 0 0) as Hn. unfold labels. by destruct (labels_loop _ _ _ _ _). Qed.

Lemma check_name_safe payload at_ budget : safe (check_name payload at_ budget).
Proof. unfold check_name. apply bind_safe; [apply labels_safe|]. by intros []. Qed.

Lemma check_names_safe e payload budget : safe (check_names e payload budget).
Proof.
  unfold check_names. apply bind_safe; [apply check_name_safe|intros b _].
  destruct (rdata_names e) as [[off count]|]; [cbn [rn_count rn_offset]|done].
  generalize (rdata e + off)%nat as at_. revert b. induction count as [|count IH]; intros b at_; [done|].
  cbn [check_names_from]. apply bind_safe; [apply check_name_safe|intros b' _].
  apply bind_safe; [apply safe_ok_or|intros at' _]. destruct (_ <? _)%nat; [done|apply IH].
Qed.

(** [skip_name] finds the end of a name's inline octets, in any message long
    enough to hold it. *)
Lemma name_at_skip P m at_ ls stop fuel :
  name_at P m at_ ls stop -> (length m < at_ + fuel)%nat -> skip_name_loop fuel m at_ = Some stop.
Proof.
  intros H. revert fuel.
  induction H as [at_ H0 HP|at_ tag label ls stop Ht Hl Hg HP Hn IH|at_ tag low ls stop Ht Hp Hlow HP1 HP2 Hn IH]; intros fuel Hf.
  - pose proof (lookup_lt_Some _ _ _ H0). destruct fuel as [|fuel]; [lia|]. cbn [skip_name_loop]. by rewrite H0.
  - pose proof (lookup_lt_Some _ _ _ Ht). destruct fuel as [|fuel]; [lia|]. cbn [skip_name_loop].
    rewrite Ht. cbn [mbind option_bind]. rewrite (label_not_end _ Hl), Hl.
    replace (at_ + (1 + Z.to_nat tag))%nat with (S at_ + Z.to_nat tag)%nat by lia. apply IH. lia.
  - pose proof (lookup_lt_Some _ _ _ Ht). destruct fuel as [|fuel]; [lia|]. cbn [skip_name_loop].
    rewrite Ht. cbn [mbind option_bind]. destruct (pointer_not_label _ Hp) as [-> ->].
    by rewrite Hp, Hlow.
Qed.

Lemma skip_name_name P m at_ ls stop : name_at P m at_ ls stop -> skip_name m at_ = Some stop.
Proof. intros H. eapply name_at_skip; [exact H|lia]. Qed.

(** ** Writing names *)

(** A pointer is read back as it was written. *)
Lemma pointer_codes_all :
  forallb (fun hi => forallb (fun lo =>
    match be 2 (Z.lor 49152 (hi * 256 + lo)) with
    | [tag; low] => is_pointer tag && (pointer_target tag low =? Z.to_nat (hi * 256 + lo))%nat
    | _ => false
    end) (seqZ 0 256)) (seqZ 0 64) = true.
Proof. vm_compute. reflexivity. Qed.

Lemma pointer_codes h :
  0 <= h <= 16383 ->
  exists tag low, be 2 (Z.lor 49152 h) = [tag; low] /\ is_pointer tag = true /\ pointer_target tag low = Z.to_nat h.
Proof.
  intros Hh. pose proof pointer_codes_all as H. rewrite forallb_forall in H. specialize (H (h / 256)).
  rewrite <- list_elem_of_In, elem_of_seqZ in H. specialize (H ltac:(dlia)).
  rewrite forallb_forall in H. specialize (H (h mod 256)).
  rewrite <- list_elem_of_In, elem_of_seqZ in H. specialize (H ltac:(dlia)).
  replace (h / 256 * 256 + h mod 256) with h in H by dlia.
  destruct (be 2 (Z.lor 49152 h)) as [|tag [|low [|]]] eqn:E; try discriminate H.
  apply andb_true_iff in H as [? ?%Nat.eqb_eq]. eauto.
Qed.

(** The name placed at [p] in the output is the one at [i] in the message. *)
Definition same_name (P : nat -> Prop) (payload out : bytes) (i p : nat) : Prop :=
  exists ls stop stop', name_at anywhere payload i ls stop /\ name_at P out p ls stop'.
Definition good (P : nat -> Prop) (payload out : bytes) (i : nat) (z : Z) : Prop :=
  0 <= z <= 16383 /\ same_name P payload out i (Z.to_nat z).

Definition placed_ok (P : nat -> Prop) (payload out : bytes) (placed : list Z) : Prop :=
  length placed = length payload /\
  forall i z, placed !! i = Some z -> z <> UNPLACED -> good P payload out i z.

Lemma good_mono (P Q : nat -> Prop) payload out out' i z :
  good P payload out i z ->
  (forall j, P j -> (j < length out)%nat -> out' !! j = out !! j /\ Q j) -> good Q payload out' i z.
Proof.
  intros (Hz&ls&e&e'&H1&H2) H. split; [done|]. exists ls, e, e'. split; [done|]. by eapply name_at_mono.
Qed.

Lemma placed_ok_mono (P Q : nat -> Prop) payload out out' placed :
  placed_ok P payload out placed ->
  (forall j, P j -> (j < length out)%nat -> out' !! j = out !! j /\ Q j) -> placed_ok Q payload out' placed.
Proof. intros [Hl H] Hm. split; [done|]. intros i z Hi Hz. eapply good_mono; [by apply H|exact Hm]. Qed.

Lemma app_agree {A} (l k : list A) (P : nat -> Prop) j :
  P j -> (j < length l)%nat -> (l ++ k) !! j = l !! j /\ P j.
Proof. intros HP Hj. split; [by apply lookup_app_l|done]. Qed.

Lemma get_range_app {A} (l k k' : list A) : get_range (length l) (length l + length k) (l ++ k ++ k') = Some k.
Proof.
  apply get_range_Some. split_and!; [lia|rewrite !length_app; lia|].
  rewrite drop_app_length. rewrite take_app_length'; [done|lia].
Qed.

(** A label chunk of the message: its tag, then the label. *)
Lemma label_chunk payload at_ tag chunk :
  payload !! at_ = Some tag -> is_label tag = true ->
  get_range at_ (at_ + (1 + Z.to_nat tag)) payload = Some chunk ->
  exists label, chunk = tag :: label /\ length label = Z.to_nat tag /\
    get_range (S at_) (S at_ + Z.to_nat tag) payload = Some label.
Proof.
  intros Ht Hl Hg. apply get_range_Some in Hg as (_&Hlen&->).
  replace (at_ + (1 + Z.to_nat tag) - at_)%nat with (S (Z.to_nat tag)) by lia.
  rewrite (drop_S _ _ _ Ht). cbn [take]. eexists. split; [done|]. split; [len|].
  apply get_range_Some. split_and!; [lia|lia|]. f_equal. lia.
Qed.

Lemma write_name_loop_spec (P : nat -> Prop) payload budget at_ start hops o placed' w :
  length placed' = length payload -> (start <= length o)%nat ->
  (forall i, (length o <= i)%nat -> P i) ->
  (forall i z, placed' !! i = Some z -> z <> UNPLACED -> 0 <= z /\ ((Z.to_nat z < start)%nat -> good P payload o i z)) ->
  write_name_loop budget payload at_ start hops o placed' = Ok w ->
  exists ls stop suf, out w = o ++ suf /\ name_at anywhere payload at_ ls stop /\
    name_at P (out w) (length o) ls (length (out w)) /\ length (placed w) = length payload /\
    forall i z, placed w !! i = Some z -> z <> UNPLACED -> placed' !! i = Some z \/ good P payload (out w) i z.
Proof.
  revert at_ hops o placed'. induction budget as [|budget IH]; intros at_ hops o placed' Hlen Hst HP Hg; cbn [write_name_loop]; [done|].
  destruct (Z.eqb_spec (default UNPLACED (placed' !! at_)) UNPLACED) as [Hu|Hu]; cbn [negb].
  2: { (* a name already written *)
    destruct (placed' !! at_) as [here|] eqn:Eh; [|done].
    change (default UNPLACED (Some here)) with here in *.
    destruct (Nat.leb_spec start (Z.to_nat here)); [done|].
    destruct (Hg at_ here Eh Hu) as (_&Hgood). destruct (Hgood ltac:(lia)) as (Hz&ls&e&e'&H1&H2).
    destruct (pointer_codes here Hz) as (tag&low&->&Hp&Ht). intros [= <-]. cbn [out placed].
    exists ls, e, [tag; low]. split_and!; [done|done| |done|auto].
    rewrite length_app. cbn [length]. eapply name_pointer; [| exact Hp | | apply HP; lia | apply HP; lia |].
    - by rewrite list_lookup_middle.
    - rewrite lookup_app_r by lia. by replace (S (length o) - length o)%nat with 1%nat by lia.
    - rewrite Ht. eapply name_at_mono; [exact H2|]. apply app_agree. }
  destruct (payload !! at_) as [tag|] eqn:Ht; cbn [ok_or]; [rewrite bind_ret|done].
  destruct (Z.eqb_spec tag 0) as [-> |Hne].
  { intros [= <-]. cbn [out placed]. exists [], (S at_), [0]. split_and!; [done|by constructor| |done|auto].
    rewrite length_app. cbn [length]. rewrite Nat.add_1_r. constructor; [by rewrite list_lookup_middle|apply HP; lia]. }
  destruct (is_label tag) eqn:Hl.
  - destruct (get_range _ _ _) as [chunk|] eqn:Hc; cbn [ok_or]; [rewrite bind_ret|done].
    destruct (label_chunk _ _ _ _ Ht Hl Hc) as (label&->&Hll&Hlabel).
    intros (pl&Hpl&H)%bind_Ok.
    assert (length pl = length payload /\ forall i z, pl !! i = Some z ->
      placed' !! i = Some z \/ (i = at_ /\ z = Z.of_nat (length o) /\ Z.of_nat (length o) <= 16383)) as (Hpll&Hpls).
    { destruct (Nat.leb_spec (length o) MAX_POINTER_TARGET) as [Hm|Hm].
      - rewrite set_at_ok in Hpl by (rewrite Hlen; by eapply lookup_lt_Some). injection Hpl as <-.
        split; [by rewrite length_insert|]. intros i z [(<-&<-&_)|(_&?)]%list_lookup_insert_Some; [right|by left].
        unfold MAX_POINTER_TARGET in Hm. split_and!; [done|done|lia].
      - injection Hpl as <-. auto. }
    cbn [length] in H.
    apply IH in H as (ls&stop&suf&Eo&Hn1&Hn2&Hpw&Hnew); [|done|rewrite length_app; lia|intros i Hi; rewrite length_app in Hi; apply HP; lia|].
    2: { intros i z Hi Hz. destruct (Hpls i z Hi) as [Hi'|(->&->&_)]; [|lia].
         destruct (Hg i z Hi' Hz) as [Hz0 Hgood]. split; [done|]. intros Hlt.
         eapply good_mono; [by apply Hgood|]. apply app_agree. }
    rewrite Hll in Hn1. replace (at_ + S (Z.to_nat tag))%nat with (S at_ + Z.to_nat tag)%nat in Hn1 by lia.
    assert (Hout : name_at P (out w) (length o) (label :: ls) (length (out w))).
    { rewrite length_app in Hn2. cbn [length] in Hn2. rewrite Hll in Hn2.
      eapply (name_label _ _ _ tag).
      - rewrite Eo, <- app_assoc. cbn [app]. by rewrite list_lookup_middle.
      - done.
      - rewrite Eo, <- Hll. replace (S (length o)) with (length (o ++ [tag])) by (rewrite length_app; cbn; lia).
        replace ((o ++ tag :: label) ++ suf) with ((o ++ [tag]) ++ label ++ suf) by (by rewrite <- !app_assoc).
        apply get_range_app.
      - intros i Hi _. apply HP. lia.
      - by replace (S (length o) + Z.to_nat tag)%nat with (length o + S (Z.to_nat tag))%nat by lia. }
    assert (Hin : name_at anywhere payload at_ (label :: ls) stop) by (by eapply name_label).
    exists (label :: ls), stop, ((tag :: label) ++ suf). split_and!; [by rewrite Eo, app_assoc|done|done|done|].
    intros i z Hi Hz. destruct (Hnew i z Hi Hz) as [Hp|?]; [|by right].
    destruct (Hpls i z Hp) as [?|(->&->&Hm)]; [by left|right].
    split; [lia|]. rewrite Nat2Z.id. by exists (label :: ls), stop, (length (out w)).
  - destruct (is_pointer tag) eqn:Hp; [|done].
    destruct (payload !! S at_) as [low|] eqn:Hlow; cbn [ok_or]; [rewrite bind_ret|done].
    cbv zeta. destruct (_ <? _)%nat; [done|].
    intros H. apply IH in H as (ls&stop&suf&Eo&Hn1&Hn2&Hpw&Hnew); [|done..].
    exists ls, (at_ + 2)%nat, suf. split_and!; [done| |done|done|done]. by eapply name_pointer.
Qed.

Lemma write_name_spec (P : nat -> Prop) payload at_ w w' :
  (forall i, (length (out w) <= i)%nat -> P i) ->
  placed_ok P payload (out w) (placed w) ->
  write_name payload at_ w = Ok w' ->
  exists ls stop suf, out w' = out w ++ suf /\ name_at anywhere payload at_ ls stop /\
    name_at P (out w') (length (out w)) ls (length (out w')) /\ placed_ok P payload (out w') (placed w').
Proof.
  intros HP [Hl Hg] H. apply (write_name_loop_spec P) in H as (ls&stop&suf&Eo&Hn1&Hn2&Hpl&Hnew); [|done|lia|done|].
  - exists ls, stop, suf. split_and!; [done|done|done|split; [done|]].
    intros i z Hi Hz. destruct (Hnew i z Hi Hz) as [Hp|]; [|done].
    eapply good_mono; [by apply Hg|]. rewrite Eo. apply app_agree.
  - intros i z Hi Hz. split; [|intros _; by apply Hg]. destruct (Hg i z Hi Hz) as [? _]. lia.
Qed.

(** ** Records *)

(** A record's content: its owner, its fixed octets, and its rdata as the
    octets around the names that may be compressed. *)
Record Content : Type := {
  c_name : list bytes;
  c_fixed : bytes;
  c_before : bytes;
  c_names : list (list bytes);
  c_after : bytes;
}.

Definition span_at (P : nat -> Prop) (m : bytes) (a b : nat) (s : bytes) : Prop :=
  get_range a b m = Some s /\ forall i, (a <= i)%nat -> (i < b)%nat -> P i.

Inductive names_at (P : nat -> Prop) (m : bytes) : nat -> list (list bytes) -> nat -> Prop :=
  | names_nil at_ : names_at P m at_ [] at_
  | names_cons at_ ls mid names stop :
      name_at P m at_ ls mid -> names_at P m mid names stop -> names_at P m at_ (ls :: names) stop.

Definition rdata_at (P : nat -> Prop) (m : bytes) (ty : Z) (from stop : nat) (c : Content) : Prop :=
  match (if (from <? stop)%nat then rdata_names_of ty else None) with
  | Some nm =>
      exists mid, span_at P m from (from + rn_offset nm) (c_before c) /\
        names_at P m (from + rn_offset nm) (c_names c) mid /\ length (c_names c) = rn_count nm /\
        span_at P m mid stop (c_after c)
  | None => span_at P m from stop (c_before c) /\ c_names c = [] /\ c_after c = []
  end.

(** The record at an offset, from its owner to its end. *)
Definition record_at (P : nat -> Prop) (m : bytes) (question : bool) (at_ : nat) (c : Content) (stop : nat) : Prop :=
  exists fixed, name_at P m at_ (c_name c) fixed /\
    if question then
      span_at P m fixed stop (c_fixed c) /\ stop = (fixed + 4)%nat /\
      c_before c = [] /\ c_names c = [] /\ c_after c = []
    else
      span_at P m fixed (fixed + 8) (c_fixed c) /\
      (exists n, u16_at m (fixed + 8) = Some n /\ P (fixed + 8)%nat /\ P (fixed + 9)%nat /\
         stop = (fixed + 10 + Z.to_nat n)%nat /\ (stop <= length m)%nat) /\
      rdata_at P m (of_be (take 2 (c_fixed c))) (fixed + 10) stop c.

Lemma span_at_mono (P Q : nat -> Prop) m m' a b s :
  span_at P m a b s -> (b <= length m')%nat ->
  (forall i, P i -> (i < length m)%nat -> m' !! i = m !! i /\ Q i) -> span_at Q m' a b s.
Proof.
  intros [Hg HP] Hb H. pose proof Hg as (Hab&Hl&->)%get_range_Some.
  split; [|intros i H1 H2; apply H; [by apply HP|lia]].
  apply get_range_Some. split_and!; [done|done|].
  apply list_eq. intros i. destruct (decide (i < b - a)%nat) as [Hi|Hi].
  - rewrite !lookup_take_lt, !lookup_drop by lia. symmetry. apply H; [apply HP; lia|lia].
  - by rewrite !lookup_take_ge by lia.
Qed.

Lemma names_at_mono (P Q : nat -> Prop) m m' at_ names stop :
  names_at P m at_ names stop ->
  (forall i, P i -> (i < length m)%nat -> m' !! i = m !! i /\ Q i) -> names_at Q m' at_ names stop.
Proof. intros Hn H. induction Hn; econstructor; [by eapply name_at_mono|done]. Qed.

Lemma rdata_at_mono (P Q : nat -> Prop) m m' ty from stop c :
  rdata_at P m ty from stop c -> (length m <= length m')%nat ->
  (forall i, P i -> (i < length m)%nat -> m' !! i = m !! i /\ Q i) -> rdata_at Q m' ty from stop c.
Proof.
  unfold rdata_at. intros Hr Hl H. destruct (if _ : bool then _ else _) as [nm|].
  - destruct Hr as (mid&H1&H2&H3&H4). pose proof H1 as [(_&?&_)%get_range_Some _].
    pose proof H4 as [(_&?&_)%get_range_Some _]. exists mid.
    split_and!; [eapply span_at_mono; [exact H1|lia|done]|by eapply names_at_mono|done|eapply span_at_mono; [exact H4|lia|done]].
  - destruct Hr as (H1&H2). pose proof H1 as [(_&?&_)%get_range_Some _].
    split; [eapply span_at_mono; [exact H1|lia|done]|done].
Qed.

Lemma record_at_mono (P Q : nat -> Prop) m m' q at_ c stop :
  record_at P m q at_ c stop -> (length m <= length m')%nat ->
  (forall i, P i -> (i < length m)%nat -> m' !! i = m !! i /\ Q i) -> record_at Q m' q at_ c stop.
Proof.
  intros (f&Hn&Hr) Hl H. exists f. split; [by eapply name_at_mono|]. destruct q.
  - destruct Hr as (H1&H2). pose proof H1 as [(_&?&_)%get_range_Some _].
    split; [eapply span_at_mono; [exact H1|lia|done]|done].
  - destruct Hr as (H1&(n&Hu&HP1&HP2&Hs&Hm)&H2). pose proof H1 as [(_&?&_)%get_range_Some _].
    split_and!; [eapply span_at_mono; [exact H1|lia|done]| |by eapply rdata_at_mono].
    apply u16_at_bytes in Hu as (hi&lo&Hhi&Hlo&->). replace (S (f + 8)) with (f + 9)%nat in * by lia.
    destruct (H _ HP1) as [E1 ?]; [by eapply lookup_lt_Some|].
    destruct (H _ HP2) as [E2 ?]; [by eapply lookup_lt_Some|].
    exists (of_be [hi; lo]). split_and!; [|done|done|done|lia].
    apply u16_at_bytes. exists hi, lo. replace (S (f + 8)) with (f + 9)%nat by lia. by rewrite E1, E2.
Qed.

Lemma of_be_2 n : 0 <= n <= 65535 -> of_be (be 2 n) = n.
Proof. intros H. rewrite of_be_mod. apply Z.mod_small. change (256 ^ Z.of_nat 2) with 65536. lia. Qed.

(** Appended octets are the span written. *)
Lemma emit_span (P : nat -> Prop) o s :
  (forall i, (length o <= i)%nat -> P i) -> span_at P (o ++ s) (length o) (length (o ++ s)) s.
Proof.
  intros HP. split; [|intros i Hi _; by apply HP]. rewrite length_app.
  pose proof (get_range_app o s []) as H. by rewrite app_nil_r in H.
Qed.

Lemma message_span_Ok payload a b s : message_span payload a b = Ok s <-> get_range a b payload = Some s.
Proof. unfold message_span. apply ok_or_Ok. Qed.

Lemma write_names_spec (P : nat -> Prop) payload count at_ w stop w' :
  (forall i, (length (out w) <= i)%nat -> P i) ->
  placed_ok P payload (out w) (placed w) ->
  write_names count payload at_ w = Ok (stop, w') ->
  exists names suf, out w' = out w ++ suf /\ length names = count /\
    (count <> 0%nat -> suf <> []) /\
    names_at anywhere payload at_ names stop /\ names_at P (out w') (length (out w)) names (length (out w')) /\
    placed_ok P payload (out w') (placed w').
Proof.
  revert at_ w. induction count as [|count IH]; intros at_ w HP Hpl; cbn [write_names].
  - intros [= <- <-]. exists [], []. rewrite app_nil_r. split_and!; try done; constructor.
  - intros (w1&Hw&H)%bind_Ok. apply bind_Ok in H as (at1&Hat%ok_or_Ok&H).
    apply (write_name_spec P) in Hw as (ls&stop1&suf1&Eo1&Hn1&Hn2&Hpl1); [|done..].
    rewrite (skip_name_name _ _ _ _ _ Hn1) in Hat. injection Hat as <-.
    assert (HP1 : forall i, (length (out w1) <= i)%nat -> P i) by (intros i Hi; apply HP; rewrite Eo1, length_app in Hi; lia).
    apply IH in H as (names&suf&Eo&Hl&_&H1&H2&Hpl'); [|done..].
    assert (Hn2' : name_at P (out w') (length (out w)) ls (length (out w1))).
    { eapply name_at_mono; [exact Hn2|]. rewrite Eo. apply app_agree. }
    exists (ls :: names), (suf1 ++ suf). split_and!; [by rewrite Eo, Eo1, app_assoc|by cbn; rewrite Hl| | | |done].
    + intros _. destruct suf1; [|done]. exfalso. rewrite app_nil_r in Eo1. rewrite Eo1 in Hn2.
      clear -Hn2. inversion Hn2 as [? H|? ? ? ? ? H|? ? ? ? ? H]; subst; apply lookup_lt_Some in H; lia.
    + by econstructor.
    + by econstructor.
Qed.

Lemma write_rdata_spec (P : nat -> Prop) payload e w w' :
  (forall i, (length (out w) <= i)%nat -> P i) ->
  placed_ok P payload (out w) (placed w) ->
  write_rdata payload e w = Ok w' ->
  forall n f, exists c suf, c_name c = n /\ c_fixed c = f /\ out w' = out w ++ suf /\
    rdata_at anywhere payload (rtype e) (rdata e) (e_end e) c /\
    rdata_at P (out w') (rtype e) (length (out w)) (length (out w')) c /\
    placed_ok P payload (out w') (placed w').
Proof.
  intros HP Hpl H n f. unfold write_rdata, rdata_names in H.
  destruct (Nat.ltb_spec (rdata e) (e_end e)) as [Hlt|Hge]; [destruct (rdata_names_of (rtype e)) as [nm|] eqn:En|].
  - apply bind_Ok in H as (before&Hb%message_span_Ok&H). apply bind_Ok in H as ([mid w1]&Hw&H).
    apply bind_Ok in H as (after&Ha%message_span_Ok&[= <-]).
    assert (HP1 : forall i, (length (out (emit w before)) <= i)%nat -> P i).
    { intros i Hi. apply HP. cbn [emit out] in Hi. rewrite length_app in Hi. lia. }
    apply (write_names_spec P) in Hw as (names&suf&Eo&Hl&Hne&H1&H2&Hpl1); [|done|].
    2: { eapply placed_ok_mono; [exact Hpl|]. apply app_agree. }
    cbn [emit out] in *. exists (Build_Content n f before names after), (before ++ suf ++ after).
    cbn [c_name c_fixed]. split_and!; [done|done|by rewrite Eo, <- !app_assoc| | |].
    + unfold rdata_at. destruct (Nat.ltb_spec (rdata e) (e_end e)); [|lia]. rewrite En. exists mid.
      cbn [c_before c_names c_after]. by split_and!.
    + assert (Hc : rn_count nm <> 0%nat).
      { clear -En. unfold rdata_names_of in En. cbv zeta beta in En. repeat (destruct (existsb _ _); [by injection En as <-|]). done. }
      specialize (Hne Hc). unfold rdata_at. rewrite Eo.
      destruct (Nat.ltb_spec (length (out w)) (length (((out w ++ before) ++ suf) ++ after))) as [_|Hn];
        [|rewrite !length_app in Hn; destruct suf; [done|cbn in Hn; lia]].
      rewrite En. exists (length ((out w ++ before) ++ suf)). cbn [c_before c_names c_after].
      assert (length before = rn_offset nm) as Hbl by (apply get_range_Some in Hb as (?&?&->); len).
      split_and!; [| |done|].
      * rewrite <- Hbl, <- length_app. eapply span_at_mono; [by apply emit_span|rewrite !length_app; lia|].
        rewrite <- !app_assoc, app_assoc. apply app_agree.
      * rewrite <- Hbl, <- length_app. rewrite Eo in H2. eapply names_at_mono; [exact H2|]. apply app_agree.
      * apply emit_span. intros i Hi. apply HP. rewrite !length_app in Hi. lia.
    + cbn [placed]. eapply placed_ok_mono; [exact Hpl1|]. apply app_agree.
  - apply bind_Ok in H as (data&Hd%message_span_Ok&[= <-]). cbn [emit out placed].
    exists (Build_Content n f data [] []), data. cbn [c_name c_fixed]. unfold rdata_at. rewrite En. cbn [c_before c_names c_after].
    split_and!; try done.
    + by destruct (_ <? _)%nat.
    + destruct (_ <? _)%nat; split_and!; try done; by apply emit_span.
    + eapply placed_ok_mono; [exact Hpl|]. apply app_agree.
  - apply bind_Ok in H as (data&Hd%message_span_Ok&[= <-]). cbn [emit out placed].
    assert (data = []) as -> by (apply get_range_Some in Hd as (?&?&->); by replace (e_end e - rdata e)%nat with 0%nat by lia).
    exists (Build_Content n f [] [] []), []. cbn [c_name c_fixed]. unfold rdata_at. cbn [c_before c_names c_after].
    split_and!; try done.
    + destruct (Nat.ltb_spec (rdata e) (e_end e)); [lia|done].
    + rewrite app_nil_r. destruct (Nat.ltb_spec (length (out w)) (length (out w))); [lia|].
      split_and!; try done. pose proof (emit_span P (out w) [] HP) as Hs. by rewrite app_nil_r in Hs.
    + by rewrite app_nil_r.
Qed.

(** The octets past the header. *)
Definition body_octet (i : nat) : Prop := (DNS_HEADER_LEN <= i)%nat.
Definition is_question (e : Entry) : bool := bool_decide (section e = Question).

Lemma u16_at_app o hi lo s : u16_at (o ++ [hi; lo] ++ s) (length o) = Some (of_be [hi; lo]).
Proof.
  unfold u16_at. change (length o + 2)%nat with (length o + length [hi; lo])%nat.
  by rewrite get_range_app.
Qed.

Lemma u16_at_be o n s : 0 <= n <= 65535 -> u16_at (o ++ be 2 n ++ s) (length o) = Some n.
Proof.
  intros H. pose proof (of_be_2 n H) as E. pose proof (length_be 2 n) as Hl.
  destruct (be 2 n) as [|hi [|lo [|]]]; try discriminate Hl. by rewrite u16_at_app, E.
Qed.

(** The length field written over its placeholder. *)
Lemma patch_length {E} o s n :
  copy_at (E:=E) ((o ++ [0; 0]) ++ s) (length o) (length o + 2) (be 2 n) = Ok (o ++ be 2 n ++ s).
Proof.
  rewrite copy_at_ok.
  - rewrite <- app_assoc, take_app_length. do 3 f_equal.
    rewrite drop_app, drop_ge by lia. by replace (length o + 2 - length o)%nat with 2%nat by lia.
  - lia.
  - rewrite !length_app. cbn [length]. lia.
  - rewrite length_be. lia.
Qed.

Lemma patch_agree o s n j :
  j <> length o -> j <> S (length o) -> (o ++ be 2 n ++ s) !! j = ((o ++ [0; 0]) ++ s) !! j.
Proof.
  intros H1 H2. rewrite <- app_assoc. destruct (decide (j < length o)%nat).
  - by rewrite !lookup_app_l by lia.
  - rewrite !lookup_app_r by lia. rewrite !lookup_app_r by (rewrite ?length_be; cbn [length]; lia).
    by rewrite length_be.
Qed.

Lemma entry_type payload e fx n :
  entry_read payload e -> get_range (e_fixed e) (e_fixed e + n) payload = Some fx -> (2 <= n)%nat ->
  of_be (take 2 fx) = rtype e.
Proof.
  intros He Hg Hn. pose proof (er_type _ _ He) as (hi&lo&Hhi&Hlo&->)%u16_at_bytes. f_equal.
  apply get_range_Some in Hg as (_&_&->).
  rewrite (drop_S _ _ _ Hhi), (drop_S _ _ _ Hlo).
  replace (e_fixed e + n - e_fixed e)%nat with (S (S (n - 2))) by lia. done.
Qed.

Lemma write_entry_spec payload e w w' :
  entry_read payload e -> (DNS_HEADER_LEN <= length (out w))%nat ->
  placed_ok body_octet payload (out w) (placed w) ->
  write_entry payload e w = Ok w' ->
  exists c suf, out w' = out w ++ suf /\ of_be (take 2 (c_fixed c)) = rtype e /\
    record_at anywhere payload (is_question e) (e_name e) c (e_end e) /\
    record_at body_octet (out w') (is_question e) (length (out w)) c (length (out w')) /\
    placed_ok body_octet payload (out w') (placed w').
Proof.
  intros He H12 Hpl H. unfold write_entry in H. apply bind_Ok in H as (w1&Hw&H).
  apply (write_name_spec body_octet) in Hw as (ls&stop&suf1&Eo1&Hn1&Hn2&Hpl1); [|unfold body_octet; lia|done].
  assert (stop = e_fixed e) as ->.
  { pose proof (er_fixed _ _ He) as Hf. rewrite (skip_name_name _ _ _ _ _ Hn1) in Hf. by injection Hf. }
  assert (H1 : (DNS_HEADER_LEN <= length (out w1))%nat) by (rewrite Eo1, length_app; lia).
  unfold is_question. destruct (decide (section e = Question)) as [Hq|Hq].
  - apply bind_Ok in H as (fx&Hfx%message_span_Ok&[= <-]). cbn [emit out placed].
    destruct (er_question _ _ He Hq) as [_ Hend]. rewrite Hend in *.
    assert (length fx = 4%nat) as Hl by (apply get_range_Some in Hfx as (?&?&->); len).
    rewrite bool_decide_true by done.
    exists (Build_Content ls fx [] [] []), (suf1 ++ fx). cbn [c_fixed].
    split_and!; [by rewrite Eo1, app_assoc|by apply (entry_type payload e fx 4); [done|exact Hfx|lia]| | |].
    + exists (e_fixed e). by split_and!.
    + exists (length (out w1)). cbn [c_name]. split.
      { eapply name_at_mono; [exact Hn2|]. apply app_agree. }
      cbn [c_fixed c_before c_names c_after]. split_and!; try done.
      * apply emit_span. unfold body_octet. lia.
      * rewrite length_app. lia.
    + eapply placed_ok_mono; [exact Hpl1|]. apply app_agree.
  - apply bind_Ok in H as (fx&Hfx%message_span_Ok&H). cbv zeta in H. cbn [emit out placed] in H.
    set (o1 := out w1 ++ fx) in *. set (L := length o1) in *.
    assert (length fx = 8%nat) as Hl by (apply get_range_Some in Hfx as (?&?&->); len).
    assert (HL : L = (length (out w1) + 8)%nat) by (unfold L, o1; rewrite length_app; lia).
    apply bind_Ok in H as (w2&Hw2&H).
    set (P := fun i => body_octet i /\ i <> L /\ i <> S L).
    assert (HP : forall i, body_octet i -> (i < L)%nat -> P i) by (intros i ? ?; unfold P; split_and!; [done|lia..]).
    apply (write_rdata_spec P) with (n := ls) (f := fx) in Hw2
      as (c&suf2&Hcn&Hcf&Eo2&Hr1&Hr2&Hpl2); cbn [emit out placed] in *.
    2: { unfold P, body_octet. rewrite !length_app. intros i Hi. fold L in Hi. cbn [length] in Hi. lia. }
    2: { eapply placed_ok_mono; [exact Hpl1|]. intros j Hj Hlt. unfold o1. rewrite <- !app_assoc.
         split; [by apply lookup_app_l|apply HP; [done|lia]]. }
    assert (Hlen2 : length (out w2) = (L + 2 + length suf2)%nat) by (rewrite Eo2, !length_app; fold L; cbn [length]; lia).
     rewrite Hlen2 in H. replace (L + 2 + length suf2 - L - 2)%nat with (length suf2) in H by lia.
    destruct (Z.ltb_spec 65535 (Z.of_nat (length suf2))); [done|].
    rewrite Eo2 in H. unfold L in H at 1 2. rewrite patch_length, bind_ret in H.
    match type of H with Ok ?x = _ => assert (w' = x) as -> by congruence end. clear H. cbn [out placed]. set (n := Z.of_nat (length suf2)) in *.
    assert (Hagree : forall j, P j -> (j < length (out w2))%nat -> (o1 ++ be 2 n ++ suf2) !! j = out w2 !! j /\ body_octet j).
    { intros j (Hb&Hj1&Hj2) _. rewrite Eo2. split; [|done]. by apply patch_agree. }
    assert (Hlen : length (o1 ++ be 2 n ++ suf2) = length (out w2)).
    { rewrite Hlen2, !length_app, length_be. fold L. lia. }
    rewrite bool_decide_false by done. exists c, (suf1 ++ fx ++ be 2 n ++ suf2).
    assert (Hty : of_be (take 2 (c_fixed c)) = rtype e) by (rewrite Hcf; apply (entry_type payload e fx 8); [done|exact Hfx|lia]).
    destruct (er_record _ _ He Hq) as (Hrd&k&Hk&Hend). pose proof (er_end _ _ He) as (_&Hle).
    split_and!; [unfold o1; by rewrite Eo1, <- !app_assoc|done| | |].
    + exists (e_fixed e). rewrite Hcn, Hcf. split; [done|]. split_and!; [by split| |].
      * exists k. rewrite <- Hrd. by split_and!.
      * rewrite <- Hcf, Hty, <- Hrd. done.
    + exists (length (out w1)). rewrite Hcn, Hcf. split.
      { eapply name_at_mono; [exact Hn2|]. unfold o1. rewrite <- app_assoc. apply app_agree. }
      split_and!.
      * rewrite <- Hl, <- length_app. fold o1. eapply (span_at_mono body_octet); [apply emit_span; unfold body_octet; lia| |apply app_agree].
        rewrite !length_app. lia.
      * exists n. replace (length (out w1) + 8)%nat with L by lia. split_and!; [|unfold body_octet; lia..| |lia].
        -- apply u16_at_be. unfold n. lia.
        -- rewrite Hlen, Hlen2. unfold n. lia.
      * rewrite <- Hcf, Hty. rewrite Hlen.
        replace (length (out w1) + 10)%nat with (length (o1 ++ [0; 0])) by (rewrite length_app; fold L; cbn [length]; lia).
        eapply rdata_at_mono; [exact Hr2|lia|exact Hagree].
    + eapply placed_ok_mono; [exact Hpl2|exact Hagree].
Qed.
