(* ===== verification/DnsTrim.v ===== *)
(** The re-encoding of a DNS message ([Trimmer::trim]): it never panics, and
    what it writes is walked back as exactly the records it selected. *)

From Stdlib Require Import Sorted.
From S2P Require Import Prelude Text Addr Mdns DnsMessage DnsSpec MdnsFilters.

Local Open Scope Z_scope.

(** ** No panic *)

(** What a writer keeps: a slot per octet of the message, and an output that
    only grows. *)
Definition writer_ok (payload : bytes) (n : nat) (w : Writer) : Prop :=
  length (placed w) = length payload /\ (n <= length (out w))%nat.

Definition keeps_writer (payload : bytes) (n : nat) (r : walk Writer) : Prop :=
  match r with Ok w => writer_ok payload n w | Err _ => True | Panic => False end.

Lemma writer_ok_le payload n m w : writer_ok payload m w -> (n <= m)%nat -> writer_ok payload n w.
Proof. unfold writer_ok. intros [? ?] ?. split; [done|lia]. Qed.

Lemma emit_ok payload n w s : writer_ok payload n w -> writer_ok payload (n + length s) (emit w s).
Proof. unfold writer_ok, emit. cbn. rewrite length_app. intros [? ?]. split; [done|lia]. Qed.

Lemma keeps_writer_bind payload n m r (f : Writer -> walk Writer) :
  keeps_writer payload n r -> (forall w, writer_ok payload n w -> keeps_writer payload m (f w)) ->
  keeps_writer payload m (r ≫= f).
Proof. destruct r; cbn; auto. Qed.

Lemma keeps_writer_ok_or {A} payload n (o : option A) (f : A -> walk Writer) :
  (forall a, o = Some a -> keeps_writer payload n (f a)) -> keeps_writer payload n (ok_or o malformed ≫= f).
Proof. destruct o; cbn; auto. Qed.

Lemma write_name_loop_writer payload budget at_ start hops o pl n :
  length pl = length payload -> (n <= length o)%nat ->
  keeps_writer payload n (write_name_loop budget payload at_ start hops o pl).
Proof.
  revert at_ hops o pl. induction budget as [|budget IH]; intros at_ hops o pl Hl Hn; cbn [write_name_loop]; [done|].
  destruct (negb _).
  { destruct (_ <=? _)%nat; [done|]. split; [done|]. cbn [out]. rewrite length_app. lia. }
  apply keeps_writer_ok_or. intros tag Ht. destruct (tag =? 0).
  { split; [done|]. cbn [out]. rewrite length_app. lia. }
  destruct (is_label tag).
  - apply keeps_writer_ok_or. intros label _.
    assert (at_ < length pl)%nat by (rewrite Hl; by eapply lookup_lt_Some).
    destruct (_ <=? _)%nat; [rewrite set_at_ok by done|]; rewrite bind_ret;
      (apply IH; [by rewrite ?length_insert|rewrite length_app; lia]).
  - destruct (is_pointer tag); [|done]. apply keeps_writer_ok_or. intros low _.
    cbv zeta. destruct (_ <? _)%nat; [done|]. by apply IH.
Qed.

Lemma write_name_writer payload at_ w n : writer_ok payload n w -> keeps_writer payload n (write_name payload at_ w).
Proof. intros [? ?]. by apply write_name_loop_writer. Qed.

Lemma write_names_writer payload count at_ w n :
  writer_ok payload n w ->
  match write_names count payload at_ w with Ok (_, w') => writer_ok payload n w' | Err _ => True | Panic => False end.
Proof.
  revert at_ w. induction count as [|count IH]; intros at_ w Hw; cbn [write_names]; [done|].
  pose proof (write_name_writer payload at_ w n Hw) as H.
  destruct (write_name payload at_ w) as [w1|e|]; cbn [mbind res_bind]; [|done|done].
  destruct (skip_name payload at_); cbn [ok_or mbind res_bind]; [by apply IH|done].
Qed.

Lemma write_rdata_writer payload e w n : writer_ok payload n w -> keeps_writer payload n (write_rdata payload e w).
Proof.
  intros Hw. unfold write_rdata. destruct (rdata_names e) as [nm|].
  - cbv zeta. apply keeps_writer_ok_or. intros before _.
    pose proof (write_names_writer payload (rn_count nm) (rdata e + rn_offset nm) (emit w before) n) as H.
    destruct (write_names _ _ _ _) as [[mid w1]|e1|]; cbn [mbind res_bind]; [|done|].
    + apply keeps_writer_ok_or. intros after _. eapply writer_ok_le; [apply emit_ok, H|lia].
      eapply writer_ok_le; [by apply emit_ok|lia].
    + apply H. eapply writer_ok_le; [by apply emit_ok|lia].
  - apply keeps_writer_ok_or. intros data _. eapply writer_ok_le; [by apply emit_ok|lia].
Qed.

Lemma write_entry_writer payload e w n : writer_ok payload n w -> keeps_writer payload n (write_entry payload e w).
Proof.
  intros Hw. unfold write_entry. eapply keeps_writer_bind; [by apply write_name_writer|].
  clear w Hw. intros w Hw. destruct (decide _).
  - apply keeps_writer_ok_or. intros fx _. eapply writer_ok_le; [by apply emit_ok|lia].
  - apply keeps_writer_ok_or. intros fx _. cbv zeta.
    set (w1 := emit w fx). set (L := length (out w1)).
    assert (Hw1 : writer_ok payload L w1) by (split; [apply Hw|done]).
    eapply keeps_writer_bind; [apply write_rdata_writer, (emit_ok _ _ _ [0; 0] Hw1)|].
    intros w2 [Hl2 H2]. cbn [length] in H2. destruct (65535 <? _); [done|].
    rewrite copy_at_ok by (rewrite ?length_be; lia). rewrite bind_ret. split; [done|]. cbn [out].
    rewrite !length_app, length_take, length_be, length_drop. destruct Hw as [_ Hw].
    assert (n <= L)%nat by (unfold L, w1; cbn [emit out]; rewrite length_app; lia). lia.
Qed.

(** What the loop of [trim] keeps. *)
Definition trim_ok (payload : bytes) (t : Trim) : Prop :=
  writer_ok payload DNS_HEADER_LEN (tr_writer t) /\ length (tr_counts t) = 4%nat.

Definition keeps_trim (payload : bytes) (r : walk Trim) : Prop :=
  match r with Ok t => trim_ok payload t | Err _ => True | Panic => False end.

Lemma counts_idx {A} (counts : list A) s :
  length counts = 4%nat -> exists n, idx (E:=Malformed) counts (section_index s) = Ok n /\ counts !! section_index s = Some n.
Proof. intros H. destruct (idx_lookup (E:=Malformed) counts (section_index s)) as (n&?&?); [destruct s; cbn; lia|eauto]. Qed.

Lemma refill_entry_ok payload refill e t : trim_ok payload t -> keeps_trim payload (refill_entry payload refill e t).
Proof.
  intros [Hw Hc]. unfold refill_entry. destruct (refills refill e); [|by split].
  pose proof (write_entry_writer payload e _ _ Hw) as H.
  destruct (write_entry _ _ _) as [w|err|]; cbn [mbind res_bind]; [|done|done].
  destruct (counts_idx (tr_counts t) Answer Hc) as (n&->&_). rewrite bind_ret.
  destruct (_ <? _); [|done]. split; [exact H|]. cbn [tr_counts]. by rewrite length_insert.
Qed.

Lemma trim_select_ok payload keep refill e t :
  (forall e b, safe (keep e b)) -> trim_ok payload t -> keeps_trim payload (trim_select payload keep refill e t).
Proof.
  intros Hk [Hw Hc]. unfold trim_select. destruct (_ && _); [by split|]. specialize (Hk e (w_budget (tr_writer t))).
  destruct (keep _ _) as [[k b]|err|]; cbn [mbind res_bind]; [|done|done]. cbv zeta.
  destruct (negb k); [by split|].
  pose proof (write_entry_writer payload e {| out := out (tr_writer t); placed := placed (tr_writer t); w_budget := b |} _ Hw) as H.
  destruct (write_entry _ _ _) as [w|err|]; cbn [mbind res_bind]; [|done|done].
  split; [exact H|]. cbn [tr_counts]. unfold bump. by rewrite length_alter.
Qed.

Lemma trim_answers_ok payload refill e t : trim_ok payload t -> keeps_trim payload (trim_answers payload refill e t).
Proof.
  intros Ht. unfold trim_answers. destruct (_ && _); [|done].
  destruct (counts_idx (tr_counts t) Answer (proj2 Ht)) as (n&->&_). rewrite bind_ret. cbv zeta.
  destruct (n =? 0); [|done]. apply each_entry_safe; [|exact Ht].
  intros e' s _ Hs. by apply refill_entry_ok.
Qed.

Lemma trim_entry_ok payload keep refill e t :
  (forall e b, safe (keep e b)) -> trim_ok payload t -> keeps_trim payload (trim_entry payload keep refill e t).
Proof.
  intros Hk Ht. unfold trim_entry. pose proof (trim_answers_ok payload refill e t Ht) as H.
  destruct (trim_answers _ _ _ _) as [t1|err|]; [|done|done]. rewrite bind_ret. by apply trim_select_ok.
Qed.

Lemma write_counts_safe fields o :
  Forall (fun f => (f.2 + 2 <= length o)%nat) fields -> safe (write_counts fields o).
Proof.
  revert o. induction fields as [|[c at_] fields IH]; intros o H; cbn [write_counts]; [done|].
  apply Forall_cons in H as [H1 H]. cbn in H1. rewrite copy_at_ok by (rewrite ?length_be; lia). rewrite bind_ret.
  apply IH. eapply Forall_impl; [exact H|]. intros f ?.
  rewrite !length_app, length_take, length_be, length_drop. cbn in *. lia.
Qed.

Lemma trim_safe payload keep refill : (forall e b, safe (keep e b)) -> safe (trim payload keep refill).
Proof.
  intros Hk. unfold trim. destruct (get_range 0 DNS_HEADER_LEN payload) as [header|] eqn:Hh; [|done].
  cbn [ok_or]. rewrite bind_ret.
  pose proof (get_range_length _ _ _ _ Hh) as Hl.
  pose proof (each_entry_safe (trim_ok payload) payload (trim_entry payload keep refill)
    {| tr_writer := {| out := header; placed := replicate (length payload) UNPLACED; w_budget := for_message payload |};
       tr_counts := [0; 0; 0; 0]; tr_removed := 0; tr_answered := false; tr_refilled := false |}) as H.
  destruct (each_entry _ _ _) as [t|err|]; cbn [mbind res_bind]; [|done|].
  - destruct H as [[_ Ho] Hc]; [intros; by apply trim_entry_ok| |].
    { split; [|done]. split; cbn; [by rewrite length_replicate|lia]. }
    destruct (_ <? _)%nat; [done|]. apply bind_safe; [|done]. apply write_counts_safe.
    assert (12 <= length (out (tr_writer t)))%nat by done.
    destruct (tr_counts t) as [|a [|b [|c [|d [|]]]]]; try done. cbn [zip zip_with].
    repeat constructor; cbn; lia.
  - exfalso. apply H; [intros; by apply trim_entry_ok|]. split; [|done]. split; cbn; [by rewrite length_replicate|lia].
Qed.

(** ** The walk of a message *)

(** The sections the counts of a header announce, in order. *)
Definition expand (remaining : list (DnsSection * nat)) : list DnsSection :=
  mjoin ((fun x => replicate x.2 x.1) <$> remaining).

(** The entries one after the other from an offset. *)
Inductive walked (payload : bytes) : nat -> list Entry -> Prop :=
  | walked_nil at_ : walked payload at_ []
  | walked_cons at_ e es :
      entries_step payload at_ (section e) = Ok e -> walked payload (e_end e) es -> walked payload at_ (e :: es).

Lemma take_slot_expand remaining :
  match take_slot remaining with
  | None => expand remaining = []
  | Some (s, remaining') => expand remaining = s :: expand remaining'
  end.
Proof.
  unfold expand. induction remaining as [|[s [|n]] rem IH]; cbn [take_slot]; [done| |done].
  destruct (take_slot rem) as [[s' rem']|]; cbn [mbind option_bind] in *; exact IH.
Qed.

(** The walk of [Entries] is the entries the counts announce. *)
Lemma entries_from_walked fuel payload en es :
  en_done en = false -> (entries_left en < fuel)%nat ->
  entries_from fuel payload en = Ok es <->
  section <$> es = expand (en_remaining en) /\ walked payload (en_at en) es.
Proof.
  revert en es. induction fuel as [|fuel IH]; intros en es Hd Hf; [lia|]. cbn [entries_from].
  pose proof (entries_next_left payload en) as Hleft. unfold entries_next in *. rewrite Hd in *.
  pose proof (take_slot_expand (en_remaining en)) as Hx.
  destruct (take_slot (en_remaining en)) as [[sec rem]|]; rewrite Hx.
  - specialize (Hleft _ _ eq_refl).
    pose proof (entries_step_read payload (en_at en) sec) as Hs.
    destruct (entries_step payload (en_at en) sec) as [e|err|] eqn:Est; cbn [mbind res_bind]; [|split; [done|]|done].
    + destruct Hs as (Hsec&_&_). rewrite bind_Ok. split.
      * intros (es'&He&[= <-]). apply IH in He as [H1 H2]; [|done|lia]. cbn [en_remaining en_at] in *.
        split; [cbn; by rewrite Hsec, H1|]. constructor; [by rewrite Hsec|done].
      * intros [H1 H2]. inversion H2 as [at' E1 E2|at' e' es' He Hw E1 E2]; subst; [done|]. cbn in H1. injection H1 as H3 H1.
        rewrite H3, Est in He. injection He as <-. exists es'. split; [|done].
        apply IH; [done|lia|done].
    + intros [H1 H2]. inversion H2 as [at' E1 E2|at' e' es' He Hw E1 E2]; subst; [done|]. cbn in H1. injection H1 as H3 H1.
      by rewrite H3, Est in He.
  - split; [intros [= <-]; split; [done|constructor]|]. intros [H _]. by apply fmap_nil_inv in H as ->.
Qed.

(** What a header announces. *)
Definition header_count (payload : bytes) (at_ : nat) : nat := Z.to_nat (default 0 (u16_at payload at_)).
Definition header_sections (payload : bytes) : list DnsSection :=
  expand [(Question, header_count payload QDCOUNT_AT); (Answer, header_count payload ANCOUNT_AT);
          (Authority, header_count payload NSCOUNT_AT); (Additional, header_count payload ARCOUNT_AT)].

Lemma entry_list_walked payload es :
  (DNS_HEADER_LEN <= length payload)%nat ->
  entry_list payload = Ok es <->
  section <$> es = header_sections payload /\ walked payload DNS_HEADER_LEN es.
Proof.
  intros Hl. unfold entry_list. cbv zeta. apply entries_from_walked; [|lia].
  unfold entries_new. cbn [en_done]. by apply Nat.ltb_ge.
Qed.

(** A record is what a step of the walk reads. *)
Lemma record_step P m at_ c stop s :
  record_at P m (bool_decide (s = Question)) at_ c stop ->
  exists e, entries_step m at_ s = Ok e /\ section e = s /\ e_name e = at_ /\ e_end e = stop.
Proof.
  intros (fx&Hn&H). unfold entries_step. rewrite (skip_name_name _ _ _ _ _ Hn). cbn [ok_or]. rewrite bind_ret.
  destruct (decide (s = Question)) as [Hq|Hq].
  - rewrite bool_decide_true in H by done. destruct H as ([Hg _]&->&_). rewrite Hg. cbn [ok_or]. rewrite !bind_ret.
    apply get_range_Some in Hg as (_&Hl&_).
    destruct (idx_lookup (E:=Malformed) m fx) as (hi&Hhi&->); [lia|].
    destruct (idx_lookup (E:=Malformed) m (S fx)) as (lo&Hlo&->); [lia|].
    rewrite !bind_ret. eexists. by split_and!.
  - rewrite bool_decide_false in H by done. destruct H as (_&(n&Hu&_&_&->&Hle)&_).
    destruct (get_range fx (fx + 10) m) as [hd|] eqn:Hg.
    2: { unfold get_range in Hg. case_decide; [done|lia]. }
    cbn [ok_or]. rewrite bind_ret.
    apply u16_at_bytes in Hu as (hi&lo&Hhi&Hlo&->).
    pose proof (get_range_lookup m _ _ hd 8 Hg ltac:(lia)) as H8. rewrite Hhi in H8.
    pose proof (get_range_lookup m _ _ hd 9 Hg ltac:(lia)) as H9.
    replace (fx + 9)%nat with (S (fx + 8)) in H9 by lia. rewrite Hlo in H9.
    rewrite (proj2 (idx_Ok hd 8 hi)) by done. rewrite (proj2 (idx_Ok hd 9 lo)) by done. rewrite !bind_ret. cbv zeta.
    destruct (Nat.ltb_spec (length m) (fx + 10 + Z.to_nat (of_be [hi; lo]))); [lia|]. rewrite bind_ret.
    destruct (idx_lookup (E:=Malformed) m fx) as (thi&_&->); [lia|].
    destruct (idx_lookup (E:=Malformed) m (S fx)) as (tlo&_&->); [lia|].
    rewrite !bind_ret. eexists. by split_and!.
Qed.

(** An entry of [payload] and one of [m] with the same content. *)
Definition same_record (payload : bytes) (e : Entry) (m : bytes) (e' : Entry) : Prop :=
  exists c, record_at anywhere payload (is_question e) (e_name e) c (e_end e) /\
    record_at anywhere m (is_question e') (e_name e') c (e_end e').

(** The entries of [sel] written one after the other, each under the section
    paired with it. *)
Inductive recorded (payload m : bytes) : nat -> list (DnsSection * Entry) -> nat -> Prop :=
  | recorded_nil at_ : recorded payload m at_ [] at_
  | recorded_cons at_ s e c mid sel stop :
      bool_decide (s = Question) = is_question e ->
      record_at anywhere payload (is_question e) (e_name e) c (e_end e) ->
      record_at body_octet m (is_question e) at_ c mid ->
      recorded payload m mid sel stop -> recorded payload m at_ ((s, e) :: sel) stop.

Lemma recorded_walked payload m at_ sel stop :
  recorded payload m at_ sel stop ->
  exists es, section <$> es = fst <$> sel /\ walked m at_ es /\
    Forall2 (fun x e' => same_record payload x.2 m e') sel es.
Proof.
  induction 1 as [at_|at_ s e c mid sel stop Hq H1 H2 _ (es&Hs&Hw&Hf)].
  - exists []. split_and!; [done|constructor..].
  - pose proof H2 as H3. rewrite <- Hq in H2. apply record_step in H2 as (e'&He&Hse&Hn&Hend).
    exists (e' :: es). split_and!.
    + cbn. by rewrite Hs, Hse.
    + constructor; [by rewrite Hse|by rewrite Hend].
    + constructor; [|done]. exists c. cbn [snd]. split; [done|].
      rewrite Hn, Hend. assert (is_question e' = is_question e) as -> by (unfold is_question at 1; by rewrite Hse).
      eapply record_at_mono; [exact H3|done|]. by split.
Qed.

Lemma recorded_mono payload m m' at_ sel stop :
  recorded payload m at_ sel stop -> (length m <= length m')%nat ->
  (forall i, body_octet i -> (i < length m)%nat -> m' !! i = m !! i) -> recorded payload m' at_ sel stop.
Proof.
  intros H Hl Ha. induction H; econstructor; try done.
  eapply record_at_mono; [eassumption|done|]. intros i Hb Hi. split; [by apply Ha|done].
Qed.

Lemma recorded_snoc payload m at_ sel s e c mid stop :
  recorded payload m at_ sel mid ->
  bool_decide (s = Question) = is_question e ->
  record_at anywhere payload (is_question e) (e_name e) c (e_end e) ->
  record_at body_octet m (is_question e) mid c stop ->
  recorded payload m at_ (sel ++ [(s, e)]) stop.
Proof. intros H ???. induction H; cbn [app]; econstructor; try done; [constructor|by apply IHrecorded]. Qed.

(** ** The selection *)

(** The entries of [es] that are kept, where [K e k] says that [keep] answers
    [k] on [e]. *)
Inductive kept (K : Entry -> bool -> Prop) : list Entry -> list Entry -> Prop :=
  | kept_nil : kept K [] []
  | kept_keep e es sel : K e true -> kept K es sel -> kept K (e :: es) (e :: sel)
  | kept_drop e es sel : K e false -> kept K es sel -> kept K (e :: es) sel.

Definition own (sel : list Entry) : list (DnsSection * Entry) := (fun e => (section e, e)) <$> sel.
Definition early (e : Entry) : bool := negb (past_answers (section e)).
Definition is_answer (e : Entry) : bool := bool_decide (section e = Answer).

(** What [trim] writes of the entries [es]: the kept ones, but when no answer
    is kept, the first entry past the answers brings in the refills as answers
    in their stead. *)
Definition selection (K : Entry -> bool -> Prop) (refill : Entry -> bool) (es : list Entry)
    (sel : list (DnsSection * Entry)) : Prop :=
  exists head tail, kept K (List.filter early es) head /\
    if existsb is_answer head then
      kept K (List.filter (fun e => negb (early e)) es) tail /\ sel = own head ++ own tail
    else
      kept K (List.filter (fun e => negb (early e) && negb (refill e)) es) tail /\
      sel = own head ++ (pair Answer <$> List.filter (refills refill) es) ++ own tail.

Lemma kept_app K es1 es2 s1 s2 : kept K es1 s1 -> kept K es2 s2 -> kept K (es1 ++ es2) (s1 ++ s2).
Proof. induction 1; cbn [app]; intros; [done| |]; constructor; auto. Qed.

Lemma kept_app_inv K es1 es2 s : kept K (es1 ++ es2) s -> exists s1 s2, s = s1 ++ s2 /\ kept K es1 s1 /\ kept K es2 s2.
Proof.
  revert s. induction es1 as [|e es1 IH]; intros s H; cbn [app] in H.
  - exists [], s. split_and!; [done|constructor|done].
  - inversion H as [|? ? sel HK Hk|? ? sel HK Hk]; subst; apply IH in Hk as (s1&s2&->&H1&H2).
    + exists (e :: s1), s2. split_and!; [done|by constructor|done].
    + exists s1, s2. split_and!; [done|by constructor|done].
Qed.

(** The kept entries answer [true], the others [false]. *)
Lemma kept_In K es sel e : kept K es sel -> e ∈ sel -> e ∈ es /\ K e true.
Proof.
  induction 1 as [|e' es sel HK _ IH|e' es sel HK _ IH]; intros H; [by apply not_elem_of_nil in H| |].
  - apply elem_of_cons in H as [-> |H]; [split; [constructor|done]|].
    destruct (IH H). split; [by constructor|done].
  - destruct (IH H). split; [by constructor|done].
Qed.

Lemma kept_dropped K es sel e : kept K es sel -> e ∈ es -> K e true \/ K e false.
Proof.
  induction 1 as [|e' es sel HK _ IH|e' es sel HK _ IH]; intros H; [by apply not_elem_of_nil in H| |];
    apply elem_of_cons in H as [-> |H]; auto.
Qed.

(** ** Counts *)

Definition count_of (s : DnsSection) (l : list DnsSection) : nat := length (List.filter (fun x => bool_decide (x = s)) l).

Lemma count_of_app s l k : count_of s (l ++ k) = (count_of s l + count_of s k)%nat.
Proof. unfold count_of. by rewrite List.filter_app, length_app. Qed.

Lemma count_of_cons s x l : count_of s (x :: l) = ((if decide (x = s) then 1 else 0) + count_of s l)%nat.
Proof. unfold count_of. cbn [List.filter]. case_decide; [rewrite bool_decide_true by done|rewrite bool_decide_false by done]; done. Qed.

Lemma count_of_replicate s n x : count_of s (replicate n x) = if decide (x = s) then n else 0%nat.
Proof. induction n as [|n IH]; cbn [replicate]; [by case_decide|]. rewrite count_of_cons, IH. by case_decide. Qed.

Lemma count_of_kept K es sel s : kept K es sel -> (count_of s (section <$> sel) <= count_of s (section <$> es))%nat.
Proof. induction 1; cbn [fmap list_fmap]; rewrite ?count_of_cons; lia. Qed.

Lemma section_index_inj s s' : section_index s = section_index s' -> s = s'.
Proof. by destruct s, s'. Qed.

(** The counts, as the [u16]s the loop keeps. *)
Definition counted (sel : list (DnsSection * Entry)) (counts : list Z) : Prop :=
  length counts = 4%nat /\
  forall s, counts !! section_index s = Some (Z.of_nat (count_of s (fst <$> sel)) mod 65536).

Lemma count_of_snoc s (sel : list (DnsSection * Entry)) s' e :
  count_of s (fst <$> (sel ++ [(s', e)])) = (count_of s (fst <$> sel) + if decide (s' = s) then 1 else 0)%nat.
Proof. rewrite fmap_app, count_of_app. cbn [fmap list_fmap fst]. rewrite count_of_cons. cbn. lia. Qed.

Lemma counted_bump sel counts s e : counted sel counts -> counted (sel ++ [(s, e)]) (bump counts s).
Proof.
  intros [Hl H]. split; [unfold bump; by rewrite length_alter|]. intros s'. unfold bump. rewrite count_of_snoc.
  case_decide as Hs.
  - subst s'. rewrite list_lookup_alter, H, decide_True by done. cbn [fmap option_fmap option_map].
    rewrite Z.add_mod_idemp_l by done. do 2 f_equal. lia.
  - rewrite list_lookup_alter_ne, H by (intros E; by apply Hs, section_index_inj). do 3 f_equal. lia.
Qed.

(** One more, without wrapping. *)
Lemma counted_next sel counts s e n :
  counted sel counts -> Z.of_nat (count_of s (fst <$> sel)) <= 65535 -> counts !! section_index s = Some n -> n + 1 < 65536 ->
  counted (sel ++ [(s, e)]) (<[section_index s := n + 1]> counts) /\
  Z.of_nat (count_of s (fst <$> (sel ++ [(s, e)]))) <= 65535.
Proof.
  intros [Hl H] Hb Hn Hlt. rewrite H in Hn. injection Hn as <-. rewrite Z.mod_small in * by lia.
  split; [|rewrite count_of_snoc; case_decide; lia].
  split; [by rewrite length_insert|]. intros s'. rewrite count_of_snoc. destruct (decide (s = s')) as [<- |Hs].
  - rewrite list_lookup_insert_eq by (rewrite Hl; destruct s; cbn; lia). rewrite Z.mod_small by lia. f_equal. lia.
  - rewrite list_lookup_insert_ne by (intros E; by apply Hs, section_index_inj). rewrite H. do 3 f_equal. lia.
Qed.

(** ** The loop of [trim] *)

(** What is written so far. *)
Definition written (payload : bytes) (sel : list (DnsSection * Entry)) (w : Writer) : Prop :=
  (DNS_HEADER_LEN <= length (out w))%nat /\
  placed_ok body_octet payload (out w) (placed w) /\
  recorded payload (out w) DNS_HEADER_LEN sel (length (out w)) /\
  take DNS_HEADER_LEN (out w) = take DNS_HEADER_LEN payload.

Definition at_work (payload : bytes) (sel : list (DnsSection * Entry)) (t : Trim) : Prop :=
  written payload sel (tr_writer t) /\ counted sel (tr_counts t).

Lemma written_entry payload sel s e w w' :
  entry_read payload e -> bool_decide (s = Question) = is_question e -> written payload sel w ->
  write_entry payload e w = Ok w' -> written payload (sel ++ [(s, e)]) w'.
Proof.
  intros He Hq (H12&Hpl&Hr&Ht) H.
  apply write_entry_spec in H as (c&suf&Eo&_&H1&H2&Hpl'); [|done..].
  unfold written. rewrite Eo in *. split_and!.
  - rewrite length_app. lia.
  - done.
  - eapply recorded_snoc; [|exact Hq|exact H1|exact H2].
    eapply recorded_mono; [exact Hr|rewrite length_app; lia|]. intros i _ Hi. by apply lookup_app_l.
  - by rewrite take_app_le.
Qed.

Lemma own_question e : bool_decide (section e = Question) = is_question e.
Proof. done. Qed.

Section loop.
Context (payload : bytes) (keep : Entry -> nat -> walk (bool * nat)) (refill : Entry -> bool).
Context (K : Entry -> bool -> Prop).
Hypothesis keep_K : forall e b k b', entry_read payload e -> keep e b = Ok (k, b') -> K e k.

(** The entries a turn looks at. *)
Definition looked_at (refilled : bool) (e : Entry) : bool := negb (refilled && refills refill e).

Lemma trim_answers_past e t :
  tr_answered t = true \/ early e = true -> trim_answers payload refill e t = Ok t.
Proof.
  unfold trim_answers, early. intros [-> |H]; [done|]. apply negb_true_iff in H. rewrite H. by rewrite andb_false_r.
Qed.

Lemma select_fold es sel t t' :
  Forall (entry_read payload) es ->
  tr_answered t = true \/ Forall (fun e => early e = true) es ->
  at_work payload sel t ->
  fold_entries (trim_entry payload keep refill) es t = Ok t' ->
  exists s, kept K (List.filter (looked_at (tr_refilled t)) es) s /\ at_work payload (sel ++ own s) t' /\
    tr_refilled t' = tr_refilled t /\ tr_answered t' = tr_answered t /\
    (tr_removed t' + length s = tr_removed t + length (List.filter (looked_at (tr_refilled t)) es))%nat.
Proof using keep_K.
  revert sel t. induction es as [|e es IH]; intros sel t Hr Ha Hw; cbn [fold_entries].
  { intros [= <-]. exists []. cbn. rewrite app_nil_r. split_and!; [constructor|done..]. }
  apply Forall_cons in Hr as [He Hr]. intros (t1&Ht1&H)%bind_Ok. unfold trim_entry in Ht1.
  rewrite trim_answers_past in Ht1 by (destruct Ha as [?|Ha]; [by left|right; by apply Forall_cons in Ha as [? _]]).
  rewrite bind_ret in Ht1. unfold trim_select in Ht1.
  assert (Ha' : tr_answered t = true \/ Forall (fun e => early e = true) es)
    by (destruct Ha as [?|Ha]; [by left|right; by apply Forall_cons in Ha as [_ ?]]).
  cbn [List.filter]. destruct (looked_at (tr_refilled t) e) eqn:El; unfold looked_at in El.
  2: { apply negb_false_iff in El. rewrite El in Ht1. injection Ht1 as <-. by apply IH. }
  apply negb_true_iff in El. rewrite El in Ht1.
  apply bind_Ok in Ht1 as ([k b]&Hk&Ht1). apply keep_K in Hk; [|done]. cbv zeta in Ht1.
  destruct k; cbn [negb] in Ht1.
  - apply bind_Ok in Ht1 as (w&Hwe&[= <-]). destruct Hw as [Hw Hc].
    assert (Hw1 : written payload (sel ++ [(section e, e)]) w).
    { eapply (written_entry payload sel (section e)); [done|apply own_question| |exact Hwe]. exact Hw. }
    apply (IH (sel ++ [(section e, e)])) in H as (s&Hs&Hw'&Hf1&Hf2&Hn);
      [|done|exact Ha'|split; [exact Hw1|by apply counted_bump]].
    cbn [tr_refilled tr_answered tr_removed] in *. exists (e :: s). split_and!; [by constructor| |done|done|cbn [length]; lia].
    cbn [own fmap list_fmap]. by rewrite <- app_assoc in Hw'.
  - injection Ht1 as <-. apply (IH sel) in H as (s&Hs&Hw'&Hf1&Hf2&Hn); [|done|exact Ha'|exact Hw].
    cbn [tr_refilled tr_answered tr_removed] in *. exists s. split_and!; [by constructor|done|done|done|cbn [length]; lia].
Qed.

Lemma refill_fold es sel t t' :
  Forall (entry_read payload) es ->
  at_work payload sel t -> Z.of_nat (count_of Answer (fst <$> sel)) <= 65535 ->
  fold_entries (refill_entry payload refill) es t = Ok t' ->
  let sel' := sel ++ (pair Answer <$> List.filter (refills refill) es) in
  at_work payload sel' t' /\ Z.of_nat (count_of Answer (fst <$> sel')) <= 65535 /\
  tr_refilled t' = tr_refilled t /\ tr_answered t' = tr_answered t /\ tr_removed t' = tr_removed t.
Proof using.
  cbv zeta. revert sel t. induction es as [|e es IH]; intros sel t Hr Hw Hb; cbn [fold_entries List.filter].
  { intros [= <-]. cbn. by rewrite app_nil_r. }
  apply Forall_cons in Hr as [He Hr]. intros (t1&Ht1&H)%bind_Ok. unfold refill_entry in Ht1.
  destruct (refills refill e) eqn:Er; [|injection Ht1 as <-; by apply IH].
  apply bind_Ok in Ht1 as (w&Hwe&Ht1). apply bind_Ok in Ht1 as (n&Hn%idx_Ok&Ht1).
  destruct (Z.ltb_spec (n + 1) 65536); [|done]. injection Ht1 as <-. destruct Hw as [Hw Hc].
  destruct (counted_next _ _ Answer e n Hc Hb Hn) as [Hc' Hb']; [done|].
  apply (IH (sel ++ [(Answer, e)])) in H; [|done| |done].
  - cbn [fmap list_fmap]. by rewrite <- app_assoc in H.
  - split; [|exact Hc']. eapply written_entry; [done| |exact Hw|exact Hwe].
    unfold is_question, refills in *. destruct (section e); done.
Qed.
End loop.

(** ** Sections in order *)

Definition in_order (l : list DnsSection) : Prop :=
  StronglySorted (fun a b => section_index a <= section_index b)%nat l.

Lemma in_order_app l k :
  in_order l -> in_order k -> (forall a b, a ∈ l -> b ∈ k -> section_index a <= section_index b)%nat -> in_order (l ++ k).
Proof.
  intros Hl Hk. unfold in_order in *. induction Hl as [|a l Hl IH Ha]; intros H; [done|].
  cbn [app]. constructor.
  - apply IH. intros x y Hx Hy. apply H; [by constructor|done].
  - apply Forall_app. split; [done|]. apply Forall_forall. intros y Hy. apply H; [constructor|done].
Qed.

Lemma in_order_replicate n s : in_order (replicate n s).
Proof.
  unfold in_order. induction n as [|n IH]; cbn [replicate]; constructor; [done|].
  apply Forall_replicate. lia.
Qed.

Lemma expand_replicate a b c d :
  expand [(Question, a); (Answer, b); (Authority, c); (Additional, d)] =
  replicate a Question ++ replicate b Answer ++ replicate c Authority ++ replicate d Additional.
Proof. unfold expand. cbn. by rewrite app_nil_r. Qed.

Lemma in_order_expand a b c d : in_order (expand [(Question, a); (Answer, b); (Authority, c); (Additional, d)]).
Proof.
  rewrite expand_replicate.
  repeat (apply in_order_app; [apply in_order_replicate| |]); try apply in_order_replicate;
    intros x y Hx Hy;
    repeat match goal with
    | H : _ ∈ replicate _ _ |- _ => apply elem_of_replicate in H as [-> _]
    | H : _ ∈ _ ++ _ |- _ => apply elem_of_app in H as [H|H]
    end; cbn; lia.
Qed.

Lemma count_of_0 s l : Forall (fun x => x <> s) l -> count_of s l = 0%nat.
Proof. induction 1 as [|x l Hx _ IH]; [done|]. by rewrite count_of_cons, decide_False. Qed.

Lemma in_order_counts l :
  in_order l ->
  l = expand [(Question, count_of Question l); (Answer, count_of Answer l);
              (Authority, count_of Authority l); (Additional, count_of Additional l)].
Proof.
  unfold in_order. induction 1 as [|x l Hl IH Hx]; [done|]. rewrite expand_replicate in *.
  rewrite !count_of_cons.
  assert (Hz : forall s, (section_index s < section_index x)%nat -> count_of s l = 0%nat).
  { intros s Hs. apply count_of_0. eapply Forall_impl; [exact Hx|]. intros y Hy ->. lia. }
  destruct x; repeat (case_decide; try done); cbn [Nat.add replicate app]; [by rewrite <- IH|..].
  - rewrite Hz in IH |- * by (cbn; lia). cbn [replicate app] in *. by rewrite <- IH.
  - rewrite (Hz Question), (Hz Answer) in IH |- * by (cbn; lia). cbn [replicate app] in *. by rewrite <- IH.
  - rewrite (Hz Question), (Hz Answer), (Hz Authority) in IH |- * by (cbn; lia). cbn [replicate app] in *. by rewrite <- IH.
Qed.

Lemma in_order_kept K es sel : kept K es sel -> in_order (section <$> es) -> in_order (section <$> sel).
Proof.
  unfold in_order. induction 1 as [|e es sel HK Hk IH|e es sel HK Hk IH]; cbn [fmap list_fmap]; intros H; [done| |];
    apply StronglySorted_inv in H as [H Hf]; [|by apply IH].
  constructor; [by apply IH|]. rewrite Forall_fmap, List.Forall_forall in Hf |- *.
  intros e' He'. apply Hf. apply list_elem_of_In. apply list_elem_of_In in He'. by eapply kept_In.
Qed.

Lemma in_order_filter (p : Entry -> bool) es : in_order (section <$> es) -> in_order (section <$> List.filter p es).
Proof.
  unfold in_order. induction es as [|e es IH]; cbn [fmap list_fmap List.filter]; [done|]. intros H.
  apply StronglySorted_inv in H as [H Hf]. destruct (p e); [|by apply IH].
  cbn [fmap list_fmap]. constructor; [by apply IH|]. rewrite Forall_fmap, List.Forall_forall in Hf |- *.
  intros e' [He' _]%List.filter_In. by apply Hf.
Qed.

Lemma filter_none {A} (p : A -> bool) l : Forall (fun x => p x = false) l -> List.filter p l = [].
Proof. induction 1 as [|x l Hx _ IH]; [done|]. cbn. by rewrite Hx. Qed.
Lemma filter_all {A} (p : A -> bool) l : Forall (fun x => p x = true) l -> List.filter p l = l.
Proof. induction 1 as [|x l Hx _ IH]; [done|]. cbn. by rewrite Hx, IH. Qed.

(** The questions and answers come first. *)
Lemma in_order_split es :
  in_order (section <$> es) ->
  exists es1 es2, es = es1 ++ es2 /\ Forall (fun e => early e = true) es1 /\ Forall (fun e => early e = false) es2.
Proof.
  unfold in_order. induction es as [|e es IH]; cbn [fmap list_fmap]; intros H; [by exists [], []|].
  apply StronglySorted_inv in H as [H Hf]. destruct (early e) eqn:Ee.
  - destruct (IH H) as (es1&es2&->&H1&H2). exists (e :: es1), es2. split_and!; [done|by constructor|done].
  - exists [], (e :: es). split_and!; [done|constructor|constructor; [done|]].
    rewrite Forall_fmap in Hf. eapply Forall_impl; [exact Hf|]. intros e' He'. cbn in He'.
    unfold early in *. destruct (section e), (section e'); cbn in *; try done; lia.
Qed.

(** ** The message written *)

Lemma own_sections l : fst <$> own l = section <$> l.
Proof. unfold own. by rewrite <- list_fmap_compose. Qed.

Lemma no_answer l : existsb is_answer l = false <-> count_of Answer (section <$> l) = 0%nat.
Proof.
  induction l as [|e l IH]; [done|]. cbn [existsb fmap list_fmap]. rewrite count_of_cons. unfold is_answer at 1.
  case_decide; [rewrite bool_decide_true by done|rewrite bool_decide_false by done]; cbn [orb]; [lia|]. rewrite IH. lia.
Qed.

Lemma filter_ext_in {A} (p q : A -> bool) l : Forall (fun x => p x = q x) l -> List.filter p l = List.filter q l.
Proof. induction 1 as [|x l Hx _ IH]; [done|]. cbn. by rewrite Hx, IH. Qed.

Lemma filter_partition {A} (p q : A -> bool) l :
  Forall (fun x => q x = negb (p x)) l -> (length (List.filter p l) + length (List.filter q l) = length l)%nat.
Proof.
  induction 1 as [|x l Hx _ IH]; [done|]. cbn. rewrite Hx. destruct (p x); cbn; lia.
Qed.

(** The filters of a list whose early entries come first. *)
Lemma split_filters es1 es2 p :
  Forall (fun e => early e = true) es1 -> Forall (fun e => early e = false) es2 ->
  List.filter early (es1 ++ es2) = es1 /\
  List.filter (fun e => negb (early e)) (es1 ++ es2) = es2 /\
  List.filter (fun e => negb (early e) && negb (p e)) (es1 ++ es2) = List.filter (fun e => negb (p e)) es2 /\
  List.filter (refills p) (es1 ++ es2) = List.filter p es2.
Proof.
  intros H1 H2.
  assert (Hlate : forall q r : Entry -> bool,
    (forall e, early e = true -> q e = false) -> (forall e, early e = false -> q e = r e) ->
    List.filter q (es1 ++ es2) = List.filter r es2).
  { intros q r Hq Hr. rewrite List.filter_app, (filter_none _ es1), (filter_ext_in q r es2); [done| |];
      (eapply Forall_impl; [eassumption|]); cbn; auto. }
  split_and!.
  - by rewrite List.filter_app, (filter_all _ es1), (filter_none _ es2), app_nil_r.
  - rewrite <- (filter_all (fun _ => true) es2) at 2 by (by apply Forall_true).
    apply Hlate; intros e He; by rewrite He.
  - apply Hlate; intros e He; by rewrite He.
  - apply Hlate; intros e He; unfold refills, early in *; destruct (past_answers _); done.
Qed.

(** What the refills leave. *)
Lemma looked_at_late refill es :
  Forall (fun e => early e = false) es ->
  List.filter (looked_at refill true) es = List.filter (fun e => negb (refill e)) es.
Proof.
  intros H. apply filter_ext_in. eapply Forall_impl; [exact H|]. intros e He. unfold looked_at, refills.
  unfold early in He. apply negb_false_iff in He. by rewrite He.
Qed.

Lemma late_no_answer K p es sel :
  Forall (fun e => early e = false) es -> kept K (List.filter p es) sel -> count_of Answer (section <$> sel) = 0%nat.
Proof.
  intros H Hk. apply count_of_0, Forall_fmap, Forall_forall. intros e He.
  apply (kept_In _ _ _ _ Hk) in He as [He _].
  apply list_elem_of_In, List.filter_In in He as [He _]. apply list_elem_of_In in He.
  rewrite Forall_forall in H. specialize (H e He). unfold early in H. cbn. intros Hs. by rewrite Hs in H.
Qed.

Section trim.
Context (payload : bytes) (keep : Entry -> nat -> walk (bool * nat)) (refill : Entry -> bool).
Context (K : Entry -> bool -> Prop).
Hypothesis keep_K : forall e b k b', entry_read payload e -> keep e b = Ok (k, b') -> K e k.

(** The first turn past the answers decides on the refills, and is then as the
    later ones. *)
Lemma first_late_turn e es t t' :
  fold_entries (trim_entry payload keep refill) (e :: es) t = Ok t' ->
  exists t2, trim_answers payload refill e t = Ok t2 /\
    (tr_answered t2 = true -> fold_entries (trim_entry payload keep refill) (e :: es) t2 = Ok t').
Proof using.
  cbn [fold_entries]. intros (t3&Ht3&H)%bind_Ok. pose proof Ht3 as (t2&Ht2&Ht3')%bind_Ok.
  exists t2. split; [done|]. intros Ha.
  assert (trim_entry payload keep refill e t2 = Ok t3) as ->; [|by rewrite bind_ret].
  unfold trim_entry. by rewrite trim_answers_past, bind_ret by (by left).
Qed.

(** The entries past the answers. *)
Lemma trim_late es head es2 t t' :
  entry_list payload = Ok es -> Forall (entry_read payload) es ->
  Forall (entry_read payload) es2 -> Forall (fun e => early e = false) es2 ->
  Z.of_nat (count_of Answer (section <$> head)) <= 65535 ->
  at_work payload (own head) t -> tr_answered t = false -> tr_refilled t = false ->
  fold_entries (trim_entry payload keep refill) es2 t = Ok t' ->
  exists promoted tail,
    promoted = (if existsb is_answer head || bool_decide (es2 = []) then [] else List.filter (refills refill) es) /\
    kept K (if existsb is_answer head then es2 else List.filter (fun e => negb (refill e)) es2) tail /\
    at_work payload (own head ++ (pair Answer <$> promoted) ++ own tail) t' /\
    (tr_removed t' + length tail =
       tr_removed t + length (if existsb is_answer head then es2 else List.filter (fun e => negb (refill e)) es2))%nat /\
    Z.of_nat (count_of Answer (fst <$> (own head ++ (pair Answer <$> promoted)))) <= 65535.
Proof using keep_K.
  intros Hes Hr Hr2 H2 Hb Hw Ha Hf H. destruct es2 as [|e es2].
  { cbn [fold_entries] in H. injection H as <-. exists [], []. rewrite bool_decide_true, orb_true_r by done.
    cbn [fmap list_fmap own List.filter]. rewrite !app_nil_r, own_sections.
    destruct (existsb _ _); (split_and!; [done|constructor|done|done|done]). }
  rewrite bool_decide_false, orb_false_r by done.
  apply first_late_turn in H as (t2&Ht2&Hfold).
  assert (Hpast : past_answers (section e) = true).
  { apply Forall_cons in H2 as [He _]. unfold early in He. by apply negb_false_iff in He. }
  unfold trim_answers in Ht2. rewrite Ha, Hpast in Ht2. cbn [negb andb] in Ht2.
  apply bind_Ok in Ht2 as (n&Hn%idx_Ok&Ht2). cbv zeta in Ht2. destruct Hw as [Hw Hc].
  pose proof (proj2 Hc Answer) as Hn'. rewrite Hn, own_sections in Hn'. injection Hn' as En.
  rewrite Z.mod_small in En by lia. destruct (existsb is_answer head) eqn:Eans.
  - assert (n <> 0) as Hn0.
    { intros ->. assert (existsb is_answer head = false) as Hx; [apply no_answer; lia|by rewrite Eans in Hx]. }
    destruct (Z.eqb_spec n 0) as [|_]; [done|]. injection Ht2 as <-. specialize (Hfold eq_refl).
    apply (select_fold payload keep refill K keep_K _ (own head)) in Hfold as (tail&Htl&Hw2&_&_&Hn4); [|done|by left|by split].
    cbn [tr_refilled tr_removed] in *. rewrite (filter_all (looked_at refill false)) in Htl, Hn4 by (by apply Forall_true).
    exists [], tail. cbn [fmap list_fmap]. rewrite !app_nil_r, own_sections. by split_and!.
  - apply no_answer in Eans. assert (n = 0) as -> by lia. cbn [Z.eqb] in Ht2.
    apply each_entry_fold in Ht2 as (es'&Hes'&Ht2). rewrite Hes in Hes'. injection Hes' as <-.
    apply (refill_fold payload refill es (own head)) in Ht2 as (Hw2&Hb2&Hf2&Ha2&Hn5);
      [|done|by split|rewrite own_sections; lia].
    cbn [tr_refilled tr_answered tr_removed] in *. specialize (Hfold Ha2).
    destruct (select_fold payload keep refill K keep_K (e :: es2) _ t2 t' Hr2 (or_introl Ha2) Hw2 Hfold)
      as (tail&Htl&Hw3&_&_&Hn4).
    rewrite Hf2, looked_at_late in Htl, Hn4 by done. rewrite <- app_assoc in Hw3.
    exists (List.filter (refills refill) es), tail. rewrite <- Hn5. by split_and!.
Qed.

(** The loop as a whole: what it selects is written. *)
Lemma trim_loop es t t' :
  entry_list payload = Ok es -> in_order (section <$> es) ->
  Forall (entry_read payload) es -> Z.of_nat (count_of Answer (section <$> es)) <= 65535 ->
  at_work payload [] t -> tr_answered t = false -> tr_refilled t = false -> tr_removed t = 0%nat ->
  fold_entries (trim_entry payload keep refill) es t = Ok t' ->
  exists sel, selection K refill es sel /\ at_work payload sel t' /\
    (tr_removed t' + length sel = length es)%nat /\ Z.of_nat (count_of Answer (fst <$> sel)) <= 65535.
Proof using keep_K.
  intros Hes Ho Hr Hb Hw Ha Hf Hn H.
  destruct (in_order_split es Ho) as (es1&es2&E&H1&H2). pose proof Hr as Hr'.
  rewrite E in Hr. apply Forall_app in Hr as [Hr1 Hr2]. rewrite E, fold_entries_app in H.
  apply bind_Ok in H as (t1&Ht1&H).
  apply (select_fold payload keep refill K keep_K es1 []) in Ht1 as (head&Hh&Hw1&Hf1&Ha1&Hn1); [|done|by right|done].
  rewrite Hf in *. rewrite (filter_all (looked_at refill false)) in Hh, Hn1 by (by apply Forall_true).
  rewrite Ha in Ha1. cbn [app] in Hw1.
  assert (Hbh : Z.of_nat (count_of Answer (section <$> head)) <= 65535).
  { pose proof (count_of_kept K _ _ Answer Hh) as Hc. rewrite E, fmap_app, count_of_app in Hb. lia. }
  destruct (trim_late es head es2 t1 t') as (promoted&tail&Ep&Htl&Hw2&Hn2&Hb2); try done.
  destruct (split_filters es1 es2 refill H1 H2) as (E1&E2&E3&E4).
  exists (own head ++ (pair Answer <$> promoted) ++ own tail). split_and!; [|done| |].
  - exists head, tail. rewrite E, E1, E2, E3. split; [done|]. rewrite Ep.
    destruct (existsb is_answer head); cbn [orb]; [by split|]. split; [done|].
    case_bool_decide as H0; [|by rewrite E]. subst es2. by rewrite E4.
  - rewrite !length_app. unfold own. rewrite !length_fmap, E, length_app.
    assert (length promoted + length (if existsb is_answer head then es2 else List.filter (fun e => negb (refill e)) es2)
            = length es2)%nat; [|lia].
    rewrite Ep. destruct (existsb is_answer head); cbn [orb]; [done|]. rewrite E, E4.
    case_bool_decide as H0; [by subst es2|]. by apply filter_partition, Forall_true.
  - rewrite app_assoc, fmap_app, count_of_app, own_sections.
    assert (count_of Answer (section <$> tail) = 0%nat) as ->; [|lia].
    destruct (existsb is_answer head); [|eapply late_no_answer; [exact H2|exact Htl]].
    rewrite <- (filter_all (fun _ => true) es2) in Htl by (by apply Forall_true).
    eapply late_no_answer; [exact H2|exact Htl].
Qed.
End trim.

(** ** The header *)

Lemma header_list {A} (o : list A) :
  (12 <= length o)%nat -> exists a b c d e f g h i j k l o', o = [a; b; c; d; e; f; g; h; i; j; k; l] ++ o'.
Proof.
  intros H. do 12 (destruct o as [|? o]; [cbn in H; lia|]). by do 13 eexists.
Qed.

Lemma write_counts_spec o a b c d :
  (DNS_HEADER_LEN <= length o)%nat ->
  write_counts (zip [a; b; c; d] [QDCOUNT_AT; ANCOUNT_AT; NSCOUNT_AT; ARCOUNT_AT]) o =
  Ok (take 4 o ++ (be 2 a ++ be 2 b ++ be 2 c ++ be 2 d) ++ drop DNS_HEADER_LEN o).
Proof.
  intros H. destruct (header_list o H) as (?&?&?&?&?&?&?&?&?&?&?&?&o'&->).
  destruct (be_2_list a) as (?&?&Ea), (be_2_list b) as (?&?&Eb), (be_2_list c) as (?&?&Ec), (be_2_list d) as (?&?&Ed).
  cbn [zip zip_with write_counts]. rewrite Ea, Eb, Ec, Ed.
  repeat (rewrite copy_at_ok by (cbn; lia); rewrite bind_ret; cbn [take drop app QDCOUNT_AT ANCOUNT_AT NSCOUNT_AT ARCOUNT_AT Nat.add DNS_HEADER_LEN]).
  done.
Qed.

(** The header of a message with the counts written in: octets 4 to 11. *)
Lemma counts_header h o a b c d :
  length h = 4%nat ->
  0 <= a <= 65535 -> 0 <= b <= 65535 -> 0 <= c <= 65535 -> 0 <= d <= 65535 ->
  let m := h ++ (be 2 a ++ be 2 b ++ be 2 c ++ be 2 d) ++ o in
  u16_at m QDCOUNT_AT = Some a /\ u16_at m ANCOUNT_AT = Some b /\
  u16_at m NSCOUNT_AT = Some c /\ u16_at m ARCOUNT_AT = Some d.
Proof.
  intros Hh Ha Hb Hc Hd. cbv zeta.
  assert (forall p s n k, length p = k -> 0 <= n <= 65535 -> u16_at (p ++ be 2 n ++ s) k = Some n) as Hat.
  { intros p s n k <- ?. by apply u16_at_be. }
  rewrite <- !app_assoc. split_and!.
  - by apply Hat.
  - rewrite app_assoc. apply Hat; [|done]. by rewrite length_app, Hh, length_be.
  - rewrite 2!app_assoc. apply Hat; [|done]. by rewrite !length_app, Hh, !length_be.
  - rewrite 3!app_assoc. apply Hat; [|done]. by rewrite !length_app, Hh, !length_be.
Qed.

(** ** The message as a whole *)

Lemma u16_at_bound payload at_ v : bytes_ok payload -> u16_at payload at_ = Some v -> 0 <= v <= 65535.
Proof.
  intros Hb H. unfold u16_at in H. apply fmap_Some in H as (s&Hs&->).
  pose proof (get_range_length _ _ _ _ Hs) as Hl. apply get_range_Some in Hs as (_&_&->).
  pose proof (of_be_bound (take (at_ + 2 - at_) (drop at_ payload)) (Forall_take _ _ _ (Forall_drop _ _ _ Hb))) as H.
  rewrite Hl in H. replace (at_ + 2 - at_)%nat with 2%nat in * by lia. change (256 ^ Z.of_nat 2) with 65536 in H. lia.
Qed.

Lemma header_count_bound payload at_ : bytes_ok payload -> Z.of_nat (header_count payload at_) <= 65535.
Proof.
  intros Hb. unfold header_count. destruct (u16_at payload at_) as [v|] eqn:E; cbn; [|lia].
  apply u16_at_bound in E; [lia|done].
Qed.

Lemma count_of_expand s a b c d :
  count_of s (expand [(Question, a); (Answer, b); (Authority, c); (Additional, d)]) =
  match s with Question => a | Answer => b | Authority => c | Additional => d end.
Proof.
  rewrite expand_replicate, !count_of_app, !count_of_replicate. destruct s; repeat (case_decide; try done); lia.
Qed.

(** A walked message: its sections come in order, and none has more than
    65535 entries. *)
Lemma entry_list_sections payload es :
  bytes_ok payload -> (DNS_HEADER_LEN <= length payload)%nat -> entry_list payload = Ok es ->
  in_order (section <$> es) /\ forall s, Z.of_nat (count_of s (section <$> es)) <= 65535.
Proof.
  intros Hb Hl [Hs _]%entry_list_walked; [|done]. unfold header_sections in Hs. rewrite Hs. split.
  - apply in_order_expand.
  - intros s. rewrite count_of_expand. destruct s; by apply header_count_bound.
Qed.

Lemma in_order_own_refilled K (refill : Entry -> bool) es sel :
  in_order (section <$> es) -> selection K refill es sel -> in_order (fst <$> sel).
Proof.
  intros Ho (head&tail&Hh&H).
  assert (Hho : in_order (section <$> head)) by (eapply in_order_kept; [exact Hh|by apply in_order_filter]).
  assert (Hin : forall e, e ∈ head -> early e = true).
  { intros e He. apply (kept_In _ _ _ _ Hh) in He as [He _]. apply list_elem_of_In, List.filter_In in He. apply He. }
  assert (Htail : forall p, kept K (List.filter (fun e => negb (early e) && p e) es) tail ->
    in_order (section <$> tail) /\ forall e, e ∈ tail -> early e = false).
  { intros p Hk. split; [eapply in_order_kept; [exact Hk|by apply in_order_filter]|].
    intros e He. apply (kept_In _ _ _ _ Hk) in He as [He _]. apply list_elem_of_In, List.filter_In in He as [_ He].
    by destruct (early e). }
  destruct (existsb is_answer head) eqn:Ea.
  - destruct H as [Hk ->]. destruct (Htail (fun _ => true)) as [Hto Htl].
    { erewrite filter_ext_in; [exact Hk|]. apply Forall_true. intros e. by rewrite andb_true_r. }
    rewrite fmap_app, !own_sections. apply in_order_app; [done..|].
    intros a b (e&->&He)%list_elem_of_fmap (e'&->&He')%list_elem_of_fmap.
    specialize (Hin _ He). specialize (Htl _ He'). unfold early in *. by destruct (section e), (section e'); cbn in *; try done; lia.
  - destruct H as [Hk ->]. destruct (Htail _ Hk) as [Hto Htl].
    apply no_answer in Ea. rewrite !fmap_app, !own_sections.
    assert (Hq : forall e, e ∈ head -> section e = Question).
    { intros e He. specialize (Hin _ He). unfold early in Hin. destruct (section e) eqn:Es; try done.
      assert (existsb is_answer head = true) as Hx; [|apply no_answer in Ea; by rewrite Ea in Hx].
      apply existsb_exists. exists e. split; [by apply list_elem_of_In|]. unfold is_answer. by rewrite Es. }
    assert (Hpr : fst <$> (pair Answer <$> List.filter (refills refill) es) = replicate (length (List.filter (refills refill) es)) Answer).
    { generalize (List.filter (refills refill) es). intros l. induction l as [|x l IH]; [done|]. cbn. by rewrite IH. }
    rewrite Hpr. apply in_order_app; [done|apply in_order_app; [apply in_order_replicate|done|]|].
    + intros a b [-> _]%elem_of_replicate (e'&->&He')%list_elem_of_fmap. specialize (Htl _ He'). unfold early in Htl.
      by destruct (section e'); cbn in *; try done; lia.
    + intros a b (e&->&He)%list_elem_of_fmap _. rewrite (Hq _ He). cbn. lia.
Qed.

Lemma count_of_filters s (p q : Entry -> bool) es :
  (count_of s (section <$> List.filter p es) + count_of s (section <$> List.filter (fun e => negb (p e) && q e) es)
   <= count_of s (section <$> es))%nat.
Proof.
  induction es as [|e es IH]; [done|]. cbn [List.filter].
  destruct (p e); cbn [negb andb]; [|destruct (q e)]; cbn [fmap list_fmap]; rewrite ?count_of_cons; lia.
Qed.

(** No section but the answers grows. *)
Lemma selection_counts K refill es sel s :
  selection K refill es sel -> s <> Answer -> (count_of s (fst <$> sel) <= count_of s (section <$> es))%nat.
Proof.
  intros (head&tail&Hh&H) Hs. pose proof (count_of_kept _ _ _ s Hh) as H1.
  pose proof (count_of_filters s early (fun _ => true) es) as H2.
  pose proof (count_of_filters s early (fun e => negb (refill e)) es) as H3.
  destruct (existsb is_answer head); destruct H as [Hk ->]; pose proof (count_of_kept _ _ _ s Hk) as H4;
    rewrite !fmap_app, !own_sections, !count_of_app.
  - assert (List.filter (fun e => negb (early e)) es = List.filter (fun e => negb (early e) && true) es) as E
      by (apply filter_ext_in, Forall_true; intros; by rewrite andb_true_r). rewrite E in H4. lia.
  - assert (count_of s (fst <$> (pair Answer <$> List.filter (refills refill) es)) = 0%nat) as ->; [|lia].
    apply count_of_0, Forall_fmap, Forall_fmap, Forall_true. intros e. cbn. done.
Qed.

Lemma recorded_agree payload m m' at_ sel :
  recorded payload m at_ sel (length m) -> length m' = length m ->
  (forall i, (DNS_HEADER_LEN <= i)%nat -> m' !! i = m !! i) -> recorded payload m' at_ sel (length m').
Proof. intros H Hl Ha. rewrite Hl. eapply recorded_mono; [exact H|lia|auto]. Qed.

(** A finished pass, walked again. *)
Lemma finished_walk payload sel o counts (m : bytes) :
  written payload sel o -> counted sel counts ->
  in_order (fst <$> sel) -> (forall s, Z.of_nat (count_of s (fst <$> sel)) <= 65535) ->
  write_counts (zip counts [QDCOUNT_AT; ANCOUNT_AT; NSCOUNT_AT; ARCOUNT_AT]) (out o) = Ok m ->
  length m = length (out o) /\ take 4 m = take 4 payload /\
  exists es', entry_list m = Ok es' /\
    Forall2 (fun x e' => section e' = x.1 /\ same_record payload x.2 m e') sel es'.
Proof.
  intros (H12&_&Hrec&Hhd) [Hl Hc] Ho Hb H.
  destruct counts as [|a [|b [|c [|d [|]]]]]; try discriminate Hl.
  pose proof (Hc Question) as Ea. pose proof (Hc Answer) as Eb. pose proof (Hc Authority) as Ec. pose proof (Hc Additional) as Ed.
  cbn [section_index lookup list_lookup] in Ea, Eb, Ec, Ed. injection Ea as ->. injection Eb as ->. injection Ec as ->. injection Ed as ->.
  rewrite !Z.mod_small in H by (split; [lia|]; match goal with |- Z.of_nat (count_of ?s _) < _ => specialize (Hb s); lia end).
  rewrite write_counts_spec in H by done. apply (f_equal ok) in H. cbn [ok] in H.
  match type of H with Some ?x = _ => assert (m = x) as Em by congruence end. clear H.
  assert (H4 : length (take 4 (out o)) = 4%nat) by (rewrite length_take; unfold DNS_HEADER_LEN in H12; lia).
  assert (Hlm : length m = length (out o)).
  { rewrite Em, !length_app, !length_be, H4, length_drop. unfold DNS_HEADER_LEN in *. lia. }
  split_and!; [done| |].
  { rewrite Em, take_app_le by lia. rewrite take_take. change (4 `min` 4)%nat with 4%nat.
    apply (f_equal (take 4)) in Hhd. rewrite !take_take in Hhd. exact Hhd. }
  assert (Hrec' : recorded payload m DNS_HEADER_LEN sel (length m)).
  { eapply recorded_agree; [exact Hrec|done|]. intros i Hi. rewrite Em.
    rewrite lookup_app_r by (rewrite H4; unfold DNS_HEADER_LEN in Hi; lia).
    rewrite lookup_app_r by (rewrite !length_app, !length_be, H4; unfold DNS_HEADER_LEN in Hi; lia).
    rewrite lookup_drop, !length_app, !length_be, H4. f_equal. unfold DNS_HEADER_LEN in *. lia. }
  apply recorded_walked in Hrec' as (es'&Hs&Hw&Hf). exists es'. split.
  - apply entry_list_walked; [lia|]. split; [|done]. rewrite Hs. unfold header_sections, header_count.
    destruct (counts_header (take 4 (out o)) (drop DNS_HEADER_LEN (out o))
      (Z.of_nat (count_of Question (fst <$> sel))) (Z.of_nat (count_of Answer (fst <$> sel)))
      (Z.of_nat (count_of Authority (fst <$> sel))) (Z.of_nat (count_of Additional (fst <$> sel))) H4) as (E1&E2&E3&E4);
      try (split; [lia|apply Hb]).
    rewrite <- Em in E1, E2, E3, E4. rewrite E1, E2, E3, E4. cbn [default]. unfold id. rewrite !Nat2Z.id.
    by apply in_order_counts.
  - clear -Hs Hf. revert es' Hs Hf. induction sel as [|x sel IH]; intros es' Hs Hf; inversion Hf; subst; [constructor|].
    cbn in Hs. injection Hs as Hs1 Hs2. constructor; [by split|]. by apply IH.
Qed.

(** What [trim] writes is walked as the records selected. *)
Lemma trim_spec payload keep refill (K : Entry -> bool -> Prop) m removed :
  bytes_ok payload ->
  (forall e b k b', entry_read payload e -> keep e b = Ok (k, b') -> K e k) ->
  trim payload keep refill = Ok (m, removed) ->
  exists es sel es',
    entry_list payload = Ok es /\ selection K refill es sel /\ entry_list m = Ok es' /\
    Forall2 (fun x e' => section e' = x.1 /\ same_record payload x.2 m e') sel es' /\
    (length m <= length payload)%nat /\ take 4 m = take 4 payload /\ (removed + length sel = length es)%nat.
Proof.
  intros Hb HK H. unfold trim in H. apply bind_Ok in H as (header&Hh%ok_or_Ok&H).
  pose proof (get_range_length _ _ _ _ Hh) as Hhl. apply get_range_Some in Hh as (_&Hpl&Eh).
  apply bind_Ok in H as (t&Ht&H). cbv zeta in H.
  destruct (Nat.ltb_spec (length payload) (length (out (tr_writer t)))) as [|Hle]; [done|].
  apply bind_Ok in H as (m'&Hm&[= <- <-]).
  apply each_entry_fold in Ht as (es&Hes&Ht).
  destruct (entry_list_sections payload es Hb Hpl Hes) as [Ho Hcnt].
  pose proof (entries_from_read _ _ _ _ Hes) as Hread.
  apply (trim_loop payload keep refill K HK es) in Ht as (sel&Hsel&[Hw Hc]&Hn&Hans); try done.
  2: { split; cbn [tr_writer tr_counts]; [|split; [done|by intros []]].
       unfold written. cbn [out placed]. split_and!.
       - lia.
       - split; [by rewrite length_replicate|]. intros i z Hi Hz. apply lookup_replicate in Hi as [-> _]. done.
       - rewrite Hhl. constructor.
       - rewrite Eh. cbn [drop]. rewrite Nat.sub_0_r, take_take. done. }
  assert (Hall : forall s, Z.of_nat (count_of s (fst <$> sel)) <= 65535).
  { intros s. destruct (decide (s = Answer)) as [-> |Hs]; [done|].
    pose proof (selection_counts _ _ _ _ s Hsel Hs). specialize (Hcnt s). lia. }
  pose proof (in_order_own_refilled _ _ _ _ Ho Hsel) as Hos.
  destruct (finished_walk payload sel _ _ m' Hw Hc Hos Hall Hm) as (Hlm&Ht4&es'&He'&Hf).
  exists es, sel, es'. split_and!; try done. by rewrite Hlm.
Qed.

(** The octets a re-encoded message is made of: the header of the original but
    for its counts, then octets only; so it is a message of the same kind. *)

(** [o'] goes on from [o], with octets. *)
Definition extends (o o' : bytes) : Prop := exists more, o' = o ++ more /\ bytes_ok more.

#[export] Instance extends_preorder : PreOrder extends.
Proof.
  split; [intros o; exists []; by rewrite app_nil_r|].
  intros o1 o2 o3 (m1&->&H1) (m2&->&H2). exists (m1 ++ m2). rewrite <- app_assoc. split; [done|]. by apply Forall_app.
Qed.

Lemma extends_app o s : bytes_ok s -> extends o (o ++ s).
Proof. by exists s. Qed.

Lemma span_bytes_ok payload from to s : bytes_ok payload -> message_span payload from to = Ok s -> bytes_ok s.
Proof.
  intros Hb (_&_&->)%ok_or_Ok%get_range_Some. apply Forall_take. by apply Forall_drop.
Qed.

Section write.
Context (payload : bytes) (Hb : bytes_ok payload).

Lemma write_name_loop_extends budget at_ start hops o pl w :
  write_name_loop budget payload at_ start hops o pl = Ok w -> extends o (out w).
Proof.
  revert at_ hops o pl. induction budget as [|budget IH]; intros at_ hops o pl; cbn [write_name_loop]; [done|].
  destruct (negb _).
  { destruct (_ <=? _)%nat; [done|]. intros [= <-]. apply extends_app. repeat constructor; apply byte_ok_land. }
  intros (tag&_&H)%bind_Ok. destruct (tag =? 0).
  { injection H as <-. apply extends_app. by apply Forall_singleton. }
  destruct (is_label tag).
  - apply bind_Ok in H as (label&Hl&H). apply bind_Ok in H as (pl'&_&H). apply IH in H.
    etrans; [|exact H]. apply extends_app. by eapply span_bytes_ok.
  - destruct (is_pointer tag); [|done]. apply bind_Ok in H as (low&_&H). cbv zeta in H.
    destruct (_ <? _)%nat; [done|]. by eapply IH.
Qed.

Lemma write_name_extends at_ w w' : write_name payload at_ w = Ok w' -> extends (out w) (out w').
Proof. apply write_name_loop_extends. Qed.

Lemma write_names_extends n at_ w at' w' : write_names n payload at_ w = Ok (at', w') -> extends (out w) (out w').
Proof.
  revert at_ w. induction n as [|n IH]; intros at_ w; cbn [write_names]; [by intros [= _ <-]|].
  intros (w1&Hw&H)%bind_Ok. apply bind_Ok in H as (a&_&H). etrans; [by eapply write_name_extends|by eapply IH].
Qed.

Lemma write_rdata_extends e w w' : write_rdata payload e w = Ok w' -> extends (out w) (out w').
Proof.
  unfold write_rdata. destruct (rdata_names e) as [nm|].
  - cbv zeta. intros (before&H1&H)%bind_Ok. apply bind_Ok in H as ([mid w1]&H2&H). apply bind_Ok in H as (after&H3&[= <-]).
    etrans; [apply extends_app; exact (span_bytes_ok _ _ _ _ Hb H1)|].
    etrans; [exact (write_names_extends _ _ (emit w before) _ _ H2)|]. apply extends_app. exact (span_bytes_ok _ _ _ _ Hb H3).
  - intros (data&H1&[= <-])%bind_Ok. apply extends_app. by eapply span_bytes_ok.
Qed.

Lemma copy_extends o o1 o2 z at_ :
  extends o o1 -> (length o <= at_)%nat -> copy_at (E:=Malformed) o1 at_ (at_ + 2) (be 2 z) = Ok o2 -> extends o o2.
Proof.
  intros (more&->&Hm) Hle. unfold copy_at. case_decide as Hd; [|done]. intros [= <-].
  rewrite take_app_ge, drop_app_ge by lia. rewrite <- app_assoc. eexists. split; [done|].
  apply Forall_app. split; [by apply Forall_take|]. repeat (constructor; [apply byte_ok_land|]). by apply Forall_drop.
Qed.

Lemma write_entry_extends e w w' : write_entry payload e w = Ok w' -> extends (out w) (out w').
Proof.
  unfold write_entry. intros (w1&H1&H)%bind_Ok. apply write_name_extends in H1. destruct (decide _).
  - apply bind_Ok in H as (fx&Hf&[= <-]). etrans; [exact H1|]. apply extends_app. by eapply span_bytes_ok.
  - apply bind_Ok in H as (fx&Hf&H). cbv zeta in H. apply bind_Ok in H as (w2&H2&H). destruct (65535 <? _); [done|].
    apply bind_Ok in H as (o&Hc&[= <-]). cbn [out]. etrans; [exact H1|]. apply write_rdata_extends in H2. cbn [emit out] in H2.
    apply span_bytes_ok in Hf; [|done]. eapply copy_extends; [|..|exact Hc]; [|cbn [emit out]; len].
    etrans; [|exact H2]. rewrite <- app_assoc. apply extends_app. apply Forall_app. split; [done|]. by repeat constructor.
Qed.

Lemma each_entry_keeps {S} (I : S -> Prop) (body : Entry -> S -> walk S) s s' :
  (forall e s s', I s -> body e s = Ok s' -> I s') -> I s -> each_entry payload body s = Ok s' -> I s'.
Proof.
  intros Hbody. unfold each_entry. cbv zeta.
  generalize (Datatypes.S (entries_left (entries_new payload))) as fuel. generalize (entries_new payload) as en.
  intros en fuel. revert s en. induction fuel as [|fuel IH]; intros s en Hs; cbn [for_entries]; [done|].
  destruct (entries_next payload en) as [[step|] en']; [|by intros [= <-]].
  intros (e&_&H)%bind_Ok. apply bind_Ok in H as (s1&H1&H). eapply IH; [|exact H]. by eapply Hbody.
Qed.

(** The loop of [trim] keeps the header it started from. *)
Lemma refill_entry_extends refill e o t t' :
  extends o (out (tr_writer t)) -> refill_entry payload refill e t = Ok t' -> extends o (out (tr_writer t')).
Proof.
  intros Ho. unfold refill_entry. destruct (refills _ _); [|by intros [= <-]].
  intros (w&Hw&H)%bind_Ok. apply bind_Ok in H as (n&_&H). destruct (_ <? _); [|done]. injection H as <-.
  etrans; [exact Ho|by eapply write_entry_extends].
Qed.

Lemma trim_entry_extends keep refill e o t t' :
  extends o (out (tr_writer t)) -> trim_entry payload keep refill e t = Ok t' -> extends o (out (tr_writer t')).
Proof.
  intros Ho. unfold trim_entry. intros (t1&H1&H)%bind_Ok.
  assert (Ho1 : extends o (out (tr_writer t1))).
  { revert H1. unfold trim_answers. destruct (_ && _); [|by intros [= <-]]. intros (n&_&H1)%bind_Ok. cbv zeta in H1.
    destruct (n =? 0); [|by injection H1 as <-]. revert H1. apply (each_entry_keeps (fun t => extends o (out (tr_writer t)))); [|exact Ho].
    intros e' s s'. apply refill_entry_extends. }
  revert H. unfold trim_select. destruct (_ && _); [by intros [= <-]|]. intros ([k b]&_&H)%bind_Ok. cbv zeta in H.
  destruct (negb k); [by injection H as <-|]. apply bind_Ok in H as (w&Hw&[= <-]).
  etrans; [exact Ho1|]. by apply write_entry_extends in Hw.
Qed.

Lemma write_counts_keeps fields o o' :
  Forall (fun f => 4 <= f.2)%nat fields -> bytes_ok o -> write_counts fields o = Ok o' -> take 4 o' = take 4 o /\ bytes_ok o'.
Proof.
  revert o. induction fields as [|[c at_] fields IH]; intros o Hf Ho; cbn [write_counts]; [by intros [= <-]|].
  apply Forall_cons in Hf as [Hat Hf]. intros (o1&H1&H)%bind_Ok. unfold copy_at in H1. case_decide as Hd; [|done].
  injection H1 as <-. apply IH in H; [|done|].
  - destruct H as [-> ?]. split; [|done]. cbn [snd] in Hat. rewrite take_app_le by (len; lia). rewrite take_take. f_equal. lia.
  - apply Forall_app. split; [by apply Forall_take|]. repeat (constructor; [apply byte_ok_land|]). by apply Forall_drop.
Qed.

(** What [trim] returns are octets, and begins as the message did: with its
    identifier and its flags. *)
Lemma trim_bytes keep refill m removed :
  trim payload keep refill = Ok (m, removed) -> bytes_ok m /\ take 4 m = take 4 payload /\ (DNS_HEADER_LEN <= length m)%nat.
Proof.
  unfold trim. intros (header&Hh&H)%bind_Ok. apply ok_or_Ok, get_range_Some in Hh as (_&Hl&->).
  apply bind_Ok in H as (t&Ht&H). cbv zeta in H.
  assert (Ho : extends (take (DNS_HEADER_LEN - 0) (drop 0 payload)) (out (tr_writer t))).
  { revert Ht. apply (each_entry_keeps (fun t => extends (take (DNS_HEADER_LEN - 0) (drop 0 payload)) (out (tr_writer t))));
      [|reflexivity]. intros e s s'. apply trim_entry_extends. }
  destruct Ho as (more&Ho&Hm). destruct (_ <? _)%nat; [done|]. apply bind_Ok in H as (o&Hc&[= <- <-]).
  assert (Hlen : length o = length (out (tr_writer t))).
  { revert Hc. generalize (zip (tr_counts t) [QDCOUNT_AT; ANCOUNT_AT; NSCOUNT_AT; ARCOUNT_AT]) as fields.
    generalize (out (tr_writer t)) as o1. intros o1 fields. revert o1. induction fields as [|[c at_] fields IH]; intros o1; cbn [write_counts].
    - by intros [= <-].
    - intros (o2&H2&H)%bind_Ok. rewrite (IH _ H). unfold copy_at in H2. case_decide; [|done]. injection H2 as <-. len. }
  apply write_counts_keeps in Hc as [Htake Hok].
  - split_and!; [done| |].
    + rewrite Htake, Ho. rewrite drop_0, take_app_le by (unfold DNS_HEADER_LEN in *; len; lia). by rewrite take_take.
    + rewrite Hlen, Ho. unfold DNS_HEADER_LEN in *. len.
  - generalize (tr_counts t). intros [|? [|? [|? [|? [|? l]]]]]; cbn [zip zip_with];
      repeat (first [apply Forall_cons_2|apply Forall_nil_2]); unfold QDCOUNT_AT, ANCOUNT_AT, NSCOUNT_AT, ARCOUNT_AT; cbn; lia.
  - rewrite Ho. apply Forall_app. split; [|done]. apply Forall_take. by rewrite drop_0.
Qed.

Lemma classify_take m m' : (DNS_HEADER_LEN <= length m)%nat -> (DNS_HEADER_LEN <= length m')%nat -> take 4 m = take 4 m' ->
  Mdns.classify m = Mdns.classify m'.
Proof.
  intros Hm Hm' Ht. destruct (classify_ok m Hm) as (f&Hf&->). destruct (classify_ok m' Hm') as (f'&Hf'&->).
  assert (Some f = Some f') as [= ->]; [|done]. rewrite <- Hf, <- Hf'.
  rewrite <- (lookup_take_lt m 4), <- (lookup_take_lt m' 4) by (unfold FLAGS_HIGH; lia). by rewrite Ht.
Qed.

(** What the filters make of a message. *)
Definition remade (m : bytes) : Prop := bytes_ok m /\ take 4 m = take 4 payload /\ (DNS_HEADER_LEN <= length m)%nat.

Lemma decide_services_bytes allowed m removed refused :
  decide_services allowed payload = Ok (Trimmed m removed refused) -> remade m.
Proof.
  unfold decide_services. destruct (assess _ _) as [[[] r]|[]|]; try done.
  destruct (trim _ _ _) as [[m' n]|[]|] eqn:E; [|done..]. intros [= <- _ _]. by eapply trim_bytes.
Qed.

Lemma strip_bytes m removed : strip payload = Ok (Some (m, removed)) -> remade m.
Proof.
  unfold strip. destruct (advertised payload) as [a|[]|]; try done. destruct (negb _); [done|].
  destruct (trim _ _ _) as [[m' n]|[]|] eqn:E; [|done..]. intros [= <- _]. by eapply trim_bytes.
Qed.
End write.
