(* ===== verification/MdnsFiltersSpec.v ===== *)
(** What the mDNS filters do to a message: they never panic, a trimmed answer
    names no refused service and loses nothing else, and a stripped one holds
    no unreachable address. *)

From S2P Require Import Prelude Text Addr UniqueList Names Mdns DnsMessage MdnsFilters DnsSpec DnsTrim.

Local Open Scope Z_scope.

(** ** What an entry names *)

(** The service type of the name at an offset. *)
Definition name_service (payload : bytes) (at_ : nat) (s : option (bytes * Proto)) : Prop :=
  exists ls stop, name_at anywhere payload at_ ls stop /\ service_pairs None None ls = s.

Definition has_target (e : Entry) : bool := (rtype e =? TYPE_PTR) && (rdata e <? e_end e)%nat.

(** A pointer record is of the service type its target names, if it names one;
    any other entry, of the one its owner names. *)
Definition entry_names (payload : bytes) (e : Entry) (s : option (bytes * Proto)) : Prop :=
  exists t, (if has_target e then name_service payload (rdata e) t else t = None) /\
    match t with Some _ => s = t | None => name_service payload (e_name e) s end.

Lemma name_service_det payload at_ s s' : name_service payload at_ s -> name_service payload at_ s' -> s = s'.
Proof. intros (ls&e&Hn&<-) (ls'&e'&Hn'&<-). by destruct (name_at_det _ _ _ _ _ _ _ _ Hn Hn') as [-> _]. Qed.

Lemma entry_names_det payload e s s' : entry_names payload e s -> entry_names payload e s' -> s = s'.
Proof.
  intros (t&Ht&Hs) (t'&Ht'&Hs').
  assert (t = t') as <- by (destruct (has_target e); [by eapply name_service_det|congruence]).
  destruct t; [congruence|by eapply name_service_det].
Qed.

Lemma service_of_names payload at_ budget s b : service_of payload at_ budget = Ok (s, b) -> name_service payload at_ s.
Proof.
  intros ([ls b1]&Hl&[= <- <-])%bind_Ok. apply labels_name in Hl as (stop&Hl). by exists ls, stop.
Qed.

Lemma entry_service_names e payload budget s b : entry_service e payload budget = Ok (s, b) -> entry_names payload e s.
Proof.
  intros ([t b1]&Ht&H)%bind_Ok.
  exists t. split.
  - unfold has_target. destruct (_ && _); [by eapply service_of_names|by injection Ht as <- _].
  - destruct t; [by injection H as <- _|by eapply service_of_names].
Qed.

Lemma service_of_safe payload at_ budget : safe (service_of payload at_ budget).
Proof. unfold service_of. apply bind_safe; [apply labels_safe|]. by intros []. Qed.

Lemma entry_service_safe e payload budget : safe (entry_service e payload budget).
Proof.
  unfold entry_service. apply bind_safe; [destruct (_ && _); [apply service_of_safe|done]|].
  intros [[s|] b] _; [done|apply service_of_safe].
Qed.

Lemma keep_allowed_safe allowed payload e b : safe (keep_allowed allowed payload e b).
Proof.
  unfold keep_allowed. destruct (decide _); [done|]. apply bind_safe; [apply entry_service_safe|]. by intros [].
Qed.

(** ** No panic *)

Lemma assess_entry_safe payload allowed kind e a : safe (assess_entry payload allowed kind e a).
Proof.
  unfold assess_entry. apply bind_safe; [apply check_names_safe|intros b _]. cbv zeta.
  destruct (negb _); [done|]. apply bind_safe; [apply entry_service_safe|]. by intros [].
Qed.

Lemma each_entry_no_panic {S} payload (body : Entry -> S -> walk S) s :
  (forall e s, safe (body e s)) -> safe (each_entry payload body s).
Proof.
  intros Hb E. pose proof (each_entry_safe (fun _ => True) payload body s) as H. rewrite E in H. apply H; [|done].
  intros e s' _ _. specialize (Hb e s'). by destruct (body e s').
Qed.

Lemma assess_safe payload allowed : safe (assess payload allowed).
Proof.
  unfold assess. apply bind_safe.
  - unfold classified, classify. destruct (Nat.ltb_spec (length payload) DNS_HEADER_LEN); [done|].
    unfold DNS_HEADER_LEN in *. destruct (idx_lookup (E:=Infallible) payload FLAGS_HIGH) as (f&_&->); [unfold FLAGS_HIGH; lia|].
    by rewrite bind_ret.
  - intros kind _. apply bind_safe; [|done]. apply each_entry_no_panic. intros e a. apply assess_entry_safe.
Qed.

Lemma advertised_safe payload : safe (advertised payload).
Proof. by apply each_entry_no_panic. Qed.

Lemma mdns_filters_safe allowed payload :
  safe (decide_services allowed payload) /\ safe (strip payload) /\ safe (advertises_only_unreachable payload).
Proof.
  split_and!.
  - unfold decide_services. pose proof (assess_safe payload allowed). destruct (assess _ _) as [[[] r]|[]|]; try done.
    pose proof (trim_safe payload (keep_allowed allowed payload) (fun _ => false) (keep_allowed_safe _ _)).
    by destruct (trim _ _ _) as [[]|[]|].
  - unfold strip. pose proof (advertised_safe payload). destruct (advertised payload) as [a|[]|]; try done.
    destruct (negb _); [done|].
    pose proof (trim_safe payload (fun e budget => Ok (negb (some_and is_unreachable (address payload e)), budget))
      (fun e => some_and (fun ip => negb (is_unreachable ip)) (address payload e))) as Ht.
    destruct (trim _ _ _) as [[]|[]|]; try done. by specialize (Ht ltac:(done)).
  - unfold advertises_only_unreachable. pose proof (advertised_safe payload). by destruct (advertised payload) as [|[]|].
Qed.

(** Neither mDNS filter panics, whatever the payload: the allow-list's
    decision is made, the strip returns, and so does the test for messages that
    advertise only unreachable addresses; every loop ends within its budget. *)
Theorem mdns_filters_total allowed payload :
  safe (decide_services allowed payload) /\ safe (strip payload) /\ safe (advertises_only_unreachable payload).
Proof. apply mdns_filters_safe. Qed.

(** ** Records with the same content *)

Lemma record_fixed payload e c :
  entry_read payload e -> record_at anywhere payload (is_question e) (e_name e) c (e_end e) ->
  name_at anywhere payload (e_name e) (c_name c) (e_fixed e).
Proof.
  intros He (fx&Hn&_). pose proof (er_fixed _ _ He) as Hf. rewrite (skip_name_name _ _ _ _ _ Hn) in Hf.
  by injection Hf as <-.
Qed.

(** The type and rdata of a record, from its content. *)
Lemma record_rdata payload e c :
  entry_read payload e -> section e <> Question ->
  record_at anywhere payload (is_question e) (e_name e) c (e_end e) ->
  rtype e = of_be (take 2 (c_fixed c)) /\ rdata_at anywhere payload (rtype e) (rdata e) (e_end e) c.
Proof.
  intros He Hq (fx&Hn&H). pose proof (er_fixed _ _ He) as Hf. rewrite (skip_name_name _ _ _ _ _ Hn) in Hf.
  injection Hf as ->. unfold is_question in H. rewrite bool_decide_false in H by done.
  destruct H as ([Hfx _]&_&Hrd). destruct (er_record _ _ He Hq) as [Hr _].
  assert (rtype e = of_be (take 2 (c_fixed c))) as Ht by (symmetry; apply (entry_type payload e _ 8); [done|exact Hfx|lia]).
  split; [done|]. by rewrite Ht, Hr.
Qed.

Lemma question_no_rdata payload e : entry_read payload e -> section e = Question -> (rdata e <? e_end e)%nat = false.
Proof. intros He Hq. destruct (er_question _ _ He Hq). apply Nat.ltb_ge. lia. Qed.

Lemma names_at_cons P m at_ ls names stop :
  names_at P m at_ (ls :: names) stop -> exists mid, name_at P m at_ ls mid /\ names_at P m mid names stop.
Proof. intros H. inversion H; subst. eauto. Qed.

Section same.
Context (payload m : bytes) (e e' : Entry).
Hypothesis He : entry_read payload e.
Hypothesis He' : entry_read m e'.
Hypothesis Hsec : is_question e = is_question e'.
Hypothesis Hsame : same_record payload e m e'.

Lemma same_questions : section e = Question <-> section e' = Question.
Proof using Hsec. unfold is_question in Hsec. by repeat case_bool_decide. Qed.

Lemma same_record_names s : entry_names payload e s -> entry_names m e' s.
Proof using He He' Hsec Hsame.
  destruct Hsame as (c&H1&H2).
  assert (Hname : name_service payload (e_name e) s -> name_service m (e_name e') s).
  { intros (ls&stop&Hn&Hs). pose proof (record_fixed _ _ _ He H1) as Hn1.
    destruct (name_at_det _ _ _ _ _ _ _ _ Hn Hn1) as [-> _].
    exists (c_name c), (e_fixed e'). split; [exact (record_fixed _ _ _ He' H2)|done]. }
  assert (Htarget : has_target e = has_target e' /\
    (has_target e = true -> forall t, name_service payload (rdata e) t -> name_service m (rdata e') t)).
  { unfold has_target. destruct (decide (section e = Question)) as [Hq|Hq].
    { rewrite (question_no_rdata _ _ He Hq), (question_no_rdata _ _ He' (proj1 same_questions Hq)), !andb_false_r. done. }
    assert (Hq' : section e' <> Question) by (by rewrite <- same_questions).
    destruct (record_rdata _ _ _ He Hq H1) as [Ht Hr]. destruct (record_rdata _ _ _ He' Hq' H2) as [Ht' Hr'].
    rewrite Ht in Hr |- *. rewrite Ht' in Hr' |- *.
    destruct (Z.eqb_spec (of_be (take 2 (c_fixed c))) TYPE_PTR) as [E|E]; [cbn [andb]|done].
    unfold rdata_at in Hr, Hr'. rewrite E in Hr, Hr'.
    change (rdata_names_of TYPE_PTR) with (Some {| rn_offset := 0; rn_count := 1 |}) in Hr, Hr'.
    destruct (rdata e <? e_end e)%nat, (rdata e' <? e_end e')%nat.
    - split; [done|]. intros _ t (ls&stop&Hn&<-). cbn [rn_offset rn_count] in Hr, Hr'. rewrite Nat.add_0_r in Hr, Hr'.
      destruct Hr as (mid&_&Hns&Hlen&_). destruct Hr' as (mid'&_&Hns'&_&_).
      destruct (c_names c) as [|name [|]]; try discriminate Hlen.
      apply names_at_cons in Hns as (?&Hn1&_). apply names_at_cons in Hns' as (?&Hn2&_).
      destruct (name_at_det _ _ _ _ _ _ _ _ Hn Hn1) as [-> _]. by eexists _, _.
    - destruct Hr as (?&_&_&Hlen&_), Hr' as (_&En&_). by rewrite En in Hlen.
    - destruct Hr' as (?&_&_&Hlen&_), Hr as (_&En&_). by rewrite En in Hlen.
    - done. }
  destruct Htarget as [Eh Htarget]. intros (t&Ht&Hs). exists t. rewrite <- Eh. split.
  - destruct (has_target e); [by apply Htarget|done].
  - destruct t; [done|by apply Hname].
Qed.
End same.

(** ** The allow-list *)

(** What [keep_allowed] answers on an entry. *)
Definition admitted (allowed : ServiceList) (payload : bytes) (e : Entry) (k : bool) : Prop :=
  if bool_decide (section e = Question) then k = true
  else exists s, entry_names payload e s /\ k = match s with Some s => allows allowed s | None => true end.

Lemma keep_allowed_admitted allowed payload e b k b' :
  keep_allowed allowed payload e b = Ok (k, b') -> admitted allowed payload e k.
Proof.
  unfold keep_allowed, admitted. case_decide as Hq.
  - rewrite bool_decide_true by done. by intros [= <- _].
  - rewrite bool_decide_false by done. intros ([s b1]&Hs&[= <- _])%bind_Ok. exists s. split; [by eapply entry_service_names|done].
Qed.

(** With no refills, what is selected is what is kept. *)
Lemma selection_kept K es sel :
  in_order (section <$> es) -> selection K (fun _ => false) es sel -> exists s, kept K es s /\ sel = own s.
Proof.
  intros Ho (head&tail&Hh&H). destruct (in_order_split es Ho) as (es1&es2&->&H1&H2).
  destruct (split_filters es1 es2 (fun _ => false) H1 H2) as (E1&E2&E3&E4). rewrite E1 in Hh. rewrite E2, E3, E4 in H.
  exists (head ++ tail). unfold own. rewrite fmap_app.
  rewrite (filter_none (fun _ => false)), (filter_all (fun e => negb false)) in H by (by apply Forall_true).
  destruct (existsb is_answer head); destruct H as [Ht ->]; (split; [by apply kept_app|done]).
Qed.

Lemma same_questions_of (e e' : Entry) : section e' = section e -> is_question e = is_question e'.
Proof. intros H. unfold is_question. by rewrite H. Qed.

Lemma Forall2_own (R : Entry -> Entry -> Prop) s es' :
  Forall2 (fun x e' => section e' = x.1 /\ R x.2 e') (own s) es' <->
  Forall2 (fun e e' => section e' = section e /\ R e e') s es'.
Proof. unfold own. apply Forall2_fmap_l. Qed.

(** ** What the assessment sees *)

(** The entries a message is judged by: a query's questions, a response's
    records. *)
Definition asked (kind : MdnsKind) (e : Entry) : bool :=
  match kind with
  | Query => bool_decide (section e = Question)
  | Response => negb (bool_decide (section e = Question))
  end.

(** An entry is allowed, refused or of no service type. *)
Definition verdict (allowed : ServiceList) (payload : bytes) (e : Entry) (v : option bool) : Prop :=
  exists s, entry_names payload e s /\ v = allows allowed <$> s.

Definition is_verdict (v w : option bool) : bool := bool_decide (v = w).
Definition any (v : option bool) (vs : list (Entry * option bool)) : bool := existsb (fun x => is_verdict v x.2) vs.
Definition any_answer (v : option bool) (vs : list (Entry * option bool)) : bool :=
  existsb (fun x => is_answer x.1 && is_verdict v x.2) vs.

(** The flags of an assessment, from the verdicts. *)
Definition flags_of (a : Assess) (vs : list (Entry * option bool)) (a' : Assess) : Prop :=
  granted a' = granted a || any (Some true) vs /\
  any_refused a' = any_refused a || any (Some false) vs /\
  unscoped a' = unscoped a || any None vs /\
  answer_granted a' = answer_granted a || any_answer (Some true) vs /\
  answer_scoped a' = answer_scoped a || any_answer (Some true) vs || any_answer (Some false) vs /\
  answer_unscoped a' = answer_unscoped a || any_answer None vs.

Lemma assess_entry_flags payload allowed kind e a a' :
  assess_entry payload allowed kind e a = Ok a' ->
  if asked kind e then exists v, verdict allowed payload e v /\ flags_of a [(e, v)] a' else flags_of a [] a'.
Proof.
  unfold assess_entry. intros (b&_&H)%bind_Ok. cbv zeta in H. fold (asked kind e) in H.
  destruct (asked kind e); cbn [negb] in H.
  - apply bind_Ok in H as ([s b']&Hs&H). apply entry_service_names in Hs.
    exists (allows allowed <$> s). split; [by exists s|].
    unfold flags_of, any, any_answer, is_verdict, is_answer. cbn [existsb fst snd].
    destruct s as [s|]; [destruct (allows allowed s) eqn:Ea|]; injection H as <-; cbn [fmap option_fmap option_map];
      rewrite ?Ea; cbn; rewrite ?orb_false_r, ?orb_true_r, ?andb_true_r, ?andb_false_r, ?orb_false_r; by split_and!.
  - injection H as <-. unfold flags_of. cbn. rewrite ?orb_false_r. by split_and!.
Qed.

Lemma flags_of_app a vs1 a1 vs2 a2 : flags_of a vs1 a1 -> flags_of a1 vs2 a2 -> flags_of a (vs1 ++ vs2) a2.
Proof.
  unfold flags_of, any, any_answer. intros (->&->&->&->&->&->) (->&->&->&->&->&->). rewrite !existsb_app.
  split_and!; rewrite ?orb_assoc; try done.
  destruct (answer_scoped a), (existsb _ vs1), (existsb _ vs2); cbn; rewrite ?orb_true_r; try done;
    repeat match goal with |- context [existsb ?f ?l] => destruct (existsb f l) end; done.
Qed.

Lemma assess_fold payload allowed kind es a a' :
  fold_entries (assess_entry payload allowed kind) es a = Ok a' ->
  exists vs, fst <$> vs = List.filter (asked kind) es /\ Forall (fun x => verdict allowed payload x.1 x.2) vs /\ flags_of a vs a'.
Proof.
  revert a. induction es as [|e es IH]; intros a; cbn [fold_entries List.filter].
  - intros [= <-]. exists []. split_and!; [done|constructor|]. unfold flags_of. cbn. rewrite !orb_false_r. by split_and!.
  - intros (a1&Ha&H)%bind_Ok. apply assess_entry_flags in Ha. apply IH in H as (vs&Hf&Hv&Hfl).
    destruct (asked kind e).
    + destruct Ha as (v&Hvv&Ha). exists ((e, v) :: vs). split_and!; [cbn; by rewrite Hf|by constructor|].
      by apply (flags_of_app a [(e, v)] a1).
    + exists vs. split_and!; [done|done|]. by apply (flags_of_app a [] a1).
Qed.

Definition no_flags : Assess :=
  {| as_budget := 0; granted := false; any_refused := false; unscoped := false; answer_scoped := false;
     answer_granted := false; answer_unscoped := false; refused := [] |}.

(** The scope of a message, from the verdicts on what it is judged by. *)
Definition scope_by (kind : MdnsKind) (vs : list (Entry * option bool)) : Scope :=
  if negb (any (Some false) vs) then ScPass
  else match kind with
       | Query => if any (Some true) vs || any None vs then ScPass else ScRefuse
       | Response =>
           if any_answer (Some true) vs || (any_answer None vs && negb (any_answer (Some false) vs))
           then ScTrim else ScRefuse
       end.

Lemma assess_scope payload allowed sc r :
  assess payload allowed = Ok (sc, r) ->
  exists kind es vs, classified payload = Ok kind /\ entry_list payload = Ok es /\
    fst <$> vs = List.filter (asked kind) es /\ Forall (fun x => verdict allowed payload x.1 x.2) vs /\
    sc = scope_by kind vs.
Proof.
  unfold assess. intros (kind&Hk&H)%bind_Ok. apply bind_Ok in H as (a&Ha&[= <- <-]).
  apply each_entry_fold in Ha as (es&Hes&Ha). apply assess_fold in Ha as (vs&Hf&Hv&Hg&Hr&Hu&Hag&Has&Hau).
  cbn [granted any_refused unscoped answer_scoped answer_granted answer_unscoped orb] in *.
  exists kind, es, vs. split_and!; try done. unfold scope_of, scope_by. rewrite Hr, Hg, Hu, Hag, Has, Hau.
  destruct (any (Some false) vs); [|done]. destruct kind; [done|].
  by destruct (any_answer (Some true) vs), (any_answer None vs), (any_answer (Some false) vs).
Qed.

(** ** Trimming *)

Lemma kept_complete K es sel e :
  (K e true -> K e false -> False) -> kept K es sel -> e ∈ es -> K e true -> e ∈ sel.
Proof.
  intros Hx. induction 1 as [|e' es sel HK _ IH|e' es sel HK _ IH]; intros H Ht; [done| |];
    apply elem_of_cons in H as [-> |H].
  - constructor.
  - constructor. by apply IH.
  - by destruct Hx.
  - by apply IH.
Qed.

Lemma kept_shorter K es sel e :
  (K e true -> K e false -> False) -> kept K es sel -> e ∈ es -> K e false -> (length sel < length es)%nat.
Proof.
  intros Hx. assert (Hle : forall es sel, kept K es sel -> (length sel <= length es)%nat) by (induction 1; cbn; lia).
  induction 1 as [|e' es sel HK Hk IH|e' es sel HK Hk IH]; intros H Hf; [by apply not_elem_of_nil in H| |];
    apply elem_of_cons in H as [-> |H]; cbn [length].
  - by destruct Hx.
  - specialize (IH H Hf). lia.
  - specialize (Hle _ _ Hk). lia.
  - specialize (IH H Hf). lia.
Qed.

Lemma admitted_det allowed payload e : admitted allowed payload e true -> admitted allowed payload e false -> False.
Proof.
  unfold admitted. case_bool_decide; [done|]. intros (s&Hs&E) (s'&Hs'&E').
  pose proof (entry_names_det _ _ _ _ Hs Hs') as ->. congruence.
Qed.

Lemma verdict_admitted allowed payload e v :
  asked Response e = true -> verdict allowed payload e v ->
  admitted allowed payload e (match v with Some b => b | None => true end).
Proof.
  unfold asked, admitted. rewrite negb_true_iff. intros -> (s&Hs&->). exists s. split; [done|]. by destruct s.
Qed.

(** An entry of a verdict is one of the entries asked. *)
Lemma verdict_entry allowed payload kind es vs e v :
  fst <$> vs = List.filter (asked kind) es -> Forall (fun x => verdict allowed payload x.1 x.2) vs ->
  (e, v) ∈ vs -> e ∈ es /\ asked kind e = true /\ verdict allowed payload e v.
Proof.
  intros Hf Hv Hin.
  assert (e ∈ List.filter (asked kind) es) as He by (rewrite <- Hf; by apply (list_elem_of_fmap_2 fst vs (e, v))).
  apply list_elem_of_In, List.filter_In in He as [He Ha]. split_and!; [by apply list_elem_of_In|done|].
  rewrite Forall_forall in Hv. exact (Hv _ Hin).
Qed.

Lemma any_elem v vs : any v vs = true <-> exists e, (e, v) ∈ vs.
Proof.
  unfold any, is_verdict. rewrite existsb_exists. split.
  - intros ([e w]&Hin&Hw%bool_decide_eq_true). cbn in Hw. subst w. exists e. by apply list_elem_of_In.
  - intros (e&Hin). exists (e, v). split; [by apply list_elem_of_In|by apply bool_decide_eq_true].
Qed.

Lemma any_answer_elem v vs : any_answer v vs = true <-> exists e, (e, v) ∈ vs /\ section e = Answer.
Proof.
  unfold any_answer, is_verdict, is_answer. rewrite existsb_exists. split.
  - intros ([e w]&Hin&[Ha%bool_decide_eq_true Hw%bool_decide_eq_true]%andb_true_iff). cbn in *. subst w.
    exists e. split; [by apply list_elem_of_In|done].
  - intros (e&Hin&Ha). exists (e, v). split; [by apply list_elem_of_In|]. cbn. apply andb_true_iff.
    by split; apply bool_decide_eq_true.
Qed.

Lemma Forall2_elem_l {A B} (R : A -> B -> Prop) l k x : Forall2 R l k -> x ∈ l -> exists y, y ∈ k /\ R x y.
Proof.
  intros H Hx. apply list_elem_of_lookup in Hx as [i Hi]. destruct (Forall2_lookup_l _ _ _ _ _ H Hi) as (y&Hy&HR).
  exists y. split; [by eapply list_elem_of_lookup_2|done].
Qed.

Lemma Forall2_elem_r {A B} (R : A -> B -> Prop) l k y : Forall2 R l k -> y ∈ k -> exists x, x ∈ l /\ R x y.
Proof.
  intros H Hy. apply list_elem_of_lookup in Hy as [i Hi]. destruct (Forall2_lookup_r _ _ _ _ _ H Hi) as (x&Hx&HR).
  exists x. split; [by eapply list_elem_of_lookup_2|done].
Qed.

(** C18. A response the allow-list trims is re-encoded as its questions, which
    are not judged, and the other entries that name no refused service, name for
    name and in order, and nothing else: walked again, no entry of the new message
    but its questions names a service outside the list; it is no longer than the old
    one, has the same id and flags, and still holds an answer. *)
Theorem trimmed_message allowed payload m removed refused :
  bytes_ok payload -> decide_services allowed payload = Ok (Trimmed m removed refused) ->
  exists es sel es',
    entry_list payload = Ok es /\ kept (admitted allowed payload) es sel /\ entry_list m = Ok es' /\
    Forall2 (fun e e' => section e' = section e /\ same_record payload e m e') sel es' /\
    (length m <= length payload)%nat /\ take 4 m = take 4 payload /\
    (removed + length sel = length es)%nat /\ (0 < removed)%nat /\
    (exists e', e' ∈ es' /\ section e' = Answer) /\
    forall e' s, e' ∈ es' -> section e' <> Question -> entry_names m e' (Some s) -> allows allowed s = true.
Proof.
  intros Hb H. unfold decide_services in H.
  destruct (assess payload allowed) as [[sc r]|[]|] eqn:Ea; try done. destruct sc; try done.
  destruct (trim _ _ _) as [[m' removed']|[]|] eqn:Et; try done. injection H as <- <- <-.
  apply (trim_spec payload _ _ (admitted allowed payload)) in Et
    as (es&sel&es'&Hes&Hsel&Hes'&Hf&Hlen&Ht4&Hn); [|done|intros e b k b' _; apply keep_allowed_admitted].
  assert (Hl12 : (DNS_HEADER_LEN <= length payload)%nat).
  { unfold assess in Ea. apply bind_Ok in Ea as (kind&Hk&_). unfold classified, classify in Hk.
    destruct (Nat.ltb_spec (length payload) DNS_HEADER_LEN); [done|lia]. }
  destruct (entry_list_sections payload es Hb Hl12 Hes) as [Ho _].
  apply selection_kept in Hsel as (s&Hk&->); [|done]. apply (Forall2_own (fun e e' => same_record payload e m' e')) in Hf.
  unfold own in Hn. rewrite length_fmap in Hn.
  apply assess_scope in Ea as (kind&es1&vs&_&Hes1&Hfst&Hvs&Hsc). rewrite Hes in Hes1. injection Hes1 as <-.
  unfold scope_by in Hsc. destruct (any (Some false) vs) eqn:Hany; cbn [negb] in Hsc; [|done].
  destruct kind; [by destruct (_ || _)|].
  exists es, s, es'. split_and!; try done.
  - apply any_elem in Hany as (e&Hin). destruct (verdict_entry _ _ _ _ _ _ _ Hfst Hvs Hin) as (He&Has&Hv).
    apply (verdict_admitted _ _ _ _ Has) in Hv.
    pose proof (kept_shorter _ _ _ e (admitted_det allowed payload e) Hk He Hv). lia.
  - assert (exists e v, (e, v) ∈ vs /\ section e = Answer /\ v <> Some false) as (e&v&Hin&Hans&Hv).
    { destruct (any_answer (Some true) vs) eqn:E1; [apply any_answer_elem in E1 as (e&?&?); by exists e, (Some true)|].
      destruct (any_answer None vs) eqn:E2; [apply any_answer_elem in E2 as (e&?&?); by exists e, None|done]. }
    destruct (verdict_entry _ _ _ _ _ _ _ Hfst Hvs Hin) as (He&Has&Hvd). apply (verdict_admitted _ _ _ _ Has) in Hvd.
    replace (match v with Some b => b | None => true end) with true in Hvd by (by destruct v as [[]|]).
    pose proof (kept_complete _ _ _ e (admitted_det allowed payload e) Hk He Hvd) as Hs.
    destruct (Forall2_elem_l _ _ _ _ Hf Hs) as (e'&He'&Hse&_). exists e'. by rewrite Hse.
  - intros e' sv He' Hq Hnm. destruct (Forall2_elem_r _ _ _ _ Hf He') as (e&He&Hse&Hsame).
    pose proof (entries_from_read _ _ _ _ Hes) as Hr. pose proof (entries_from_read _ _ _ _ Hes') as Hr'.
    destruct (kept_In _ _ _ _ Hk He) as [Hin Hadm]. rewrite Forall_forall in Hr, Hr'.
    unfold admitted in Hadm. rewrite bool_decide_false in Hadm by (by rewrite <- Hse). destruct Hadm as (s1&Hs1&Hal).
    pose proof (same_record_names _ _ _ _ (Hr _ Hin) (Hr' _ He') (same_questions_of _ _ Hse) Hsame _ Hs1) as Hs2.
    pose proof (entry_names_det _ _ _ _ Hnm Hs2) as <-. done.
Qed.

Definition ex_trimmed : bytes * nat * list ServiceType :=
  match decide_services (ex_allowed "_ipp._tcp") ex_response with
  | Ok (Trimmed m removed refused) => (m, removed, refused)
  | _ => ([], 0%nat, [])
  end.

Lemma ex_response_ok : bytes_ok ex_response.
Proof. apply (bool_decide_unpack _). vm_compute. done. Qed.

Lemma trimmed_message_witness :
  exists es', entry_list ex_trimmed.1.1 = Ok es' /\ exists e', e' ∈ es' /\ section e' = Answer.
Proof.
  assert (E : decide_services (ex_allowed "_ipp._tcp") ex_response = Ok (Trimmed ex_trimmed.1.1 ex_trimmed.1.2 ex_trimmed.2))
    by (vm_compute; reflexivity).
  destruct (trimmed_message (ex_allowed "_ipp._tcp") ex_response ex_trimmed.1.1 ex_trimmed.1.2 ex_trimmed.2 ex_response_ok E)
    as (_&_&es'&_&_&H&_&_&_&_&_&Ha&_).
  exists es'. exact (conj H Ha).
Defined.

(** What the allow-list decides of a message it can walk follows from the
    verdicts on what the message is judged by, a query's questions or a
    response's records: it is passed untouched when none is refused, or when a
    query also asks something that is not; a response is trimmed when an
    answer is allowed, or when answers of no service type are all it has; the
    rest is refused. *)
Theorem decision_by_verdicts allowed payload d :
  decide_services allowed payload = Ok d -> d <> MalformedMessage ->
  exists kind es vs,
    classified payload = Ok kind /\ entry_list payload = Ok es /\
    fst <$> vs = List.filter (asked kind) es /\ Forall (fun x => verdict allowed payload x.1 x.2) vs /\
    match d with
    | Pass => scope_by kind vs = ScPass
    | Refuse _ => scope_by kind vs = ScRefuse
    | Trimmed _ _ _ => scope_by kind vs = ScTrim
    | MalformedMessage => False
    end.
Proof.
  intros H Hd. unfold decide_services in H. destruct (assess payload allowed) as [[sc r]|[]|] eqn:Ea; [|by injection H as <-|done].
  apply assess_scope in Ea as (kind&es&vs&Hk&Hes&Hf&Hv&Hsc). exists kind, es, vs. split_and!; try done.
  destruct sc; [by injection H as <-..|].
  destruct (trim _ _ _) as [[m n]|[]|]; [by injection H as <-|by injection H as <-|done].
Qed.

Lemma decision_by_verdicts_witness :
  exists kind es vs, entry_list ex_response = Ok es /\ fst <$> vs = List.filter (asked kind) es /\ scope_by kind vs = ScRefuse.
Proof.
  destruct (decision_by_verdicts (ex_allowed "_smb._tcp") ex_response
    (match decide_services (ex_allowed "_smb._tcp") ex_response with Ok d => d | _ => MalformedMessage end)) as (k&es&vs&_&H1&H2&_&H3).
  - vm_compute. reflexivity.
  - by vm_compute.
  - exists k, es, vs. split_and!; [done|done|]. vm_compute in H3. exact H3.
Defined.

(** ** The strip *)

Definition dead (payload : bytes) (e : Entry) : bool := some_and is_unreachable (address payload e).
Definition alive (payload : bytes) (e : Entry) : bool :=
  some_and (fun ip => negb (is_unreachable ip)) (address payload e).

Lemma question_no_address payload e : entry_read payload e -> section e = Question -> address payload e = None.
Proof.
  intros He Hq. destruct (er_question _ _ He Hq) as [Hr Hend]. unfold address. rewrite Hr, Hend.
  destruct (get_range _ _ _) as [data|] eqn:Hg; [|done]. cbn [mbind option_bind].
  apply get_range_length in Hg. rewrite Nat.sub_diag in Hg.
  destruct (rtype e =? TYPE_A); [by rewrite decide_False by lia|].
  destruct (rtype e =? TYPE_AAAA); [by rewrite decide_False by lia|done].
Qed.

Lemma address_of_content payload e c :
  entry_read payload e -> section e <> Question ->
  record_at anywhere payload (is_question e) (e_name e) c (e_end e) ->
  address payload e =
    if of_be (take 2 (c_fixed c)) =? TYPE_A then
      if decide (length (c_before c) = 4%nat) then Some (V4 (of_be (c_before c))) else None
    else if of_be (take 2 (c_fixed c)) =? TYPE_AAAA then
      if decide (length (c_before c) = 16%nat) then Some (V6 (of_be (c_before c))) else None
    else None.
Proof.
  intros He Hq H. destruct (record_rdata _ _ _ He Hq H) as [Ht Hr]. unfold address. rewrite Ht in *.
  destruct (get_range (rdata e) (e_end e) payload) as [data|] eqn:Hg.
  2: { unfold get_range in Hg. pose proof (er_end _ _ He) as [[_ ?] ?]. case_decide; [done|lia]. }
  cbn [mbind option_bind]. unfold rdata_at in Hr.
  destruct (Z.eqb_spec (of_be (take 2 (c_fixed c))) TYPE_A) as [E|_].
  - rewrite E in Hr. change (rdata_names_of TYPE_A) with (@None RdataNames) in Hr.
    assert (span_at anywhere payload (rdata e) (e_end e) (c_before c)) as [Hs _] by (destruct (_ <? _)%nat; apply Hr).
    rewrite Hg in Hs. by injection Hs as ->.
  - destruct (Z.eqb_spec (of_be (take 2 (c_fixed c))) TYPE_AAAA) as [E|_]; [|done].
    rewrite E in Hr. change (rdata_names_of TYPE_AAAA) with (@None RdataNames) in Hr.
    assert (span_at anywhere payload (rdata e) (e_end e) (c_before c)) as [Hs _] by (destruct (_ <? _)%nat; apply Hr).
    rewrite Hg in Hs. by injection Hs as ->.
Qed.

(** Records with the same content hold the same address. *)
Lemma same_record_address payload m e e' :
  entry_read payload e -> entry_read m e' -> is_question e = is_question e' ->
  same_record payload e m e' -> address m e' = address payload e.
Proof.
  intros He He' Hsec (c&H1&H2). pose proof (same_questions e e' Hsec) as Hqq.
  destruct (decide (section e = Question)) as [Hq|Hq].
  - rewrite (question_no_address _ _ He Hq), (question_no_address _ _ He' (proj1 Hqq Hq)). done.
  - rewrite (address_of_content _ _ c He Hq H1), (address_of_content _ _ c He'); [done|by rewrite <- Hqq|done].
Qed.

Lemma advertised_fold payload es a a' :
  fold_entries (advertised_entry payload) es a = Ok a' ->
  usable a' = usable a || existsb (alive payload) es /\ unreachable a' = unreachable a || existsb (dead payload) es.
Proof.
  revert a. induction es as [|e es IH]; intros a; cbn [fold_entries existsb].
  - intros [= <-]. by rewrite !orb_false_r.
  - intros (a1&Ha&H)%bind_Ok. apply IH in H as [-> ->]. unfold advertised_entry in Ha. injection Ha as <-.
    cbn [usable unreachable]. unfold alive, dead. rewrite <- !orb_assoc. split; [|done]. f_equal. f_equal.
    destruct (address payload e); [|done]. by rewrite bool_decide_true.
Qed.

(** The filter [strip] trims with. *)
Definition reachable (payload : bytes) (e : Entry) (k : bool) : Prop := k = negb (dead payload e).

Lemma alive_not_dead payload e : alive payload e = true -> dead payload e = false.
Proof. unfold alive, dead. destruct (address payload e); [|done]. cbn. apply negb_true_iff. Qed.

(** Questions stay questions, and records records. *)
Lemma selection_question K refill es sel x :
  selection K refill es sel -> x ∈ sel -> bool_decide (x.1 = Question) = is_question x.2.
Proof.
  intros (head&tail&_&H) Hx.
  assert (Hown : forall l, x ∈ own l -> bool_decide (x.1 = Question) = is_question x.2) by (intros l (e&->&?)%list_elem_of_fmap; done).
  destruct (existsb is_answer head); destruct H as [_ ->].
  - by apply elem_of_app in Hx as [Hx|Hx]; apply Hown in Hx.
  - apply elem_of_app in Hx as [Hx|[Hx|Hx]%elem_of_app]; [by apply Hown in Hx| |by apply Hown in Hx].
    apply list_elem_of_fmap in Hx as (e&->&He). apply list_elem_of_In, List.filter_In in He as [_ He].
    unfold refills, is_question in *. cbn [fst snd]. by destruct (section e).
Qed.

(** A selected entry is not dead, and one that is alive is selected. *)
Lemma selection_reachable payload es sel :
  selection (reachable payload) (alive payload) es sel ->
  (forall x, x ∈ sel -> dead payload x.2 = false /\ x.2 ∈ es) /\
  (forall e, e ∈ es -> dead payload e = false -> exists s, (s, e) ∈ sel).
Proof.
  intros (head&tail&Hh&H).
  assert (Hown : forall l x, x ∈ own l -> x.2 ∈ l) by (intros l x (e&->&?)%list_elem_of_fmap; done).
  assert (Hkept : forall p l, kept (reachable payload) (List.filter p es) l ->
    (forall e, e ∈ l -> dead payload e = false /\ e ∈ es) /\
    (forall e, e ∈ es -> p e = true -> dead payload e = false -> (section e, e) ∈ own l)).
  { intros p l Hk. split.
    - intros e He. apply (kept_In _ _ _ _ Hk) in He as [He Hr]. apply list_elem_of_In, List.filter_In in He as [He _].
      unfold reachable in Hr. symmetry in Hr. apply negb_true_iff in Hr. split; [done|by apply list_elem_of_In].
    - intros e He Hp Hd. unfold own. apply (list_elem_of_fmap_2 (fun e => (section e, e))). apply (kept_complete _ _ _ _) with (2 := Hk).
      + unfold reachable. congruence.
      + apply list_elem_of_In, List.filter_In. by rewrite <- list_elem_of_In.
      + unfold reachable. by rewrite Hd. }
  destruct (Hkept _ _ Hh) as [Hh1 Hh2]. split.
  - intros x Hx. destruct (existsb is_answer head); destruct H as [Ht ->]; destruct (Hkept _ _ Ht) as [Ht1 _].
    + apply elem_of_app in Hx as [Hx|Hx]; apply Hown in Hx; auto.
    + apply elem_of_app in Hx as [Hx|[Hx|Hx]%elem_of_app]; [apply Hown in Hx; auto| |apply Hown in Hx; auto].
      apply list_elem_of_fmap in Hx as (e&->&He). apply list_elem_of_In, List.filter_In in He as [He Hr].
      unfold refills in Hr. apply andb_true_iff in Hr as [_ Hr]. split; [by apply alive_not_dead|by apply list_elem_of_In].
  - intros e He Hd. destruct (early e) eqn:Ee.
    { exists (section e). destruct (existsb is_answer head); destruct H as [_ ->]; apply elem_of_app; left; by apply Hh2. }
    destruct (existsb is_answer head); destruct H as [Ht ->]; destruct (Hkept _ _ Ht) as [_ Ht2].
    + exists (section e). apply elem_of_app. right. apply Ht2; [done|by rewrite Ee|done].
    + destruct (alive payload e) eqn:Ea.
      * exists Answer. apply elem_of_app. right. apply elem_of_app. left. apply (list_elem_of_fmap_2 (pair Answer)).
        apply list_elem_of_In, List.filter_In. split; [by apply list_elem_of_In|]. unfold refills.
        unfold early in Ee. apply negb_false_iff in Ee. by rewrite Ee.
      * exists (section e). apply elem_of_app. right. apply elem_of_app. right.
        apply Ht2; [done|by rewrite Ee, Ea|done].
Qed.

(** Something alive leaves an answer. *)
Lemma selection_answer payload es sel e :
  Forall (entry_read payload) es ->
  selection (reachable payload) (alive payload) es sel -> e ∈ es -> alive payload e = true ->
  exists x, x ∈ sel /\ x.1 = Answer.
Proof.
  intros Hr (head&tail&Hh&H) He Ha. destruct (existsb is_answer head) eqn:Eh.
  - apply existsb_exists in Eh as (a&Hin&Hs%bool_decide_eq_true). destruct H as [_ ->].
    exists (section a, a). split; [|done]. apply elem_of_app. left.
    apply (list_elem_of_fmap_2 (fun e => (section e, e))). by apply list_elem_of_In.
  - destruct H as [_ ->]. destruct (early e) eqn:Ee.
    + assert (e ∈ head) as Hin.
      { apply (kept_complete _ _ _ _) with (2 := Hh); [unfold reachable; congruence| |].
        - apply list_elem_of_In, List.filter_In. by rewrite <- list_elem_of_In.
        - unfold reachable. by rewrite (alive_not_dead _ _ Ha). }
      destruct (decide (section e = Answer)) as [Hs|Hs].
      { assert (existsb is_answer head = true) as Hx; [|by rewrite Hx in Eh].
        apply existsb_exists. exists e. split; [by apply list_elem_of_In|by apply bool_decide_eq_true]. }
      assert (section e = Question) as Hq by (unfold early in Ee; by destruct (section e)).
      rewrite Forall_forall in Hr. unfold alive in Ha. by rewrite (question_no_address _ _ (Hr _ He) Hq) in Ha.
    + exists (Answer, e). split; [|done]. apply elem_of_app. right. apply elem_of_app. left.
      apply (list_elem_of_fmap_2 (pair Answer)). apply list_elem_of_In, List.filter_In.
      split; [by apply list_elem_of_In|]. unfold refills. unfold early in Ee. apply negb_false_iff in Ee. by rewrite Ee.
Qed.

(** C19. A stripped message holds no unreachable address and loses nothing
    else: walked again, its records are the old ones that advertise no
    unreachable address, each with the content it had, no longer in all than
    the old message; and it always has an answer, since when the strip leaves
    none the usable addresses of the later sections become the answers. *)
Theorem stripped_message payload m removed :
  bytes_ok payload -> strip payload = Ok (Some (m, removed)) ->
  exists es sel es',
    entry_list payload = Ok es /\ selection (reachable payload) (alive payload) es sel /\ entry_list m = Ok es' /\
    Forall2 (fun x e' => section e' = x.1 /\ same_record payload x.2 m e') sel es' /\
    (length m <= length payload)%nat /\ (removed + length sel = length es)%nat /\
    (forall e', e' ∈ es' -> some_and is_unreachable (address m e') = false) /\
    (forall e, e ∈ es -> some_and is_unreachable (address payload e) = false ->
       exists e', e' ∈ es' /\ same_record payload e m e' /\ address m e' = address payload e) /\
    exists e', e' ∈ es' /\ section e' = Answer.
Proof.
  intros Hb H. unfold strip in H. destruct (advertised payload) as [a|[]|] eqn:Ea; try done.
  destruct (usable a && unreachable a) eqn:Hflags; [cbn [negb] in H|done]. apply andb_true_iff in Hflags as [Hu _].
  destruct (trim _ _ _) as [r|[]|] eqn:Et; try done. injection H as ->.
  apply (trim_spec payload _ _ (reachable payload)) in Et
    as (es&sel&es'&Hes&Hsel&Hes'&Hf&Hlen&_&Hn); [|done|by intros e b k b' _ [= <- _]].
  apply each_entry_fold in Ea as (es1&Hes1&Ea). rewrite Hes in Hes1. injection Hes1 as <-.
  apply advertised_fold in Ea as [Eu _]. rewrite Hu in Eu. cbn [usable orb] in Eu. symmetry in Eu.
  pose proof (entries_from_read _ _ _ _ Hes) as Hr. pose proof (entries_from_read _ _ _ _ Hes') as Hr'.
  destruct (selection_reachable _ _ _ Hsel) as [Hdead Hall].
  assert (Haddr : forall x e', x ∈ sel -> e' ∈ es' -> section e' = x.1 -> same_record payload x.2 m e' ->
    address m e' = address payload x.2).
  { intros x e' Hx He' Hs Hsame. rewrite Forall_forall in Hr, Hr'. destruct (Hdead _ Hx) as [_ Hin].
    apply same_record_address; [by apply Hr|by apply Hr'| |done].
    rewrite <- (selection_question _ _ _ _ _ Hsel Hx), <- Hs. done. }
  exists es, sel, es'. split_and!; try done.
  - intros e' He'. destruct (Forall2_elem_r _ _ _ _ Hf He') as (x&Hx&Hs&Hsame).
    rewrite (Haddr x e') by done. by apply Hdead.
  - intros e He Hd. destruct (Hall e He Hd) as (s&Hin). destruct (Forall2_elem_l _ _ _ _ Hf Hin) as (e'&He'&Hs&Hsame).
    exists e'. split_and!; [done|done|]. by apply (Haddr (s, e)).
  - apply existsb_exists in Eu as (e&He%list_elem_of_In&Hal).
    destruct (selection_answer _ _ _ e Hr Hsel He Hal) as (x&Hx&Hxs).
    destruct (Forall2_elem_l _ _ _ _ Hf Hx) as (e'&He'&Hs&_). exists e'. by rewrite Hs.
Qed.

Definition ex_stripped : bytes * nat :=
  match strip ex_response with Ok (Some r) => r | _ => ([], 0%nat) end.

Lemma stripped_message_witness :
  exists es', entry_list ex_stripped.1 = Ok es' /\
    forall e', e' ∈ es' -> some_and is_unreachable (address ex_stripped.1 e') = false.
Proof.
  assert (E : strip ex_response = Ok (Some (ex_stripped.1, ex_stripped.2))) by (vm_compute; reflexivity).
  destruct (stripped_message ex_response ex_stripped.1 ex_stripped.2 ex_response_ok E)
    as (_&_&es'&_&_&H&_&_&_&Hd&_). exists es'. exact (conj H Hd).
Defined.
