(* ===== verification/ConfigError.v ===== *)
(** The configuration errors of [src/config/error.rs] and the protocol names
    they print ([src/config/conflict.rs]).  The payload of an error that wraps a
    third-party one (TOML, I/O, integer parsing) is dropped. *)

From S2P Require Import Prelude Text Addr UniqueList Mac Names Value.

Inductive Protocol : Type := PWol | PMdns | PSsdp | PWsd | PUdp.
Global Instance Protocol_eq_dec : EqDecision Protocol.
Proof. solve_decision. Defined.

(** [Protocol]'s [Display] *)
Definition protocol_display (p : Protocol) : bytes :=
  match p with
  | PWol => bs "WoL" | PMdns => bs "mDNS" | PSsdp => bs "SSDP" | PWsd => bs "WSD"
  | PUdp => bs "UDP relay"
  end.

Inductive RequiredField : Type := SourceIf | TargetIf.
Global Instance RequiredField_eq_dec : EqDecision RequiredField.
Proof. solve_decision. Defined.
Definition required_field_display (f : RequiredField) : bytes :=
  match f with SourceIf => bs "source_if" | TargetIf => bs "target_if" end.

Global Instance ListError_eq_dec {T} `{EqDecision T} : EqDecision (ListError T).
Proof. solve_decision. Defined.

Inductive ParseValueError : Type :=
  | VLogLevel
  | VLogTarget
  | VAddressFamily
  | VMacs (e : ListError MacAddr)
  | VServices (e : ListError ServiceType)
  | VInterface (e : ParseInterfaceNameError)
  | VPorts (e : ListError Z)
  | VAddresses (e : ListError IpAddr)
  | VReflectorName
  | VRunAs
  | VBool
  | VInteger.
Global Instance ParseValueError_eq_dec : EqDecision ParseValueError.
Proof. solve_decision. Defined.

Inductive ConfigError : Type :=
  | Parse
  | ReadFile (path : bytes)
  | NoReflectors
  | EmptyReflectorName (key : bytes)
  | SameInterface (name : ReflectorName) (value : InterfaceName)
  | NoProtocol (name : ReflectorName)
  | UdpRelayWithoutPorts (name : ReflectorName)
  | UdpRelayNoDestination (name : ReflectorName)
  | UdpGroupFamily (name : ReflectorName) (group : IpAddr)
  | PeerFamily (name : ReflectorName) (peer : IpAddr)
  | UdpBroadcastFamily (name : ReflectorName)
  | Ipv6OnlyRelay (name : ReflectorName)
  | Ipv6OnlyPeers (name : ReflectorName) (field : bytes)
  | UdpRelayDuplicates (name : ReflectorName) (port : Z) (protocol : Protocol)
  | WolPortsWithoutWol (name : ReflectorName)
  | MdnsServicesWithoutMdns (name : ReflectorName)
  | MacsUnused (name : ReflectorName)
  | DialWithoutSsdp (name : ReflectorName)
  | DialRequiresIpv4 (name : ReflectorName)
  | DuplicateReflector (tag : bytes)
  | DuplicateReflectorName (name : ReflectorName)
  | ConflictingReflectors (protocol : Protocol) (first second : ReflectorName)
      (ingress egress : InterfaceName)
  | EnvMalformedVar (var : bytes)
  | EnvInvalidTag (var tag : bytes)
  | EnvReservedTag (var : bytes)
  | EnvUnknownParam (var param : bytes)
  | EnvDuplicateParam (var param : bytes)
  | EnvBadValue (var value : bytes) (source : ParseValueError)
  | EnvMissingField (name : bytes) (field : RequiredField)
  | IntervalTooLarge (field : bytes) (secs max : Z).
Global Instance ConfigError_eq_dec : EqDecision ConfigError.
Proof. solve_decision. Defined.
