(* ===== verification/Conflict.v ===== *)
(** The cross-reflector rule of [src/config/conflict.rs]: an entry is expanded
    into the classes of datagrams it relays, and two entries conflict when a
    datagram exists in a flow of each. *)

From S2P Require Import Prelude Text Addr UniqueList Mac Names Value Ssdp Wsd Mdns ConfigError.

Local Open Scope Z_scope.

Definition families_overlap (a b : AddressFamily) : bool :=
  (uses_ipv4 a && uses_ipv4 b) || (uses_ipv6 a && uses_ipv6 b).

Definition macs_overlap (a b : option MacSet) : bool :=
  match a, b with
  | Some a, Some b => existsb (fun mac => bool_decide (mac ∈ b)) a
  | _, _ => true
  end.

Inductive Reach : Type :=
  | Any (family : AddressFamily)
  | Group (group : IpAddr)
  | Broadcast.
Global Instance Reach_eq_dec : EqDecision Reach.
Proof. solve_decision. Defined.

(** [Reach::overlaps] *)
Definition reach_overlaps (r other : Reach) : bool :=
  match r, other with
  | Any a, Any b => families_overlap a b
  | Any family, Group group | Group group, Any family => uses family group
  | Any family, Broadcast | Broadcast, Any family => uses_ipv4 family
  | Group a, Group b => bool_decide (a = b)
  | Broadcast, Broadcast => true
  | Group _, Broadcast | Broadcast, Group _ => false
  end.

(** [Leg]: ingress and egress. *)
Abbreviation Leg := (InterfaceName * InterfaceName)%type.

Record Flow : Type := {
  protocol : Protocol;
  ingress : InterfaceName;
  egress : InterfaceName;
  f_port : Z;
  reach : Reach;
}.
Global Instance Flow_eq_dec : EqDecision Flow.
Proof. solve_decision. Defined.

(** [Flow::overlaps] *)
Definition overlaps (f other : Flow) : bool :=
  bool_decide (ingress f = ingress other) && bool_decide (egress f = egress other) &&
  (f_port f =? f_port other) && reach_overlaps (reach f) (reach other).

(** [UdpRelay::destinations] *)
Definition destinations (u : UdpRelay) : list (Z * Reach) :=
  mjoin ((fun port =>
    ((fun group => (port, Group group)) <$> or_empty (udp_groups u)) ++
    (if udp_broadcast u then [(port, Broadcast)] else [])) <$> udp_ports u).

(** [Reflector::directions] *)
Definition directions (r : Reflector) : list Leg :=
  (source_if r, target_if r) ::
  (if bidirectional r then [(target_if r, source_if r)] else []).

(** The closure [discovery] of [Reflector::flows]: what it appends. *)
Definition discovery (r : Reflector) (p : Protocol) (port : Z) (groups : list IpAddr) : list Flow :=
  mjoin ((fun group =>
    (fun leg : Leg => {| protocol := p; ingress := leg.1; egress := leg.2;
                         f_port := port; reach := Group group |})
      <$> [(source_if r, target_if r); (target_if r, source_if r)])
    <$> filter (fun group => uses (address_family r) group = true) groups).

Definition wol_flows (r : Reflector) (leg : Leg) : list Flow :=
  match wol r with
  | Some wol => (fun port => {| protocol := PWol; ingress := leg.1; egress := leg.2;
                                f_port := port; reach := Any (address_family r) |}) <$> wol_ports wol
  | None => []
  end.
Definition udp_flows (r : Reflector) (leg : Leg) : list Flow :=
  match udp r with
  | Some udp => (fun dest : Z * Reach =>
                   {| protocol := PUdp; ingress := leg.1; egress := leg.2;
                      f_port := dest.1; reach := dest.2 |}) <$> destinations udp
  | None => []
  end.

(** [Reflector::flows] *)
Definition flows (r : Reflector) : list Flow :=
  (if bool_decide (is_Some (mdns r)) then discovery r PMdns MDNS_PORT [V4 MDNS_GROUP_V4; V6 MDNS_GROUP_V6] else []) ++
  (if bool_decide (is_Some (ssdp r)) then discovery r PSsdp SSDP_PORT
     [V4 SSDP_GROUP_V4; V6 SSDP_GROUP_V6_LINK_LOCAL; V6 SSDP_GROUP_V6_SITE_LOCAL] else []) ++
  (if wsd r then discovery r PWsd WSD_PORT [V4 WSD_GROUP_V4; V6 WSD_GROUP_V6] else []) ++
  mjoin ((fun leg => wol_flows r leg ++ udp_flows r leg) <$> directions r).

(** [find] *)
Fixpoint find_first {A} (p : A -> bool) (l : list A) : option A :=
  match l with
  | [] => None
  | x :: l => if p x then Some x else find_first p l
  end.

Definition is_relay (f : Flow) : bool := bool_decide (protocol f = PUdp).

(** [Reflector::relay_overlap] *)
Definition relay_overlap (r : Reflector) (others : list Flow) : option Flow :=
  find_first (fun other => existsb (fun mine => is_relay mine && overlaps mine other) (flows r)) others.

(** [Reflector::relay_duplicates] *)
Definition relay_duplicates (r : Reflector) : option (Protocol * Z) :=
  (fun flow => (protocol flow, f_port flow)) <$>
    relay_overlap r (filter (fun f => is_relay f = false) (flows r)).

(** [Reflector::shared_protocol] *)
Definition shared_protocol (r other : Reflector) : option (Protocol * Leg) :=
  leg ← find_first (fun mine => existsb (fun theirs => bool_decide (theirs = mine)) (directions other))
          (directions r);
  if negb (macs_overlap (macs r) (macs other)) ||
     negb (families_overlap (address_family r) (address_family other)) then None
  else
    let share_wol := match wol r, wol other with
                     | Some a, Some b => existsb (fun port => bool_decide (port ∈ wol_ports b)) (wol_ports a)
                     | _, _ => false
                     end in
    protocol ←
      (if share_wol then Some PWol
       else if bool_decide (is_Some (mdns r)) && bool_decide (is_Some (mdns other)) then Some PMdns
       else if bool_decide (is_Some (ssdp r)) && bool_decide (is_Some (ssdp other)) then Some PSsdp
       else if wsd r && wsd other then Some PWsd
       else None);
    Some (protocol, leg).

(** [Reflector::conflicts_with] *)
Definition conflicts_with (r other : Reflector) : option (Protocol * Leg) :=
  match shared_protocol r other with
  | Some c => Some c
  | None =>
      (fun flow => (protocol flow, (ingress flow, egress flow))) <$>
        match relay_overlap r (flows other) with
        | Some f => Some f
        | None => relay_overlap other (flows r)
        end
  end.

(** The loops of [check_conflicts]: one entry against the later ones, in order. *)
Fixpoint check_against (a : Reflector) (later : list Reflector) : res ConfigError () :=
  match later with
  | [] => Ok ()
  | b :: later =>
      if bool_decide (name a = name b) then Err (DuplicateReflectorName (name a))
      else match conflicts_with a b with
           | Some (protocol, (ingress, egress)) =>
               Err (ConflictingReflectors protocol (name a) (name b) ingress egress)
           | None => check_against a later
           end
  end.
Fixpoint check_conflicts (reflectors : list Reflector) : res ConfigError () :=
  match reflectors with
  | [] => Ok ()
  | a :: later => _ ← check_against a later; check_conflicts later
  end.

(** What the conflict rule means: two entries conflict exactly when they share
    a name, some device's message would be reflected by both, or a datagram falls
    in a relay flow of one and a flow of the other. *)

(** ** Messages *)

(** A datagram on its way through: where it arrived, where it would be
    re-emitted, its port and its destination. *)
Record Datagram : Type := {
  d_ingress : InterfaceName;
  d_egress : InterfaceName;
  d_port : Z;
  d_dst : IpAddr;
}.

(** The lists of an entry, as [UniqueList] built them. *)
Record lists_ok (r : Reflector) : Prop := {
  lo_macs : forall l, macs r = Some l -> macs_ok l;
  lo_wol : forall w, wol r = Some w -> ports_ok (wol_ports w);
  lo_ports : forall u, udp r = Some u -> ports_ok (udp_ports u);
  lo_groups : forall u l, udp r = Some u -> udp_groups u = Some l -> groups_ok l;
  lo_services : forall m l, mdns r = Some m -> services m = Some l -> services_ok l;
  lo_source : forall l, source_peers r = Some l -> peers_ok l;
  lo_target : forall l, target_peers r = Some l -> peers_ok l;
}.

Definition mac_admits (filter : option MacSet) (mac : MacAddr) : Prop :=
  match filter with None => True | Some l => mac ∈ l end.

(** A message of a protocol, over the family of [ip], with the leg it takes: a
    magic packet for the device [mac], a query or search of any sender, and an
    answer or advertisement the device [mac] sends. *)
Inductive Message : Type :=
  | Wake (leg : Leg) (port : Z) (ip : IpAddr) (mac : MacAddr)
  | Query (p : Protocol) (leg : Leg) (ip : IpAddr)
  | Answer (p : Protocol) (leg : Leg) (ip : IpAddr) (mac : MacAddr).

(** The device a message is about: what the allow-filter judges; a query has none. *)
Definition device_of (m : Message) : option MacAddr :=
  match m with Wake _ _ _ mac | Answer _ _ _ mac => Some mac | Query _ _ _ => None end.

Definition discovers (r : Reflector) (p : Protocol) : Prop :=
  match p with
  | PMdns => is_Some (mdns r)
  | PSsdp => is_Some (ssdp r)
  | PWsd => wsd r = true
  | PWol | PUdp => False
  end.

(** [r] reflects a message: magic packets and queries along its directions, the
    answers against them, and the allow-filter on all but queries. *)
Definition reflects (r : Reflector) (m : Message) : Prop :=
  match m with
  | Wake leg port ip mac =>
      leg ∈ directions r /\ uses (address_family r) ip = true /\ mac_admits (macs r) mac /\
      exists w, wol r = Some w /\ port ∈ wol_ports w
  | Query p leg ip => leg ∈ directions r /\ uses (address_family r) ip = true /\ discovers r p
  | Answer p leg ip mac =>
      (leg.2, leg.1) ∈ directions r /\ uses (address_family r) ip = true /\ mac_admits (macs r) mac /\ discovers r p
  end.

(** The same by the direction of the entry, a device's messages of each protocol. *)
Definition scoped (r : Reflector) (leg : Leg) (p : Protocol) (port : Z) (ip : IpAddr) (mac : MacAddr) : Prop :=
  leg ∈ directions r /\ uses (address_family r) ip = true /\ mac_admits (macs r) mac /\
  match p with
  | PWol => exists w, wol r = Some w /\ port ∈ wol_ports w
  | PMdns => is_Some (mdns r)
  | PSsdp => is_Some (ssdp r)
  | PWsd => wsd r = true
  | PUdp => False
  end.

Section datagrams.
(** Whether an address is a directed broadcast of an interface's segment:
    never a multicast address. *)
Variable directed : InterfaceName -> Z -> bool.
Hypothesis directed_not_multicast :
  forall i a, directed i a = true -> Ipv4.is_multicast a = false.

Definition reach_admits (i : InterfaceName) (r : Reach) (dst : IpAddr) : Prop :=
  match r, dst with
  | Any family, _ => uses family dst = true
  | Group group, _ => dst = group
  | Broadcast, V4 a => Ipv4.is_broadcast a = true \/ directed i a = true
  | Broadcast, V6 _ => False
  end.

Definition admits (f : Flow) (d : Datagram) : Prop :=
  ingress f = d_ingress d /\ egress f = d_egress d /\ f_port f = d_port d /\
  reach_admits (d_ingress d) (reach f) (d_dst d).

(** No message of a device is reflected by both, and no datagram falls in a relay
    flow of one and any flow of the other. *)
Definition compatible (a b : Reflector) : Prop :=
  (forall m, is_Some (device_of m) -> reflects a m -> reflects b m -> False) /\
  (forall d f g, f ∈ flows a -> g ∈ flows b -> protocol f = PUdp \/ protocol g = PUdp ->
     admits f d -> admits g d -> False).

Definition reach_ok (r : Reach) : Prop := match r with Group g => is_multicast g = true | _ => True end.

Lemma families_overlap_spec a b :
  families_overlap a b = true <-> exists ip, uses a ip = true /\ uses b ip = true.
Proof.
  unfold families_overlap. rewrite orb_true_iff, !andb_true_iff. split.
  - intros [[? ?]|[? ?]]; [by exists (V4 0)|by exists (V6 0)].
  - intros ([ip|ip]&Ha&Hb); cbn in *; auto.
Qed.

Lemma reach_overlaps_spec i r s :
  reach_ok r -> reach_ok s ->
  reach_overlaps r s = true <-> exists dst, reach_admits i r dst /\ reach_admits i s dst.
Proof.
  intros Hr Hs. assert (Hb : forall g dst, is_multicast g = true -> dst = g ->
    reach_admits i Broadcast dst -> False).
  { intros g dst Hg -> Ha. destruct g as [g|g]; cbn in *; [|done]. destruct Ha as [H|H].
    - by rewrite multicast_not_broadcast in H.
    - by rewrite (directed_not_multicast i g H) in Hg. }
  assert (Hbc : reach_admits i Broadcast (V4 Ipv4.BROADCAST)) by (left; reflexivity).
  destruct r as [a|g|], s as [b|h|]; cbn [reach_overlaps reach_ok] in *.
  - apply families_overlap_spec.
  - split; [intros H; by exists h|]. by intros (?&?&->).
  - split; [intros H; by exists (V4 Ipv4.BROADCAST)|]. intros ([d|d]&H1&H2); [done|done].
  - split; [intros H; by exists g|]. by intros (?&->&?).
  - rewrite bool_decide_eq_true. split; [intros ->; by exists h|]. by intros (?&->&->).
  - split; [done|]. intros (d&H1&H2). by destruct (Hb g d).
  - split; [intros H; by exists (V4 Ipv4.BROADCAST)|]. intros ([d|d]&H1&H2); [done|done].
  - split; [done|]. intros (d&H1&H2). by destruct (Hb h d).
  - split; [intros _; by exists (V4 Ipv4.BROADCAST)|done].
Qed.

Lemma overlaps_spec f g :
  reach_ok (reach f) -> reach_ok (reach g) ->
  overlaps f g = true <-> exists d, admits f d /\ admits g d.
Proof.
  intros Hf Hg. unfold overlaps, admits.
  rewrite !andb_true_iff, !bool_decide_eq_true, Z.eqb_eq, (reach_overlaps_spec (ingress f)) by done.
  split.
  - intros (((Hi&He)&Hp)&dst&H1&H2).
    exists {| d_ingress := ingress f; d_egress := egress f; d_port := f_port f; d_dst := dst |}.
    cbn [d_ingress d_egress d_port d_dst]. auto 10.
  - intros ([i e p dst]&(Hi&He&Hp&H1)&(Hi'&He'&Hp'&H2)). cbn [d_ingress d_egress d_port d_dst] in *.
    subst. split; [split; [split|]|]; eauto; congruence.
Qed.
End datagrams.

(** ** Searching *)

Lemma find_first_None {A} (p : A -> bool) l : find_first p l = None <-> Forall (fun x => p x = false) l.
Proof.
  induction l as [|x l IH]; cbn; [by split|]. rewrite Forall_cons, <- IH.
  destruct (p x); naive_solver.
Qed.

Lemma find_first_Some {A} (p : A -> bool) l x : find_first p l = Some x -> x ∈ l /\ p x = true.
Proof.
  induction l as [|y l IH]; cbn; [done|]. destruct (p y) eqn:E.
  - intros [= ->]. split; [apply list_elem_of_here|done].
  - intros (?&?)%IH. split; [by apply list_elem_of_further|done].
Qed.

Lemma existsb_elem {A} (p : A -> bool) l : existsb p l = true <-> exists x, x ∈ l /\ p x = true.
Proof. rewrite existsb_exists. by setoid_rewrite list_elem_of_In. Qed.

Lemma existsb_false {A} (p : A -> bool) l : existsb p l = false <-> forall x, x ∈ l -> p x = false.
Proof.
  rewrite <- not_true_iff_false, existsb_elem. split.
  - intros H x Hx. destruct (p x) eqn:E; [|done]. exfalso. eauto.
  - intros H (x&Hx&E). by rewrite (H x Hx) in E.
Qed.

(** ** Flows *)

Lemma destinations_elem u port r :
  (port, r) ∈ destinations u <->
  port ∈ udp_ports u /\ ((exists g, r = Group g /\ g ∈ or_empty (udp_groups u)) \/
                         (r = Broadcast /\ udp_broadcast u = true)).
Proof.
  unfold destinations. rewrite list_elem_of_join. setoid_rewrite list_elem_of_fmap. split.
  - intros (l&Hl&p&->&Hp). apply elem_of_app in Hl as [(g&[= -> ->]&Hg)%list_elem_of_fmap|Hl]; [eauto|].
    destruct (udp_broadcast u); [|by apply elem_of_nil in Hl].
    apply list_elem_of_singleton in Hl as [= -> ->]. auto.
  - intros (Hp&H). eexists. split; [|by exists port]. apply elem_of_app.
    destruct H as [(g&->&Hg)|(->&->)]; [left; apply list_elem_of_fmap; eauto|right].
    by apply list_elem_of_singleton.
Qed.

Lemma discovery_elem r p port groups f :
  f ∈ discovery r p port groups <->
  exists leg group, f = {| protocol := p; ingress := leg.1; egress := leg.2; f_port := port; reach := Group group |} /\
    leg ∈ [(source_if r, target_if r); (target_if r, source_if r)] /\
    uses (address_family r) group = true /\ group ∈ groups.
Proof.
  unfold discovery. rewrite list_elem_of_join. setoid_rewrite list_elem_of_fmap. split.
  - intros (l&Hl&g&->&Hg). apply list_elem_of_filter in Hg as [Hu Hg].
    apply list_elem_of_fmap in Hl as (leg&->&Hleg). eauto 10.
  - intros (leg&g&->&Hleg&Hu&Hg). eexists. split; [|exists g; split; [reflexivity|]].
    + apply list_elem_of_fmap. eauto.
    + by apply list_elem_of_filter.
Qed.

Lemma wol_flows_elem r leg f :
  f ∈ wol_flows r leg <->
  exists w port, wol r = Some w /\ port ∈ wol_ports w /\
    f = {| protocol := PWol; ingress := leg.1; egress := leg.2; f_port := port; reach := Any (address_family r) |}.
Proof.
  unfold wol_flows. destruct (wol r) as [w|]; [|split; [by intros ?%elem_of_nil|naive_solver]].
  rewrite list_elem_of_fmap. naive_solver.
Qed.

Lemma udp_flows_elem r leg f :
  f ∈ udp_flows r leg <->
  exists u port rc, udp r = Some u /\ (port, rc) ∈ destinations u /\
    f = {| protocol := PUdp; ingress := leg.1; egress := leg.2; f_port := port; reach := rc |}.
Proof.
  unfold udp_flows. destruct (udp r) as [u|]; [|split; [by intros ?%elem_of_nil|naive_solver]].
  rewrite list_elem_of_fmap. split.
  - intros ([port rc]&->&H). eauto 10.
  - intros (u'&port&rc&[= <-]&H&->). by exists (port, rc).
Qed.

Lemma if_elem {A} (b : bool) (x : A) l : x ∈ (if b then l else []) <-> b = true /\ x ∈ l.
Proof. destruct b; [naive_solver|]. split; [by intros ?%elem_of_nil|by intros []]. Qed.

(** A flow of an entry is a discovery flow, a Wake-on-LAN flow or a relay flow. *)
Lemma flows_elem r f :
  f ∈ flows r <->
  (is_Some (mdns r) /\ f ∈ discovery r PMdns MDNS_PORT [V4 MDNS_GROUP_V4; V6 MDNS_GROUP_V6]) \/
  (is_Some (ssdp r) /\ f ∈ discovery r PSsdp SSDP_PORT
     [V4 SSDP_GROUP_V4; V6 SSDP_GROUP_V6_LINK_LOCAL; V6 SSDP_GROUP_V6_SITE_LOCAL]) \/
  (wsd r = true /\ f ∈ discovery r PWsd WSD_PORT [V4 WSD_GROUP_V4; V6 WSD_GROUP_V6]) \/
  exists leg, leg ∈ directions r /\ (f ∈ wol_flows r leg \/ f ∈ udp_flows r leg).
Proof.
  unfold flows. rewrite !elem_of_app, !if_elem, !bool_decide_eq_true, list_elem_of_join.
  setoid_rewrite list_elem_of_fmap.
  assert ((exists l, f ∈ l /\ exists leg, l = wol_flows r leg ++ udp_flows r leg /\ leg ∈ directions r) <->
    exists leg, leg ∈ directions r /\ (f ∈ wol_flows r leg \/ f ∈ udp_flows r leg)) as ->; [|done].
  split.
  - intros (l&Hl&leg&->&Hleg). apply elem_of_app in Hl. eauto.
  - intros (leg&Hleg&H). exists (wol_flows r leg ++ udp_flows r leg). rewrite elem_of_app. eauto.
Qed.

Lemma discovery_groups_ok r p port groups f :
  Forall (fun g => is_multicast g = true) groups -> f ∈ discovery r p port groups -> reach_ok (reach f).
Proof.
  intros H (leg&g&->&_&_&Hg)%discovery_elem. rewrite Forall_forall in H. by apply H.
Qed.

Lemma flows_ok r f : lists_ok r -> f ∈ flows r -> reach_ok (reach f).
Proof.
  intros Hr [(_&H)|[(_&H)|[(_&H)|(leg&_&[H|H])]]]%flows_elem.
  1-3: by eapply discovery_groups_ok, H; repeat constructor.
  - by apply wol_flows_elem in H as (w&port&_&_&->).
  - apply udp_flows_elem in H as (u&port&rc&Hu&(_&Hd)%destinations_elem&->).
    destruct Hd as [(g&->&Hg)|(->&_)]; [|done]. cbn.
    destruct (udp_groups u) as [l|] eqn:Eg; [|by apply elem_of_nil in Hg].
    eapply group_multicast; [by eapply lo_groups|done].
Qed.

Lemma relay_overlap_None r others :
  relay_overlap r others = None <->
  forall f g, f ∈ flows r -> g ∈ others -> protocol f = PUdp -> overlaps f g = false.
Proof.
  unfold relay_overlap, is_relay. rewrite find_first_None, Forall_forall.
  setoid_rewrite existsb_false.
  split.
  - intros H f g Hf Hg Hp. specialize (H g Hg f Hf). by rewrite bool_decide_true in H.
  - intros H g Hg f Hf. destruct (bool_decide_reflect (protocol f = PUdp)); [cbn [andb]; auto|done].
Qed.

Lemma macs_overlap_spec a b :
  lists_ok a -> lists_ok b ->
  macs_overlap (macs a) (macs b) = true <-> exists m, mac_admits (macs a) m /\ mac_admits (macs b) m.
Proof.
  intros Ha Hb. assert (Hne : forall r l, lists_ok r -> macs r = Some l -> exists m, m ∈ l).
  { intros r l Hr Hl. destruct (lo_macs r Hr l Hl) as (Hnn&_). destruct l as [|m l]; [done|].
    exists m. apply list_elem_of_here. }
  destruct (macs a) as [l|] eqn:El, (macs b) as [k|] eqn:Ek; cbn.
  - rewrite existsb_elem. by setoid_rewrite bool_decide_eq_true.
  - split; [|done]. intros _. destruct (Hne _ _ Ha El) as (m&?). by exists m.
  - split; [|done]. intros _. destruct (Hne _ _ Hb Ek) as (m&?). by exists m.
  - split; [|done]. intros _. by exists [].
Qed.

(** A device's messages, by direction and by message. *)
Lemma scoped_messages a b :
  (forall leg p port ip mac, scoped a leg p port ip mac -> scoped b leg p port ip mac -> False) <->
  (forall m, is_Some (device_of m) -> reflects a m -> reflects b m -> False).
Proof.
  split; intros H.
  - intros [leg port ip mac|p leg ip|[] leg ip mac] [d Hd] Ha Hb; try done.
    + exact (H leg PWol port ip mac Ha Hb).
    + destruct Ha as (_&_&_&[]).
    + exact (H (leg.2, leg.1) PMdns 0 ip mac Ha Hb).
    + exact (H (leg.2, leg.1) PSsdp 0 ip mac Ha Hb).
    + exact (H (leg.2, leg.1) PWsd 0 ip mac Ha Hb).
    + destruct Ha as (_&_&_&[]).
  - intros [i e] p port ip mac Ha Hb. destruct p.
    + exact (H (Wake (i, e) port ip mac) ltac:(by eexists) Ha Hb).
    + exact (H (Answer PMdns (e, i) ip mac) ltac:(by eexists) Ha Hb).
    + exact (H (Answer PSsdp (e, i) ip mac) ltac:(by eexists) Ha Hb).
    + exact (H (Answer PWsd (e, i) ip mac) ltac:(by eexists) Ha Hb).
    + by destruct Ha as (_&_&_&?).
Qed.

(** Entries that share no message of a device share a query only when no device
    is of both. *)
Lemma queries_apart directed a b p leg ip mac :
  compatible directed a b -> reflects a (Query p leg ip) -> reflects b (Query p leg ip) ->
  mac_admits (macs a) mac -> mac_admits (macs b) mac -> False.
Proof.
  intros [H _] (Ha&Hu&Hp) (Hb&Hu'&Hp') Hm Hm'. destruct leg as [i e].
  by apply (H (Answer p (e, i) ip mac)); [eexists|split_and!..].
Qed.

Lemma shared_protocol_None a b :
  lists_ok a -> lists_ok b ->
  shared_protocol a b = None <->
  forall leg p port ip mac, scoped a leg p port ip mac -> scoped b leg p port ip mac -> False.
Proof.
  intros Ha Hb. unfold shared_protocol.
  destruct (find_first _ (directions a)) as [leg|] eqn:El; cbn [mbind option_bind].
  2: { split; [|done]. intros _ l p port ip mac (Hla&_) (Hlb&_). apply find_first_None in El.
       rewrite Forall_forall in El. specialize (El l Hla). rewrite existsb_false in El.
       specialize (El l Hlb). by rewrite bool_decide_true in El. }
  apply find_first_Some in El as [Hla (l'&Hlb&->%bool_decide_eq_true)%existsb_elem].
  destruct (macs_overlap (macs a) (macs b)) eqn:Em; cbn [negb orb].
  2: { split; [|done]. intros _ l p port ip mac (_&_&Ha1&_) (_&_&Hb1&_).
       apply not_true_iff_false in Em. apply Em, macs_overlap_spec; eauto. }
  destruct (families_overlap _ _) eqn:Ef; cbn [negb].
  2: { split; [|done]. intros _ l p port ip mac (_&Ha1&_) (_&Hb1&_).
       apply not_true_iff_false in Ef. apply Ef, families_overlap_spec; eauto. }
  apply macs_overlap_spec in Em as (mac&Hma&Hmb); [|done..].
  apply families_overlap_spec in Ef as (ip&Hia&Hib).
  set (wols := match wol a with Some _ => _ | None => _ end).
  assert (Hw : wols = true <-> exists port, scoped a leg PWol port ip mac /\ scoped b leg PWol port ip mac).
  { unfold wols, scoped. destruct (wol a) as [wa|], (wol b) as [wb|]; cycle 1.
    1-3: split; [done|]; intros (port&(_&_&_&?&?&_)&(_&_&_&?&?&_)); done.
    rewrite existsb_elem. setoid_rewrite bool_decide_eq_true. split; [intros (port&?&?); exists port; split; eauto 10|].
    intros (port&(_&_&_&w&[= <-]&?)&(_&_&_&w'&[= <-]&?)); eauto. }
  split.
  - intros H l p port ip' mac' (_&_&_&Hpa) (_&_&_&Hpb).
    destruct p; [|destruct wols; [done|]..].
    + destruct Hpa as (w&Ew&Hw1), Hpb as (w'&Ew'&Hw2).
      replace wols with true in H; [done|]. symmetry. apply Hw. exists port.
      split; split_and!; eauto.
    + by rewrite !bool_decide_true in H.
    + destruct (bool_decide (is_Some (mdns a)) && _); [done|]. by rewrite !bool_decide_true in H.
    + destruct (bool_decide (is_Some (mdns a)) && _); [done|].
      destruct (bool_decide (is_Some (ssdp a)) && _); [done|]. by rewrite Hpa, Hpb in H.
    + done.
  - intros H. destruct wols.
    { destruct (proj1 Hw eq_refl) as (port&?&?). by destruct (H leg PWol port ip mac). }
    destruct (bool_decide (is_Some (mdns a)) && _) eqn:E1.
    { apply andb_true_iff in E1 as [?%bool_decide_eq_true ?%bool_decide_eq_true].
      destruct (H leg PMdns 0 ip mac); unfold scoped; split_and!; done. }
    destruct (bool_decide (is_Some (ssdp a)) && _) eqn:E2.
    { apply andb_true_iff in E2 as [?%bool_decide_eq_true ?%bool_decide_eq_true].
      destruct (H leg PSsdp 0 ip mac); unfold scoped; split_and!; done. }
    destruct (wsd a && wsd b) eqn:E3; [|done].
    apply andb_true_iff in E3 as [? ?]. destruct (H leg PWsd 0 ip mac); unfold scoped; split_and!; done.
Qed.

Section exact.
Variable directed : InterfaceName -> Z -> bool.
Hypothesis directed_not_multicast :
  forall i a, directed i a = true -> Ipv4.is_multicast a = false.

Lemma conflicts_with_None a b :
  lists_ok a -> lists_ok b -> conflicts_with a b = None <-> compatible directed a b.
Proof using directed_not_multicast.
  intros Ha Hb. unfold conflicts_with, compatible. rewrite <- scoped_messages, <- shared_protocol_None by done.
  destruct (shared_protocol a b) as [c|]; [naive_solver|].
  rewrite fmap_None.
  assert (relay_overlap a (flows b) = None /\ relay_overlap b (flows a) = None <->
    forall d f g, f ∈ flows a -> g ∈ flows b -> protocol f = PUdp \/ protocol g = PUdp ->
     admits directed f d -> admits directed g d -> False) as <-.
  2: { destruct (relay_overlap a (flows b)); naive_solver. }
  rewrite !relay_overlap_None. split.
  - intros [H1 H2] d f g Hf Hg Hp Hd Hd'.
    assert (overlaps f g = true) as Ho.
    { apply (overlaps_spec directed directed_not_multicast); eauto using flows_ok. }
    assert (overlaps g f = true) as Ho'.
    { apply (overlaps_spec directed directed_not_multicast); eauto using flows_ok. }
    destruct Hp as [Hp|Hp]; [by rewrite H1 in Ho|by rewrite H2 in Ho'].
  - intros H. split; intros f g Hf Hg Hp; apply not_true_iff_false; intros Ho;
      apply (overlaps_spec directed directed_not_multicast) in Ho as (d&?&?); eauto using flows_ok.
Qed.

Lemma compatible_sym a b : compatible directed a b -> compatible directed b a.
Proof using Type. intros [H1 H2]. split; [naive_solver|]. intros d f g Hf Hg Hp Hd Hd'. eapply H2; eauto. naive_solver. Qed.

Lemma check_against_Ok a later :
  lists_ok a -> Forall lists_ok later ->
  check_against a later = Ok () <->
  Forall (fun b => name a <> name b /\ compatible directed a b) later.
Proof using directed_not_multicast.
  intros Ha. induction 1 as [|b later Hb _ IH]; cbn [check_against]; [by split|].
  rewrite Forall_cons. destruct (bool_decide_reflect (name a = name b)) as [E|E]; [naive_solver|].
  pose proof (conflicts_with_None a b Ha Hb) as Hc.
  destruct (conflicts_with a b) as [[p [i e]]|]; [|naive_solver].
  split; [done|]. intros ((_&H)&_). by apply Hc in H.
Qed.

Lemma check_conflicts_pairs rs :
  Forall lists_ok rs ->
  check_conflicts rs = Ok () <->
  ForallOrdPairs (fun a b => name a <> name b /\ compatible directed a b) rs.
Proof using directed_not_multicast.
  induction 1 as [|a rs Ha Hrs IH]; cbn [check_conflicts]; [by split; [constructor|]|].
  rewrite bind_Ok. split.
  - intros ([]&H1&H2). constructor; [|by apply IH].
    by apply (check_against_Ok a rs Ha Hrs).
  - intros H. inversion_clear H as [|?? H1 H2]. exists (). split; [|by apply IH].
    by apply check_against_Ok.
Qed.
End exact.

(** The entries of a list, two by two. *)
Lemma ForallOrdPairs_lookup {A} (R : A -> A -> Prop) l : (forall a b, R a b -> R b a) ->
  ForallOrdPairs R l <-> forall i j a b, i <> j -> l !! i = Some a -> l !! j = Some b -> R a b.
Proof.
  intros Hsym. induction l as [|r rs IH]; [split; [intros _ i j a b _ Hi; by rewrite lookup_nil in Hi|constructor]|]. split.
  - intros H. inversion_clear H as [|?? H1 H2]. rewrite Forall_forall in H1. pose proof (proj1 IH H2) as H2'.
    intros [|i] [|j] a b Hij Hi Hj; cbn in Hi, Hj; [done| | |by eapply H2'; [|exact Hi|exact Hj]; congruence].
    + injection Hi as <-. eapply H1, list_elem_of_lookup_2, Hj.
    + injection Hj as <-. eapply Hsym, H1, list_elem_of_lookup_2, Hi.
  - intros H. constructor.
    + apply Forall_forall. intros b (j&Hj)%list_elem_of_lookup. by apply (H 0%nat (S j)).
    + apply IH. intros i j a b Hij Hi Hj. apply (H (S i) (S j)); [congruence|done..].
Qed.

(** C23. [check_conflicts] accepts exactly the lists of entries in which no two
    entries share a name, no device's message (a magic packet for it, an answer or
    an advertisement it sends) would be reflected by two entries, and no datagram
    falls in a relay flow of one entry and any flow of another. Queries, which no
    allow-filter judges, are left out of the rule; two accepted entries both
    reflect one only when no device is within the filters of both. *)
Theorem check_conflicts_exact directed rs :
  (forall i a, directed i a = true -> Ipv4.is_multicast a = false) ->
  Forall lists_ok rs ->
  (check_conflicts rs = Ok () <->
   forall i j a b, i <> j -> rs !! i = Some a -> rs !! j = Some b ->
     name a <> name b /\ compatible directed a b) /\
  (check_conflicts rs = Ok () ->
   forall i j a b p leg ip mac, i <> j -> rs !! i = Some a -> rs !! j = Some b ->
     reflects a (Query p leg ip) -> reflects b (Query p leg ip) ->
     mac_admits (macs a) mac -> mac_admits (macs b) mac -> False).
Proof.
  intros Hd Hrs. rewrite (check_conflicts_pairs directed Hd) by done.
  rewrite ForallOrdPairs_lookup by (intros a b [? ?]; split; [congruence|by apply compatible_sym]).
  split; [done|]. intros H i j a b p leg ip mac Hij Hi Hj. destruct (H i j a b Hij Hi Hj) as [_ Hc].
  by apply (queries_apart directed).
Qed.

(** Two entries on one pair of interfaces: discovery, and a relay on another port. *)
Definition ex_if (s : string) : InterfaceName := {| if_str := bs s |}.
Definition ex_discovery : Reflector :=
  {| name := {| rn_str := bs "tv" |}; source_if := ex_if "eth0"; target_if := ex_if "eth1";
     source_peers := None; target_peers := None; macs := Some [[2; 0; 0; 0; 0; 1]];
     address_family := FDefault; wol := Some {| wol_ports := [7; 9] |};
     mdns := Some {| services := None |}; ssdp := None; wsd := false; bidirectional := false; udp := None |}.
Definition ex_relay : Reflector :=
  {| name := {| rn_str := bs "game" |}; source_if := ex_if "eth0"; target_if := ex_if "eth1";
     source_peers := None; target_peers := None; macs := None; address_family := FDefault;
     wol := None; mdns := None; ssdp := None; wsd := false; bidirectional := true;
     udp := Some {| udp_ports := [6112]; udp_groups := Some [V4 (Ipv4.new 239 1 2 3)];
                    udp_broadcast := true |} |}.

Example conflict_ex :
  check_conflicts [ex_discovery; ex_relay] = Ok () /\
  check_conflicts [ex_discovery; ex_relay; ex_relay] = Err (DuplicateReflectorName {| rn_str := bs "game" |}).
Proof. by vm_compute. Qed.

Lemma unique_list_ok_dec {T} {H : ListRule T} (l : list T) :
  try_from l = Ok l -> unique_list_ok l.
Proof. intros E. by apply try_from_Ok in E as [_ ?]. Qed.

Ltac lists_ok_tac :=
  split; cbn; intros; simplify_eq; cbn in *; simplify_eq; apply unique_list_ok_dec; vm_compute; reflexivity.

Lemma ex_lists_ok : Forall lists_ok [ex_discovery; ex_relay].
Proof. rewrite !Forall_cons. split_and!; [lists_ok_tac..|constructor]. Qed.

Lemma check_conflicts_exact_witness :
  name ex_discovery <> name ex_relay /\
  compatible (fun _ a => a =? Ipv4.new 192 168 1 255) ex_discovery ex_relay.
Proof.
  apply (proj1 (proj1 (check_conflicts_exact (fun _ a => a =? Ipv4.new 192 168 1 255) [ex_discovery; ex_relay]
           ltac:(intros i a E; apply Z.eqb_eq in E as ->; reflexivity) ex_lists_ok))
           ltac:(vm_compute; reflexivity) 0%nat 1%nat); [discriminate|reflexivity|reflexivity].
Defined.

(** Two entries for two devices on one leg are accepted, and each reflects every
    query that takes it. *)
Definition ex_second : Reflector :=
  {| name := {| rn_str := bs "box" |}; source_if := ex_if "eth0"; target_if := ex_if "eth1";
     source_peers := None; target_peers := None; macs := Some [[2; 0; 0; 0; 0; 2]];
     address_family := FDefault; wol := None;
     mdns := Some {| services := None |}; ssdp := None; wsd := false; bidirectional := false; udp := None |}.
Lemma distinct_macs_share_queries :
  check_conflicts [ex_discovery; ex_second] = Ok () /\
  forall ip, reflects ex_discovery (Query PMdns (ex_if "eth0", ex_if "eth1") ip) /\
             reflects ex_second (Query PMdns (ex_if "eth0", ex_if "eth1") ip).
Proof.
  split; [by vm_compute|]. intros ip. repeat split; try (apply list_elem_of_here); try (by destruct ip); by eexists.
Qed.
