(* ===== verification/Config.v ===== *)
(** Configuration loading and validation ([src/config.rs], [src/config/raw.rs]):
    the raw form, what the file gives it, its validation into entries, the merge of file and
    environment, and the fallback of a host without IPv6. *)

From stdpp Require Import gmap sorting.
From S2P Require Import Prelude Text Addr UniqueList Mac Names Value ConfigError Conflict.

Local Open Scope Z_scope.

(** ** The raw form *)

Record RawReflector : Type := {
  raw_name : option ReflectorName;
  raw_source_if : InterfaceName;
  raw_target_if : InterfaceName;
  raw_source_peers : option PeerList;
  raw_target_peers : option PeerList;
  raw_macs : option MacSet;
  raw_address_family : AddressFamily;
  raw_wol : bool;
  raw_wol_ports : option PortList;
  raw_mdns : bool;
  raw_mdns_services : option ServiceList;
  raw_ssdp : bool;
  raw_dial : bool;
  raw_wsd : bool;
  raw_bidirectional : bool;
  raw_udp_ports : option PortList;
  raw_udp_groups : option GroupList;
  raw_udp_broadcast : bool;
}.

(** A [BTreeMap] keyed by strings: a finite map, iterated in ascending key order. *)
Abbreviation BTreeMap := (gmap bytes).
Fixpoint str_le (a b : bytes) : bool :=
  match a, b with
  | [], _ => true
  | _ :: _, [] => false
  | x :: a, y :: b => (x <? y) || ((x =? y) && str_le a b)
  end.
Definition key_le {V} (a b : bytes * V) : Prop := str_le a.1 b.1 = true.
Global Instance key_le_dec {V} : RelDecision (@key_le V).
Proof. intros a b. unfold key_le. apply _. Defined.
Definition bt_iter {V} (m : BTreeMap V) : list (bytes * V) := merge_sort key_le (map_to_list m).

Record RawConfig : Type := {
  rc_user : option RunAs;
  rc_debug_memory_interval_secs : option Z;
  rc_counters_interval_secs : option Z;
  rc_reflectors : BTreeMap RawReflector;
}.
Definition raw_config_default : RawConfig := Build_RawConfig None None None ∅.

(** ** The file *)

(** What the TOML reader, another crate, hands to the [Deserialize] of the
    program's own types: the keys of the schema ([#[serde(deny_unknown_fields)]],
    the keys required, and the types of the standard ones are its business), each
    text still to be read and each list still to be admitted. *)
Record TomlReflector : Type := {
  toml_source_if : bytes;
  toml_target_if : bytes;
  toml_source_peers : option (list IpAddr);
  toml_target_peers : option (list IpAddr);
  toml_macs : option (list bytes);
  toml_address_family : option bytes;
  toml_wol : option bool;
  toml_wol_ports : option (list Z);
  toml_mdns : option bool;
  toml_mdns_services : option (list bytes);
  toml_ssdp : option bool;
  toml_dial : option bool;
  toml_wsd : option bool;
  toml_bidirectional : option bool;
  toml_udp_ports : option (list Z);
  toml_udp_groups : option (list IpAddr);
  toml_udp_broadcast : option bool;
}.
Record TomlConfig : Type := {
  toml_log_level : option bytes;
  toml_log_target : option bytes;
  toml_user : option bytes;
  toml_debug_memory_interval_secs : option Z;
  toml_counters_interval_secs : option Z;
  toml_reflectors : list (bytes * TomlReflector);
}.

(** [Option::deserialize]: an absent key is [None]. *)
Definition opt_deserialize {W T} (deserialize : W -> res SerdeError T) (value : option W) : res SerdeError (option T) :=
  match value with Some v => Some <$> deserialize v | None => Ok None end.

(** A list of a rule [R], of texts and of values the standard types read. *)
Definition addresses_deserialize (R : ListRule IpAddr) (items : list IpAddr) : res SerdeError (list IpAddr) :=
  list_deserialize (H := R) (Ok items).
Definition ports_deserialize (items : list Z) : res SerdeError PortList := list_deserialize (H := Ports) (Ok items).
Definition macs_deserialize (items : list bytes) : res SerdeError MacSet :=
  list_deserialize (H := Macs) (vec_deserialize mac_deserialize items).
Definition services_deserialize (items : list bytes) : res SerdeError ServiceList :=
  list_deserialize (H := Services) (vec_deserialize service_deserialize items).

(** [RawReflector::deserialize] *)
Definition raw_reflector_deserialize (t : TomlReflector) : res SerdeError RawReflector :=
  source_if ← interface_name_deserialize (toml_source_if t);
  target_if ← interface_name_deserialize (toml_target_if t);
  source_peers ← opt_deserialize (addresses_deserialize Peers) (toml_source_peers t);
  target_peers ← opt_deserialize (addresses_deserialize Peers) (toml_target_peers t);
  macs ← opt_deserialize macs_deserialize (toml_macs t);
  address_family ← opt_deserialize address_family_deserialize (toml_address_family t);
  wol_ports ← opt_deserialize ports_deserialize (toml_wol_ports t);
  mdns_services ← opt_deserialize services_deserialize (toml_mdns_services t);
  udp_ports ← opt_deserialize ports_deserialize (toml_udp_ports t);
  udp_groups ← opt_deserialize (addresses_deserialize Groups) (toml_udp_groups t);
  Ok {| raw_name := None;
        raw_source_if := source_if; raw_target_if := target_if;
        raw_source_peers := source_peers; raw_target_peers := target_peers; raw_macs := macs;
        raw_address_family := default FDefault address_family;
        raw_wol := default false (toml_wol t); raw_wol_ports := wol_ports;
        raw_mdns := default false (toml_mdns t); raw_mdns_services := mdns_services;
        raw_ssdp := default false (toml_ssdp t); raw_dial := default false (toml_dial t);
        raw_wsd := default false (toml_wsd t); raw_bidirectional := default false (toml_bidirectional t);
        raw_udp_ports := udp_ports; raw_udp_groups := udp_groups;
        raw_udp_broadcast := default false (toml_udp_broadcast t) |}.

(** [BTreeMap::deserialize] *)
Fixpoint map_deserialize (tables : list (bytes * TomlReflector)) (reflectors : BTreeMap RawReflector)
    : res SerdeError (BTreeMap RawReflector) :=
  match tables with
  | [] => Ok reflectors
  | (key, t) :: tables => r ← raw_reflector_deserialize t; map_deserialize tables (<[key := r]> reflectors)
  end.

(** [RawConfig::deserialize]: the two logging keys are read, and dropped. *)
Definition raw_config_deserialize (t : TomlConfig) : res SerdeError RawConfig :=
  _ ← opt_deserialize log_level_deserialize (toml_log_level t);
  _ ← opt_deserialize log_target_deserialize (toml_log_target t);
  user ← opt_deserialize run_as_deserialize (toml_user t);
  reflectors ← map_deserialize (toml_reflectors t) ∅;
  Ok {| rc_user := user; rc_debug_memory_interval_secs := toml_debug_memory_interval_secs t;
        rc_counters_interval_secs := toml_counters_interval_secs t; rc_reflectors := reflectors |}.

(** [toml::from_str], of a type with that [Deserialize]: the reader of the file,
    which refuses a text or gives its keys, then the type's own. *)
Definition from_toml {W T} (toml_from_str : bytes -> option W) (deserialize : W -> res SerdeError T) (text : bytes)
    : res ConfigError T :=
  t ← ok_or (toml_from_str text) Parse;
  map_err (fun _ => Parse) (deserialize t).

(** [Option::or] *)
Definition opt_or {A} (a b : option A) : option A := match a with Some _ => a | None => b end.

(** The loop of [RawConfig::merge_env] over the environment's reflectors. *)
Fixpoint merge_reflectors (mine : BTreeMap RawReflector) (env : list (bytes * RawReflector))
    : res ConfigError (BTreeMap RawReflector) :=
  match env with
  | [] => Ok mine
  | (name, reflector) :: env =>
      if existsb (fun kv => eq_ic (str_trim kv.1) name) (bt_iter mine) then Err (DuplicateReflector name)
      else merge_reflectors (<[name := reflector]> mine) env
  end.

(** [RawConfig::merge_env] *)
Definition merge_env (self env : RawConfig) : res ConfigError RawConfig :=
  reflectors ← merge_reflectors (rc_reflectors self) (bt_iter (rc_reflectors env));
  Ok {| rc_user := opt_or (rc_user env) (rc_user self);
        rc_debug_memory_interval_secs :=
          opt_or (rc_debug_memory_interval_secs env) (rc_debug_memory_interval_secs self);
        rc_counters_interval_secs := opt_or (rc_counters_interval_secs env) (rc_counters_interval_secs self);
        rc_reflectors := reflectors |}.

(** ** Validation of one entry *)

Definition WOL_DEFAULT_PORTS : list Z := [7; 9].

(** [Wol::default_ports] *)
Definition default_ports : res ConfigError PortList :=
  match try_from (H := Ports) WOL_DEFAULT_PORTS with Ok l => Ok l | _ => Panic end.

(** [peer_of_unused_family] *)
Definition peer_of_unused_family (raw : RawReflector) : option IpAddr :=
  find_first (fun peer => negb (uses (raw_address_family raw) peer))
    (mjoin (or_empty <$> [raw_source_peers raw; raw_target_peers raw])).

(** [check_peers] *)
Definition check_peers (raw : RawReflector) (name : ReflectorName) : res ConfigError () :=
  match peer_of_unused_family raw with
  | Some peer => Err (PeerFamily name peer)
  | None => Ok ()
  end.

(** The relay part of [Reflector::try_from]. *)
Definition relay_of (raw : RawReflector) (name : ReflectorName) : res ConfigError (option UdpRelay) :=
  match raw_udp_ports raw, raw_udp_groups raw, raw_udp_broadcast raw with
  | None, None, false => Ok None
  | None, _, _ => Err (UdpRelayWithoutPorts name)
  | Some _, None, false => Err (UdpRelayNoDestination name)
  | Some ports, groups, broadcast =>
      if broadcast && negb (uses_ipv4 (raw_address_family raw)) then Err (UdpBroadcastFamily name)
      else match find_first (fun group => negb (uses (raw_address_family raw) group)) (or_empty groups) with
           | Some group => Err (UdpGroupFamily name group)
           | None => Ok (Some {| udp_ports := ports; udp_groups := groups; udp_broadcast := broadcast |})
           end
  end.

(** An early [return Err(e)]. *)
Definition reject_if {E} (c : bool) (e : E) : res E () := if c then Err e else Ok ().

(** [Reflector::try_from] *)
Definition reflector_try_from (key : bytes) (raw : RawReflector) : res ConfigError Reflector :=
  name ← match raw_name raw with
         | Some name => Ok name
         | None => ok_or (reflector_name_from_str key) (EmptyReflectorName key)
         end;
  _ ← check_peers raw name;
  _ ← reject_if (bool_decide (raw_source_if raw = raw_target_if raw)) (SameInterface name (raw_source_if raw));
  udp ← relay_of raw name;
  _ ← reject_if (negb (raw_wol raw) && negb (raw_mdns raw) && negb (raw_ssdp raw) && negb (raw_wsd raw)
                 && bool_decide (udp = None)) (NoProtocol name);
  _ ← reject_if (bool_decide (is_Some (raw_wol_ports raw)) && negb (raw_wol raw)) (WolPortsWithoutWol name);
  _ ← reject_if (bool_decide (is_Some (raw_mdns_services raw)) && negb (raw_mdns raw)) (MdnsServicesWithoutMdns name);
  _ ← reject_if (bool_decide (is_Some (raw_macs raw)) && negb (raw_wol raw) && negb (raw_mdns raw)
                 && negb (raw_ssdp raw) && negb (raw_wsd raw)) (MacsUnused name);
  _ ← reject_if (raw_dial raw && negb (raw_ssdp raw)) (DialWithoutSsdp name);
  wol ← (if raw_wol raw then
           ports ← match raw_wol_ports raw with Some ports => Ok ports | None => default_ports end;
           Ok (Some {| wol_ports := ports |})
         else Ok None);
  ssdp ← (if raw_ssdp raw then
            _ ← reject_if (raw_dial raw && negb (uses_ipv4 (raw_address_family raw))) (DialRequiresIpv4 name);
            Ok (Some {| dial := raw_dial raw |})
          else Ok None);
  let reflector :=
    {| Value.name := name; source_if := raw_source_if raw; target_if := raw_target_if raw;
       source_peers := raw_source_peers raw; target_peers := raw_target_peers raw;
       macs := raw_macs raw; address_family := raw_address_family raw; Value.wol := wol;
       mdns := if raw_mdns raw then Some {| services := raw_mdns_services raw |} else None;
       Value.ssdp := ssdp; wsd := raw_wsd raw; bidirectional := raw_bidirectional raw; Value.udp := udp |} in
  match relay_duplicates reflector with
  | Some (protocol, port) => Err (UdpRelayDuplicates name port protocol)
  | None => Ok reflector
  end.

(** ** The whole configuration *)

Record Config : Type := {
  user : option RunAs;
  debug_memory_interval : option Z;
  counter_interval : option Z;
  reflectors : list Reflector;
}.

Definition MAX_INTERVAL_SECS : Z := 60 * 60 * 24 * 365.

(** [interval_from]; a [Duration] is its whole seconds. *)
Definition interval_from (secs : option Z) (field : bytes) : res ConfigError (option Z) :=
  match secs with
  | Some s => if MAX_INTERVAL_SECS <? s then Err (IntervalTooLarge field s MAX_INTERVAL_SECS)
              else if 0 <? s then Ok (Some s) else Ok None
  | None => Ok None
  end.

Fixpoint try_reflectors (raw : list (bytes * RawReflector)) : res ConfigError (list Reflector) :=
  match raw with
  | [] => Ok []
  | (key, r) :: raw => r ← reflector_try_from key r; rs ← try_reflectors raw; Ok (r :: rs)
  end.

(** [Config::try_from] *)
Definition config_try_from (raw : RawConfig) : res ConfigError Config :=
  reflectors ← try_reflectors (bt_iter (rc_reflectors raw));
  _ ← reject_if (bool_decide (reflectors = [])) NoReflectors;
  _ ← check_conflicts reflectors;
  memory ← interval_from (rc_debug_memory_interval_secs raw) (bs "debug_memory_interval_secs");
  counter ← interval_from (rc_counters_interval_secs raw) (bs "counters_interval_secs");
  Ok {| user := rc_user raw; debug_memory_interval := memory; counter_interval := counter;
        reflectors := reflectors |}.

(** ** Hosts without IPv6 *)

(** [ipv4_part], for the rule [R] *)
Definition ipv4_part (R : ListRule IpAddr) (l : list IpAddr) : res ConfigError (option (list IpAddr)) :=
  let v4 := filter (fun ip => is_v4 ip = true) l in
  match v4 with
  | [] => Ok None
  | _ => match try_from (H := R) v4 with Ok l => Ok (Some l) | _ => Panic end
  end.

Definition peers_fall_back (name : ReflectorName) (field : bytes) (peers : option PeerList)
    : res ConfigError (option PeerList) :=
  match peers with
  | None => Ok None
  | Some addresses =>
      part ← ipv4_part Peers addresses;
      l ← ok_or part (Ipv6OnlyPeers name field);
      Ok (Some l)
  end.

Definition relay_fall_back (name : ReflectorName) (udp : option UdpRelay) : res ConfigError (option UdpRelay) :=
  match udp with
  | Some {| udp_ports := ports; udp_groups := Some groups; udp_broadcast := broadcast |} =>
      part ← ipv4_part Groups groups;
      _ ← reject_if (bool_decide (part = None) && negb broadcast) (Ipv6OnlyRelay name);
      Ok (Some {| udp_ports := ports; udp_groups := part; udp_broadcast := broadcast |})
  | _ => Ok udp
  end.

(** One turn of the loop of [Config::fall_back_to_ipv4]. *)
Definition reflector_fall_back (r : Reflector) : res ConfigError Reflector :=
  if negb (bool_decide (address_family r = FDefault)) then Ok r
  else
    udp ← relay_fall_back (name r) (udp r);
    source ← peers_fall_back (name r) (bs "source_peers") (source_peers r);
    target ← peers_fall_back (name r) (bs "target_peers") (target_peers r);
    Ok {| Value.name := name r; source_if := source_if r; target_if := target_if r;
          source_peers := source; target_peers := target; macs := macs r; address_family := FIpv4;
          Value.wol := wol r; mdns := mdns r; Value.ssdp := ssdp r; wsd := wsd r;
          bidirectional := bidirectional r; Value.udp := udp |}.

Fixpoint fall_back_reflectors (rs : list Reflector) : res ConfigError (list Reflector) :=
  match rs with
  | [] => Ok []
  | r :: rs => r ← reflector_fall_back r; rs ← fall_back_reflectors rs; Ok (r :: rs)
  end.

(** [Config::fall_back_to_ipv4]; the program exits on an error, so the
    partly changed entries of a failed run are not kept. *)
Definition fall_back_to_ipv4 (c : Config) : res ConfigError Config :=
  rs ← fall_back_reflectors (reflectors c);
  Ok {| user := user c; debug_memory_interval := debug_memory_interval c;
        counter_interval := counter_interval c; reflectors := rs |}.

(** ** Description *)

Fixpoint join (sep : bytes) (parts : list bytes) : bytes :=
  match parts with
  | [] => []
  | [p] => p
  | p :: parts => p ++ sep ++ join sep parts
  end.

(** [protocol_list]; [show_ip] is [IpAddr]'s [Display]. *)
Definition protocol_list (show_ip : IpAddr -> bytes) (r : Reflector) : bytes :=
  join (bs ", ") (
    match wol r with
    | Some wol => [bs "wol(" ++ join (bs ",") (show_dec <$> wol_ports wol) ++ bs ")"]
    | None => []
    end ++
    match mdns r with
    | Some {| services := Some l |} => [bs "mdns(" ++ join (bs ",") (service_display <$> l) ++ bs ")"]
    | Some _ => [bs "mdns"]
    | None => []
    end ++
    match ssdp r with
    | Some s => [if dial s then bs "ssdp+dial" else bs "ssdp"]
    | None => []
    end ++
    (if wsd r then [bs "wsd"] else []) ++
    match udp r with
    | Some u =>
        [bs "udp(" ++ join (bs ",") (show_dec <$> udp_ports u) ++ bs " on " ++
         join (bs ",") ((show_ip <$> or_empty (udp_groups u)) ++
                        (if udp_broadcast u then [bs "broadcast"] else [])) ++ bs ")"]
    | None => []
    end).
