(* ===== verification/ConfigSpec.v ===== *)
(** What configuration validation promises: the accepted entries are exactly
    the consistent ones, and the fallback of a host without IPv6 keeps them
    valid and free of conflicts. *)

From stdpp Require Import gmap sorting.
From S2P Require Import Prelude Text Addr UniqueList Mac Names Value Ssdp Wsd Mdns ConfigError Conflict.
From S2P Require Import Config.

Local Open Scope Z_scope.

(** ** Valid entries *)

Definition uses_all (f : AddressFamily) (l : list IpAddr) : Prop := Forall (fun ip => uses f ip = true) l.

(** The relay of an entry has somewhere to send, over families it uses. *)
Definition relay_valid (f : AddressFamily) (u : UdpRelay) : Prop :=
  (is_Some (udp_groups u) \/ udp_broadcast u = true) /\
  (udp_broadcast u = true -> uses_ipv4 f = true) /\
  uses_all f (or_empty (udp_groups u)).

(** An entry enables Wake-on-LAN or a discovery protocol. *)
Definition filtered (r : Reflector) : Prop :=
  is_Some (wol r) \/ is_Some (mdns r) \/ is_Some (ssdp r) \/ wsd r = true.

Record entry_valid (r : Reflector) : Prop := {
  ev_lists : lists_ok r;
  ev_interfaces : source_if r <> target_if r;
  ev_source_peers : uses_all (address_family r) (or_empty (source_peers r));
  ev_target_peers : uses_all (address_family r) (or_empty (target_peers r));
  ev_protocol : filtered r \/ is_Some (udp r);
  ev_macs : is_Some (macs r) -> filtered r;
  ev_relay : forall u, udp r = Some u -> relay_valid (address_family r) u;
  ev_dial : forall s, ssdp r = Some s -> dial s = true -> uses_ipv4 (address_family r) = true;
  ev_once : relay_duplicates r = None;
}.

(** The lists of a raw entry, as [UniqueList] built them. *)
Record raw_lists_ok (raw : RawReflector) : Prop := {
  rl_macs : forall l, raw_macs raw = Some l -> macs_ok l;
  rl_wol : forall l, raw_wol_ports raw = Some l -> ports_ok l;
  rl_ports : forall l, raw_udp_ports raw = Some l -> ports_ok l;
  rl_groups : forall l, raw_udp_groups raw = Some l -> groups_ok l;
  rl_services : forall l, raw_mdns_services raw = Some l -> services_ok l;
  rl_source : forall l, raw_source_peers raw = Some l -> peers_ok l;
  rl_target : forall l, raw_target_peers raw = Some l -> peers_ok l;
}.

(** No parameter is set for a protocol the entry does not enable. *)
Record raw_consistent (raw : RawReflector) : Prop := {
  rk_wol : is_Some (raw_wol_ports raw) -> raw_wol raw = true;
  rk_mdns : is_Some (raw_mdns_services raw) -> raw_mdns raw = true;
  rk_dial : raw_dial raw = true -> raw_ssdp raw = true;
  rk_relay : is_Some (raw_udp_groups raw) \/ raw_udp_broadcast raw = true -> is_Some (raw_udp_ports raw);
}.

(** The entry a raw one describes. *)
Definition entry_of (raw : RawReflector) (n : ReflectorName) : Reflector :=
  {| name := n; source_if := raw_source_if raw; target_if := raw_target_if raw;
     source_peers := raw_source_peers raw; target_peers := raw_target_peers raw;
     macs := raw_macs raw; address_family := raw_address_family raw;
     wol := if raw_wol raw then Some {| wol_ports := default WOL_DEFAULT_PORTS (raw_wol_ports raw) |} else None;
     mdns := if raw_mdns raw then Some {| services := raw_mdns_services raw |} else None;
     ssdp := if raw_ssdp raw then Some {| dial := raw_dial raw |} else None;
     wsd := raw_wsd raw; bidirectional := raw_bidirectional raw;
     udp := match raw_udp_ports raw with
            | Some ports => Some {| udp_ports := ports; udp_groups := raw_udp_groups raw;
                                    udp_broadcast := raw_udp_broadcast raw |}
            | None => None
            end |}.

Definition named (key : bytes) (raw : RawReflector) (n : ReflectorName) : Prop :=
  match raw_name raw with Some m => m = n | None => reflector_name_from_str key = Some n end.

(** ** Lemmas *)

Lemma reject_if_Ok {E} (c : bool) (e : E) u : reject_if c e = Ok u <-> c = false.
Proof. destruct c, u; cbn; split; done. Qed.

Lemma default_ports_Ok : default_ports = Ok WOL_DEFAULT_PORTS.
Proof. vm_compute. reflexivity. Qed.

Lemma WOL_DEFAULT_PORTS_ok : ports_ok WOL_DEFAULT_PORTS.
Proof. apply unique_list_ok_dec. vm_compute. reflexivity. Qed.

Lemma find_first_neg_None {A} (p : A -> bool) l :
  find_first (fun x => negb (p x)) l = None <-> Forall (fun x => p x = true) l.
Proof. rewrite find_first_None. by setoid_rewrite negb_false_iff. Qed.

Lemma check_peers_Ok raw n :
  check_peers raw n = Ok () <->
  uses_all (raw_address_family raw) (or_empty (raw_source_peers raw)) /\
  uses_all (raw_address_family raw) (or_empty (raw_target_peers raw)).
Proof.
  unfold check_peers. assert (peer_of_unused_family raw = None <->
    uses_all (raw_address_family raw) (or_empty (raw_source_peers raw)) /\
    uses_all (raw_address_family raw) (or_empty (raw_target_peers raw))) as <-.
  { unfold peer_of_unused_family. rewrite find_first_neg_None. cbn [fmap list_fmap].
    change (mjoin [?a; ?b]) with (a ++ b ++ []). by rewrite app_nil_r, Forall_app. }
  by destruct (peer_of_unused_family raw).
Qed.

Lemma relay_of_Ok raw n o :
  relay_of raw n = Ok o <->
  (is_Some (raw_udp_groups raw) \/ raw_udp_broadcast raw = true -> is_Some (raw_udp_ports raw)) /\
  o = udp (entry_of raw n) /\ (forall u, o = Some u -> relay_valid (raw_address_family raw) u).
Proof.
  unfold relay_of, entry_of, relay_valid. cbn [udp].
  destruct (raw_udp_ports raw) as [ports|].
  2: { destruct (raw_udp_groups raw) as [g|], (raw_udp_broadcast raw).
       1-3: split; [done|]; intros (H&_&_); destruct H as [? ?]; [eauto|done].
       split; [intros [= <-]; split_and!; [by intros [[]|]|done|done]|by intros (_&->&_)]. }
  assert (Hgen : forall groups broadcast, is_Some groups \/ broadcast = true ->
    (if broadcast && negb (uses_ipv4 (raw_address_family raw)) then Err (UdpBroadcastFamily n)
     else match find_first (fun group => negb (uses (raw_address_family raw) group)) (or_empty groups) with
          | Some group => Err (UdpGroupFamily n group)
          | None => Ok (Some {| udp_ports := ports; udp_groups := groups; udp_broadcast := broadcast |})
          end) = Ok o <->
    o = Some {| udp_ports := ports; udp_groups := groups; udp_broadcast := broadcast |} /\
    (forall u, o = Some u -> (is_Some (udp_groups u) \/ udp_broadcast u = true) /\
       (udp_broadcast u = true -> uses_ipv4 (raw_address_family raw) = true) /\
       uses_all (raw_address_family raw) (or_empty (udp_groups u)))).
  { intros groups broadcast Hd.
    pose proof (find_first_neg_None (uses (raw_address_family raw)) (or_empty groups)) as Hf.
    destruct (broadcast && negb _) eqn:Eb.
    { split; [done|]. intros (->&H). destruct (H _ eq_refl) as (_&Hb&_). cbn [udp_broadcast] in Hb.
      apply andb_true_iff in Eb as [-> Eb]. rewrite Hb in Eb; done. }
    destruct (find_first _ _) as [g|].
    { split; [done|]. intros (->&H). destruct (H _ eq_refl) as (_&_&Hu). by apply Hf in Hu. }
    split; [|by intros (->&_)]. intros [= <-]. split; [done|]. intros u [= <-].
    cbn [udp_groups udp_broadcast]. split_and!; [done| |by apply Hf].
    intros ->. cbn in Eb. by destruct (uses_ipv4 _). }
  destruct (raw_udp_groups raw) as [g|] eqn:Eg, (raw_udp_broadcast raw) eqn:Eb.
  1-3: rewrite Hgen by eauto; naive_solver.
  split; [done|]. intros (_&->&H). destruct (H _ eq_refl) as ([[]|]&_); done.
Qed.

Lemma entry_of_lists raw n : raw_lists_ok raw -> lists_ok (entry_of raw n).
Proof.
  intros H. split; cbn [entry_of macs wol udp mdns source_peers target_peers]; intros.
  - by eapply rl_macs.
  - destruct (raw_wol raw); simplify_eq. cbn. destruct (raw_wol_ports raw) eqn:E; cbn.
    + by eapply rl_wol.
    + apply WOL_DEFAULT_PORTS_ok.
  - destruct (raw_udp_ports raw) eqn:E; simplify_eq. by eapply rl_ports.
  - destruct (raw_udp_ports raw) eqn:E; simplify_eq. by eapply rl_groups.
  - destruct (raw_mdns raw); simplify_eq. by eapply rl_services.
  - by eapply rl_source.
  - by eapply rl_target.
Qed.

Lemma if_some {A} (b : bool) (x : A) : is_Some (if b then Some x else None) <-> b = true.
Proof. destruct b; split; done || by intros []. Qed.

Lemma filtered_entry_of raw n :
  filtered (entry_of raw n) <->
  raw_wol raw || raw_mdns raw || raw_ssdp raw || raw_wsd raw = true.
Proof.
  unfold filtered, entry_of. cbn [wol mdns ssdp wsd]. rewrite !orb_true_iff, !if_some. tauto.
Qed.

(** The checks past the relay's, as one condition. *)
Lemma no_protocol_check raw n o :
  o = udp (entry_of raw n) ->
  negb (raw_wol raw) && negb (raw_mdns raw) && negb (raw_ssdp raw) && negb (raw_wsd raw)
    && bool_decide (o = None) = false <->
  filtered (entry_of raw n) \/ is_Some (udp (entry_of raw n)).
Proof.
  intros ->. rewrite filtered_entry_of, <- not_eq_None_Some.
  destruct (raw_wol raw), (raw_mdns raw), (raw_ssdp raw), (raw_wsd raw); cbn [negb andb orb].
  1-15: tauto.
  rewrite bool_decide_eq_false. split; [auto|by intros [?|?]].
Qed.

Lemma macs_check raw n :
  bool_decide (is_Some (raw_macs raw)) && negb (raw_wol raw) && negb (raw_mdns raw)
    && negb (raw_ssdp raw) && negb (raw_wsd raw) = false <->
  (is_Some (macs (entry_of raw n)) -> filtered (entry_of raw n)).
Proof.
  rewrite filtered_entry_of. cbn [entry_of macs].
  destruct (raw_wol raw), (raw_mdns raw), (raw_ssdp raw), (raw_wsd raw); cbn [negb orb];
    rewrite ?andb_false_r, ?andb_true_r; try tauto.
  rewrite bool_decide_eq_false. split; [tauto|]. intros H Hs. by apply H in Hs.
Qed.

Lemma set_without_check {A} (o : option A) b :
  bool_decide (is_Some o) && negb b = false <-> (is_Some o -> b = true).
Proof. destruct b; rewrite ?andb_false_r, ?andb_true_r, ?bool_decide_eq_false; [tauto|]. split; [done|]. intros H ?. by apply H in H0. Qed.

Lemma dial_ipv4_check raw n :
  raw_dial raw && negb (raw_ssdp raw) = false ->
  (raw_ssdp raw = true -> raw_dial raw && negb (uses_ipv4 (raw_address_family raw)) = false) <->
  (forall s, ssdp (entry_of raw n) = Some s -> dial s = true -> uses_ipv4 (address_family (entry_of raw n)) = true).
Proof.
  cbn [entry_of ssdp address_family]. intros _.
  destruct (raw_ssdp raw), (raw_dial raw), (uses_ipv4 _); split; intros H; try tauto.
  all: try (intros ? [= <-]; done). all: try (intros; by simplify_eq).
  - by specialize (H eq_refl).
  - by specialize (H _ eq_refl eq_refl).
Qed.

Lemma reflector_try_from_Ok key raw r :
  reflector_try_from key raw = Ok r <->
  exists n, named key raw n /\ check_peers raw n = Ok () /\ raw_source_if raw <> raw_target_if raw /\
    relay_of raw n = Ok (udp (entry_of raw n)) /\
    (filtered (entry_of raw n) \/ is_Some (udp (entry_of raw n))) /\
    (is_Some (raw_wol_ports raw) -> raw_wol raw = true) /\
    (is_Some (raw_mdns_services raw) -> raw_mdns raw = true) /\
    (is_Some (macs (entry_of raw n)) -> filtered (entry_of raw n)) /\
    (raw_dial raw = true -> raw_ssdp raw = true) /\
    (forall s, ssdp (entry_of raw n) = Some s -> dial s = true -> uses_ipv4 (address_family (entry_of raw n)) = true) /\
    relay_duplicates (entry_of raw n) = None /\ r = entry_of raw n.
Proof.
  assert (Hdial : raw_dial raw && negb (raw_ssdp raw) = false <-> (raw_dial raw = true -> raw_ssdp raw = true))
    by (destruct (raw_dial raw), (raw_ssdp raw); naive_solver).
  unfold reflector_try_from. rewrite bind_Ok. split.
  - intros (n&Hn&H). exists n.
    apply bind_Ok in H as ([]&Hp&H). apply bind_Ok in H as (?&Hi%reject_if_Ok&H).
    apply bool_decide_eq_false in Hi. apply bind_Ok in H as (u&Hu&H).
    pose proof (proj1 (relay_of_Ok raw n u) Hu) as (_&Eu&_).
    apply bind_Ok in H as (?&Hnp%reject_if_Ok&H). apply (no_protocol_check raw n u Eu) in Hnp.
    apply bind_Ok in H as (?&Hw%reject_if_Ok&H). pose proof (proj1 (set_without_check _ _) Hw) as Hw'.
    apply bind_Ok in H as (?&Hm%reject_if_Ok&H). pose proof (proj1 (set_without_check _ _) Hm) as Hm'.
    apply bind_Ok in H as (?&Hmacs%reject_if_Ok&H). pose proof (proj1 (macs_check raw n) Hmacs) as Hmacs'.
    apply bind_Ok in H as (?&Hd%reject_if_Ok&H).
    apply bind_Ok in H as (w&Ew&H). apply bind_Ok in H as (s&Es&H).
    assert (w = wol (entry_of raw n)) as ->.
    { cbn [entry_of wol]. rewrite default_ports_Ok in Ew. destruct (raw_wol raw); [|by injection Ew].
      destruct (raw_wol_ports raw); cbn in Ew; by injection Ew. }
    assert (s = ssdp (entry_of raw n) /\
      (raw_ssdp raw = true -> raw_dial raw && negb (uses_ipv4 (raw_address_family raw)) = false)) as (->&Hd4).
    { cbn [entry_of ssdp]. destruct (raw_ssdp raw); [|by injection Es].
      apply bind_Ok in Es as (?&?%reject_if_Ok&[= <-]). auto. }
    subst u. 
    assert (relay_duplicates (entry_of raw n) = None /\ r = entry_of raw n) as (Hdup&->).
    { change (match relay_duplicates (entry_of raw n) with
              | Some (protocol, port) => Err (UdpRelayDuplicates n port protocol)
              | None => Ok (entry_of raw n) end = Ok r) in H.
      destruct (relay_duplicates _) as [[]|]; [done|]. by injection H. }
    pose proof (proj1 (dial_ipv4_check raw n Hd) Hd4) as Hd4'. rewrite Hdial in Hd.
    split_and!; try done. unfold named. destruct (raw_name raw); [by injection Hn|by apply ok_or_Ok in Hn].
  - intros (n&Hn&Hp&Hi&Hu&Hnp&Hw&Hm&Hmacs&Hd&Hd4&Hdup&->). exists n. split.
    { unfold named in Hn. destruct (raw_name raw); [by subst|by apply ok_or_Ok]. }
    rewrite Hp, bind_ret. rewrite (bool_decide_false _ Hi). cbn [reject_if]. rewrite bind_ret, Hu, bind_ret.
    rewrite (proj2 (no_protocol_check raw n _ eq_refl) Hnp). cbn [reject_if]. rewrite bind_ret.
    rewrite (proj2 (set_without_check _ _) Hw). cbn [reject_if]. rewrite bind_ret.
    rewrite (proj2 (set_without_check _ _) Hm). cbn [reject_if]. rewrite bind_ret.
    rewrite (proj2 (macs_check raw n) Hmacs). cbn [reject_if]. rewrite bind_ret.
    rewrite <- Hdial in Hd. pose proof (proj2 (dial_ipv4_check raw n Hd) Hd4) as Hd4'.
    rewrite Hd. cbn [reject_if]. rewrite bind_ret.
    transitivity (match relay_duplicates (entry_of raw n) with
              | Some (protocol, port) => Err (UdpRelayDuplicates n port protocol)
              | None => Ok (entry_of raw n) end); [|by rewrite Hdup].
    rewrite default_ports_Ok. unfold entry_of.
    destruct (raw_wol raw), (raw_wol_ports raw), (raw_ssdp raw); rewrite ?bind_ret; try reflexivity.
    all: rewrite Hd4' by done; reflexivity.
Qed.

Lemma safe_reject_if {E} (c : bool) (e : E) : safe (reject_if c e).
Proof. by destruct c. Qed.
#[export] Hint Resolve safe_reject_if : nf.

Lemma relay_of_safe raw n : safe (relay_of raw n).
Proof.
  unfold relay_of. destruct (raw_udp_ports raw), (raw_udp_groups raw), (raw_udp_broadcast raw); try done.
  all: destruct (_ && _); [done|]; by destruct (find_first _ _).
Qed.

Lemma reflector_try_from_safe key raw : safe (reflector_try_from key raw).
Proof.
  unfold reflector_try_from.
  apply bind_safe; [destruct (raw_name raw); auto with nf|intros n _].
  apply bind_safe; [unfold check_peers; by destruct (peer_of_unused_family _)|intros _ _].
  apply bind_safe; [auto with nf|intros _ _].
  apply bind_safe; [apply relay_of_safe|intros u _].
  do 5 (apply bind_safe; [auto with nf|intros _ _]).
  apply bind_safe; [rewrite default_ports_Ok; destruct (raw_wol raw), (raw_wol_ports raw); done|intros w _].
  apply bind_safe; [destruct (raw_ssdp raw); [apply bind_safe; auto with nf|done]|intros s _].
  by destruct (relay_duplicates _) as [[]|].
Qed.

Lemma reflector_try_from_described key raw r : raw_lists_ok raw ->
  reflector_try_from key raw = Ok r <->
    exists n, named key raw n /\ r = entry_of raw n /\ raw_consistent raw /\ entry_valid r.
Proof.
  intros Hl. rewrite reflector_try_from_Ok. split.
  - intros (n&Hn&(Hs&Ht)%check_peers_Ok&Hi&(Hrk&_&Hu)%relay_of_Ok&Hnp&Hw&Hm&Hmacs&Hd&Hd4&Hdup&->).
    exists n. split_and!; [done|done|by split|]. split; try done. by apply entry_of_lists.
  - intros (n&Hn&->&[Hw Hm Hd Hrk]&[Hlo Hi Hs Ht Hp Hmacs Hu Hd4 Hdup]). exists n.
    rewrite check_peers_Ok, relay_of_Ok. split_and!; done.
Qed.

(** C24. Validation of an entry never panics, and it accepts exactly the raw
    entries that name themselves, set no parameter of a disabled protocol and
    describe a valid entry (distinct interfaces, peers and groups of a family
    in use, a protocol to reflect, somewhere to relay to, no MAC list without a
    protocol to apply it to, no datagram relayed twice); the entry built is the
    one described. *)
Theorem entry_validation key raw :
  raw_lists_ok raw ->
  safe (reflector_try_from key raw) /\
  forall r, reflector_try_from key raw = Ok r <->
    exists n, named key raw n /\ r = entry_of raw n /\ raw_consistent raw /\ entry_valid r.
Proof.
  intros Hl. split; [apply reflector_try_from_safe|]. intros r. by apply reflector_try_from_described.
Qed.

Definition ex_raw : RawReflector :=
  {| raw_name := None; raw_source_if := ex_if "eth0"; raw_target_if := ex_if "eth1";
     raw_source_peers := None; raw_target_peers := None; raw_macs := Some [[2; 0; 0; 0; 0; 1]];
     raw_address_family := FDefault; raw_wol := true; raw_wol_ports := None; raw_mdns := true;
     raw_mdns_services := None; raw_ssdp := false; raw_dial := false; raw_wsd := false;
     raw_bidirectional := false; raw_udp_ports := None; raw_udp_groups := None; raw_udp_broadcast := false |}.

Lemma entry_validation_witness :
  exists r, reflector_try_from (bs " TV ") ex_raw = Ok r /\ entry_valid r /\ rn_str (name r) = bs "tv".
Proof.
  assert (Hl : raw_lists_ok ex_raw) by (split; cbn; intros; simplify_eq; apply unique_list_ok_dec; vm_compute; reflexivity).
  destruct (proj1 (proj2 (entry_validation (bs " TV ") ex_raw Hl) ex_discovery) ltac:(vm_compute; reflexivity))
    as (n&_&_&_&Hv).
  exists ex_discovery. split; [vm_compute; reflexivity|]. split; [exact Hv|reflexivity].
Defined.

(** ** The fallback of a host without IPv6 *)

Definition v4_of (l : list IpAddr) : list IpAddr := filter (fun ip => is_v4 ip = true) l.
Definition nonempty (l : list IpAddr) : option (list IpAddr) := match l with [] => None | _ => Some l end.

Lemma v4_of_ok (R : ListRule IpAddr) l x :
  unique_list_ok (H := R) l -> nonempty (v4_of l) = Some x -> x = v4_of l /\ unique_list_ok (H := R) x.
Proof.
  intros (_&Hn&Hf) H. unfold nonempty in H.
  assert (x = v4_of l /\ x <> []) as [-> Hne] by (destruct (v4_of l); simplify_eq; done).
  split; [done|]. split_and!; [done|by apply NoDup_filter|].
  apply Forall_forall. intros y (_&Hy)%list_elem_of_filter. rewrite Forall_forall in Hf. auto.
Qed.

Lemma ipv4_part_ok (R : ListRule IpAddr) l :
  unique_list_ok (H := R) l -> ipv4_part R l = Ok (nonempty (v4_of l)).
Proof.
  intros Hl. unfold ipv4_part. fold (v4_of l).
  pose proof (fun x => v4_of_ok R l x Hl) as H. unfold nonempty in *.
  destruct (v4_of l) as [|ip v4]; [done|]. destruct (H _ eq_refl) as (_&Hok).
  assert (@try_from IpAddr R (ip :: v4) = Ok (ip :: v4)) as ->; [|done]. by apply try_from_Ok.
Qed.

Lemma v4_of_uses l : uses_all FIpv4 (v4_of l).
Proof. apply Forall_forall. by intros [ip|ip] (H&_)%list_elem_of_filter. Qed.

Lemma nonempty_None l : nonempty l = None <-> l = [].
Proof. by destruct l. Qed.

(** What is left of a list of addresses: at least one, all IPv4. *)
Lemma or_empty_nonempty l : or_empty (nonempty l) = l.
Proof. by destruct l. Qed.

(** An entry on the default family can lose its IPv6 addresses. *)
Definition keeps_ipv4 (r : Reflector) : Prop :=
  (forall u g, udp r = Some u -> udp_groups u = Some g -> udp_broadcast u = false -> v4_of g <> []) /\
  (forall l, source_peers r = Some l -> v4_of l <> []) /\
  (forall l, target_peers r = Some l -> v4_of l <> []).

(** What the entry becomes. *)
Definition ipv4_only (r : Reflector) : Reflector :=
  {| name := name r; source_if := source_if r; target_if := target_if r;
     source_peers := v4_of <$> source_peers r; target_peers := v4_of <$> target_peers r;
     macs := macs r; address_family := FIpv4; wol := wol r; mdns := mdns r; ssdp := ssdp r;
     wsd := wsd r; bidirectional := bidirectional r;
     udp := (fun u => {| udp_ports := udp_ports u;
                         udp_groups := g ← udp_groups u; nonempty (v4_of g);
                         udp_broadcast := udp_broadcast u |}) <$> udp r |}.
Definition fallen_back (r : Reflector) : Reflector :=
  if decide (address_family r = FDefault) then ipv4_only r else r.

Lemma peers_fall_back_ok n field l :
  (forall k, l = Some k -> peers_ok k) ->
  (peers_fall_back n field l = Ok (v4_of <$> l) /\ forall k, l = Some k -> v4_of k <> []) \/
  (peers_fall_back n field l = Err (Ipv6OnlyPeers n field) /\ exists k, l = Some k /\ v4_of k = []).
Proof.
  intros H. destruct l as [k|]; [|by left]. cbn [peers_fall_back].
  rewrite (ipv4_part_ok Peers k) by (by apply H). cbn [mbind res_bind].
  destruct (v4_of k) as [|ip v4] eqn:E; cbn [nonempty ok_or].
  - right. eauto.
  - left. cbn [fmap option_fmap option_map]. rewrite E. split; [done|].
    intros ? [= <-]. by rewrite E.
Qed.

Lemma relay_fall_back_ok n u :
  (forall v g, u = Some v -> udp_groups v = Some g -> groups_ok g) ->
  (relay_fall_back n u = Ok ((fun u => {| udp_ports := udp_ports u;
                         udp_groups := g ← udp_groups u; nonempty (v4_of g);
                         udp_broadcast := udp_broadcast u |}) <$> u) /\
   forall v g, u = Some v -> udp_groups v = Some g -> udp_broadcast v = false -> v4_of g <> []) \/
  (relay_fall_back n u = Err (Ipv6OnlyRelay n) /\
   exists v g, u = Some v /\ udp_groups v = Some g /\ udp_broadcast v = false /\ v4_of g = []).
Proof.
  intros H. destruct u as [[ports [g|] b]|]; [|left..]; try done.
  2: { split; [done|]. by intros v g [= <-]. }
  cbn [relay_fall_back]. rewrite (ipv4_part_ok Groups g) by (by eapply H). rewrite bind_ret.
  pose proof (nonempty_None (v4_of g)) as Hn.
  destruct (bool_decide_reflect (nonempty (v4_of g) = None)) as [E|E], b; cbn [negb andb reject_if].
  - left. split; [done|]. by intros v g' [= <-].
  - right. split; [done|]. eexists _, g. split_and!; [done|done|done|by apply Hn].
  - left. split; [done|]. by intros v g' [= <-].
  - left. split; [done|]. intros v g' [= <-] [= <-] _ Hv. by apply E, Hn.
Qed.

Lemma reflector_fall_back_ok r :
  lists_ok r ->
  (reflector_fall_back r = Ok (fallen_back r) /\ (address_family r = FDefault -> keeps_ipv4 r)) \/
  (exists e, reflector_fall_back r = Err e /\ address_family r = FDefault /\ ~ keeps_ipv4 r).
Proof.
  intros Hl. unfold reflector_fall_back, fallen_back.
  destruct (decide (address_family r = FDefault)) as [E|E].
  2: { rewrite bool_decide_false by done. by left. }
  rewrite bool_decide_true by done. cbn [negb].
  destruct (relay_fall_back_ok (name r) (udp r)) as [(->&Hu)|(->&v&g&Hv&Hg&Hb&He)]; [by eapply lo_groups| |].
  2: { right. eexists. split_and!; [done|done|]. intros (Hk&_). by eapply Hk. }
  rewrite bind_ret.
  destruct (peers_fall_back_ok (name r) (bs "source_peers") (source_peers r)) as [(->&Hs)|(->&k&Hk&He)];
    [by apply lo_source| |].
  2: { right. eexists. split_and!; [done|done|]. intros (_&Hs&_). by eapply Hs. }
  rewrite bind_ret.
  destruct (peers_fall_back_ok (name r) (bs "target_peers") (target_peers r)) as [(->&Ht)|(->&k&Hk&He)];
    [by apply lo_target| |].
  2: { right. eexists. split_and!; [done|done|]. intros (_&_&Ht). by eapply Ht. }
  left. split; [done|]. intros _. by split_and!.
Qed.

(** Every flow of the fallen-back entry is a flow the entry had, with a reach
    that is the same or has lost its IPv6 half. *)
Definition reach_le (r s : Reach) : Prop := r = s \/ (r = Any FIpv4 /\ s = Any FDefault).
Definition flow_le (f g : Flow) : Prop :=
  protocol f = protocol g /\ ingress f = ingress g /\ egress f = egress g /\ f_port f = f_port g /\
  reach_le (reach f) (reach g).

Lemma flow_le_refl f : flow_le f f.
Proof. repeat split; try done. by left. Qed.

Lemma reach_le_overlaps r r' s s' :
  reach_le r r' -> reach_le s s' -> reach_overlaps r s = true -> reach_overlaps r' s' = true.
Proof.
  assert (Hf : forall f, families_overlap FIpv4 f = true -> families_overlap FDefault f = true)
    by (intros []; done).
  assert (Hf' : forall f, families_overlap f FIpv4 = true -> families_overlap f FDefault = true)
    by (intros []; done).
  assert (Hu : forall ip, uses FIpv4 ip = true -> uses FDefault ip = true) by (intros []; done).
  intros [-> | [-> ->]] [-> | [-> ->]]; [done| | |done].
  - destruct r'; cbn; auto.
  - destruct s'; cbn; auto.
Qed.

Lemma flow_le_overlaps f f' g g' :
  flow_le f f' -> flow_le g g' -> overlaps f g = true -> overlaps f' g' = true.
Proof.
  intros (_&Hi&He&Hp&Hr) (_&Hi'&He'&Hp'&Hr'). unfold overlaps. rewrite Hi, He, Hp, Hi', He', Hp'.
  rewrite !andb_true_iff. intros (?&?). split; [done|]. by eapply reach_le_overlaps.
Qed.

Lemma discovery_uses r r' p port groups f :
  source_if r = source_if r' -> target_if r = target_if r' ->
  (forall ip, uses (address_family r) ip = true -> uses (address_family r') ip = true) ->
  f ∈ discovery r p port groups -> f ∈ discovery r' p port groups.
Proof.
  intros Hs Ht Hu (leg&g&->&Hleg&Hg&Hin)%discovery_elem. apply discovery_elem.
  exists leg, g. rewrite <- Hs, <- Ht. auto.
Qed.

Lemma fallen_back_flows r f :
  f ∈ flows (fallen_back r) -> exists g, g ∈ flows r /\ flow_le f g.
Proof.
  unfold fallen_back. destruct (decide _) as [E|E]; [|intros H; eauto using flow_le_refl].
  assert (Hu : forall ip, uses FIpv4 ip = true -> uses (address_family r) ip = true) by (rewrite E; by intros []).
  rewrite flows_elem. setoid_rewrite flows_elem. cbn [ipv4_only mdns ssdp wsd].
  intros [(?&Hf)|[(?&Hf)|[(?&Hf)|(leg&Hleg&Hf)]]].
  1-3: exists f; split; [|apply flow_le_refl]; apply (discovery_uses _ r) in Hf; [auto 10|reflexivity|reflexivity|exact Hu].
  destruct Hf as [Hf|Hf].
  - apply wol_flows_elem in Hf as (w&port&Hw&Hp&->).
    eexists. split.
    + do 3 right. exists leg. split; [exact Hleg|left]. apply wol_flows_elem. by exists w, port.
    + repeat split; try done. right. cbn. by rewrite E.
  - apply udp_flows_elem in Hf as (u&port&rc&Hu'&Hd&->). cbn [ipv4_only udp] in Hu'.
    apply fmap_Some in Hu' as (u0&Hu0&->). apply destinations_elem in Hd as (Hp&Hd).
    cbn [udp_ports udp_groups udp_broadcast] in *.
    eexists. split; [|apply flow_le_refl].
    do 3 right. exists leg. split; [exact Hleg|right]. apply udp_flows_elem.
    exists u0, port, rc. split_and!; [done| |done]. apply destinations_elem. split; [done|].
    destruct Hd as [(g&->&Hg)|?]; [left|by right]. exists g. split; [done|].
    destruct (udp_groups u0) as [l|]; cbn [mbind option_bind] in Hg; [|by apply elem_of_nil in Hg].
    rewrite or_empty_nonempty in Hg. by apply list_elem_of_filter in Hg as [_ ?].
Qed.

Lemma fallen_back_relay_overlap a b :
  relay_overlap a (flows b) = None -> relay_overlap (fallen_back a) (flows (fallen_back b)) = None.
Proof.
  rewrite !relay_overlap_None. intros H f g (f'&Hf'&Lf)%fallen_back_flows (g'&Hg'&Lg)%fallen_back_flows Hp.
  apply not_true_iff_false. intros Ho. eapply flow_le_overlaps in Ho; [|exact Lf|exact Lg].
  rewrite H in Ho; [done..|]. by destruct Lf as (<-&_).
Qed.

Lemma fallen_back_relay_duplicates r :
  relay_duplicates r = None -> relay_duplicates (fallen_back r) = None.
Proof.
  unfold relay_duplicates. rewrite !fmap_None, !relay_overlap_None.
  intros H f g (f'&Hf'&Lf)%fallen_back_flows (Hng&(g'&Hg'&Lg)%fallen_back_flows)%list_elem_of_filter Hp.
  apply not_true_iff_false. intros Ho. eapply flow_le_overlaps in Ho; [|exact Lf|exact Lg].
  destruct Lf as (Ef&_), Lg as (Eg&_). rewrite H in Ho; [done|done| |congruence].
  apply list_elem_of_filter. split; [|done]. unfold is_relay in *. by rewrite <- Eg.
Qed.

Lemma v4_of_peers f l :
  uses_all f (or_empty l) -> uses_all FIpv4 (or_empty (v4_of <$> l)).
Proof. intros _. destruct l as [l|]; [apply v4_of_uses|constructor]. Qed.

Lemma nonempty_ne l : l <> [] -> nonempty l = Some l.
Proof. by destruct l. Qed.

Lemma fallen_back_lists r :
  lists_ok r -> (address_family r = FDefault -> keeps_ipv4 r) -> lists_ok (fallen_back r).
Proof.
  intros Hl Hk. unfold fallen_back. destruct (decide _) as [E|E]; [|done].
  destruct (Hk E) as (Hu&Hs&Ht). destruct Hl as [L1 L2 L3 L4 L5 L6 L7].
  split; cbn [ipv4_only macs wol udp mdns source_peers target_peers]; [done|done| | |done| |].
  - intros ? (u&Hu'&->)%fmap_Some. cbn. auto.
  - intros ? l (u&Hu'&->)%fmap_Some Hl. cbn [udp_groups] in Hl. apply bind_Some in Hl as (g&Hg&Hl).
    by apply (v4_of_ok Groups g) in Hl as (->&?); [|by eapply L4].
  - intros ? (k&Hk'&->)%fmap_Some. apply (v4_of_ok Peers k); [by apply L6|]. by apply nonempty_ne, Hs.
  - intros ? (k&Hk'&->)%fmap_Some. apply (v4_of_ok Peers k); [by apply L7|]. by apply nonempty_ne, Ht.
Qed.

Lemma fallen_back_valid r :
  entry_valid r -> (address_family r = FDefault -> keeps_ipv4 r) -> entry_valid (fallen_back r).
Proof.
  intros Hv Hk. pose proof (fallen_back_lists r (ev_lists r Hv) Hk) as Hl.
  pose proof (fallen_back_relay_duplicates r (ev_once r Hv)) as Hdup. destruct Hv as [_ Hi Hs Ht Hp Hm Hr Hd _].
  unfold fallen_back in *. destruct (decide _) as [E|E]; [|by split].
  destruct (Hk E) as (Hu&_&_).
  split; cbn [ipv4_only macs wol udp mdns source_peers target_peers address_family source_if target_if ssdp];
    [done|done|by eapply v4_of_peers|by eapply v4_of_peers| |done| |done|done].
  - destruct Hp as [?|[u Hu']]; [by left|right]. rewrite Hu'. by eexists.
  - intros ? (u&Hu'&->)%fmap_Some. destruct (Hr u Hu') as (Hne&_&_).
    unfold relay_valid. cbn [udp_groups udp_broadcast]. split_and!; [|done|].
    + destruct (udp_broadcast u) eqn:Eb; [by right|left]. destruct Hne as [[g Hg]|?]; [|done].
      rewrite Hg. cbn [mbind option_bind]. rewrite nonempty_ne by (by eapply Hu). by eexists.
    + destruct (udp_groups u) as [g|]; cbn [mbind option_bind]; [|constructor].
      rewrite or_empty_nonempty. apply v4_of_uses.
Qed.

Lemma fallen_back_reflects r m : reflects (fallen_back r) m -> reflects r m.
Proof.
  unfold fallen_back. destruct (decide _) as [E|]; [|done].
  destruct m as [leg port ip mac|p leg ip|p leg ip mac].
  1,3: intros (Hleg&Hu&Hm&Hp); split_and!; [exact Hleg| |exact Hm|exact Hp]; rewrite E; by destruct ip.
  intros (Hleg&Hu&Hp). split_and!; [exact Hleg| |exact Hp]. rewrite E. by destruct ip.
Qed.

Lemma flow_le_admits directed f g d : flow_le f g -> admits directed f d -> admits directed g d.
Proof.
  intros (_&Hi&He&Hp&Hr) (Hi'&He'&Hp'&Ha). unfold admits. rewrite <- Hi, <- He, <- Hp. split_and!; [done..|].
  destruct Hr as [<- | [Hr ->]]; [done|]. rewrite Hr in Ha. by destruct (d_dst d).
Qed.

Lemma fallen_back_compatible directed a b :
  compatible directed a b -> compatible directed (fallen_back a) (fallen_back b).
Proof.
  intros [H1 H2]. split.
  - intros m Hm Ha Hb. eapply H1; [exact Hm|by apply fallen_back_reflects..].
  - intros d f g (f'&Hf&Lf)%fallen_back_flows (g'&Hg&Lg)%fallen_back_flows Hp Hd Hd'.
    eapply (H2 d f' g'); [done|done| |by eapply flow_le_admits|by eapply flow_le_admits].
    destruct Lf as (<-&_), Lg as (<-&_). exact Hp.
Qed.

Lemma fallen_back_name r : name (fallen_back r) = name r.
Proof. unfold fallen_back. by destruct (decide _). Qed.

Lemma fall_back_reflectors_ok rs :
  Forall lists_ok rs ->
  match fall_back_reflectors rs with
  | Ok rs' => rs' = fallen_back <$> rs /\ Forall (fun r => address_family r = FDefault -> keeps_ipv4 r) rs
  | Err _ => Exists (fun r => address_family r = FDefault /\ ~ keeps_ipv4 r) rs
  | Panic => False
  end.
Proof.
  induction 1 as [|r rs Hr _ IH]; [by split; [|constructor]|]. cbn [fall_back_reflectors].
  destruct (reflector_fall_back_ok r Hr) as [(->&Hk)|(e&->&He&Hn)]; [rewrite bind_ret|cbn; by left].
  destruct (fall_back_reflectors rs) as [rs'|e|]; cbn [mbind res_bind]; [|by right|done].
  destruct IH as (->&?). split; [done|]. by constructor.
Qed.

Lemma fallen_back_check_conflicts rs :
  Forall lists_ok rs -> Forall lists_ok (fallen_back <$> rs) ->
  check_conflicts rs = Ok () -> check_conflicts (fallen_back <$> rs) = Ok ().
Proof.
  intros Hl Hl' H. set (none := fun (_ : InterfaceName) (_ : Z) => false).
  assert (Hnone : forall i a, none i a = true -> Ipv4.is_multicast a = false) by done.
  apply (check_conflicts_pairs none Hnone) in H; [|done].
  apply (check_conflicts_pairs none Hnone); [done|]. clear Hl Hl' Hnone.
  induction H as [|r rs Hr _ IH]; [constructor|]. rewrite fmap_cons. constructor; [|done].
  apply Forall_fmap. eapply Forall_impl; [exact Hr|]. intros b (Hn&Hc). cbn.
  rewrite !fallen_back_name. split; [done|]. by apply fallen_back_compatible.
Qed.

(** C25. The fallback of a host without IPv6, on a valid configuration, never
    panics; it fails exactly when an entry on the default family would be left
    without a relay destination or without peers; and otherwise every such
    entry is IPv4-only, the others are untouched, and the result is a
    configuration the validation accepts: valid entries, no conflict. *)
Theorem ipv4_fallback_keeps_valid c :
  Forall entry_valid (reflectors c) -> check_conflicts (reflectors c) = Ok () ->
  match fall_back_to_ipv4 c with
  | Ok c' =>
      Forall (fun r => address_family r = FDefault -> keeps_ipv4 r) (reflectors c) /\
      reflectors c' = fallen_back <$> reflectors c /\
      Forall entry_valid (reflectors c') /\ check_conflicts (reflectors c') = Ok ()
  | Err _ => Exists (fun r => address_family r = FDefault /\ ~ keeps_ipv4 r) (reflectors c)
  | Panic => False
  end.
Proof.
  intros Hv Hc. assert (Hl : Forall lists_ok (reflectors c)) by (eapply Forall_impl; [exact Hv|apply ev_lists]).
  pose proof (fall_back_reflectors_ok _ Hl) as H. unfold fall_back_to_ipv4.
  destruct (fall_back_reflectors (reflectors c)) as [rs|e|]; [|done|done].
  destruct H as (->&Hk). cbn [mbind res_bind reflectors]. rewrite Forall_forall in Hv, Hk.
  assert (Hv' : Forall entry_valid (fallen_back <$> reflectors c)).
  { apply Forall_fmap, Forall_forall. intros r Hr. apply fallen_back_valid; auto. }
  split_and!; [by apply Forall_forall|done|done|].
  apply fallen_back_check_conflicts; [done| |done]. eapply Forall_impl; [exact Hv'|apply ev_lists].
Qed.

Definition ex_config : Config :=
  {| user := None; debug_memory_interval := None; counter_interval := None;
     reflectors := [ex_discovery] |}.

Lemma ipv4_fallback_keeps_valid_witness :
  exists c', fall_back_to_ipv4 ex_config = Ok c' /\ Forall entry_valid (reflectors c').
Proof.
  assert (Hv : Forall entry_valid (reflectors ex_config)).
  { constructor; [|constructor]. split; cbn; try done; try (by constructor); try (intros; by simplify_eq).
    - lists_ok_tac.
    - left. left. by eexists. }
  pose proof (ipv4_fallback_keeps_valid ex_config Hv ltac:(vm_compute; reflexivity)) as H.
  exists {| user := None; debug_memory_interval := None; counter_interval := None;
            reflectors := [fallen_back ex_discovery] |}.
  split; [vm_compute; reflexivity|].
  assert (E : fall_back_to_ipv4 ex_config = Ok {| user := None; debug_memory_interval := None;
    counter_interval := None; reflectors := [fallen_back ex_discovery] |}) by (vm_compute; reflexivity).
  rewrite E in H. apply H.
Defined.
