(* ===== verification/Datagram.v ===== *)
(** Assembling a UDP datagram for an egress ([src/dispatch/datagram.rs]): its
    L2 destination, its source address and the frames of its link type. *)

From S2P Require Import Prelude Text Addr Checksum Mac Frame Interface.

Local Open Scope Z_scope.

Inductive DatagramError : Type :=
  | NoSourceAddress
  | NoSourceMac
  | UnicastDestination
  | SourceFamilyMismatch
  | FrameFailed (e : FrameError).

(** [DatagramSource] *)
Inductive DatagramSource : Type :=
  | FromEgress (port : Z)
  | Exact (source : SocketAddr).

Definition ethernet_dst (dst : IpAddr) (directed_broadcast : option Z) : res DatagramError MacAddr :=
  let group := if is_multicast dst then Ok (multicast_for dst) else Err UnicastDestination in
  match dst with
  | V4 v4 => if Ipv4.is_broadcast v4 || bool_decide (Some v4 = directed_broadcast) then Ok mac_broadcast else group
  | V6 _ => group
  end.

Definition link_header (addrs : InterfaceAddresses) (link : LinkType) (dst_mac : MacAddr) : res DatagramError LinkHeader :=
  match link with
  | Ethernet => src ← ok_or (ia_mac addrs) NoSourceMac; Ok (LEthernet dst_mac src)
  | DltNull => Ok LDltNull
  | RawIp => Ok LRawIp
  end.

(** [build_udp]: an IPv4 datagram takes the low 16 bits of [id]. *)
Definition build_udp (addrs : InterfaceAddresses) (link : LinkType) (dst : SocketAddr) (dst_mac : MacAddr)
    (source : DatagramSource) (ttl id : Z) (payload : bytes) (mtu : nat) : res DatagramError UdpFrames :=
  match ip dst with
  | V4 dst_ip =>
      '(src, src_port) ←
        match source with
        | FromEgress port => v4 ← ok_or (ia_v4 addrs) NoSourceAddress; Ok (v4, port)
        | Exact {| ip := V4 v4; port := port |} => Ok (v4, port)
        | Exact {| ip := V6 _ |} => Err SourceFamilyMismatch
        end;
      link ← link_header addrs link dst_mac;
      map_err FrameFailed (udp_frames_ipv4 link src src_port dst_ip (port dst) ttl (Z.land id 65535) payload mtu)
  | V6 dst_ip =>
      '(src, src_port) ←
        match source with
        | FromEgress port => v6 ← ok_or (source_v6 addrs (scope_of_v6 dst_ip)) NoSourceAddress; Ok (v6, port)
        | Exact {| ip := V6 v6; port := port |} => Ok (v6, port)
        | Exact {| ip := V4 _ |} => Err SourceFamilyMismatch
        end;
      link ← link_header addrs link dst_mac;
      map_err FrameFailed (udp_frames_ipv6 link src src_port dst_ip (port dst) ttl id payload mtu)
  end.
