(* ===== verification/Egress.v ===== *)
(** The egress path ([src/dispatch/egress.rs]): a UDP datagram assembled for an
    interface and injected through one reused frame buffer, as IP fragments
    past the MTU, each distinct datagram once per routed packet. *)

From S2P Require Import Prelude Text Addr Effect Mac Frame Names Interface Kernel InterfaceTable Datagram.

Local Open Scope Z_scope.

(** For an interface whose MTU is unreadable. *)
Definition FALLBACK_MTU : Z := 1280.

(** [Datagram] *)
Record Datagram : Type := { dg_dst : SocketAddr; dg_source : DatagramSource; dg_ttl : Z; dg_payload : bytes }.

(** What the host fixes: the constants of a [DLT_NULL] header, and the hash
    [DefaultHasher] makes of a datagram and its L2 destination. *)
Class Host : Type := { platform : Platform; digest : MacAddr -> Datagram -> Z }.

Record Egress : Type := { eg_scratch : bytes; eg_packet : Z; eg_routing : bool; eg_next_id : Z }.

(** [Egress::new] with its random start *)
Definition egress_new (next_id : Z) : Egress :=
  {| eg_scratch := replicate MAX_FRAME_LEN 0; eg_packet := 0; eg_routing := false; eg_next_id := next_id |}.

Definition begin_packet (e : Egress) : Egress :=
  {| eg_scratch := eg_scratch e; eg_packet := (eg_packet e + 1) mod 2 ^ 64; eg_routing := true; eg_next_id := eg_next_id e |}.
Definition end_packet (e : Egress) : Egress :=
  {| eg_scratch := eg_scratch e; eg_packet := eg_packet e; eg_routing := false; eg_next_id := eg_next_id e |}.
Definition with_scratch (e : Egress) (scratch : bytes) : Egress :=
  {| eg_scratch := scratch; eg_packet := eg_packet e; eg_routing := eg_routing e; eg_next_id := eg_next_id e |}.
Definition with_next_id (e : Egress) (id : Z) : Egress :=
  {| eg_scratch := eg_scratch e; eg_packet := eg_packet e; eg_routing := eg_routing e; eg_next_id := id |}.

(** [frame_mtu] *)
Definition frame_mtu (mtu : option Z) : nat :=
  Z.to_nat (Z.min (default FALLBACK_MTU mtu) (Z.of_nat MAX_MTU)).

(** What a send reads and changes: the egress, the interface table and the
    environment. *)
Record Sending (W : Type) : Type := { sd_egress : Egress; sd_table : InterfaceTable; sd_world : W }.
Arguments sd_egress {W} _.
Arguments sd_table {W} _.
Arguments sd_world {W} _.

Section egress.
Context {W : Type} `{Kernel W} `{Host}.

Definition sd_set_egress (s : Sending W) (e : Egress) : Sending W :=
  {| sd_egress := e; sd_table := sd_table s; sd_world := sd_world s |}.
Definition sd_set_table (s : Sending W) (t : InterfaceTable) : Sending W :=
  {| sd_egress := sd_egress s; sd_table := t; sd_world := sd_world s |}.
Definition sd_set_world (s : Sending W) (w : W) : Sending W :=
  {| sd_egress := sd_egress s; sd_table := sd_table s; sd_world := w |}.

Abbreviation sends A := (M (Sending W) IoError A).

(** [oversize_context]: the reworded error keeps no errno. *)
Definition oversize_context (e : IoError) : IoError :=
  if bool_decide (raw_os_error e = Some (EMSGSIZE errnos)) then OtherError else e.

(** [egress::send] *)
Definition send_frame (egress : CaptureKey) (frame : bytes) : sends () := fun s =>
  match capture (sd_table s) egress with
  | None => (Ok (), s)
  | Some c =>
      let '(r, w) := capture_send c frame (sd_world s) in
      (match r with inr () => Ok () | inl e => Err (oversize_context e) end, sd_set_world s w)
  end.

(** [Egress::already_sent] *)
Definition already_sent (egress : CaptureKey) (digest : Z) (s : Sending W) : bool :=
  eg_routing (sd_egress s) && was_sent (sd_table s) egress (eg_packet (sd_egress s)) digest.

(** [Egress::plan] *)
Definition plan (egress : CaptureKey) (dst_mac : MacAddr) (d : Datagram) : sends (option UdpFrames) :=
  t ← gets sd_table;
  match egress_addrs t egress, cap_link <$> capture t egress with
  | Some addrs, Some link =>
      match ifindex_of t egress with
      | None => fail NotConnected
      | Some _ =>
          id ← gets (fun s => eg_next_id (sd_egress s));
          _ ← modify (fun s => sd_set_egress s (with_next_id (sd_egress s) ((id + 1) mod 2 ^ 32)));
          lift (Some <$> map_err (fun _ => OtherError)
            (build_udp addrs link (dg_dst d) dst_mac (dg_source d) (dg_ttl d) id (dg_payload d) (frame_mtu (mtu_of t egress))))
      end
  | _, _ => mret None
  end.

(** One frame of [Egress::transmit]. *)
Definition transmit_frame (egress : CaptureKey) (frames : UdpFrames) (index : nat) : sends () :=
  scratch ← gets (fun s => eg_scratch (sd_egress s));
  '(len, scratch) ← lift (map_err (fun _ => OtherError) (write platform frames index scratch));
  _ ← modify (fun s => sd_set_egress s (with_scratch (sd_egress s) scratch));
  frame ← lift (range scratch 0 len);
  send_frame egress frame.

(** [Egress::transmit] *)
Definition transmit (egress : CaptureKey) (frames : UdpFrames) (digest : Z) : sends () :=
  _ ← for_each (transmit_frame egress frames) (seq 0 (count frames));
  modify (fun s =>
    if eg_routing (sd_egress s)
    then sd_set_table s (record_sent (sd_table s) egress (eg_packet (sd_egress s)) digest) else s).

(** [Egress::send_udp] *)
Definition send_udp (egress : CaptureKey) (dst_mac : MacAddr) (d : Datagram) : sends () :=
  let digest := digest dst_mac d in
  sent ← gets (already_sent egress digest);
  if sent : bool then mret ()
  else
    frames ← plan egress dst_mac d;
    match frames with
    | Some frames => transmit egress frames digest
    | None => mret ()
    end.

(** [Egress::send_udp_group] *)
Definition send_udp_group (egress : CaptureKey) (d : Datagram) : sends () :=
  t ← gets sd_table;
  dst_mac ← lift (map_err (fun _ => OtherError)
    (ethernet_dst (ip (dg_dst d)) (egress_addrs t egress ≫= v4_directed_broadcast)));
  send_udp egress dst_mac d.

(** The loop of [Egress::send_udp_to_peers], over the peers of the destination's
    family: whether a copy was delivered, and the last failure. *)
Fixpoint send_to_each (egress : CaptureKey) (d : Datagram) (peers : list IpAddr) (delivered : bool) (failure : option IoError)
    : sends () :=
  match peers with
  | [] =>
      match failure with
      | Some e => if delivered then mret () else fail e
      | None => mret ()
      end
  | peer :: peers =>
      let copy := {| dg_dst := {| ip := peer; port := port (dg_dst d) |}; dg_source := dg_source d;
                     dg_ttl := dg_ttl d; dg_payload := dg_payload d |} in
      let digest := digest mac_broadcast copy in
      sent ← gets (already_sent egress digest);
      if sent : bool then send_to_each egress d peers true failure
      else
        frames ← plan egress mac_broadcast copy;
        match frames with
        | None => mret ()
        | Some frames =>
            r ← attempt (transmit egress frames digest);
            match r with
            | inr () => send_to_each egress d peers true failure
            | inl e => send_to_each egress d peers delivered (Some e)
            end
        end
  end.
(** [Egress::send_udp_to_peers] *)
Definition send_udp_to_peers (egress : CaptureKey) (peers : list IpAddr) (d : Datagram) : sends () :=
  send_to_each egress d (List.filter (fun peer => bool_decide (is_v4 peer = is_v4 (ip (dg_dst d)))) peers) false None.
End egress.
