(* ===== verification/Filter.v ===== *)
(** The classic-BPF programs the captures install ([src/capture/filter.rs]), run
    on any machine that follows the documented instruction set, and the exact
    set of frames each lets through, against the parser of Packet. *)

From S2P Require Import Prelude Text Addr Checksum Packet.

Local Open Scope Z_scope.

(** libc's [sock_filter], [bpf_insn] *)
Record BpfInsn : Type := { code : Z; jt : Z; jf : Z; k : Z }.
Definition insn (code jt jf k : Z) : BpfInsn := {| code := code; jt := jt; jf := jf; k := k |}.

(** libc's constants, and the host's byte order *)
Class LibcConsts : Type := {
  SKF_AD_OFF : Z;
  SKF_AD_PKTTYPE : Z;
  SKF_AD_VLAN_TAG : Z;
  SKF_AD_VLAN_TAG_PRESENT : Z;
  PACKET_OUTGOING : Z;
  AF_INET : Z;
  AF_INET6 : Z;
  little_endian : bool;
}.

Definition ETHERNET_UDP_FILTER : list BpfInsn := [
  insn 0x0001 0 0 0x00000000;
  insn 0x0028 0 0 0x0000000c;
  insn 0x0015 0 3 0x00008100;
  insn 0x0028 0 0 0x0000000e;
  insn 0x0045 12 0 0x00000fff;
  insn 0x0001 0 0 0x00000004;
  insn 0x0048 0 0 0x0000000c;
  insn 0x0015 6 0 0x00000800;
  insn 0x0015 0 8 0x000086dd;
  insn 0x0050 0 0 0x00000014;
  insn 0x0015 5 0 0x00000011;
  insn 0x0015 0 5 0x0000002c;
  insn 0x0050 0 0 0x00000036;
  insn 0x0015 2 3 0x00000011;
  insn 0x0050 0 0 0x00000017;
  insn 0x0015 0 1 0x00000011;
  insn 0x0006 0 0 0xffffffff;
  insn 0x0006 0 0 0x00000000].

Definition RAW_IP_UDP_FILTER : list BpfInsn := [
  insn 0x0030 0 0 0x00000000;
  insn 0x0054 0 0 0x000000f0;
  insn 0x0015 6 0 0x00000040;
  insn 0x0015 0 8 0x00000060;
  insn 0x0030 0 0 0x00000006;
  insn 0x0015 5 0 0x00000011;
  insn 0x0015 0 5 0x0000002c;
  insn 0x0030 0 0 0x00000028;
  insn 0x0015 2 3 0x00000011;
  insn 0x0030 0 0 0x00000009;
  insn 0x0015 0 1 0x00000011;
  insn 0x0006 0 0 0xffffffff;
  insn 0x0006 0 0 0x00000000].

Section programs.
Context `{LibcConsts}.

(** [i32::cast_unsigned] *)
Definition cast_unsigned (z : Z) : Z := z mod 2 ^ 32.

Definition DROP_OUTGOING_PROLOGUE : list BpfInsn := [
  insn 0x0030 0 0 (cast_unsigned (SKF_AD_OFF + SKF_AD_PKTTYPE));
  insn 0x0015 0 1 (cast_unsigned PACKET_OUTGOING);
  insn 0x0006 0 0 0x00000000].

Definition DROP_VLAN_TAGGED_PROLOGUE : list BpfInsn := [
  insn 0x0020 0 0 (cast_unsigned (SKF_AD_OFF + SKF_AD_VLAN_TAG_PRESENT));
  insn 0x0015 4 0 0x00000000;
  insn 0x0020 0 0 (cast_unsigned (SKF_AD_OFF + SKF_AD_VLAN_TAG));
  insn 0x0054 0 0 0x00000fff;
  insn 0x0015 1 0 0x00000000;
  insn 0x0006 0 0 0x00000000].

(** [u32::to_ne_bytes] and [u32::to_be] *)
Definition to_ne_bytes (z : Z) : bytes := if little_endian then reverse (be 4 z) else be 4 z.
Definition to_be (z : Z) : Z := of_be (to_ne_bytes z).
Definition host_af_to_bpf_be (af : Z) : Z := to_be (cast_unsigned af).

Definition DLT_NULL_UDP_FILTER : list BpfInsn := [
  insn 0x0020 0 0 0x00000000;
  insn 0x0015 6 0 (host_af_to_bpf_be AF_INET);
  insn 0x0015 0 8 (host_af_to_bpf_be AF_INET6);
  insn 0x0030 0 0 0x0000000a;
  insn 0x0015 5 0 0x00000011;
  insn 0x0015 0 5 0x0000002c;
  insn 0x0030 0 0 0x0000002c;
  insn 0x0015 2 3 0x00000011;
  insn 0x0030 0 0 0x0000000d;
  insn 0x0015 0 1 0x00000011;
  insn 0x0006 0 0 0xffffffff;
  insn 0x0006 0 0 0x00000000].

(** The classifier of a link. *)
Definition udp_filter (lt : LinkType) : list BpfInsn :=
  match lt with
  | Ethernet => ETHERNET_UDP_FILTER
  | DltNull => DLT_NULL_UDP_FILTER
  | RawIp => RAW_IP_UDP_FILTER
  end.
End programs.

(** ** The machine

    The kernel's interpreter on a received packet: its verdict on the rest of a
    program, with the accumulator and the index register. *)
Class BpfMachine (K : Type) : Type := {
  packet_bytes : K -> bytes;
  ancillary : K -> Z -> Z;
  bpf_exec : list BpfInsn -> Z -> Z -> K -> Z;
}.

(** A big-endian load inside the packet. *)
Definition load (n o : nat) (l : bytes) : option Z := of_be <$> get_range o (o + n) l.

(** The instructions used, as bpf(4) and the kernel's networking/filter document
    them: a load past the end returns 0 at once; a Linux load at [SKF_AD_OFF] reads
    the packet's metadata; a jump skips instructions; a return is the verdict. *)
Record classic_bpf (K : Type) `{LibcConsts, BpfMachine K} : Prop := {
  bpf_ld_abs : forall op n p a x s i j o, (op, n) ∈ [(0x20, 4%nat); (0x28, 2%nat); (0x30, 1%nat)] -> 0 <= o < 2 ^ 31 ->
    bpf_exec (insn op i j o :: p) a x s =
      match load n (Z.to_nat o) (packet_bytes s) with Some v => bpf_exec p v x s | None => 0 end;
  bpf_ld_ind : forall op n p a x s i j o, (op, n) ∈ [(0x48, 2%nat); (0x50, 1%nat)] -> 0 <= x + o < 2 ^ 31 ->
    bpf_exec (insn op i j o :: p) a x s =
      match load n (Z.to_nat (x + o)) (packet_bytes s) with Some v => bpf_exec p v x s | None => 0 end;
  bpf_ld_ancillary : forall op p a x s i j off, op ∈ [0x20; 0x30] ->
    off ∈ [SKF_AD_PKTTYPE; SKF_AD_VLAN_TAG; SKF_AD_VLAN_TAG_PRESENT] ->
    bpf_exec (insn op i j (cast_unsigned (SKF_AD_OFF + off)) :: p) a x s = bpf_exec p (ancillary s off) x s;
  bpf_ldx_imm : forall p a x s i j v, bpf_exec (insn 0x01 i j v :: p) a x s = bpf_exec p a v s;
  bpf_and_k : forall p a x s i j v, bpf_exec (insn 0x54 i j v :: p) a x s = bpf_exec p (Z.land a v) x s;
  bpf_jeq : forall p a x s t f v,
    bpf_exec (insn 0x15 t f v :: p) a x s = bpf_exec (drop (Z.to_nat (if a =? v then t else f)) p) a x s;
  bpf_jset : forall p a x s t f v,
    bpf_exec (insn 0x45 t f v :: p) a x s = bpf_exec (drop (Z.to_nat (if Z.land a v =? 0 then f else t)) p) a x s;
  bpf_ret : forall p a x s i j v, bpf_exec (insn 0x06 i j v :: p) a x s = v;
}.

(** ** What a filter lets through *)

Section spec.
Context `{LibcConsts}.

(** The verdict that keeps a whole frame. *)
Definition ACCEPT : Z := 0xffffffff.

(** The IP version a frame's link header announces. *)
Definition of_ethertype (ty : bytes) : option Z :=
  if bool_decide (ty = be 2 0x0800) then Some 4 else if bool_decide (ty = be 2 0x86dd) then Some 6 else None.
Definition announced (lt : LinkType) (frame : bytes) : option Z :=
  match lt with
  | Ethernet =>
      ty ← get_range 12 14 frame;
      if bool_decide (ty = be 2 ETHERTYPE_VLAN) then get_range 16 18 frame ≫= of_ethertype else of_ethertype ty
  | DltNull =>
      family ← get_range 0 4 frame;
      if bool_decide (family = to_ne_bytes (cast_unsigned AF_INET)) then Some 4
      else if bool_decide (family = to_ne_bytes (cast_unsigned AF_INET6)) then Some 6 else None
  | RawIp => first ← head frame; Some (Z.shiftr first 4)
  end.

(** Whether an IP packet of that version says it carries UDP: in its protocol
    field, its next header, or a Fragment header right after the base header. *)
Definition carries_udp (version : Z) (l3 : bytes) : bool :=
  if version =? 4 then bool_decide (l3 !! 9%nat = Some IP_PROTO_UDP)
  else if version =? 6
  then bool_decide (l3 !! 6%nat = Some IP_PROTO_UDP) ||
       bool_decide (l3 !! 6%nat = Some IPV6_NEXT_FRAGMENT) && bool_decide (l3 !! 40%nat = Some IP_PROTO_UDP)
  else false.

Definition lets_through (lt : LinkType) (frame : bytes) : bool :=
  match announced lt frame, parse_link_header lt frame with
  | Some version, Ok link => carries_udp version (l3 link)
  | _, _ => false
  end.
End spec.

(** Each capture filter lets through exactly the frames whose link header and IP
    header announce UDP, which is what the parser reads of them. *)

Lemma load_Some n o l v : load n o l = Some v <-> exists b, get_range o (o + n) l = Some b /\ v = of_be b.
Proof. unfold load. rewrite fmap_Some. done. Qed.

Lemma load_1 o l : load 1 o l = l !! o.
Proof.
  unfold load, get_range. destruct (l !! o) as [b|] eqn:E.
  - pose proof (lookup_lt_Some _ _ _ E). rewrite decide_True by lia. rewrite (drop_S _ _ _ E).
    replace (o + 1 - o)%nat with 1%nat by lia. unfold of_be. cbn [take fmap option_fmap option_map foldl]. done.
  - apply lookup_ge_None in E. by rewrite decide_False by lia.
Qed.

(** A load compares equal to a constant exactly when the bytes are its encoding. *)
Lemma of_be_eqb n b z : bytes_ok b -> length b = n -> 0 <= z < 256 ^ Z.of_nat n ->
  (of_be b =? z) = bool_decide (b = be n z).
Proof.
  intros Hb <- Hz. case_bool_decide as E; [rewrite E, of_be_be by done; apply Z.eqb_refl|].
  apply Z.eqb_neq. intros <-. apply E. by rewrite be_of_be.
Qed.
Lemma get_range_bytes a b l s : bytes_ok l -> get_range a b l = Some s -> bytes_ok s.
Proof. intros Hl (_&_&->)%get_range_Some. by apply Forall_take, Forall_drop. Qed.

Lemma high_nibble b : byte_ok b -> Z.land b 0xf0 = Z.shiftr b 4 * 16.
Proof.
  intros Hb. change 16 with (2 ^ 4). rewrite <- Z.shiftl_mul_pow2 by lia. rewrite <- Z.ldiff_ones_r by lia.
  apply Z.bits_inj'. intros n Hn. rewrite Z.land_spec, Z.ldiff_spec. change 240 with (Z.shiftl (Z.ones 4) 4).
  rewrite Z.shiftl_spec, !Z.testbit_ones by lia. destruct (Z.ltb_spec n 8); [f_equal; lia|].
  assert (Z.testbit b n = false) as ->; [|done].
  rewrite <- (Z.mod_small b (2 ^ 8)) by exact Hb. by apply Z.mod_pow2_bits_high.
Qed.

(** The bytes of an Ethernet frame past its header and a tag of VLAN 0. *)
Lemma ethernet_l3_at frame ty : get_range 12 14 frame = Some ty ->
  ethernet_l3 frame =
    if bool_decide (ty = be 2 ETHERTYPE_VLAN)
    then match load 2 14 frame, get_from 18 frame with
         | Some tci, Some l3 => if Z.land tci VLAN_ID_MASK =? 0 then Ok l3 else Err (VlanTagged (Z.land tci VLAN_ID_MASK))
         | _, _ => Err Truncated
         end
    else Ok (drop 14 frame).
Proof.
  intros (_&Hn&->)%get_range_Some. unfold ethernet_l3, split_at_checked, ETHERNET_HEADER_SIZE. rewrite decide_True by done.
  cbn [ok_or mbind res_bind]. unfold range_from, get_from at 1.
  rewrite (decide_True (P := (12 <= length (take 14 frame))%nat)) by (rewrite length_take; lia).
  cbn [expect mbind res_bind]. rewrite skipn_firstn_comm. change (14 - 12)%nat with 2%nat.
  case_bool_decide; cbn [negb]; [|done]. unfold load, get_range, get_from. rewrite length_drop.
  destruct (decide (18 <= length frame)%nat) as [Hl|Hl].
  - rewrite !decide_True by lia. cbn [ok_or mbind res_bind fmap option_fmap option_map]. rewrite drop_drop.
    change (14 + 2 - 14)%nat with 2%nat. change (14 + 4)%nat with 18%nat.
    destruct (drop 14 frame) as [|a [|b l]] eqn:El; [apply (f_equal length) in El; rewrite length_drop in El; cbn in El; lia..|done].
  - rewrite (decide_False (P := (4 <= _)%nat)) by lia. cbn [ok_or mbind res_bind]. by destruct (_ <$> _).
Qed.

Lemma link_ethernet frame : (14 <= length frame)%nat -> exists dst src,
  parse_link_header Ethernet frame = (fun l => {| lv_dst_mac := dst; lv_src_mac := src; l3 := l |}) <$> ethernet_l3 frame.
Proof.
  intros Hn. exists (Some (take 6 frame)), (Some (take (12 - 6) (drop 6 frame))). cbn [parse_link_header].
  destruct (ethernet_l3 frame) as [l| |]; cbn [mbind res_bind fmap res_fmap]; [|done..].
  rewrite !range_ok by lia. cbn [mbind res_bind]. unfold read_mac. rewrite drop_0, !length_take, length_drop.
  rewrite !decide_True by lia. done.
Qed.

(** The family of a looped frame, as the machine compares it. *)
Lemma family_eqb `{LibcConsts} family af : bytes_ok family -> length family = 4%nat ->
  (of_be family =? host_af_to_bpf_be af) = bool_decide (family = to_ne_bytes (cast_unsigned af)).
Proof.
  intros Hb Hlen. assert (Hn : bytes_ok (to_ne_bytes (cast_unsigned af)) /\ length (to_ne_bytes (cast_unsigned af)) = 4%nat).
  { unfold to_ne_bytes. destruct little_endian; [|by split; [apply bytes_ok_be|apply length_be]].
    split; [apply Forall_reverse, bytes_ok_be|by rewrite length_reverse, length_be]. }
  destruct Hn as [Hn1 Hn2]. pose proof (of_be_bound _ Hn1) as Hz. rewrite Hn2 in Hz.
  unfold host_af_to_bpf_be, to_be. rewrite (of_be_eqb 4) by done. pose proof (be_of_be _ Hn1) as E. rewrite Hn2 in E. by rewrite E.
Qed.

(** The link header announces the IP version of the packet behind it. *)
Definition truthful `{LibcConsts} (lt : LinkType) (frame : bytes) : Prop := exists version link first,
  announced lt frame = Some version /\ parse_link_header lt frame = Ok link /\ head (l3 link) = Some first /\ Z.shiftr first 4 = version.

(** What the parser takes says it is UDP. *)
Lemma parsed_ipv4_udp link p : parse_ipv4 link = Ok p -> carries_udp 4 (l3 link) = true.
Proof.
  unfold parse_ipv4, carries_udp. intros Hp. case_decide; [done|]. inv_res. case_decide; [done|]. inv_res.
  destruct (Z.eqb_spec x0 IP_PROTO_UDP) as [->|]; [|done]. by apply bool_decide_eq_true, (expect_Ok (E:=ParseError)).
Qed.

Lemma fragment_proto (l3 fragment data : bytes) n : split_at_checked IPV6_FRAGMENT_HEADER_SIZE (take n (drop 40 l3)) = Some (fragment, data) ->
  fragment !! 0%nat = l3 !! 40%nat.
Proof.
  unfold IPV6_FRAGMENT_HEADER_SIZE. intros (Hn&->&_)%split_at_checked_Some. rewrite length_take in Hn.
  rewrite !lookup_take_lt, lookup_drop by lia. done.
Qed.

Lemma parsed_ipv6_udp link p : parse_ipv6 link = Ok p -> carries_udp 6 (l3 link) = true.
Proof.
  unfold parse_ipv6, carries_udp. intros Hp. case_decide; [done|]. inv_res. case_decide; [done|]. inv_res.
  cbn [Z.eqb Pos.eqb]. rewrite orb_true_iff, andb_true_iff, !bool_decide_eq_true. rename x6 into next.
  destruct (Z.eqb_spec next IP_PROTO_UDP) as [->|]; [left; by apply (expect_Ok (E:=ParseError))|right].
  destruct (Z.eqb_spec next IPV6_NEXT_FRAGMENT) as [->|]; [|done]. split; [by apply (expect_Ok (E:=ParseError))|].
  apply expect_Ok, get_range_Some in H7 as (_&_&->).
  destruct (split_at_checked _ _) as [[fragment data]|] eqn:Ef; [|done]. rewrite <- (fragment_proto _ _ _ _ Ef).
  unfold idx in H9. cbn [ok_or mbind res_bind] in H9. destruct (fragment !! 0%nat) as [proto|]; [|done]. cbn [expect mbind res_bind] in H9.
  destruct (Z.eqb_spec proto IP_PROTO_UDP) as [E|]; [by rewrite E|discriminate H9].
Qed.

(** And the other way round. *)
Definition no_other {A} (r : parse_result A) : Prop :=
  match r with Err (NotUdp _) | Err (VlanTagged _) | Err (BadIpVersion _) => False | _ => True end.
Lemma no_other_bind {A B} (f : A -> parse_result B) m : no_other m -> (forall a, m = Ok a -> no_other (f a)) -> no_other (m ≫= f).
Proof. destruct m as [a|[]|]; cbn; auto. Qed.
Lemma no_other_expect {A} (o : option A) : no_other (expect o).
Proof. by destruct o. Qed.
Lemma no_other_ok_or {A} (o : option A) : no_other (ok_or o Truncated).
Proof. by destruct o. Qed.
Lemma no_other_be16 l i : no_other (be16_at l i).
Proof. unfold be16_at. repeat (apply no_other_bind; [apply no_other_expect|intros ? _]). done. Qed.
Lemma addr4_no_other b : no_other (ipv4_addr b).
Proof. unfold ipv4_addr. by case_decide. Qed.
Lemma addr6_no_other b : no_other (ipv6_addr b).
Proof. unfold ipv6_addr. by case_decide. Qed.
Ltac no_other_step :=
  first [done | apply no_other_bind;
                [first [apply no_other_expect | apply no_other_ok_or | apply no_other_be16 | apply addr4_no_other | apply addr6_no_other]|intros ? ?]
        | case_decide | case_match].
Lemma datagram_no_other link src dst ttl l4 : no_other (datagram link src dst ttl l4).
Proof.
  unfold datagram, parse_udp. apply no_other_bind; [|by intros [[? ?] ?] _]. repeat no_other_step.
Qed.

Lemma idx_some {E} (l : bytes) i v : l !! i = Some v -> idx (E:=E) l i = Ok v.
Proof. unfold idx. by intros ->. Qed.

Lemma ipv4_udp_parses link : carries_udp 4 (l3 link) = true -> no_other (parse_ipv4 link).
Proof.
  unfold carries_udp, parse_ipv4. cbn [Z.eqb Pos.eqb]. intros Hc%bool_decide_eq_true. case_decide; [done|].
  no_other_step. case_decide; [done|]. rewrite (idx_some _ _ _ Hc). cbn [mbind res_bind].
  rewrite Z.eqb_refl. cbn [negb]. repeat first [apply datagram_no_other | no_other_step].
Qed.

Lemma ipv6_udp_parses link : carries_udp 6 (l3 link) = true -> no_other (parse_ipv6 link).
Proof.
  unfold carries_udp, parse_ipv6. cbn [Z.eqb Pos.eqb]. rewrite orb_true_iff, andb_true_iff, !bool_decide_eq_true. intros Hc.
  case_decide; [done|]. no_other_step. case_decide; [done|]. do 5 no_other_step.
  apply no_other_bind; [apply no_other_expect|]. intros body (_&_&->)%expect_Ok%get_range_Some.
  destruct Hc as [Hc|[Hc Hp]]; rewrite (idx_some _ _ _ Hc); cbn [mbind res_bind]; [apply datagram_no_other|]. cbn [Z.eqb Pos.eqb].
  destruct (split_at_checked _ _) as [[fragment data]|] eqn:Ef; [|done]. cbn [ok_or mbind res_bind].
  rewrite <- (fragment_proto _ _ _ _ Ef) in Hp. rewrite (idx_some _ _ _ Hp). cbn [mbind res_bind]. rewrite Z.eqb_refl. cbn [negb].
  repeat first [apply datagram_no_other | no_other_step].
Qed.

Definition verdict (b : bool) : Z := if b then ACCEPT else 0.

Section machine.
Context {K : Type} `{LibcConsts, BpfMachine K} (Hbpf : classic_bpf K).
Implicit Types (s : K) (a x : Z) (p : list BpfInsn).

(** One instruction, then the next with the jump's two ways apart. *)
Ltac exec_load law := erewrite law; [|solve [set_solver]|lia]; try rewrite load_1.
Ltac exec_insn :=
  lazymatch goal with
  | |- context [bpf_exec (insn 0x06 _ _ _ :: _) _ _ _] => rewrite (bpf_ret _ Hbpf)
  | |- context [bpf_exec (insn 0x01 _ _ _ :: _) _ _ _] => rewrite (bpf_ldx_imm _ Hbpf)
  | |- context [bpf_exec (insn 0x54 _ _ _ :: _) _ _ _] => rewrite (bpf_and_k _ Hbpf)
  | |- context [bpf_exec (insn 0x15 _ _ _ :: _) _ _ _] => rewrite (bpf_jeq _ Hbpf)
  | |- context [bpf_exec (insn 0x45 _ _ _ :: _) _ _ _] => rewrite (bpf_jset _ Hbpf)
  | |- context [bpf_exec (insn 0x48 _ _ _ :: _) _ _ _] => exec_load (bpf_ld_ind _ Hbpf 0x48 2)
  | |- context [bpf_exec (insn 0x50 _ _ _ :: _) _ _ _] => exec_load (bpf_ld_ind _ Hbpf 0x50 1)
  | |- context [bpf_exec (insn 0x20 _ _ _ :: _) _ _ _] => exec_load (bpf_ld_abs _ Hbpf 0x20 4)
  | |- context [bpf_exec (insn 0x28 _ _ _ :: _) _ _ _] => exec_load (bpf_ld_abs _ Hbpf 0x28 2)
  | |- context [bpf_exec (insn 0x30 _ _ _ :: _) _ _ _] => exec_load (bpf_ld_abs _ Hbpf 0x30 1)
  end.

Ltac jumped :=
  repeat match goal with
  | |- context [Z.to_nat ?n] => lazymatch n with Zpos _ => idtac | Z0 => idtac end; let m := eval vm_compute in (Z.to_nat n) in change (Z.to_nat n) with m
  end; cbn [drop Nat.sub].
Ltac exec_test :=
  exec_insn; match goal with
  | |- context [if ?z =? ?c then _ else _] => destruct (Z.eqb_spec z c); subst; jumped
  end.

(** The classifiers end alike: the IPv6 test, the IPv4 test and the verdicts,
    with the loads of the IP header at [base]. *)
Definition ip_tail (op base : Z) : list BpfInsn := [
  insn op 0 0 (base + 6); insn 0x15 5 0 17; insn 0x15 0 5 44;
  insn op 0 0 (base + 40); insn 0x15 2 3 17;
  insn op 0 0 (base + 9); insn 0x15 0 1 17;
  insn 0x06 0 0 0xffffffff; insn 0x06 0 0 0].
Definition loads_l3 (op base x : Z) (l3 : bytes) s : Prop :=
  forall p a o, 0 <= o <= 40 ->
    bpf_exec (insn op 0 0 (base + o) :: p) a x s = match l3 !! Z.to_nat o with Some v => bpf_exec p v x s | None => 0 end.

Lemma exec_ip4 op base a x l3 s : loads_l3 op base x l3 s ->
  bpf_exec (drop 5 (ip_tail op base)) a x s = verdict (carries_udp 4 l3).
Proof.
  intros Hl. unfold ip_tail, carries_udp, IP_PROTO_UDP. cbn [drop Z.eqb Pos.eqb]. rewrite Hl by lia. jumped.
  destruct (l3 !! 9%nat) as [proto|]; [|done]. exec_test; exec_insn; [done|]. rewrite bool_decide_eq_false_2 by congruence. done.
Qed.

Lemma exec_ip6 op base a x l3 s : loads_l3 op base x l3 s ->
  bpf_exec (ip_tail op base) a x s = verdict (carries_udp 6 l3).
Proof.
  intros Hl. unfold ip_tail, carries_udp, IP_PROTO_UDP, IPV6_NEXT_FRAGMENT. cbn [Z.eqb Pos.eqb]. rewrite Hl by lia. jumped.
  destruct (l3 !! 6%nat) as [next|]; [|done]. exec_test; [by exec_insn|]. rewrite (bool_decide_eq_false_2 (Some next = Some 17)) by congruence.
  exec_test; [|exec_insn; rewrite bool_decide_eq_false_2 by congruence; done]. rewrite Hl by lia. jumped.
  destruct (l3 !! 40%nat) as [proto|]; [|done]. exec_test; exec_insn; [done|].
  rewrite (bool_decide_eq_false_2 (Some proto = _)) by congruence. done.
Qed.

Lemma exec_refuse op base a x s : bpf_exec (drop 8 (ip_tail op base)) a x s = 0.
Proof. apply (bpf_ret _ Hbpf). Qed.

Lemma loads_abs base s : 0 <= base <= 100 -> loads_l3 0x30 base 0 (drop (Z.to_nat base) (packet_bytes s)) s.
Proof.
  intros Hb p a o Ho. exec_insn. rewrite lookup_drop. by replace (Z.to_nat base + Z.to_nat o)%nat with (Z.to_nat (base + o)) by lia.
Qed.
Lemma loads_ind base x s : 0 <= base <= 100 -> 0 <= x <= 100 ->
  loads_l3 0x50 base x (drop (Z.to_nat (x + base)) (packet_bytes s)) s.
Proof.
  intros Hb Hx p a o Ho. exec_insn. rewrite lookup_drop.
  by replace (Z.to_nat (x + base) + Z.to_nat o)%nat with (Z.to_nat (x + (base + o))) by lia.
Qed.

(** The Ethernet classifier from the ethertype on, behind a tag of [x] octets. *)
Lemma exec_ethernet_tail a x s :
  bytes_ok (packet_bytes s) -> x = 0 \/ x = 4 ->
  bpf_exec (drop 6 ETHERNET_UDP_FILTER) a x s =
    verdict (match get_range (Z.to_nat (x + 12)) (Z.to_nat (x + 12) + 2) (packet_bytes s) ≫= of_ethertype with
             | Some version => carries_udp version (drop (Z.to_nat (x + 14)) (packet_bytes s))
             | None => false
             end).
Proof.
  intros Hb Hx. assert (Hl : loads_l3 0x50 14 x (drop (Z.to_nat (x + 14)) (packet_bytes s)) s) by (apply loads_ind; lia).
  change (drop 6 ETHERNET_UDP_FILTER) with (insn 0x48 0 0 12 :: insn 0x15 6 0 0x0800 :: insn 0x15 0 8 0x86dd :: ip_tail 0x50 14).
  exec_insn. unfold load. destruct (get_range _ _ _) as [ty|] eqn:Ety; [|done]. cbn [fmap option_fmap option_map mbind option_bind].
  pose proof (get_range_bytes _ _ _ _ Hb Ety) as Hty. apply get_range_length in Ety. unfold of_ethertype.
  exec_insn. rewrite (of_be_eqb 2 ty 2048) by (done || lia). case_bool_decide; jumped; [by apply exec_ip4|].
  exec_insn. rewrite (of_be_eqb 2 ty 34525) by (done || lia). case_bool_decide; jumped; [by apply exec_ip6|apply exec_refuse].
Qed.

Lemma exec_raw_ip a s :
  bytes_ok (packet_bytes s) -> bpf_exec RAW_IP_UDP_FILTER a 0 s = verdict (lets_through RawIp (packet_bytes s)).
Proof.
  intros Hb. assert (Hl : loads_l3 0x30 0 0 (packet_bytes s) s) by (by apply (loads_abs 0)).
  change RAW_IP_UDP_FILTER with (insn 0x30 0 0 0 :: insn 0x54 0 0 0xf0 :: insn 0x15 6 0 0x40 :: insn 0x15 0 8 0x60 :: ip_tail 0x30 0).
  unfold lets_through. cbn [announced parse_link_header l3]. exec_insn. jumped.
  destruct (packet_bytes s) as [|first l]; [done|]. cbn [lookup list_lookup head mbind option_bind]. exec_insn.
  apply Forall_cons in Hb as [Hb _]. rewrite (high_nibble first Hb).
  exec_insn. destruct (Z.eqb_spec (Z.shiftr first 4 * 16) 64) as [E|]; jumped.
  { replace (Z.shiftr first 4) with 4 by lia. by apply exec_ip4. }
  exec_insn. destruct (Z.eqb_spec (Z.shiftr first 4 * 16) 96) as [E|]; jumped.
  { replace (Z.shiftr first 4) with 6 by lia. by apply exec_ip6. }
  rewrite exec_refuse. unfold carries_udp. rewrite !(proj2 (Z.eqb_neq _ _)) by lia. done.
Qed.

Lemma exec_dlt_null a s :
  bytes_ok (packet_bytes s) -> bpf_exec DLT_NULL_UDP_FILTER a 0 s = verdict (lets_through DltNull (packet_bytes s)).
Proof.
  intros Hb. assert (Hl : loads_l3 0x30 4 0 (drop 4 (packet_bytes s)) s) by (by apply (loads_abs 4)).
  change DLT_NULL_UDP_FILTER with (insn 0x20 0 0 0 :: insn 0x15 6 0 (host_af_to_bpf_be AF_INET) ::
    insn 0x15 0 8 (host_af_to_bpf_be AF_INET6) :: ip_tail 0x30 4).
  unfold lets_through. cbn [announced parse_link_header l3]. unfold get_from, DLT_NULL_HEADER_SIZE. exec_insn. unfold load. jumped.
  change (0 + 4)%nat with 4%nat. destruct (get_range 0 4 _) as [family|] eqn:Ef; [|done].
  pose proof (get_range_bytes _ _ _ _ Hb Ef) as Hf. pose proof (get_range_length _ _ _ _ Ef) as Hlen.
  apply get_range_Some in Ef as (_&Hn&_). rewrite decide_True by done.
  cbn [fmap option_fmap option_map mbind option_bind ok_or res_bind]. 
  exec_insn. rewrite (family_eqb family) by done. case_bool_decide; jumped; [by apply exec_ip4|].
  exec_insn. rewrite (family_eqb family) by done. case_bool_decide; jumped; [by apply exec_ip6|apply exec_refuse].
Qed.

Lemma exec_ethernet a x s :
  bytes_ok (packet_bytes s) -> bpf_exec ETHERNET_UDP_FILTER a x s = verdict (lets_through Ethernet (packet_bytes s)).
Proof.
  intros Hb. pose proof (fun a x => exec_ethernet_tail a x s Hb) as Htail. unfold ETHERNET_UDP_FILTER in *. cbn [drop] in Htail.
  exec_insn. exec_insn. unfold load, lets_through. cbn [announced]. jumped.
  change (12 + 2)%nat with 14%nat. destruct (get_range 12 14 _) as [ty|] eqn:Ety; [|done].
  pose proof (get_range_bytes _ _ _ _ Hb Ety) as Hty. pose proof (get_range_length _ _ _ _ Ety) as Hlen.
  destruct (link_ethernet (packet_bytes s)) as (dst&src&->); [by apply get_range_Some in Ety as (_&?&_)|].
  rewrite (ethernet_l3_at _ _ Ety). cbn [fmap option_fmap option_map mbind option_bind].
  exec_insn. rewrite (of_be_eqb 2 ty 33024) by (done || lia). change ETHERTYPE_VLAN with 33024. case_bool_decide; jumped.
  - exec_insn. jumped. destruct (load 2 14 _) as [tci|]; cbn [fmap res_fmap]; [|by destruct (_ ≫= _)].
    exec_insn. change 4095 with VLAN_ID_MASK. destruct (Z.land tci VLAN_ID_MASK =? 0); jumped.
    + exec_insn. rewrite Htail by lia. change (Z.to_nat (4 + 12)) with 16%nat. change (16 + 2)%nat with 18%nat.
      destruct (get_range 16 18 _) as [ty'|] eqn:E'; [|done]. apply get_range_Some in E' as (_&Hn&_).
      unfold get_from. by rewrite decide_True by done.
    + rewrite (bpf_ret _ Hbpf). by destruct (_ ≫= _), (get_from 18 (packet_bytes s)).
  - rewrite Htail by lia. change (Z.to_nat (0 + 12)) with 12%nat. change (12 + 2)%nat with 14%nat. by rewrite Ety.
Qed.

Lemma exec_udp_filter lt a s :
  bytes_ok (packet_bytes s) -> bpf_exec (udp_filter lt) a 0 s = verdict (lets_through lt (packet_bytes s)).
Proof. destruct lt; [apply exec_ethernet|apply exec_dlt_null|apply exec_raw_ip]. Qed.

(** C30. The kernel's classifier lets through exactly the frames whose link header
    announces an IP version whose packet says it carries UDP, untagged or in VLAN
    0: on any machine that runs the documented instruction set, on every link and
    any bytes.  Where the announced version is the packet's own, every frame the
    parser takes is let through, and the parser never finds one that was let
    through to be another protocol's, another VLAN's or no IP packet at all. *)
Theorem kernel_filter_exact lt s :
  bytes_ok (packet_bytes s) ->
  let frame := packet_bytes s in
  let outcome := bpf_exec (udp_filter lt) 0 0 s in
  outcome = (if lets_through lt frame then ACCEPT else 0) /\
  (truthful lt frame ->
     (forall q, parse lt frame = Ok q -> outcome = ACCEPT) /\
     (outcome = ACCEPT -> match parse lt frame with
                          | Err (NotUdp _) | Err (VlanTagged _) | Err (BadIpVersion _) => False
                          | _ => True
                          end)).
Proof.
  intros Hb frame outcome. assert (Ho : outcome = verdict (lets_through lt frame)) by (by apply exec_udp_filter).
  split; [exact Ho|]. intros (version&link&first&Ha&Hlink&Hfirst&Hv). rewrite Ho. unfold lets_through, parse. rewrite Ha, Hlink.
  cbn [mbind res_bind]. rewrite Hfirst. cbn [ok_or mbind res_bind]. rewrite Hv. split.
  - intros q Hq. destruct (Z.eqb_spec version 4) as [->|]; [by rewrite (parsed_ipv4_udp _ _ Hq)|].
    destruct (Z.eqb_spec version 6) as [->|]; [by rewrite (parsed_ipv6_udp _ _ Hq)|done].
  - destruct (carries_udp version (l3 link)) eqn:Hc; [intros _|done]. unfold carries_udp in Hc.
    destruct (Z.eqb_spec version 4) as [->|]; [by apply ipv4_udp_parses|].
    destruct (Z.eqb_spec version 6) as [->|]; [by apply ipv6_udp_parses|done].
Qed.
End machine.

(** ** A reference machine, and a frame it lets through *)

(** Enough fuel is the length of the program: every jump is forward. *)
Fixpoint run_fuel (fuel : nat) (p : list BpfInsn) (a x : Z) (s : bytes * (Z -> Z)) : Z :=
  match fuel, p with
  | S fuel, i :: p =>
      let next n o := match load n (Z.to_nat o) s.1 with Some v => run_fuel fuel p v x s | None => 0 end in
      let at_ n := if 0xfffff000 <=? k i then run_fuel fuel p (s.2 (k i - 0xfffff000)) x s else next n (k i) in
      let jump (b : bool) := run_fuel fuel (drop (Z.to_nat (if b then jt i else jf i)) p) a x s in
      match code i with
      | 0x20 => at_ 4%nat
      | 0x28 => next 2%nat (k i)
      | 0x30 => at_ 1%nat
      | 0x48 => next 2%nat (x + k i)
      | 0x50 => next 1%nat (x + k i)
      | 0x01 => run_fuel fuel p a (k i) s
      | 0x54 => run_fuel fuel p (Z.land a (k i)) x s
      | 0x15 => jump (a =? k i)
      | 0x45 => jump (negb (Z.land a (k i) =? 0))
      | 0x06 => k i
      | _ => 0
      end
  | _, _ => 0
  end.
Definition linux_consts : LibcConsts :=
  {| SKF_AD_OFF := -0x1000; SKF_AD_PKTTYPE := 4; SKF_AD_VLAN_TAG := 44; SKF_AD_VLAN_TAG_PRESENT := 48; PACKET_OUTGOING := 4;
     AF_INET := 2; AF_INET6 := 10; little_endian := true |}.
Definition reference_machine : BpfMachine (bytes * (Z -> Z)) :=
  {| packet_bytes := fst; ancillary := snd; bpf_exec := fun p => run_fuel (length p) p |}.

Lemma run_fuel_enough n m p a x s : (length p <= n)%nat -> (length p <= m)%nat -> run_fuel n p a x s = run_fuel m p a x s.
Proof.
  revert m p a x. induction n as [|n IH]; intros [|m] [|i p] a x Hn Hm; cbn [length] in *; try done; try lia.
  assert (Hp : forall a x, run_fuel n p a x s = run_fuel m p a x s) by (intros; apply IH; lia).
  assert (Hd : forall t a x, run_fuel n (drop t p) a x s = run_fuel m (drop t p) a x s).
  { intros. apply IH; rewrite length_drop; lia. }
  cbn [run_fuel]. repeat case_match; auto.
Qed.

Lemma reference_classic : classic_bpf (H := linux_consts) (H0 := reference_machine) (bytes * (Z -> Z)).
Proof.
  assert (Hj : forall t p a x s, run_fuel (length p) (drop t p) a x s = run_fuel (length (drop t p)) (drop t p) a x s).
  { intros. apply run_fuel_enough; rewrite length_drop; lia. }
  split; cbn [bpf_exec packet_bytes ancillary reference_machine length run_fuel insn code jt jf k].
  - intros op n p a x s i j o Hop Ho. rewrite (proj2 (Z.leb_gt _ o)) by lia.
    rewrite !elem_of_cons, elem_of_nil in Hop. by destruct Hop as [[= -> ->]|[[= -> ->]|[[= -> ->]|[]]]].
  - intros op n p a x s i j o Hop Ho. rewrite !elem_of_cons, elem_of_nil in Hop. by destruct Hop as [[= -> ->]|[[= -> ->]|[]]].
  - intros op p a x s i j off Hop Hoff.
    apply elem_of_cons in Hop as [->|Hop%list_elem_of_singleton]; [|subst op].
    all: repeat (apply elem_of_cons in Hoff as [->|Hoff]; [done|]); by apply elem_of_nil in Hoff.
  - done.
  - done.
  - intros. apply Hj.
  - intros p a x s t f v. rewrite <- Hj. by destruct (Z.land a v =? 0).
  - done.
Qed.

(** A UDP datagram from 10.0.0.1 in a priority-tagged Ethernet frame. *)
Definition ex_frame : bytes :=
  [1; 0; 94; 0; 0; 251; 2; 0; 0; 0; 0; 1; 129; 0; 0; 0; 8; 0] ++
  [69; 0; 0; 30; 0; 0; 0; 0; 1; 17; 0; 0; 10; 0; 0; 1; 224; 0; 0; 251] ++ [20; 233; 20; 233; 0; 10; 0; 0; 104; 105].

Lemma kernel_filter_exact_witness :
  bpf_exec (BpfMachine := reference_machine) (udp_filter (H := linux_consts) Ethernet) 0 0 (ex_frame, fun _ => 0) = ACCEPT /\
  no_other (parse Ethernet ex_frame).
Proof.
  assert (Hb : bytes_ok (packet_bytes (BpfMachine := reference_machine) (ex_frame, fun _ => 0))) by (by repeat constructor).
  destruct (kernel_filter_exact (H := linux_consts) (H0 := reference_machine) reference_classic Ethernet (ex_frame, fun _ => 0) Hb) as [E Hp].
  assert (Ho : bpf_exec (BpfMachine := reference_machine) (udp_filter (H := linux_consts) Ethernet) 0 0 (ex_frame, fun _ => 0) = ACCEPT)
    by (rewrite E; reflexivity).
  split; [exact Ho|]. apply Hp; [|exact Ho]. exists 4, {| lv_dst_mac := Some (take 6 ex_frame); lv_src_mac := Some (take 6 (drop 6 ex_frame));
    l3 := drop 18 ex_frame |}, 69. repeat split; reflexivity.
Defined.
