(* ===== verification/PacketWf.v ===== *)
(** What a parsed frame carries lies within its Rust types: addresses, ports
    and TTL at their widths, MACs of six octets, payload bytes. *)

From S2P Require Import Prelude Text Addr Packet Datagram.

Local Open Scope Z_scope.

Definition socket_ok (s : SocketAddr) : Prop := ip_ok (ip s) /\ word_ok 16 (port s).
Definition opt_mac_ok (m : option MacAddr) : Prop := forall mac, m = Some mac -> mac_ok mac.

Record packet_ok (p : Packet) : Prop := {
  pko_source : socket_ok (pk_source p);
  pko_dest : socket_ok (pk_dest p);
  pko_ttl : byte_ok (pk_ttl p);
  pko_src_mac : opt_mac_ok (pk_src_mac p);
  pko_payload : bytes_ok (pk_payload p);
}.
Record header_ok (h : FragmentHeader) : Prop := {
  fho_source : ip_ok (fh_source h);
  fho_dest : ip_ok (fh_dest h);
  fho_ttl : byte_ok (fh_ttl h);
  fho_src_mac : opt_mac_ok (fh_src_mac h);
}.
Definition fragment_ok (f : Fragment) : Prop := header_ok (fr_header f) /\ bytes_ok (fr_data f).
Definition parsed_ok (p : Parsed) : Prop := match p with Packet.Datagram p => packet_ok p | Fragmented f => fragment_ok f end.

Definition link_view_ok (l : LinkView) : Prop := opt_mac_ok (lv_src_mac l) /\ bytes_ok (l3 l).

Lemma slice_bytes_ok (s l : bytes) : slice_of s l -> bytes_ok l -> bytes_ok s.
Proof. intros (a&b&->). rewrite !Forall_app. by intros (_&?&_). Qed.

Lemma range_bytes_ok {E} (l s : bytes) a b : range (E:=E) l a b = Ok s -> bytes_ok l -> bytes_ok s.
Proof. intros H. apply slice_bytes_ok. by eapply slice_of_range. Qed.

Lemma idx_byte_ok {E} (l : bytes) i z : idx (E:=E) l i = Ok z -> bytes_ok l -> byte_ok z.
Proof. rewrite idx_Ok. intros ? ?. by eapply Forall_lookup_1. Qed.

Lemma parse_link_header_ok lt frame l : bytes_ok frame -> parse_link_header lt frame = Ok l -> link_view_ok l.
Proof.
  intros Hb H. split; [|eapply slice_bytes_ok; [by eapply parse_link_header_slice|done]].
  revert H. unfold parse_link_header. destruct lt; intros H; inv_res; intros m Hm; cbn [lv_src_mac] in Hm; [|done..].
  injection Hm as <-. unfold read_mac in *. repeat (case_decide; [|done]). inv_res. done.
Qed.

Lemma ipv4_addr_ok b a : bytes_ok b -> ipv4_addr b = Ok a -> ip_ok (V4 a).
Proof. unfold ipv4_addr. case_decide as Hl; [|done]. intros Hb [= <-]. pose proof (of_be_bound b Hb) as Hr. by rewrite Hl in Hr. Qed.
Lemma ipv6_addr_ok b a : bytes_ok b -> ipv6_addr b = Ok a -> ip_ok (V6 a).
Proof. unfold ipv6_addr. case_decide as Hl; [|done]. intros Hb [= <-]. pose proof (of_be_bound b Hb) as Hr. by rewrite Hl in Hr. Qed.

Lemma datagram_ok link source dest ttl l4 p :
  datagram link source dest ttl l4 = Ok p ->
  link_view_ok link -> ip_ok source -> ip_ok dest -> byte_ok ttl -> bytes_ok l4 -> parsed_ok p.
Proof.
  intros H [Hm _] Hs Hd Ht Hb. pose proof (datagram_slice _ _ _ _ _ _ H) as Hsl. unfold datagram in H.
  apply bind_Ok in H as ([[sp dp] payload]&Hu&[= <-]).
  destruct (parse_udp_length _ _ _ _ Hb Hu) as (_&_&_&Hsp&Hdp). split; try done. by eapply slice_bytes_ok.
Qed.

Lemma parse_ipv4_ok link p : link_view_ok link -> parse_ipv4 link = Ok p -> parsed_ok p.
Proof.
  intros Hl H. pose proof Hl as [Hm Hb]. pose proof (parse_ipv4_slice _ _ H) as Hsl. unfold parse_ipv4 in H.
  case_decide; [done|]. inv_res. case_decide; [done|]. inv_res. case_match; [done|]. inv_res. case_decide; [done|]. inv_res.
  assert (Hip : forall a b s v, range (E:=ParseError) (l3 link) a b = Ok s -> ipv4_addr s = Ok v -> word_ok 32 v).
  { intros a b s v Hr. apply ipv4_addr_ok. by eapply range_bytes_ok. }
  case_match; inv_res.
  - eapply datagram_ok; [eassumption|done|cbn; eauto|cbn; eauto|by eapply idx_byte_ok|by eapply range_bytes_ok].
  - split; [split|]; cbn; [eauto|eauto|by eapply idx_byte_ok|done|by eapply range_bytes_ok].
Qed.

Lemma parse_ipv6_ok link p : link_view_ok link -> parse_ipv6 link = Ok p -> parsed_ok p.
Proof.
  intros Hl H. pose proof Hl as [Hm Hb]. unfold parse_ipv6 in H.
  case_decide; [done|]. inv_res. case_decide; [done|]. inv_res.
  assert (Hip : forall a b s v, range (E:=ParseError) (l3 link) a b = Ok s -> ipv6_addr s = Ok v -> word_ok 128 v).
  { intros a b s v Hr. apply ipv6_addr_ok. by eapply range_bytes_ok. }
  assert (Hbody : bytes_ok x5) by (by eapply range_bytes_ok).
  assert (Httl : byte_ok x4) by (by eapply idx_byte_ok).
  case_match; [eapply datagram_ok; [eassumption|done|cbn; eauto|cbn; eauto|done|done]|]. case_match; [|done]. inv_res. split_pairs. inv_res.
  rewrite split_at_checked_Some in *. destruct_and!. subst.
  assert (Hdata : bytes_ok (drop IPV6_FRAGMENT_HEADER_SIZE x5)) by (eapply slice_bytes_ok; [apply slice_of_drop|done]).
  case_match; [done|]. inv_res. case_match; inv_res; [eapply datagram_ok; [eassumption|done|cbn; eauto|cbn; eauto|done|done]|].
  split; [split|]; cbn; [eauto|eauto|done|done|done].
Qed.

Lemma parse_ok lt frame p : bytes_ok frame -> parse lt frame = Ok p -> parsed_ok p.
Proof.
  intros Hb H. unfold parse in H. apply bind_Ok in H as (link&Hl&H). apply parse_link_header_ok in Hl; [|done].
  apply bind_Ok in H as (first&_&H). repeat case_match; try done; [by eapply parse_ipv4_ok|by eapply parse_ipv6_ok].
Qed.

Lemma reassembled_packet_ok first dgram p : header_ok first -> bytes_ok dgram -> reassembled first dgram = Ok p -> packet_ok p.
Proof.
  intros [H1 H2 H3 H4] Hb H. unfold reassembled in H. apply bind_Ok in H as ([[sp dp] payload]&Hu&H).
  destruct (parse_udp_length _ _ _ _ Hb Hu) as (_&_&Hp&Hsp&Hdp).
  assert (Hpay : bytes_ok payload).
  { rewrite Hp. eapply slice_bytes_ok; [|exact Hb]. exists (take 8 dgram), (drop (length payload) (drop 8 dgram)). by rewrite !take_drop. }
  apply bind_Ok in H as ([hdr rest]&_&H). case_match; [done|]. inv_res. case_match; [done|]. inv_res. split; [by split|by split|done..].
Qed.
