(* ===== verification/EgressSpec.v ===== *)
(** What the egress path promises: a send never panics, hands the kernel
    exactly the frames of its datagram, and each distinct datagram goes out once
    per routed packet. *)

From S2P Require Import Prelude Text Addr Effect Checksum Mac Packet PacketWf Frame FrameSpec.
From S2P Require Import Names Interface Kernel InterfaceTable Datagram Egress.

Local Open Scope Z_scope.

(** ** Well-formed values: what the Rust types enforce *)

Definition addrs_ok (a : InterfaceAddresses) : Prop :=
  (forall m, ia_mac a = Some m -> mac_ok m) /\ (forall v4, ia_v4 a = Some v4 -> word_ok 32 v4) /\
  (forall v6, ia_v6 a = Some v6 -> word_ok 128 v6) /\ (forall v6, ia_v6_routable a = Some v6 -> word_ok 128 v6) /\
  (forall prefix, ia_v4_prefix a = Some prefix -> 0 <= prefix).

Definition source_ok (s : DatagramSource) : Prop :=
  match s with FromEgress p => word_ok 16 p | Exact s => socket_ok s end.
Definition datagram_ok (d : Datagram) : Prop :=
  socket_ok (dg_dst d) /\ source_ok (dg_source d) /\ byte_ok (dg_ttl d) /\ bytes_ok (dg_payload d).
Definition table_addrs_ok (t : InterfaceTable) : Prop :=
  Forall (fun e => addrs_ok (if_addrs (ie_interface e))) (it_entries t).

Record sending_ok {W} (s : Sending W) : Prop := {
  so_scratch : length (eg_scratch (sd_egress s)) = MAX_FRAME_LEN;
  so_id : word_ok 32 (eg_next_id (sd_egress s));
  so_addrs : table_addrs_ok (sd_table s);
}.

Lemma egress_addrs_ok t c a : table_addrs_ok t -> egress_addrs t c = Some a -> addrs_ok a.
Proof.
  unfold table_addrs_ok, egress_addrs, table_addrs. intros Hall H. apply bind_Some in H as (i&_&H).
  apply fmap_Some in H as (e&He&->). rewrite Forall_lookup in Hall. by eapply Hall.
Qed.

(** ** One datagram on one egress *)

(** The source a datagram is stamped with. *)
Definition stamped_source (a : InterfaceAddresses) (d : Datagram) : option SocketAddr :=
  match dg_source d with
  | Exact s => Some s
  | FromEgress p =>
      src ← match ip (dg_dst d) with
            | V4 _ => V4 <$> ia_v4 a
            | V6 dst => V6 <$> source_v6 a (scope_of_v6 dst)
            end;
      Some {| ip := src; port := p |}
  end.

(** [f] lays out [d], from the addresses [a], to [mac], for [link]. *)
Record lays_out (a : InterfaceAddresses) (link : LinkType) (mac : MacAddr) (d : Datagram) (mtu : nat) (f : UdpFrames) : Prop := {
  lo_link : link_type_of (uf_link f) = link;
  lo_mac : link = Ethernet -> link_dst (uf_link f) = Some mac /\ link_src (uf_link f) = ia_mac a;
  lo_dest : ip_dest (uf_ip f) = ip (dg_dst d);
  lo_source : exists p, stamped_source a d = Some {| ip := ip_source (uf_ip f); port := p |} /\
    addressing_ok (uf_link f) (uf_ip f) p (port (dg_dst d)) (dg_payload d) /\
    udp_frames (uf_link f) (uf_ip f) p (port (dg_dst d)) (dg_payload d) mtu = Ok f;
  lo_ttl : ip_ttl (uf_ip f) = dg_ttl d;
  lo_payload : uf_payload f = dg_payload d;
}.

Lemma link_header_spec a link mac :
  addrs_ok a -> mac_ok mac ->
  match link_header a link mac with
  | Ok h => link_ok h /\ link_type_of h = link /\
            (link = Ethernet -> link_dst h = Some mac /\ link_src h = ia_mac a)
  | Err _ => True
  | Panic => False
  end.
Proof.
  intros (Hm&_) Hmac. unfold link_header. destruct link; cbn; [|by split_and!..].
  destruct (ia_mac a) as [m|]; cbn; [|done]. specialize (Hm m eq_refl). by split_and!.
Qed.

Lemma source_v6_ok a scope v6 : addrs_ok a -> source_v6 a scope = Some v6 -> word_ok 128 v6.
Proof. intros (_&_&H1&H2&_) H. destruct scope; cbn in H; [auto|]. destruct (ia_v6_routable a); [|auto]. injection H as <-. auto. Qed.

(** The tail both families share: the header, then the frames. *)
Lemma laid_out a link mac d mtu h p :
  addrs_ok a -> mac_ok mac -> datagram_ok d -> ip_header_ok h -> word_ok 16 p ->
  ip_dest h = ip (dg_dst d) -> ip_ttl h = dg_ttl d -> stamped_source a d = Some {| ip := ip_source h; port := p |} ->
  match l ← link_header a link mac; map_err FrameFailed (udp_frames l h p (port (dg_dst d)) (dg_payload d) mtu) with
  | Ok f => lays_out a link mac d mtu f
  | Err _ => True
  | Panic => False
  end.
Proof.
  intros Ha Hm (Hd&_&_&Hb) Hh Hp Edst Ettl Esrc. pose proof (link_header_spec a link mac Ha Hm) as Hl.
  destruct (link_header a link mac) as [l|e|]; [|done..]. rewrite bind_ret. destruct Hl as (Hl&Elink&Emac).
  assert (Had : addressing_ok l h p (port (dg_dst d)) (dg_payload d)) by (split_and!; [done..|apply Hd|done]).
  pose proof (udp_frames_built l h p (port (dg_dst d)) (dg_payload d) mtu Had) as H.
  destruct (udp_frames _ _ _ _ _ _) as [f|e|] eqn:E; cbn [frames_built map_err] in *; [|done..].
  destruct H as (_&E1&E2&E3&_). split; rewrite ?E1, ?E2; try done. by exists p.
Qed.

Lemma build_udp_spec a link mac d id mtu :
  addrs_ok a -> mac_ok mac -> datagram_ok d -> word_ok 32 id ->
  match build_udp a link (dg_dst d) mac (dg_source d) (dg_ttl d) id (dg_payload d) mtu with
  | Ok f => lays_out a link mac d mtu f
  | Err _ => True
  | Panic => False
  end.
Proof.
  intros Ha Hm Hd Hid. pose proof Hd as ((Hip&Hport)&Hs&Httl&_). unfold build_udp.
  assert (Hid16 : word_ok 16 (Z.land id 65535)).
  { change 65535 with (Z.ones 16). rewrite Z.land_ones by lia. by apply Z.mod_pos_bound. }
  destruct (ip (dg_dst d)) as [dst|dst] eqn:Edst.
  - destruct (dg_source d) as [p|[[v4|v6] p]] eqn:Es; [|rewrite bind_ret|done].
    + destruct (ia_v4 a) as [v4|] eqn:E4; cbn [ok_or]; [|done]. rewrite !bind_ret.
      pose proof (laid_out a link mac d mtu (IpV4 v4 dst (dg_ttl d) (Z.land id 65535)) p) as H. apply H; try done.
      * split_and!; try done. by apply Ha.
      * unfold stamped_source. by rewrite Es, Edst, E4.
    + pose proof (laid_out a link mac d mtu (IpV4 v4 dst (dg_ttl d) (Z.land id 65535)) p) as H. apply H; try done.
      * split_and!; try done. apply Hs.
      * apply Hs.
      * unfold stamped_source. by rewrite Es.
  - destruct (dg_source d) as [p|[[v4|v6] p]] eqn:Es; [|done|rewrite bind_ret].
    + destruct (source_v6 a _) as [v6|] eqn:E6; cbn [ok_or]; [|done]. rewrite !bind_ret.
      pose proof (laid_out a link mac d mtu (IpV6 v6 dst (dg_ttl d) id) p) as H. apply H; try done.
      * split_and!; try done. by eapply source_v6_ok.
      * unfold stamped_source. by rewrite Es, Edst, E6.
    + pose proof (laid_out a link mac d mtu (IpV6 v6 dst (dg_ttl d) id) p) as H. apply H; try done.
      * split_and!; try done. apply Hs.
      * apply Hs.
      * unfold stamped_source. by rewrite Es.
Qed.

(** ** The memory of what was sent *)

Lemma was_sent_record t c packet h :
  is_Some (it_captures t !! capture_index c) -> was_sent (record_sent t c packet h) c packet h = true.
Proof.
  intros [e He]. unfold was_sent, record_sent. cbn [with_captures it_captures].
  rewrite list_lookup_alter_eq, He. cbn [fmap option_fmap option_map note_sent ce_sent_packet ce_sent]. rewrite Z.eqb_refl.
  cbn [andb]. rewrite existsb_app. cbn. by rewrite Z.eqb_refl, orb_true_r.
Qed.

Lemma was_sent_keep t c packet h c' h' :
  was_sent t c' packet h' = true -> was_sent (record_sent t c packet h) c' packet h' = true.
Proof.
  unfold was_sent, record_sent. cbn [with_captures it_captures].
  destruct (decide (capture_index c = capture_index c')) as [-> |Hne]; [|by rewrite list_lookup_alter_ne].
  rewrite list_lookup_alter_eq. destruct (it_captures t !! _) as [e|]; [|done].
  cbn [fmap option_fmap option_map note_sent ce_sent_packet ce_sent]. rewrite Z.eqb_refl. cbn [andb].
  intros [-> He]%andb_true_iff. by rewrite existsb_app, He.
Qed.

(** ** One frame written to the scratch *)

Lemma frame_mtu_bound mtu : (frame_mtu mtu <= MAX_MTU)%nat.
Proof. unfold frame_mtu. lia. Qed.

Lemma frame_written `{Host} a link mac d f i mtu p scratch :
  lays_out a link mac d mtu f -> (mtu <= MAX_MTU)%nat -> (i < count f)%nat ->
  udp_frames (uf_link f) (uf_ip f) p (port (dg_dst d)) (dg_payload d) mtu = Ok f ->
  addressing_ok (uf_link f) (uf_ip f) p (port (dg_dst d)) (dg_payload d) -> length scratch = MAX_FRAME_LEN ->
  exists len scratch' frame, write platform f i scratch = Ok (len, scratch') /\ length scratch' = MAX_FRAME_LEN /\
    (forall E, range (E:=E) scratch' 0 len = Ok frame) /\ parse link frame = Ok (frames_parsed f p (port (dg_dst d)) i).
Proof.
  intros Hf Hmtu Hi E Had Hlen. pose proof (udp_frames_Ok _ _ _ _ _ _ _ Had E) as (Hwf&_).
  destruct (write_spec mtu platform f i scratch Hwf Hi) as (ck&_&_&Hw). cbn zeta in Hw.
  pose proof (frame_fits mtu platform f i ck Hwf Hi) as Hfit. set (fb := frame_bytes platform f i ck) in *.
  assert (Hle : (length fb <= MAX_FRAME_LEN)%nat).
  { assert (MAX_FRAME_LEN = 14 + MAX_MTU)%nat as -> by reflexivity. destruct (uf_link f); cbn [link_size] in Hfit;
      unfold ETHERNET_HEADER_SIZE, DLT_NULL_HEADER_SIZE in Hfit; lia. }
  rewrite decide_True in Hw by lia.
  pose proof (write_parse _ _ _ _ _ _ platform f i scratch _ _ [] Had E Hi Hw) as Hp.
  rewrite app_nil_r, take_app_length, (lo_link _ _ _ _ _ _ Hf) in Hp.
  eexists _, _, fb. split_and!; [exact Hw|len; lia| |exact Hp].
  intros E'. rewrite range_ok by (len; lia). by rewrite Nat.sub_0_r, drop_0, take_app_length.
Qed.

(** ** A kernel that remembers the frames it was handed *)

(** [K], and the frames its [capture_send] was given, in order. *)
Definition logging {W} (K : Kernel W) : Kernel (W * list (Capture * bytes)) :=
  observing K (fun c frame log => log ++ [(c, frame)]) (fun _ log => log) (fun _ log => log).

Section sends.
Context {W : Type} (K : Kernel W) `{Host}.
Implicit Types s : Sending (W * list (Capture * bytes)).

Local Existing Instance logging.

Definition frames_log s : list (Capture * bytes) := (sd_world s).2.

(** Frame [i] of the layout [f], on the link of the capture. *)
Definition is_frame (c : Capture) (f : UdpFrames) (p p' : Z) (i : nat) (sent : Capture * bytes) : Prop :=
  sent.1 = c /\ parse (cap_link c) sent.2 = Ok (frames_parsed f p p' i).

(** What a send may change: the scratch, the identification, the world and
    the memory of what the egress sent. *)
Record send_frames s s' : Prop := {
  sf_packet : eg_packet (sd_egress s') = eg_packet (sd_egress s);
  sf_routing : eg_routing (sd_egress s') = eg_routing (sd_egress s);
  sf_table : sd_table s' = sd_table s;
}.

Lemma send_frames_refl s : send_frames s s.
Proof. by split. Qed.
Lemma send_frames_trans s1 s2 s3 : send_frames s1 s2 -> send_frames s2 s3 -> send_frames s1 s3.
Proof. intros [] []. split; congruence. Qed.

Lemma send_frame_spec egress c frame s :
  capture (sd_table s) egress = Some c ->
  let '(r, s') := send_frame egress frame s in
  r <> Panic /\ sd_egress s' = sd_egress s /\ sd_table s' = sd_table s /\ frames_log s' = frames_log s ++ [(c, frame)].
Proof.
  intros Hc. unfold send_frame. rewrite Hc. unfold frames_log. cbn [capture_send logging observing].
  destruct (capture_send c frame (sd_world s).1) as [r w] eqn:E.
  by destruct r as [e|[]].
Qed.

Lemma transmit_frame_spec egress c a mac d f i s mtu p :
  lays_out a (cap_link c) mac d mtu f -> (mtu <= MAX_MTU)%nat -> (i < count f)%nat ->
  udp_frames (uf_link f) (uf_ip f) p (port (dg_dst d)) (dg_payload d) mtu = Ok f ->
  addressing_ok (uf_link f) (uf_ip f) p (port (dg_dst d)) (dg_payload d) ->
  sending_ok s -> capture (sd_table s) egress = Some c ->
  let '(r, s') := transmit_frame egress f i s in
  r <> Panic /\ sending_ok s' /\ send_frames s s' /\
  exists sent, frames_log s' = frames_log s ++ [sent] /\ is_frame c f p (port (dg_dst d)) i sent.
Proof.
  intros Hf Hmtu Hi E Had Hok Hc.
  destruct (frame_written a _ mac d f i mtu p (eg_scratch (sd_egress s)) Hf Hmtu Hi E Had (so_scratch _ Hok))
    as (len&scratch&frame&Hw&Hlen&Hrange&Hp).
  unfold transmit_frame, gets, modify, lift, mbind, M_bind. cbv beta iota. rewrite Hw. cbn [map_err]. rewrite Hrange.
  set (s1 := sd_set_egress s _). pose proof (send_frame_spec egress c frame s1 Hc) as Hsend.
  destruct (send_frame egress frame s1) as [r s']. destruct Hsend as (Hr&He&Ht&Hlog).
  split_and!; [done| | |].
  - split; rewrite ?He, ?Ht; [done|apply Hok..].
  - split; rewrite ?He, ?Ht; done.
  - exists (c, frame). by split.
Qed.

Lemma transmit_frames_spec egress c a mac d f n k s mtu p :
  lays_out a (cap_link c) mac d mtu f -> (mtu <= MAX_MTU)%nat -> (k + n <= count f)%nat ->
  udp_frames (uf_link f) (uf_ip f) p (port (dg_dst d)) (dg_payload d) mtu = Ok f ->
  addressing_ok (uf_link f) (uf_ip f) p (port (dg_dst d)) (dg_payload d) ->
  sending_ok s -> capture (sd_table s) egress = Some c ->
  let '(r, s') := for_each (transmit_frame egress f) (seq k n) s in
  r <> Panic /\ sending_ok s' /\ send_frames s s' /\
  exists m sent, (m <= n)%nat /\ (r = Ok () -> m = n) /\ frames_log s' = frames_log s ++ sent /\
    Forall2 (is_frame c f p (port (dg_dst d))) (seq k m) sent.
Proof.
  intros Hf Hmtu Hn E Had. revert k s Hn. induction n as [|n IH]; intros k s Hn Hok Hc; cbn [seq for_each].
  { split_and!; try done. exists 0%nat, []. rewrite app_nil_r. by split_and!. }
  pose proof (transmit_frame_spec egress c a mac d f k s mtu p Hf Hmtu ltac:(lia) E Had Hok Hc) as H1.
  unfold mbind, M_bind. destruct (transmit_frame egress f k s) as [r s1].
  destruct H1 as (Hr&Hok1&Hs1&sent&Hl1&Hsent). destruct r as [[]|e|]; [| |done].
  - assert (Hc1 : capture (sd_table s1) egress = Some c) by (by rewrite (sf_table _ _ Hs1)).
    specialize (IH (S k) s1 ltac:(lia) Hok1 Hc1). destruct (for_each _ _ _) as [r s2].
    destruct IH as (Hr2&Hok2&Hs2&m&sents&Hm&Hmn&Hl2&Hall). split_and!; [done|done|by eapply send_frames_trans|].
    exists (S m), (sent :: sents). rewrite Hl2, Hl1, <- app_assoc. cbn [seq app].
    split_and!; [lia|intros Hx; by rewrite (Hmn Hx)|done|by constructor].
  - split_and!; [done..|]. exists 1%nat, [sent]. split_and!; [lia|done|done|constructor; [done|constructor]].
Qed.

Definition sent_to s egress mac d : bool := already_sent egress (digest mac d) s.

(** A datagram's frames, all handed to the capture of [egress], in order. *)
Definition handed_over egress mac d s s' : Prop :=
  exists c a f p sent,
    capture (sd_table s) egress = Some c /\ egress_addrs (sd_table s) egress = Some a /\
    lays_out a (cap_link c) mac d (frame_mtu (mtu_of (sd_table s) egress)) f /\
    stamped_source a d = Some {| ip := ip_source (uf_ip f); port := p |} /\
    frames_log s' = frames_log s ++ sent /\
    Forall2 (is_frame c f p (port (dg_dst d))) (seq 0 (count f)) sent.

Lemma plan_spec egress mac d s :
  sending_ok s -> mac_ok mac -> datagram_ok d ->
  let '(r, s') := plan egress mac d s in
  sending_ok s' /\ send_frames s s' /\ frames_log s' = frames_log s /\
  match r with
  | Ok None => s' = s /\ (capture (sd_table s) egress = None \/ egress_addrs (sd_table s) egress = None)
  | Ok (Some f) => exists c a, capture (sd_table s) egress = Some c /\ egress_addrs (sd_table s) egress = Some a /\
      is_Some (ifindex_of (sd_table s) egress) /\
      lays_out a (cap_link c) mac d (frame_mtu (mtu_of (sd_table s) egress)) f
  | Err _ => True
  | Panic => False
  end.
Proof.
  intros Hok Hm Hd. unfold plan, gets, modify, lift, mbind at 1, M_bind.
  destruct (egress_addrs (sd_table s) egress) as [a|] eqn:Ea; [|by split_and!; auto].
  destruct (capture (sd_table s) egress) as [c|] eqn:Ec; cbn [fmap option_fmap option_map]; [|by split_and!; auto].
  destruct (ifindex_of (sd_table s) egress) as [i|] eqn:Ei; [|by split_and!].
  unfold mbind. cbv beta iota.
  pose proof (build_udp_spec a (cap_link c) mac d (eg_next_id (sd_egress s)) (frame_mtu (mtu_of (sd_table s) egress))
    (egress_addrs_ok _ _ _ (so_addrs _ Hok) Ea) Hm Hd (so_id _ Hok)) as Hb.
  split_and!; [|by split|done|].
  - split; [apply Hok| |apply Hok]. apply Z.mod_pos_bound. lia.
  - destruct (build_udp _ _ _ _ _ _ _ _ _) as [f|e|]; [|done..]. exists c, a. by split_and!.
Qed.

(** [transmit] of a planned layout. *)
Lemma transmit_spec egress mac d f c a s :
  sending_ok s -> capture (sd_table s) egress = Some c -> egress_addrs (sd_table s) egress = Some a ->
  lays_out a (cap_link c) mac d (frame_mtu (mtu_of (sd_table s) egress)) f ->
  let '(r, s') := transmit egress f (digest mac d) s in
  sending_ok s' /\ eg_packet (sd_egress s') = eg_packet (sd_egress s) /\ eg_routing (sd_egress s') = eg_routing (sd_egress s) /\
  match r with
  | Ok () => handed_over egress mac d s s' /\
      sd_table s' = (if eg_routing (sd_egress s) then record_sent (sd_table s) egress (eg_packet (sd_egress s)) (digest mac d)
                     else sd_table s)
  | Err _ => sd_table s' = sd_table s
  | Panic => False
  end.
Proof.
  intros Hok Hc Ha Hf. destruct (lo_source _ _ _ _ _ _ Hf) as (p&Hp&Had&E).
  pose proof (transmit_frames_spec egress c a mac d f (count f) 0 s _ p Hf (frame_mtu_bound _) ltac:(lia) E Had Hok Hc) as H1.
  unfold transmit, mbind, M_bind. destruct (for_each _ _ s) as [r s1].
  destruct H1 as (Hr&Hok1&[P1 P2 P3]&m&sent&Hm&Hmn&Hlog&Hall). destruct r as [[]|e|]; [|done..].
  specialize (Hmn eq_refl). subst m. unfold modify. cbv beta iota. rewrite P1, P2, P3.
  assert (Hho : handed_over egress mac d s s1) by (exists c, a, f, p, sent; by split_and!).
  destruct (eg_routing (sd_egress s)); [|by split_and!]. cbn [sd_set_table sd_egress sd_table].
  split_and!; [|done..]. split; [apply Hok1..|]. apply Hok.
Qed.

Lemma send_udp_spec egress mac d s :
  sending_ok s -> mac_ok mac -> datagram_ok d ->
  let '(r, s') := send_udp egress mac d s in
  sending_ok s' /\ eg_packet (sd_egress s') = eg_packet (sd_egress s) /\ eg_routing (sd_egress s') = eg_routing (sd_egress s) /\
  match r with
  | Ok () =>
      (s' = s /\ (sent_to s egress mac d = true \/ capture (sd_table s) egress = None \/ egress_addrs (sd_table s) egress = None)) \/
      (sent_to s egress mac d = false /\ handed_over egress mac d s s' /\
       sd_table s' = (if eg_routing (sd_egress s) then record_sent (sd_table s) egress (eg_packet (sd_egress s)) (digest mac d)
                      else sd_table s))
  | Err _ => sent_to s egress mac d = false /\ sd_table s' = sd_table s
  | Panic => False
  end.
Proof.
  intros Hok Hm Hd. unfold send_udp, gets, mbind at 1, M_bind. cbv beta iota.
  change (already_sent egress (digest mac d) s) with (sent_to s egress mac d).
  destruct (sent_to s egress mac d) eqn:Es; [by split_and!; auto|].
  pose proof (plan_spec egress mac d s Hok Hm Hd) as Hp. unfold mbind, M_bind.
  destruct (plan egress mac d s) as [r s1]. destruct Hp as (Hok1&[P1 P2 P3]&Hlog&Hr).
  destruct r as [[f|]|e|]; [| |by split_and!|done].
  - destruct Hr as (c&a&Hc&Ha&_&Hf). rewrite <- P3 in Hc, Ha, Hf.
    pose proof (transmit_spec egress mac d f c a s1 Hok1 Hc Ha Hf) as Ht.
    destruct (transmit egress f (digest mac d) s1) as [r s2]. destruct Ht as (Hok2&Q1&Q2&Hr).
    split_and!; [done|congruence..|]. destruct r as [[]|e|]; [|by rewrite Hr|done]. right.
    destruct Hr as (Hh&Ht). split_and!; [done| |by rewrite Ht, P1, P2, P3].
    destruct Hh as (c'&a'&f'&p&sent&H1&H2&H3&H4&H5&H6). exists c', a', f', p, sent. rewrite <- P3, <- Hlog. by split_and!.
  - destruct Hr as [-> Hr]. split_and!; [done..|]. left. split; [done|by right].
Qed.

(** C8. Sending a datagram never panics, whatever the capture answers. When it
    succeeds, then either an equal datagram already went out for the packet
    being routed or the egress is not to be had, and nothing at all happens; or
    every frame of the datagram is handed to the egress's capture, in order,
    each one parsing back to the datagram from the egress's own source or the
    exact one asked for, or to its fragment, and while routing the datagram is
    remembered as sent. When it fails it is not, so a later attempt sends it. *)
Theorem datagram_handed_over egress mac d s :
  sending_ok s -> mac_ok mac -> datagram_ok d ->
  let '(r, s') := send_udp egress mac d s in
  sending_ok s' /\
  match r with
  | Ok () =>
      (s' = s /\ (sent_to s egress mac d = true \/ capture (sd_table s) egress = None \/ egress_addrs (sd_table s) egress = None)) \/
      (handed_over egress mac d s s' /\ sent_to s' egress mac d = eg_routing (sd_egress s))
  | Err _ => sent_to s' egress mac d = false
  | Panic => False
  end.
Proof.
  intros Hok Hm Hd. pose proof (send_udp_spec egress mac d s Hok Hm Hd) as Hs.
  destruct (send_udp egress mac d s) as [r s']. destruct Hs as (Hok'&Hp&Hr&Hs). split; [done|].
  destruct r as [[]|e|]; [|destruct Hs as [H1 H2]; unfold sent_to, already_sent in *; by rewrite Hp, Hr, H2|done].
  destruct Hs as [?|(Hs&Hh&Ht)]; [by left|]. right. split; [done|].
  unfold sent_to, already_sent. rewrite Hp, Hr, Ht. destruct (eg_routing (sd_egress s)); [|done]. cbn [andb].
  destruct Hh as (c&_&_&_&_&Hc&_). apply was_sent_record. unfold capture in Hc. by destruct (_ !! _).
Qed.
End sends.

(** ** Any send, on any kernel *)

Section calm.
Context {W : Type} `{Kernel W} `{Host}.
Implicit Types s : Sending W.

(** Rows that differ in the memory of what was sent at most. *)
Definition same_row (c c' : CaptureEntry) : Prop :=
  ce_capture c' = ce_capture c /\ ce_interface c' = ce_interface c /\ ce_counters c' = ce_counters c.

(** A send leaves the table's interfaces and captures alone, and its own state sound. *)
Record calm (t : InterfaceTable) s : Prop := {
  cm_ok : sending_ok s;
  cm_entries : it_entries (sd_table s) = it_entries t;
  cm_join : it_join_groups (sd_table s) = it_join_groups t;
  cm_rows : Forall2 same_row (it_captures t) (it_captures (sd_table s));
}.

Lemma calm_refl s : sending_ok s -> calm (sd_table s) s.
Proof. intros Hok. split; [done..|]. by apply Forall_Forall2_diag, Forall_true. Qed.

(** No panic at all. *)
Definition never {S} (s : S) : Prop := False.
Abbreviation calmly t m := (forall s, calm t s -> runs (calm t) never m s (fun _ _ => True)).

Lemma calm_record t s egress packet h : calm t s -> calm t (sd_set_table s (record_sent (sd_table s) egress packet h)).
Proof.
  intros [[? ? ?] He Hj Hr]. split; [by split|done|done|]. cbn. apply Forall2_alter_r; [done|].
  intros x y _ Hxy (H1&H2&H3). by split_and!.
Qed.

Lemma calm_world t s w : calm t s -> calm t (sd_set_world s w).
Proof. intros [[] ? ? ?]. by split. Qed.

Lemma calm_transmit t egress a link mac d f mtu h :
  lays_out a link mac d mtu f -> (mtu <= MAX_MTU)%nat -> calmly t (transmit egress f h).
Proof.
  intros Hf Hmtu s Hs. destruct (lo_source _ _ _ _ _ _ Hf) as (p&_&Had&E). unfold transmit.
  apply runs_bind with (P := fun _ _ => True).
  - apply runs_for_each; [done| |done]. intros i s1 Hi Hs1. apply elem_of_seq in Hi as [_ Hi].
    destruct (frame_written a link mac d f i mtu p (eg_scratch (sd_egress s1)) Hf Hmtu Hi E Had (so_scratch _ (cm_ok _ _ Hs1)))
      as (len&scratch&frame&Hw&Hlen&Hrange&_).
    unfold runs, transmit_frame, gets, modify, lift, mbind, M_bind. rewrite Hw. cbn [map_err]. rewrite Hrange.
    assert (Hs2 : calm t (sd_set_egress s1 (with_scratch (sd_egress s1) scratch))) by (destruct Hs1 as [[] ? ? ?]; by split).
    unfold send_frame. destruct (capture _ _) as [c|]; [|done].
    destruct (capture_send _ _ _) as [[e|[]] w]; pose proof (calm_world _ _ w Hs2); done.
  - intros [] s1 Hs1 _. apply runs_modify; [|done]. destruct (eg_routing _); [by apply calm_record|done].
Qed.

Lemma calm_plan t egress mac d s :
  mac_ok mac -> datagram_ok d -> calm t s ->
  runs (calm t) never (plan egress mac d) s
    (fun f _ => match f with Some f => exists a link mtu, lays_out a link mac d mtu f /\ (mtu <= MAX_MTU)%nat | None => True end).
Proof.
  intros Hm Hd Hs. unfold runs, plan, gets, modify, lift, mbind, M_bind.
  destruct (egress_addrs (sd_table s) egress) as [a|] eqn:Ea; [|done].
  destruct (capture (sd_table s) egress) as [c|]; cbn [fmap option_fmap option_map]; [|done].
  destruct (ifindex_of (sd_table s) egress) as [i|]; [|done].
  pose proof (build_udp_spec a (cap_link c) mac d (eg_next_id (sd_egress s)) (frame_mtu (mtu_of (sd_table s) egress))
    (egress_addrs_ok _ _ _ (so_addrs _ (cm_ok _ _ Hs)) Ea) Hm Hd (so_id _ (cm_ok _ _ Hs))) as Hb.
  assert (Hs2 : calm t (sd_set_egress s (with_next_id (sd_egress s) ((eg_next_id (sd_egress s) + 1) mod 2 ^ 32)))).
  { destruct Hs as [[] ? ? ?]. split; try done. split; [done| |done]. apply Z.mod_pos_bound. lia. }
  destruct (build_udp _ _ _ _ _ _ _ _ _) as [f|e|]; [|done..].
  split; [done|]. exists a, (cap_link c), (frame_mtu (mtu_of (sd_table s) egress)). split; [done|apply frame_mtu_bound].
Qed.

Lemma calm_send_udp t egress mac d : mac_ok mac -> datagram_ok d -> calmly t (send_udp egress mac d).
Proof.
  intros Hm Hd s Hs. unfold send_udp. apply runs_bind with (P := fun _ _ => True); [by apply runs_gets|].
  intros [|] s1 Hs1 _; [by apply runs_ret|]. eapply runs_bind; [by apply calm_plan|].
  intros [f|] s2 Hs2; [|by intros _; apply runs_ret]. intros (a&link&mtu&Hf&Hmtu). by eapply calm_transmit.
Qed.

Lemma ethernet_dst_ok dst broadcast mac : ethernet_dst dst broadcast = Ok mac -> mac_ok mac.
Proof.
  unfold ethernet_dst. destruct dst as [v4|v6]; [destruct (_ || _); [by intros [= <-]|]|];
    destruct (is_multicast _); intros [= <-]; done.
Qed.

Lemma ethernet_dst_safe dst broadcast : safe (ethernet_dst dst broadcast).
Proof. unfold ethernet_dst. destruct dst as [v4|v6]; [destruct (_ || _); [done|]|]; by destruct (is_multicast _). Qed.

Lemma calm_send_udp_group t egress d : datagram_ok d -> calmly t (send_udp_group egress d).
Proof.
  intros Hd s Hs. unfold send_udp_group. apply runs_bind with (P := fun _ _ => True); [by apply runs_gets|].
  intros t1 s1 Hs1 _. eapply runs_bind with (P := fun mac _ => mac_ok mac).
  - apply runs_lift; [done| |].
    + pose proof (ethernet_dst_safe (ip (dg_dst d)) (egress_addrs t1 egress ≫= v4_directed_broadcast)) as Hsafe.
      by destruct (ethernet_dst _ _).
    + intros mac. destruct (ethernet_dst _ _) as [m|e|] eqn:E; cbn [map_err]; [|done..]. intros [= <-]. by eapply ethernet_dst_ok.
  - intros mac s2 Hs2 Hm. by apply calm_send_udp.
Qed.

Lemma calm_send_udp_to_peers t egress peers d :
  datagram_ok d -> Forall ip_ok peers -> calmly t (send_udp_to_peers egress peers d).
Proof.
  intros ((Hip&Hport)&Hsrc&Httl&Hpay) Hpeers. unfold send_udp_to_peers.
  assert (Hall : Forall ip_ok (List.filter (fun peer => bool_decide (is_v4 peer = is_v4 (ip (dg_dst d)))) peers)).
  { apply Forall_forall. intros x Hx. apply list_elem_of_In, filter_In in Hx as [Hx _]. apply list_elem_of_In in Hx.
    rewrite Forall_forall in Hpeers. auto. }
  generalize false as delivered, (None : option IoError) as failure. revert Hall.
  induction (List.filter _ peers) as [|peer l IH]; intros Hall delivered failure s Hs; cbn [send_to_each].
  - destruct failure; [|by apply runs_ret]. destruct delivered; [by apply runs_ret|done].
  - apply Forall_cons in Hall as [Hpeer Hall].
    apply runs_bind with (P := fun _ _ => True); [by apply runs_gets|]. intros [|] s1 Hs1 _; [by apply IH|].
    eapply runs_bind; [apply calm_plan; [done| |done]; by split_and!; [split|..]|].
    intros [f|] s2 Hs2; [|by intros _; apply runs_ret]. intros (a&link&mtu&Hf&Hmtu).
    apply runs_bind with (P := fun _ _ => True).
    { apply runs_attempt; [|done]. by eapply calm_transmit. }
    intros [e|[]] s3 Hs3 _; by apply IH.
Qed.
End calm.

(** ** Once per packet *)

Section once.
Context {W : Type} `{Kernel W} `{Host}.
Implicit Types s : Sending W.

(** No send is recorded under a packet still to come. *)
Definition numbered (packet : Z) (t : InterfaceTable) : Prop := Forall (fun c => ce_sent_packet c <= packet) (it_captures t).

(** Steps after which the packet is the same, nothing sent is forgotten, and
    nothing counts as sent on an egress but what did and what [P] says. *)
Record remembers (P : CaptureKey -> Z -> Prop) s s' : Prop := {
  rm_packet : eg_packet (sd_egress s') = eg_packet (sd_egress s);
  rm_routing : eg_routing (sd_egress s') = eg_routing (sd_egress s);
  rm_sent : forall c h, was_sent (sd_table s) c (eg_packet (sd_egress s)) h = true ->
                        was_sent (sd_table s') c (eg_packet (sd_egress s)) h = true;
  rm_only : forall c h, was_sent (sd_table s') c (eg_packet (sd_egress s)) h = true ->
                        was_sent (sd_table s) c (eg_packet (sd_egress s)) h = true \/ P c h;
  rm_numbers : numbered (eg_packet (sd_egress s)) (sd_table s) -> numbered (eg_packet (sd_egress s)) (sd_table s');
}.

#[export] Instance remembers_preorder P : PreOrder (remembers P).
Proof.
  split; [split; auto|]. intros s1 s2 s3 [P1 R1 H1 O1 N1] [P2 R2 H2 O2 N2]. rewrite P1 in H2, O2, N2.
  split; [congruence..|auto| |auto]. intros c h Hs. destruct (O2 c h Hs); auto.
Qed.

(** A step that leaves the table alone, and which packet is routed. *)
Lemma remembers_same P s s' :
  sd_table s' = sd_table s -> eg_packet (sd_egress s') = eg_packet (sd_egress s) -> eg_routing (sd_egress s') = eg_routing (sd_egress s) ->
  remembers P s s'.
Proof. intros Ht Hp Hr. split; rewrite ?Ht; auto. Qed.

Section learning.
Context (P : CaptureKey -> Z -> Prop).
Definition steady {E A} (m : M (Sending W) E A) : Prop := forall s, remembers P s (m s).2.
(** [P] has it that [h] may go out on [egress], under any key of its row. *)
Definition may_send egress h : Prop := forall c, capture_index c = capture_index egress -> P c h.

Lemma steady_bind {E A B} (m : M (Sending W) E A) (f : A -> M (Sending W) E B) :
  steady m -> (forall a, steady (f a)) -> steady (m ≫= f).
Proof.
  intros Hm Hf s. specialize (Hm s). unfold mbind, M_bind. destruct (m s) as [[a|e|] s']; [|exact Hm..].
  etrans; [exact Hm|]. apply Hf.
Qed.
Lemma steady_pure {E A} (m : M (Sending W) E A) : (forall s, (m s).2 = s) -> steady m.
Proof. intros Hm s. by rewrite Hm. Qed.
Lemma steady_attempt {E E' A} (m : M (Sending W) E' A) : steady m -> steady (attempt (E:=E) m).
Proof. intros Hm s. specialize (Hm s). unfold attempt. by destruct (m s) as [[a|e|] s']. Qed.
Lemma steady_for_each {E A} (f : A -> M (Sending W) E ()) l : (forall x, steady (f x)) -> steady (for_each f l).
Proof. intros Hf. induction l as [|x l IH]; [by apply steady_pure|]. by apply steady_bind. Qed.
Lemma steady_modify {E} f : (forall s, remembers P s (f s)) -> steady (modify (E:=E) f).
Proof. done. Qed.
Lemma frames_keep_table egress f l s :
  sd_table (for_each (transmit_frame egress f) l s).2 = sd_table s /\
  eg_routing (sd_egress (for_each (transmit_frame egress f) l s).2) = eg_routing (sd_egress s).
Proof.
  revert s. induction l as [|i l IH]; intros s; cbn [for_each]; [done|]. unfold mbind, M_bind.
  assert (H1 : sd_table (transmit_frame egress f i s).2 = sd_table s /\
               eg_routing (sd_egress (transmit_frame egress f i s).2) = eg_routing (sd_egress s)).
  { unfold transmit_frame, gets, lift, modify, mbind, M_bind. destruct (map_err _ _) as [[len scratch]|e|]; [|done..].
    destruct (range _ _ _) as [frame|e|]; [|done..]. unfold send_frame. destruct (capture _ _) as [c|]; [|done].
    by destruct (capture_send _ _ _) as [r w]. }
  destruct (transmit_frame egress f i s) as [[[]|e|] s1]; [|exact H1..]. destruct H1 as [<- <-]. apply IH.
Qed.

Lemma was_sent_only t egress packet h c h' :
  was_sent (record_sent t egress packet h) c packet h' = true ->
  was_sent t c packet h' = true \/ (capture_index c = capture_index egress /\ h' = h).
Proof.
  unfold was_sent, record_sent. cbn [with_captures it_captures].
  destruct (decide (capture_index egress = capture_index c)) as [E|Hne]; [|rewrite list_lookup_alter_ne by done; auto].
  rewrite E, list_lookup_alter_eq. destruct (it_captures t !! capture_index c) as [e|]; [|done]. cbn [fmap option_fmap option_map note_sent ce_sent ce_sent_packet].
  rewrite Z.eqb_refl. cbn [andb]. rewrite existsb_app. destruct (ce_sent_packet e =? packet); cbn [existsb orb andb]; rewrite ?orb_false_r.
  - intros [? | ->%Z.eqb_eq]%orb_true_iff; auto.
  - intros ->%Z.eqb_eq; auto.
Qed.

Lemma steady_transmit egress f h : may_send egress h -> steady (transmit egress f h).
Proof.
  intros Hp. apply steady_bind.
  - apply steady_for_each. intros i. unfold transmit_frame.
    apply steady_bind; [by apply steady_pure|]. intros scratch.
    apply steady_bind; [by apply steady_pure|]. intros [len scratch'].
    apply steady_bind; [apply steady_modify; intros s; by apply remembers_same|]. intros [].
    apply steady_bind; [by apply steady_pure|]. intros frame s.
    unfold send_frame. destruct (capture _ _) as [c|]; [|done]. destruct (capture_send _ _ _) as [r w]. by apply remembers_same.
  - intros []. apply steady_modify. intros s. destruct (eg_routing (sd_egress s)) eqn:Er; [|done].
    split; [done..| | |]; [intros c h'; apply was_sent_keep| |].
    { intros c h' [? | [Hc ->]]%was_sent_only; [by left|right; by apply Hp]. }
    unfold numbered. intros Hall.
    apply Forall_alter; [done|]. intros c _ _. cbn. lia.
Qed.

Lemma steady_plan egress mac d : steady (plan egress mac d).
Proof.
  apply steady_bind; [by apply steady_pure|]. intros t. destruct (egress_addrs t egress); [|by apply steady_pure].
  destruct (cap_link <$> capture t egress); [|by apply steady_pure].
  destruct (ifindex_of t egress); [|by apply steady_pure].
  apply steady_bind; [by apply steady_pure|]. intros id.
  apply steady_bind; [apply steady_modify; intros s; by apply remembers_same|]. intros []. by apply steady_pure.
Qed.

Lemma steady_send_udp egress mac d : may_send egress (digest mac d) -> steady (send_udp egress mac d).
Proof.
  intros Hp.
  apply steady_bind; [by apply steady_pure|]. intros [|]; [by apply steady_pure|].
  apply steady_bind; [apply steady_plan|]. intros [f|]; [by apply steady_transmit|by apply steady_pure].
Qed.

Lemma steady_send_udp_group egress d :
  (forall broadcast mac, ethernet_dst (ip (dg_dst d)) broadcast = Ok mac -> may_send egress (digest mac d)) ->
  steady (send_udp_group egress d).
Proof.
  intros Hp. apply steady_bind; [by apply steady_pure|]. intros t s. unfold lift, mbind, M_bind.
  destruct (ethernet_dst _ _) as [mac|e|] eqn:E; cbn [map_err]; [|done..]. by eapply steady_send_udp, Hp.
Qed.

(** The copy of a datagram for a peer. *)
Definition copy_to (peer : IpAddr) (d : Datagram) : Datagram :=
  {| dg_dst := {| ip := peer; port := port (dg_dst d) |}; dg_source := dg_source d; dg_ttl := dg_ttl d; dg_payload := dg_payload d |}.

Lemma steady_send_udp_to_peers egress peers d :
  (forall peer, peer ∈ peers -> may_send egress (digest mac_broadcast (copy_to peer d))) ->
  steady (send_udp_to_peers egress peers d).
Proof.
  intros Hp. unfold send_udp_to_peers. generalize false as delivered, (None : option IoError) as failure.
  assert (Hl : Forall (fun peer => may_send egress (digest mac_broadcast (copy_to peer d)))
    (List.filter (fun peer => bool_decide (is_v4 peer = is_v4 (ip (dg_dst d)))) peers)).
  { apply Forall_forall. intros x [Hx _]%list_elem_of_In%filter_In. by apply Hp, list_elem_of_In. }
  induction Hl as [|peer l Hpeer _ IH]; intros delivered failure; cbn [send_to_each].
  - destruct failure; [|by apply steady_pure]. destruct delivered; by apply steady_pure.
  - apply steady_bind; [by apply steady_pure|]. intros [|]; [apply IH|].
    apply steady_bind; [apply steady_plan|]. intros [f|]; [|by apply steady_pure].
    apply steady_bind; [by apply steady_attempt, steady_transmit|]. intros [e|[]]; apply IH.
Qed.
End learning.
Hint Resolve steady_bind steady_attempt steady_for_each : core.

(** A send of a reflector while a packet is routed. *)
Inductive SendOp : Type :=
  | OpTo (egress : CaptureKey) (mac : MacAddr) (d : Datagram)
  | OpGroup (egress : CaptureKey) (d : Datagram)
  | OpPeers (egress : CaptureKey) (peers : list IpAddr) (d : Datagram).
Definition send_op (op : SendOp) : M (Sending W) IoError () :=
  match op with
  | OpTo egress mac d => send_udp egress mac d
  | OpGroup egress d => send_udp_group egress d
  | OpPeers egress peers d => send_udp_to_peers egress peers d
  end.
(** Sends one after another, whether or not one fails. *)
Definition send_ops (ops : list SendOp) (s : Sending W) : Sending W := foldl (fun s op => (send_op op s).2) s ops.

(** What a send may send on an egress. *)
Definition op_sends (op : SendOp) (egress : CaptureKey) (mac : MacAddr) (d : Datagram) : Prop :=
  match op with
  | OpTo e m x => capture_index egress = capture_index e /\ mac = m /\ d = x
  | OpGroup e x => capture_index egress = capture_index e /\ d = x /\ exists broadcast, ethernet_dst (ip (dg_dst x)) broadcast = Ok mac
  | OpPeers e peers x => capture_index egress = capture_index e /\ mac = mac_broadcast /\ exists peer, peer ∈ peers /\ d = copy_to peer x
  end.
Definition sends_of (ops : list SendOp) (egress : CaptureKey) (h : Z) : Prop :=
  exists op mac d, op ∈ ops /\ op_sends op egress mac d /\ h = digest mac d.

Lemma steady_send_op ops op : op ∈ ops -> steady (sends_of ops) (send_op op).
Proof.
  intros Hin. destruct op; cbn [send_op].
  - apply steady_send_udp. intros c Hc. exists (OpTo egress mac d), mac, d. by split_and!.
  - apply steady_send_udp_group. intros b mac E c Hc. exists (OpGroup egress d), mac, d. split_and!; [done|by split_and!; [| |exists b]|done].
  - apply steady_send_udp_to_peers. intros peer Hp c Hc. exists (OpPeers egress peers d), mac_broadcast, (copy_to peer d).
    split_and!; [done|by split_and!; [| |exists peer]|done].
Qed.

(** A send without the check whether it went out already. *)
Definition send_afresh (egress : CaptureKey) (mac : MacAddr) (d : Datagram) : M (Sending W) IoError () :=
  frames ← plan egress mac d;
  match frames with Some frames => transmit egress frames (digest mac d) | None => mret () end.

(** A send that succeeds on an egress at hand is on record. *)
Lemma send_udp_records egress mac d s s' c a :
  eg_routing (sd_egress s) = true -> capture (sd_table s) egress = Some c -> egress_addrs (sd_table s) egress = Some a ->
  send_udp egress mac d s = (Ok (), s') -> already_sent egress (digest mac d) s' = true.
Proof.
  intros Hr Hc Ha. unfold send_udp, gets, mbind at 1, M_bind. destruct (already_sent egress (digest mac d) s) eqn:Hs.
  { unfold mret, M_ret. by intros [= <-]. }
  pose proof (steady_plan (fun _ _ => False) egress mac d s) as Hst. unfold mbind at 1, M_bind.
  assert (Hplan : forall s1, plan egress mac d s <> (Ok None, s1)).
  { intros s1. unfold plan, gets, mbind, M_bind. rewrite Ha, Hc. cbn [fmap option_fmap option_map].
    destruct (ifindex_of _ _); [|done]. unfold modify, lift. by destruct (build_udp _ _ _ _ _ _ _ _ _). }
  assert (Htab : sd_table (plan egress mac d s).2 = sd_table s).
  { unfold plan, gets, mbind, M_bind. rewrite Ha, Hc. cbn [fmap option_fmap option_map]. by destruct (ifindex_of _ _). }
  destruct (plan egress mac d s) as [[[f|]|e|] s1]; [|by destruct (Hplan s1)|done..]. cbn [snd] in Hst, Htab.
  unfold transmit, mbind, M_bind.
  destruct (for_each (transmit_frame egress f) (seq 0 (count f)) s1) as [[[]|e|] s2] eqn:Ef; [|done..].
  assert (Hst2 : sd_table s2 = sd_table s1 /\ eg_routing (sd_egress s2) = eg_routing (sd_egress s1)).
  { pose proof (frames_keep_table egress f (seq 0 (count f)) s1) as H2. by rewrite Ef in H2. }
  destruct Hst2 as [T2 R2]. unfold modify. rewrite R2, (rm_routing _ _ _ Hst), Hr. intros [= <-].
  unfold already_sent. cbn [sd_set_table sd_egress sd_table]. rewrite R2, (rm_routing _ _ _ Hst), Hr. cbn [andb].
  apply was_sent_record. rewrite T2, Htab. unfold capture in Hc. by destruct (_ !! _).
Qed.

Lemma send_ops_remembers all ops s : ops ⊆ all -> remembers (sends_of all) s (send_ops ops s).
Proof.
  revert s. induction ops as [|op ops IH]; intros s Hall; [done|]. cbn [send_ops foldl].
  etrans; [|apply IH; set_solver]. apply steady_send_op. set_solver.
Qed.

Lemma already_sent_remembered P s s' egress h :
  remembers P s s' -> already_sent egress h s = true -> already_sent egress h s' = true.
Proof.
  intros [Hp R Hs _ _]. unfold already_sent. rewrite Hp, R. intros [-> Hw]%andb_true_iff. cbn [andb]. auto.
Qed.
Lemma already_sent_only P s s' egress h :
  remembers P s s' -> already_sent egress h s' = true -> already_sent egress h s = true \/ P egress h.
Proof.
  intros [Hp R _ Ho _]. unfold already_sent. rewrite Hp, R. intros [-> Hw]%andb_true_iff. cbn [andb]. auto.
Qed.

(** C13. While a packet is routed, a datagram that went out on an egress goes out
    there no more, and any other does: after any sends, to whatever destinations
    and however they end, sending it again asks the kernel nothing, changes
    nothing and succeeds, whether it is sent as such or as a peer's copy; and a
    datagram not on record before, and with another digest than each of those
    sent on that egress, does not count as sent and is sent as if nothing had
    been. When the next packet is routed nothing counts as sent. *)
Theorem sent_once_per_packet egress mac d s s' ops :
  eg_routing (sd_egress s) = true -> is_Some (capture (sd_table s) egress) -> is_Some (egress_addrs (sd_table s) egress) ->
  send_udp egress mac d s = (Ok (), s') ->
  let s1 := send_ops ops s' in
  send_udp egress mac d s1 = (Ok (), s1) /\
  (mac = mac_broadcast -> send_udp_to_peers egress [ip (dg_dst d)] d s1 = (Ok (), s1)) /\
  (forall mac' d', already_sent egress (digest mac' d') s = false -> ~ sends_of (OpTo egress mac d :: ops) egress (digest mac' d') ->
   already_sent egress (digest mac' d') s1 = false /\ send_udp egress mac' d' s1 = send_afresh egress mac' d' s1) /\
  (numbered (eg_packet (sd_egress s)) (sd_table s) -> eg_packet (sd_egress s) < 2 ^ 64 - 1 -> 0 <= eg_packet (sd_egress s) ->
   forall c h, already_sent c h (sd_set_egress s1 (begin_packet (sd_egress s1))) = false).
Proof.
  intros Hr [c Hc] [a Ha] Hsend s1. set (all := OpTo egress mac d :: ops).
  pose proof (send_ops_remembers all ops s' ltac:(set_solver)) as Hops.
  pose proof (steady_send_op all (OpTo egress mac d) ltac:(set_solver) s) as H1. cbn [send_op] in H1. rewrite Hsend in H1. cbn [snd] in H1.
  assert (Hsent : already_sent egress (digest mac d) s1 = true).
  { eapply already_sent_remembered; [exact Hops|]. by eapply send_udp_records. }
  pose proof (transitivity H1 Hops) as Hall. split_and!.
  - unfold send_udp, gets, mbind, M_bind. by rewrite Hsent.
  - intros ->. unfold send_udp_to_peers. cbn [List.filter]. rewrite bool_decide_eq_true_2 by done. cbn [send_to_each].
    assert ({| dg_dst := {| ip := ip (dg_dst d); port := port (dg_dst d) |}; dg_source := dg_source d;
               dg_ttl := dg_ttl d; dg_payload := dg_payload d |} = d) as -> by (by destruct d as [[]]).
    unfold gets, mbind, M_bind. by rewrite Hsent.
  - intros mac' d' Hno Hnot. assert (Hf : already_sent egress (digest mac' d') s1 = false).
    { apply not_true_is_false. intros Ht. destruct (already_sent_only _ _ _ _ _ Hall Ht); [congruence|done]. }
    split; [done|]. unfold send_udp, gets, mbind at 1, M_bind at 1. by rewrite Hf.
  - subst s1. intros Hn Hlt Hnn c' h. destruct Hall as [Hp _ _ _ N]. specialize (N Hn).
    unfold already_sent, was_sent. cbn [sd_set_egress sd_egress sd_table begin_packet eg_routing eg_packet andb].
    destruct (it_captures _ !! _) as [e|] eqn:Ee; [|done]. unfold numbered in N. rewrite Forall_lookup in N.
    specialize (N _ _ Ee). rewrite Hp, Z.mod_small by lia. by replace (_ =? _) with false by lia.
Qed.
End once.

(** ** Witnesses *)

Definition ex_host : Host :=
  {| platform := {| af_inet := 2; af_inet6 := 10; little_endian := true |};
     digest := fun mac d => Z.of_nat (length (dg_payload d)) |}.

(** A bound interface with one capture, while a packet is routed. *)
Definition ex_bound : InterfaceTable :=
  {| it_entries := [{| ie_interface := {| if_name := {| if_str := bs "eth0" |}; if_addrs := rd_addrs quiet_reading;
                                          if_mtu := Some 1500; if_loopback := false |};
                       ie_presence := Present 1; ie_memberships := None |}];
     it_captures := [{| ce_capture := Some {| cap_fd := 4; cap_link := Ethernet; cap_batch := [] |}; ce_interface := 0;
                        ce_counters := Counters.counters_zero; ce_sent_packet := 0; ce_sent := [] |}];
     it_join_groups := false |}.
Definition ex_sending {W} (w : W) : Sending W :=
  {| sd_egress := begin_packet (egress_new 7); sd_table := ex_bound; sd_world := w |}.
Definition ex_datagram : Datagram :=
  {| dg_dst := {| ip := V4 (Ipv4.new 224 0 0 251); port := 5353 |}; dg_source := FromEgress 5353; dg_ttl := 255;
     dg_payload := replicate 12 0 |}.

Lemma ex_sending_ok {W} (w : W) : sending_ok (ex_sending w).
Proof.
  split; [by vm_compute|by vm_compute|]. constructor; [|constructor]. cbn. split_and!; [by intros m [= <-]| |done|done|by intros p [= <-]].
  intros v4 [= <-]. by vm_compute.
Qed.
Lemma ex_datagram_ok : datagram_ok ex_datagram.
Proof. split_and!; [by split; vm_compute|by vm_compute|by vm_compute|]. repeat constructor; done. Qed.

Lemma datagram_handed_over_witness :
  exists s' sent, send_udp (H:=logging quiet_kernel) (H0:=ex_host) {| ck_index := 0 |} (multicast_for (V4 (Ipv4.new 224 0 0 251)))
    ex_datagram (ex_sending ((), [])) = (Ok (), s') /\ frames_log s' = [sent] /\
    match parse Ethernet sent.2 with Ok (Packet.Datagram p) => pk_payload p = replicate 12 0 | _ => False end.
Proof.
  pose proof (datagram_handed_over quiet_kernel (H:=ex_host) {| ck_index := 0 |} (multicast_for (V4 (Ipv4.new 224 0 0 251)))
    ex_datagram (ex_sending ((), [])) (ex_sending_ok _) eq_refl ex_datagram_ok) as H.
  assert (Hr : (send_udp (H:=logging quiet_kernel) (H0:=ex_host) {| ck_index := 0 |}
    (multicast_for (V4 (Ipv4.new 224 0 0 251))) ex_datagram (ex_sending ((), []))).1 = Ok ()) by (vm_compute; reflexivity).
  destruct (send_udp _ _ _ _) as [r s']. destruct H as [_ H].
  cbn [fst] in Hr. subst r. destruct H as [(_&[Hs|[Hs|Hs]])|(Hh&_)]; [vm_compute in Hs; discriminate Hs..|].
  destruct Hh as (c&a&f&p&sent&Hc&Ha&[L1 _ _ L4 _ L6]&Hsrc&Hlog&Hall).
  assert (c = {| cap_fd := 4; cap_link := Ethernet; cap_batch := [] |}) as -> by (vm_compute in Hc; congruence).
  exists s'.
  assert (Hf : count f = 1%nat /\ uf_fragmented f = false).
  { destruct L4 as (p'&_&Had&Hu). destruct (udp_frames_Ok _ _ _ _ _ _ _ Had Hu) as (Hwf&_&_&_).
    destruct (uf_fragmented f) eqn:Ef; [|split; [|done]].
    - destruct (wf_fragmented _ _ Hwf Ef) as (_&_&Hlt). exfalso. unfold datagram_len in Hlt. rewrite L6 in Hlt.
      revert Hlt. vm_compute (frame_mtu _). destruct (uf_ip f); cbn; lia.
    - unfold count. rewrite (proj1 (wf_whole _ _ Hwf Ef)). unfold datagram_len. rewrite L6. reflexivity. }
  destruct Hf as [Hc1 Hfr]. rewrite Hc1 in Hall. cbn [seq] in Hall.
  apply Forall2_cons_inv_l in Hall as (x&xs&[_ Hx]&Hnil&->). apply Forall2_nil_inv_l in Hnil as ->.
  exists x. split; [done|]. split; [exact Hlog|]. cbn [cap_link] in Hx. rewrite Hx. unfold frames_parsed. rewrite Hfr. exact L6.
Defined.

Definition ex_other : Datagram :=
  {| dg_dst := dg_dst ex_datagram; dg_source := dg_source ex_datagram; dg_ttl := 255; dg_payload := replicate 5 0 |}.

Lemma sent_once_per_packet_witness :
  let send := send_udp (H:=quiet_kernel) (H0:=ex_host) {| ck_index := 0 |} mac_broadcast ex_datagram in
  let s1 := send_ops (H:=quiet_kernel) (H0:=ex_host) [OpGroup {| ck_index := 0 |} ex_datagram] (send (ex_sending ())).2 in
  send s1 = (Ok (), s1) /\ already_sent {| ck_index := 0 |} (digest (Host:=ex_host) mac_broadcast ex_other) s1 = false.
Proof.
  intros send s1. assert (Hs : send (ex_sending ()) = (Ok (), (send (ex_sending ())).2)).
  { rewrite (surjective_pairing (send (ex_sending ()))). assert ((send (ex_sending ())).1 = Ok ()) as -> by (vm_compute; reflexivity). reflexivity. }
  pose proof (sent_once_per_packet (H:=quiet_kernel) (H0:=ex_host) {| ck_index := 0 |} mac_broadcast ex_datagram (ex_sending ()) _ [OpGroup {| ck_index := 0 |} ex_datagram]
    eq_refl ltac:(eexists; reflexivity) ltac:(eexists; reflexivity) Hs) as (H1&_&H3&_).
  split; [exact H1|]. apply (H3 mac_broadcast ex_other); [vm_compute; reflexivity|].
  intros (op&m&d&Hin&Ho&E). apply elem_of_cons in Hin as [-> | Hin%list_elem_of_singleton]; [|subst op].
  - destruct Ho as (_&_&->). vm_compute in E. discriminate E.
  - destruct Ho as (_&->&_). vm_compute in E. discriminate E.
Defined.
