(* ===== verification/Reactor.v ===== *)
(** The single-threaded reactor ([src/reactor.rs]): handlers and watched fds in
    generational arenas, dispatched against I/O readiness, deadlines and control
    requests.  It is generic in the handlers: [Handler] is their interface. *)

From S2P Require Import Prelude Effect Text Addr Names Interface Kernel Multicast Arena.

Local Open Scope Z_scope.

Record Readiness : Type := { readable : bool; writable : bool }.
Record ReadyEvent : Type := { ev_fd : Z; ev_user_data : Z }.
Inductive ControlEvent : Type := Dump.

(** [HandlerEntry]: the handler is [None] only while it is out for a call. *)
Record HandlerEntry (H : Type) : Type := { he_handler : option H; he_regs : list Key }.
Arguments he_handler {H} _.
Arguments he_regs {H} _.
Arguments Build_HandlerEntry {H} _ _.

#[export] Instance handler_entry_slot H : HandlerSlot (HandlerEntry H) H := {
  handler_slot := he_handler;
  set_slot := fun h e => {| he_handler := h; he_regs := he_regs e |};
  slot_set_slot := fun h e => eq_refl;
  set_slot_slot := fun h h' e => eq_refl;
  set_slot_same := fun e => match e with {| he_handler := h; he_regs := r |} => eq_refl end;
}.

(** [Registration] of a watched fd. *)
Record FdRegistration : Type := {
  rg_fd : Z;
  rg_handler : Key;
  rg_read : bool;
  rg_write : bool;
  rg_user_data : Z;
}.

Record Reactor (H : Type) : Type := {
  rt_handlers : Arena (HandlerEntry H);
  rt_registrations : Arena FdRegistration;
  rt_shutdown : bool;
  rt_dump_pending : bool;
}.
Arguments rt_handlers {H} _.
Arguments rt_registrations {H} _.
Arguments rt_shutdown {H} _.
Arguments rt_dump_pending {H} _.

Definition reactor_new H : Reactor H :=
  {| rt_handlers := arena_new; rt_registrations := arena_new; rt_shutdown := false; rt_dump_pending := false |}.

(** [Poller]: the kernel's interest in the watched fds.  A wait returns the
    events that are then taken one by one. *)
Class Poller (W : Type) : Type := {
  poll_add : Z -> Key -> W -> io () * W;
  poll_remove : Z -> W -> io () * W;
  poll_set_interest : Z -> Key -> bool -> bool -> W -> io () * W;
  poll_wait : option Z -> W -> io (list (Key * Readiness)) * W;
}.

(** A reactor and the world it runs in. *)
Record RState (H W : Type) : Type := { rs_reactor : Reactor H; rs_world : W }.
Arguments rs_reactor {H W} _.
Arguments rs_world {H W} _.

(** [trait Handler]: [Handler::adopt_key], and the calls, which return the
    handler they were made on, changed. *)
Class Adopt (H : Type) : Type := adopt_key : Key -> H -> H.
Class Handler (H W : Type) : Type := {
  on_readable : ReadyEvent -> H -> M (RState H W) Infallible H;
  on_writable : ReadyEvent -> H -> M (RState H W) Infallible H;
  handler_deadline : H -> option Z;
  on_deadline : Z -> H -> M (RState H W) Infallible H;
  on_control : ControlEvent -> H -> M (RState H W) Infallible H;
}.

Section reactor.
Context {H W : Type}.
Implicit Types s : RState H W.

Definition set_handlers (a : Arena (HandlerEntry H)) s : RState H W :=
  {| rs_reactor := {| rt_handlers := a; rt_registrations := rt_registrations (rs_reactor s);
                      rt_shutdown := rt_shutdown (rs_reactor s); rt_dump_pending := rt_dump_pending (rs_reactor s) |};
     rs_world := rs_world s |}.
Definition set_registrations (a : Arena FdRegistration) s : RState H W :=
  {| rs_reactor := {| rt_handlers := rt_handlers (rs_reactor s); rt_registrations := a;
                      rt_shutdown := rt_shutdown (rs_reactor s); rt_dump_pending := rt_dump_pending (rs_reactor s) |};
     rs_world := rs_world s |}.
Definition set_flags (shutdown dump : bool) s : RState H W :=
  {| rs_reactor := {| rt_handlers := rt_handlers (rs_reactor s); rt_registrations := rt_registrations (rs_reactor s);
                      rt_shutdown := shutdown; rt_dump_pending := dump |};
     rs_world := rs_world s |}.
Definition handlers_of s : Arena (HandlerEntry H) := rt_handlers (rs_reactor s).
Definition registrations_of s : Arena FdRegistration := rt_registrations (rs_reactor s).

(** A call of the environment. *)
Definition call {A} (f : W -> io A * W) : M (RState H W) IoError A := fun s =>
  let '(r, w) := f (rs_world s) in
  (match r with inr a => Ok a | inl e => Err e end, {| rs_reactor := rs_reactor s; rs_world := w |}).

(** [Reactor::is_registered] *)
Definition is_registered (r : Reactor H) (k : Key) : bool := contains (rt_handlers r) k.

(** [request_shutdown] and [request_dump] *)
Definition request_shutdown s : RState H W := set_flags true (rt_dump_pending (rs_reactor s)) s.
Definition request_dump s : RState H W := set_flags (rt_shutdown (rs_reactor s)) true s.

Definition add_reg (k : Key) (e : HandlerEntry H) : HandlerEntry H :=
  {| he_handler := he_handler e; he_regs := he_regs e ++ [k] |}.
Definition drop_reg (k : Key) (e : HandlerEntry H) : HandlerEntry H :=
  {| he_handler := he_handler e; he_regs := List.filter (fun r => negb (bool_decide (r = k))) (he_regs e) |}.
Definition with_write (b : bool) (r : FdRegistration) : FdRegistration :=
  {| rg_fd := rg_fd r; rg_handler := rg_handler r; rg_read := rg_read r; rg_write := b; rg_user_data := rg_user_data r |}.
Definition with_read (b : bool) (r : FdRegistration) : FdRegistration :=
  {| rg_fd := rg_fd r; rg_handler := rg_handler r; rg_read := b; rg_write := rg_write r; rg_user_data := rg_user_data r |}.

Context `{Poller W} `{Adopt H}.

(** [Reactor::register] *)
Definition register (h : H) : M (RState H W) IoError Key :=
  a ← gets handlers_of;
  '(k, a) ← lift (insert_from a (fun k => {| he_handler := Some (adopt_key k h); he_regs := [] |}));
  _ ← modify (set_handlers a);
  mret k.

(** [Reactor::watch] *)
Definition watch (handler_key : Key) (fd user_data : Z) : M (RState H W) IoError Key :=
  handlers ← gets handlers_of;
  registrations ← gets registrations_of;
  if negb (contains handlers handler_key) then fail OtherError
  else if existsb (fun x => rg_fd x.2 =? fd) (iter registrations) then fail OtherError
  else
    '(reg_key, registrations) ← lift (arena_insert registrations
      {| rg_fd := fd; rg_handler := handler_key; rg_read := true; rg_write := false; rg_user_data := user_data |});
    _ ← modify (set_registrations registrations);
    r ← attempt (call (poll_add fd reg_key));
    match r with
    | inl e =>
        _ ← modify (fun s => match remove (registrations_of s) reg_key with
                             | Some (_, a) => set_registrations a s
                             | None => s
                             end);
        fail e
    | inr () =>
        _ ← modify (fun s => set_handlers (get_mut (handlers_of s) handler_key (add_reg reg_key)) s);
        mret reg_key
    end.

(** [Reactor::unwatch] *)
Definition unwatch (reg_key : Key) : M (RState H W) IoError bool :=
  registrations ← gets registrations_of;
  match remove registrations reg_key with
  | None => mret false
  | Some (registration, registrations) =>
      _ ← modify (set_registrations registrations);
      _ ← modify (fun s => set_handlers (get_mut (handlers_of s) (rg_handler registration) (drop_reg reg_key)) s);
      _ ← call (poll_remove (rg_fd registration));
      mret true
  end.

(** The loop of [Reactor::unregister] over the fds of the handler: the first failure. *)
Fixpoint unwatch_all (regs : list Key) (first_err : option IoError) : M (RState H W) IoError (option IoError) :=
  match regs with
  | [] => mret first_err
  | reg_key :: regs =>
      registrations ← gets registrations_of;
      match remove registrations reg_key with
      | None => unwatch_all regs first_err
      | Some (registration, registrations) =>
          _ ← modify (set_registrations registrations);
          r ← attempt (call (poll_remove (rg_fd registration)));
          unwatch_all regs (match first_err, r with
                            | Some e, _ => Some e
                            | None, inl e => Some e
                            | None, inr () => None
                            end)
      end
  end.
(** [Reactor::unregister] *)
Definition unregister (handler_key : Key) : M (RState H W) IoError bool :=
  handlers ← gets handlers_of;
  match remove handlers handler_key with
  | None => mret false
  | Some (entry, handlers) =>
      _ ← modify (set_handlers handlers);
      first_err ← unwatch_all (he_regs entry) None;
      match first_err with Some e => fail e | None => mret true end
  end.

(** The loop of [Reactor::register_with_fds] *)
Fixpoint watch_all (handler_key : Key) (fds : list (Z * Z)) : M (RState H W) IoError () :=
  match fds with
  | [] => mret ()
  | (fd, user_data) :: fds =>
      r ← attempt (watch handler_key fd user_data);
      match r with
      | inl e => _ ← attempt (E' := IoError) (unregister handler_key); fail e
      | inr _ => watch_all handler_key fds
      end
  end.
(** [Reactor::register_with_fds] *)
Definition register_with_fds (h : H) (fds : list (Z * Z)) : M (RState H W) IoError Key :=
  handler_key ← register h;
  _ ← watch_all handler_key fds;
  mret handler_key.

(** [Reactor::set_write_interest] and [set_read_interest] *)
Definition set_write_interest (reg_key : Key) (enabled : bool) : M (RState H W) IoError bool :=
  registrations ← gets registrations_of;
  match get registrations reg_key with
  | None => mret false
  | Some registration =>
      if bool_decide (rg_write registration = enabled) then mret true
      else
        _ ← call (poll_set_interest (rg_fd registration) reg_key (rg_read registration) enabled);
        _ ← modify (fun s => set_registrations (get_mut (registrations_of s) reg_key (with_write enabled)) s);
        mret true
  end.
Definition set_read_interest (reg_key : Key) (enabled : bool) : M (RState H W) IoError bool :=
  registrations ← gets registrations_of;
  match get registrations reg_key with
  | None => mret false
  | Some registration =>
      _ ← call (poll_set_interest (rg_fd registration) reg_key enabled (rg_write registration));
      _ ← modify (fun s => set_registrations (get_mut (registrations_of s) reg_key (with_read enabled)) s);
      mret true
  end.

(** ** Dispatch *)

Context `{Handler H W}.

(** A call of a handler taken out of its slot, which is put back after it. *)
Definition with_handler (key : Key) (f : H -> M (RState H W) Infallible H) : M (RState H W) Infallible () :=
  handlers ← gets handlers_of;
  match take_handler handlers key with
  | (None, _) => mret ()
  | (Some handler, handlers) =>
      _ ← modify (set_handlers handlers);
      handler ← f handler;
      modify (fun s => set_handlers (restore_handler (handlers_of s) key handler) s)
  end.

(** [Reactor::dispatch] *)
Definition dispatch (reg_key : Key) (readiness : Readiness) : M (RState H W) Infallible () :=
  registrations ← gets registrations_of;
  match get registrations reg_key with
  | None => mret ()
  | Some registration =>
      let event := {| ev_fd := rg_fd registration; ev_user_data := rg_user_data registration |} in
      with_handler (rg_handler registration) (fun handler =>
        handler ← (if readable readiness then on_readable event handler else mret handler);
        registrations ← gets registrations_of;
        if writable readiness && match get registrations reg_key with Some r => rg_write r | None => false end
        then on_writable event handler else mret handler)
  end.

(** [Reactor::next_deadline] *)
Definition reactor_deadline s : option Z :=
  min_instant (omap (fun x => handler_deadline x.2) (handlers (handlers_of s))).

(** [Reactor::dispatch_deadlines], on a snapshot of the due handlers. *)
Definition dispatch_deadlines (now : Z) : M (RState H W) Infallible () :=
  a ← gets handlers_of;
  let due := omap (fun x => match handler_deadline x.2 with
                            | Some d => if d <=? now then Some x.1 else None
                            | None => None
                            end) (handlers a) in
  for_each (fun key => with_handler key (on_deadline now)) due.

(** [Reactor::dispatch_control] *)
Definition dispatch_control (event : ControlEvent) : M (RState H W) Infallible () :=
  a ← gets handlers_of;
  for_each (fun key => with_handler key (on_control event)) (iter a).*1.

(** [Reactor::poll_once]: [None] when the wait failed. *)
Definition poll_once (timeout : option Z) : M (RState H W) Infallible (option IoError) :=
  r ← attempt (call (poll_wait timeout));
  match r with
  | inl e => mret (Some e)
  | inr events => _ ← for_each (fun x => dispatch x.1 x.2) events; mret None
  end.

(** One turn of [Reactor::run_loop]: whether it goes on. *)
Definition run_turn `{Kernel W} : M (RState H W) Infallible (option IoError) :=
  deadline ← gets reactor_deadline;
  now ← update (fun s => let '(now, w) := clock (rs_world s) in (now, {| rs_reactor := rs_reactor s; rs_world := w |}));
  failed ← poll_once ((fun d => Z.max 0 (d - now)) <$> deadline);
  match failed with
  | Some e => mret (Some e)
  | None =>
      dump ← gets (fun s => rt_dump_pending (rs_reactor s));
      _ ← (if dump : bool
           then _ ← modify (fun s => set_flags (rt_shutdown (rs_reactor s)) false s); dispatch_control Dump
           else mret ());
      now ← update (fun s => let '(now, w) := clock (rs_world s) in (now, {| rs_reactor := rs_reactor s; rs_world := w |}));
      _ ← (if match deadline with Some d => d <=? now | None => false end then dispatch_deadlines now else mret ());
      mret None
  end.
End reactor.
