(* ===== verification/ReactorSpec.v ===== *)
(** What the reactor keeps: every watched fd belongs to a live handler that
    lists it, no fd is watched twice, and a handler that goes takes its fds and
    their kernel interest along. *)

From S2P Require Import Prelude Effect Text Addr Names Interface Kernel Arena Reactor.

Local Open Scope Z_scope.

Section spec.
Context {H W : Type}.
Implicit Types (r : Reactor H) (s : RState H W).

Record reactor_ok r : Prop := {
  ro_handlers : arena_wf (rt_handlers r);
  ro_registrations : arena_wf (rt_registrations r);
  ro_owned : forall rk reg, 0 <= index rk -> get (rt_registrations r) rk = Some reg ->
    0 <= index (rg_handler reg) /\ exists e, get (rt_handlers r) (rg_handler reg) = Some e /\ rk ∈ he_regs e;
  ro_listed : forall hk e, 0 <= index hk -> get (rt_handlers r) hk = Some e ->
    NoDup (he_regs e) /\
    forall rk, rk ∈ he_regs e -> 0 <= index rk /\ exists reg, get (rt_registrations r) rk = Some reg /\ rg_handler reg = hk;
  ro_fds : forall k k' reg reg', 0 <= index k -> 0 <= index k' ->
    get (rt_registrations r) k = Some reg -> get (rt_registrations r) k' = Some reg' -> rg_fd reg = rg_fd reg' -> k = k';
}.

(** An arena whose index space is used up. *)
Definition exhausted r : Prop :=
  Z.of_nat (length (slots (rt_handlers r))) = 2 ^ 32 \/ Z.of_nat (length (slots (rt_registrations r))) = 2 ^ 32.

Lemma reactor_new_ok : reactor_ok (reactor_new H).
Proof.
  split; [apply arena_new_wf..| | |]; cbn.
  all: intros *; unfold get, slot; cbn; try done.
Qed.

Lemma register_inv (r : Reactor H) k handlers make :
  reactor_ok r -> insert_from (E:=IoError) (rt_handlers r) make = Ok (k, handlers) -> he_regs (make k) = [] ->
  key_ok k /\ reactor_ok {| rt_handlers := handlers; rt_registrations := rt_registrations r;
                            rt_shutdown := rt_shutdown r; rt_dump_pending := rt_dump_pending r |}.
Proof.
  intros [H1 H2 H3 H4 H5] E Hnil. destruct (get_insert_from _ _ _ _ H1 E) as (Hwf&Hk&Hn&Hg). split; [done|].
  split; cbn [rt_handlers rt_registrations]; [done|done| | |done].
  - intros rk reg Hrk Hreg. destruct (H3 _ _ Hrk Hreg) as (Hi&e&He&Hin). split; [done|]. exists e.
    rewrite Hg by done. case_decide; [congruence|done].
  - intros hk e Hhk. rewrite Hg by done. case_decide as Hd; [|auto]. intros [= <-]. rewrite Hnil. split; [constructor|].
    by intros rk ?%not_elem_of_nil.
Qed.

(** Removing the registration [rk] from its arena and its owner's list. *)
Lemma unwatch_inv (r : Reactor H) rk reg registrations :
  reactor_ok r -> 0 <= index rk -> remove (rt_registrations r) rk = Some (reg, registrations) ->
  reactor_ok {| rt_handlers := get_mut (rt_handlers r) (rg_handler reg) (drop_reg rk); rt_registrations := registrations;
                rt_shutdown := rt_shutdown r; rt_dump_pending := rt_dump_pending r |}.
Proof.
  intros [H1 H2 H3 H4 H5] Hrk E. destruct (get_remove _ _ _ _ H2 Hrk E) as (Hwf&Hreg&Hg).
  destruct (H3 _ _ Hrk Hreg) as (Hown&e0&He0&Hin0).
  split; cbn [rt_handlers rt_registrations]; [by apply get_mut_wf|done| | |].
  - intros k reg' Hk. rewrite Hg by done. case_decide as Hd; [done|]. intros Hreg'.
    destruct (H3 _ _ Hk Hreg') as (Hi&e&He&Hin). split; [done|]. rewrite get_get_mut by done.
    case_decide as Hh; [|by exists e]. rewrite Hh in He. rewrite He. exists (drop_reg rk e). split; [done|].
    cbn. apply list_elem_of_In, filter_In. split; [by apply list_elem_of_In|]. by rewrite bool_decide_eq_false_2.
  - intros hk e Hhk. rewrite get_get_mut by done. case_decide as Hd.
    + subst hk. intros (e'&He'&->)%fmap_Some. destruct (H4 _ _ Hhk He') as [Hnd Hall]. cbn [drop_reg he_regs]. split.
      * apply NoDup_ListNoDup, List.NoDup_filter. by apply NoDup_ListNoDup.
      * intros k Hk. apply list_elem_of_In, filter_In in Hk as [Hk Hb]. apply list_elem_of_In in Hk.
        destruct (Hall _ Hk) as (Hki&reg'&Hreg'&Ho). split; [done|]. exists reg'. split; [|done].
        rewrite Hg by done. rewrite decide_False; [done|]. intros ->. by rewrite bool_decide_eq_true_2 in Hb.
    + intros He. destruct (H4 _ _ Hhk He) as [Hnd Hall]. split; [done|]. intros k Hk.
      destruct (Hall _ Hk) as (Hki&reg'&Hreg'&Ho). split; [done|]. exists reg'. split; [|done].
      rewrite Hg by done. rewrite decide_False; [done|]. intros ->. congruence.
  - intros k k' reg1 reg2 Hk Hk'. rewrite !Hg by done. case_decide; [done|]. case_decide; [done|]. by apply H5.
Qed.

(** Adding a registration of a new fd for a live handler. *)
Lemma watch_inv (r : Reactor H) rk hk reg registrations :
  reactor_ok r -> 0 <= index hk -> is_Some (get (rt_handlers r) hk) -> rg_handler reg = hk ->
  (forall k reg', 0 <= index k -> get (rt_registrations r) k = Some reg' -> rg_fd reg' <> rg_fd reg) ->
  arena_insert (E:=IoError) (rt_registrations r) reg = Ok (rk, registrations) ->
  reactor_ok {| rt_handlers := get_mut (rt_handlers r) hk (add_reg rk); rt_registrations := registrations;
                rt_shutdown := rt_shutdown r; rt_dump_pending := rt_dump_pending r |}.
Proof.
  intros [H1 H2 H3 H4 H5] Hhk [e0 He0] Hreg Hfd E. unfold arena_insert in E.
  destruct (get_insert_from _ _ _ _ H2 E) as (Hwf&[[Hrk _] _]&Hn&Hg).
  split; cbn [rt_handlers rt_registrations]; [by apply get_mut_wf|done| | |].
  - intros k reg' Hk. rewrite Hg by done. case_decide as Hd.
    + intros [= <-]. subst k. rewrite Hreg. split; [done|]. rewrite get_get_mut, decide_True by done. rewrite He0.
      eexists. split; [done|]. cbn. apply elem_of_app. right. by left.
    + intros Hreg'. destruct (H3 _ _ Hk Hreg') as (Hi&e&He&Hin). split; [done|]. rewrite get_get_mut by done.
      case_decide as Hh; [|by exists e]. rewrite Hh in He. rewrite He. eexists. split; [done|]. cbn. apply elem_of_app. by left.
  - intros k e Hk. rewrite get_get_mut by done. case_decide as Hd.
    + subst k. rewrite He0. intros [= <-]. destruct (H4 _ _ Hhk He0) as [Hnd Hall]. cbn [add_reg he_regs]. split.
      * apply NoDup_app. split_and!; [done| |apply NoDup_singleton]. intros k Hin ->%list_elem_of_singleton.
        destruct (Hall _ Hin) as (_&reg'&Hreg'&_). congruence.
      * intros k [Hin| ->%list_elem_of_singleton]%elem_of_app.
        -- destruct (Hall _ Hin) as (Hki&reg'&Hreg'&Ho). split; [done|]. exists reg'. rewrite Hg by done.
           rewrite decide_False; [done|]. intros ->. congruence.
        -- split; [done|]. exists reg. rewrite Hg, decide_True by done. done.
    + intros He. destruct (H4 _ _ Hk He) as [Hnd Hall]. split; [done|]. intros k' Hk'.
      destruct (Hall _ Hk') as (Hki&reg'&Hreg'&Ho). split; [done|]. exists reg'. rewrite Hg by done.
      rewrite decide_False; [done|]. intros ->. congruence.
  - intros k k' reg1 reg2 Hk Hk'. rewrite !Hg by done. case_decide; case_decide; subst; try done.
    + intros [= <-] Hr Hf. by destruct (Hfd _ _ Hk' Hr).
    + intros Hr [= <-] Hf. by destruct (Hfd _ _ Hk Hr).
    + by apply H5.
Qed.

(** An interest flag changes nothing the invariant reads. *)
Lemma interest_inv (r : Reactor H) rk f :
  reactor_ok r -> 0 <= index rk -> (forall reg, rg_fd (f reg) = rg_fd reg /\ rg_handler (f reg) = rg_handler reg) ->
  reactor_ok {| rt_handlers := rt_handlers r; rt_registrations := get_mut (rt_registrations r) rk f;
                rt_shutdown := rt_shutdown r; rt_dump_pending := rt_dump_pending r |}.
Proof.
  intros [H1 H2 H3 H4 H5] Hrk Hf.
  assert (Hget : forall k reg, 0 <= index k -> get (get_mut (rt_registrations r) rk f) k = Some reg ->
    exists reg', get (rt_registrations r) k = Some reg' /\ rg_fd reg = rg_fd reg' /\ rg_handler reg = rg_handler reg').
  { intros k reg Hk. rewrite get_get_mut by done. case_decide as Hd; [|eauto]. subst.
    intros (reg'&Hr&->)%fmap_Some. exists reg'. split; [done|]. apply Hf. }
  split; cbn [rt_handlers rt_registrations]; [done|by apply get_mut_wf| | |].
  - intros k reg Hk Hr. destruct (Hget _ _ Hk Hr) as (reg'&Hr'&_&->). by apply H3.
  - intros hk e Hhk He. destruct (H4 _ _ Hhk He) as [Hnd Hall]. split; [done|]. intros k Hk.
    destruct (Hall _ Hk) as (Hki&reg&Hreg&Ho). split; [done|]. rewrite get_get_mut by done.
    case_decide as Hd; [|eauto]. subst. rewrite Hreg. eexists. split; [done|]. apply Hf.
  - intros k k' reg reg' Hk Hk' Hr Hr' E. destruct (Hget _ _ Hk Hr) as (r1&G1&E1&_).
    destruct (Hget _ _ Hk' Hr') as (r2&G2&E2&_). eapply H5; [..|exact G1|exact G2|congruence]; done.
Qed.

Lemma reactor_ok_ext r r' :
  reactor_ok r -> rt_handlers r' = rt_handlers r -> arena_wf (rt_registrations r') ->
  (forall k, 0 <= index k -> get (rt_registrations r') k = get (rt_registrations r) k) -> reactor_ok r'.
Proof.
  intros [H1 H2 H3 H4 H5] Eh Hwf Hg. split; rewrite ?Eh; try done.
  - intros rk reg Hrk. rewrite Hg by done. auto.
  - intros hk e Hhk He. destruct (H4 _ _ Hhk He) as [Hnd Hall]. split; [done|]. intros k Hk.
    destruct (Hall _ Hk) as (Hki&?). rewrite Hg by done. auto.
  - intros k k' reg reg' Hk Hk'. rewrite !Hg by done. by apply H5.
Qed.

(** What is left of the registrations of a handler that is gone. *)
Record orphans (hk : Key) (regs : list Key) r : Prop := {
  or_handlers : arena_wf (rt_handlers r);
  or_registrations : arena_wf (rt_registrations r);
  or_gone : get (rt_handlers r) hk = None;
  or_left : NoDup regs /\ forall rk, rk ∈ regs ->
    0 <= index rk /\ exists reg, get (rt_registrations r) rk = Some reg /\ rg_handler reg = hk;
  or_owned : forall rk reg, 0 <= index rk -> get (rt_registrations r) rk = Some reg ->
    if decide (rg_handler reg = hk) then rk ∈ regs
    else 0 <= index (rg_handler reg) /\ exists e, get (rt_handlers r) (rg_handler reg) = Some e /\ rk ∈ he_regs e;
  or_listed : forall hk e, 0 <= index hk -> get (rt_handlers r) hk = Some e ->
    NoDup (he_regs e) /\
    forall rk, rk ∈ he_regs e -> 0 <= index rk /\ exists reg, get (rt_registrations r) rk = Some reg /\ rg_handler reg = hk;
  or_fds : forall k k' reg reg', 0 <= index k -> 0 <= index k' ->
    get (rt_registrations r) k = Some reg -> get (rt_registrations r) k' = Some reg' -> rg_fd reg = rg_fd reg' -> k = k';
}.

Lemma orphans_nil hk r : orphans hk [] r -> reactor_ok r.
Proof.
  intros []. split; try done. intros rk reg Hrk Hr. specialize (or_owned0 _ _ Hrk Hr).
  case_decide; [by apply not_elem_of_nil in or_owned0|done].
Qed.

Lemma orphans_intro r hk e handlers :
  reactor_ok r -> 0 <= index hk -> remove (rt_handlers r) hk = Some (e, handlers) ->
  orphans hk (he_regs e) {| rt_handlers := handlers; rt_registrations := rt_registrations r;
                            rt_shutdown := rt_shutdown r; rt_dump_pending := rt_dump_pending r |}.
Proof.
  intros [H1 H2 H3 H4 H5] Hhk E. destruct (get_remove _ _ _ _ H1 Hhk E) as (Hwf&He&Hg).
  split; cbn [rt_handlers rt_registrations]; try done.
  - rewrite Hg by done. by rewrite decide_True.
  - by apply H4.
  - intros rk reg Hrk Hr. destruct (H3 _ _ Hrk Hr) as (Hi&e'&He'&Hin). case_decide as Hd; [congruence|].
    split; [done|]. exists e'. rewrite Hg by done. by rewrite decide_False.
  - intros hk' e' Hhk'. rewrite Hg by done. case_decide; [done|]. auto.
Qed.

Lemma orphans_cons hk rk regs r reg registrations :
  orphans hk (rk :: regs) r -> remove (rt_registrations r) rk = Some (reg, registrations) ->
  orphans hk regs {| rt_handlers := rt_handlers r; rt_registrations := registrations;
                     rt_shutdown := rt_shutdown r; rt_dump_pending := rt_dump_pending r |}.
Proof.
  intros [H1 H2 H3 [Hnd Hleft] H4 H5 H6] E. apply NoDup_cons in Hnd as [Hni Hnd].
  destruct (Hleft rk ltac:(by left)) as (Hrk&reg0&Hr0&Ho0).
  destruct (get_remove _ _ _ _ H2 Hrk E) as (Hwf&Hr&Hg). rewrite Hr0 in Hr. injection Hr as ->.
  split; cbn [rt_handlers rt_registrations]; try done.
  - split; [done|]. intros k Hk. destruct (Hleft k ltac:(by right)) as (Hki&reg'&Hr'&Ho').
    split; [done|]. exists reg'. rewrite Hg by done. rewrite decide_False; [done|]. by intros ->.
  - intros k reg' Hk. rewrite Hg by done. case_decide as Hd; [done|]. intros Hr'. specialize (H4 _ _ Hk Hr').
    case_decide; [|done]. by apply elem_of_cons in H4 as [?|].
  - intros hk' e Hhk' He. destruct (H5 _ _ Hhk' He) as [Hnd' Hall]. split; [done|]. intros k Hk.
    destruct (Hall _ Hk) as (Hki&reg'&Hr'&Ho'). split; [done|]. exists reg'. rewrite Hg by done.
    rewrite decide_False; [done|]. intros ->. rewrite Hr0 in Hr'. injection Hr' as <-. congruence.
  - intros k k' r1 r2 Hk Hk'. rewrite !Hg by done. case_decide; [done|]. case_decide; [done|]. by apply H6.
Qed.

Context `{Poller W} `{Adopt H} `{Handler H W}.

(** The reactor a run leaves; [call] leaves it alone. *)
Lemma call_reactor {A} (f : W -> io A * W) s : rs_reactor (call f s).2 = rs_reactor s /\ (call f s).1 <> Panic.
Proof. unfold call. by destruct (f (rs_world s)) as [[e|a] w]. Qed.

Lemma unwatch_all_ok hk regs err s :
  orphans hk regs (rs_reactor s) ->
  exists e s', unwatch_all regs err s = (Ok e, s') /\ reactor_ok (rs_reactor s') /\
    rt_handlers (rs_reactor s') = rt_handlers (rs_reactor s) /\
    (forall k, 0 <= index k -> get (rt_registrations (rs_reactor s')) k =
       if decide (k ∈ regs) then None else get (rt_registrations (rs_reactor s)) k).
Proof.
  revert err s. induction regs as [|rk regs IH]; intros err s Ho; cbn [unwatch_all].
  { exists err, s. split_and!; [done|by apply orphans_nil in Ho|done|]. intros k _. rewrite decide_False; [done|apply not_elem_of_nil]. }
  unfold gets, mbind at 1, M_bind, registrations_of.
  destruct (or_left _ _ _ Ho) as [Hnd Hleft]. destruct (Hleft rk ltac:(by left)) as (Hrk&reg&Hreg&_).
  destruct (remove (rt_registrations (rs_reactor s)) rk) as [[reg' registrations]|] eqn:E;
    [|apply remove_None in E; congruence].
  pose proof (orphans_cons _ _ _ _ _ _ Ho E) as Ho'. unfold modify, mbind, M_bind, attempt.
  pose proof (call_reactor (poll_remove (rg_fd reg')) (set_registrations registrations s)) as [Hcr Hcp].
  destruct (call _ _) as [r s1]. cbn [fst snd] in Hcr, Hcp.
  assert (Hs1 : orphans hk regs (rs_reactor s1)) by (by rewrite Hcr).
  destruct (get_remove _ _ _ _ (or_registrations _ _ _ Ho) Hrk E) as (_&_&Hg).
  assert (Hfinal : forall err', exists e s', unwatch_all regs err' s1 = (Ok e, s') /\ reactor_ok (rs_reactor s') /\
    rt_handlers (rs_reactor s') = rt_handlers (rs_reactor s) /\
    (forall k, 0 <= index k -> get (rt_registrations (rs_reactor s')) k =
       if decide (k ∈ rk :: regs) then None else get (rt_registrations (rs_reactor s)) k)).
  { intros err'. destruct (IH err' s1 Hs1) as (e&s'&->&Hok&Hh&Hk'). exists e, s'. split_and!; [done|done|by rewrite Hh, Hcr|].
    intros k Hk. rewrite Hk', Hcr by done. cbn [set_registrations rs_reactor rt_registrations]. rewrite Hg by done.
    destruct (decide (k ∈ regs)); [by rewrite decide_True by (by right)|].
    destruct (decide (k = rk)) as [-> |]; [by rewrite decide_True by (by left)|].
    rewrite decide_False; [done|]. by rewrite elem_of_cons; intros [?|?]. }
  destruct r as [[]|e|]; [apply Hfinal..|done].
Qed.

Lemma unregister_ok k s :
  reactor_ok (rs_reactor s) -> 0 <= index k ->
  let '(r, s') := unregister k s in
  r <> Panic /\ reactor_ok (rs_reactor s') /\
  match get (handlers_of s) k with
  | None => r = Ok false /\ s' = s
  | Some e =>
      r <> Ok false /\
      (forall k', 0 <= index k' -> get (handlers_of s') k' = if decide (k' = k) then None else get (handlers_of s) k') /\
      (forall rk, 0 <= index rk -> get (registrations_of s') rk =
         if decide (rk ∈ he_regs e) then None else get (registrations_of s) rk)
  end.
Proof.
  intros Hok Hk. unfold unregister, gets, mbind at 1, M_bind, handlers_of.
  destruct (remove (rt_handlers (rs_reactor s)) k) as [[e handlers]|] eqn:E.
  - destruct (get_remove _ _ _ _ (ro_handlers _ Hok) Hk E) as (_&He&Hg). rewrite He.
    pose proof (orphans_intro _ _ _ _ Hok Hk E) as Ho.
    destruct (unwatch_all_ok k (he_regs e) None (set_handlers handlers s) Ho) as (err&s'&Hu&Hok'&Hh&Hr).
    unfold modify, mbind, M_bind. rewrite Hu. destruct err as [err|].
    + unfold fail, lift. split_and!; [done|done|done| |]; [intros k' Hk'; rewrite Hh; by apply Hg|exact Hr].
    + unfold mret, M_ret. split_and!; [done|done|done| |]; [intros k' Hk'; rewrite Hh; by apply Hg|exact Hr].
  - apply remove_None in E. rewrite E. unfold mret, M_ret. by split_and!.
Qed.

(** Every operation keeps the invariant, or finds an arena used up. *)
Definition keeps {A} (m : M (RState H W) IoError A) : Prop := forall s,
  reactor_ok (rs_reactor s) ->
  match m s with
  | (Panic, s') => exhausted (rs_reactor s')
  | (_, s') => reactor_ok (rs_reactor s')
  end.

Lemma keeps_bind {A B} (m : M (RState H W) IoError A) (f : A -> M (RState H W) IoError B) :
  keeps m -> (forall a, keeps (f a)) -> keeps (m ≫= f).
Proof.
  intros Hm Hf s Hs. specialize (Hm s Hs). unfold mbind, M_bind. destruct (m s) as [[a|e|] s']; [by apply Hf|done..].
Qed.
Lemma keeps_ret {A} (a : A) : keeps (mret a).
Proof. by intros s Hs. Qed.
Lemma keeps_fail {A} e : keeps (A:=A) (fail e).
Proof. by intros s Hs. Qed.

Lemma register_keeps h : keeps (register h).
Proof.
  intros s Hok. unfold register, gets, lift, modify, mbind, M_bind, handlers_of, mret, M_ret.
  pose proof (insert_from_spec (E:=IoError) (rt_handlers (rs_reactor s))
    (fun k => {| he_handler := Some (adopt_key k h); he_regs := [] |}) (ro_handlers _ Hok)) as Hspec.
  destruct (insert_from _ _) as [[k a]|e|] eqn:E; [|done|left; apply Hspec].
  by apply (register_inv (rs_reactor s) k a _ Hok E).
Qed.

Lemma unwatch_keeps rk : 0 <= index rk -> keeps (unwatch rk).
Proof.
  intros Hrk s Hok. unfold unwatch, gets, mbind at 1, M_bind, registrations_of.
  destruct (remove _ _) as [[reg registrations]|] eqn:E; [|done].
  pose proof (unwatch_inv _ _ _ _ Hok Hrk E) as Hok'. unfold modify, mbind, M_bind.
  match goal with |- context [call ?f ?s] => pose proof (call_reactor f s) as [Hcr Hcp]; destruct (call f s) as [r s1] end.
  cbn [fst snd] in Hcr, Hcp. destruct r; [|by rewrite Hcr|done]. unfold mret, M_ret. by rewrite Hcr.
Qed.

Lemma unregister_keeps k : 0 <= index k -> keeps (unregister k).
Proof.
  intros Hk s Hok. pose proof (unregister_ok k s Hok Hk) as Hu. destruct (unregister k s) as [[b|e|] s']; [apply Hu..|].
  by destruct Hu.
Qed.

Lemma watch_keeps k fd user_data : 0 <= index k -> keeps (watch k fd user_data).
Proof.
  intros Hk s Hok. unfold watch, gets. unfold mbind at 1 2, M_bind. unfold handlers_of, registrations_of.
  destruct (contains _ k) eqn:Hc; cbn [negb]; [|done]. apply contains_iff in Hc.
  destruct (existsb _ _) eqn:Hfd; [done|].
  set (reg := {| rg_fd := fd; rg_handler := k; rg_read := true; rg_write := false; rg_user_data := user_data |}).
  assert (Hnew : forall k' reg', 0 <= index k' -> get (rt_registrations (rs_reactor s)) k' = Some reg' -> rg_fd reg' <> rg_fd reg).
  { intros k' reg' Hk' Hr' Efd. apply Is_true_false in Hfd. apply Hfd, Is_true_true, existsb_exists. exists (k', reg').
    split; [by apply list_elem_of_In, elem_of_iter|]. cbn. by apply Z.eqb_eq. }
  pose proof (insert_from_spec (E:=IoError) _ (fun _ => reg) (ro_registrations _ Hok)) as Hspec.
  unfold lift, mbind at 1, M_bind. unfold arena_insert.
  destruct (insert_from (E:=IoError) (rt_registrations (rs_reactor s)) (fun _ => reg)) as [[rk registrations]|e|] eqn:E;
    [|done|right; apply Hspec].
  pose proof (watch_inv (rs_reactor s) rk k reg registrations Hok Hk Hc eq_refl Hnew E) as Hok'.
  destruct (get_insert_from _ _ _ _ (ro_registrations _ Hok) E) as (Hwf&[[Hrk _] _]&Hn&Hg).
  unfold modify, attempt, mbind, M_bind.
  match goal with |- context [call ?f ?s] => pose proof (call_reactor f s) as [Hcr Hcp]; destruct (call f s) as [r s1] end.
  cbn [fst snd] in Hcr, Hcp. destruct r as [[]|e|]; [|clear Hok'|done].
  - unfold mret, M_ret. cbn [set_handlers rs_reactor]. unfold handlers_of. by rewrite Hcr.
  - unfold fail, lift, registrations_of. rewrite Hcr. cbn [set_registrations rs_reactor rt_registrations].
    pose proof (get_remove registrations rk) as Hrm.
    destruct (remove registrations rk) as [[reg' registrations']|] eqn:Er.
    + destruct (Hrm _ _ Hwf Hrk eq_refl) as (Hwf'&_&Hg').
      apply (reactor_ok_ext (rs_reactor s)); [done| |done|].
      * cbn. by rewrite Hcr.
      * intros k' Hk'. cbn. rewrite Hg', Hg by done. case_decide; [by subst|done].
    + apply remove_None in Er. rewrite Hg, decide_True in Er by done. done.
Qed.

(** A flag changed in the kernel first, then here. *)
Definition interest_change (rk : Key) (f : FdRegistration -> FdRegistration) (g : FdRegistration -> W -> io () * W)
    : M (RState H W) IoError bool :=
  registrations ← gets registrations_of;
  match get registrations rk with
  | None => mret false
  | Some registration =>
      _ ← call (g registration);
      _ ← modify (fun s => set_registrations (get_mut (registrations_of s) rk f) s);
      mret true
  end.

Lemma interest_keeps rk enabled :
  0 <= index rk -> keeps (set_write_interest rk enabled) /\ keeps (set_read_interest rk enabled).
Proof.
  intros Hrk.
  assert (Hm : forall f g, (forall reg, rg_fd (f reg) = rg_fd reg /\ rg_handler (f reg) = rg_handler reg) -> keeps (interest_change rk f g)).
  { intros f g Hf s Hok. unfold interest_change, gets, mbind at 1, M_bind. destruct (get _ _) as [reg|]; [|done].
    unfold modify, mbind, M_bind.
    match goal with |- context [call ?f ?s] => pose proof (call_reactor f s) as [Hcr Hcp]; destruct (call f s) as [r s1] end.
    cbn [fst snd] in Hcr, Hcp. destruct r as [[]|e|]; [|by rewrite Hcr|done]. unfold mret, M_ret.
    cbn [set_registrations rs_reactor]. unfold registrations_of. rewrite Hcr. by apply interest_inv. }
  split.
  - intros s Hok. pose proof (Hm (with_write enabled)
      (fun reg => poll_set_interest (rg_fd reg) rk (rg_read reg) enabled) (fun _ => conj eq_refl eq_refl) s Hok) as Hx.
    unfold interest_change in Hx. unfold set_write_interest, gets in *. unfold mbind at 1, M_bind. unfold mbind at 1, M_bind in Hx. destruct (get _ _) as [reg|]; [|done].
    by case_bool_decide.
  - apply (Hm (with_read enabled) (fun reg => poll_set_interest (rg_fd reg) rk enabled (rg_write reg)) (fun _ => conj eq_refl eq_refl)).
Qed.

Lemma register_key_ok h s k s' : reactor_ok (rs_reactor s) -> register h s = (Ok k, s') -> 0 <= index k.
Proof.
  intros Hok. unfold register, gets, lift, modify, mbind, M_bind, mret, M_ret, handlers_of.
  pose proof (insert_from_spec (E:=IoError) (rt_handlers (rs_reactor s))
    (fun k => {| he_handler := Some (adopt_key k h); he_regs := [] |}) (ro_handlers _ Hok)) as Hspec.
  destruct (insert_from _ _) as [[k' a]|e|]; [|done..]. intros [= -> _]. destruct Hspec as (_&[Hk _]&_). apply Hk.
Qed.

Lemma register_with_fds_keeps h fds : keeps (register_with_fds h fds).
Proof.
  intros s Hok. unfold register_with_fds. unfold mbind at 1, M_bind.
  pose proof (register_keeps h s Hok) as Hr1. destruct (register h s) as [[k|e|] s1] eqn:E; [|done..].
  pose proof (register_key_ok _ _ _ _ Hok E) as Hk. clear E Hok.
  assert (Hall : keeps (watch_all k fds)).
  { induction fds as [|[fd ud] fds IH]; cbn [watch_all]; [apply keeps_ret|].
    intros s2 Hok2. unfold attempt, mbind, M_bind. pose proof (watch_keeps k fd ud Hk s2 Hok2) as Hw.
    destruct (watch k fd ud s2) as [[rk|e|] s3]; [by apply IH| |done].
    pose proof (unregister_keeps k Hk s3 Hw) as Hu. destruct (unregister k s3) as [[b|e'|] s4]; done. }
  specialize (Hall s1 Hr1). unfold mbind, M_bind. destruct (watch_all k fds s1) as [[[]|e|] s2]; done.
Qed.

(** An operation on the reactor; an error is reported to the caller, who goes on. *)
Inductive ReactorOp : Type :=
  | RegisterOp (h : H)
  | RegisterFdsOp (h : H) (fds : list (Z * Z))
  | WatchOp (k : Key) (fd user_data : Z)
  | UnwatchOp (rk : Key)
  | UnregisterOp (k : Key)
  | InterestOp (rk : Key) (write enabled : bool).
Definition reactor_op (op : ReactorOp) : M (RState H W) IoError () :=
  match op with
  | RegisterOp h => _ ← register h; mret ()
  | RegisterFdsOp h fds => _ ← register_with_fds h fds; mret ()
  | WatchOp k fd ud => _ ← watch k fd ud; mret ()
  | UnwatchOp rk => _ ← unwatch rk; mret ()
  | UnregisterOp k => _ ← unregister k; mret ()
  | InterestOp rk write enabled =>
      _ ← (if write then set_write_interest rk enabled else set_read_interest rk enabled); mret ()
  end.
Definition reactor_op_ok (op : ReactorOp) : Prop :=
  match op with
  | WatchOp k _ _ | UnwatchOp k | UnregisterOp k | InterestOp k _ _ => key_ok k
  | _ => True
  end.
Fixpoint reactor_ops (ops : list ReactorOp) : M (RState H W) IoError () :=
  match ops with
  | [] => mret ()
  | op :: ops => r ← attempt (reactor_op op); match r with inl _ | inr () => reactor_ops ops end
  end.

Lemma reactor_ops_ok ops s :
  Forall reactor_op_ok ops -> reactor_ok (rs_reactor s) ->
  match reactor_ops ops s with
  | (Ok (), s) => reactor_ok (rs_reactor s)
  | (Err _, _) => False
  | (Panic, s) => exhausted (rs_reactor s)
  end.
Proof.
  intros Hops. revert s.
  induction Hops as [|op ops Hop _ IH]; intros s Hok; cbn [reactor_ops]; [done|].
  assert (Hk : keeps (reactor_op op)).
  { destruct op as [h|h fds|k fd ud|rk|k|rk wr en]; cbn [reactor_op reactor_op_ok] in *;
      (apply keeps_bind; [|intros; apply keeps_ret]).
    - apply register_keeps.
    - apply register_with_fds_keeps.
    - apply watch_keeps, Hop.
    - apply unwatch_keeps, Hop.
    - apply unregister_keeps, Hop.
    - destruct wr; [apply (interest_keeps rk en)|apply (interest_keeps rk en)]; apply Hop. }
  specialize (Hk s Hok). unfold attempt, mbind, M_bind. destruct (reactor_op op s) as [[[]|e|] s']; [by apply IH..|done].
Qed.

(** Over any sequence of registrations, watches, unwatches, removals and
    interest changes, with live keys or stale ones, and whatever the kernel
    answers, the reactor never panics unless it uses up the 2^32 indices of an
    arena, and stays consistent: every watched fd belongs to exactly one live
    handler, which lists it, every fd a handler lists is watched for it, and no
    fd is watched twice. *)
Theorem reactor_invariant ops w :
  Forall reactor_op_ok ops ->
  match reactor_ops ops {| rs_reactor := reactor_new H; rs_world := w |} with
  | (Ok (), s) => reactor_ok (rs_reactor s)
  | (Err _, _) => False
  | (Panic, s) => exhausted (rs_reactor s)
  end.
Proof. intros Hops. exact (reactor_ops_ok ops {| rs_reactor := reactor_new H; rs_world := w |} Hops reactor_new_ok). Qed.
End spec.

(** ** A handler that goes *)

(** A poller, and the fds whose kernel interest was dropped, in order. *)
Definition logging_poller {W} (P : Poller W) : Poller (W * list Z) :=
  {| poll_add := fun fd k w => let '(r, w') := poll_add fd k w.1 in (r, (w', w.2));
     poll_remove := fun fd w => let '(r, w') := poll_remove fd w.1 in (r, (w', w.2 ++ [fd]));
     poll_set_interest := fun fd k r w' w => let '(x, v) := poll_set_interest fd k r w' w.1 in (x, (v, w.2));
     poll_wait := fun t w => let '(r, w') := poll_wait t w.1 in (r, (w', w.2)) |}.

Section gone.
Context {H W : Type} (P : Poller W).
Local Existing Instance logging_poller.
Implicit Types s : RState H (W * list Z).

Definition dropped s : list Z := (rs_world s).2.

(** The fds of some registrations. *)
Definition fds_of (a : Arena FdRegistration) (regs : list Key) : list Z := omap (fun rk => rg_fd <$> get a rk) regs.

Lemma unwatch_all_drops hk regs err s :
  orphans hk regs (rs_reactor s) ->
  dropped (unwatch_all regs err s).2 = dropped s ++ fds_of (rt_registrations (rs_reactor s)) regs.
Proof.
  revert err s. induction regs as [|rk regs IH]; intros err s Ho; cbn [unwatch_all]; [cbn; by rewrite app_nil_r|].
  unfold gets, mbind at 1, M_bind, registrations_of.
  destruct (or_left _ _ _ Ho) as [Hnd Hleft]. destruct (Hleft rk ltac:(by left)) as (Hrk&reg&Hreg&_).
  destruct (remove (rt_registrations (rs_reactor s)) rk) as [[reg' registrations]|] eqn:E;
    [|apply remove_None in E; congruence].
  pose proof (orphans_cons _ _ _ _ _ _ Ho E) as Ho'.
  destruct (get_remove _ _ _ _ (or_registrations _ _ _ Ho) Hrk E) as (_&Hreg'&Hg).
  unfold modify, mbind, M_bind, attempt, call. cbn [poll_remove logging_poller rs_world set_registrations].
  destruct (poll_remove (rg_fd reg') (rs_world s).1) as [r w].
  set (s1 := {| rs_reactor := rs_reactor (set_registrations registrations s); rs_world := (w, (rs_world s).2 ++ [rg_fd reg']) |}).
  assert (Hfds : fds_of registrations regs = fds_of (rt_registrations (rs_reactor s)) regs).
  { unfold fds_of. apply NoDup_cons in Hnd as [Hni _]. clear -Hg Hni Hleft.
    assert (Hk : forall k, k ∈ regs -> get registrations k = get (rt_registrations (rs_reactor s)) k).
    { intros k Hin. rewrite Hg by (by apply Hleft; right). rewrite decide_False; [done|]. by intros ->. }
    clear Hg Hni Hleft. induction regs as [|k regs IH]; [done|]. cbn. rewrite Hk by (by left).
    rewrite IH; [done|]. intros k' Hk'. apply Hk. by right. }
  assert (Hstep : forall err', dropped (unwatch_all regs err' s1).2 =
    dropped s ++ fds_of (rt_registrations (rs_reactor s)) (rk :: regs)).
  { intros err'. rewrite IH by exact Ho'. unfold s1, dropped. cbn [rs_world rs_reactor rt_registrations snd set_registrations]. rewrite Hfds.
    unfold fds_of at 2. cbn [omap list_omap]. rewrite Hreg'. cbn [fmap option_fmap option_map]. by rewrite <- app_assoc. }
  destruct r as [e|[]]; apply Hstep.
Qed.

Context `{Handler H (W * list Z)}.

(** Removing a handler takes everything it watched along: its key and the
    keys of its registrations are dead, so an event already read for one of its
    fds reaches nobody, the kernel is told once for each of its fds to forget
    it, even after one such call failed, and no other handler or registration
    changes. *)
Theorem unregister_unwatches k e s :
  reactor_ok (rs_reactor s) -> key_ok k -> get (handlers_of s) k = Some e ->
  let '(r, s') := unregister k s in
  r <> Panic /\ reactor_ok (rs_reactor s') /\ is_registered (rs_reactor s') k = false /\
  (forall rk, rk ∈ he_regs e -> get (registrations_of s') rk = None /\ forall ready, dispatch rk ready s' = (Ok (), s')) /\
  (forall k', key_ok k' -> k' <> k -> get (handlers_of s') k' = get (handlers_of s) k') /\
  (forall rk, key_ok rk -> rk ∉ he_regs e -> get (registrations_of s') rk = get (registrations_of s) rk) /\
  dropped s' = dropped s ++ fds_of (registrations_of s) (he_regs e) /\
  length (fds_of (registrations_of s) (he_regs e)) = length (he_regs e).
Proof.
  intros Hok [[Hk _] _] He. pose proof (unregister_ok k s Hok Hk) as Hu.
  assert (Hd : dropped (unregister k s).2 = dropped s ++ fds_of (registrations_of s) (he_regs e)).
  { clear Hu. unfold unregister, gets, mbind at 1, M_bind. unfold handlers_of in *.
    destruct (remove (rt_handlers (rs_reactor s)) k) as [[e' handlers]|] eqn:E; [|apply remove_None in E; congruence].
    destruct (get_remove _ _ _ _ (ro_handlers _ Hok) Hk E) as (_&He'&_). rewrite He in He'. injection He' as <-.
    pose proof (orphans_intro _ _ _ _ Hok Hk E) as Ho. unfold modify, mbind, M_bind.
    pose proof (unwatch_all_drops k (he_regs e) None (set_handlers handlers s) Ho) as Hdrop.
    destruct (unwatch_all (he_regs e) None (set_handlers handlers s)) as [[[err|]|err|] s']; exact Hdrop. }
  destruct (unregister k s) as [r s']. cbn [snd] in Hd. rewrite He in Hu. destruct Hu as (Hr&Hok'&_&Hh&Hg).
  destruct (ro_listed _ Hok k e Hk He) as [_ Hall].
  assert (Hgone : forall rk, rk ∈ he_regs e -> get (registrations_of s') rk = None).
  { intros rk Hrk. destruct (Hall _ Hrk) as (Hi&_). by rewrite Hg, decide_True. }
  split_and!; try done.
  - unfold is_registered. apply not_true_iff_false. rewrite contains_iff. change (rt_handlers _) with (handlers_of s').
    rewrite Hh, decide_True by done. by intros [? ?].
  - intros rk Hrk. split; [auto|]. intros ready. unfold dispatch, gets, mbind, M_bind. by rewrite Hgone.
  - intros k' [[Hk' _] _] Hne. by rewrite Hh, decide_False.
  - intros rk [[Hrk _] _] Hni. by rewrite Hg, decide_False.
  - clear -Hall. unfold fds_of. induction (he_regs e) as [|rk regs IH]; [done|].
    destruct (Hall rk ltac:(by left)) as (_&reg&Hreg&_). cbn. unfold registrations_of. rewrite Hreg. cbn. f_equal. apply IH.
    intros k' Hk'. apply Hall. by right.
Qed.
End gone.

(** ** Witnesses *)

(** A handler that does nothing, and a poller whose every call succeeds. *)
Definition unit_adopt : Adopt () := fun _ h => h.
Definition idle_handler (W : Type) : Handler () W :=
  {| on_readable := fun _ h => mret h; on_writable := fun _ h => mret h;
     handler_deadline := fun _ => None; on_deadline := fun _ h => mret h; on_control := fun _ h => mret h |}.
Definition quiet_poller : Poller () :=
  {| poll_add := fun _ _ w => (inr (), w); poll_remove := fun _ w => (inr (), w);
     poll_set_interest := fun _ _ _ _ w => (inr (), w); poll_wait := fun _ w => (inr [], w) |}.

Definition ex_ops : list (ReactorOp (H:=())) :=
  [RegisterFdsOp () [(3, 0); (4, 1)]; UnwatchOp {| index := 0; generation := 0 |}; WatchOp {| index := 0; generation := 0 |} 5 2].

Lemma ex_ops_ok : Forall reactor_op_ok ex_ops.
Proof.
  assert (Hk : key_ok {| index := 0; generation := 0 |}) by (split; vm_compute; split; congruence).
  apply Forall_cons_2; [exact I|]. apply Forall_cons_2; [exact Hk|]. apply Forall_cons_2; [exact Hk|]. apply Forall_nil_2.
Qed.

Lemma reactor_invariant_witness :
  exists s, reactor_ops (H0:=quiet_poller) (H1:=unit_adopt) ex_ops {| rs_reactor := reactor_new (); rs_world := () |} = (Ok (), s) /\
    reactor_ok (rs_reactor s) /\ length (iter (rt_registrations (rs_reactor s))) = 2%nat.
Proof.
  pose proof (reactor_invariant (H0:=quiet_poller) (H1:=unit_adopt) ex_ops ()) as Hinv.
  destruct (reactor_ops _ _) as [r s] eqn:E.
  specialize (Hinv ex_ops_ok). exists s. vm_compute in E. injection E as <- <-. split; [reflexivity|]. split; [exact Hinv|reflexivity].
Defined.

Definition ex_reactor : RState () (() * list Z) :=
  (reactor_ops (H0:=logging_poller quiet_poller) (H1:=unit_adopt) ex_ops {| rs_reactor := reactor_new (); rs_world := ((), []) |}).2.

Lemma unregister_unwatches_witness :
  exists r s', unregister (H0:=logging_poller quiet_poller) {| index := 0; generation := 0 |} ex_reactor = (r, s') /\
    is_registered (rs_reactor s') {| index := 0; generation := 0 |} = false /\ dropped s' = [3; 4; 5].
Proof.
  assert (Hok : reactor_ok (rs_reactor ex_reactor)).
  { pose proof (reactor_ops_ok (H0:=logging_poller quiet_poller) (H1:=unit_adopt) ex_ops
      {| rs_reactor := reactor_new (); rs_world := ((), []) |} ex_ops_ok reactor_new_ok) as Hinv. vm_compute in Hinv. exact Hinv. }
  assert (Hk : key_ok {| index := 0; generation := 0 |}) by (split; vm_compute; split; congruence).
  pose proof (unregister_unwatches quiet_poller (H0:=idle_handler _) {| index := 0; generation := 0 |}
    {| he_handler := Some (); he_regs := [{| index := 1; generation := 0 |}; {| index := 0; generation := 1 |}] |} ex_reactor Hok
    Hk eq_refl) as Hu.
  destruct (unregister _ _) as [r s']. exists r, s'. destruct Hu as (_&_&Hreg&_&_&_&Hd&_). split; [reflexivity|].
  split; [exact Hreg|exact Hd].
Defined.

(** What an operation of the reactor leaves alone: the handlers in their slots,
    and the fds watched for others. *)

(** Registrations that differ in the interest only. *)
Definition same_target (g g' : FdRegistration) : Prop :=
  rg_fd g' = rg_fd g /\ rg_handler g' = rg_handler g /\ rg_user_data g' = rg_user_data g.
Lemma same_target_refl g : same_target g g.
Proof. done. Qed.
Lemma same_target_trans g1 g2 g3 : same_target g1 g2 -> same_target g2 g3 -> same_target g1 g3.
Proof. unfold same_target. intuition congruence. Qed.

Section frame.
Context {H W : Type} `{Poller W}.
Implicit Types (r : Reactor H) (s : RState H W).

(** Only registrations of [mine] changed, in their interest, or went. *)
Record undisturbed (mine : Key -> Prop) r r' : Prop := {
  un_slots : forall k, 0 <= index k -> he_handler <$> get (rt_handlers r') k = he_handler <$> get (rt_handlers r) k;
  un_regs : forall rk, 0 <= index rk -> ~ mine rk -> get (rt_registrations r') rk = get (rt_registrations r) rk;
  un_mine : forall rk g', 0 <= index rk -> get (rt_registrations r') rk = Some g' ->
    exists g, get (rt_registrations r) rk = Some g /\ same_target g g';
}.

Lemma undisturbed_refl mine r : undisturbed mine r r.
Proof. split; [done..|]. intros rk g' _ Hg. by exists g'. Qed.
Lemma undisturbed_trans mine r1 r2 r3 : undisturbed mine r1 r2 -> undisturbed mine r2 r3 -> undisturbed mine r1 r3.
Proof.
  intros [A1 A2 A3] [B1 B2 B3]. split.
  - intros k Hk. by rewrite B1, A1.
  - intros rk Hrk Hm. by rewrite B2, A2.
  - intros rk g3 Hrk Hg. destruct (B3 _ _ Hrk Hg) as (g2&Hg2&T2). destruct (A3 _ _ Hrk Hg2) as (g1&Hg1&T1).
    exists g1. split; [done|]. by eapply same_target_trans.
Qed.
Lemma undisturbed_weaken (mine mine' : Key -> Prop) r r' :
  (forall k, mine k -> mine' k) -> undisturbed mine r r' -> undisturbed mine' r r'.
Proof. intros Hm [A1 A2 A3]. split; [done| |done]. intros rk Hrk Hn. apply A2; auto. Qed.

(** No watched fd was dropped. *)
Definition all_kept r r' : Prop :=
  forall rk, 0 <= index rk -> is_Some (get (rt_registrations r) rk) -> is_Some (get (rt_registrations r') rk).

(** What an operation on the registration [rk] may do. *)
Definition touching (rk : Key) s s' : Prop := reactor_ok (rs_reactor s') /\ undisturbed (eq rk) (rs_reactor s) (rs_reactor s').

Lemma run_interest_change rk f (g : FdRegistration -> W -> io () * W) s :
  reactor_ok (rs_reactor s) -> 0 <= index rk -> (forall reg, same_target reg (f reg)) ->
  let '(r, s') := interest_change rk f g s in
  r <> Panic /\ touching rk s s' /\ all_kept (rs_reactor s) (rs_reactor s').
Proof.
  intros Hok Hrk Hf. unfold interest_change, gets, mbind at 1, M_bind, registrations_of.
  assert (Hid : forall s', rs_reactor s' = rs_reactor s -> touching rk s s' /\ all_kept (rs_reactor s) (rs_reactor s')).
  { intros s' E. unfold touching, all_kept. rewrite E. split; [|done]. split; [done|apply undisturbed_refl]. }
  destruct (get _ _) as [reg|] eqn:Er; [|split; [done|by apply Hid]].
  unfold modify, mbind, M_bind.
  match goal with |- context [call ?f ?s] => pose proof (call_reactor f s) as [Hcr Hcp]; destruct (call f s) as [r s1] end.
  cbn [fst snd] in Hcr, Hcp. destruct r as [[]|e|]; [|split; [done|by apply Hid]|done].
  unfold mret, M_ret, registrations_of, touching, all_kept. cbn [set_registrations rs_reactor]. rewrite Hcr.
  split; [done|]. split; [split|].
  - apply interest_inv; [done..|]. intros reg'. destruct (Hf reg') as (->&->&_). done.
  - split; cbn [rt_handlers rt_registrations]; [done| |].
    + intros k Hk Hne. rewrite get_get_mut by done. by rewrite decide_False by congruence.
    + intros k g' Hk. rewrite get_get_mut by done. case_decide as Hd; [subst k|intros Hg; by exists g'].
      rewrite Er. intros [= <-]. exists reg. split; [done|apply Hf].
  - intros k Hk. cbn [rt_registrations]. rewrite get_get_mut by done. case_decide; [subst|done]. rewrite Er. intros _. by eexists.
Qed.

Lemma run_set_interest (write : bool) rk b s :
  reactor_ok (rs_reactor s) -> 0 <= index rk ->
  let '(r, s') := (if write then set_write_interest rk b else set_read_interest rk b) s in
  r <> Panic /\ touching rk s s' /\ all_kept (rs_reactor s) (rs_reactor s').
Proof.
  intros Hok Hrk. destruct write; [|by apply (run_interest_change rk (with_read b))].
  pose proof (run_interest_change rk (with_write b) (fun reg => poll_set_interest (rg_fd reg) rk (rg_read reg) b) s Hok Hrk
    (fun _ => conj eq_refl (conj eq_refl eq_refl))) as Hx.
  unfold set_write_interest, interest_change, gets in *. unfold mbind at 1, M_bind. unfold mbind at 1, M_bind in Hx.
  destruct (get _ _) as [reg|]; [|done]. case_bool_decide; [|done].
  split; [done|]. split; [split; [done|apply undisturbed_refl]|]. by intros ???.
Qed.

Lemma run_unwatch rk s :
  reactor_ok (rs_reactor s) -> 0 <= index rk ->
  let '(r, s') := unwatch rk s in
  r <> Panic /\ touching rk s s' /\ get (rt_registrations (rs_reactor s')) rk = None.
Proof.
  intros Hok Hrk. unfold unwatch, gets, mbind at 1, M_bind, registrations_of.
  destruct (remove _ _) as [[reg registrations]|] eqn:E.
  - pose proof (unwatch_inv _ _ _ _ Hok Hrk E) as Hok'.
    destruct (get_remove _ _ _ _ (ro_registrations _ Hok) Hrk E) as (_&Hreg&Hg).
    destruct (ro_owned _ Hok _ _ Hrk Hreg) as (Hown&_).
    unfold modify, mbind, M_bind.
    match goal with |- context [call ?f ?s] => pose proof (call_reactor f s) as [Hcr Hcp]; destruct (call f s) as [r s1] end.
    cbn [fst snd] in Hcr, Hcp.
    assert (Hs1 : touching rk s s1 /\ get (rt_registrations (rs_reactor s1)) rk = None).
    { unfold touching. rewrite Hcr. split; [split; [done|]|]; [|cbn; rewrite Hg by done; by rewrite decide_True].
      split; cbn.
      - intros k Hk. rewrite get_get_mut by done. case_decide; [subst|done]. by destruct (get (rt_handlers _) (rg_handler reg)).
      - intros k Hk Hne. rewrite Hg by done. by rewrite decide_False by congruence.
      - intros k g' Hk. rewrite Hg by done. case_decide; [done|]. intros Hg'. by exists g'. }
    destruct r; [by split..|done].
  - apply remove_None in E. split; [done|]. split; [|done]. split; [done|apply undisturbed_refl].
Qed.

(** A new fd watched for a live handler, or nothing changed. *)
Lemma run_watch k fd user_data s :
  reactor_ok (rs_reactor s) -> 0 <= index k ->
  let r := rs_reactor s in
  match watch k fd user_data s with
  | (Ok rk, s') =>
      let r' := rs_reactor s' in
      reactor_ok r' /\ 0 <= index rk /\ get (rt_registrations r) rk = None /\
      (forall k, 0 <= index k -> he_handler <$> get (rt_handlers r') k = he_handler <$> get (rt_handlers r) k) /\
      (forall rk', 0 <= index rk' -> get (rt_registrations r') rk' =
         if decide (rk' = rk)
         then Some {| rg_fd := fd; rg_handler := k; rg_read := true; rg_write := false; rg_user_data := user_data |}
         else get (rt_registrations r) rk')
  | (Err _, s') => reactor_ok (rs_reactor s') /\ undisturbed (fun _ => False) r (rs_reactor s')
  | (Panic, s') => exhausted (rs_reactor s')
  end.
Proof.
  intros Hok Hk r. pose proof (watch_keeps k fd user_data Hk s Hok) as Hkeep. revert Hkeep.
  unfold watch, gets, lift, modify, attempt, mbind, M_bind, mret, M_ret, fail, lift, handlers_of, registrations_of, arena_insert.
  destruct (contains _ k) eqn:Hc; cbn [negb]; [|intros ?; split; [done|apply undisturbed_refl]].
  destruct (existsb _ _); [intros ?; split; [done|apply undisturbed_refl]|].
  set (reg := {| rg_fd := fd; rg_handler := k; rg_read := true; rg_write := false; rg_user_data := user_data |}).
  destruct (insert_from (E:=IoError) (rt_registrations (rs_reactor s)) (fun _ => reg)) as [[rk registrations]|e|] eqn:E;
    [|intros ?; split; [done|apply undisturbed_refl]|done].
  destruct (get_insert_from _ _ _ _ (ro_registrations _ Hok) E) as (Hwf&[[Hrk _] _]&Hn&Hg).
  match goal with |- context [call ?f ?s] => pose proof (call_reactor f s) as [Hcr Hcp]; destruct (call f s) as [r1 s1] end.
  cbn [fst snd] in Hcr, Hcp. destruct r1 as [[]|e|]; [| |done].
  - cbn [set_handlers rs_reactor]. rewrite Hcr. intros Hkeep.
    split_and!; [done..| |].
    + intros k' Hk'. cbn. rewrite get_get_mut by done. case_decide; [subst|done]. by destruct (get (rt_handlers _) k).
    + intros rk' Hrk'. cbn. by apply Hg.
  - rewrite Hcr. cbn [set_registrations rs_reactor rt_registrations].
    pose proof (get_remove registrations rk) as Hrm. intros Hkeep. split; [exact Hkeep|]. clear Hkeep.
    destruct (remove registrations rk) as [[reg' registrations']|] eqn:Er; cbn [rs_reactor set_registrations]; rewrite Hcr.
    + destruct (Hrm _ _ Hwf Hrk eq_refl) as (Hwf'&_&Hg').
      assert (Hsame : forall k', 0 <= index k' -> get registrations' k' = get (rt_registrations (rs_reactor s)) k').
      { intros k' Hk'. rewrite Hg', Hg by done. case_decide; [by subst|done]. }
      split; cbn; [done|by intros rk' Hrk' _; apply Hsame|]. intros rk' g' Hrk'. rewrite Hsame by done.
      intros Hg1. by exists g'.
    + apply remove_None in Er. rewrite Hg, decide_True in Er by done. done.
Qed.

(** ** What the handler [k] leaves alone: the other handlers and their fds *)
Record others (k : Key) r r' : Prop := {
  ot_ok : reactor_ok r';
  ot_slots : forall k', 0 <= index k' -> k' <> k -> he_handler <$> get (rt_handlers r') k' = he_handler <$> get (rt_handlers r) k';
  ot_regs : forall rk g, 0 <= index rk -> rg_handler g <> k ->
    get (rt_registrations r') rk = Some g <-> get (rt_registrations r) rk = Some g;
}.

Lemma others_refl k r : reactor_ok r -> others k r r.
Proof. intros Hok. split; auto. Qed.
Lemma others_trans k r1 r2 r3 : others k r1 r2 -> others k r2 r3 -> others k r1 r3.
Proof.
  intros [A1 A2 A3] [B1 B2 B3]. split; [done| |].
  - intros k' Hk Hne. by rewrite B2, A2.
  - intros rk g Hrk Hne. by rewrite B3, A3.
Qed.

(** The registrations of a handler, and those it may change. *)
Lemma undisturbed_others k (mine : Key -> Prop) r r' :
  reactor_ok r' -> 0 <= index k -> undisturbed mine r r' ->
  (forall rk, 0 <= index rk -> mine rk -> exists g, get (rt_registrations r) rk = Some g /\ rg_handler g = k) -> others k r r'.
Proof.
  intros Hok Hk [A1 A2 A3] Hmine. split; [done|intros k' Hk' _; by apply A1|].
  intros rk g Hrk Hne. split; intros Hg.
  - destruct (A3 _ _ Hrk Hg) as (g0&Hg0&T1&T2&T3). rewrite <- Hg. symmetry. apply A2; [done|]. intros Hm.
    destruct (Hmine _ Hrk Hm) as (g1&Hg1&E). congruence.
  - rewrite A2; [done..|]. intros Hm. destruct (Hmine _ Hrk Hm) as (g1&Hg1&E). congruence.
Qed.

(** A handler that goes leaves the others alone. *)
Lemma unregister_others k s :
  reactor_ok (rs_reactor s) -> 0 <= index k ->
  let '(r, s') := unregister k s in
  r <> Panic /\ others k (rs_reactor s) (rs_reactor s') /\ get (rt_handlers (rs_reactor s')) k = None.
Proof.
  intros Hok Hk. pose proof (unregister_ok k s Hok Hk) as Hu. destruct (unregister k s) as [r s']. destruct Hu as (Hp&Hok'&Hu).
  unfold handlers_of, registrations_of in Hu. destruct (get (rt_handlers (rs_reactor s)) k) as [e|] eqn:Ee.
  - destruct Hu as (_&Hh&Hr). destruct (ro_listed _ Hok k e Hk Ee) as [_ Hlist].
    assert (Hgone : get (rt_handlers (rs_reactor s')) k = None) by (rewrite Hh by done; by rewrite decide_True).
    split; [done|]. split; [|done]. split; [done| |].
    + intros k' Hk' Hne. rewrite Hh by done. by rewrite decide_False.
    + intros rk g Hrk Hne. rewrite Hr by done. case_decide as Hin; [|done]. split; [done|]. intros Hg.
      destruct (Hlist _ Hin) as (_&g'&Hg'&E). congruence.
  - destruct Hu as [-> ->]. split; [done|]. split; [by apply others_refl|done].
Qed.

(** ** A new handler with its fds *)
Context `{Adopt H}.

Lemma frame_register (h : H) s :
  reactor_ok (rs_reactor s) ->
  match register h s with
  | (Ok k, s') =>
      reactor_ok (rs_reactor s') /\ 0 <= index k /\ get (rt_handlers (rs_reactor s)) k = None /\
      get (rt_handlers (rs_reactor s')) k = Some {| he_handler := Some (adopt_key k h); he_regs := [] |} /\
      others k (rs_reactor s) (rs_reactor s') /\ rt_registrations (rs_reactor s') = rt_registrations (rs_reactor s)
  | (Err _, _) => False
  | (Panic, s') => exhausted (rs_reactor s')
  end.
Proof.
  intros Hok. pose proof (register_keeps h s Hok) as Hkeep. revert Hkeep.
  unfold register, gets, lift, modify, mbind, M_bind, mret, M_ret, handlers_of.
  pose proof (insert_from_spec (E:=IoError) (rt_handlers (rs_reactor s))
    (fun k => {| he_handler := Some (adopt_key k h); he_regs := [] |}) (ro_handlers _ Hok)) as Hspec.
  destruct (insert_from _ _) as [[k a]|e|] eqn:E; [|done|done]. clear Hspec. intros Hok'.
  destruct (get_insert_from _ _ _ _ (ro_handlers _ Hok) E) as (_&[[Hk _] _]&Hn&Hg). cbn [rs_reactor set_handlers rt_handlers rt_registrations] in *.
  assert (Hreg : forall rk g, 0 <= index rk -> get (rt_registrations (rs_reactor s)) rk = Some g -> rg_handler g <> k).
  { intros rk g Hrk Hg' <-. destruct (ro_owned _ Hok _ _ Hrk Hg') as (_&e&He&_). congruence. }
  split_and!; [done..|rewrite Hg by done; by rewrite decide_True| |done]. split; cbn [rt_handlers rt_registrations]; [done| |done].
  intros k' Hk' Hne. rewrite Hg by done. by rewrite decide_False.
Qed.

(** What stands for the fds watched so far. *)
Record watches_only (k : Key) (fds : list Z) r : Prop := {
  wo_only : forall rk g, 0 <= index rk ->
    get (rt_registrations r) rk = Some g -> rg_handler g = k -> rg_write g = false /\ rg_fd g ∈ fds;
  wo_all : forall fd, fd ∈ fds -> exists rk g, 0 <= index rk /\ get (rt_registrations r) rk = Some g /\
    rg_handler g = k /\ rg_fd g = fd /\ rg_read g = true;
}.

Lemma run_watch_all k fds done s :
  reactor_ok (rs_reactor s) -> 0 <= index k -> watches_only k done (rs_reactor s) ->
  match watch_all k fds s with
  | (Ok (), s') => others k (rs_reactor s) (rs_reactor s') /\ watches_only k (done ++ fds.*1) (rs_reactor s') /\
      he_handler <$> get (rt_handlers (rs_reactor s')) k = he_handler <$> get (rt_handlers (rs_reactor s)) k
  | (Err _, s') => others k (rs_reactor s) (rs_reactor s') /\ get (rt_handlers (rs_reactor s')) k = None
  | (Panic, s') => exhausted (rs_reactor s')
  end.
Proof.
  revert done s. induction fds as [|[fd ud] fds IH]; intros seen s Hok Hk Hw; cbn [watch_all].
  { split; [by apply others_refl|]. cbn. by rewrite app_nil_r. }
  pose proof (run_watch k fd ud s Hok Hk) as Hr. unfold attempt, mbind, M_bind.
  destruct (watch k fd ud s) as [[rk|e|] s1]; [| |done].
  - destruct Hr as (Hok1&Hrk&Hn&Hs&Hg).
    assert (Ho : others k (rs_reactor s) (rs_reactor s1)).
    { split; [done|intros k' Hk' _; by apply Hs|]. intros rk' g Hrk' Hne. rewrite Hg by done. case_decide; [subst|done].
      rewrite Hn. split; [intros [= <-]; done|done]. }
    assert (Hw1 : watches_only k (seen ++ [fd]) (rs_reactor s1)).
    { split.
      - intros rk' g Hrk'. rewrite Hg by done. case_decide.
        + intros [= <-] _. split; [done|]. apply elem_of_app. right. by left.
        + intros Hg' Hh. destruct (wo_only _ _ _ Hw _ _ Hrk' Hg' Hh) as [? ?]. split; [done|]. apply elem_of_app. by left.
      - intros fd' [Hin|Hin]%elem_of_app.
        + destruct (wo_all _ _ _ Hw _ Hin) as (rk'&g&Hrk'&Hg'&Hx). exists rk', g. split; [done|]. rewrite Hg by done.
          rewrite decide_False; [done|]. intros ->. congruence.
        + apply list_elem_of_singleton in Hin as ->. eexists rk, _. split; [done|]. rewrite Hg, decide_True by done. by split_and!. }
    specialize (IH (seen ++ [fd]) s1 Hok1 Hk Hw1). destruct (watch_all k fds s1) as [[[]|e|] s2]; [| |done].
    + destruct IH as (Ho2&Hw2&Hs2). split; [by eapply others_trans|]. rewrite <- app_assoc in Hw2. split; [done|]. by rewrite Hs2, Hs.
    + destruct IH as [Ho2 Hn2]. split; [by eapply others_trans|done].
  - destruct Hr as [Hok1 Hu]. pose proof (unregister_others k s1 Hok1 Hk) as Hu2.
    destruct (unregister k s1) as [[b|e'|] s2]; [..|by destruct Hu2]; destruct Hu2 as (_&Ho2&Hn2); unfold fail, lift; cbn;
      (split; [eapply others_trans; [by apply (undisturbed_others k (fun _ => False))|done]|done]).
Qed.

(** A handler registered with the fds it listens on, or nothing left of it. *)
Lemma run_register_with_fds (h : H) fds s :
  reactor_ok (rs_reactor s) ->
  match register_with_fds h fds s with
  | (Ok k, s') => 0 <= index k /\ get (rt_handlers (rs_reactor s)) k = None /\ others k (rs_reactor s) (rs_reactor s') /\
      he_handler <$> get (rt_handlers (rs_reactor s')) k = Some (Some (adopt_key k h)) /\ watches_only k fds.*1 (rs_reactor s')
  | (Err _, s') => exists k, 0 <= index k /\ get (rt_handlers (rs_reactor s)) k = None /\ others k (rs_reactor s) (rs_reactor s') /\
      get (rt_handlers (rs_reactor s')) k = None
  | (Panic, s') => exhausted (rs_reactor s')
  end.
Proof.
  intros Hok. pose proof (frame_register h s Hok) as Hr. unfold register_with_fds, mbind, M_bind.
  destruct (register h s) as [[k|e|] s1]; [|done..]. destruct Hr as (Hok1&Hk&Hn&Hh&Ho&Er).
  assert (Hw0 : watches_only k [] (rs_reactor s1)).
  { split; [|by intros fd ?%not_elem_of_nil]. intros rk g Hrk Hg E. rewrite Er in Hg. destruct (ro_owned _ Hok _ _ Hrk Hg) as (_&e&He&_). congruence. }
  pose proof (run_watch_all k fds [] s1 Hok1 Hk Hw0) as Hall. destruct (watch_all k fds s1) as [[[]|e|] s2]; [| |done].
  - destruct Hall as (Ho2&Hw&Hs). unfold mret, M_ret. split_and!; [done|done|by eapply others_trans|by rewrite Hs, Hh|done].
  - destruct Hall as [Ho2 Hg]. exists k. split_and!; [done|done|by eapply others_trans|done].
Qed.
End frame.
