(* ===== verification/Tcp.v ===== *)
(** The non-blocking TCP sockets of the DIAL proxy ([src/net/tcp.rs], with the
    helpers of [src/sys.rs] it uses), over the system calls they make, and the
    confinement of an outgoing one to an interface ([src/reflector/dial/egress.rs]). *)

From S2P Require Import Prelude Text Addr Names Interface Kernel Http.

Local Open Scope Z_scope.

(** A call that asks the environment, and may fail. *)
Definition Sys (W A : Type) : Type := W -> io A * W.
Global Instance Sys_ret W : MRet (Sys W) := fun A a w => (inr a, w).
Global Instance Sys_bind W : MBind (Sys W) := fun A B f m w =>
  match m w with (inr a, w) => f a w | (inl e, w) => (inl e, w) end.
Definition sys_err {W A} (e : IoError) : Sys W A := fun w => (inl e, w).
(** The error as a value. *)
Definition sys_try {W A} (m : Sys W A) : Sys W (io A) := fun w => let '(r, w) := m w in (inr r, w).

(** [sys::IoStatus]: [Ready] carries what was transferred. *)
Inductive IoStatus (A : Type) : Type := Ready (a : A) | WouldBlock.
Arguments Ready {A} a.
Arguments WouldBlock {A}.

(** An entry of [getifaddrs]: without an address, with an IPv4 one, with another. *)
Inductive IfaAddr : Type := IfaNone | IfaInet (addr : Z) | IfaOther.

(** The [libc] errnos these calls tell apart. *)
Record SockErrnos : Type := {
  EAGAIN : Z; EWOULDBLOCK : Z; EINPROGRESS : Z; ECONNABORTED : Z; EPROTO : Z; SOCK_ENETDOWN : Z; ENETUNREACH : Z;
  EHOSTDOWN : Z; EHOSTUNREACH : Z; ENOPROTOOPT : Z; EOPNOTSUPP : Z;
}.

(** The system calls of a TCP socket.  A descriptor closes with its owner. *)
Class Sockets (W : Type) : Type := {
  sock_errnos : SockErrnos;
  (** [sys::open_socket(AF_INET, SOCK_STREAM, 0)] *)
  sock_stream : Sys W Z;
  (** [sys::bind] to an address, on any port *)
  sock_bind : Z -> Z -> Sys W ();
  sock_listen : Z -> Z -> Sys W ();
  (** [sys::local_addr] *)
  sock_name : Z -> Sys W SocketAddr;
  (** [accept4], or macOS's [accept] and [sys::set_cloexec_nonblock] *)
  sock_accept : Z -> Sys W Z;
  sock_cloexec_nonblock : Z -> Sys W ();
  (** [setsockopt(fd, IPPROTO_TCP, TCP_NODELAY, 1)] *)
  sock_nodelay : Z -> Sys W ();
  (** [setsockopt] of [SO_BINDTODEVICE] and of [IP_BOUND_IF] *)
  sock_bind_device : Z -> bytes -> Sys W ();
  sock_bound_if : Z -> Z -> Sys W ();
  (** [route_query::egress_ifindex] *)
  egress_ifindex : Z -> Sys W Z;
  sock_connect : Z -> SocketAddrV4 -> Sys W ();
  (** [getsockopt(fd, SOL_SOCKET, SO_ERROR)] *)
  so_error : Z -> Sys W Z;
  (** [recv] into a buffer of this length, [send] and [writev] *)
  sock_recv : Z -> nat -> Sys W bytes;
  sock_send : Z -> bytes -> Sys W nat;
  sock_writev : Z -> list bytes -> Sys W nat;
  (** [shutdown] of the write half, and of both *)
  sock_shutdown_write : Z -> W -> W;
  sock_shutdown : Z -> W -> W;
  getifaddrs : Sys W (list IfaAddr);
}.

(** [TcpSocket] *)
Record TcpSocket : Type := { tcp_fd : Z; tcp_local : SocketAddrV4; tcp_connecting : bool }.
Definition LISTEN_BACKLOG : Z := 16.

Section tcp.
Context {W : Type} `{Kernel W} `{Sockets W}.

(** [sys::would_block] *)
Definition would_block (e : IoError) : bool :=
  match raw_os_error e with
  | Some errno => (errno =? EAGAIN sock_errnos) || (errno =? EWOULDBLOCK sock_errnos)
  | None => false
  end.

(** [IoStatus::from_syscall] *)
Definition from_syscall {A} (r : io A) : io (IoStatus A) :=
  match r with
  | inr a => inr (Ready a)
  | inl e => if would_block e then inr WouldBlock else inl e
  end.
Definition status {A} (m : Sys W A) : Sys W (IoStatus A) := fun w => let '(r, w) := m w in (from_syscall r, w).

(** [local_addr_v4] *)
Definition local_addr_v4 (fd : Z) : Sys W SocketAddrV4 :=
  addr ← sock_name fd;
  match ip addr with
  | V4 a => mret {| sa_ip := a; sa_port := port addr |}
  | V6 _ => sys_err OtherError
  end.

(** [TcpSocket::listen] *)
Definition listen (addr : Z) : Sys W TcpSocket :=
  fd ← sock_stream;
  _ ← sock_bind fd addr;
  _ ← sock_listen fd LISTEN_BACKLOG;
  local_addr ← local_addr_v4 fd;
  mret {| tcp_fd := fd; tcp_local := local_addr; tcp_connecting := false |}.

(** [nothing_to_accept] *)
Definition nothing_to_accept (e : IoError) : bool :=
  would_block e ||
  match raw_os_error e with
  | Some errno =>
      existsb (Z.eqb errno) [ECONNABORTED sock_errnos; EPROTO sock_errnos; SOCK_ENETDOWN sock_errnos; ENETUNREACH sock_errnos;
                             EHOSTDOWN sock_errnos; EHOSTUNREACH sock_errnos; ENOPROTOOPT sock_errnos; EOPNOTSUPP sock_errnos]
  | None => false
  end.

(** [accept_fd] *)
Definition accept_fd (fd : Z) : Sys W (option Z) :=
  raw ← sys_try (sock_accept fd);
  match raw with
  | inl e => if nothing_to_accept e then mret None else sys_err e
  | inr fd => _ ← (if bool_decide (os = MacOs) then sock_cloexec_nonblock fd else mret ()); mret (Some fd)
  end.

(** [TcpSocket::accept] *)
Definition accept (s : TcpSocket) : Sys W (option TcpSocket) :=
  fd ← accept_fd (tcp_fd s);
  match fd with
  | None => mret None
  | Some fd =>
      r ← sys_try (sock_nodelay fd);
      mret (match r with
            | inl _ => None
            | inr () => Some {| tcp_fd := fd; tcp_local := tcp_local s; tcp_connecting := false |}
            end)
  end.

(** [connect_v4]: whether the connect is still in progress. *)
Definition connect_v4 (fd : Z) (dst : SocketAddrV4) : Sys W bool :=
  r ← sys_try (sock_connect fd dst);
  match r with
  | inr () => mret false
  | inl e => if bool_decide (raw_os_error e = Some (EINPROGRESS sock_errnos)) then mret true else sys_err e
  end.

(** [TcpSocket::connect] *)
Definition connect (dst : SocketAddrV4) (source : Z) (confine : Z -> Sys W ()) : Sys W TcpSocket :=
  fd ← sock_stream;
  _ ← sock_nodelay fd;
  _ ← confine fd;
  _ ← sock_bind fd source;
  local_addr ← local_addr_v4 fd;
  connecting ← connect_v4 fd dst;
  mret {| tcp_fd := fd; tcp_local := local_addr; tcp_connecting := connecting |}.

(** [TcpSocket::finish_connect] *)
Definition finish_connect (s : TcpSocket) : Sys W TcpSocket :=
  err ← so_error (tcp_fd s);
  if negb (err =? 0) then sys_err (OsError err)
  else mret {| tcp_fd := tcp_fd s; tcp_local := tcp_local s; tcp_connecting := false |}.

(** [recv], [send] and [send_vectored] *)
Definition tcp_recv (s : TcpSocket) (len : nat) : Sys W (IoStatus bytes) := status (sock_recv (tcp_fd s) len).
Definition tcp_send (s : TcpSocket) (buf : bytes) : Sys W (IoStatus nat) := status (sock_send (tcp_fd s) buf).
Definition tcp_send_vectored (s : TcpSocket) (bufs : list bytes) : Sys W (IoStatus nat) := status (sock_writev (tcp_fd s) bufs).

(** [shutdown] and [shutdown_write] *)
Definition tcp_shutdown (s : TcpSocket) : W -> W := sock_shutdown (tcp_fd s).
Definition tcp_shutdown_write (s : TcpSocket) : W -> W := sock_shutdown_write (tcp_fd s).

(** [interface::host_v4_addrs] *)
Definition list_v4_addrs : Sys W (list Z) :=
  nodes ← getifaddrs;
  mret (omap (fun a => match a with IfaInet addr => Some addr | IfaNone | IfaOther => None end) nodes).

(** [interface::if_index] *)
Definition if_index (name : InterfaceName) : Sys W (option Z) := fun w =>
  let '(r, w) := if_index_checked name w in (inr (match r with inr i => i | inl _ => None end), w).

(** [egress::confine] *)
Definition confine (fd : Z) (dst : SocketAddrV4) (iface : option InterfaceName) : Sys W () :=
  match iface with
  | None => mret ()
  | Some name =>
      match os with
      | Linux => sock_bind_device fd (if_str name)
      | MacOs =>
          index ← if_index name;
          match index with
          | None => sys_err OtherError
          | Some index => if 2 ^ 31 <=? index then sys_err OtherError else sock_bound_if fd index
          end
      | FreeBsd =>
          want ← if_index name;
          match want with
          | None => sys_err OtherError
          | Some want => got ← egress_ifindex (sa_ip dst); if got =? want then mret () else sys_err OtherError
          end
      end
  end.
End tcp.

(** What the minting of proxies asks for. *)
Class Tcp (W : Type) : Type := {
  (** [TcpSocket::listen] *)
  tcp_listen : Z -> Sys W TcpSocket;
  (** [host_v4_addrs] *)
  host_v4_addrs : Sys W (list Z);
}.
Definition sockets_tcp {W} `{Sockets W} : Tcp W := {| tcp_listen := listen; host_v4_addrs := list_v4_addrs |}.

(** ** Documented answers *)

(** A bound port is one; a transfer is no longer than the buffer. *)
Record sockets_typed (W : Type) `{Sockets W} : Prop := {
  sk_name : forall fd w addr, (sock_name fd w).1 = inr addr -> 0 <= port addr;
  sk_recv : forall fd n w data, (sock_recv fd n w).1 = inr data -> (length data <= n)%nat;
  sk_send : forall fd data w n, (sock_send fd data w).1 = inr n -> (n <= length data)%nat;
  sk_writev : forall fd bufs w n, (sock_writev fd bufs w).1 = inr n -> (n <= length (concat bufs))%nat;
}.

Lemma sys_bind_inr {W A B} (m : Sys W A) (f : A -> Sys W B) w b :
  ((m ≫= f) w).1 = inr b -> exists a w', m w = (inr a, w') /\ (f a w').1 = inr b.
Proof. unfold mbind, Sys_bind. destruct (m w) as [[e|a] w']; [done|]. eauto. Qed.

Lemma local_addr_v4_port {W} `{Sockets W} fd w addr :
  sockets_typed W -> (local_addr_v4 fd w).1 = inr addr -> 0 <= sa_port addr.
Proof.
  intros Ht (a&w'&Ea&E)%sys_bind_inr. pose proof (sk_name _ Ht fd w a) as Hp. rewrite Ea in Hp. specialize (Hp eq_refl).
  destruct (ip a); cbn in E; [by injection E as <-|done].
Qed.

Lemma listen_port {W} `{Sockets W} addr w s : sockets_typed W -> (listen addr w).1 = inr s -> 0 <= sa_port (tcp_local s).
Proof.
  intros Ht (fd&w1&_&(?&w2&_&(?&w3&_&(local&w4&El&E)%sys_bind_inr)%sys_bind_inr)%sys_bind_inr)%sys_bind_inr.
  cbn in E. injection E as <-. cbn. eapply (local_addr_v4_port fd w3); [done|]. by rewrite El.
Qed.

(** Linux's errnos, and no sockets. *)
Definition linux_sock_errnos : SockErrnos :=
  {| EAGAIN := 11; EWOULDBLOCK := 11; EINPROGRESS := 115; ECONNABORTED := 103; EPROTO := 71; SOCK_ENETDOWN := 100;
     ENETUNREACH := 101; EHOSTDOWN := 112; EHOSTUNREACH := 113; ENOPROTOOPT := 92; EOPNOTSUPP := 95 |}.
Definition idle_sockets (W : Type) : Sockets W :=
  let refused {A} : Sys W A := sys_err OtherError in
  {| sock_errnos := linux_sock_errnos; sock_stream := refused; sock_bind := fun _ _ => refused; sock_listen := fun _ _ => refused;
     sock_name := fun _ => refused; sock_accept := fun _ => refused; sock_cloexec_nonblock := fun _ => refused;
     sock_nodelay := fun _ => refused; sock_bind_device := fun _ _ => refused; sock_bound_if := fun _ _ => refused;
     egress_ifindex := fun _ => refused; sock_connect := fun _ _ => refused; so_error := fun _ => refused;
     sock_recv := fun _ _ => refused; sock_send := fun _ _ => refused; sock_writev := fun _ _ => refused;
     sock_shutdown_write := fun _ w => w; sock_shutdown := fun _ w => w; getifaddrs := refused |}.

(** Sockets that read a script, a short write at a time. *)
Definition short (n : nat) : nat := Nat.min 20 n.
Lemma short_le n : (short n <= n)%nat.
Proof. apply Nat.le_min_r. Qed.
Definition scripted_sockets : Sockets (() * list bytes) :=
  {| sock_errnos := linux_sock_errnos;
     sock_stream := fun w => (inr 12, w);
     sock_bind := fun _ _ w => (inr (), w);
     sock_listen := fun _ _ w => (inr (), w);
     sock_name := fun _ w => (inr {| ip := V4 (Ipv4.new 192 168 0 2); port := 40000 |}, w);
     sock_accept := fun _ w => (inr 13, w);
     sock_cloexec_nonblock := fun _ w => (inr (), w);
     sock_nodelay := fun _ w => (inr (), w);
     sock_bind_device := fun _ _ w => (inr (), w);
     sock_bound_if := fun _ _ w => (inr (), w);
     egress_ifindex := fun _ w => (inr 1, w);
     sock_connect := fun _ _ w => (inl (OsError 115), w);
     so_error := fun _ w => (inr 0, w);
     sock_recv := fun _ n w => match w.2 with [] => (inr [], w) | x :: l => (inr (take n x), (w.1, l)) end;
     sock_send := fun _ data w => (inr (short (length data)), w);
     sock_writev := fun _ bufs w => (inr (short (length (concat bufs))), w);
     sock_shutdown_write := fun _ w => w;
     sock_shutdown := fun _ w => w;
     getifaddrs := fun w => (inr [IfaInet (Ipv4.new 192 168 0 2)], w) |}.
Lemma scripted_typed : sockets_typed (H := scripted_sockets) (() * list bytes).
Proof.
  split; cbn -[short].
  - by intros _ w addr [= <-].
  - intros _ n w data. destruct (w.2) as [|x l]; cbn [fst]; intros [= <-]; [apply Nat.le_0_l|]. rewrite length_take. apply Nat.le_min_l.
  - intros _ data w n [= <-]. apply short_le.
  - intros _ bufs w n [= <-]. apply short_le.
Qed.
