(* ===== verification/Rtnetlink.v ===== *)
(** Linux's address resolution over rtnetlink ([src/interface/rtnetlink.rs]): the
    walk of a dump's messages and their attributes, and what is read of them.
    The layouts of libc's structures, its constants and [NLMSG_ALIGN] are
    parameters. *)

From S2P Require Import Prelude Effect Text Addr Names Interface Kernel Packet Filter Http Tcp.

Local Open Scope Z_scope.

(** What is read of [nlmsghdr], [ifaddrmsg] and [rtattr]. *)
Record NlMsgHdr : Type := { nlmsg_len : Z; nlmsg_type : Z }.
Record IfAddrMsg : Type := { ifa_family : Z; ifa_prefixlen : Z; ifa_flags : Z; ifa_index : Z }.
Record RtAttr : Type := { rta_len : Z; rta_type : Z }.

Class NetlinkAbi : Type := {
  nlmsghdr_size : nat;
  ifaddrmsg_size : nat;
  ifinfomsg_size : nat;
  rtattr_size : nat;
  nlmsghdr_of : bytes -> NlMsgHdr;
  ifaddrmsg_of : bytes -> IfAddrMsg;
  ifi_index_of : bytes -> Z;
  rtattr_of : bytes -> RtAttr;
  NLMSG_ALIGN : nat -> Z;
  NLMSG_DONE : Z;
  NLMSG_ERROR : Z;
  RTM_NEWADDR : Z;
  RTM_DELADDR : Z;
  RTM_GETADDR : Z;
  RTM_NEWLINK : Z;
  RTM_DELLINK : Z;
  RTM_GETLINK : Z;
  IFA_ADDRESS : Z;
  IFA_LOCAL : Z;
  IFA_FLAGS : Z;
  IFLA_ADDRESS : Z;
  IFLA_MTU : Z;
  IFA_F_TENTATIVE : Z;
  IFA_F_DEPRECATED : Z;
  IFA_F_DADFAILED : Z;
}.

(** The calls on a netlink socket. *)
Class NetlinkSockets (W : Type) : Type := {
  (** [blocking_socket(AF_NETLINK, SOCK_RAW, NETLINK_ROUTE)] and [set_recv_timeout] *)
  netlink_socket : Sys W Z;
  set_recv_timeout : Z -> Z -> Sys W ();
  (** [send] of a dump request of this type, with a zeroed body *)
  send_dump_request : Z -> Z -> Sys W ();
  (** [recv] with [MSG_PEEK|MSG_TRUNC]: the queued datagram's length *)
  peek_len : Z -> Sys W nat;
  (** [recvfrom] into a buffer of this length: the bytes and the sender's [nl_pid] *)
  nl_recvfrom : Z -> nat -> Sys W (bytes * Z);
}.

Section walk.
Context `{LibcConsts, NetlinkAbi}.

Definition IFA_F_UNUSABLE : Z := Z.lor (Z.lor IFA_F_TENTATIVE IFA_F_DEPRECATED) IFA_F_DADFAILED.

(** [u32::from_ne_bytes], and an [int] in memory *)
Definition from_ne_bytes (b : bytes) : Z := of_be (if little_endian then reverse b else b).
Definition c_int_of (b : bytes) : Z := let z := from_ne_bytes b in if z <? 2 ^ 31 then z else z - 2 ^ 32.

(** [read_at] *)
Definition read_at {T} (size : nat) (decode : bytes -> T) (buf : bytes) (off : nat) : option T := decode <$> get_range off (off + size) buf.

(** [nl_align] *)
Definition nl_align {E} (len : nat) : res E nat := if NLMSG_ALIGN len <? 0 then Panic else Ok (Z.to_nat (NLMSG_ALIGN len)).

(** [RtAttrs]: the attributes from [at_] on. *)
Fixpoint rtattrs {E} (fuel : nat) (msg : bytes) (at_ : nat) : res E (list (Z * bytes)) :=
  match fuel with
  | O => Panic
  | S fuel =>
      match read_at rtattr_size rtattr_of msg at_ with
      | None => Ok []
      | Some rta =>
          let rta_len := Z.to_nat (rta_len rta) in
          if decide (rta_len < rtattr_size \/ length msg < at_ + rta_len)%nat then Ok []
          else
            data ← range msg (at_ + rtattr_size) (at_ + rta_len);
            step ← nl_align rta_len;
            rest ← rtattrs fuel msg (at_ + step);
            Ok ((rta_type rta, data) :: rest)
      end
  end.

(** The attributes an address message is read by: the local address, the other
    one, and the flags. *)
Definition take_addr_attr (acc : option bytes * option bytes * Z) (attr : Z * bytes) : option bytes * option bytes * Z :=
  let '(local, address, flags) := acc in
  let '(ty, data) := attr in
  if ty =? IFA_ADDRESS then (local, Some data, flags)
  else if ty =? IFA_LOCAL then (Some data, address, flags)
  else if ty =? IFA_FLAGS then (local, address, if decide (length data = 4)%nat then from_ne_bytes data else flags)
  else acc.

Definition set_v4 (v4 prefix : Z) (a : InterfaceAddresses) : InterfaceAddresses :=
  {| ia_mac := ia_mac a; ia_v4 := Some v4; ia_v4_prefix := Some prefix; ia_v6 := ia_v6 a; ia_v6_routable := ia_v6_routable a |}.
Definition set_mac (mac : MacAddr) (a : InterfaceAddresses) : InterfaceAddresses :=
  {| ia_mac := Some mac; ia_v4 := ia_v4 a; ia_v4_prefix := ia_v4_prefix a; ia_v6 := ia_v6 a; ia_v6_routable := ia_v6_routable a |}.

(** [scan_addr] *)
Definition scan_addr {E} (ifindex : Z) (msg : bytes) (st : V6Pick * InterfaceAddresses) : res E (V6Pick * InterfaceAddresses) :=
  let '(v6_pick, addrs) := st in
  body_at ← nl_align nlmsghdr_size;
  match read_at ifaddrmsg_size ifaddrmsg_of msg body_at with
  | None => Ok st
  | Some body =>
      let family := ifa_family body in
      if negb (ifa_index body =? ifindex) || negb (family =? AF_INET) && negb (family =? AF_INET6) then Ok st
      else
        attrs_at ← nl_align ifaddrmsg_size;
        attrs ← rtattrs (S (length msg)) msg (body_at + attrs_at);
        let '(local, address, flags) := foldl take_addr_attr (None, None, ifa_flags body) attrs in
        match (match local with Some b => Some b | None => address end) with
        | None => Ok st
        | Some bytes =>
            let usable := Z.land flags IFA_F_UNUSABLE =? 0 in
            if family =? AF_INET then
              if decide (length bytes = 4)%nat then
                if negb usable then Ok st
                else match ia_v4 addrs with
                     | Some _ => Ok st
                     | None => Ok (v6_pick, set_v4 (of_be bytes) (ifa_prefixlen body) addrs)
                     end
              else Ok st
            else if decide (length bytes = 16)%nat then Ok (if usable then consider v6_pick addrs (of_be bytes) else st)
            else Ok st
        end
  end.

(** [scan_link] *)
Definition take_link_attr (acc : InterfaceAddresses * option Z) (attr : Z * bytes) : InterfaceAddresses * option Z :=
  let '(addrs, mtu) := acc in
  let '(ty, data) := attr in
  if (ty =? IFLA_ADDRESS) && bool_decide (length data = 6)%nat then (set_mac data addrs, mtu)
  else if (ty =? IFLA_MTU) && bool_decide (length data = 4)%nat then (addrs, Some (from_ne_bytes data))
  else acc.
Definition scan_link {E} (ifindex : Z) (msg : bytes) (st : InterfaceAddresses * option Z) : res E (InterfaceAddresses * option Z) :=
  body_at ← nl_align nlmsghdr_size;
  match read_at ifinfomsg_size ifi_index_of msg body_at with
  | None => Ok st
  | Some index =>
      if negb (index =? ifindex) then Ok st
      else
        attrs_at ← nl_align ifinfomsg_size;
        attrs ← rtattrs (S (length msg)) msg (body_at + attrs_at);
        Ok (foldl take_link_attr st attrs)
  end.

(** [DumpStep] *)
Inductive DumpStep : Type := Done | Failed (e : IoError) | More.

(** [nlmsg_error]; [saturating_neg] of an [i32] *)
Definition saturating_neg (z : Z) : Z := Z.min (- z) (2 ^ 31 - 1).
Definition nlmsg_error {E} (buf : bytes) (offset : nat) : res E IoError :=
  body_at ← nl_align nlmsghdr_size;
  Ok (match read_at 4 c_int_of buf (offset + body_at) with
      | Some errno => if negb (errno =? 0) then OsError (saturating_neg errno) else OtherError
      | None => OtherError
      end).

(** [walk_dump] *)
Fixpoint walk_dump {E St} (fuel : nat) (buf : bytes) (reply_type : Z) (on_msg : bytes -> St -> res E St) (offset : nat) (st : St)
    : res E (DumpStep * St) :=
  match fuel with
  | O => Panic
  | S fuel =>
      match read_at nlmsghdr_size nlmsghdr_of buf offset with
      | None => Ok (More, st)
      | Some hdr =>
          let len := Z.to_nat (nlmsg_len hdr) in
          if decide (len < nlmsghdr_size \/ length buf < offset + len)%nat then Ok (More, st)
          else if nlmsg_type hdr =? NLMSG_DONE then Ok (Done, st)
          else if nlmsg_type hdr =? NLMSG_ERROR then e ← nlmsg_error buf offset; Ok (Failed e, st)
          else
            st ← (if nlmsg_type hdr =? reply_type then msg ← range buf offset (offset + len); on_msg msg st else Ok st);
            step ← nl_align len;
            walk_dump fuel buf reply_type on_msg (offset + step) st
      end
  end.
End walk.

(** ** The dumps *)

Definition READ_TIMEOUT : Z := 10 ^ 9.
Definition DUMP_DEADLINE : Z := 5 * 10 ^ 9.

Section dump.
Context {W : Type} `{Kernel W, Sockets W, LibcConsts, NetlinkAbi, NetlinkSockets W}.

(** A call, beside what the messages are read into. *)
Definition nl_ask {St A} (m : Sys W A) : M (St * W) IoError A := fun s =>
  match m s.2 with
  | (inr a, w) => (Ok a, (s.1, w))
  | (inl e, w) => (Err e, (s.1, w))
  end.
Definition nl_now {St} : M (St * W) IoError Z := fun s => let '(t, w) := clock s.2 in (Ok t, (s.1, w)).

(** The turns of [dump]'s loop, until the kernel's [NLMSG_DONE]. *)
Fixpoint dump_loop {St} (fuel : nat) (fd reply_type deadline : Z) (on_msg : bytes -> St -> res IoError St) : M (St * W) IoError () :=
  match fuel with
  | O => lift Panic
  | S fuel =>
      t ← nl_now;
      if deadline <=? t then fail OtherError
      else
        size ← nl_ask (status (peek_len fd));
        match size with
        | WouldBlock => fail OtherError
        | Ready size =>
            received ← nl_ask (status (nl_recvfrom fd size));
            match received with
            | WouldBlock => fail OtherError
            | Ready (data, nl_pid) =>
                if negb (nl_pid =? 0) then dump_loop fuel fd reply_type deadline on_msg
                else
                  st ← gets fst;
                  '(step, st) ← lift (walk_dump (S (length data)) data reply_type on_msg 0 st);
                  _ ← modify (fun s => (st, s.2));
                  match step with
                  | Done => mret ()
                  | Failed e => fail e
                  | More => dump_loop fuel fd reply_type deadline on_msg
                  end
            end
        end
  end.

(** [dump] *)
Definition dump {St} (fuel : nat) (fd request_type reply_type : Z) (on_msg : bytes -> St -> res IoError St) : M (St * W) IoError () :=
  _ ← nl_ask (send_dump_request fd request_type);
  t ← nl_now;
  dump_loop fuel fd reply_type (t + DUMP_DEADLINE) on_msg.

(** [netlink_socket] *)
Definition open_netlink_socket : Sys W Z :=
  sock ← netlink_socket;
  _ ← set_recv_timeout sock READ_TIMEOUT;
  mret sock.

(** What a computation leaves of its part of the state. *)
Definition finally {St} (m : M (St * W) IoError ()) (st : St) : M W IoError St := fun w =>
  match m (st, w) with
  | (Ok _, (st, w)) => (Ok st, w)
  | (Err e, (_, w)) => (Err e, w)
  | (Panic, (_, w)) => (Panic, w)
  end.

(** [resolve] *)
Definition nl_resolve (fuel : nat) (ifindex : Z) : M W IoError (InterfaceAddresses * option Z) :=
  sock ← (fun w => match open_netlink_socket w with (inr fd, w) => (Ok fd, w) | (inl e, w) => (Err e, w) end);
  '(_, addrs) ← finally (dump fuel sock RTM_GETADDR RTM_NEWADDR (scan_addr ifindex)) (v6_pick_new, no_addrs);
  finally (dump fuel sock RTM_GETLINK RTM_NEWLINK (scan_link ifindex)) (addrs, None).
End dump.

(** The rtnetlink dumps: no datagram breaks the walk, a dump ends, only the
    kernel's own messages are read, all of them and in order, and what is read
    of them. *)

(** The documented layout: rounding up, and structures that are not empty. *)
Record netlink_layout `{NetlinkAbi} : Prop := {
  align_ge : forall n, Z.of_nat n < 2 ^ 31 -> Z.of_nat n <= NLMSG_ALIGN n;
  nlmsghdr_nonempty : (0 < nlmsghdr_size)%nat;
  rtattr_nonempty : (0 < rtattr_size)%nat;
  nlmsghdr_small : Z.of_nat nlmsghdr_size < 2 ^ 31;
  ifaddrmsg_small : Z.of_nat ifaddrmsg_size < 2 ^ 31;
  ifinfomsg_small : Z.of_nat ifinfomsg_size < 2 ^ 31;
}.
Definition in_buffer (b : bytes) : Prop := Z.of_nat (length b) < 2 ^ 31.

Section walk.
Context `{LibcConsts, NetlinkAbi} (Habi : netlink_layout).

Lemma nl_align_ok {E} n : Z.of_nat n < 2 ^ 31 -> exists k, nl_align (E:=E) n = Ok k /\ (n <= k)%nat.
Proof.
  intros Hn. pose proof (align_ge Habi n Hn). exists (Z.to_nat (NLMSG_ALIGN n)). unfold nl_align.
  rewrite (proj2 (Z.ltb_ge _ _)) by lia. split; [done|lia].
Qed.
Lemma nl_align_safe {E} n : Z.of_nat n < 2 ^ 31 -> safe (nl_align (E:=E) n).
Proof. intros Hn. destruct (nl_align_ok (E:=E) n Hn) as (k&->&_). done. Qed.

Lemma rtattrs_safe {E} fuel msg at_ : in_buffer msg -> (length msg < at_ + fuel)%nat -> (0 < fuel)%nat -> safe (rtattrs (E:=E) fuel msg at_).
Proof.
  intros Hmsg. revert at_. induction fuel as [|fuel IH]; intros at_ Hf Hpos; [lia|]. cbn [rtattrs].
  destruct (read_at _ _ msg at_) as [rta|]; [|done]. case_decide as Hd; [done|]. pose proof (rtattr_nonempty Habi).
  rewrite range_ok by lia. cbn [mbind res_bind]. unfold in_buffer in Hmsg.
  destruct (nl_align_ok (E:=E) (Z.to_nat (rta_len rta)) ltac:(lia)) as (k&->&Hk). cbn [mbind res_bind].
  apply bind_safe; [|done]. apply IH; lia.
Qed.

Lemma scan_addr_safe {E} ifindex msg st : in_buffer msg -> safe (scan_addr (E:=E) ifindex msg st).
Proof.
  intros Hmsg. destruct st as [p a]. unfold scan_addr. apply bind_safe; [apply nl_align_safe, (nlmsghdr_small Habi)|]. intros body_at _.
  destruct (read_at _ _ msg body_at) as [body|]; [|done]. destruct (_ || _); [done|].
  apply bind_safe; [apply nl_align_safe, (ifaddrmsg_small Habi)|]. intros attrs_at _.
  apply bind_safe; [apply rtattrs_safe; [done|lia..]|]. intros attrs _.
  destruct (foldl _ _ _) as [[local address] flags]. repeat case_match; done.
Qed.
Lemma scan_link_safe {E} ifindex msg st : in_buffer msg -> safe (scan_link (E:=E) ifindex msg st).
Proof.
  intros Hmsg. unfold scan_link. apply bind_safe; [apply nl_align_safe, (nlmsghdr_small Habi)|]. intros body_at _.
  destruct (read_at _ _ msg body_at) as [body|]; [|done]. destruct (negb _); [done|].
  apply bind_safe; [apply nl_align_safe, (ifinfomsg_small Habi)|]. intros attrs_at _.
  apply bind_safe; [apply rtattrs_safe; [done|lia..]|]. done.
Qed.

Lemma walk_dump_safe {E St} fuel buf reply_type (on_msg : bytes -> St -> res E St) offset st :
  (forall msg st, in_buffer msg -> safe (on_msg msg st)) -> in_buffer buf -> (length buf < offset + fuel)%nat -> (0 < fuel)%nat ->
  safe (walk_dump fuel buf reply_type on_msg offset st).
Proof.
  intros Hon Hbuf. unfold in_buffer in *. revert offset st. induction fuel as [|fuel IH]; intros offset st Hf Hpos; [lia|]. cbn [walk_dump].
  destruct (read_at _ _ buf offset) as [hdr|]; [|done]. case_decide as Hd; [done|]. pose proof (nlmsghdr_nonempty Habi).
  case_match; [done|]. case_match.
  { apply bind_safe; [|done]. unfold nlmsg_error. apply bind_safe; [apply nl_align_safe, (nlmsghdr_small Habi)|done]. }
  apply bind_safe.
  { case_match; [|done]. rewrite range_ok by lia. cbn [mbind res_bind]. apply Hon. rewrite length_take, length_drop. lia. }
  intros st' _. destruct (nl_align_ok (E:=E) (Z.to_nat (nlmsg_len hdr)) ltac:(lia)) as (k&->&Hk). cbn [mbind res_bind]. apply IH; lia.
Qed.
End walk.

(** ** What a datagram says *)

Section messages.
Context `{LibcConsts, NetlinkAbi} (Habi : netlink_layout).

(** A message as the kernel writes it, and a datagram of them, each padded but
    maybe the last. *)
Definition message_ok (ty : Z) (msg : bytes) : Prop :=
  (nlmsghdr_size <= length msg)%nat /\ nlmsg_len (nlmsghdr_of (take nlmsghdr_size msg)) = Z.of_nat (length msg) /\
  nlmsg_type (nlmsghdr_of (take nlmsghdr_size msg)) = ty.
Inductive datagram_of : list (Z * bytes) -> bytes -> Prop :=
  | datagram_end tail : (length tail < nlmsghdr_size)%nat -> datagram_of [] tail
  | datagram_last ty msg : message_ok ty msg -> datagram_of [(ty, msg)] msg
  | datagram_cons ty msg pad l data : message_ok ty msg -> Z.of_nat (length msg + length pad) = NLMSG_ALIGN (length msg) ->
      datagram_of l data -> datagram_of ((ty, msg) :: l) (msg ++ pad ++ data).

(** The messages of the kind asked for, given to their reader in order. *)
Fixpoint feed {E St} (reply_type : Z) (on_msg : bytes -> St -> res E St) (l : list (Z * bytes)) (st : St) : res E St :=
  match l with
  | [] => Ok st
  | (ty, msg) :: l => st ← (if ty =? reply_type then on_msg msg st else Ok st); feed reply_type on_msg l st
  end.
Definition plain (l : list (Z * bytes)) : Prop := Forall (fun m => m.1 <> NLMSG_DONE /\ m.1 <> NLMSG_ERROR) l.

Lemma feed_app {E St} reply_type (on_msg : bytes -> St -> res E St) l1 l2 st :
  feed reply_type on_msg (l1 ++ l2) st = feed reply_type on_msg l1 st ≫= feed reply_type on_msg l2.
Proof.
  revert st. induction l1 as [|[ty msg] l1 IH]; intros st; [done|]. cbn [app feed].
  destruct (if ty =? reply_type then _ else _); cbn [mbind res_bind]; [apply IH|done..].
Qed.

(** The header read where a message starts. *)
Lemma read_header ty msg rest off buf : message_ok ty msg -> drop off buf = msg ++ rest -> (off <= length buf)%nat ->
  read_at nlmsghdr_size nlmsghdr_of buf off = Some {| nlmsg_len := Z.of_nat (length msg); nlmsg_type := ty |} /\
  get_range off (off + length msg) buf = Some msg /\ (off + length msg <= length buf)%nat.
Proof.
  intros (Hs&Hl&Ht) E Hoff. assert (Hlen : (length buf - off = length msg + length rest)%nat) by (rewrite <- length_drop, E, length_app; lia).
  unfold read_at. rewrite !get_range_is_Some by lia. rewrite E. replace (off + nlmsghdr_size - off)%nat with nlmsghdr_size by lia.
  replace (off + length msg - off)%nat with (length msg) by lia. rewrite take_app_length, take_app_le by done.
  cbn [fmap option_fmap option_map]. split; [|by split; [|lia]]. f_equal. rewrite <- Hl, <- Ht. by destruct (nlmsghdr_of _).
Qed.

Lemma no_header off buf : (length (drop off buf) < nlmsghdr_size)%nat -> read_at nlmsghdr_size nlmsghdr_of buf off = None.
Proof. rewrite length_drop. intros Hs. unfold read_at, get_range. by rewrite decide_False by lia. Qed.

(** One message of the walk. *)
Lemma walk_message {E St} fuel reply_type (on_msg : bytes -> St -> res E St) ty msg rest buf off st :
  message_ok ty msg -> ty <> NLMSG_ERROR -> drop off buf = msg ++ rest -> (off <= length buf)%nat -> in_buffer buf ->
  walk_dump (S fuel) buf reply_type on_msg off st =
    if ty =? NLMSG_DONE then Ok (Done, st)
    else st ← (if ty =? reply_type then on_msg msg st else Ok st);
         walk_dump fuel buf reply_type on_msg (off + Z.to_nat (NLMSG_ALIGN (length msg))) st.
Proof.
  intros Hm Herr Ed Hoff Hbuf. destruct (read_header _ _ _ _ _ Hm Ed Hoff) as (Eh&Er&Hlen). cbn [walk_dump]. rewrite Eh.
  cbn [nlmsg_len nlmsg_type]. rewrite Nat2Z.id, decide_False by (destruct Hm as [? _]; lia).
  destruct (ty =? NLMSG_DONE); [done|]. rewrite (proj2 (Z.eqb_neq _ _) Herr). unfold in_buffer in Hbuf.
  unfold range. rewrite Er. cbn [expect mbind res_bind]. destruct (if ty =? reply_type then _ else _) as [st'| |]; cbn [mbind res_bind]; [|done..].
  unfold nl_align. pose proof (align_ge Habi (length msg) ltac:(lia)). by rewrite (proj2 (Z.ltb_ge _ _)) by lia.
Qed.

Lemma walk_ended {E St} fuel reply_type (on_msg : bytes -> St -> res E St) buf off st :
  (length (drop off buf) < nlmsghdr_size)%nat -> (0 < fuel)%nat -> walk_dump fuel buf reply_type on_msg off st = Ok (More, st).
Proof. intros Hd Hf. destruct fuel as [|fuel]; [lia|]. cbn [walk_dump]. by rewrite no_header. Qed.

(** What a walk makes of a datagram's messages. *)
Fixpoint said {E St} (reply_type : Z) (on_msg : bytes -> St -> res E St) (l : list (Z * bytes)) (st : St) : res E (DumpStep * St) :=
  match l with
  | [] => Ok (More, st)
  | (ty, msg) :: l =>
      if ty =? NLMSG_DONE then Ok (Done, st)
      else st ← (if ty =? reply_type then on_msg msg st else Ok st); said reply_type on_msg l st
  end.

Lemma walk_datagram {E St} reply_type (on_msg : bytes -> St -> res E St) l data : datagram_of l data ->
  forall fuel buf off st, drop off buf = data -> (off <= length buf)%nat -> (length buf < off + fuel)%nat -> in_buffer buf ->
  Forall (fun m => m.1 <> NLMSG_ERROR) l -> walk_dump fuel buf reply_type on_msg off st = said reply_type on_msg l st.
Proof.
  pose proof (nlmsghdr_nonempty Habi) as Hne. induction 1 as [tail Ht|ty msg Hm|ty msg pad l data Hm Hpad _ IH]; intros fuel buf off st Ed Hoff Hf Hbuf Hl.
  - apply walk_ended; [by rewrite Ed|lia].
  - apply Forall_cons in Hl as [Herr _]. destruct fuel as [|fuel]; [lia|]. rewrite <- (app_nil_r msg) in Ed.
    rewrite (walk_message _ _ _ _ _ _ _ _ _ Hm Herr Ed Hoff Hbuf). cbn [said]. destruct (ty =? NLMSG_DONE); [done|].
    destruct (if ty =? reply_type then _ else _) as [st'| |]; cbn [mbind res_bind]; [|done..].
    assert (Hlen : (length buf - off = length msg)%nat) by (rewrite <- length_drop, Ed, app_nil_r; done).
    destruct Hm as [Hs _]. unfold in_buffer in Hbuf. pose proof (align_ge Habi (length msg) ltac:(lia)).
    apply walk_ended; [rewrite length_drop; lia|lia].
  - apply Forall_cons in Hl as [Herr Hl]. destruct fuel as [|fuel]; [lia|].
    rewrite (walk_message _ _ _ _ _ _ _ _ _ Hm Herr Ed Hoff Hbuf). cbn [said]. destruct (ty =? NLMSG_DONE); [done|].
    destruct (if ty =? reply_type then _ else _) as [st'| |]; cbn [mbind res_bind]; [|done..].
    assert (Hlen : (length buf - off = length msg + (length pad + length data))%nat) by (rewrite <- length_drop, Ed, !length_app; lia).
    destruct Hm as [Hs _]. rewrite <- Hpad, Nat2Z.id. apply IH; [|lia|lia|done|done].
    rewrite <- drop_drop, Ed, app_assoc, <- length_app. apply drop_app_length.
Qed.

Lemma said_plain {E St} reply_type (on_msg : bytes -> St -> res E St) l st :
  plain l -> said reply_type on_msg l st = (fun st => (More, st)) <$> feed reply_type on_msg l st.
Proof.
  intros Hl. revert st. induction Hl as [|[ty msg] l [Hd _] _ IH]; intros st; [done|]. cbn [said feed fst] in *.
  rewrite (proj2 (Z.eqb_neq _ _) Hd). destruct (if ty =? reply_type then _ else _); cbn [mbind res_bind]; [apply IH|done..].
Qed.
Lemma said_done {E St} reply_type (on_msg : bytes -> St -> res E St) before done after st :
  plain before -> said reply_type on_msg (before ++ (NLMSG_DONE, done) :: after) st = (fun st => (Done, st)) <$> feed reply_type on_msg before st.
Proof.
  intros Hl. revert st. induction Hl as [|[ty msg] l [Hd _] _ IH]; intros st; cbn [app said feed fst] in *; [by rewrite Z.eqb_refl|].
  rewrite (proj2 (Z.eqb_neq _ _) Hd). destruct (if ty =? reply_type then _ else _); cbn [mbind res_bind]; [apply IH|done..].
Qed.
End messages.

(** ** A dump *)

Section dumps.
Context {W : Type} `{Kernel W, Sockets W, LibcConsts, NetlinkAbi, NetlinkSockets W} (Habi : netlink_layout).

(** Datagrams received one after the other before the deadline, each with its
    sender's pid. *)
Inductive receives (fd deadline : Z) : list (Z * bytes) -> W -> W -> Prop :=
  | receives_end w : receives fd deadline [] w w
  | receives_cons pid data l w t w1 w2 w3 w' :
      clock w = (t, w1) -> t < deadline -> peek_len fd w1 = (inr (length data), w2) ->
      nl_recvfrom fd (length data) w2 = (inr (data, pid), w3) -> receives fd deadline l w3 w' ->
      receives fd deadline ((pid, data) :: l) w w'.

(** The kernel's messages among them; another sender's datagrams are anything. *)
Inductive genuine : list (Z * bytes) -> list (Z * bytes) -> Prop :=
  | genuine_end : genuine [] []
  | genuine_kernel data l ms ms' : in_buffer data -> datagram_of ms data -> genuine l ms' -> genuine ((0, data) :: l) (ms ++ ms')
  | genuine_other pid data l ms : pid <> 0 -> genuine l ms -> genuine ((pid, data) :: l) ms.

(** One datagram of the loop. *)
Lemma dump_turn {St} fuel fd reply_type deadline (on_msg : bytes -> St -> res IoError St) pid data st w t w1 w2 w3 :
  clock w = (t, w1) -> t < deadline -> peek_len fd w1 = (inr (length data), w2) ->
  nl_recvfrom fd (length data) w2 = (inr (data, pid), w3) ->
  dump_loop (S fuel) fd reply_type deadline on_msg (st, w) =
    if negb (pid =? 0) then dump_loop fuel fd reply_type deadline on_msg (st, w3)
    else match walk_dump (S (length data)) data reply_type on_msg 0 st with
         | Ok (Done, st) => (Ok (), (st, w3))
         | Ok (Failed e, st) => (Err e, (st, w3))
         | Ok (More, st) => dump_loop fuel fd reply_type deadline on_msg (st, w3)
         | Err e => (Err e, (st, w3))
         | Panic => (Panic, (st, w3))
         end.
Proof.
  intros Ec Ht Ep Er. cbn [dump_loop]. unfold nl_now, nl_ask, status, mbind, M_bind. cbn [fst snd]. rewrite Ec.
  rewrite (proj2 (Z.leb_gt _ _)) by done. cbn [fst snd]. rewrite Ep. cbn [from_syscall fst snd]. rewrite Er. cbn [from_syscall fst snd].
  destruct (negb _); [done|]. unfold gets, lift, modify. cbn [fst snd]. by destruct (walk_dump _ _ _ _ _ _) as [[[] st']|e|].
Qed.

Lemma dump_of_datagrams {St} fd reply_type deadline (on_msg : bytes -> St -> res IoError St) l ms : genuine l ms -> plain ms ->
  forall final done after before fuel st st1 st2 w w',
  in_buffer final -> datagram_of (before ++ (NLMSG_DONE, done) :: after) final -> plain before ->
  Forall (fun m => m.1 <> NLMSG_ERROR) (before ++ (NLMSG_DONE, done) :: after) ->
  receives fd deadline (l ++ [(0, final)]) w w' -> (length l < fuel)%nat ->
  feed reply_type on_msg ms st = Ok st1 -> feed reply_type on_msg before st1 = Ok st2 ->
  dump_loop fuel fd reply_type deadline on_msg (st, w) = (Ok (), (st2, w')).
Proof.
  induction 1 as [|data l ms ms' Hbuf Hd Hl IH|pid data l ms Hpid Hl IH]; intros Hplain final done after before [|fuel] st st1 st2 w w'
    Hfin Hdg Hb Herr Hrecv Hfuel Hf1 Hf2; cbn [length] in Hfuel; try lia.
  - injection Hf1 as <-. inversion Hrecv as [|pid data l0 w0 t w1 w2 w3 w4 Ec Ht Ep Er Hrest]; subst. inversion Hrest; subst.
    rewrite (dump_turn _ _ _ _ _ _ _ _ _ _ _ _ _ Ec Ht Ep Er). cbn [Z.eqb negb].
    rewrite (walk_datagram Habi _ _ _ _ Hdg) by (done || lia). by rewrite said_done, Hf2.
  - apply Forall_app in Hplain as [Hp1 Hp2]. rewrite feed_app in Hf1. apply bind_Ok in Hf1 as (st0&Hf0&Hf1).
    inversion Hrecv as [|pid' data' l0 w0 t w1 w2 w3 w4 Ec Ht Ep Er Hrest]; subst.
    rewrite (dump_turn _ _ _ _ _ _ _ _ _ _ _ _ _ Ec Ht Ep Er). cbn [Z.eqb negb].
    rewrite (walk_datagram Habi _ _ _ _ Hd) by (done || lia || (eapply Forall_impl; [exact Hp1|]; by intros ? [_ ?])).
    rewrite said_plain, Hf0 by done. cbn [fmap res_fmap]. eapply IH; eauto. lia.
  - inversion Hrecv as [|pid' data' l0 w0 t w1 w2 w3 w4 Ec Ht Ep Er Hrest]; subst.
    rewrite (dump_turn _ _ _ _ _ _ _ _ _ _ _ _ _ Ec Ht Ep Er). rewrite (proj2 (Z.eqb_neq _ _) Hpid). cbn [negb]. eapply IH; eauto. lia.
Qed.

(** C33. A dump reads the kernel's answer, whole, in order and alone. Whatever
    datagrams arrive before the deadline, those of the kernel being well formed and
    reporting no error, in however many pieces the kernel splits its messages, those
    of other senders are ignored, every message of the kind asked for is given to
    its reader, in order, and the dump ends at the kernel's NLMSG_DONE. *)
Theorem dump_reads_kernel_messages {St} fd request_type reply_type (on_msg : bytes -> St -> res IoError St)
    l ms final before done after fuel st st' w w0 t w1 w' :
  send_dump_request fd request_type w = (inr (), w0) -> clock w0 = (t, w1) ->
  receives fd (t + DUMP_DEADLINE) (l ++ [(0, final)]) w1 w' ->
  genuine l ms -> plain ms -> in_buffer final -> datagram_of (before ++ (NLMSG_DONE, done) :: after) final -> plain before ->
  Forall (fun m => m.1 <> NLMSG_ERROR) (before ++ (NLMSG_DONE, done) :: after) -> (length l < fuel)%nat ->
  feed reply_type on_msg (ms ++ before) st = Ok st' ->
  dump fuel fd request_type reply_type on_msg (st, w) = (Ok (), (st', w')).
Proof.
  intros Hsend Hclock Hrecv Hl Hms Hfin Hdg Hb Herr Hfuel Hfeed. rewrite feed_app in Hfeed. apply bind_Ok in Hfeed as (st1&Hf1&Hf2).
  unfold dump, nl_ask, nl_now, mbind, M_bind. cbn [fst snd]. rewrite Hsend. cbn [fst snd]. rewrite Hclock.
  eapply (dump_of_datagrams _ _ _ _ l ms); eauto.
Qed.
End dumps.

(** ** What is read of the addresses *)

Section addresses.
Context `{LibcConsts, NetlinkAbi} (Habi : netlink_layout).

(** An attribute as the kernel writes it, and a run of them, each padded but
    maybe the last. *)
Definition attr_ok (ty : Z) (hdr data : bytes) : Prop :=
  length hdr = rtattr_size /\ rtattr_of hdr = {| rta_len := Z.of_nat (rtattr_size + length data); rta_type := ty |}.
Inductive attrs_of : list (Z * bytes) -> bytes -> Prop :=
  | attrs_end tail : (length tail < rtattr_size)%nat -> attrs_of [] tail
  | attrs_last ty hdr data : attr_ok ty hdr data -> attrs_of [(ty, data)] (hdr ++ data)
  | attrs_cons ty hdr data pad l rest : attr_ok ty hdr data ->
      Z.of_nat (length (hdr ++ data) + length pad) = NLMSG_ALIGN (length (hdr ++ data)) ->
      attrs_of l rest -> attrs_of ((ty, data) :: l) ((hdr ++ data) ++ pad ++ rest).

(** One attribute of the walk. *)
Lemma walk_attr {E} fuel ty hdr data rest msg at_ : attr_ok ty hdr data -> drop at_ msg = (hdr ++ data) ++ rest -> (at_ <= length msg)%nat ->
  in_buffer msg ->
  rtattrs (E:=E) (S fuel) msg at_ =
    cons (ty, data) <$> rtattrs fuel msg (at_ + Z.to_nat (NLMSG_ALIGN (length (hdr ++ data)))).
Proof.
  intros [Hh Ho] E0 Hat Hbuf. assert (Hlen : (length msg - at_ = rtattr_size + length data + length rest)%nat).
  { rewrite <- length_drop, E0, !length_app. lia. }
  cbn [rtattrs]. unfold read_at. rewrite get_range_is_Some by lia. rewrite E0. replace (at_ + rtattr_size - at_)%nat with (length hdr) by lia.
  rewrite <- app_assoc, take_app_length. cbn [fmap option_fmap option_map]. rewrite Ho. cbn [rta_len rta_type]. rewrite Nat2Z.id.
  rewrite decide_False by lia. unfold range. rewrite get_range_is_Some by lia. rewrite <- drop_drop, E0, <- app_assoc, <- Hh, drop_app_length.
  replace (at_ + (length hdr + length data) - (at_ + length hdr))%nat with (length data) by lia. rewrite take_app_length.
  cbn [expect mbind res_bind]. unfold in_buffer in Hbuf. unfold nl_align. rewrite <- length_app.
  pose proof (align_ge Habi (length (hdr ++ data)) ltac:(rewrite length_app; lia)). rewrite (proj2 (Z.ltb_ge _ _)) by lia. cbn [mbind res_bind].
  by destruct (rtattrs _ _ _).
Qed.

Lemma rtattrs_read {E} l rest : attrs_of l rest -> forall fuel msg at_, drop at_ msg = rest -> (at_ <= length msg)%nat ->
  (length msg < at_ + fuel)%nat -> in_buffer msg -> rtattrs (E:=E) fuel msg at_ = Ok l.
Proof.
  pose proof (rtattr_nonempty Habi) as Hne.
  assert (Hend : forall fuel msg at_, (length (drop at_ msg) < rtattr_size)%nat -> (0 < fuel)%nat -> rtattrs (E:=E) fuel msg at_ = Ok []).
  { intros [|fuel] msg at_ Hs Hf; [lia|]. rewrite length_drop in Hs. cbn [rtattrs]. unfold read_at, get_range. by rewrite decide_False by lia. }
  induction 1 as [tail Ht|ty hdr data Ha|ty hdr data pad l rest Ha Hpad _ IH]; intros fuel msg at_ E0 Hat Hf Hbuf.
  - apply Hend; [by rewrite E0|lia].
  - destruct fuel as [|fuel]; [lia|]. rewrite <- (app_nil_r (hdr ++ data)) in E0. rewrite (walk_attr _ _ _ _ _ _ _ Ha E0 Hat Hbuf).
    assert (Hlen : (length msg - at_ = length (hdr ++ data))%nat) by (rewrite <- length_drop, E0, app_nil_r; done).
    destruct Ha as [Hh _]. unfold in_buffer in Hbuf. pose proof (align_ge Habi (length (hdr ++ data)) ltac:(lia)). rewrite length_app in *.
    rewrite Hend; [done|rewrite length_drop; lia|lia].
  - destruct fuel as [|fuel]; [lia|]. rewrite (walk_attr _ _ _ _ _ _ _ Ha E0 Hat Hbuf).
    assert (Hlen : (length msg - at_ = length (hdr ++ data) + (length pad + length rest))%nat) by (rewrite <- length_drop, E0, !length_app; lia).
    assert (Hpos : (0 < length (hdr ++ data))%nat) by (destruct Ha as [Hh _]; rewrite length_app; lia).
    rewrite <- Hpad, Nat2Z.id. rewrite IH; [done| |lia|lia|done].
    rewrite <- drop_drop, E0, app_assoc, <- length_app. apply drop_app_length.
Qed.

(** An address message: the fixed fields and the attributes. *)
Record AddrMessage : Type := { am_body : IfAddrMsg; am_attrs : list (Z * bytes) }.
Definition encodes (m : AddrMessage) (msg : bytes) : Prop :=
  in_buffer msg /\ exists body_at attrs_at, nl_align (E:=Infallible) nlmsghdr_size = Ok body_at /\ nl_align (E:=Infallible) ifaddrmsg_size = Ok attrs_at /\
    read_at ifaddrmsg_size ifaddrmsg_of msg body_at = Some (am_body m) /\ (body_at + attrs_at <= length msg)%nat /\
    attrs_of (am_attrs m) (drop (body_at + attrs_at) msg).

(** The attributes of a kind; the last one counts. *)
Definition values (ty : Z) (attrs : list (Z * bytes)) : list bytes := omap (fun a => if a.1 =? ty then Some a.2 else None) attrs.
Definition address_of (m : AddrMessage) : option bytes :=
  match last (values IFA_LOCAL (am_attrs m)) with Some b => Some b | None => last (values IFA_ADDRESS (am_attrs m)) end.
Definition flags_of (m : AddrMessage) : Z :=
  match last (filter (fun b => length b = 4%nat) (values IFA_FLAGS (am_attrs m))) with
  | Some b => from_ne_bytes b
  | None => ifa_flags (am_body m)
  end.
(** The usable address a message holds for an interface: not tentative,
    deprecated or a duplicate. *)
Definition usable_address (ifindex family : Z) (len : nat) (m : AddrMessage) : option bytes :=
  b ← address_of m;
  if (ifa_index (am_body m) =? ifindex) && (ifa_family (am_body m) =? family) && (Z.land (flags_of m) IFA_F_UNUSABLE =? 0) &&
     bool_decide (length b = len)
  then Some b else None.
Definition v4_of (ifindex : Z) (m : AddrMessage) : option (Z * Z) :=
  b ← usable_address ifindex AF_INET 4 m; Some (of_be b, ifa_prefixlen (am_body m)).
Definition v6_of (ifindex : Z) (m : AddrMessage) : option Z := b ← usable_address ifindex AF_INET6 16 m; Some (of_be b).

Record abi_distinct : Prop := {
  ad_local : IFA_LOCAL <> IFA_ADDRESS;
  ad_flags_address : IFA_FLAGS <> IFA_ADDRESS;
  ad_flags_local : IFA_FLAGS <> IFA_LOCAL;
  ad_family : AF_INET <> AF_INET6;
}.
Context (Hdistinct : abi_distinct).

Lemma nl_align_any {E} n k : nl_align (E:=Infallible) n = Ok k -> nl_align (E:=E) n = Ok k.
Proof. unfold nl_align. by destruct (_ <? 0); intros [= <-]. Qed.

Lemma last_or {A} (x : A) l (d : option A) : match last (x :: l) with Some y => Some y | None => d end =
  match last l with Some y => Some y | None => Some x end.
Proof. destruct l as [|y l]; [done|]. rewrite last_cons_cons. by destruct (last (y :: l)) eqn:E; [|apply last_None in E]. Qed.

Lemma take_attrs attrs local address flags :
  foldl take_addr_attr (local, address, flags) attrs =
    (match last (values IFA_LOCAL attrs) with Some b => Some b | None => local end,
     match last (values IFA_ADDRESS attrs) with Some b => Some b | None => address end,
     match last (filter (fun b => length b = 4%nat) (values IFA_FLAGS attrs)) with Some b => from_ne_bytes b | None => flags end).
Proof.
  destruct Hdistinct as [D1 D2 D3 _]. revert local address flags. induction attrs as [|[ty data] attrs IH]; intros local address flags; [done|].
  cbn [foldl take_addr_attr]. unfold values. cbn [omap list_omap fst snd]. fold (values IFA_LOCAL attrs) (values IFA_ADDRESS attrs) (values IFA_FLAGS attrs).
  destruct (Z.eqb_spec ty IFA_ADDRESS) as [->|Ha].
  { rewrite IH, !(proj2 (Z.eqb_neq _ _)) by congruence. by rewrite last_or. }
  destruct (Z.eqb_spec ty IFA_LOCAL) as [->|Hl].
  { rewrite IH, !(proj2 (Z.eqb_neq _ _)) by congruence. by rewrite last_or. }
  destruct (Z.eqb_spec ty IFA_FLAGS) as [->|Hf]; [|by rewrite IH].
  rewrite IH, filter_cons. case_decide; [|done]. f_equal. destruct (filter _ _) as [|y l]; [done|]. rewrite last_cons_cons.
  by destruct (last (y :: l)) eqn:E; [|apply last_None in E].
Qed.

(** One message read. *)
Lemma scan_message {E} ifindex m msg p a : encodes m msg ->
  scan_addr (E:=E) ifindex msg (p, a) =
    Ok (match v4_of ifindex m with
        | Some (v4, prefix) => (p, match ia_v4 a with Some _ => a | None => set_v4 v4 prefix a end)
        | None => match v6_of ifindex m with Some v6 => consider p a v6 | None => (p, a) end
        end).
Proof.
  intros (Hbuf&body_at&attrs_at&Eb&Ea&Hread&Hle&Hattrs). unfold scan_addr.
  rewrite (nl_align_any _ _ Eb). cbn [mbind res_bind]. rewrite Hread. unfold v4_of, v6_of, usable_address.
  destruct (ifa_index (am_body m) =? ifindex); cbn [negb orb andb]; [|by destruct (address_of m)].
  destruct Hdistinct as [_ _ _ Dfam]. rewrite (nl_align_any _ _ Ea). cbn [mbind res_bind].
  rewrite (rtattrs_read _ _ Hattrs) by (done || lia). cbn [mbind res_bind]. rewrite take_attrs.
  replace (match match last (values IFA_LOCAL (am_attrs m)) with Some b => Some b | None => None end with
           | Some b => Some b | None => match last (values IFA_ADDRESS (am_attrs m)) with Some b => Some b | None => None end end)
    with (address_of m) by (unfold address_of; by destruct (last (values IFA_LOCAL (am_attrs m))), (last (values IFA_ADDRESS (am_attrs m)))).
  fold (flags_of m). destruct (address_of m) as [b|]; cbn [mbind option_bind]; [|by destruct (_ && _)].
  destruct (Z.eqb_spec (ifa_family (am_body m)) AF_INET) as [E4|E4]; cbn [negb andb].
  - rewrite (proj2 (Z.eqb_neq _ AF_INET6)) by congruence. cbn [andb]. 
    case_decide as Hlen; [rewrite bool_decide_true by done|rewrite bool_decide_false by done; by rewrite andb_false_r].
    destruct (Z.land (flags_of m) IFA_F_UNUSABLE =? 0); cbn [negb andb]; [|done]. by destruct (ia_v4 a).
  - destruct (Z.eqb_spec (ifa_family (am_body m)) AF_INET6) as [E6|E6]; cbn [negb andb]; [|done].
    case_decide as Hlen; [rewrite bool_decide_true by done|rewrite bool_decide_false by done; by rewrite andb_false_r].
    by destruct (Z.land (flags_of m) IFA_F_UNUSABLE =? 0).
Qed.

(** What has been read so far: the first IPv4 address, the IPv6 picks. *)
Definition read_so_far (ifindex : Z) (ms : list AddrMessage) (st : V6Pick * InterfaceAddresses) : Prop :=
  (ia_v4 st.2, ia_v4_prefix st.2) = match omap (v4_of ifindex) ms with [] => (None, None) | (v4, prefix) :: _ => (Some v4, Some prefix) end /\
  picked st.1 st.2 (omap (v6_of ifindex) ms) /\ ia_mac st.2 = None.

Lemma v4_not_v6 ifindex m v4 : v4_of ifindex m = Some v4 -> v6_of ifindex m = None.
Proof.
  unfold v4_of, v6_of, usable_address. destruct (address_of m) as [b|]; cbn [mbind option_bind]; [|done].
  destruct (Z.eqb_spec (ifa_family (am_body m)) AF_INET) as [E|]; [|by rewrite !andb_false_r].
  pose proof (ad_family Hdistinct). rewrite (proj2 (Z.eqb_neq _ AF_INET6)) by congruence. by rewrite !andb_false_r.
Qed.

Lemma read_one_more {E} ifindex ms m msg st : encodes m msg -> read_so_far ifindex ms st ->
  exists st', scan_addr (E:=E) ifindex msg st = Ok st' /\ read_so_far ifindex (ms ++ [m]) st'.
Proof.
  intros Hm (H4&H6&Hmac). destruct st as [p a]. cbn [fst snd] in *. rewrite (scan_message ifindex m msg p a Hm). eexists. split; [done|].
  unfold read_so_far. rewrite !omap_app. cbn [omap list_omap]. destruct (v4_of ifindex m) as [[v4 prefix]|] eqn:E4.
  - rewrite (v4_not_v6 _ _ _ E4), app_nil_r. cbn [fst snd]. destruct (omap (v4_of ifindex) ms) as [|[v q] l]; cbn [app].
    + injection H4 as -> _. by split_and!.
    + injection H4 as E1 E2. rewrite E1. split_and!; [by rewrite E1, E2|done|done].
  - rewrite app_nil_r. destruct (v6_of ifindex m) as [v6|] eqn:E6; [|rewrite app_nil_r; by split_and!].
    pose proof (consider_picked p a _ v6 H6) as Hc. destruct (consider p a v6) as [p' a']. destruct Hc as (H6'&Em&Ev&Ep).
    cbn [fst snd]. split_and!; [by rewrite Ev, Ep|done|congruence].
Qed.

(** C34. The addresses of an interface are read as documented.  Over any address
    messages, of this interface or others, in any order and with any attributes
    in any order: its IPv4 address is the first usable one, with its prefix; its
    IPv6 sources are the first best-ranked of its usable ones; an address is
    usable unless tentative, deprecated or a duplicate by its 32-bit flags, or
    by the 8-bit ones where those are missing; and on a point-to-point link it
    is the local address, not the peer's. *)
Theorem addresses_read {E} ifindex ms msgs :
  Forall2 encodes ms msgs ->
  exists p a,
    feed RTM_NEWADDR (scan_addr (E:=E) ifindex) (pair RTM_NEWADDR <$> msgs) (v6_pick_new, no_addrs) = Ok (p, a) /\
    (ia_v4 a, ia_v4_prefix a) = match omap (v4_of ifindex) ms with [] => (None, None) | (v4, prefix) :: _ => (Some v4, Some prefix) end /\
    best_source any_rank (omap (v6_of ifindex) ms) (ia_v6 a) /\
    best_source below_link_local (omap (v6_of ifindex) ms) (ia_v6_routable a) /\ ia_mac a = None.
Proof.
  intros Hms. assert (Hfold : forall done st, read_so_far ifindex done st -> exists st',
    feed RTM_NEWADDR (scan_addr (E:=E) ifindex) (pair RTM_NEWADDR <$> msgs) st = Ok st' /\ read_so_far ifindex (done ++ ms) st').
  { induction Hms as [|m msg ms msgs Hm _ IH]; intros done st Hst; [exists st; by rewrite app_nil_r|].
    destruct (read_one_more (E:=E) ifindex done m msg st Hm Hst) as (st1&E1&Hst1). destruct (IH _ _ Hst1) as (st'&E'&Hst').
    exists st'. cbn [fmap list_fmap feed]. rewrite Z.eqb_refl, E1. cbn [mbind res_bind]. by rewrite <- app_assoc in Hst'. }
  destruct (Hfold [] (v6_pick_new, no_addrs)) as ([p a]&E1&H4&(H6&_&H6r&_)&Hm).
  { unfold read_so_far, picked. cbn. by split_and!; [|constructor| |constructor| |]. }
  exists p, a. by split_and!.
Qed.
End addresses.

(** ** A resolve ends *)

Section ends.
Context {W : Type} `{Kernel W, Sockets W, LibcConsts, NetlinkAbi, NetlinkSockets W} (Habi : netlink_layout).

(** Time passes in the environment, at least a nanosecond in a read, and a
    datagram fits the buffer it is read into. *)
Record time_passes (time : W -> Z) : Prop := {
  tp_clock : forall w, (clock w).1 = time w /\ time w <= time (clock w).2;
  tp_socket : forall w, time w <= time (netlink_socket w).2;
  tp_timeout : forall fd n w, time w <= time (set_recv_timeout fd n w).2;
  tp_send : forall fd ty w, time w <= time (send_dump_request fd ty w).2;
  tp_peek : forall fd w, time w < time (peek_len fd w).2;
  tp_recv : forall fd n w, time w <= time (nl_recvfrom fd n w).2;
  tp_fits : forall fd n w data pid, (nl_recvfrom fd n w).1 = inr (data, pid) -> in_buffer data;
}.
Context (time : W -> Z) (Htime : time_passes time).

Lemma dump_loop_ends {St} fuel fd reply_type deadline (on_msg : bytes -> St -> res IoError St) st w :
  (forall msg st, in_buffer msg -> safe (on_msg msg st)) -> deadline < time w + Z.of_nat fuel -> (0 < fuel)%nat ->
  safe (dump_loop fuel fd reply_type deadline on_msg (st, w)).1.
Proof.
  intros Hon. revert st w. induction fuel as [|fuel IH]; intros st w Hf Hpos; [lia|].
  cbn [dump_loop]. unfold nl_now, nl_ask, status, mbind, M_bind. cbn [fst snd].
  destruct (tp_clock _ Htime w) as [Et Hc]. destruct (clock w) as [t w1]. cbn [fst snd] in *. subst t.
  destruct (Z.leb_spec deadline (time w)) as [|Hlt]; [done|]. cbn [fst snd].
  pose proof (tp_peek _ Htime fd w1) as Hp. destruct (peek_len fd w1) as [[e|size] w2]; cbn [from_syscall fst snd] in *; [by destruct (would_block e)|].
  pose proof (tp_recv _ Htime fd size w2) as Hr. pose proof (tp_fits _ Htime fd size w2) as Hfit.
  destruct (nl_recvfrom fd size w2) as [[e|[data pid]] w3]; cbn [from_syscall fst snd] in *; [by destruct (would_block e)|].
  assert (IH' : forall st, safe (dump_loop fuel fd reply_type deadline on_msg (st, w3)).1) by (intros; apply IH; lia).
  destruct (negb _); [apply IH'|]. unfold gets, lift, modify. cbn [fst snd].
  pose proof (walk_dump_safe Habi (S (length data)) data reply_type on_msg 0 st Hon (Hfit _ _ eq_refl) ltac:(lia) ltac:(lia)) as Hs.
  destruct (walk_dump _ _ _ _ _ _) as [[[] st']| |]; [done|done|apply IH'|done|done].
Qed.

Lemma dump_ends {St} fuel fd request_type reply_type (on_msg : bytes -> St -> res IoError St) st w :
  (forall msg st, in_buffer msg -> safe (on_msg msg st)) -> DUMP_DEADLINE < Z.of_nat fuel ->
  safe (dump fuel fd request_type reply_type on_msg (st, w)).1.
Proof.
  intros Hon Hf. unfold dump, nl_ask, nl_now, mbind, M_bind. cbn [fst snd].
  destruct (send_dump_request fd request_type w) as [[e|[]] w1]; [done|]. cbn [fst snd].
  destruct (tp_clock _ Htime w1) as [Et Hc]. destruct (clock w1) as [t w2]. cbn [fst snd] in *. subst t.
  apply dump_loop_ends; [done|lia|unfold DUMP_DEADLINE in Hf; lia].
Qed.

(** C35. Reading an interface's addresses always ends, and never panics.  Whatever
    datagrams arrive, well-formed or not, from the kernel or another process,
    their lengths true or crafted, the resolve returns the addresses or an error
    within its dumps' deadlines. *)
Theorem resolve_always_ends ifindex fuel w : DUMP_DEADLINE < Z.of_nat fuel -> safe (nl_resolve fuel ifindex w).1.
Proof.
  intros Hf. unfold nl_resolve, mbind, M_bind. destruct (open_netlink_socket w) as [[e|fd] w1]; [done|]. unfold finally.
  pose proof (dump_ends fuel fd RTM_GETADDR RTM_NEWADDR (scan_addr ifindex) (v6_pick_new, no_addrs) w1 (fun msg st => scan_addr_safe Habi ifindex msg st) Hf) as Ha.
  destruct (dump _ _ _ _ _ _) as [[[]|e|] [[p a] w2]]; [|done|done].
  pose proof (dump_ends fuel fd RTM_GETLINK RTM_NEWLINK (scan_link ifindex) (a, None) w2 (fun msg st => scan_link_safe Habi ifindex msg st) Hf) as Hl.
  by destruct (dump _ _ _ _ _ _) as [[[]|e|] [st w3]].
Qed.
End ends.

(** ** Witnesses: a point-to-point interface's address, after a spoofed reply *)

Definition le_of (l : bytes) : Z := of_be (reverse l).
Definition le (n : nat) (z : Z) : bytes := reverse (be n z).
Definition linux_abi : NetlinkAbi :=
  {| nlmsghdr_size := 16; ifaddrmsg_size := 8; ifinfomsg_size := 16; rtattr_size := 4;
     nlmsghdr_of := fun b => {| nlmsg_len := le_of (take 4 b); nlmsg_type := le_of (take 2 (drop 4 b)) |};
     ifaddrmsg_of := fun b => {| ifa_family := le_of (take 1 b); ifa_prefixlen := le_of (take 1 (drop 1 b)); ifa_flags := le_of (take 1 (drop 2 b));
                                 ifa_index := le_of (take 4 (drop 4 b)) |};
     ifi_index_of := fun b => le_of (take 4 (drop 4 b));
     rtattr_of := fun b => {| rta_len := le_of (take 2 b); rta_type := le_of (drop 2 b) |};
     NLMSG_ALIGN := fun n => (Z.of_nat n + 3) / 4 * 4;
     NLMSG_DONE := 3; NLMSG_ERROR := 2; RTM_NEWADDR := 20; RTM_DELADDR := 21; RTM_GETADDR := 22; RTM_NEWLINK := 16; RTM_DELLINK := 17;
     RTM_GETLINK := 18; IFA_ADDRESS := 1; IFA_LOCAL := 2; IFA_FLAGS := 8; IFLA_ADDRESS := 1; IFLA_MTU := 4; IFA_F_TENTATIVE := 64;
     IFA_F_DEPRECATED := 32; IFA_F_DADFAILED := 8 |}.
Lemma linux_layout : netlink_layout (H := linux_abi).
Proof.
  split; cbn [NLMSG_ALIGN nlmsghdr_size rtattr_size ifaddrmsg_size ifinfomsg_size linux_abi]; try lia.
Qed.
Lemma linux_distinct : abi_distinct (H := linux_consts) (H0 := linux_abi).
Proof. by split. Qed.

Definition ex_addr_message : AddrMessage :=
  {| am_body := {| ifa_family := 2; ifa_prefixlen := 30; ifa_flags := 128; ifa_index := 7 |};
     am_attrs := [(1, [10; 0; 0; 1]); (2, [10; 0; 0; 9])] |}.
Definition ex_addr_msg : bytes :=
  le 4 40 ++ le 2 20 ++ repeat 0 10 ++ [2; 30; 128; 0] ++ le 4 7 ++ (le 2 8 ++ le 2 1 ++ [10; 0; 0; 1]) ++ (le 2 8 ++ le 2 2 ++ [10; 0; 0; 9]).
Definition ex_done_msg : bytes := le 4 20 ++ le 2 3 ++ repeat 0 14.

Lemma ex_encodes : encodes (H0 := linux_abi) ex_addr_message ex_addr_msg.
Proof.
  split; [vm_compute; reflexivity|]. exists 16%nat, 8%nat. repeat split; [vm_compute; lia|].
  apply (attrs_cons (H0 := linux_abi) 1 (le 2 8 ++ le 2 1) [10; 0; 0; 1] [] _ ((le 2 8 ++ le 2 2) ++ [10; 0; 0; 9])); [by split|reflexivity|].
  apply attrs_last. by split.
Qed.

Lemma addresses_read_witness : exists p a,
  feed 20 (scan_addr (H := linux_consts) (H0 := linux_abi) (E:=Infallible) 7) [(20, ex_addr_msg)] (v6_pick_new, no_addrs) = Ok (p, a) /\
  ia_v4 a = Some (Ipv4.new 10 0 0 9).
Proof.
  destruct (addresses_read (H := linux_consts) (H0 := linux_abi) (E := Infallible) linux_layout linux_distinct 7 [ex_addr_message] [ex_addr_msg]
    ltac:(constructor; [exact ex_encodes|constructor])) as (p&a&E&H4&_).
  exists p, a. split; [exact E|]. injection H4 as H4 _. exact H4.
Defined.

(** A clock and a queue of datagrams with their senders. *)
Definition queue_sockets : NetlinkSockets (Z * list (Z * bytes)) :=
  {| netlink_socket := fun w => (inr 3, w);
     set_recv_timeout := fun _ _ w => (inr (), w);
     send_dump_request := fun _ _ w => (inr (), w);
     peek_len := fun _ w => (match w.2 with [] => inl (OsError 11) | (_, d) :: _ => inr (length d) end, (w.1 + 1, w.2));
     nl_recvfrom := fun _ n w => match w.2 with
       | [] => (inl (OsError 11), w)
       | (pid, d) :: l => (inr (take n (take (Z.to_nat 65536) d), pid), (w.1, l))
       end |}.
Definition queue_kernel : Kernel (Z * list (Z * bytes)) := clocked_kernel (fun w => (w.1, w)).
Definition queue_errnos : Sockets (Z * list (Z * bytes)) := idle_sockets (Z * list (Z * bytes)).

Definition ex_queue : Z * list (Z * bytes) := (0, [(99, [1; 2; 3]); (0, ex_addr_msg); (0, ex_done_msg)]).

Lemma dump_reads_kernel_messages_witness : exists a w',
  dump (H := queue_kernel) (H0 := queue_errnos) (H1 := linux_consts) (H2 := linux_abi) (H3 := queue_sockets)
    3 5 22 20 (scan_addr (H := linux_consts) (H0 := linux_abi) 7)
    ((v6_pick_new, no_addrs), ex_queue) = (Ok (), ((v6_pick_new, a), w')) /\
  ia_v4 a = Some (Ipv4.new 10 0 0 9).
Proof.
  assert (Hm : message_ok (H0 := linux_abi) 20 ex_addr_msg) by (repeat split; vm_compute; (reflexivity || lia)).
  assert (Hd : message_ok (H0 := linux_abi) 3 ex_done_msg) by (repeat split; vm_compute; (reflexivity || lia)).
  eexists (set_v4 (Ipv4.new 10 0 0 9) 30 no_addrs), (3, []). split; [|reflexivity].
  refine (dump_reads_kernel_messages (H := queue_kernel) (H0 := queue_errnos) (H1 := linux_consts) (H2 := linux_abi) (H3 := queue_sockets)
    linux_layout 5 22 20 (scan_addr (H := linux_consts) (H0 := linux_abi) 7)
    [(99, [1; 2; 3]); (0, ex_addr_msg)] ([(20, ex_addr_msg)] ++ []) ex_done_msg [] ex_done_msg [] 3 (v6_pick_new, no_addrs) _ _ ex_queue 0 ex_queue _
    eq_refl eq_refl _ _ _ _ (datagram_last _ _ Hd) _ _ _ eq_refl).
  - repeat (eapply receives_cons; [reflexivity|vm_compute; reflexivity|reflexivity|reflexivity|]). apply receives_end.
  - apply genuine_other; [done|]. apply genuine_kernel; [vm_compute; reflexivity|by apply datagram_last|apply genuine_end].
  - by repeat constructor.
  - vm_compute. reflexivity.
  - constructor.
  - by repeat constructor.
  - cbn. lia.
Defined.

Lemma resolve_always_ends_witness : safe (nl_resolve (H := queue_kernel) (H0 := queue_errnos) (H1 := linux_consts) (H2 := linux_abi)
  (H3 := queue_sockets) (Z.to_nat (DUMP_DEADLINE + 1)) 7 (0, [(0, ex_addr_msg)])).1.
Proof.
  refine (resolve_always_ends (H := queue_kernel) (H0 := queue_errnos) (H1 := linux_consts) (H2 := linux_abi) (H3 := queue_sockets)
    linux_layout fst _ 7 (Z.to_nat (DUMP_DEADLINE + 1)) _ _); [|unfold DUMP_DEADLINE; lia].
  split; cbn; try (intros; lia).
  - intros fd n w. destruct w.2 as [|[pid d] l]; cbn; lia.
  - intros fd n w data pid. destruct w.2 as [|[pid' d] l]; cbn; [done|]. intros [= <- _]. unfold in_buffer. rewrite !length_take. lia.
Defined.
