(* ===== verification/IfaceMonitor.v ===== *)
(** The monitor of interface changes ([src/interface/interface_monitor.rs] and
    its back ends rtnetlink.rs and route.rs): the drain of its socket, and the
    events read of each notification. *)

From S2P Require Import LinearMap Arena Multicast InterfaceTable Lifecycle.
From S2P Require Import Prelude Effect Text Addr Names Interface Kernel Packet Filter Http Tcp Rtnetlink.

Local Open Scope Z_scope.

(** The routing socket's read: the notification and its sender, as far as its
    address is long enough to tell. *)
Class MonitorSockets (W : Type) : Type := { mon_recvfrom : Z -> nat -> Sys W (bytes * option Z) }.

(** The BSDs' routing messages: libc's constants. *)
Class RouteAbi : Type := { ROUTE_NEWADDR : Z; ROUTE_DELADDR : Z; ROUTE_IFINFO : Z; ROUTE_IFANNOUNCE : Z }.

(** [InterfaceMonitor] *)
Record InterfaceMonitor : Type := { im_sock : Z; im_buf_len : nat }.
Definition MAX_CONSECUTIVE_OVERFLOWS : Z := 16.
Definition READ_BUF (system : Os) : nat := match system with Linux => Z.to_nat 8192 | _ => Z.to_nat 2048 end.

(** [InterfaceMonitor::INDEXES_MONOTONIC] and [LIFECYCLE_EVENTS] *)
Definition MONITOR_INDEXES_MONOTONIC (system : Os) : bool := bool_decide (system = Linux).
Definition MONITOR_LIFECYCLE_EVENTS (system : Os) : bool := bool_decide (system <> MacOs).

(** [report] *)
Definition report (index : Z) (event : Z -> InterfaceEvent) : list InterfaceEvent := if index =? 0 then [] else [event index].

(** ** Linux: netlink messages *)

Section netlink.
Context `{LibcConsts, NetlinkAbi}.

(** The event of one message. *)
Definition message_event {E} (ty : Z) (buf : bytes) (body_at : nat) : res E (list InterfaceEvent) :=
  if (ty =? RTM_NEWADDR) || (ty =? RTM_DELADDR) then
    Ok (match read_at ifaddrmsg_size ifaddrmsg_of buf body_at with Some body => report (ifa_index body) EvAddress | None => [] end)
  else if (ty =? RTM_NEWLINK) || (ty =? RTM_DELLINK) then
    Ok (match read_at ifinfomsg_size ifi_index_of buf body_at with Some index => report (Z.max index 0) EvLink | None => [] end)
  else Ok [].

(** [for_each_change] *)
Fixpoint netlink_changes {E} (fuel : nat) (buf : bytes) (offset : nat) : res E (list InterfaceEvent) :=
  match fuel with
  | O => Panic
  | S fuel =>
      match read_at nlmsghdr_size nlmsghdr_of buf offset with
      | None => Ok []
      | Some hdr =>
          let len := Z.to_nat (nlmsg_len hdr) in
          if decide (len < nlmsghdr_size \/ length buf < offset + len)%nat then Ok []
          else
            header ← nl_align nlmsghdr_size;
            msg ← range buf 0 (offset + len);
            events ← message_event (nlmsg_type hdr) msg (offset + header);
            step ← nl_align len;
            rest ← netlink_changes fuel buf (offset + step);
            Ok (events ++ rest)
      end
  end.
End netlink.

(** ** The BSDs: routing messages *)

Section route.
Context `{LibcConsts, RouteAbi} (system : Os).

Definition INDEX_OFFSET : nat := 12.
Definition ANNOUNCE_INDEX_OFFSET : nat := 4.

(** Where a message holds its interface's index, and what it means. *)
Definition route_hit (msg_type : Z) : option (nat * (Z -> InterfaceEvent)) :=
  if (msg_type =? ROUTE_NEWADDR) || (msg_type =? ROUTE_DELADDR) || (msg_type =? ROUTE_IFINFO) then Some (INDEX_OFFSET, EvAddress)
  else if bool_decide (system = FreeBsd) && (msg_type =? ROUTE_IFANNOUNCE) then Some (ANNOUNCE_INDEX_OFFSET, EvLink)
  else None.

(** [u16::from_ne_bytes([b[i], b[i + 1]])] *)
Definition ne16_at {E} (b : bytes) (i : nat) : res E Z := x ← idx b i; y ← idx b (S i); Ok (from_ne_bytes [x; y]).

(** [for_each_change] *)
Fixpoint route_changes {E} (fuel : nat) (buf : bytes) (offset : nat) : res E (list InterfaceEvent) :=
  match fuel with
  | O => Panic
  | S fuel =>
      if decide (length buf < offset + 4)%nat then Ok []
      else
        msglen ← ne16_at buf offset;
        msg_type ← idx buf (offset + 3);
        let msglen := Z.to_nat msglen in
        if decide (msglen < 4 \/ length buf < offset + msglen)%nat then Ok []
        else
          events ← match route_hit msg_type with
                   | Some (index_offset, event) =>
                       if decide (index_offset + 2 <= msglen)%nat
                       then index ← ne16_at buf (offset + index_offset); Ok (report index event)
                       else Ok []
                   | None => Ok []
                   end;
          rest ← route_changes fuel buf (offset + msglen);
          Ok (events ++ rest)
  end.
End route.

(** ** The drain *)

Section drain.
Context {W : Type} `{Kernel W, Sockets W, LibcConsts, NetlinkAbi, RouteAbi, MonitorSockets W}.

(** [backend::for_each_change] and [backend::sender_ok] *)
Definition for_each_change {E} (buf : bytes) : res E (list InterfaceEvent) :=
  match os with
  | Linux => netlink_changes (S (length buf)) buf 0
  | system => route_changes system (S (length buf)) buf 0
  end.
Definition sender_ok (src : option Z) : bool := match os with Linux => bool_decide (src = Some 0) | _ => true end.

(** The turns of [InterfaceMonitor::drain]'s loop: the events reported, before
    an error too. *)
Fixpoint drain_turns (fuel : nat) (m : InterfaceMonitor) (overflows : Z) : M (list InterfaceEvent * W) IoError () :=
  let told evs := modify (fun s => (s.1 ++ evs, s.2)) in
  match fuel with
  | O => lift Panic
  | S fuel =>
      received ← (fun s => let '(r, w) := mon_recvfrom (im_sock m) (im_buf_len m) s.2 in (Ok r, (s.1, w)));
      match received with
      | inl e =>
          if bool_decide (raw_os_error e = Some (ENOBUFS errnos)) then
            let overflows := overflows + 1 in
            if overflows =? 1 then _ ← told [EvOverflow]; drain_turns fuel m overflows
            else if MAX_CONSECUTIVE_OVERFLOWS <=? overflows then mret ()
            else drain_turns fuel m overflows
          else if would_block e then mret () else fail e
      | inr ([], _) => mret ()
      | inr (data, src) =>
          _ ← (if sender_ok src then evs ← lift (for_each_change data); told evs else mret ());
          drain_turns fuel m 0
      end
  end.

(** [InterfaceMonitor::drain] *)
Definition monitor_drain (fuel : nat) (m : InterfaceMonitor) (w : W) : res IoError () * (list InterfaceEvent * W) :=
  drain_turns fuel m 0 ([], w).
End drain.

(** ** What a drain reports *)

Section netlink_spec.
Context `{LibcConsts, NetlinkAbi} (Habi : netlink_layout).

Lemma read_at_prefix {T} size (decode : bytes -> T) buf msg off at_ : get_range off (off + length msg) buf = Some msg ->
  read_at size decode (take (off + length msg) buf) (off + at_) = read_at size decode msg at_.
Proof.
  intros (_&Hle&Em)%get_range_Some. replace (off + length msg - off)%nat with (length msg) in Em by lia.
  unfold read_at, get_range. rewrite length_take.
  destruct (decide (at_ + size <= length msg)%nat) as [Hs|Hs].
  - rewrite !decide_True by lia. cbn [fmap option_fmap option_map]. do 2 f_equal.
    replace (off + at_ + size - (off + at_))%nat with size by lia. replace (at_ + size - at_)%nat with size by lia.
    remember (length msg) as n. rewrite Em, !skipn_firstn_comm, !take_take, drop_drop. f_equal. lia.
  - by rewrite !decide_False by lia.
Qed.

Lemma netlink_changes_safe {E} fuel buf offset : in_buffer buf -> (length buf < offset + fuel)%nat -> (0 < fuel)%nat ->
  safe (netlink_changes (E:=E) fuel buf offset).
Proof.
  intros Hbuf. unfold in_buffer in Hbuf. revert offset. induction fuel as [|fuel IH]; intros offset Hf Hpos; [lia|]. cbn [netlink_changes].
  destruct (read_at _ _ buf offset) as [hdr|]; [|done]. case_decide as Hd; [done|]. pose proof (nlmsghdr_nonempty Habi).
  apply bind_safe; [apply (nl_align_safe Habi), (nlmsghdr_small Habi)|]. intros header _. rewrite range_ok by lia. cbn [mbind res_bind].
  apply bind_safe; [unfold message_event; repeat case_match; done|]. intros events _.
  destruct (nl_align_ok (E:=E) Habi (Z.to_nat (nlmsg_len hdr)) ltac:(lia)) as (k&->&Hk). cbn [mbind res_bind].
  apply bind_safe; [apply IH; lia|done].
Qed.

(** The event of a message, its fixed part right behind the header. *)
Definition event_of (m : Z * bytes) : list InterfaceEvent :=
  let body_at := Z.to_nat (NLMSG_ALIGN nlmsghdr_size) in
  if (m.1 =? RTM_NEWADDR) || (m.1 =? RTM_DELADDR) then
    match read_at ifaddrmsg_size ifaddrmsg_of m.2 body_at with Some body => report (ifa_index body) EvAddress | None => [] end
  else if (m.1 =? RTM_NEWLINK) || (m.1 =? RTM_DELLINK) then
    match read_at ifinfomsg_size ifi_index_of m.2 body_at with Some index => report (Z.max index 0) EvLink | None => [] end
  else [].

Lemma nl_align_header {E} : nl_align (E:=E) nlmsghdr_size = Ok (Z.to_nat (NLMSG_ALIGN nlmsghdr_size)).
Proof. unfold nl_align. pose proof (align_ge Habi _ (nlmsghdr_small Habi)). by rewrite (proj2 (Z.ltb_ge _ _)) by lia. Qed.

Lemma changes_message {E} fuel ty msg rest buf off : message_ok ty msg -> drop off buf = msg ++ rest -> (off <= length buf)%nat -> in_buffer buf ->
  netlink_changes (E:=E) (S fuel) buf off = app (event_of (ty, msg)) <$> netlink_changes fuel buf (off + Z.to_nat (NLMSG_ALIGN (length msg))).
Proof.
  intros Hm Ed Hoff Hbuf. destruct (read_header _ _ _ _ _ Hm Ed Hoff) as (Eh&Er&Hlen). cbn [netlink_changes]. rewrite Eh.
  cbn [nlmsg_len nlmsg_type]. rewrite Nat2Z.id, decide_False by (destruct Hm as [? _]; lia). rewrite nl_align_header.
  unfold range. rewrite get_range_is_Some by lia. rewrite drop_0, Nat.sub_0_r. cbn [expect mbind res_bind]. unfold message_event, event_of. cbn [fst snd].
  rewrite !(read_at_prefix _ _ _ _ _ _ Er). unfold in_buffer in Hbuf. unfold nl_align at 1.
  pose proof (align_ge Habi (length msg) ltac:(lia)). rewrite (proj2 (Z.ltb_ge _ _)) by lia.
  destruct ((ty =? RTM_NEWADDR) || (ty =? RTM_DELADDR)); [|destruct ((ty =? RTM_NEWLINK) || (ty =? RTM_DELLINK))]; cbn [mbind res_bind];
    by destruct (netlink_changes _ _ _).
Qed.

Lemma changes_datagram {E} l data : datagram_of l data -> forall fuel buf off, drop off buf = data -> (off <= length buf)%nat ->
  (length buf < off + fuel)%nat -> in_buffer buf -> netlink_changes (E:=E) fuel buf off = Ok (concat (event_of <$> l)).
Proof.
  pose proof (nlmsghdr_nonempty Habi) as Hne.
  assert (Hend : forall fuel buf off, (length (drop off buf) < nlmsghdr_size)%nat -> (0 < fuel)%nat -> netlink_changes (E:=E) fuel buf off = Ok []).
  { intros [|fuel] buf off Hs Hf; [lia|]. cbn [netlink_changes]. by rewrite no_header. }
  induction 1 as [tail Ht|ty msg Hm|ty msg pad l data Hm Hpad _ IH]; intros fuel buf off Ed Hoff Hf Hbuf.
  - apply Hend; [by rewrite Ed|lia].
  - destruct fuel as [|fuel]; [lia|]. rewrite <- (app_nil_r msg) in Ed. rewrite (changes_message _ _ _ _ _ _ Hm Ed Hoff Hbuf).
    assert (Hlen : (length buf - off = length msg)%nat) by (rewrite <- length_drop, Ed, app_nil_r; done).
    destruct Hm as [Hs _]. unfold in_buffer in Hbuf. pose proof (align_ge Habi (length msg) ltac:(lia)).
    rewrite Hend; [done|rewrite length_drop; lia|lia].
  - destruct fuel as [|fuel]; [lia|]. rewrite (changes_message _ _ _ _ _ _ Hm Ed Hoff Hbuf).
    assert (Hlen : (length buf - off = length msg + (length pad + length data))%nat) by (rewrite <- length_drop, Ed, !length_app; lia).
    destruct Hm as [Hs _]. rewrite <- Hpad, Nat2Z.id. rewrite IH; [done| |lia|lia|done].
    rewrite <- drop_drop, Ed, app_assoc, <- length_app. apply drop_app_length.
Qed.
End netlink_spec.

(** ** Routing messages *)

Section route_spec.
Context `{LibcConsts, RouteAbi} (system : Os).

(** A routing message of a type: its length first, its type in the fourth byte. *)
Definition route_message_ok (ty : Z) (msg : bytes) : Prop :=
  (4 <= length msg)%nat /\ from_ne_bytes (take 2 msg) = Z.of_nat (length msg) /\ msg !! 3%nat = Some ty.
(** What one read gives: messages one behind the other. *)
Definition route_datagram (ms : list (Z * bytes)) (data : bytes) : Prop :=
  Forall (fun m => route_message_ok m.1 m.2) ms /\ data = concat (snd <$> ms).

(** The event of a message. *)
Definition route_event (m : Z * bytes) : list InterfaceEvent :=
  match route_hit system m.1 with
  | Some (at_, event) => if decide (at_ + 2 <= length m.2)%nat then report (from_ne_bytes (take 2 (drop at_ m.2))) event else []
  | None => []
  end.

Lemma ne16_at_message {E} buf off msg rest i : drop off buf = msg ++ rest -> (i + 2 <= length msg)%nat ->
  ne16_at (E:=E) buf (off + i) = Ok (from_ne_bytes (take 2 (drop i msg))).
Proof.
  intros Ed Hi. assert (Hat : forall k, (k < length msg)%nat -> buf !! (off + k)%nat = msg !! k).
  { intros k Hk. rewrite <- lookup_drop, Ed. by apply lookup_app_l. }
  destruct (lookup_lt_is_Some_2 msg i) as [x Hx]; [lia|]. destruct (lookup_lt_is_Some_2 msg (S i)) as [y Hy]; [lia|].
  unfold ne16_at, idx. rewrite <- Nat.add_succ_r, !Hat by lia. rewrite Hx, Hy. cbn [expect mbind res_bind].
  by rewrite (drop_S _ _ _ Hx), (drop_S _ _ _ Hy).
Qed.

Lemma route_message {E} fuel ty msg rest buf off : route_message_ok ty msg -> drop off buf = msg ++ rest ->
  route_changes (E:=E) system (S fuel) buf off = app (route_event (ty, msg)) <$> route_changes system fuel buf (off + length msg).
Proof.
  intros (Hlen&Hn&Hty) Ed. assert (Hbuf : (length buf = off + length msg + length rest)%nat).
  { pose proof (f_equal length Ed) as El. rewrite length_drop, length_app in El. destruct (decide (off <= length buf)%nat); lia. }
  cbn [route_changes]. rewrite decide_False by lia.
  pose proof (ne16_at_message (E:=E) buf off msg rest 0 Ed ltac:(lia)) as E0. rewrite Nat.add_0_r, drop_0, Hn in E0. rewrite E0.
  unfold idx at 1. rewrite <- lookup_drop, Ed, lookup_app_l, Hty by lia. cbn [expect mbind res_bind]. rewrite Nat2Z.id, decide_False by lia.
  unfold route_event. cbn [fst snd]. destruct (route_hit system ty) as [[at_ event]|]; cbn [mbind res_bind].
  - case_decide as Hat; cbn [mbind res_bind]; [|by destruct (route_changes _ _ _ _)].
    rewrite (ne16_at_message _ _ _ _ _ Ed Hat). cbn [mbind res_bind]. by destruct (route_changes _ _ _ _).
  - by destruct (route_changes _ _ _ _).
Qed.

Lemma route_messages {E} ms : Forall (fun m => route_message_ok m.1 m.2) ms -> forall fuel buf off,
  drop off buf = concat (snd <$> ms) -> (off <= length buf)%nat -> (length buf < off + fuel)%nat ->
  route_changes (E:=E) system fuel buf off = Ok (concat (route_event <$> ms)).
Proof.
  induction 1 as [|[ty msg] ms Hm _ IH]; intros [|fuel] buf off Ed Hoff Hf; [lia| |lia|]; cbn [fmap list_fmap concat snd] in Ed.
  - cbn [route_changes]. apply (f_equal length) in Ed. rewrite length_drop in Ed. cbn in Ed. by rewrite decide_True by lia.
  - rewrite (route_message _ _ _ _ _ _ Hm Ed). destruct Hm as (Hlen&_&_). cbn [fst snd] in Hlen.
    pose proof (f_equal length Ed) as El. rewrite length_drop, length_app in El.
    rewrite IH; [done| |cbn [snd]; lia|cbn [snd]; lia]. cbn [snd]. by rewrite <- drop_drop, Ed, drop_app_length.
Qed.
End route_spec.

(** ** The drain, on either back end *)

Section drain_spec.
Context {W : Type} `{Kernel W, Sockets W, LibcConsts, NetlinkAbi, RouteAbi, MonitorSockets W} (Habi : netlink_layout).

(** The kernel's datagram of these messages, and the event of each. *)
Definition kernel_datagram (ms : list (Z * bytes)) (data : bytes) : Prop :=
  match os with Linux => in_buffer data /\ datagram_of ms data | _ => route_datagram ms data end.
Definition kernel_event (m : Z * bytes) : list InterfaceEvent :=
  match os with Linux => event_of m | system => route_event system m end.

Lemma for_each_message {E} ms data : kernel_datagram ms data -> for_each_change (E:=E) data = Ok (concat (kernel_event <$> ms)).
Proof.
  unfold kernel_datagram, for_each_change, kernel_event. intros Hd. destruct os.
  - destruct Hd as [Hbuf Hdg]. by apply (changes_datagram Habi _ _ Hdg); (done || lia).
  - destruct Hd as [Hms ->]. by apply route_messages; [|rewrite drop_0|lia..].
  - destruct Hd as [Hms ->]. by apply route_messages; [|rewrite drop_0|lia..].
Qed.

(** The kernel as a sender: port id zero on netlink; the routing socket carries
    nobody else's messages. *)
Definition from_kernel (src : option Z) : Prop := match os with Linux => src = Some 0 | _ => True end.
Lemma sender_ok_spec src : sender_ok src = true <-> from_kernel src.
Proof. unfold sender_ok, from_kernel. destruct os; [apply bool_decide_eq_true|done|done]. Qed.

(** What the socket answers, read after read: a loss of notifications, the
    kernel's datagram of these messages, or another sender's of any bytes, which
    netlink tells apart. *)
Inductive Notification : Type :=
  | Lost
  | FromKernel (ms : list (Z * bytes)) (data : bytes)
  | FromOther (data : bytes) (src : option Z).
(** Until nothing is left, the sixteenth loss in a row, or a failure; [n] losses
    have just been read. *)
Inductive queued (m : InterfaceMonitor) : nat -> list Notification -> W -> res IoError () * W -> Prop :=
  | queued_end n w e w' : mon_recvfrom (im_sock m) (im_buf_len m) w = (inl e, w') ->
      raw_os_error e <> Some (ENOBUFS errnos) -> would_block e = true -> queued m n [] w (Ok (), w')
  | queued_nothing n w src w' : mon_recvfrom (im_sock m) (im_buf_len m) w = (inr ([], src), w') -> queued m n [] w (Ok (), w')
  | queued_fails n w e w' : mon_recvfrom (im_sock m) (im_buf_len m) w = (inl e, w') ->
      raw_os_error e <> Some (ENOBUFS errnos) -> would_block e = false -> queued m n [] w (Err e, w')
  | queued_gives_up w e w' : mon_recvfrom (im_sock m) (im_buf_len m) w = (inl e, w') ->
      raw_os_error e = Some (ENOBUFS errnos) -> queued m 15 [Lost] w (Ok (), w')
  | queued_lost n l w e w1 r : mon_recvfrom (im_sock m) (im_buf_len m) w = (inl e, w1) ->
      raw_os_error e = Some (ENOBUFS errnos) -> (S n < 16)%nat -> queued m (S n) l w1 r -> queued m n (Lost :: l) w r
  | queued_kernel n ms data src l w w1 r : data <> [] -> kernel_datagram ms data -> from_kernel src ->
      mon_recvfrom (im_sock m) (im_buf_len m) w = (inr (data, src), w1) -> queued m 0 l w1 r ->
      queued m n (FromKernel ms data :: l) w r
  | queued_other n data src l w w1 r : data <> [] -> ~ from_kernel src ->
      mon_recvfrom (im_sock m) (im_buf_len m) w = (inr (data, src), w1) -> queued m 0 l w1 r ->
      queued m n (FromOther data src :: l) w r.

(** The events they amount to: a burst of losses is one overflow. *)
Fixpoint told_of (lost : bool) (l : list Notification) : list InterfaceEvent :=
  match l with
  | [] => []
  | Lost :: l => (if lost then [] else [EvOverflow]) ++ told_of true l
  | FromKernel ms _ :: l => concat (kernel_event <$> ms) ++ told_of false l
  | FromOther _ _ :: l => told_of false l
  end.

Lemma run_drain_turns m n l w r : queued m n l w r -> forall fuel evs, (length l < fuel)%nat ->
  drain_turns fuel m (Z.of_nat n) (evs, w) = (r.1, (evs ++ told_of (negb (n =? 0)%nat) l, r.2)).
Proof.
  induction 1 as [n w e w' Er He Hb|n w src w' Er|n w e w' Er He Hb|w e w' Er He|n l w e w1 r Er He Hn _ IH
    |n ms data src l w w1 r Hd Hdg Hsrc Er _ IH|n data src l w w1 r Hd Hsrc Er _ IH];
    intros [|fuel] evs Hf; cbn [length] in Hf; try lia; cbn [drain_turns]; unfold mbind at 1, M_bind at 1; cbn [fst snd]; rewrite Er.
  - rewrite bool_decide_false by done. rewrite Hb. cbn [told_of]. by rewrite app_nil_r.
  - cbn [told_of]. by rewrite app_nil_r.
  - rewrite bool_decide_false by done. rewrite Hb. cbn [told_of]. by rewrite app_nil_r.
  - rewrite bool_decide_true by done. cbn. by rewrite app_nil_r.
  - rewrite bool_decide_true by done. replace (Z.of_nat n + 1) with (Z.of_nat (S n)) by lia. destruct n as [|n].
    + change (Z.of_nat 1 =? 1) with true. cbv iota. unfold mbind, M_bind, modify. cbn [fst snd]. rewrite IH by lia.
      cbn [told_of Nat.eqb negb]. by rewrite <- app_assoc.
    + rewrite (proj2 (Z.eqb_neq _ 1)) by lia. rewrite (proj2 (Z.leb_gt _ _)) by (unfold MAX_CONSECUTIVE_OVERFLOWS; lia).
      rewrite IH by lia. done.
  - destruct data as [|b data]; [done|]. rewrite (proj2 (sender_ok_spec src) Hsrc), (for_each_message _ _ Hdg).
    unfold mbind, M_bind, lift, modify. cbn [fst snd]. rewrite (IH fuel) by lia. cbn [told_of Nat.eqb negb]. by rewrite <- app_assoc.
  - destruct data as [|b data]; [done|]. rewrite <- sender_ok_spec, not_true_iff_false in Hsrc. rewrite Hsrc.
    unfold mbind, M_bind. cbn [mret M_ret]. by rewrite (IH fuel) by lia.
Qed.

(** C36. A drain of the monitor reports every change the kernel told, in order, on
    Linux's netlink socket and on the BSDs' routing socket. Of whatever the socket
    answers, the kernel's datagrams being whole messages: each address and link
    message is reported with its interface's index, datagrams netlink tells to be
    another sender's are ignored whatever they hold, and a burst of losses is
    reported as one overflow. The drain ends well when nothing is left, or at the
    sixteenth loss in a row, and with the error of a read that fails, what was
    read before it reported all the same. *)
Theorem drain_reports_changes m l w r fuel : queued m 0 l w r -> (length l < fuel)%nat ->
  monitor_drain fuel m w = (r.1, (told_of false l, r.2)).
Proof. intros Hq Hf. exact (run_drain_turns m 0 l w r Hq fuel [] Hf). Qed.

End drain_spec.

(** ** Any bytes at all *)

Section any_bytes.
Context {W : Type} `{Kernel W, LibcConsts, NetlinkAbi, RouteAbi} (Habi : netlink_layout).

Lemma ne16_at_safe {E} b i : (S i < length b)%nat -> safe (ne16_at (E:=E) b i).
Proof. intros. unfold ne16_at. repeat (apply bind_safe; [apply safe_idx; lia|intros ? _]). done. Qed.

Lemma route_changes_safe {E} system fuel buf offset : (length buf < offset + fuel)%nat -> (0 < fuel)%nat ->
  safe (route_changes (E:=E) system fuel buf offset).
Proof.
  revert offset. induction fuel as [|fuel IH]; intros offset Hf Hpos; [lia|]. cbn [route_changes]. case_decide as Hd; [done|].
  apply bind_safe; [apply ne16_at_safe; lia|]. intros len _. apply bind_safe; [apply safe_idx; lia|]. intros ty _.
  case_decide as Hd2; [done|]. apply bind_safe.
  - destruct (route_hit system ty) as [[at_ event]|]; [|done]. case_decide; [|done]. apply bind_safe; [apply ne16_at_safe; lia|done].
  - intros events _. apply bind_safe; [apply IH; lia|done].
Qed.

Lemma for_each_change_safe {E} buf : in_buffer buf -> safe (for_each_change (E:=E) buf).
Proof.
  intros Hb. unfold for_each_change. destruct os; [apply (netlink_changes_safe Habi); [done|lia..]|apply route_changes_safe; lia..].
Qed.
End any_bytes.

(** ** Witnesses: an address change after a loss, and a routing message of FreeBSD *)

Definition bsd_route_abi : RouteAbi := {| ROUTE_NEWADDR := 12; ROUTE_DELADDR := 13; ROUTE_IFINFO := 14; ROUTE_IFANNOUNCE := 17 |}.
Definition queue_monitor : MonitorSockets (Z * list (Z * bytes)) :=
  {| mon_recvfrom := fun _ _ w => match w.2 with
       | [] => (inl (OsError 11), w)
       | (pid, []) :: l => (inl (OsError 105), (w.1, l))
       | (pid, d) :: l => (inr (d, Some pid), (w.1, l))
       end |}.
Definition ex_monitor : InterfaceMonitor := {| im_sock := 3; im_buf_len := READ_BUF Linux |}.
Definition ex_notifications : Z * list (Z * bytes) := (0, [(0, []); (99, [1]); (0, ex_addr_msg)]).

(** The same world on FreeBSD, with an interface's arrival and two address
    messages in one read, the second too short to hold an index. *)
Definition on_freebsd {W} (k : Kernel W) : Kernel W :=
  match k with
  | Build_Kernel _ _ b c d e f g h i j l m n o p q => Build_Kernel _ FreeBsd b c d e f g h i j l m n o p q
  end.
Definition ex_announce : bytes := [6; 0; 5; 17; 9; 0].
Definition ex_newaddr : bytes := [14; 0; 5; 12; 0; 0; 0; 0; 0; 0; 0; 0; 3; 1].
Definition ex_short : bytes := [5; 0; 5; 13; 0].
Definition ex_routes : bytes := ex_announce ++ ex_newaddr ++ ex_short.

Lemma drain_reports_changes_witness :
  monitor_drain (H := queue_kernel) (H0 := queue_errnos) (H1 := linux_consts) (H2 := linux_abi) (H3 := bsd_route_abi) (H4 := queue_monitor)
    4 ex_monitor ex_notifications = (Ok (), ([EvOverflow; EvAddress 7], (0, []))) /\
  monitor_drain (H := on_freebsd queue_kernel) (H0 := queue_errnos) (H1 := linux_consts) (H2 := linux_abi) (H3 := bsd_route_abi)
    (H4 := queue_monitor) 4 ex_monitor (0, [(99, ex_routes)]) = (Ok (), ([EvLink 9; EvAddress 259], (0, []))).
Proof.
  assert (Hm : message_ok (H0 := linux_abi) 20 ex_addr_msg) by (repeat split; vm_compute; (reflexivity || lia)).
  split.
  - refine (drain_reports_changes (H := queue_kernel) (H0 := queue_errnos) (H1 := linux_consts) (H2 := linux_abi) (H3 := bsd_route_abi)
      (H4 := queue_monitor) linux_layout ex_monitor [Lost; FromOther [1] (Some 99); FromKernel [(20, ex_addr_msg)] ex_addr_msg]
      ex_notifications (Ok (), (0, [])) 4 _ _); [|cbn; lia].
    eapply queued_lost; [reflexivity|reflexivity|lia|]. eapply queued_other; [done|done|reflexivity|].
    eapply queued_kernel with (src := Some 0); [done|split; [vm_compute; reflexivity|by apply datagram_last]|reflexivity|reflexivity|].
    eapply queued_end; [reflexivity|done|reflexivity].
  - refine (drain_reports_changes (H := on_freebsd queue_kernel) (H0 := queue_errnos) (H1 := linux_consts) (H2 := linux_abi)
      (H3 := bsd_route_abi) (H4 := queue_monitor) linux_layout ex_monitor
      [FromKernel [(17, ex_announce); (12, ex_newaddr); (13, ex_short)] ex_routes] (0, [(99, ex_routes)]) (Ok (), (0, [])) 4 _ _); [|cbn; lia].
    eapply queued_kernel with (src := Some 99); [done| |exact I|reflexivity|eapply queued_end; [reflexivity|done|reflexivity]].
    split; [|reflexivity]. repeat constructor; vm_compute; (reflexivity || lia).
Defined.
