(* ===== verification/Getifaddrs.v ===== *)
(** The BSDs' address resolution ([src/interface/getifaddrs.rs]): one pass over
    the host's address list, and [Interface::read] over it and rtnetlink.  The
    list, the flag query and libc's structures are parameters. *)

From S2P Require Import Prelude Effect Text Addr Names Interface Kernel Packet Filter Http Tcp Rtnetlink.

Local Open Scope Z_scope.

(** An entry of [getifaddrs], an address with its family and its [sa_len] bytes. *)
Record IfAddrs : Type := {
  ifa_name : bytes;
  ifa_if_flags : Z;
  ifa_addr : option (Z * bytes);
  ifa_netmask : option bytes;
  (** [ifi_mtu] of a non-null [ifa_data] *)
  ifa_mtu : option Z;
}.

Class IfAddrsAbi : Type := {
  AF_LINK : Z;
  IFF_LOOPBACK : Z;
  (** [offset_of!(sockaddr_in, sin_addr)] and those of [sockaddr_dl] *)
  sin_addr_at : nat;
  sdl_nlen_at : nat;
  sdl_alen_at : nat;
  sdl_data_at : nat;
  (** [sin6_addr.s6_addr] of a [sockaddr_in6] *)
  s6_addr : bytes -> bytes;
  IN6_IFF_TENTATIVE : Z;
  IN6_IFF_DUPLICATED : Z;
  IN6_IFF_DEPRECATED : Z;
  EPROTONOSUPPORT : Z;
}.
Class IfAddrsCalls (W : Type) : Type := {
  (** [getifaddrs], the whole list *)
  ifaddrs_list : Sys W (list IfAddrs);
  (** [ioctl(fd, SIOCGIFAFLAG_IN6)] on a C name and an address *)
  in6_flags : Z -> bytes -> bytes -> Sys W Z;
}.

Section resolve.
Context `{IfAddrsAbi}.

Definition IN6_IFF_UNUSABLE : Z := Z.lor (Z.lor IN6_IFF_TENTATIVE IN6_IFF_DUPLICATED) IN6_IFF_DEPRECATED.

(** [read_v4]: a missing tail is zero. *)
Definition read_v4 (sa : bytes) : Z :=
  let tail := match get_from sin_addr_at sa with Some t => t | None => [] end in
  of_be (take 4 tail ++ replicate (4 - length tail) 0).

(** [u32::leading_ones] and [u32::count_ones] *)
Definition bits32 (z : Z) : list bool := (fun i => Z.testbit z (31 - Z.of_nat i)) <$> seq 0 32.
Fixpoint leading (l : list bool) : nat := match l with true :: l => S (leading l) | _ => 0 end.
Definition ones (l : list bool) : nat := length (filter (fun b => b = true) l).
(** [prefix_len] *)
Definition prefix_len (mask : Z) : option Z :=
  let n := leading (bits32 mask) in if (ones (bits32 mask) =? n)%nat then Some (Z.of_nat n) else None.

(** [read_mac] *)
Definition read_mac (sa : bytes) : option MacAddr :=
  nlen ← sa !! sdl_nlen_at;
  alen ← sa !! sdl_alen_at;
  if negb (alen =? 6) then None
  else let offset := (sdl_data_at + Z.to_nat nlen)%nat in get_range offset (offset + 6) sa.

(** [canonical_v6] *)
Definition canonical_v6 (octets : bytes) : Z :=
  match octets with
  | a :: b :: c :: d :: rest => if (a =? 254) && (Z.land b 192 =? 128) then of_be (a :: b :: 0 :: 0 :: rest) else of_be octets
  | _ => of_be octets
  end.
End resolve.

(** What the pass has found: the picks, the addresses, the MTU and the loopback flag. *)
Record Found : Type := { fo_pick : V6Pick; fo_addrs : InterfaceAddresses; fo_mtu : option Z; fo_loopback : bool }.
Definition found_none : Found := {| fo_pick := v6_pick_new; fo_addrs := no_addrs; fo_mtu := None; fo_loopback := false |}.
Definition found_v4 (v4 : Z) (prefix : option Z) (f : Found) : Found :=
  let a := fo_addrs f in
  {| fo_pick := fo_pick f; fo_mtu := fo_mtu f; fo_loopback := fo_loopback f;
     fo_addrs := {| ia_mac := ia_mac a; ia_v4 := Some v4; ia_v4_prefix := prefix; ia_v6 := ia_v6 a; ia_v6_routable := ia_v6_routable a |} |}.
Definition found_link (mac : option MacAddr) (mtu : option Z) (f : Found) : Found :=
  let a := fo_addrs f in
  {| fo_pick := fo_pick f; fo_mtu := match mtu with Some m => Some m | None => fo_mtu f end; fo_loopback := fo_loopback f;
     fo_addrs := {| ia_mac := mac; ia_v4 := ia_v4 a; ia_v4_prefix := ia_v4_prefix a; ia_v6 := ia_v6 a; ia_v6_routable := ia_v6_routable a |} |}.
Definition found_v6 (v6 : Z) (f : Found) : Found :=
  let '(pick, addrs) := consider (fo_pick f) (fo_addrs f) v6 in
  {| fo_pick := pick; fo_addrs := addrs; fo_mtu := fo_mtu f; fo_loopback := fo_loopback f |}.
Definition found_flags (loopback : bool) (f : Found) : Found :=
  {| fo_pick := fo_pick f; fo_addrs := fo_addrs f; fo_mtu := fo_mtu f; fo_loopback := fo_loopback f || loopback |}.

Section calls.
Context {W : Type} `{Kernel W, LibcConsts, IfAddrsAbi, IfAddrsCalls W}.

(** [sys::no_ipv6_stack] *)
Definition no_ipv6_stack (e : IoError) : bool :=
  match raw_os_error e with
  | Some errno => (errno =? EAFNOSUPPORT errnos) || (errno =? EPROTONOSUPPORT)
  | None => false
  end.

(** [inet6_socket] *)
Definition inet6_socket : Sys W (option Z) :=
  r ← sys_try (open_socket true);
  match r with
  | inr fd => mret (Some fd)
  | inl e => if no_ipv6_stack e then mret None else sys_err e
  end.

(** [v6_flags], by the socket there may be *)
Definition v6_flags (sock : option Z) (name : InterfaceName) (sa : bytes) : Sys W (option Z) :=
  match sock with
  | None => mret None
  | Some fd => r ← sys_try (in6_flags fd (to_c_array name) sa); mret (match r with inr flags => Some flags | inl _ => None end)
  end.

(** One entry of the list. *)
Definition scan_entry (sock : option Z) (name : InterfaceName) (ifa : IfAddrs) (f : Found) : Sys W Found :=
  match ifa_addr ifa with
  | None => mret f
  | Some (family, sa) =>
      if negb (bool_decide (ifa_name ifa = if_str name)) then mret f
      else
        let f := found_flags (negb (Z.land (ifa_if_flags ifa) IFF_LOOPBACK =? 0)) f in
        if family =? AF_INET then
          mret (match ia_v4 (fo_addrs f) with
                | Some _ => f
                | None => found_v4 (read_v4 sa) (mask ← ifa_netmask ifa; prefix_len (read_v4 mask)) f
                end)
        else if family =? AF_LINK then mret (found_link (read_mac sa) (ifa_mtu ifa) f)
        else if family =? AF_INET6 then
          flags ← v6_flags sock name sa;
          mret (match flags with
                | Some flags => if Z.land flags IN6_IFF_UNUSABLE =? 0 then found_v6 (canonical_v6 (s6_addr sa)) f else f
                | None => f
                end)
        else mret f
  end.
Fixpoint scan_entries (sock : option Z) (name : InterfaceName) (l : list IfAddrs) (f : Found) : Sys W Found :=
  match l with
  | [] => mret f
  | ifa :: l => f ← scan_entry sock name ifa f; scan_entries sock name l f
  end.

(** [resolve] *)
Definition bsd_resolve (name : InterfaceName) : Sys W (InterfaceAddresses * option Z * bool) :=
  v6_sock ← inet6_socket;
  l ← ifaddrs_list;
  f ← scan_entries v6_sock name l found_none;
  mret (fo_addrs f, fo_mtu f, fo_loopback f).
End calls.

(** [Interface::read] *)
Definition interface_read {W} `{Kernel W, Sockets W, LibcConsts, NetlinkAbi, NetlinkSockets W, IfAddrsAbi, IfAddrsCalls W}
    (fuel : nat) (i : Interface) (ifindex : Z) : M W IoError Reading := fun w =>
  match os with
  | Linux =>
      match nl_resolve fuel ifindex w with
      | (Ok (addrs, mtu), w) => (Ok {| rd_addrs := addrs; rd_mtu := mtu; rd_loopback := false |}, w)
      | (Err e, w) => (Err e, w)
      | (Panic, w) => (Panic, w)
      end
  | _ =>
      match bsd_resolve (if_name i) w with
      | (inr (addrs, mtu, loopback), w) => (Ok {| rd_addrs := addrs; rd_mtu := mtu; rd_loopback := loopback |}, w)
      | (inl e, w) => (Err e, w)
      end
  end.

(** ** What the pass finds *)

Lemma ones_all_false l : ones l = 0%nat -> Forall (fun b => b = false) l.
Proof.
  unfold ones. induction l as [|[] l IH]; [constructor|rewrite filter_cons_True by done; done|].
  rewrite filter_cons_False by done. intros E. constructor; [done|by apply IH].
Qed.
Lemma ones_leading l : ones l = leading l -> forall i b, l !! i = Some b -> b = (i <? leading l)%nat.
Proof.
  induction l as [|[] l IH]; intros E i b Hi; [done| |].
  - unfold ones in E. rewrite filter_cons_True in E by done. cbn [leading length] in *. injection E as E.
    destruct i as [|i]; [by injection Hi as <-|]. cbn [lookup list_lookup] in Hi. by rewrite (IH E i b Hi).
  - cbn [leading] in *. assert (Hf : Forall (fun b => b = false) (false :: l)) by (by apply ones_all_false).
    rewrite (Forall_lookup_1 _ _ _ _ Hf Hi). done.
Qed.

(** A netmask's prefix is its length only when it is contiguous. *)
Lemma prefix_len_bits mask p : prefix_len mask = Some p ->
  0 <= p <= 32 /\ forall i, 0 <= i < 32 -> Z.testbit mask i = (32 - p <=? i).
Proof.
  unfold prefix_len. intros Hp. destruct (Nat.eqb_spec (ones (bits32 mask)) (leading (bits32 mask))) as [E|]; [|done].
  assert (p = Z.of_nat (leading (bits32 mask))) as -> by congruence. clear Hp.
  assert (Hlen : (leading (bits32 mask) <= 32)%nat).
  { assert (Hl : forall l, (leading l <= length l)%nat) by (induction l as [|[] l IH]; cbn [leading length]; lia). exact (Hl (bits32 mask)). }
  split; [lia|]. intros i Hi. pose proof (ones_leading _ E (Z.to_nat (31 - i)) (Z.testbit mask i)) as H. rewrite H; [lia|].
  unfold bits32. rewrite list_lookup_fmap, lookup_seq_lt by lia. cbn [fmap option_fmap option_map]. do 2 f_equal. lia.
Qed.

Section found.
Context {W : Type} `{Kernel W, LibcConsts, IfAddrsAbi, IfAddrsCalls W}.

(** The interface's entries of a family. *)
Definition entry_of (name : InterfaceName) (family : Z) (e : IfAddrs) : option (IfAddrs * bytes) :=
  '(f, sa) ← ifa_addr e; if bool_decide (ifa_name e = if_str name) && (f =? family) then Some (e, sa) else None.
Definition entries_of (name : InterfaceName) (family : Z) (l : list IfAddrs) : list (IfAddrs * bytes) := omap (entry_of name family) l.
(** The MTUs its link entries carry, and whether one of its entries is flagged a loopback's. *)
Definition mtus_of (name : InterfaceName) (l : list IfAddrs) : list Z := omap (fun x => ifa_mtu x.1) (entries_of name AF_LINK l).
Definition loopback_entry (name : InterfaceName) (e : IfAddrs) : bool :=
  bool_decide (is_Some (ifa_addr e)) && bool_decide (ifa_name e = if_str name) && negb (Z.land (ifa_if_flags e) IFF_LOOPBACK =? 0).
(** The IPv6 addresses the kernel calls usable as it is asked about each in turn. *)
Fixpoint usable_v6s (sock : option Z) (name : InterfaceName) (l : list (IfAddrs * bytes)) (w : W) : list Z * W :=
  match l with
  | [] => ([], w)
  | (_, sa) :: l =>
      match v6_flags sock name sa w with
      | (inr (Some flags), w) =>
          let '(rest, w) := usable_v6s sock name l w in
          (if Z.land flags IN6_IFF_UNUSABLE =? 0 then canonical_v6 (s6_addr sa) :: rest else rest, w)
      | (_, w) => usable_v6s sock name l w
      end
  end.

Record families_distinct : Prop := { fd_46 : AF_INET <> AF_INET6; fd_4l : AF_INET <> AF_LINK; fd_6l : AF_INET6 <> AF_LINK }.
Context (Hfam : families_distinct).

(** What a pass over more entries adds. *)
Definition found_of (name : InterfaceName) (l : list IfAddrs) (v6s : list Z) (f : Found) : Prop :=
  (ia_v4 (fo_addrs f), ia_v4_prefix (fo_addrs f)) = match entries_of name AF_INET l with
    | [] => (None, None)
    | (e, sa) :: _ => (Some (read_v4 sa), mask ← ifa_netmask e; prefix_len (read_v4 mask))
    end /\
  picked (fo_pick f) (fo_addrs f) v6s /\
  ia_mac (fo_addrs f) = match last (entries_of name AF_LINK l) with Some (_, sa) => read_mac sa | None => None end.

Lemma v6_flags_ok sock name sa w : exists flags w', v6_flags sock name sa w = (inr flags, w').
Proof.
  unfold v6_flags, sys_try, mbind, Sys_bind. destruct sock as [fd|]; [|by do 2 eexists].
  destruct (in6_flags fd _ sa w) as [[e|flags] w']; by do 2 eexists.
Qed.

Lemma usable_v6s_app sock name l1 l2 w :
  usable_v6s sock name (l1 ++ l2) w =
    let '(a, w1) := usable_v6s sock name l1 w in let '(b, w2) := usable_v6s sock name l2 w1 in (a ++ b, w2).
Proof.
  revert w. induction l1 as [|[e sa] l1 IH]; intros w; cbn [app usable_v6s]; [by destruct (usable_v6s _ _ l2 w)|].
  destruct (v6_flags sock name sa w) as [[?|[flags|]] w1]; rewrite IH; [done| |done].
  destruct (usable_v6s _ _ l1 w1) as [a w2], (usable_v6s _ _ l2 w2) as [b w3]. by destruct (_ =? 0).
Qed.

Definition entry_list (o : option (IfAddrs * bytes)) : list (IfAddrs * bytes) := match o with Some x => [x] | None => [] end.
Lemma entries_of_snoc name family l e : entries_of name family (l ++ [e]) = entries_of name family l ++ entry_list (entry_of name family e).
Proof. unfold entries_of. rewrite omap_app. cbn [omap list_omap]. by destruct (entry_of name family e). Qed.

(** One entry of the pass. *)
Lemma scan_entry_found sock name e done v6s f w : found_of name done v6s f ->
  exists f', scan_entry sock name e f w = (inr f', (usable_v6s sock name (entry_list (entry_of name AF_INET6 e)) w).2) /\
    found_of name (done ++ [e]) (v6s ++ (usable_v6s sock name (entry_list (entry_of name AF_INET6 e)) w).1) f'.
Proof.
  destruct Hfam as [D46 D4l D6l]. intros (H4&H6&Hm). unfold scan_entry, found_of. rewrite !entries_of_snoc.
  unfold entry_of. destruct (ifa_addr e) as [[family sa]|]; cbn [mbind option_bind].
  2: { exists f. cbn. rewrite !app_nil_r. by split_and!. }
  case_bool_decide as Hn; cbn [negb andb].
  2: { exists f. cbn. rewrite !app_nil_r. by split_and!. }
  destruct (Z.eqb_spec family AF_INET) as [->|E4].
  { rewrite !(proj2 (Z.eqb_neq AF_INET _)) by done. cbn [entry_list usable_v6s fst snd]. rewrite !app_nil_r. eexists. split; [done|].
    cbn [found_flags fo_addrs]. destruct (entries_of name AF_INET done) as [|[e0 sa0] l]; cbn [app] in *; injection H4 as E1 E2; rewrite E1.
    - by split_and!.
    - cbn [fo_addrs found_flags fo_pick]. split_and!; [by rewrite E1, E2|done|done]. }
  destruct (Z.eqb_spec family AF_LINK) as [->|El].
  { rewrite (proj2 (Z.eqb_neq AF_LINK AF_INET6)) by done. cbn [entry_list usable_v6s fst snd]. rewrite !app_nil_r. eexists. split; [done|].
    rewrite last_snoc. by split_and!. }
  destruct (Z.eqb_spec family AF_INET6) as [->|E6]; cbn [entry_list usable_v6s fst snd]; rewrite !app_nil_r.
  2: { eexists. split; [done|]. by split_and!. }
  unfold mbind, Sys_bind. destruct (v6_flags_ok sock name sa w) as (flags&w1&->). cbn [mret Sys_ret].
  destruct flags as [flags|]; cbn [fst snd]; [|eexists; split; [done|]; rewrite app_nil_r; by split_and!].
  destruct (Z.land flags IN6_IFF_UNUSABLE =? 0); cbn [fst snd]; (eexists; split; [done|]); [|rewrite app_nil_r; by split_and!].
  unfold found_v6. cbn [found_flags fo_pick fo_addrs]. pose proof (consider_picked _ _ _ (canonical_v6 (s6_addr sa)) H6) as Hc.
  destruct (consider _ _ _) as [p' a']. destruct Hc as (H6'&Em&Ev&Ep). cbn [fo_addrs fo_pick].
  split_and!; [by rewrite Ev, Ep|done|by rewrite Em].
Qed.

Lemma scan_entries_found sock name l : forall done v6s f w, found_of name done v6s f ->
  exists f', scan_entries sock name l f w = (inr f', (usable_v6s sock name (entries_of name AF_INET6 l) w).2) /\
    found_of name (done ++ l) (v6s ++ (usable_v6s sock name (entries_of name AF_INET6 l) w).1) f'.
Proof.
  induction l as [|e l IH]; intros done v6s f w Hf; [exists f; cbn; by rewrite !app_nil_r|].
  destruct (scan_entry_found sock name e done v6s f w Hf) as (f1&E1&Hf1).
  assert (Hcons : entries_of name AF_INET6 (e :: l) = entry_list (entry_of name AF_INET6 e) ++ entries_of name AF_INET6 l).
  { unfold entries_of. cbn [omap list_omap]. by destruct (entry_of name AF_INET6 e). }
  rewrite Hcons, usable_v6s_app. destruct (usable_v6s sock name (entry_list _) w) as [a w1] eqn:Ea. cbn [fst snd] in *.
  destruct (IH (done ++ [e]) (v6s ++ a) f1 w1 Hf1) as (f2&E2&Hf2). exists f2.
  cbn [scan_entries]. unfold mbind, Sys_bind. rewrite E1, E2. destruct (usable_v6s sock name (entries_of name AF_INET6 l) w1) as [b w2].
  cbn [fst snd] in *. split; [done|]. rewrite <- !app_assoc in Hf2. exact Hf2.
Qed.

(** The MTU and the loopback flag, over the same pass. *)
Lemma scan_entry_rest sock name e f w f' w' : scan_entry sock name e f w = (inr f', w') ->
  fo_mtu f' = match mtus_of name [e] with m :: _ => Some m | [] => fo_mtu f end /\
  fo_loopback f' = fo_loopback f || loopback_entry name e.
Proof.
  destruct Hfam as [D46 D4l D6l]. unfold scan_entry, mtus_of, entries_of, loopback_entry, entry_of. cbn [omap list_omap].
  destruct (ifa_addr e) as [[family sa]|]; cbn [mbind option_bind]; [|intros [= <- _]; by rewrite orb_false_r].
  case_bool_decide as Hn; cbn [negb andb]; [|intros [= <- _]; by rewrite andb_false_r, orb_false_r].
  rewrite (bool_decide_eq_true_2 (is_Some _)) by (by eexists). cbn [andb].
  destruct (Z.eqb_spec family AF_INET) as [->|E4].
  { rewrite (proj2 (Z.eqb_neq AF_INET AF_LINK)) by done. cbn [omap list_omap]. intros [= <- _]. by destruct (ia_v4 _). }
  destruct (Z.eqb_spec family AF_LINK) as [->|El].
  { cbn [omap list_omap fst]. intros [= <- _]. cbn [found_link fo_mtu fo_loopback found_flags]. by destruct (ifa_mtu e). }
  cbn [omap list_omap]. destruct (family =? AF_INET6); [|by intros [= <- _]].
  unfold mbind, Sys_bind. destruct (v6_flags_ok sock name sa w) as (flags&w1&->). cbn [mret Sys_ret]. intros [= <- _].
  destruct flags as [flags|]; [|done]. destruct (_ =? 0); [|done]. unfold found_v6. by destruct (consider _ _ _).
Qed.
Lemma scan_entries_rest sock name l : forall f w f' w', scan_entries sock name l f w = (inr f', w') ->
  fo_mtu f' = match last (mtus_of name l) with Some m => Some m | None => fo_mtu f end /\
  fo_loopback f' = fo_loopback f || existsb (loopback_entry name) l.
Proof.
  induction l as [|e l IH]; intros f w f' w'; cbn [scan_entries existsb]; [intros [= <- _]; by rewrite orb_false_r|].
  unfold mbind at 1, Sys_bind. destruct (scan_entry sock name e f w) as [[x|f1] w1] eqn:E1; [done|]. intros E.
  apply scan_entry_rest in E1 as [Em El]. apply IH in E as [-> ->]. rewrite Em, El, orb_assoc. split; [|done].
  assert (mtus_of name (e :: l) = mtus_of name [e] ++ mtus_of name l) as ->.
  { unfold mtus_of. rewrite <- omap_app. f_equal. unfold entries_of. by rewrite <- omap_app. }
  rewrite last_app. destruct (last (mtus_of name l)); [done|].
  unfold mtus_of, entries_of. cbn [omap list_omap]. destruct (entry_of name AF_LINK e) as [[x y]|]; [|done].
  cbn [omap list_omap fst]. by destruct (ifa_mtu x).
Qed.

(** C37. The BSDs read an interface's addresses by the same rules.  Whatever the
    host's list: the interface's IPv4 address is the first one in it under its
    name, with the prefix of a contiguous netmask only; its MAC is its last link
    entry's, and its MTU the last one a link entry carries; it is a loopback when
    any of its entries is flagged so; and its IPv6 sources are the first best-ranked of those the kernel
    calls usable, each stripped of the scope the kernel embeds. *)
Theorem bsd_addresses_read name w sock w0 l w1 :
  inet6_socket w = (inr sock, w0) -> ifaddrs_list w0 = (inr l, w1) ->
  let v6s := usable_v6s sock name (entries_of name AF_INET6 l) w1 in
  exists a, bsd_resolve name w = (inr (a, last (mtus_of name l), existsb (loopback_entry name) l), v6s.2) /\
    (ia_v4 a, ia_v4_prefix a) = match entries_of name AF_INET l with
      | [] => (None, None)
      | (e, sa) :: _ => (Some (read_v4 sa), mask ← ifa_netmask e; prefix_len (read_v4 mask))
      end /\
    best_source any_rank v6s.1 (ia_v6 a) /\ best_source below_link_local v6s.1 (ia_v6_routable a) /\
    ia_mac a = match last (entries_of name AF_LINK l) with Some (_, sa) => read_mac sa | None => None end.
Proof.
  intros Es El v6s. destruct (scan_entries_found sock name l [] [] found_none w1) as (f&E&(H4&(H6&_&H6r&_)&Hm)).
  { unfold found_of, picked. cbn. by split_and!; [|constructor| |constructor| |]. }
  destruct (scan_entries_rest _ _ _ _ _ _ _ E) as [Hmtu Hlo].
  exists (fo_addrs f). split; [|by split_and!].
  unfold bsd_resolve, mbind, Sys_bind. rewrite Es, El, E. cbn [mret Sys_ret]. rewrite Hmtu, Hlo.
  change (fo_mtu found_none) with (@None Z). by destruct (last (mtus_of name l)).
Qed.
End found.

(** ** Witness: two IPv4 addresses and a link-local IPv6 one *)

Definition ex_ifaddrs_abi : IfAddrsAbi :=
  {| AF_LINK := 18; IFF_LOOPBACK := 8; sin_addr_at := 4; sdl_nlen_at := 5; sdl_alen_at := 6; sdl_data_at := 8;
     s6_addr := fun sa => take 16 (drop 8 sa); IN6_IFF_TENTATIVE := 2; IN6_IFF_DUPLICATED := 4; IN6_IFF_DEPRECATED := 16;
     EPROTONOSUPPORT := 43 |}.
Definition bsd_consts : LibcConsts :=
  {| SKF_AD_OFF := 0; SKF_AD_PKTTYPE := 0; SKF_AD_VLAN_TAG := 0; SKF_AD_VLAN_TAG_PRESENT := 0; PACKET_OUTGOING := 0;
     AF_INET := 2; AF_INET6 := 28; little_endian := true |}.
Definition em0 : InterfaceName := {| if_str := [101; 109; 48] |}.
Definition ex_entry (family : Z) (sa : bytes) (mask : option bytes) : IfAddrs :=
  {| ifa_name := if_str em0; ifa_if_flags := 1; ifa_addr := Some (family, sa); ifa_netmask := mask; ifa_mtu := Some 1500 |}.
Definition ex_ifaddrs : list IfAddrs :=
  [ex_entry 18 ([20; 18; 0; 0; 6; 3; 6; 0] ++ if_str em0 ++ [2; 0; 0; 0; 0; 9]) None;
   ex_entry 28 ([28; 28; 0; 0; 0; 0; 0; 0] ++ [254; 128; 0; 1] ++ repeat 0 11 ++ [5] ++ [1; 0; 0; 0]) None;
   ex_entry 2 [16; 2; 0; 0; 10; 0; 0; 5] (Some [7; 0; 0; 0; 255; 255; 255]);
   ex_entry 2 [16; 2; 0; 0; 10; 0; 0; 6] None].
Definition ex_ifaddrs_calls : IfAddrsCalls () :=
  {| ifaddrs_list := fun w => (inr ex_ifaddrs, w); in6_flags := fun _ _ _ w => (inr 0, w) |}.

Lemma bsd_addresses_read_witness : exists a,
  bsd_resolve (H := quiet_kernel) (H0 := bsd_consts) (H1 := ex_ifaddrs_abi) (H2 := ex_ifaddrs_calls) em0 () =
    (inr (a, Some 1500, false), ()) /\
  ia_v4 a = Some (Ipv4.new 10 0 0 5) /\ ia_v4_prefix a = Some 24 /\ ia_mac a = Some [2; 0; 0; 0; 0; 9].
Proof.
  destruct (bsd_addresses_read (H := quiet_kernel) (H0 := bsd_consts) (H1 := ex_ifaddrs_abi) (H2 := ex_ifaddrs_calls)
    ltac:(by split) em0 () (Some 3) () ex_ifaddrs () eq_refl eq_refl) as (a&E&H4&_&_&Hm).
  exists a. split; [exact E|]. injection H4 as E1 E2. split; [exact E1|]. split; [exact E2|exact Hm].
Defined.
