(* ===== verification/AfPacket.v ===== *)
(** Linux's packet capture ([src/capture/af_packet.rs]) over the calls it makes
    of an [AF_PACKET] socket, the filter it installs, and the order in which it
    does: the filter before the bind that starts delivery. *)

From S2P Require Import Prelude Text Addr Names Interface Kernel Packet Http Tcp Filter.

Local Open Scope Z_scope.

(** The calls on a packet socket, and libc's hardware types. *)
Class PacketSockets (W : Type) : Type := {
  ARPHRD_ETHER : Z;
  ARPHRD_LOOPBACK : Z;
  ARPHRD_NONE : Z;
  (** [sys::open_socket(AF_PACKET, SOCK_RAW, 0)] *)
  packet_socket : Sys W Z;
  (** [ioctl(fd, SIOCGIFHWADDR, name)]: the hardware type *)
  hardware_type : Z -> bytes -> Sys W Z;
  (** [setsockopt] of [PACKET_IGNORE_OUTGOING] and of [SO_ATTACH_FILTER] *)
  ignore_outgoing : Z -> Sys W ();
  attach_program : Z -> list BpfInsn -> Sys W ();
  (** [bind] to an interface index, for [ETH_P_ALL] *)
  bind_link : Z -> Z -> Sys W ();
  (** [getsockname]: the bound index, an [i32] *)
  bound_index : Z -> Sys W Z;
  (** [recv] with [MSG_TRUNC]: the whole frame, however much of it the buffer holds *)
  packet_recv : Z -> Sys W bytes;
  packet_send : Z -> bytes -> Sys W nat;
}.

(** [Capture] *)
Record PacketCapture : Type := { pc_fd : Z; pc_buf_len : nat; pc_link : LinkType; pc_name : InterfaceName }.

Section programs.
Context `{LibcConsts}.

(** [classifier] and [drop_outgoing_filter]; a BSD link type does not occur. *)
Definition classifier (lt : LinkType) : list BpfInsn :=
  match lt with
  | Ethernet => DROP_VLAN_TAGGED_PROLOGUE ++ ETHERNET_UDP_FILTER
  | RawIp => RAW_IP_UDP_FILTER
  | DltNull => []
  end.
Definition drop_outgoing_filter (classifier : list BpfInsn) : list BpfInsn := DROP_OUTGOING_PROLOGUE ++ classifier.
End programs.

Section capture.
Context {W : Type} `{Kernel W, Sockets W, LibcConsts, PacketSockets W}.

(** [link_addr]: the index as the socket address holds it. *)
Definition link_addr (ifindex : Z) : Sys W Z := if 2 ^ 31 <=? ifindex then sys_err OtherError else mret ifindex.

(** [link_type_of] *)
Definition link_type_of (fd : Z) (name : InterfaceName) : Sys W LinkType :=
  ty ← hardware_type fd (to_c_array name);
  if (ty =? ARPHRD_ETHER) || (ty =? ARPHRD_LOOPBACK) then mret Ethernet
  else if ty =? ARPHRD_NONE then mret RawIp
  else sys_err OtherError.

(** [install_filter] *)
Definition install_filter (fd : Z) (lt : LinkType) : Sys W () :=
  r ← sys_try (ignore_outgoing fd);
  match r with
  | inr () => attach_program fd (classifier lt)
  | inl _ => attach_program fd (drop_outgoing_filter (classifier lt))
  end.

(** [attach] *)
Definition attach_packet (fd : Z) (interface : Interface) (ifindex : Z) : Sys W LinkType :=
  addr ← link_addr ifindex;
  lt ← link_type_of fd (if_name interface);
  _ ← install_filter fd lt;
  _ ← bind_link fd addr;
  mret lt.

(** [Capture::open] *)
Definition packet_open (interface : Interface) (ifindex : Z) : Sys W PacketCapture :=
  fd ← packet_socket;
  lt ← attach_packet fd interface ifindex;
  mret {| pc_fd := fd; pc_buf_len := MAX_FRAME_LEN; pc_link := lt; pc_name := if_name interface |}.

(** [Capture::rebind]: the pending error is consumed, whatever it is. *)
Definition packet_rebind (interface : Interface) (ifindex : Z) (c : PacketCapture) : Sys W PacketCapture :=
  lt ← attach_packet (pc_fd c) interface ifindex;
  _ ← sys_try (so_error (pc_fd c));
  mret {| pc_fd := pc_fd c; pc_buf_len := pc_buf_len c; pc_link := lt; pc_name := pc_name c |}.

(** [Capture::attached] *)
Definition packet_attached (ifindex : Z) (c : PacketCapture) : Sys W bool :=
  r ← sys_try (bound_index (pc_fd c));
  mret (match r with inl _ => false | inr bound => (0 <=? bound) && (bound =? ifindex) end).

(** [recv_once] and [next_frame] *)
Definition recv_once (c : PacketCapture) : Sys W (option bytes) :=
  r ← status (packet_recv (pc_fd c));
  mret (match r with Ready frame => Some frame | WouldBlock => None end).
Definition packet_next_frame (c : PacketCapture) : Sys W (option Read) :=
  r ← recv_once c;
  mret (match r with
        | None => None
        | Some frame => Some (if decide (pc_buf_len c < length frame)%nat then RdOversized else RdFrame frame)
        end).
Definition packet_has_buffered (c : PacketCapture) : bool := false.

(** [lost_interface] *)
Definition packet_lost_interface (e : IoError) : bool := bool_decide (raw_os_error e = Some (ENETDOWN errnos)).

(** [Capture::send] *)
Definition capture_send_frame (frame : bytes) (c : PacketCapture) : Sys W () :=
  sent ← packet_send (pc_fd c) frame;
  if negb (sent =? length frame)%nat then sys_err OtherError else mret ().
End capture.

(** ** What the installed program lets through *)

Section programs_spec.
Context {K : Type} `{LibcConsts, BpfMachine K} (Hbpf : classic_bpf K).
Implicit Types (s : K).

(** The frame left this host, or carries a tag of a VLAN, in the metadata. *)
Definition outgoing s : bool := ancillary s SKF_AD_PKTTYPE =? cast_unsigned PACKET_OUTGOING.
Definition vlan_tagged s : bool :=
  negb (ancillary s SKF_AD_VLAN_TAG_PRESENT =? 0) && negb (Z.land (ancillary s SKF_AD_VLAN_TAG) VLAN_ID_MASK =? 0).
Definition linux_lets_through (lt : LinkType) s : bool :=
  lets_through lt (packet_bytes s) && match lt with Ethernet => negb (vlan_tagged s) | _ => true end.

Lemma exec_drop_outgoing p s :
  bpf_exec (drop_outgoing_filter p) 0 0 s =
    if outgoing s then 0 else bpf_exec p (ancillary s SKF_AD_PKTTYPE) 0 s.
Proof.
  unfold drop_outgoing_filter, DROP_OUTGOING_PROLOGUE, outgoing. cbn [app].
  rewrite (bpf_ld_ancillary _ Hbpf), (bpf_jeq _ Hbpf) by set_solver. destruct (_ =? _); [|done]. apply (bpf_ret _ Hbpf).
Qed.

Lemma exec_classifier lt a s : lt <> DltNull -> bytes_ok (packet_bytes s) ->
  bpf_exec (classifier lt) a 0 s = verdict (linux_lets_through lt s).
Proof.
  intros Hlt Hb. unfold linux_lets_through. destruct lt; [|done|].
  - unfold classifier, DROP_VLAN_TAGGED_PROLOGUE, vlan_tagged. cbn [app].
    rewrite (bpf_ld_ancillary _ Hbpf), (bpf_jeq _ Hbpf) by set_solver.
    destruct (ancillary s SKF_AD_VLAN_TAG_PRESENT =? 0); [etrans; [by apply (exec_ethernet Hbpf)|by rewrite andb_true_r]|].
    change (drop (Z.to_nat 0) ?p) with p. rewrite (bpf_ld_ancillary _ Hbpf), (bpf_and_k _ Hbpf), (bpf_jeq _ Hbpf) by set_solver.
    change 4095 with VLAN_ID_MASK. destruct (Z.land _ VLAN_ID_MASK =? 0).
    + etrans; [by apply (exec_ethernet Hbpf)|by rewrite andb_true_r].
    + etrans; [apply (bpf_ret _ Hbpf)|by rewrite andb_false_r].
  - rewrite andb_true_r. by apply (exec_raw_ip Hbpf).
Qed.
End programs_spec.

(** ** The order of the calls *)

(** The calls that decide what a socket delivers, with their outcomes. *)
Inductive PacketCall : Type :=
  | IgnoreOutgoing (ok : bool)
  | AttachProgram (p : list BpfInsn) (ok : bool)
  | Bind (ifindex : Z).
Definition succeeded {A} (r : io A) : bool := match r with inl _ => false | inr _ => true end.
(** A kernel that notes them. *)
Definition noting {W} (PS : PacketSockets W) : PacketSockets (W * list PacketCall) :=
  let quiet {A} (m : Sys W A) : Sys (W * list PacketCall) A := fun s => let '(r, w) := m s.1 in (r, (w, s.2)) in
  let noted {A} (call : io A -> PacketCall) (m : Sys W A) : Sys (W * list PacketCall) A := fun s =>
    let '(r, w) := m s.1 in (r, (w, s.2 ++ [call r])) in
  {| ARPHRD_ETHER := ARPHRD_ETHER; ARPHRD_LOOPBACK := ARPHRD_LOOPBACK; ARPHRD_NONE := ARPHRD_NONE;
     packet_socket := quiet packet_socket;
     hardware_type := fun fd name => quiet (hardware_type fd name);
     ignore_outgoing := fun fd => noted (fun r => IgnoreOutgoing (succeeded r)) (ignore_outgoing fd);
     attach_program := fun fd p => noted (fun r => AttachProgram p (succeeded r)) (attach_program fd p);
     bind_link := fun fd i => noted (fun _ => Bind i) (bind_link fd i);
     bound_index := fun fd => quiet (bound_index fd);
     packet_recv := fun fd => quiet (packet_recv fd);
     packet_send := fun fd frame => quiet (packet_send fd frame) |}.

(** The program in force after some calls, and whether the kernel itself leaves
    out what this host sends. *)
Definition in_force (calls : list PacketCall) : option (list BpfInsn) :=
  foldl (fun p call => match call with AttachProgram q true => Some q | _ => p end) None calls.
Definition ignoring (calls : list PacketCall) : bool :=
  foldl (fun b call => match call with IgnoreOutgoing true => true | _ => b end) false calls.

Section order.
Context {W K : Type} `{LibcConsts, PS : PacketSockets W, BpfMachine K} (Hbpf : classic_bpf K).

(** What a bind finds in force. *)
Definition filtered (lt : LinkType) (calls : list PacketCall) : Prop := exists p, in_force calls = Some p /\
  forall s : K, bytes_ok (packet_bytes s) ->
    bpf_exec p 0 0 s = verdict (linux_lets_through lt s && (ignoring calls || negb (outgoing s))).

Lemma classifier_filtered lt calls : lt <> DltNull -> in_force calls = Some (classifier lt) -> ignoring calls = true -> filtered lt calls.
Proof.
  intros Hlt Hp Hi. exists (classifier lt). split; [done|]. intros s Hb. rewrite Hi, andb_true_r. by apply exec_classifier.
Qed.
Lemma drop_outgoing_filtered lt calls :
  lt <> DltNull -> in_force calls = Some (drop_outgoing_filter (classifier lt)) -> ignoring calls = false -> filtered lt calls.
Proof.
  intros Hlt Hp Hi. exists (drop_outgoing_filter (classifier lt)). split; [done|]. intros s Hb. rewrite Hi, (exec_drop_outgoing Hbpf).
  cbn [orb]. destruct (outgoing s); cbn [negb]; [by rewrite andb_false_r|]. rewrite andb_true_r. by apply exec_classifier.
Qed.

Lemma run_link_type_of fd name w :
  match link_type_of (H2 := noting PS) fd name (w, []) with
  | (r, (_, calls)) => calls = [] /\ match r with inl _ => True | inr lt => lt <> DltNull end
  end.
Proof.
  unfold link_type_of, mbind, Sys_bind. cbn [hardware_type noting fst snd ARPHRD_ETHER ARPHRD_LOOPBACK ARPHRD_NONE].
  destruct (hardware_type fd _ w) as [[e|ty] w1]; [done|]. destruct (_ || _); [done|]. by destruct (_ =? _).
Qed.

Lemma run_install_filter fd lt w : lt <> DltNull ->
  match install_filter (H2 := noting PS) fd lt (w, []) with
  | (r, (_, calls)) => (forall i, Bind i ∉ calls) /\ (succeeded r = true -> filtered lt calls)
  end.
Proof.
  intros Hlt. unfold install_filter, sys_try, mbind, Sys_bind. cbn [ignore_outgoing noting fst snd app].
  destruct (ignore_outgoing fd w) as [[e|[]] w1]; cbn [succeeded attach_program noting fst snd app].
  all: destruct (attach_program fd _ w1) as [[e'|[]] w2]; cbn [succeeded]; (split; [set_solver|intros Hr; try done]).
  - by apply drop_outgoing_filtered.
  - by apply classifier_filtered.
Qed.

(** One bind, after some calls. *)
Lemma only_bind calls before ifindex i after : (forall i, Bind i ∉ calls) -> calls ++ [Bind ifindex] = before ++ Bind i :: after ->
  i = ifindex /\ before = calls.
Proof.
  intros Hno E. destruct after as [|call after _] using rev_ind; [by apply app_inj_tail in E as [-> [= ->]]|].
  exfalso. rewrite app_comm_cons, app_assoc in E. apply app_inj_tail in E as [-> _]. apply (Hno i). set_solver.
Qed.

(** C31. A Linux capture never delivers an unfiltered frame.  Whatever the kernel
    answers while a socket is attached to an interface, at the open or a rebind,
    a bind finds a program in force that lets through exactly the UDP frames of
    that link outside every VLAN, and none this host sends, unless the kernel was
    told to leave those out itself; and an attach that succeeds has bound. *)
Theorem no_frame_unfiltered fd interface ifindex w :
  match attach_packet (H2 := noting PS) fd interface ifindex (w, []) with
  | (r, (_, calls)) =>
      (forall before i after, calls = before ++ Bind i :: after -> i = ifindex /\
         exists lt, filtered lt before /\ match r with inl _ => True | inr lt' => lt' = lt end) /\
      (succeeded r = true -> Bind ifindex ∈ calls)
  end.
Proof.
  unfold attach_packet, link_addr, mbind, Sys_bind. destruct (2 ^ 31 <=? ifindex); [split; [intros [|]; done|done]|]. cbn [mret Sys_ret].
  pose proof (run_link_type_of fd (if_name interface) w) as Ht. destruct (link_type_of _ _ _) as [[e|lt] [w1 calls]]; destruct Ht as [-> Hlt].
  { split; [intros [|]; done|done]. }
  pose proof (run_install_filter fd lt w1 Hlt) as Hi. destruct (install_filter _ _ _) as [[e|[]] [w2 calls]]; destruct Hi as [Hno Hi].
  { split; [|done]. intros before i after ->. destruct (Hno i). set_solver. }
  cbn [bind_link noting fst snd]. destruct (bind_link fd ifindex w2) as [[e|[]] w3]; cbn [mret Sys_ret].
  all: split; [intros before i after [-> ->]%(only_bind _ _ _ _ _ Hno); split; [done|]; by exists lt; split; [apply Hi|]|set_solver].
Qed.
End order.

(** ** Witness: an Ethernet interface on a kernel that cannot ignore what it sends *)

Definition old_linux : PacketSockets () :=
  {| ARPHRD_ETHER := 1; ARPHRD_LOOPBACK := 772; ARPHRD_NONE := 65534;
     packet_socket := fun w => (inr 7, w);
     hardware_type := fun _ _ w => (inr 1, w);
     ignore_outgoing := fun _ w => (inl (OsError 92), w);
     attach_program := fun _ _ w => (inr (), w);
     bind_link := fun _ _ w => (inr (), w);
     bound_index := fun _ w => (inr 2, w);
     packet_recv := fun _ w => (inr [], w);
     packet_send := fun _ frame w => (inr (length frame), w) |}.
Definition ex_interface : Interface := {| if_name := {| if_str := [108; 111] |}; if_addrs := no_addrs; if_mtu := None; if_loopback := false |}.

Lemma no_frame_unfiltered_witness :
  match attach_packet (H1 := linux_consts) (H2 := noting old_linux) 7 ex_interface 2 ((), []) with
  | (r, (_, calls)) => r = inr Ethernet /\ length calls = 3%nat /\
      filtered (H := linux_consts) (H0 := reference_machine) Ethernet (take 2 calls)
  end.
Proof.
  pose proof (no_frame_unfiltered (H := linux_consts) (PS := old_linux) (H0 := reference_machine) reference_classic 7 ex_interface 2 ()) as H.
  split; [reflexivity|]. split; [reflexivity|]. destruct H as [H _].
  destruct (H (take 2 (attach_packet (H1 := linux_consts) (H2 := noting old_linux) 7 ex_interface 2 ((), [])).2.2) 2 [] eq_refl) as (_&lt&Hf&E).
  change (Ethernet = lt) in E. subst lt. exact Hf.
Defined.
