(* ===== verification/BpfCapture.v ===== *)
(** The BSDs' packet capture ([src/capture/bpf.rs]) over the calls it makes of a
    BPF device: the walk of a batch of records, one frame at a time. *)

From S2P Require Import Prelude Effect Text Addr Names Interface Kernel Packet Http Tcp Filter.

Local Open Scope Z_scope.

(** The calls on a BPF device, with libc's constants, its [bpf_hdr] read from
    memory, and its [BPF_WORDALIGN]. *)
Class BpfDevices (W : Type) : Type := {
  EBUSY : Z;
  ENXIO : Z;
  DLT_EN10MB : Z;
  DLT_NULL : Z;
  bpf_hdr_size : nat;
  bh_caplen : bytes -> Z;
  bh_datalen : bytes -> Z;
  bh_hdrlen : bytes -> Z;
  BPF_WORDALIGN : nat -> nat;
  (** [open("/dev/bpf<n>")] *)
  bpf_open : nat -> Sys W Z;
  (** [ioctl] of [BIOCSBLEN], [BIOCGBLEN], [BIOCIMMEDIATE], [BIOCSETIF],
      [BIOCGDLT], [BIOCSSEESENT] and [BIOCSETF] *)
  set_buffer_len : Z -> Z -> Sys W ();
  buffer_len : Z -> Sys W Z;
  set_immediate : Z -> Sys W ();
  set_interface : Z -> bytes -> Sys W ();
  data_link_type : Z -> Sys W Z;
  set_see_sent : Z -> bool -> Sys W ();
  set_filter : Z -> list BpfInsn -> Sys W ();
  (** [read] into a buffer of this length, [write] *)
  bpf_read : Z -> nat -> Sys W bytes;
  bpf_write : Z -> bytes -> Sys W nat;
}.

(** [Capture] *)
Record BpfCapture : Type := {
  bc_fd : Z;
  bc_buf : bytes;
  bc_filled : nat;
  bc_offset : nat;
  bc_link : LinkType;
  bc_name : InterfaceName;
}.
Definition set_offset (n : nat) (c : BpfCapture) : BpfCapture :=
  {| bc_fd := bc_fd c; bc_buf := bc_buf c; bc_filled := bc_filled c; bc_offset := n; bc_link := bc_link c; bc_name := bc_name c |}.

(** [Record] *)
Inductive BpfRecord : Type := Frame (from to : nat) | Oversized (datalen : Z).

Section capture.
Context {W : Type} `{Sockets W, LibcConsts, BpfDevices W}.

(** [open_bpf_device]: the first device of 256 that is free. *)
Fixpoint open_bpf_device (n tries : nat) : Sys W Z :=
  match tries with
  | O => sys_err OtherError
  | S tries =>
      raw ← sys_try (bpf_open n);
      match raw with
      | inr fd => mret fd
      | inl e => if bool_decide (raw_os_error e = Some EBUSY) then open_bpf_device (S n) tries else sys_err e
      end
  end.

(** [attach] *)
Definition bpf_attach (fd : Z) (interface : Interface) : Sys W LinkType :=
  _ ← set_interface fd (to_c_array (if_name interface));
  dlt ← data_link_type fd;
  lt ← (if dlt =? DLT_EN10MB then mret Ethernet else if dlt =? DLT_NULL then mret DltNull else sys_err OtherError);
  _ ← set_see_sent fd (if_loopback interface);
  _ ← set_filter fd (match lt with Ethernet => ETHERNET_UDP_FILTER | _ => DLT_NULL_UDP_FILTER end);
  mret lt.

(** [Capture::open] *)
Definition BUFFER_LEN : Z := 16 * 1024.
Definition bpf_capture_open (interface : Interface) : Sys W BpfCapture :=
  fd ← open_bpf_device 0 256;
  _ ← set_buffer_len fd BUFFER_LEN;
  lt ← bpf_attach fd interface;
  _ ← set_immediate fd;
  blen ← buffer_len fd;
  mret {| bc_fd := fd; bc_buf := replicate (Z.to_nat blen) 0; bc_filled := 0; bc_offset := 0; bc_link := lt; bc_name := if_name interface |}.

(** [Capture::rebind] *)
Definition bpf_rebind (interface : Interface) (c : BpfCapture) : Sys W BpfCapture :=
  lt ← bpf_attach (bc_fd c) interface;
  mret {| bc_fd := bc_fd c; bc_buf := bc_buf c; bc_filled := 0; bc_offset := 0; bc_link := lt; bc_name := bc_name c |}.

(** [Capture::attached], [lost_interface] and [has_buffered] *)
Definition bpf_attached (c : BpfCapture) : Sys W bool :=
  r ← sys_try (data_link_type (bc_fd c));
  mret (match r with inl _ => false | inr _ => true end).
Definition bpf_lost_interface (e : IoError) : bool := bool_decide (raw_os_error e = Some ENXIO).
Definition bpf_has_buffered (c : BpfCapture) : bool := (bc_offset c <? bc_filled c)%nat.

(** [Capture::send] *)
Definition bpf_send (frame : bytes) (c : BpfCapture) : Sys W () :=
  written ← bpf_write (bc_fd c) frame;
  if negb (written =? length frame)%nat then sys_err OtherError else mret ().

(** [parse_record] *)
Definition parse_record (record : bytes) : res IoError (BpfRecord * nat) :=
  if decide (length record < bpf_hdr_size)%nat then Err OtherError
  else
    let header := take bpf_hdr_size record in
    let frame_start := Z.to_nat (bh_hdrlen header) in
    let frame_end := (frame_start + Z.to_nat (bh_caplen header))%nat in
    if decide (length record < frame_end)%nat then Err OtherError
    else
      let advance := BPF_WORDALIGN frame_end in
      if (advance =? 0)%nat then Err OtherError
      else if (bh_datalen header >? bh_caplen header) || bool_decide (MAX_FRAME_LEN < Z.to_nat (bh_caplen header))%nat
      then Ok (Oversized (bh_datalen header), advance)
      else Ok (Frame frame_start frame_end, advance).

(** ** Reading *)

Definition bpf_ask {A} (m : Sys W A) : M (BpfCapture * W) IoError A := fun s =>
  match m s.2 with
  | (inr a, w) => (Ok a, (s.1, w))
  | (inl e, w) => (Err e, (s.1, w))
  end.

(** [refill] *)
Definition refill : M (BpfCapture * W) IoError bool :=
  c ← gets fst;
  r ← bpf_ask (status (bpf_read (bc_fd c) (length (bc_buf c))));
  match r with
  | WouldBlock => mret false
  | Ready [] => mret false
  | Ready data =>
      _ ← modify (fun s => ({| bc_fd := bc_fd c; bc_buf := data ++ drop (length data) (bc_buf c); bc_filled := length data;
                               bc_offset := 0; bc_link := bc_link c; bc_name := bc_name c |}, s.2));
      mret true
  end.

(** The record at the offset. *)
Definition next_record : M (BpfCapture * W) IoError Read :=
  c ← gets fst;
  let start := bc_offset c in
  batch ← lift (range (bc_buf c) start (bc_filled c));
  match parse_record batch with
  | Panic => lift Panic
  | Err e => _ ← modify (fun s => (set_offset (bc_filled c) s.1, s.2)); fail e
  | Ok (record, advance) =>
      _ ← modify (fun s => (set_offset (start + advance) s.1, s.2));
      match record with
      | Frame from to => frame ← lift (range (bc_buf c) (start + from) (start + to)); mret (RdFrame frame)
      | Oversized _ => mret RdOversized
      end
  end.

(** [next_frame] *)
Definition bpf_next_frame : M (BpfCapture * W) IoError (option Read) :=
  c ← gets fst;
  ready ← (if (bc_filled c <=? bc_offset c)%nat then refill else mret true);
  if (ready : bool) then r ← next_record; mret (Some r) else mret None.

(** Frames read one after the other. *)
Fixpoint bpf_reads (n : nat) : M (BpfCapture * W) IoError (list (option Read)) :=
  match n with
  | O => mret []
  | S n => r ← bpf_next_frame; l ← bpf_reads n; mret (r :: l)
  end.
End capture.

(** ** A batch *)

(** What the kernel wrote of one frame: a header and as much of it as it kept. *)
Record KernelRecord : Type := { kr_header : bytes; kr_data : bytes }.

Section batches.
Context {W : Type} `{Sockets W, LibcConsts, BpfDevices W}.
Implicit Types (c : BpfCapture) (w : W) (r : KernelRecord) (l : list KernelRecord).

(** Rounding up to the alignment, and a header that is no empty structure. *)
Record bpf_layout : Prop := {
  wordalign_ge : forall n, (n <= BPF_WORDALIGN n)%nat;
  header_nonempty : (0 < bpf_hdr_size)%nat;
}.

Definition kr_bytes r : bytes := kr_header r ++ kr_data r.
(** A header read as a whole structure may reach into the frame. *)
Definition header_of r : bytes := take bpf_hdr_size (kr_bytes r).
Definition record_ok r : Prop :=
  (bpf_hdr_size <= length (kr_bytes r))%nat /\ bh_hdrlen (header_of r) = Z.of_nat (length (kr_header r)) /\
  bh_caplen (header_of r) = Z.of_nat (length (kr_data r)).
(** What the capture makes of it. *)
Definition reading_of r : Read :=
  if (bh_datalen (header_of r) >? Z.of_nat (length (kr_data r))) || bool_decide (MAX_FRAME_LEN < length (kr_data r))%nat
  then RdOversized else RdFrame (kr_data r).

(** Records one after the other, each padded to the alignment but maybe the last. *)
Inductive batch_of : list KernelRecord -> bytes -> Prop :=
  | batch_last r pad : record_ok r -> (length (kr_bytes r) + length pad <= BPF_WORDALIGN (length (kr_bytes r)))%nat ->
      batch_of [r] (kr_bytes r ++ pad)
  | batch_cons r pad l b : record_ok r -> (length (kr_bytes r) + length pad = BPF_WORDALIGN (length (kr_bytes r)))%nat ->
      batch_of l b -> batch_of (r :: l) (kr_bytes r ++ pad ++ b).

Context (Hlayout : bpf_layout).

Lemma parse_record_at r rest : record_ok r ->
  parse_record (kr_bytes r ++ rest) =
    Ok (if (bh_datalen (header_of r) >? Z.of_nat (length (kr_data r))) || bool_decide (MAX_FRAME_LEN < length (kr_data r))%nat
        then Oversized (bh_datalen (header_of r)) else Frame (length (kr_header r)) (length (kr_bytes r)),
        BPF_WORDALIGN (length (kr_bytes r))).
Proof.
  intros (Hh&Hl&Hc). unfold parse_record. rewrite take_app_le by done. fold (header_of r). rewrite Hl, Hc, !Nat2Z.id.
  unfold kr_bytes in *. rewrite !length_app in *.
  pose proof (header_nonempty Hlayout). pose proof (wordalign_ge Hlayout (length (kr_header r) + length (kr_data r))).
  rewrite !decide_False by lia. rewrite (proj2 (Nat.eqb_neq _ _)) by lia. by destruct (_ || _).
Qed.

(** The records still to be read of a buffer. *)
Definition waiting l c : Prop :=
  (bc_filled c <= length (bc_buf c))%nat /\
  ((l = [] /\ (bc_filled c <= bc_offset c)%nat) \/
   batch_of l (take (bc_filled c - bc_offset c) (drop (bc_offset c) (bc_buf c)))).

Lemma batch_length l b : batch_of l b -> (0 < length b)%nat.
Proof.
  pose proof (header_nonempty Hlayout). destruct 1 as [r pad [Hr _] _|r pad l b [Hr _] _ _]; rewrite !length_app; lia.
Qed.

(** The frame's bytes, in the buffer. *)
Lemma frame_in_buffer (hdr data tail buf : bytes) o n :
  (o <= length buf)%nat -> take n (drop o buf) = (hdr ++ data) ++ tail -> get_range (o + length hdr) (o + length (hdr ++ data)) buf = Some data.
Proof.
  intros Ho E. assert (Hl : length (take n (drop o buf)) = (length hdr + length data + length tail)%nat) by (rewrite E, !length_app; lia).
  rewrite length_take, length_drop in Hl. rewrite length_app. apply get_range_Some. split; [lia|]. split; [lia|].
  rewrite <- drop_drop. replace (o + (length hdr + length data) - (o + length hdr))%nat with (length data) by lia.
  transitivity (take (length data) (drop (length hdr) (take n (drop o buf)))).
  - by rewrite E, <- app_assoc, drop_app_length, take_app_length.
  - rewrite skipn_firstn_comm, take_take. f_equal. lia.
Qed.

(** One record read: the frame it holds, and the others waiting. *)
Lemma read_record c w r l :
  waiting (r :: l) c -> exists c', next_record (c, w) = (Ok (reading_of r), (c', w)) /\ waiting l c' /\
    bc_filled c' = bc_filled c /\ bc_buf c' = bc_buf c.
Proof.
  intros [Hf [[? _]|Hb]]; [done|]. pose proof (batch_length _ _ Hb) as Hlen. rewrite length_take, length_drop in Hlen.
  set (n := (bc_filled c - bc_offset c)%nat) in *. set (rest := drop (bc_offset c) (bc_buf c)) in *.
  exists (set_offset (bc_offset c + BPF_WORDALIGN (length (kr_bytes r))) c).
  assert (exists tail, take n rest = kr_bytes r ++ tail /\ record_ok r) as (tail&Et&Hr).
  { inversion Hb; subst; eexists; eauto. }
  assert (Hnext : waiting l (set_offset (bc_offset c + BPF_WORDALIGN (length (kr_bytes r))) c)).
  { split; [done|]. cbn [set_offset bc_filled bc_offset bc_buf]. inversion Hb as [r' pad _ Hpad Er E|r' pad l' b _ Hpad Hl Er E]; subst.
    - left. split; [done|]. pose proof (wordalign_ge Hlayout (length (kr_bytes r))).
      apply (f_equal length) in E. rewrite length_app, length_take in E. unfold n, rest in *. rewrite length_drop in E. lia.
    - right. rewrite <- drop_drop. fold rest. rewrite <- Hpad.
      replace (bc_filled c - (bc_offset c + (length (kr_bytes r) + length pad)))%nat with (n - (length (kr_bytes r) + length pad))%nat by lia.
      rewrite <- skipn_firstn_comm, <- E, app_assoc. rewrite <- length_app, drop_app_length. done. }
  split; [|done]. unfold next_record, gets, mbind, M_bind. cbn [fst]. unfold lift, range.
  rewrite get_range_is_Some by lia. cbn [expect]. fold n rest. rewrite Et, (parse_record_at _ _ Hr).
  cbn [modify]. unfold reading_of. destruct (_ || _); [done|]. cbn [mret M_ret].
  assert (Ho : (bc_offset c <= length (bc_buf c))%nat) by lia.
  pose proof (frame_in_buffer _ _ _ _ _ _ Ho Et) as E. fold (kr_bytes r) in E. by rewrite E.
Qed.

Lemma read_records c w r l :
  waiting (r :: l) c -> exists c', bpf_next_frame (c, w) = (Ok (Some (reading_of r)), (c', w)) /\ waiting l c'.
Proof.
  intros Hw. destruct (read_record c w r l Hw) as (c'&E&Hw'&_). exists c'. split; [|done].
  unfold bpf_next_frame, gets, mbind, M_bind. cbn [fst]. destruct Hw as [_ [[? _]|Hb]]; [done|].
  pose proof (batch_length _ _ Hb) as Hlen. rewrite length_take, length_drop in Hlen.
  rewrite (proj2 (Nat.leb_gt _ _)) by lia. cbn [mret M_ret]. by rewrite E.
Qed.

Lemma reads_waiting l c w : waiting l c -> exists c', bpf_reads (length l) (c, w) = (Ok (Some <$> (reading_of <$> l)), (c', w)) /\ waiting [] c'.
Proof.
  revert c. induction l as [|r l IH]; intros c Hw; [by exists c|]. cbn [length bpf_reads fmap list_fmap].
  destruct (read_records c w r l Hw) as (c1&E1&Hw1). destruct (IH c1 Hw1) as (c2&E2&Hw2). exists c2. split; [|done].
  unfold mbind, M_bind. by rewrite E1, E2.
Qed.

Lemma run_refill c w data w' :
  bpf_read (bc_fd c) (length (bc_buf c)) w = (inr data, w') -> (0 < length data)%nat ->
  refill (c, w) = (Ok true, ({| bc_fd := bc_fd c; bc_buf := data ++ drop (length data) (bc_buf c); bc_filled := length data;
                                bc_offset := 0; bc_link := bc_link c; bc_name := bc_name c |}, w')).
Proof.
  intros Hread Hlen. unfold refill, gets, mbind, M_bind, bpf_ask, status. cbn [fst snd]. rewrite Hread. cbn [from_syscall].
  by destruct data; [cbn in Hlen; lia|].
Qed.

(** C32. A BPF batch is read in order, whole.  Of a drained capture whose kernel
    then hands it any records, in any number, padded or not at the end, the
    capture's next frames are those records in that order: each frame as the
    kernel captured it, or the mark of one too long or cut short; one read of the
    device serves them all, and nothing is left of the batch after the last. *)
Theorem batch_read_in_order l c w data w' :
  (bc_filled c <= bc_offset c)%nat -> bpf_read (bc_fd c) (length (bc_buf c)) w = (inr data, w') ->
  (length data <= length (bc_buf c))%nat -> batch_of l data ->
  exists c', bpf_reads (length l) (c, w) = (Ok (Some <$> (reading_of <$> l)), (c', w')) /\ bpf_has_buffered c' = false.
Proof.
  intros Hdrained Hread Hfit Hb. pose proof (batch_length _ _ Hb) as Hlen.
  set (c0 := {| bc_fd := bc_fd c; bc_buf := data ++ drop (length data) (bc_buf c); bc_filled := length data;
                bc_offset := 0; bc_link := bc_link c; bc_name := bc_name c |}).
  assert (Hw : waiting l c0).
  { split; cbn [c0 bc_filled bc_buf bc_offset]; [rewrite length_app; lia|]. right. by rewrite Nat.sub_0_r, drop_0, take_app_length. }
  destruct (reads_waiting l c0 w' Hw) as (c'&E&_&Hend). exists c'. split.
  - destruct l as [|r l]; [by inversion Hb|]. rewrite <- E. cbn [length bpf_reads]. unfold bpf_next_frame, gets, mbind, M_bind. cbn [fst].
    rewrite (proj2 (Nat.leb_le _ _)) by done. rewrite (run_refill c w data w') by done. fold c0.
    destruct Hw as [_ [[? _]|Hw]]; [done|]. cbn [c0 bc_filled bc_offset fst]. by rewrite (proj2 (Nat.leb_gt _ _)) by lia.
  - destruct Hend as [[_ ?]|Hend]; [|by inversion Hend]. by apply Nat.ltb_ge.
Qed.

(** ** Any batch at all *)

(** The descriptor reads no more than it is given. *)
Definition reads_fit : Prop := forall fd n w data w', bpf_read fd n w = (inr data, w') -> (length data <= n)%nat.
Definition bytes_left c : nat := bc_filled c - bc_offset c.
Definition buffer_ok c : Prop := (bc_filled c <= length (bc_buf c))%nat.

Lemma parse_record_bounds record : match parse_record record with
  | Ok (Frame from to, advance) => (from <= to <= length record)%nat /\ (to - from <= MAX_FRAME_LEN)%nat /\ (0 < advance)%nat
  | Ok (Oversized _, advance) => (0 < advance)%nat
  | Err _ => True
  | Panic => False
  end.
Proof.
  unfold parse_record. case_decide; [done|]. case_decide; [done|]. match goal with |- context [(BPF_WORDALIGN ?n =? 0)%nat] => destruct (Nat.eqb_spec (BPF_WORDALIGN n) 0); [done|] end.
  destruct (_ >? _); cbn [orb]; [lia|]. case_bool_decide; lia.
Qed.

(** The next record of a buffer: a frame in bounds, and the offset moves on. *)
Lemma run_next_record c w : buffer_ok c -> (bc_offset c < bc_filled c)%nat ->
  match next_record (c, w) with
  | (Panic, _) => False
  | (r, (c', w')) => w' = w /\ bc_buf c' = bc_buf c /\ bc_filled c' = bc_filled c /\ (bytes_left c' < bytes_left c)%nat /\
      (forall frame, r = Ok (RdFrame frame) -> (length frame <= MAX_FRAME_LEN)%nat)
  end.
Proof.
  unfold buffer_ok, bytes_left. intros Hok Hoff. unfold next_record, gets, mbind, M_bind, lift, range. cbn [fst snd].
  rewrite get_range_is_Some by lia. cbn [expect]. pose proof (parse_record_bounds (take (bc_filled c - bc_offset c) (drop (bc_offset c) (bc_buf c)))) as Hb.
  rewrite length_take, length_drop in Hb. destruct (parse_record _) as [[[from to|n] advance]|e|]; [| | |done].
  - destruct Hb as (Hb1&Hb2&Hb3). cbn [modify fst snd]. rewrite get_range_is_Some by lia. cbn [expect mret M_ret].
    cbn [set_offset bc_offset bc_filled bc_buf]. split_and!; [done..|lia|]. intros frame [= <-]. rewrite length_take. lia.
  - cbn [modify mret M_ret fst snd set_offset bc_offset bc_filled bc_buf]. split_and!; [done..|lia|done].
  - cbn [modify fail lift fst snd set_offset bc_offset bc_filled bc_buf]. split_and!; [done..|lia|done].
Qed.

Lemma run_refill_any c w : reads_fit ->
  match refill (c, w) with
  | (Panic, _) => False
  | (Ok true, (c', _)) => buffer_ok c' /\ length (bc_buf c') = length (bc_buf c) /\ (bc_offset c' < bc_filled c')%nat
  | (_, (c', _)) => c' = c
  end.
Proof.
  intros Hfit. unfold refill, gets, mbind, M_bind, bpf_ask, status. cbn [fst snd].
  destruct (bpf_read (bc_fd c) _ w) as [[e|data] w'] eqn:Er; cbn [from_syscall]; [by destruct (would_block e)|].
  pose proof (Hfit _ _ _ _ _ Er) as Hn. destruct data as [|b data]; [done|]. cbn [modify mret M_ret fst snd].
  unfold buffer_ok. cbn [bc_buf bc_filled bc_offset]. rewrite length_app, length_drop. split_and!; [lia|lia|cbn; lia].
Qed.

(** No batch stalls or breaks the capture.  Whatever bytes the device reads,
    asking for a frame never panics and returns no frame past the forwarding
    limit; as long as the batch has bytes left, each call takes some of them and
    leaves the device alone, a malformed record giving the batch up; so a drain
    ends after at most as many calls as the batch has bytes. *)
Theorem any_batch_drains c w : reads_fit -> buffer_ok c ->
  match bpf_next_frame (c, w) with
  | (Panic, _) => False
  | (r, (c', w')) =>
      buffer_ok c' /\ length (bc_buf c') = length (bc_buf c) /\
      (forall frame, r = Ok (Some (RdFrame frame)) -> (length frame <= MAX_FRAME_LEN)%nat) /\
      (if bpf_has_buffered c then w' = w /\ (bytes_left c' < bytes_left c)%nat else True)
  end.
Proof.
  intros Hfit Hok. unfold bpf_next_frame, bpf_has_buffered. unfold gets at 1, mbind, M_bind. cbn [fst].
  destruct (Nat.leb_spec (bc_filled c) (bc_offset c)) as [Hd|Hd].
  - rewrite (proj2 (Nat.ltb_ge _ _)) by done. pose proof (run_refill_any c w Hfit) as Hr.
    destruct (refill (c, w)) as [[[]|e|] [c1 w1]]; [|subst c1; by split_and!..|done]. destruct Hr as (Hok1&Hl1&Ho1).
    pose proof (run_next_record c1 w1 Hok1 Ho1) as Hn. destruct (next_record (c1, w1)) as [[r|e|] [c2 w2]]; [| |done].
    all: cbn [mret M_ret]; destruct Hn as (_&Eb&Ef&_&Hm); unfold buffer_ok; rewrite Eb, Ef; split_and!; [done..| |done]; intros frame E; try done.
    apply Hm. by injection E as ->.
  - rewrite (proj2 (Nat.ltb_lt _ _)) by done. cbn [mret M_ret]. pose proof (run_next_record c w Hok Hd) as Hn.
    destruct (next_record (c, w)) as [[r|e|] [c2 w2]]; [| |done].
    all: cbn [mret M_ret]; destruct Hn as (Ew&Eb&Ef&Hlt&Hm); unfold buffer_ok; rewrite Eb, Ef; split_and!; [done..| |done|done]; intros frame E; try done.
    apply Hm. by injection E as ->.
Qed.

(** ** The capture the dispatcher drains *)

(** What [Capture] of Kernel keeps of it. *)
Definition as_capture c : Capture :=
  {| cap_fd := bc_fd c; cap_link := bc_link c; cap_batch := take (bytes_left c) (drop (bc_offset c) (bc_buf c)) |}.

Lemma as_capture_left c : buffer_ok c -> length (cap_batch (as_capture c)) = bytes_left c.
Proof. unfold buffer_ok, as_capture, bytes_left. cbn [cap_batch]. rewrite length_take, length_drop. lia. Qed.

(** A device's capture keeps the law the dispatcher's drain relies on
    ([kt_batch] of DispatchInv), its buffer the limit. *)
Theorem bpf_batch_law c w : reads_fit -> buffer_ok c ->
  match bpf_next_frame (c, w) with
  | (Panic, _) => False
  | (_, (c', _)) => buffer_ok c' /\
      match cap_batch (as_capture c) with
      | [] => (length (cap_batch (as_capture c')) <= length (bc_buf c))%nat
      | batch => (length (cap_batch (as_capture c')) < length batch)%nat
      end
  end.
Proof.
  intros Hfit Hok. pose proof (any_batch_drains c w Hfit Hok) as Hd. pose proof (as_capture_left c Hok) as Hl.
  destruct (bpf_next_frame (c, w)) as [[r|e|] [c' w']]; [| |done].
  all: destruct Hd as (Hok'&Hbuf&_&Hs); split; [done|]; rewrite (as_capture_left c' Hok').
  all: destruct (cap_batch (as_capture c)) as [|b batch]; [unfold bytes_left, buffer_ok in *; lia|].
  all: rewrite Hl; unfold bpf_has_buffered in Hs; destruct (Nat.ltb_spec (bc_offset c) (bc_filled c)); [apply Hs|].
  all: cbn in Hl; unfold bytes_left in Hl; lia.
Qed.
End batches.

(** ** Witnesses: two frames in a batch, on a 64-bit FreeBSD *)

Definition le_of (l : bytes) : Z := of_be (reverse l).
Definition scripted_bpf : BpfDevices (() * list bytes) :=
  {| EBUSY := 16; ENXIO := 6; DLT_EN10MB := 1; DLT_NULL := 0;
     bpf_hdr_size := 32; bh_caplen := fun h => le_of (take 4 (drop 16 h)); bh_datalen := fun h => le_of (take 4 (drop 20 h));
     bh_hdrlen := fun h => le_of (take 2 (drop 24 h)); BPF_WORDALIGN := fun n => ((n + 7) / 8 * 8)%nat;
     bpf_open := fun _ w => (inr 5, w);
     set_buffer_len := fun _ _ w => (inr (), w);
     buffer_len := fun _ w => (inr 16384, w);
     set_immediate := fun _ w => (inr (), w);
     set_interface := fun _ _ w => (inr (), w);
     data_link_type := fun _ w => (inr 1, w);
     set_see_sent := fun _ _ w => (inr (), w);
     set_filter := fun _ _ w => (inr (), w);
     bpf_read := fun _ n w => match w.2 with [] => (inl (OsError 11), w) | data :: l => (inr (take n data), (w.1, l)) end;
     bpf_write := fun _ frame w => (inr (length frame), w) |}.
Definition ex_kernel_record (data : bytes) (datalen : Z) : KernelRecord :=
  {| kr_header := replicate 16 0 ++ reverse (be 4 (Z.of_nat (length data))) ++ reverse (be 4 datalen) ++ reverse (be 2 26); kr_data := data |}.
Definition ex_records : list KernelRecord := [ex_kernel_record (repeat 7 20) 20; ex_kernel_record (repeat 9 14) 90].
Definition ex_batch : bytes :=
  kr_bytes (ex_kernel_record (repeat 7 20) 20) ++ [0; 0] ++ kr_bytes (ex_kernel_record (repeat 9 14) 90).
Definition ex_bpf_capture : BpfCapture :=
  {| bc_fd := 5; bc_buf := replicate 200 0; bc_filled := 0; bc_offset := 0; bc_link := Ethernet; bc_name := {| if_str := [101; 109; 48] |} |}.

Lemma scripted_layout : bpf_layout (H1 := scripted_bpf).
Proof.
  split; cbn [BPF_WORDALIGN bpf_hdr_size scripted_bpf]; [|lia]. intros n. pose proof (Nat.div_mod (n + 7) 8 ltac:(lia)).
  pose proof (Nat.mod_upper_bound (n + 7) 8 ltac:(lia)). lia.
Qed.

Lemma batch_read_in_order_witness :
  exists c', bpf_reads (H := scripted_sockets) (H1 := scripted_bpf) 2 (ex_bpf_capture, ((), [ex_batch])) =
    (Ok [Some (RdFrame (repeat 7 20)); Some RdOversized], (c', ((), []))) /\ bpf_has_buffered c' = false.
Proof.
  assert (Hb : batch_of (H1 := scripted_bpf) ex_records ex_batch).
  { apply batch_cons; [by repeat split; vm_compute; (reflexivity || lia)|reflexivity|].
    rewrite <- (app_nil_r (kr_bytes _)). apply batch_last; [by repeat split; vm_compute; (reflexivity || lia)|vm_compute; lia]. }
  exact (batch_read_in_order (H := scripted_sockets) (H1 := scripted_bpf) scripted_layout ex_records ex_bpf_capture ((), [ex_batch]) ex_batch
           ((), []) (Nat.le_refl 0) eq_refl ltac:(vm_compute; lia) Hb).
Defined.

Lemma bpf_batch_law_witness :
  match bpf_next_frame (H := scripted_sockets) (H1 := scripted_bpf) (ex_bpf_capture, ((), [ex_batch])) with
  | (Ok r, (c', _)) => r = Some (RdFrame (repeat 7 20)) /\ (0 < length (cap_batch (as_capture c')) <= 200)%nat
  | _ => False
  end.
Proof.
  assert (Hfit : reads_fit (H1 := scripted_bpf)).
  { intros fd n w data w'. cbn [bpf_read scripted_bpf]. destruct w.2 as [|x l]; intros [= <- _]. rewrite length_take. apply Nat.le_min_l. }
  pose proof (bpf_batch_law (H := scripted_sockets) (H1 := scripted_bpf) ex_bpf_capture ((), [ex_batch]) Hfit (Nat.le_0_l _)) as [_ H].
  split; [reflexivity|]. split; [vm_compute; lia|exact H].
Defined.

Lemma any_batch_drains_witness :
  match bpf_next_frame (H := scripted_sockets) (H1 := scripted_bpf) (ex_bpf_capture, ((), [repeat 3 50])) with
  | (r, (c', _)) => r = Err OtherError /\ buffer_ok c'
  end.
Proof.
  split; [reflexivity|].
  refine (proj1 (any_batch_drains (H := scripted_sockets) (H1 := scripted_bpf) ex_bpf_capture ((), [repeat 3 50]) _ (Nat.le_0_l _))).
  intros fd n w data w'. cbn [bpf_read scripted_bpf]. destruct w.2 as [|x l]; intros [= <- _]. rewrite length_take. apply Nat.le_min_l.
Defined.
