(* ===== verification/DialRegistry.v ===== *)
(** The DIAL proxies in being ([src/dispatch/dial_context.rs]) and the rewrite
    of a device's [LOCATION] to one ([src/reflector/dial/rewrite.rs]).  The
    proxies themselves are handlers of the reactor, behind [ProxyHandler]. *)

From S2P Require Import Prelude Effect Text Addr Names Interface Kernel Multicast LinearMap StreamBuffer Http.
From S2P Require Import Framing Ssdp Arena Reactor Tcp.

Local Open Scope Z_scope.

Definition MAX_DIAL_PROXIES : nat := 64.

Record DialProxyKey : Type := { dk_source : CaptureKey; dk_target : CaptureKey; dk_endpoint : SocketAddrV4 }.
Global Instance DialProxyKey_eq_dec : EqDecision DialProxyKey.
Proof. solve_decision. Defined.

Record DialEntry : Type := { de_handler : Key; de_desc_addr : SocketAddrV4; de_desc_grace : Z }.

(** [DialContext] *)
Abbreviation DialContext := (LinearMap DialProxyKey DialEntry).
Definition dial_new : DialContext := lm_new.

(** [DialDeviceProxy::new], a handler of the reactor. *)
Class ProxyHandler (H : Type) : Type :=
  proxy_new : Z -> option InterfaceName -> TcpSocket -> SocketAddrV4 -> TcpSocket -> H.

Definition set_grace (grace : Z) (e : DialEntry) : DialEntry :=
  {| de_handler := de_handler e; de_desc_addr := de_desc_addr e; de_desc_grace := grace |}.

Section registry.
Context {H : Type}.

(** [DialContext::lookup] *)
Definition dial_lookup (ctx : DialContext) (key : DialProxyKey) (reactor : Reactor H) (desc_grace : Z)
    : option SocketAddrV4 * DialContext :=
  match lm_get ctx key with
  | Some entry =>
      if is_registered reactor (de_handler entry)
      then (Some (de_desc_addr entry), lm_get_mut (set_grace desc_grace) ctx key)
      else (None, lm_delete ctx key)
  | None => (None, lm_delete ctx key)
  end.

(** [DialContext::has_capacity] *)
Definition has_capacity (ctx : DialContext) (reactor : Reactor H) : bool * DialContext :=
  let ctx := lm_retain (fun _ p => (is_registered reactor (de_handler p), p)) ctx in
  ((lm_len ctx <? MAX_DIAL_PROXIES)%nat, ctx).

(** [DialContext::insert] *)
Definition dial_insert (ctx : DialContext) (key : DialProxyKey) (handler : Key) (desc_addr : SocketAddrV4) (desc_grace : Z)
    : DialContext :=
  (lm_insert ctx key {| de_handler := handler; de_desc_addr := desc_addr; de_desc_grace := desc_grace |}).2.

(** [DialContext::next_grace] *)
Definition next_grace (ctx : DialContext) : option Z := min_instant ((fun p => de_desc_grace p.2) <$> lm_iter ctx).

Context {W : Type} `{Poller W} `{Adopt H}.

(** [DialContext::evict_where]: a failed teardown drops the entry all the same. *)
Fixpoint evict_where (evict : DialProxyKey -> DialEntry -> bool) (ctx : DialContext) : M (RState H W) Infallible DialContext :=
  match ctx with
  | [] => mret []
  | (key, p) :: ctx =>
      if evict key p then _ ← attempt (E' := IoError) (unregister (de_handler p)); evict_where evict ctx
      else
        reactor ← gets rs_reactor;
        rest ← evict_where evict ctx;
        mret (if is_registered reactor (de_handler p) then (key, p) :: rest else rest)
  end.

(** [DialContext::sweep] and [evict_on_interface_change] *)
Definition dial_sweep (ctx : DialContext) (now : Z) : M (RState H W) Infallible DialContext :=
  evict_where (fun _ p => de_desc_grace p <=? now) ctx.
Definition evict_on_interface_change (ctx : DialContext) (changed : list CaptureKey) : M (RState H W) Infallible DialContext :=
  evict_where (fun key _ => bool_decide (dk_source key ∈ changed) || bool_decide (dk_target key ∈ changed)) ctx.

(** ** The rewrite *)

Definition DEFAULT_DESC_GRACE : Z := 30 * 60 * 10 ^ 9.
Definition MAX_DESC_GRACE : Z := 2 * 3600 * 10 ^ 9.

Record ProxyPlacement : Type := {
  pp_source_capture : CaptureKey;
  pp_source : Z;
  pp_target_capture : CaptureKey;
  pp_target : Z;
  pp_target_iface : option InterfaceName;
}.

(** [write_all] of [io::Write], over the short writes of a full buffer. *)
Fixpoint write_all_loop (fuel : nat) (out : StreamBuffer) (data : bytes) : res Infallible (bool * StreamBuffer) :=
  match data, fuel with
  | [], _ => Ok (true, out)
  | _, O => Panic
  | _, S fuel =>
      '(n, out) ← sb_write out data;
      if (n =? 0)%nat then Ok (false, out) else write_all_loop fuel out (drop n data)
  end.
Definition write_all (out : StreamBuffer) (data : bytes) : res Infallible (bool * StreamBuffer) := write_all_loop (length data) out data.

Context `{Tcp W} `{ProxyHandler H}.

Definition world_call {A} (f : W -> io A * W) : M (RState H W) Infallible (option A) := fun s =>
  let '(r, w) := f (rs_world s) in
  (Ok (match r with inr a => Some a | inl _ => None end), {| rs_reactor := rs_reactor s; rs_world := w |}).

(** [names_this_host] *)
Definition names_this_host (endpoint : SocketAddrV4) : M (RState H W) Infallible bool :=
  addrs ← world_call host_v4_addrs;
  mret (match addrs with Some addrs => bool_decide (sa_ip endpoint ∈ addrs) | None => true end).

(** [listen_or_warn] *)
Definition listen_or_warn (source : Z) : M (RState H W) Infallible (option TcpSocket) := world_call (tcp_listen source).

(** [mint_proxy] *)
Definition mint_proxy (ctx : DialContext) (placement : ProxyPlacement) (key : DialProxyKey) (desc_grace : Z)
    : M (RState H W) Infallible (option SocketAddrV4 * DialContext) :=
  reactor ← gets rs_reactor;
  let '(room, ctx) := has_capacity ctx reactor in
  if negb room then mret (None, ctx)
  else
    ours ← names_this_host (dk_endpoint key);
    if ours : bool then mret (None, ctx)
    else
      desc ← listen_or_warn (pp_source placement);
      match desc with
      | None => mret (None, ctx)
      | Some desc =>
          rest ← listen_or_warn (pp_source placement);
          match rest with
          | None => mret (None, ctx)
          | Some rest =>
              let proxy := proxy_new (pp_target placement) (pp_target_iface placement) desc (dk_endpoint key) rest in
              handler ← attempt (register_with_fds proxy [(tcp_fd desc, 0); (tcp_fd rest, 0)]);
              mret (match handler with
                    | inl _ => (None, ctx)
                    | inr handler => (Some (tcp_local desc), dial_insert ctx key handler (tcp_local desc) desc_grace)
                    end)
          end
      end.

(** The listener of the device's proxy, minted if none is live. *)
Definition proxy_for (ctx : DialContext) (placement : ProxyPlacement) (key : DialProxyKey) (desc_grace : Z)
    : M (RState H W) Infallible (option SocketAddrV4 * DialContext) :=
  reactor ← gets rs_reactor;
  match dial_lookup ctx key reactor desc_grace with
  | (Some addr, ctx) => mret (Some addr, ctx)
  | (None, ctx) => mint_proxy ctx placement key desc_grace
  end.

(** [write_all] of three parts, stopping at one that does not fit. *)
Definition write_parts (out : StreamBuffer) (a b c : bytes) : res Infallible (bool * StreamBuffer) :=
  '(fits, out) ← write_all out a;
  if negb fits then Ok (false, out)
  else
    '(fits, out) ← write_all out b;
    if negb fits then Ok (false, out) else write_all out c.

(** [rewrite_location]: whether it rewrote, with the message in [out]. *)
Definition rewrite_location (ctx : DialContext) (now : Z) (payload : bytes) (placement : ProxyPlacement) (out : StreamBuffer)
    : M (RState H W) Infallible (bool * DialContext * StreamBuffer) :=
  if negb (is_dial_service_message payload) then mret (false, ctx, out)
  else
    match parse_dial_location_authority payload with
    | None => mret (false, ctx, out)
    | Some location =>
        if is_never_a_peer (V4 (sa_ip (endpoint location))) then mret (false, ctx, out)
        else
          let max_age := match parse_cache_control_max_age payload with
                         | Some seconds => Z.min (seconds * 10 ^ 9) MAX_DESC_GRACE
                         | None => DEFAULT_DESC_GRACE
                         end in
          let key := {| dk_source := pp_source_capture placement; dk_target := pp_target_capture placement;
                        dk_endpoint := endpoint location |} in
          '(addr, ctx) ← proxy_for ctx placement key (now + max_age);
          match addr with
          | None => mret (false, ctx, out)
          | Some desc_addr =>
              before ← lift (range payload 0 (au_offset location));
              after ← lift (range_from payload (au_offset location + au_len location)%nat);
              '(fits, out) ← lift (write_parts out before (append_authority desc_addr) after);
              mret (fits, ctx, out)
          end
    end.
End registry.
