(* ===== verification/DialRegistrySpec.v ===== *)
(** What the DIAL registry keeps: at most [MAX_DIAL_PROXIES] proxies, one per
    device and pair, each for two hours at most, and a rewritten [LOCATION] that
    names a live one. *)

From S2P Require Import Prelude Effect Text Addr Names Interface Kernel LinearMap StreamBuffer Http Framing.
From S2P Require Import Ssdp Arena Reactor ReactorSpec DialRegistry.
From S2P Require Import Tcp.

Local Open Scope Z_scope.

Lemma write_all_spec out data : sb_wf out -> exists fits out', write_all out data = Ok (fits, out') /\ sb_wf out' /\
  (fits = true -> queue out' = queue out ++ data).
Proof.
  unfold write_all. assert (Hgen : forall fuel d b, (length d <= fuel)%nat -> sb_wf b ->
    exists fits out', write_all_loop fuel b d = Ok (fits, out') /\ sb_wf out' /\ (fits = true -> queue out' = queue b ++ d));
    [|intros Hwf; by apply Hgen].
  induction fuel as [|fuel IH]; intros d b Hle Hb.
  { destruct d; [|cbn in Hle; lia]. exists true, b. by rewrite app_nil_r. }
  destruct d as [|x d]; cbn [write_all_loop]; [exists true, b; by rewrite app_nil_r|].
  unfold sb_write. set (n := Nat.min _ _).
  destruct (push_spec (E:=Infallible) b (take n (x :: d)) Hb) as (b'&->&Hb'&Hq&_).
  { rewrite length_take. destruct Hb. unfold sb_len in *. lia. }
  rewrite !bind_ret. destruct (Nat.eqb_spec n 0) as [Hn|Hn].
  - exists false, b'. by split_and!.
  - destruct (IH (drop n (x :: d)) b') as (fits&b''&->&Hb''&Hq''); [rewrite length_drop; cbn [length] in *; lia|done|].
    exists fits, b''. split_and!; [done..|]. intros Hf. rewrite Hq'', Hq by done. by rewrite <- app_assoc, take_drop.
Qed.

Lemma write_parts_spec out a b c : sb_wf out -> exists fits out', write_parts out a b c = Ok (fits, out') /\ sb_wf out' /\
  (fits = true -> queue out' = queue out ++ a ++ b ++ c).
Proof.
  intros Hwf. unfold write_parts. destruct (write_all_spec out a Hwf) as (f1&o1&->&H1&Q1). rewrite bind_ret.
  destruct f1; cbn [negb]; [|by exists false, o1]. specialize (Q1 eq_refl).
  destruct (write_all_spec o1 b H1) as (f2&o2&->&H2&Q2). rewrite bind_ret.
  destruct f2; cbn [negb]; [|by exists false, o2]. specialize (Q2 eq_refl).
  destruct (write_all_spec o2 c H2) as (f3&o3&->&H3&Q3). exists f3, o3. split_and!; [done..|].
  intros ->. rewrite Q3, Q2, Q1 by done. by rewrite <- !app_assoc.
Qed.

Definition entry_ok (e : DialEntry) : Prop := 0 <= index (de_handler e) /\ 0 <= sa_port (de_desc_addr e).
Definition dial_ok (ctx : DialContext) : Prop :=
  lm_wf ctx /\ (length ctx <= MAX_DIAL_PROXIES)%nat /\ forall p, p ∈ ctx -> entry_ok p.2.

(** The port a listener is bound to is one. *)
Definition tcp_typed (W : Type) `{Tcp W} : Prop :=
  forall source w sock, (tcp_listen source w).1 = inr sock -> 0 <= sa_port (tcp_local sock).

Section registry.
Context {H W : Type} `{Poller W} `{Adopt H} `{Tcp W} `{ProxyHandler H} (Htyped : tcp_typed W).
Implicit Types s : RState H W.

Lemma set_grace_elem (ctx : DialContext) grace key p :
  p ∈ lm_get_mut (set_grace grace) ctx key ->
  exists e, (p.1, e) ∈ ctx /\ de_handler p.2 = de_handler e /\ de_desc_addr p.2 = de_desc_addr e.
Proof.
  induction ctx as [|[k e] ctx IH]; cbn [lm_get_mut]; [by intros ?%not_elem_of_nil|].
  assert (Htail : forall q, q ∈ ctx -> exists e', (q.1, e') ∈ (k, e) :: ctx /\ de_handler q.2 = de_handler e' /\
    de_desc_addr q.2 = de_desc_addr e').
  { intros [k' e'] Hin. exists e'. split; [by right|done]. }
  case_decide; intros [-> |Hin]%elem_of_cons.
  - exists e. split; [by left|done].
  - by apply Htail.
  - exists e. split; [by left|done].
  - destruct (IH Hin) as (e'&Hin'&->&->). exists e'. split; [by right|done].
Qed.

Lemma lm_insert_elem (ctx : DialContext) key e p : p ∈ (lm_insert ctx key e).2 -> p ∈ ctx \/ p = (key, e).
Proof.
  unfold lm_insert. destruct (lm_get ctx key); cbn [snd].
  - induction ctx as [|[k e'] ctx IH]; cbn [lm_get_mut]; [by intros ?%not_elem_of_nil|].
    case_decide as E; intros [-> |Hin]%elem_of_cons; [right; by rewrite E|left; by right|left; by left|].
    destruct (IH Hin); [left; by right|by right].
  - intros [?| ->%list_elem_of_singleton]%elem_of_app; [by left|by right].
Qed.

(** A handler already there survives a watch. *)
Lemma watch_registered k fd user_data k' s r s' :
  0 <= index k -> 0 <= index k' -> watch k fd user_data s = (r, s') ->
  is_Some (get (handlers_of s) k') -> is_Some (get (handlers_of s') k').
Proof.
  intros Hk Hk'. unfold watch, gets. unfold mbind at 1 2, M_bind.
  destruct (negb _); [unfold fail, lift; by intros [= _ <-]|].
  destruct (existsb _ _); [unfold fail, lift; by intros [= _ <-]|].
  unfold lift, modify, attempt, mbind, M_bind.
  destruct (arena_insert _ _) as [[rk a]|e|]; [|by intros [= _ <-]..].
  match goal with |- context [call ?f ?s] => pose proof (call_reactor f s) as [Hcr Hcp]; destruct (call f s) as [r1 s1] end.
  cbn [fst snd] in Hcr, Hcp. destruct r1 as [[]|e|]; [| |done].
  - unfold mret, M_ret. intros [= _ <-]. unfold handlers_of. rewrite Hcr. cbn. intros Hs. rewrite get_get_mut by done.
    case_decide; [subst; by apply fmap_is_Some|done].
  - unfold fail, lift. intros [= _ <-]. unfold handlers_of, registrations_of. rewrite Hcr. by destruct (remove _ _) as [[]|]; cbn; rewrite ?Hcr.
Qed.

Lemma register_with_fds_registered h fds s k s' :
  reactor_ok (rs_reactor s) -> register_with_fds h fds s = (Ok k, s') ->
  is_registered (rs_reactor s') k = true /\ 0 <= index k.
Proof.
  intros Hok. unfold register_with_fds. unfold mbind at 1, M_bind.
  destruct (register h s) as [[k0|e|] s1] eqn:E; [|done..]. pose proof (register_key_ok _ _ _ _ Hok E) as Hk.
  assert (Hs1 : is_Some (get (handlers_of s1) k0)).
  { revert E. unfold register, gets, lift, modify, mbind, M_bind, mret, M_ret, handlers_of.
    destruct (insert_from _ _) as [[k1 a]|e|] eqn:E1; [|done..]. intros [= -> <-]. cbn.
    destruct (get_insert_from _ _ _ _ (ro_handlers _ Hok) E1) as (_&_&_&Hg). rewrite Hg, decide_True by done. done. }
  clear E Hok s. unfold mbind, M_bind.
  assert (Hall : forall s1 s2, is_Some (get (handlers_of s1) k0) -> watch_all k0 fds s1 = (Ok (), s2) -> is_Some (get (handlers_of s2) k0)).
  { induction fds as [|[fd ud] fds IH]; cbn [watch_all]; [intros ? ? ? [= <-]; done|].
    intros s2 s3 Hs2. unfold attempt, mbind, M_bind. destruct (watch k0 fd ud s2) as [[rk|e|] s4] eqn:Ew; [| |done].
    - apply IH. eapply watch_registered; [..|exact Ew|exact Hs2]; done.
    - by destruct (unregister k0 s4) as [[b|e'|] s5]. }
  destruct (watch_all k0 fds s1) as [[[]|e|] s2] eqn:Ew; [|done..]. unfold mret, M_ret. intros [= <- <-]. split; [|done].
  unfold is_registered. apply contains_iff. exact (Hall _ _ Hs1 Ew).
Qed.

Lemma world_call_reactor {A} (f : W -> io A * W) s : exists o s', world_call f s = (Ok o, s') /\ rs_reactor s' = rs_reactor s /\
  forall a, o = Some a -> (f (rs_world s)).1 = inr a.
Proof. unfold world_call. destruct (f (rs_world s)) as [[e|a] w]; eexists _, _; split_and!; try done. by intros a' [= <-]. Qed.

(** What a lookup or a mint returns. *)
Definition proxy_post key grace (x : res Infallible (option SocketAddrV4 * DialContext) * RState H W) : Prop :=
  match x with
  | (Ok (addr, ctx), s) =>
      reactor_ok (rs_reactor s) /\ dial_ok ctx /\
      forall a, addr = Some a -> exists handler,
        lm_get ctx key = Some {| de_handler := handler; de_desc_addr := a; de_desc_grace := grace |} /\
        is_registered (rs_reactor s) handler = true
  | (Err _, _) => False
  | (Panic, s) => exhausted (rs_reactor s)
  end.

Lemma mint_proxy_spec ctx placement key grace s :
  reactor_ok (rs_reactor s) -> dial_ok ctx -> proxy_post key grace (mint_proxy ctx placement key grace s).
Proof.
  intros Hok (Hwf&Hlen&Hidx). unfold mint_proxy, gets, mbind at 1, M_bind. unfold has_capacity.
  set (keep := fun _ p => _). set (ctx1 := lm_retain keep ctx).
  assert (Hctx1 : dial_ok ctx1).
  { split_and!; [by apply lm_retain_wf|pose proof (lm_len_retain keep ctx); unfold ctx1; lia|].
    intros [k e] Hin. apply lm_retain_elem in Hin as (e0&Hin&He). unfold keep in He. injection He as _ ->.
    exact (Hidx _ Hin). }
  destruct (Nat.ltb_spec (lm_len ctx1) MAX_DIAL_PROXIES) as [Hroom|]; cbn [negb]; [|by split_and!].
  unfold names_this_host, listen_or_warn, mbind, M_bind.
  destruct (world_call_reactor host_v4_addrs s) as (addrs&s1&->&R1&_). unfold mret, M_ret.
  destruct (match addrs with Some _ => _ | None => _ end); [split_and!; rewrite ?R1; done|].
  destruct (world_call_reactor (tcp_listen (pp_source placement)) s1) as (desc&s2&->&R2&Hdesc).
  destruct desc as [desc|]; [|split_and!; rewrite ?R2, ?R1; done].
  destruct (world_call_reactor (tcp_listen (pp_source placement)) s2) as (rest&s3&->&R3&_).
  destruct rest as [rest|]; [|split_and!; rewrite ?R3, ?R2, ?R1; done].
  assert (Hok3 : reactor_ok (rs_reactor s3)) by (by rewrite R3, R2, R1). unfold attempt.
  match goal with |- context [register_with_fds ?h ?fds s3] =>
    pose proof (register_with_fds_keeps h fds s3 Hok3) as Hk; pose proof (register_with_fds_registered h fds s3) as Hr;
    destruct (register_with_fds h fds s3) as [[handler|e|] s4] end; [|by split_and!|exact Hk].
  destruct (Hr _ _ Hok3 eq_refl) as [Hreg Hi]. unfold dial_insert. split_and!; [done| |].
  - split_and!; [apply lm_insert_wf, Hctx1| |].
    2: { intros p Hp. apply lm_insert_elem in Hp as [Hp| ->]; [by apply Hctx1|].
         split; [done|]. by eapply Htyped, Hdesc. }
    pose proof (lm_len_insert ctx1 key
      {| de_handler := handler; de_desc_addr := tcp_local desc; de_desc_grace := grace |}) as Hl. unfold lm_len in *.
    rewrite Hl. case_decide; lia.
  - intros a [= <-]. exists handler. rewrite lm_get_insert. by rewrite decide_True.
Qed.

Lemma dial_ok_delete ctx key : dial_ok ctx -> dial_ok (lm_delete ctx key).
Proof.
  intros (Hwf&Hlen&Hidx). split_and!; [by apply lm_delete_wf|pose proof (lm_len_delete ctx key); lia|].
  intros p Hp. apply Hidx. by eapply lm_delete_elem.
Qed.

Lemma proxy_for_spec ctx placement key grace s :
  reactor_ok (rs_reactor s) -> dial_ok ctx -> proxy_post key grace (proxy_for ctx placement key grace s).
Proof.
  intros Hok Hctx. unfold proxy_for, gets, mbind, M_bind. unfold dial_lookup.
  pose proof (dial_ok_delete ctx key Hctx) as Hdel.
  destruct (lm_get ctx key) as [e|] eqn:Eg; [|by apply mint_proxy_spec].
  destruct (is_registered (rs_reactor s) (de_handler e)) eqn:Er; [|by apply mint_proxy_spec].
  split_and!; [done| |].
  - destruct Hctx as (Hwf&Hlen&Hidx). split_and!; [unfold lm_wf; by rewrite lm_get_mut_keys| |].
    + by rewrite <- (length_fmap fst), lm_get_mut_keys, length_fmap.
    + intros p Hp. apply set_grace_elem in Hp as (e'&Hin&E1&E2). unfold entry_ok. rewrite E1, E2. exact (Hidx _ Hin).
  - intros a [= <-]. exists (de_handler e). split; [|done]. rewrite lm_get_get_mut, decide_True by done. by rewrite Eg.
Qed.

Definition rewrite_post now payload placement (x : res Infallible (bool * DialContext * StreamBuffer) * RState H W) : Prop :=
  match x with
  | (Ok (rewritten, ctx', out'), s') =>
      reactor_ok (rs_reactor s') /\ dial_ok ctx' /\ sb_wf out' /\
      (rewritten = true -> exists location e,
         is_dial_service_message payload = true /\ parse_dial_location_authority payload = Some location /\
         is_never_a_peer (V4 (sa_ip (endpoint location))) = false /\
         lm_get ctx' {| dk_source := pp_source_capture placement; dk_target := pp_target_capture placement;
                        dk_endpoint := endpoint location |} = Some e /\
         is_registered (rs_reactor s') (de_handler e) = true /\ de_desc_grace e <= now + MAX_DESC_GRACE /\
         queue out' = take (au_offset location) payload ++ append_authority (de_desc_addr e) ++
                      drop (au_offset location + au_len location) payload)
  | (Err _, _) => False
  | (Panic, s') => exhausted (rs_reactor s')
  end.

Lemma rewrite_location_spec ctx now payload placement out s :
  reactor_ok (rs_reactor s) -> dial_ok ctx -> sb_wf out -> queue out = [] ->
  rewrite_post now payload placement (rewrite_location ctx now payload placement out s).
Proof.
  intros Hok Hctx Hout Hq. unfold rewrite_location.
  destruct (is_dial_service_message payload) eqn:Hd; cbn [negb]; [|by split_and!].
  destruct (parse_dial_location_authority payload) as [loc|] eqn:Hl; [|by split_and!].
  destruct (is_never_a_peer _) eqn:Hn; [by split_and!|].
  set (max_age := match parse_cache_control_max_age payload with Some _ => _ | None => _ end).
  set (key := {| dk_source := _; dk_target := _; dk_endpoint := _ |}).
  pose proof (proxy_for_spec ctx placement key (now + max_age) s Hok Hctx) as Hp. unfold mbind, M_bind.
  destruct (proxy_for ctx placement key (now + max_age) s) as [[[addr ctx']|e|] s1]; [|done..].
  destruct Hp as (Hok1&Hctx1&Hp). destruct addr as [addr|]; [|by split_and!].
  destruct (Hp addr eq_refl) as (handler&Hget&Hreg). destruct (dial_span _ _ Hl) as [Hspan _].
  unfold lift. rewrite range_ok by lia. unfold range_from. rewrite (proj2 (get_from_Some _ _ _) (conj Hspan eq_refl)).
  cbn [expect]. rewrite drop_0, Nat.sub_0_r.
  destruct (write_parts_spec out (take (au_offset loc) payload) (append_authority addr)
    (drop (au_offset loc + au_len loc) payload) Hout) as (fits&out'&->&Hout'&Hfits).
  split_and!; [done..|]. intros Hf. exists loc, {| de_handler := handler; de_desc_addr := addr; de_desc_grace := now + max_age |}.
  split_and!; try done; [|by rewrite Hfits, Hq by done]. cbn [de_desc_grace].
  assert (max_age <= MAX_DESC_GRACE); [|lia]. unfold max_age. destruct (parse_cache_control_max_age payload); [lia|done].
Qed.

(** An eviction keeps a part of the registry, none of it to be evicted. *)
Lemma evict_where_spec evict ctx s :
  reactor_ok (rs_reactor s) -> (forall p, p ∈ ctx -> 0 <= index (de_handler p.2)) ->
  exists ctx' s', evict_where evict ctx s = (Ok ctx', s') /\ reactor_ok (rs_reactor s') /\ sublist ctx' ctx /\
    Forall (fun p => evict p.1 p.2 = false) ctx'.
Proof.
  revert s. induction ctx as [|[key p] ctx IH]; intros s Hok Hidx; cbn [evict_where].
  { exists [], s. by split_and!. }
  assert (Htl : forall q, q ∈ ctx -> 0 <= index (de_handler q.2)) by (intros q Hq; apply Hidx; by right).
  destruct (evict key p) eqn:Ee.
  - pose proof (unregister_keeps (de_handler p) (Hidx (key, p) ltac:(by left)) s Hok) as Hu.
    pose proof (unregister_ok (de_handler p) s Hok (Hidx (key, p) ltac:(by left))) as Hp.
    unfold attempt, mbind, M_bind. destruct (unregister (de_handler p) s) as [r s1].
    destruct Hp as (Hr&Hok1&_). destruct r as [b|e|]; [| |done];
      (destruct (IH s1 Hok1 Htl) as (ctx'&s'&->&Hok'&Hsub&Hall); exists ctx', s'; split_and!; [done|done|by apply sublist_cons|done]).
  - unfold gets, mbind, M_bind. destruct (IH s Hok Htl) as (ctx'&s'&->&Hok'&Hsub&Hall). unfold mret, M_ret.
    eexists _, s'. split_and!; [done|done| |]; destruct (is_registered _ _);
      [by apply sublist_skip|by apply sublist_cons|by constructor|done].
Qed.

Lemma dial_ok_sublist ctx ctx' : dial_ok ctx -> sublist ctx' ctx -> dial_ok ctx'.
Proof.
  intros (Hwf&Hlen&Hidx) Hsub. split_and!.
  - unfold lm_wf in *. eapply sublist_NoDup; [exact Hwf|]. clear -Hsub. induction Hsub; cbn; by constructor.
  - apply sublist_length in Hsub. lia.
  - intros p Hp. apply Hidx. eapply elem_of_submseteq; [exact Hp|]. by apply sublist_submseteq.
Qed.

(** What the program does to the registry, at a time. *)
Inductive DialOp : Type :=
  | RewriteOp (now : Z) (payload : bytes) (placement : ProxyPlacement)
  | SweepOp (now : Z)
  | InterfaceOp (changed : list CaptureKey).
Definition dial_op (op : DialOp) (ctx : DialContext) : M (RState H W) Infallible DialContext :=
  match op with
  | RewriteOp now payload placement =>
      x ← rewrite_location ctx now payload placement (with_capacity MAX_FRAME_LEN); mret x.1.2
  | SweepOp now => dial_sweep ctx now
  | InterfaceOp changed => evict_on_interface_change ctx changed
  end.
Fixpoint dial_ops (ops : list DialOp) (ctx : DialContext) : M (RState H W) Infallible DialContext :=
  match ops with
  | [] => mret ctx
  | op :: ops => ctx ← dial_op op ctx; dial_ops ops ctx
  end.

(** What the last operation leaves. *)
Definition after_op (op : DialOp) (p : DialProxyKey * DialEntry) : Prop :=
  match op with
  | RewriteOp _ _ _ => True
  | SweepOp now => now < de_desc_grace p.2
  | InterfaceOp changed => dk_source p.1 ∉ changed /\ dk_target p.1 ∉ changed
  end.

Lemma dial_op_spec op ctx s :
  reactor_ok (rs_reactor s) -> dial_ok ctx ->
  match dial_op op ctx s with
  | (Ok ctx', s') => reactor_ok (rs_reactor s') /\ dial_ok ctx' /\ Forall (after_op op) ctx'
  | (Err _, _) => False
  | (Panic, s') => exhausted (rs_reactor s')
  end.
Proof.
  intros Hok Hctx. destruct op as [now payload placement|now|changed]; cbn [dial_op].
  - destruct (with_capacity_wf MAX_FRAME_LEN) as [Hwf Hq].
    pose proof (rewrite_location_spec ctx now payload placement _ s Hok Hctx Hwf Hq) as Hr. unfold mbind, M_bind.
    destruct (rewrite_location _ _ _ _ _ _) as [[[[b ctx'] out]|e|] s']; [|done..].
    destruct Hr as (?&?&_). split_and!; [done..|]. by apply Forall_true.
  - destruct (evict_where_spec (fun _ p => de_desc_grace p <=? now) ctx s Hok (fun p Hp => proj1 (proj2 (proj2 Hctx) p Hp))) as (ctx'&s'&E&Hok'&Hsub&Hall).
    unfold dial_sweep. rewrite E. split_and!; [done|by eapply dial_ok_sublist|]. eapply Forall_impl; [exact Hall|]. cbn. lia.
  - destruct (evict_where_spec (fun key _ => bool_decide (dk_source key ∈ changed) || bool_decide (dk_target key ∈ changed))
      ctx s Hok (fun p Hp => proj1 (proj2 (proj2 Hctx) p Hp))) as (ctx'&s'&E&Hok'&Hsub&Hall).
    unfold evict_on_interface_change. rewrite E. split_and!; [done|by eapply dial_ok_sublist|].
    eapply Forall_impl; [exact Hall|]. intros p [Hl Hr]%orb_false_iff. by split; eapply bool_decide_eq_false_1.
Qed.

(** C17. Over any sequence of advertisements, sweeps and interface changes, from
    any devices and whatever the kernel answers, at most 64 DIAL proxies are
    recorded, each device once per pair of interfaces, and the reactor stays
    consistent; a sweep leaves none past its grace, an interface change none on
    a changed interface. *)
Theorem dial_registry_bounded ops op s :
  reactor_ok (rs_reactor s) ->
  match dial_ops (ops ++ [op]) dial_new s with
  | (Ok ctx, s') => reactor_ok (rs_reactor s') /\ lm_wf ctx /\ (length ctx <= MAX_DIAL_PROXIES)%nat /\ Forall (after_op op) ctx
  | (Err _, _) => False
  | (Panic, s') => exhausted (rs_reactor s')
  end.
Proof.
  intros Hok. assert (Hnew : dial_ok dial_new).
  { split_and!; [constructor|cbn; lia|]. by intros p ?%not_elem_of_nil. }
  revert Hnew. generalize dial_new as ctx. revert s Hok. induction ops as [|op' ops IH]; intros s Hok ctx Hctx; cbn [app dial_ops].
  - pose proof (dial_op_spec op ctx s Hok Hctx) as Ho. unfold mbind, M_bind.
    destruct (dial_op op ctx s) as [[ctx'|e|] s']; [|done..]. destruct Ho as (Hok'&(Hwf&Hlen&_)&Hall). by split_and!.
  - pose proof (dial_op_spec op' ctx s Hok Hctx) as Ho. unfold mbind, M_bind.
    destruct (dial_op op' ctx s) as [[ctx'|e|] s']; [|done..]. destruct Ho as (Hok'&Hctx'&_). by apply IH.
Qed.
End registry.

(** ** The proxies behind the entries *)

Section serving.
Context {H W : Type} `{Poller W} `{Adopt H} `{Tcp W} `{ProxyHandler H} (Htyped : tcp_typed W).
(** What a handler that is a proxy serves: the address its clients are to use,
    which its description listener is bound to, and its device. *)
Context (serves : H -> option (SocketAddrV4 * SocketAddrV4)).
Context (Hserves : forall k target iface desc ep rest, serves (adopt_key k (proxy_new target iface desc ep rest)) = Some (tcp_local desc, ep)).
Implicit Types (s : RState H W) (ctx : DialContext) (r : Reactor H).

(** The handler under a key. *)
Definition handler_at r (k : Key) : option H := e ← get (rt_handlers r) k; he_handler e.
Definition serves_at r (k : Key) (listener device : SocketAddrV4) : Prop :=
  exists h, handler_at r k = Some h /\ serves h = Some (listener, device).
(** Every entry whose proxy is registered has a proxy of its device there, on the
    listener it records. *)
Definition serving ctx r : Prop := forall key e, (key, e) ∈ ctx -> is_registered r (de_handler e) = true ->
  serves_at r (de_handler e) (de_desc_addr e) (dk_endpoint key).

Lemma handler_at_slot r r' k : he_handler <$> get (rt_handlers r') k = he_handler <$> get (rt_handlers r) k ->
  handler_at r' k = handler_at r k /\ is_registered r' k = is_registered r k.
Proof.
  unfold handler_at, is_registered, contains. intros E.
  destruct (get (rt_handlers r') k), (get (rt_handlers r) k); cbn in *; try done. by injection E as ->.
Qed.

(** Steps that add no handler under an old key: a registered one was, the same. *)
Definition persists r r' : Prop := forall k, 0 <= index k -> is_registered r' k = true ->
  handler_at r' k = handler_at r k /\ is_registered r k = true.
Lemma persists_trans r1 r2 r3 : persists r1 r2 -> persists r2 r3 -> persists r1 r3.
Proof. intros A B k Hk Hr. destruct (B k Hk Hr) as [E2 R2]. destruct (A k Hk R2) as [E1 R1]. split; [congruence|done]. Qed.
Lemma gone_persists k r r' : others k r r' -> get (rt_handlers r') k = None -> persists r r'.
Proof.
  intros Ho Hn k' Hk' Hr. destruct (decide (k' = k)) as [->|Hne].
  - apply contains_iff in Hr. rewrite Hn in Hr. by destruct Hr.
  - destruct (handler_at_slot r r' k' (ot_slots _ _ _ Ho k' Hk' Hne)) as [-> <-]. done.
Qed.
Lemma serving_persists ctx r r' : dial_ok ctx -> persists r r' -> serving ctx r -> serving ctx r'.
Proof.
  intros (_&_&Hidx) Hp Hs key e Hin Hr. destruct (Hidx (key, e) Hin) as [Hk _]. cbn in Hk. destruct (Hp _ Hk Hr) as [E Hr0].
  unfold serves_at. rewrite E. by apply (Hs key e).
Qed.
Lemma serving_sub ctx ctx' r : (forall p, p ∈ ctx' -> p ∈ ctx) -> serving ctx r -> serving ctx' r.
Proof. intros Hsub Hs key e Hin. by apply Hs, Hsub. Qed.

(** A proxy registered: the others' handlers stand, and its own is there. *)
Lemma register_serving ctx s h fds :
  reactor_ok (rs_reactor s) -> (forall p, p ∈ ctx -> 0 <= index (de_handler p.2) /\ is_registered (rs_reactor s) (de_handler p.2) = true) ->
  serving ctx (rs_reactor s) ->
  match register_with_fds h fds s with
  | (Ok k, s') => serving ctx (rs_reactor s') /\ handler_at (rs_reactor s') k = Some (adopt_key k h)
  | (Err _, s') => serving ctx (rs_reactor s')
  | (Panic, _) => True
  end.
Proof.
  intros Hok Hctx Hs. pose proof (run_register_with_fds h fds s Hok) as Hr.
  assert (Hkeep : forall k r', get (rt_handlers (rs_reactor s)) k = None -> others k (rs_reactor s) r' -> serving ctx r').
  { intros k r' Hn Ho key e Hin _. destruct (Hctx _ Hin) as [Hk Hreg]. cbn in Hk, Hreg.
    assert (de_handler e <> k) as Hne.
    { intros E. apply contains_iff in Hreg. rewrite E, Hn in Hreg. by destruct Hreg. }
    unfold serves_at. rewrite (proj1 (handler_at_slot _ _ _ (ot_slots _ _ _ Ho _ Hk Hne))). by apply (Hs key e). }
  destruct (register_with_fds h fds s) as [[k|e|] s']; [| |done].
  - destruct Hr as (_&Hn&Ho&Hh&_). split; [by eapply Hkeep|]. unfold handler_at.
    destruct (get (rt_handlers (rs_reactor s')) k); [|done]. by injection Hh.
  - destruct Hr as (k&_&Hn&Ho&_). by eapply Hkeep.
Qed.

(** A lookup or a mint keeps it so. *)
Definition serving_post (x : res Infallible (option SocketAddrV4 * DialContext) * RState H W) : Prop :=
  match x with (Ok (_, ctx'), s') => serving ctx' (rs_reactor s') | _ => True end.

Lemma mint_proxy_serving ctx placement key grace s :
  reactor_ok (rs_reactor s) -> dial_ok ctx -> serving ctx (rs_reactor s) -> serving_post (mint_proxy ctx placement key grace s).
Proof.
  intros Hok Hctx Hs. unfold mint_proxy, gets. unfold mbind at 1, M_bind. unfold has_capacity.
  set (ctx1 := lm_retain _ ctx).
  assert (Hin1 : forall p, p ∈ ctx1 -> p ∈ ctx /\ is_registered (rs_reactor s) (de_handler p.2) = true).
  { intros [k v] (v0&Hin&[= Hr <-])%lm_retain_elem. done. }
  assert (Hs1 : serving ctx1 (rs_reactor s)) by (eapply serving_sub; [|exact Hs]; intros p Hp; by apply Hin1).
  assert (Hno : forall x : RState H W, rs_reactor x = rs_reactor s -> serving_post (Ok (None, ctx1), x)) by (intros x E; cbn; by rewrite E).
  destruct (lm_len ctx1 <? _)%nat; cbn [negb]; [|by apply Hno]. unfold names_this_host, listen_or_warn, mbind, M_bind.
  destruct (world_call_reactor host_v4_addrs s) as (addrs&s1&->&R1&_). unfold mret at 1, M_ret.
  match goal with |- context [if ?b then mret _ else _] => destruct b end; [by apply Hno|].
  destruct (world_call_reactor (tcp_listen (pp_source placement)) s1) as (desc&s2&->&R2&_).
  destruct desc as [desc|]; [|apply Hno; congruence].
  destruct (world_call_reactor (tcp_listen (pp_source placement)) s2) as (rest&s3&->&R3&_).
  destruct rest as [rest|]; [|apply Hno; congruence].
  assert (E3 : rs_reactor s3 = rs_reactor s) by congruence. unfold attempt.
  assert (Hpre : forall p, p ∈ ctx1 -> 0 <= index (de_handler p.2) /\ is_registered (rs_reactor s3) (de_handler p.2) = true).
  { intros p Hp. rewrite E3. split; [apply (proj2 (proj2 Hctx)), Hin1, Hp|by apply Hin1]. }
  rewrite <- E3 in Hok, Hs1.
  match goal with |- context [register_with_fds ?h ?fds s3] => pose proof (register_serving ctx1 s3 h fds Hok Hpre Hs1) as Hr;
    destruct (register_with_fds h fds s3) as [[handler|e|] s4] end; [destruct Hr as [Hs4 Hh]| |done].
  - assert (Hnew : serves_at (rs_reactor s4) handler (tcp_local desc) (dk_endpoint key)) by (eexists; split; [exact Hh|apply Hserves]).
    intros key' e Hin Hreg. apply lm_insert_elem in Hin as [Hin|[= -> ->]]; [by apply Hs4|done].
  - exact Hr.
Qed.

Lemma proxy_for_serving ctx placement key grace s :
  reactor_ok (rs_reactor s) -> dial_ok ctx -> serving ctx (rs_reactor s) -> serving_post (proxy_for ctx placement key grace s).
Proof.
  intros Hok Hctx Hs. unfold proxy_for, gets, mbind, M_bind, dial_lookup.
  assert (Hmint : serving_post (mint_proxy (lm_delete ctx key) placement key grace s)).
  { apply mint_proxy_serving; [done|by apply dial_ok_delete|]. eapply serving_sub; [|exact Hs]. intros p. apply lm_delete_elem. }
  destruct (lm_get ctx key) as [e|] eqn:Eg; [|exact Hmint].
  destruct (is_registered (rs_reactor s) (de_handler e)) eqn:Er; [|exact Hmint].
  intros k e' Hin Hreg. apply set_grace_elem in Hin as (e0&Hin&E1&E2). cbn in E1, E2. rewrite E1, E2 in *. by apply (Hs k e0).
Qed.

Lemma rewrite_location_serving ctx now payload placement out s :
  reactor_ok (rs_reactor s) -> dial_ok ctx -> serving ctx (rs_reactor s) ->
  match rewrite_location ctx now payload placement out s with
  | (Ok (_, ctx', _), s') => serving ctx' (rs_reactor s')
  | _ => True
  end.
Proof.
  intros Hok Hctx Hs. unfold rewrite_location. destruct (negb _); [done|]. destruct (parse_dial_location_authority payload) as [loc|]; [|done].
  destruct (is_never_a_peer _); [done|]. set (grace := now + _). set (key := {| dk_source := _; dk_target := _; dk_endpoint := _ |}).
  pose proof (proxy_for_serving ctx placement key grace s Hok Hctx Hs) as Hp. unfold mbind, M_bind.
  destruct (proxy_for ctx placement key grace s) as [[[addr ctx']|e|] s1]; [|done..].
  destruct addr as [addr|]; [|done]. unfold lift. destruct (range _ _ _) as [b|e|]; [|done..].
  destruct (range_from _ _) as [c|e|]; [|done..]. by destruct (write_parts _ _ _ _) as [[fits out']|e|].
Qed.

(** What else the program does to the registry keeps it so. *)
Lemma evict_where_persists evict ctx s :
  reactor_ok (rs_reactor s) -> (forall p, p ∈ ctx -> 0 <= index (de_handler p.2)) ->
  persists (rs_reactor s) (rs_reactor (evict_where evict ctx s).2).
Proof.
  revert s. induction ctx as [|[key p] ctx IH]; intros s Hok Hidx; cbn [evict_where]; [by split|].
  assert (Htl : forall q, q ∈ ctx -> 0 <= index (de_handler q.2)) by (intros q Hq; apply Hidx; by right).
  destruct (evict key p).
  - pose proof (unregister_others (de_handler p) s Hok (Hidx (key, p) ltac:(by left))) as Hu. unfold attempt, mbind, M_bind.
    destruct (unregister (de_handler p) s) as [[b|e|] s1]; destruct Hu as (Hp&Ho&Hn); [..|done];
      (eapply persists_trans; [by eapply gone_persists|]; apply IH; [apply Ho|done]).
  - unfold gets, mbind, M_bind. specialize (IH s Hok Htl). by destruct (evict_where evict ctx s) as [[l|[]|] s'].
Qed.

Lemma evict_where_serving evict ctx s : reactor_ok (rs_reactor s) -> dial_ok ctx -> serving ctx (rs_reactor s) ->
  match evict_where evict ctx s with (Ok ctx', s') => serving ctx' (rs_reactor s') | _ => True end.
Proof.
  intros Hok Hctx Hs. pose proof (fun p Hp => proj1 (proj2 (proj2 Hctx) p Hp)) as Hidx.
  pose proof (evict_where_persists evict ctx s Hok Hidx) as Hp.
  destruct (evict_where_spec evict ctx s Hok Hidx) as (ctx'&s'&E&_&Hsub&_). rewrite E in *. apply (serving_persists ctx _ _ Hctx Hp) in Hs.
  eapply serving_sub; [|exact Hs]. intros p Hin. eapply elem_of_submseteq; [exact Hin|by apply sublist_submseteq].
Qed.

(** C16. Rewriting a DIAL advertisement fails only when the reactor's index space
    is used up. When it rewrites one, the message named a device that can be
    one; the registry holds, between these two interfaces, an entry for that
    device, for two hours at most, whose handler in the reactor is a proxy that
    serves that device; and the message that goes out is the captured one with
    the authority of its [LOCATION], and nothing else, replaced by the listener
    that proxy accepts description clients on. Every other entry still has its
    own device's proxy. *)
Theorem location_rewritten ctx now payload placement out s :
  reactor_ok (rs_reactor s) -> dial_ok ctx -> serving ctx (rs_reactor s) -> sb_wf out -> queue out = [] ->
  match rewrite_location ctx now payload placement out s with
  | (Ok (rewritten, ctx', out'), s') =>
      reactor_ok (rs_reactor s') /\ dial_ok ctx' /\ serving ctx' (rs_reactor s') /\
      (rewritten = true -> exists location e listener,
         is_dial_service_message payload = true /\ parse_dial_location_authority payload = Some location /\
         is_never_a_peer (V4 (sa_ip (endpoint location))) = false /\
         lm_get ctx' {| dk_source := pp_source_capture placement; dk_target := pp_target_capture placement;
                        dk_endpoint := endpoint location |} = Some e /\
         serves_at (rs_reactor s') (de_handler e) listener (endpoint location) /\ de_desc_grace e <= now + MAX_DESC_GRACE /\
         queue out' = take (au_offset location) payload ++ append_authority listener ++
                      drop (au_offset location + au_len location) payload)
  | (Err _, _) => False
  | (Panic, s') => exhausted (rs_reactor s')
  end.
Proof.
  intros Hok Hctx Hs Hout Hq. pose proof (rewrite_location_spec Htyped ctx now payload placement out s Hok Hctx Hout Hq) as Hr.
  pose proof (rewrite_location_serving ctx now payload placement out s Hok Hctx Hs) as Hv.
  destruct (rewrite_location _ _ _ _ _ s) as [[[[b ctx'] out']|e|] s']; [|done..]. destruct Hr as (Hok'&Hctx'&_&Hr).
  split; [done|]. split; [done|]. split; [done|]. intros Hb. destruct (Hr Hb) as (loc&e&Hdial&Hloc&Hpeer&Hget&Hreg&Hgrace&Hout').
  exists loc, e, (de_desc_addr e). split_and!; [done..| |done|done]. exact (Hv _ _ (lm_get_elem _ _ _ Hget) Hreg).
Qed.
End serving.

(** ** Witnesses *)

(** Listeners with fds of their own. *)
Definition counting_tcp : Tcp Z :=
  {| tcp_listen := fun source w =>
       (inr {| tcp_fd := w; tcp_local := {| sa_ip := source; sa_port := 40000 + w mod 1000 |}; tcp_connecting := false |}, w + 1);
     host_v4_addrs := fun w => (inr [Ipv4.new 192 168 0 2], w) |}.
Lemma counting_typed : tcp_typed (H := counting_tcp) Z.
Proof. intros source w sock [= <-]. cbn. pose proof (Z.mod_pos_bound w 1000). lia. Qed.
Definition counting_poller : Poller Z :=
  {| poll_add := fun _ _ w => (inr (), w); poll_remove := fun _ w => (inr (), w);
     poll_set_interest := fun _ _ _ _ w => (inr (), w); poll_wait := fun _ w => (inr [], w) |}.
Definition unit_proxy : ProxyHandler () := fun _ _ _ _ _ => ().

Definition ex_advert : bytes :=
  bs "NOTIFY * HTTP/1.1" ++ [13; 10] ++ bs "NT: urn:dial-multiscreen-org:service:dial:1" ++ [13; 10] ++
  bs "LOCATION: http://10.0.0.5:8008/dd.xml" ++ [13; 10; 13; 10].
Definition ex_placement : ProxyPlacement :=
  {| pp_source_capture := {| ck_index := 0 |}; pp_source := Ipv4.new 192 168 0 2; pp_target_capture := {| ck_index := 1 |};
     pp_target := Ipv4.new 10 0 0 1; pp_target_iface := None |}.
Definition ex_rstate : RState () Z := {| rs_reactor := reactor_new (); rs_world := 5 |}.

(** Handlers that are proxies, of which what they serve is kept. *)
Abbreviation Served := (SocketAddrV4 * SocketAddrV4)%type.
Definition serving_proxy : ProxyHandler Served := fun _ _ desc ep _ => (tcp_local desc, ep).
Definition serving_adopt : Adopt Served := fun _ h => h.
Abbreviation ex_rewrite := (rewrite_location (H:=Served) (H0:=counting_poller) (H1:=serving_adopt) (H2:=counting_tcp) (H3:=serving_proxy)
  dial_new 7 ex_advert ex_placement (with_capacity MAX_FRAME_LEN) {| rs_reactor := reactor_new Served; rs_world := 5 |}).

Lemma location_rewritten_witness :
  match ex_rewrite with
  | (Ok (true, ctx, out), s) => exists location e listener,
      parse_dial_location_authority ex_advert = Some location /\ de_desc_grace e <= 7 + MAX_DESC_GRACE /\
      serves_at (H:=Served) Some (rs_reactor s) (de_handler e) listener (endpoint location) /\
      queue out = take (au_offset location) ex_advert ++ append_authority listener ++
                  drop (au_offset location + au_len location) ex_advert
  | _ => False
  end.
Proof.
  assert (Hnew : dial_ok dial_new) by (split_and!; [constructor|cbn; lia|by intros p ?%not_elem_of_nil]).
  destruct (with_capacity_wf MAX_FRAME_LEN) as [Hwf Hq].
  assert (Hs : serving (H:=Served) Some dial_new (reactor_new Served)) by (intros key e ?%not_elem_of_nil; done).
  pose proof (location_rewritten (H0:=counting_poller) (H1:=serving_adopt) (H2:=counting_tcp) (H3:=serving_proxy) counting_typed
    Some (fun _ _ _ _ _ _ => eq_refl) dial_new 7 ex_advert ex_placement (with_capacity MAX_FRAME_LEN)
    {| rs_reactor := reactor_new Served; rs_world := 5 |} reactor_new_ok Hnew Hs Hwf Hq) as Hr.
  assert (Hb : match ex_rewrite with (Ok (true, _, _), _) => True | _ => False end) by (vm_compute; exact I).
  revert Hr Hb. generalize ex_rewrite. intros [[[[[|] ctx] out]|e|] s] Hr Hb; try destruct Hb.
  destruct Hr as (_&_&_&Hr). destruct (Hr eq_refl) as (location&e&listener&_&Hl&_&_&Hv&Hg&Hout).
  exists location, e, listener. split; [exact Hl|]. split; [exact Hg|]. split; [exact Hv|exact Hout].
Defined.

Lemma dial_registry_bounded_witness :
  exists ctx s, dial_ops (H:=()) (H0:=counting_poller) (H1:=unit_adopt) (H2:=counting_tcp) (H3:=unit_proxy)
    ([RewriteOp 7 ex_advert ex_placement] ++ [SweepOp 8]) dial_new ex_rstate = (Ok ctx, s) /\
    (length ctx <= MAX_DIAL_PROXIES)%nat /\ length ctx = 1%nat.
Proof.
  pose proof (dial_registry_bounded (H0:=counting_poller) (H1:=unit_adopt) (H2:=counting_tcp) (H3:=unit_proxy)
    counting_typed [RewriteOp 7 ex_advert ex_placement] (SweepOp 8) ex_rstate reactor_new_ok) as Hr.
  assert (Hb : match (dial_ops (H:=()) (H0:=counting_poller) (H1:=unit_adopt) (H2:=counting_tcp) (H3:=unit_proxy)
    ([RewriteOp 7 ex_advert ex_placement] ++ [SweepOp 8]) dial_new ex_rstate).1 with Ok x => length x | _ => 0%nat end = 1%nat)
    by (vm_compute; reflexivity).
  destruct (dial_ops _ _ _) as [[ctx|e|] s]; cbn [fst] in Hb; [|discriminate Hb..].
  exists ctx, s. split; [reflexivity|]. split; [apply Hr|exact Hb].
Defined.
