(* ===== verification/DialConnection.v ===== *)
(** One proxied connection between a client and a device: the HTTP splice of
    [src/reflector/dial/connection.rs], driven on the edges of its two sockets. *)

From S2P Require Import Prelude Effect Text Addr Names Interface Kernel StreamBuffer Http Framing.
From S2P Require Import Arena Reactor Tcp.

Local Open Scope Z_scope.

Definition MAX_RECV : nat := Z.to_nat 4096.
Definition MAX_SEND : nat := Z.to_nat 8192.
Definition CONNECT_TIMEOUT : Z := 10 * 10 ^ 9.
Definition IDLE_TIMEOUT : Z := 30 * 10 ^ 9.

Inductive FlowState : Type := Open | SourceClosed | Done.
Global Instance FlowState_eq_dec : EqDecision FlowState.
Proof. solve_decision. Defined.

(** One direction of the splice. *)
Record Flow : Type := { fl_framer : HttpFraming; fl_recv : StreamBuffer; fl_send : StreamBuffer; fl_state : FlowState }.
Definition flow_new (kind : Kind) (rewrite : RewritePolicy) : Flow :=
  {| fl_framer := framing_new kind rewrite; fl_recv := with_capacity MAX_RECV; fl_send := with_capacity MAX_SEND;
     fl_state := Open |}.

Inductive Direction : Type := ClientToDevice | DeviceToClient.
Inductive Outcome : Type := Keep | Close.
Inductive Forwarded : Type := StillOpen | SourceEof | Failed.

(** A flow's fields, changed one at a time. *)
Definition with_framer (x : HttpFraming) (f : Flow) : Flow :=
  {| fl_framer := x; fl_recv := fl_recv f; fl_send := fl_send f; fl_state := fl_state f |}.
Definition with_recv (x : StreamBuffer) (f : Flow) : Flow :=
  {| fl_framer := fl_framer f; fl_recv := x; fl_send := fl_send f; fl_state := fl_state f |}.
Definition with_send (x : StreamBuffer) (f : Flow) : Flow :=
  {| fl_framer := fl_framer f; fl_recv := fl_recv f; fl_send := x; fl_state := fl_state f |}.
Definition with_state (x : FlowState) (f : Flow) : Flow :=
  {| fl_framer := fl_framer f; fl_recv := fl_recv f; fl_send := fl_send f; fl_state := x |}.

(** [DirectionContext]: what a direction reads, and the parts of the connection
    it writes. *)
Record DirectionContext : Type := {
  dc_from : TcpSocket;
  dc_from_reg : option Key;
  dc_to : TcpSocket;
  dc_to_reg : option Key;
  dc_flow : Flow;
  dc_learned_rest : option SocketAddrV4;
  dc_deadline : Z;
}.
Definition set_flow (f : Flow) (c : DirectionContext) : DirectionContext :=
  {| dc_from := dc_from c; dc_from_reg := dc_from_reg c; dc_to := dc_to c; dc_to_reg := dc_to_reg c; dc_flow := f;
     dc_learned_rest := dc_learned_rest c; dc_deadline := dc_deadline c |}.
Definition set_learned_rest (ep : option SocketAddrV4) (c : DirectionContext) : DirectionContext :=
  {| dc_from := dc_from c; dc_from_reg := dc_from_reg c; dc_to := dc_to c; dc_to_reg := dc_to_reg c; dc_flow := dc_flow c;
     dc_learned_rest := ep; dc_deadline := dc_deadline c |}.
Definition set_deadline (d : Z) (c : DirectionContext) : DirectionContext :=
  {| dc_from := dc_from c; dc_from_reg := dc_from_reg c; dc_to := dc_to c; dc_to_reg := dc_to_reg c; dc_flow := dc_flow c;
     dc_learned_rest := dc_learned_rest c; dc_deadline := d |}.

(** [buffer_tail] *)
Definition buffer_tail (to_send : StreamBuffer) (header body : bytes) : res Infallible (Outcome * StreamBuffer) :=
  match append to_send header with
  | Ok to_send => match append to_send body with
                  | Ok to_send => Ok (Keep, to_send)
                  | Err overflow => Ok (Close, to_send)
                  | Panic => Panic
                  end
  | Err overflow => Ok (Close, to_send)
  | Panic => Panic
  end.

(** [split_remainder] *)
Definition split_remainder (header body : bytes) (sent : nat) : res Infallible (bytes * bytes) :=
  if (length header <=? sent)%nat
  then body ← range_from body (sent - length header); Ok ([], body)
  else header ← range_from header sent; Ok (header, body).

Section connection.
Context {H W : Type} `{Kernel W} `{Poller W} `{Sockets W}.

(** A call of the environment, its error a value; and the clock. *)
Definition ask {A} (m : Sys W A) : M (RState H W) Infallible (io A) := fun s =>
  let '(r, w) := m (rs_world s) in (Ok r, {| rs_reactor := rs_reactor s; rs_world := w |}).
Definition now : M (RState H W) Infallible Z := fun s =>
  let '(t, w) := clock (rs_world s) in (Ok t, {| rs_reactor := rs_reactor s; rs_world := w |}).
Definition tell (f : W -> W) : M (RState H W) Infallible () :=
  modify (fun s => {| rs_reactor := rs_reactor s; rs_world := f (rs_world s) |}).

(** [send_framed] *)
Definition send_framed (to : TcpSocket) (to_send : StreamBuffer) (header body : bytes) (deadline : Z)
    : M (RState H W) Infallible (Outcome * StreamBuffer * Z) :=
  if negb (sb_is_empty to_send) || tcp_connecting to
  then '(outcome, to_send) ← lift (buffer_tail to_send header body); mret (outcome, to_send, deadline)
  else
    r ← ask (tcp_send_vectored to [header; body]);
    match r with
    | inl _ => mret (Close, to_send, deadline)
    | inr r =>
        let sent := match r with Ready n => n | WouldBlock => 0%nat end in
        deadline ← (if (0 <? sent)%nat then t ← now; mret (t + IDLE_TIMEOUT) else mret deadline);
        if (sent =? length header + length body)%nat then mret (Keep, to_send, deadline)
        else
          '(header_tail, body_tail) ← lift (split_remainder header body sent);
          '(outcome, to_send) ← lift (buffer_tail to_send header_tail body_tail);
          mret (outcome, to_send, deadline)
    end.

(** ** A direction *)

(** The loop of [DirectionContext::forward]. *)
Fixpoint forward_loop (fuel : nat) (c : DirectionContext) : M (RState H W) Infallible (Forwarded * DirectionContext) :=
  match fuel with
  | O => lift Panic
  | S fuel =>
      input ← lift (pending (fl_recv (dc_flow c)));
      match feed (fl_framer (dc_flow c)) input with
      | Panic => lift Panic
      | Err _ => mret (Failed, c)
      | Ok (framed, framer) =>
          let c := set_flow (with_framer framer (dc_flow c)) c in
          let c := match fd_application_url framed with
                   | Some ep => set_learned_rest (Some ep) c
                   | None => c
                   end in
          if (fd_consumed framed =? 0)%nat then mret (StillOpen, c)
          else
            '(outcome, to_send, deadline) ←
              send_framed (dc_to c) (fl_send (dc_flow c)) (fd_header framed) (fd_body framed) (dc_deadline c);
            let c := set_deadline deadline (set_flow (with_send to_send (dc_flow c)) c) in
            match outcome with
            | Close => mret (Failed, c)
            | Keep => forward_loop fuel (set_flow (with_recv (consume (fl_recv (dc_flow c)) (fd_consumed framed)) (dc_flow c)) c)
            end
      end
  end.

(** [DirectionContext::forward]; what [recv] wrote is the front of the tail. *)
Definition ctx_forward (c : DirectionContext) : M (RState H W) Infallible (Forwarded * DirectionContext) :=
  '(buffer, tail) ← lift (free_tail_mut (fl_recv (dc_flow c)));
  let c := set_flow (with_recv buffer (dc_flow c)) c in
  if bool_decide (tail = []) then mret (Failed, c)
  else
    r ← ask (tcp_recv (dc_from c) (length tail));
    match r with
    | inl _ => mret (Failed, c)
    | inr WouldBlock => mret (StillOpen, c)
    | inr (Ready []) => mret (SourceEof, c)
    | inr (Ready data) =>
        let buffer := commit (write_tail buffer (data ++ drop (length data) tail)) (length data) in
        forward_loop (S (sb_len buffer)) (set_flow (with_recv buffer (dc_flow c)) c)
    end.

(** [sync_write_interest] *)
Definition sync_write_interest (c : DirectionContext) : M (RState H W) Infallible Outcome :=
  let armed := negb (sb_is_empty (fl_send (dc_flow c))) || tcp_connecting (dc_to c) in
  reg ← lift (expect (dc_to_reg c));
  r ← attempt (set_write_interest reg armed);
  mret (match r with inl _ => Close | inr _ => Keep end).

(** [settle] *)
Definition settle (c : DirectionContext) : M (RState H W) Infallible (Outcome * DirectionContext) :=
  c ← (if bool_decide (fl_state (dc_flow c) = SourceClosed) && sb_is_empty (fl_send (dc_flow c))
          && negb (tcp_connecting (dc_to c))
       then
         _ ← tell (tcp_shutdown_write (dc_to c));
         mret (set_flow (with_state Done (dc_flow c)) c)
       else mret c);
  outcome ← sync_write_interest c;
  mret (outcome, c).

(** [half_close] *)
Definition half_close (c : DirectionContext) : M (RState H W) Infallible (Outcome * DirectionContext) :=
  reg ← lift (expect (dc_from_reg c));
  r ← attempt (set_read_interest reg false);
  match r with
  | inl _ => mret (Close, c)
  | inr _ => settle (set_flow (with_state SourceClosed (dc_flow c)) c)
  end.

(** [drain] *)
Definition drain (c : DirectionContext) : M (RState H W) Infallible (Outcome * DirectionContext) :=
  if sb_is_empty (fl_send (dc_flow c)) then mret (Keep, c)
  else
    data ← lift (pending (fl_send (dc_flow c)));
    r ← ask (tcp_send (dc_to c) data);
    match r with
    | inl _ => mret (Close, c)
    | inr WouldBlock => mret (Keep, c)
    | inr (Ready n) =>
        let c := set_flow (with_send (consume (fl_send (dc_flow c)) n) (dc_flow c)) c in
        c ← (if (0 <? n)%nat then t ← now; mret (set_deadline (t + IDLE_TIMEOUT) c) else mret c);
        mret (Keep, c)
    end.

(** ** The connection *)

Record Connection : Type := {
  cn_client : TcpSocket;
  cn_client_reg : option Key;
  cn_device : TcpSocket;
  cn_device_reg : option Key;
  cn_device_endpoint : SocketAddrV4;
  cn_c2u : Flow;
  cn_u2c : Flow;
  cn_learned_rest : option SocketAddrV4;
  cn_deadline : Z;
}.

(** [Connection::new] *)
Definition connection_new (client device : TcpSocket) (device_endpoint rest_listener own_listener : SocketAddrV4)
    : M (RState H W) Infallible Connection :=
  t ← now;
  mret {| cn_client := client; cn_client_reg := None; cn_device := device; cn_device_reg := None;
          cn_device_endpoint := device_endpoint;
          cn_c2u := flow_new Request {| rp_host := Some device_endpoint; rp_application_url := None; rp_location := None |};
          cn_u2c := flow_new Response {| rp_host := None; rp_application_url := Some rest_listener; rp_location := Some own_listener |};
          cn_learned_rest := None; cn_deadline := t + CONNECT_TIMEOUT |}.

(** [attach_registrations] *)
Definition attach_registrations (client_reg device_reg : Key) (c : Connection) : Connection :=
  {| cn_client := cn_client c; cn_client_reg := Some client_reg; cn_device := cn_device c; cn_device_reg := Some device_reg;
     cn_device_endpoint := cn_device_endpoint c; cn_c2u := cn_c2u c; cn_u2c := cn_u2c c;
     cn_learned_rest := cn_learned_rest c; cn_deadline := cn_deadline c |}.

(** [take_learned_rest] *)
Definition take_learned_rest (c : Connection) : option SocketAddrV4 * Connection :=
  (cn_learned_rest c,
   {| cn_client := cn_client c; cn_client_reg := cn_client_reg c; cn_device := cn_device c; cn_device_reg := cn_device_reg c;
      cn_device_endpoint := cn_device_endpoint c; cn_c2u := cn_c2u c; cn_u2c := cn_u2c c;
      cn_learned_rest := None; cn_deadline := cn_deadline c |}).

(** [Connection::context], and the connection with what a direction wrote. *)
Definition flow_of (d : Direction) (c : Connection) : Flow :=
  match d with ClientToDevice => cn_c2u c | DeviceToClient => cn_u2c c end.
Definition context (d : Direction) (c : Connection) : DirectionContext :=
  match d with
  | ClientToDevice =>
      {| dc_from := cn_client c; dc_from_reg := cn_client_reg c; dc_to := cn_device c; dc_to_reg := cn_device_reg c;
         dc_flow := cn_c2u c; dc_learned_rest := cn_learned_rest c; dc_deadline := cn_deadline c |}
  | DeviceToClient =>
      {| dc_from := cn_device c; dc_from_reg := cn_device_reg c; dc_to := cn_client c; dc_to_reg := cn_client_reg c;
         dc_flow := cn_u2c c; dc_learned_rest := cn_learned_rest c; dc_deadline := cn_deadline c |}
  end.
Definition put_context (d : Direction) (x : DirectionContext) (c : Connection) : Connection :=
  {| cn_client := cn_client c; cn_client_reg := cn_client_reg c; cn_device := cn_device c; cn_device_reg := cn_device_reg c;
     cn_device_endpoint := cn_device_endpoint c;
     cn_c2u := match d with ClientToDevice => dc_flow x | DeviceToClient => cn_c2u c end;
     cn_u2c := match d with ClientToDevice => cn_u2c c | DeviceToClient => dc_flow x end;
     cn_learned_rest := dc_learned_rest x; cn_deadline := dc_deadline x |}.
(** A call on a direction's context. *)
Definition on_direction {A} (d : Direction) (f : DirectionContext -> M (RState H W) Infallible (A * DirectionContext)) (c : Connection)
    : M (RState H W) Infallible (A * Connection) :=
  '(a, x) ← f (context d c);
  mret (a, put_context d x c).

(** [teardown]: the descriptors close with the sockets. *)
Definition unwatch_reg (reg : option Key) : M (RState H W) Infallible () :=
  match reg with
  | Some reg => _ ← attempt (unwatch reg); mret ()
  | None => mret ()
  end.
Definition teardown (c : Connection) : M (RState H W) Infallible () :=
  _ ← unwatch_reg (cn_client_reg c);
  _ ← unwatch_reg (cn_device_reg c);
  _ ← tell (tcp_shutdown (cn_client c));
  tell (tcp_shutdown (cn_device c)).

(** [finish_device_connect] *)
Definition finish_device_connect (c : Connection) : M (RState H W) Infallible (Outcome * Connection) :=
  r ← ask (finish_connect (cn_device c));
  match r with
  | inl _ => mret (Close, c)
  | inr device =>
      t ← now;
      mret (Keep, {| cn_client := cn_client c; cn_client_reg := cn_client_reg c; cn_device := device;
                     cn_device_reg := cn_device_reg c; cn_device_endpoint := cn_device_endpoint c; cn_c2u := cn_c2u c;
                     cn_u2c := cn_u2c c; cn_learned_rest := cn_learned_rest c; cn_deadline := t + IDLE_TIMEOUT |})
  end.

(** [close_if_complete] *)
Definition close_if_complete (c : Connection) (outcome : Outcome) : Outcome :=
  match outcome with
  | Close => Close
  | Keep => if bool_decide (fl_state (cn_c2u c) = Done /\ fl_state (cn_u2c c) = Done) then Close else Keep
  end.

(** The reverse flow abandoned, and the hung-up side's registration taken. *)
Definition abandon (d : Direction) (c : Connection) : Connection :=
  match d with
  | ClientToDevice =>
      {| cn_client := cn_client c; cn_client_reg := None; cn_device := cn_device c; cn_device_reg := cn_device_reg c;
         cn_device_endpoint := cn_device_endpoint c; cn_c2u := cn_c2u c; cn_u2c := with_state Done (cn_u2c c);
         cn_learned_rest := cn_learned_rest c; cn_deadline := cn_deadline c |}
  | DeviceToClient =>
      {| cn_client := cn_client c; cn_client_reg := cn_client_reg c; cn_device := cn_device c; cn_device_reg := None;
         cn_device_endpoint := cn_device_endpoint c; cn_c2u := with_state Done (cn_c2u c); cn_u2c := cn_u2c c;
         cn_learned_rest := cn_learned_rest c; cn_deadline := cn_deadline c |}
  end.

(** [peer_gone] *)
Definition peer_gone (d : Direction) (c : Connection) : M (RState H W) Infallible (Outcome * Connection) :=
  disarm_reg ← lift (expect (dc_to_reg (context d c)));
  unwatch_reg ← lift (expect (dc_from_reg (context d c)));
  let c := abandon d c in
  disarmed ← attempt (set_read_interest disarm_reg false);
  match disarmed with
  | inl _ => mret (Close, c)
  | inr _ =>
      unwatched ← attempt (unwatch unwatch_reg);
      match unwatched with
      | inl _ => mret (Close, c)
      | inr _ =>
          '(outcome, c) ← on_direction d settle c;
          mret (match outcome with Close => Close | Keep => close_if_complete c Keep end, c)
      end
  end.

(** The first edge of the device's socket, in this direction. *)
Definition connect_first (connecting_edge : bool) (c : Connection) (k : Connection -> M (RState H W) Infallible (Outcome * Connection))
    : M (RState H W) Infallible (Outcome * Connection) :=
  if connecting_edge && tcp_connecting (cn_device c)
  then
    '(outcome, c) ← finish_device_connect c;
    match outcome with Close => mret (Close, c) | Keep => k c end
  else k c.

(** [Connection::forward] *)
Definition forward (d : Direction) (c : Connection) : M (RState H W) Infallible (Outcome * Connection) :=
  connect_first (match d with DeviceToClient => true | ClientToDevice => false end) c (fun c =>
    if negb (bool_decide (fl_state (flow_of d c) = Open))
    then match dc_to_reg (context d c) with
         | None => mret (Close, c)
         | Some _ => peer_gone d c
         end
    else
      '(forwarded, c) ← on_direction d ctx_forward c;
      '(outcome, c) ← match forwarded with
                      | Failed => mret (Close, c)
                      | SourceEof => on_direction d half_close c
                      | StillOpen => outcome ← sync_write_interest (context d c); mret (outcome, c)
                      end;
      mret (close_if_complete c outcome, c)).

(** [Connection::on_writable] *)
Definition connection_on_writable (d : Direction) (c : Connection) : M (RState H W) Infallible (Outcome * Connection) :=
  connect_first (match d with ClientToDevice => true | DeviceToClient => false end) c (fun c =>
    '(outcome, c) ← on_direction d drain c;
    match outcome with
    | Close => mret (Close, c)
    | Keep => '(outcome, c) ← on_direction d settle c; mret (close_if_complete c outcome, c)
    end).

(** [readable] and [writable] *)
Definition connection_readable (fd : Z) (c : Connection) : M (RState H W) Infallible (Outcome * Connection) :=
  forward (if tcp_fd (cn_client c) =? fd then ClientToDevice else DeviceToClient) c.
Definition connection_writable (fd : Z) (c : Connection) : M (RState H W) Infallible (Outcome * Connection) :=
  connection_on_writable (if tcp_fd (cn_device c) =? fd then ClientToDevice else DeviceToClient) c.
End connection.
