(* ===== verification/DialConnectionSpec.v ===== *)
(** What a proxied connection guarantees: no edge panics, each direction hands
    on exactly what its framer makes of what it read, in order, its FIN follows
    the last byte, and only its own registrations are touched. *)

From S2P Require Import Prelude Effect Text Addr Names Interface Kernel StreamBuffer Http Framing FramingSpec.
From S2P Require Import Arena Reactor ReactorSpec Tcp DialConnection.

Local Open Scope Z_scope.

(** ** What goes over the sockets *)

Inductive Event : Type :=
  | Received (fd : Z) (data : bytes)
  | Sent (fd : Z) (data : bytes)
  | Fin (fd : Z)
  | Shut (fd : Z).

Definition sent_on (fd : Z) (es : list Event) : bytes :=
  concat (omap (fun e => match e with Sent fd' data => if fd' =? fd then Some data else None | _ => None end) es).
Definition received_on (fd : Z) (es : list Event) : bytes :=
  concat (omap (fun e => match e with Received fd' data => if fd' =? fd then Some data else None | _ => None end) es).
Definition fins_on (fd : Z) (es : list Event) : nat :=
  length (omap (fun e => match e with Fin fd' => if fd' =? fd then Some () else None | _ => None end) es).

Lemma sent_on_app fd a b : sent_on fd (a ++ b) = sent_on fd a ++ sent_on fd b.
Proof. unfold sent_on. by rewrite omap_app, concat_app. Qed.
Lemma received_on_app fd a b : received_on fd (a ++ b) = received_on fd a ++ received_on fd b.
Proof. unfold received_on. by rewrite omap_app, concat_app. Qed.
Lemma fins_on_app fd a b : fins_on fd (a ++ b) = (fins_on fd a + fins_on fd b)%nat.
Proof. unfold fins_on. by rewrite omap_app, length_app. Qed.

(** An observer of the socket calls: [emits w es w'] when they made [es] of [w] on
    the way to [w'].  An observer that sees nothing is one. *)
Record observer {W} `{Kernel W} `{Poller W} `{Sockets W} (emits : W -> list Event -> W -> Prop) : Prop := {
  ob_refl : forall w, emits w [] w;
  ob_trans : forall w1 es w2 es' w3, emits w1 es w2 -> emits w2 es' w3 -> emits w1 (es ++ es') w3;
  ob_clock : forall w, emits w [] (clock w).2;
  ob_remove : forall fd w, emits w [] (poll_remove fd w).2;
  ob_interest : forall fd k r w w0, emits w0 [] (poll_set_interest fd k r w w0).2;
  ob_error : forall fd w, emits w [] (so_error fd w).2;
  ob_recv : forall fd n w,
    emits w (match (sock_recv fd n w).1 with inr data => [Received fd data] | inl _ => [] end) (sock_recv fd n w).2;
  ob_send : forall fd data w,
    emits w (match (sock_send fd data w).1 with inr n => [Sent fd (take n data)] | inl _ => [] end) (sock_send fd data w).2;
  ob_writev : forall fd bufs w,
    emits w (match (sock_writev fd bufs w).1 with inr n => [Sent fd (take n (concat bufs))] | inl _ => [] end)
      (sock_writev fd bufs w).2;
  ob_fin : forall fd w, emits w [Fin fd] (sock_shutdown_write fd w);
  ob_shut : forall fd w, emits w [Shut fd] (sock_shutdown fd w);
}.

Lemma blind_observer {W} `{Kernel W} `{Poller W} `{Sockets W} : observer (fun _ _ _ => True).
Proof. done. Qed.

(** ** The framer's output over a stretch of input *)

Inductive spliced (f : HttpFraming) : bytes -> bytes -> HttpFraming -> Prop :=
  | spliced_nil : spliced f [] [] f
  | spliced_feed input out f1 ahead framed f2 :
      spliced f input out f1 -> feed f1 ahead = Ok (framed, f2) ->
      spliced f (input ++ take (fd_consumed framed) ahead) (out ++ fd_header framed ++ fd_body framed) f2.

Record flow_wf (f : Flow) : Prop := {
  fo_framer : framing_wf (fl_framer f);
  fo_recv : sb_wf (fl_recv f) /\ capacity (fl_recv f) = MAX_RECV;
  fo_send : sb_wf (fl_send f) /\ capacity (fl_send f) = MAX_SEND;
}.
Lemma flow_new_wf kind rewrite : flow_wf (flow_new kind rewrite).
Proof. split; [apply framing_new_wf|split; [exact (proj1 (with_capacity_wf _))|done]..]. Qed.

(** ** The pure parts *)

Lemma buffer_tail_spec b header body : sb_wf b ->
  exists o b', buffer_tail b header body = Ok (o, b') /\ sb_wf b' /\ capacity b' = capacity b /\
    match o with Keep => queue b' = queue b ++ header ++ body | Close => (capacity b < length (queue b) + length (header ++ body))%nat end.
Proof.
  intros Hb. unfold buffer_tail. pose proof (append_spec b header Hb) as H1.
  destruct (append b header) as [b1|[]|]; [|exists Close, b; split_and!; [done..|len]|done].
  destruct H1 as (Hb1&Hq1&Hc1&_). pose proof (append_spec b1 body Hb1) as H2.
  destruct (append b1 body) as [b2|[]|]; [| |done].
  - destruct H2 as (Hb2&Hq2&Hc2&_). exists Keep, b2. rewrite Hq2, Hq1, Hc2, Hc1. by rewrite <- app_assoc.
  - exists Close, b1. rewrite Hq1, Hc1 in H2. split_and!; [done..|]. len.
Qed.

Lemma split_remainder_spec header body sent : (sent <= length header + length body)%nat ->
  exists h b, split_remainder header body sent = Ok (h, b) /\ h ++ b = drop sent (header ++ body).
Proof.
  intros Hs. unfold split_remainder, range_from, get_from. destruct (Nat.leb_spec (length header) sent).
  - rewrite decide_True by lia. cbn. do 2 eexists. split; [done|]. cbn. by rewrite drop_app_ge by lia.
  - rewrite decide_True by lia. cbn. do 2 eexists. split; [done|]. by rewrite drop_app_le by lia.
Qed.

(** ** What a stretch of events does to a direction *)

(** From [from] to [to]: the flow read what was received, and what its framer
    made of it was sent or waits. *)
Record advanced (from to : Z) (f f' : Flow) (es : list Event) : Prop := {
  av_wf : flow_wf f';
  av_spliced : exists input out, spliced (fl_framer f) input out (fl_framer f') /\
    queue (fl_recv f) ++ received_on from es = input ++ queue (fl_recv f') /\
    queue (fl_send f) ++ out = sent_on to es ++ queue (fl_send f');
}.
(** What a stretch that ends the connection sent is the start of that. *)
Definition cut_short (from to : Z) (f : Flow) (es : list Event) : Prop :=
  exists input out f', spliced (fl_framer f) input out f' /\
    input `prefix_of` queue (fl_recv f) ++ received_on from es /\ sent_on to es `prefix_of` queue (fl_send f) ++ out.

Lemma spliced_trans f i o f1 i' o' f2 : spliced f i o f1 -> spliced f1 i' o' f2 -> spliced f (i ++ i') (o ++ o') f2.
Proof.
  intros H1. induction 1 as [|input out f3 ahead framed f4 _ IH Hf]; [by rewrite !app_nil_r|].
  rewrite !app_assoc, <- (app_assoc (o ++ out)). by eapply spliced_feed.
Qed.

Lemma advanced_refl from to f : flow_wf f -> advanced from to f f [].
Proof. intros Hf. split; [done|]. exists [], []. cbn. rewrite !app_nil_r. split_and!; [constructor|done..]. Qed.
(** A stretch in which this direction read and sent nothing. *)
Lemma advanced_idle from to f f' es :
  flow_wf f -> received_on from es = [] -> sent_on to es = [] -> f' = with_state (fl_state f') f -> advanced from to f f' es.
Proof.
  intros [H1 H2 H3] Hr Hs ->. split; [by split|]. exists [], []. rewrite Hr, Hs, !app_nil_r. split_and!; [constructor|done..].
Qed.
Lemma advanced_trans from to f f1 f2 es es' :
  advanced from to f f1 es -> advanced from to f1 f2 es' -> advanced from to f f2 (es ++ es').
Proof.
  intros [_ (i&o&S1&R1&T1)] [Hwf (i'&o'&S2&R2&T2)]. split; [done|]. exists (i ++ i'), (o ++ o').
  rewrite received_on_app, sent_on_app. split_and!; [by eapply spliced_trans|by rewrite !app_assoc, R1, <- !app_assoc, R2|].
  by rewrite !app_assoc, T1, <- !app_assoc, T2.
Qed.
Lemma advanced_cut from to f f1 es es' : advanced from to f f1 es -> cut_short from to f1 es' -> cut_short from to f (es ++ es').
Proof.
  intros [_ (i&o&S1&R1&T1)] (i'&o'&f2&S2&[ri Ri]&[ro Ro]). exists (i ++ i'), (o ++ o'), f2.
  rewrite received_on_app, sent_on_app. split_and!; [by eapply spliced_trans| |].
  - exists ri. by rewrite !app_assoc, R1, <- !app_assoc, <- Ri.
  - exists ro. by rewrite !app_assoc, T1, <- !app_assoc, <- Ro.
Qed.
Lemma cut_nil from to f : cut_short from to f [].
Proof. exists [], [], (fl_framer f). split_and!; [constructor|apply prefix_nil..]. Qed.
Lemma advanced_is_cut from to f f' es : advanced from to f f' es -> cut_short from to f es.
Proof. intros Ha. rewrite <- (app_nil_r es). eapply advanced_cut; [exact Ha|apply cut_nil]. Qed.

(** Only bytes for [to]. *)
Definition only_sent (to : Z) (es : list Event) : Prop := Forall (fun e => exists data, e = Sent to data) es.
Lemma only_sent_quiet to es : only_sent to es ->
  (forall fd, received_on fd es = []) /\ (forall fd, fins_on fd es = 0%nat) /\ (forall fd, fd <> to -> sent_on fd es = []).
Proof.
  induction 1 as [|e es [data ->] _ (IH1&IH2&IH3)]; [done|]. split_and!; [exact IH1|exact IH2|].
  intros fd Hfd. change (Sent to data :: es) with ([Sent to data] ++ es). rewrite sent_on_app, (IH3 _ Hfd).
  unfold sent_on. cbn. by rewrite (proj2 (Z.eqb_neq _ _)) by congruence.
Qed.
Lemma sent_on_one fd data : sent_on fd [Sent fd data] = data.
Proof. unfold sent_on. cbn. rewrite Z.eqb_refl. cbn. by rewrite app_nil_r. Qed.
Lemma received_on_one fd data : received_on fd [Received fd data] = data.
Proof. unfold received_on. cbn. rewrite Z.eqb_refl. cbn. by rewrite app_nil_r. Qed.
Lemma received_on_other fd fd' data : fd <> fd' -> received_on fd [Received fd' data] = [].
Proof. intros Hne. unfold received_on. cbn. by rewrite (proj2 (Z.eqb_neq _ _)) by congruence. Qed.

Section direction.
Context {H W : Type} `{Kernel W} `{Poller W} `{Sockets W} (Htyped : sockets_typed W).
Context (emits : W -> list Event -> W -> Prop) (Hob : observer emits).
Implicit Types s : RState H W.

(** A run that can neither fail nor panic. *)
Abbreviation ends := (runs (fun _ => True) (fun _ => False)).

(** A run that left the reactor alone and made these events. *)
Definition did (es : list Event) s s' : Prop := rs_reactor s' = rs_reactor s /\ emits (rs_world s) es (rs_world s').
Lemma did_nil s : did [] s s.
Proof. split; [done|apply (ob_refl _ Hob)]. Qed.
Lemma did_trans s1 es s2 es' s3 : did es s1 s2 -> did es' s2 s3 -> did (es ++ es') s1 s3.
Proof. intros [R1 E1] [R2 E2]. split; [congruence|by eapply (ob_trans _ Hob)]. Qed.

Lemma run_lift_bind {A B} (r : res Infallible A) (f : A -> M (RState H W) Infallible B) s a Q :
  r = Ok a -> ends (f a) s Q -> ends (lift r ≫= f) s Q.
Proof. by intros ->. Qed.
Lemma run_ask {A} (m : Sys W A) s (Q : io A -> RState H W -> Prop) :
  (forall w, snd (m (rs_world s)) = w -> Q (fst (m (rs_world s))) {| rs_reactor := rs_reactor s; rs_world := w |}) -> ends (ask m) s Q.
Proof. unfold ask, runs. destruct (m (rs_world s)) as [r w]. cbn. auto. Qed.
Lemma run_now s : ends now s (fun _ s' => did [] s s').
Proof.
  unfold now, runs. pose proof (ob_clock _ Hob (rs_world s)) as Hc. destruct (clock _) as [t w]. done.
Qed.
Lemma run_tell (f : W -> W) es s : emits (rs_world s) es (f (rs_world s)) -> ends (tell f) s (fun _ s' => did es s s').
Proof. done. Qed.

(** The calls on a socket. *)
Lemma run_recv x n s :
  ends (ask (tcp_recv x n)) s (fun r s' =>
    match r with
    | inr (Ready data) => (length data <= n)%nat /\ did [Received (tcp_fd x) data] s s'
    | _ => did [] s s'
    end).
Proof.
  apply run_ask. intros w <-. unfold tcp_recv, status. pose proof (ob_recv _ Hob (tcp_fd x) n (rs_world s)) as Ho.
  pose proof (sk_recv _ Htyped (tcp_fd x) n (rs_world s)) as Ht.
  destruct (sock_recv _ _ _) as [[e|data] w']; cbn [fst snd from_syscall] in *; [by destruct (would_block e)|].
  split; [by apply Ht|done].
Qed.
Lemma run_status_sent x data m s :
  (forall w n, (m w).1 = inr n -> (n <= length data)%nat) ->
  emits (rs_world s) (match (m (rs_world s)).1 with inr n => [Sent (tcp_fd x) (take n data)] | inl _ => [] end) (m (rs_world s)).2 ->
  ends (ask (status m)) s (fun r s' =>
    match r with
    | inr (Ready n) => (n <= length data)%nat /\ did [Sent (tcp_fd x) (take n data)] s s'
    | _ => did [] s s'
    end).
Proof.
  intros Ht Ho. apply run_ask. intros w <-. unfold status. specialize (Ht (rs_world s)).
  destruct (m (rs_world s)) as [[e|n] w']; cbn [fst snd from_syscall] in *; [by destruct (would_block e)|].
  split; [by apply Ht|done].
Qed.
Lemma run_send x data s :
  ends (ask (tcp_send x data)) s (fun r s' =>
    match r with
    | inr (Ready n) => (n <= length data)%nat /\ did [Sent (tcp_fd x) (take n data)] s s'
    | _ => did [] s s'
    end).
Proof. apply run_status_sent; [apply (sk_send _ Htyped)|apply (ob_send _ Hob)]. Qed.
Lemma run_send_vectored x bufs s :
  ends (ask (tcp_send_vectored x bufs)) s (fun r s' =>
    match r with
    | inr (Ready n) => (n <= length (concat bufs))%nat /\ did [Sent (tcp_fd x) (take n (concat bufs))] s s'
    | _ => did [] s s'
    end).
Proof. apply run_status_sent; [apply (sk_writev _ Htyped)|apply (ob_writev _ Hob)]. Qed.

(** [send_framed]: all of the message is sent or waits behind the backlog; the
    deadline moves only when bytes went out. *)
Lemma run_send_framed to b header body deadline s :
  sb_wf b ->
  ends (send_framed to b header body deadline) s (fun x s' =>
    let '(outcome, b', deadline') := x in
    exists es, did es s s' /\ only_sent (tcp_fd to) es /\ sb_wf b' /\ capacity b' = capacity b /\
      (sent_on (tcp_fd to) es = [] -> deadline' = deadline) /\
      match outcome with
      | Keep => sent_on (tcp_fd to) es ++ queue b' = queue b ++ header ++ body
      | Close => sent_on (tcp_fd to) es `prefix_of` queue b ++ header ++ body
      end).
Proof.
  intros Hb. unfold send_framed. destruct (negb (sb_is_empty b) || tcp_connecting to) eqn:Ec.
  - destruct (buffer_tail_spec b header body Hb) as (o&b'&E&Hb'&Hc&Ho).
    eapply run_lift_bind; [exact E|]. cbv beta iota zeta. apply runs_ret; [done|]. exists [].
    split_and!; [apply did_nil|constructor|done..|]. destruct o; [done|apply prefix_nil].
  - apply orb_false_iff in Ec as [Hempty _]. apply negb_false_iff in Hempty.
    assert (Hq : queue b = []).
    { apply nil_length_inv. rewrite (length_queue b Hb). apply Nat.eqb_eq in Hempty. unfold sb_len. lia. }
    rewrite Hq. cbn [app]. eapply runs_bind; [apply run_send_vectored|]. cbv beta. cbn [concat]. rewrite app_nil_r.
    intros r s1 _ Hr. destruct r as [e|r].
    { apply runs_ret; [done|]. exists []. split_and!; [done|constructor|done..|apply prefix_nil]. }
    set (sent := match r with Ready n => n | WouldBlock => 0%nat end).
    set (es := match r with Ready n => [Sent (tcp_fd to) (take n (header ++ body))] | WouldBlock => [] end).
    assert (Hsent : (sent <= length (header ++ body))%nat /\ did es s s1 /\ only_sent (tcp_fd to) es /\
                    sent_on (tcp_fd to) es = take sent (header ++ body)).
    { subst sent es. destruct r as [n|]; [|split_and!; [lia|done|constructor|done]]. destruct Hr as [Hn Hd].
      split_and!; [done..| |apply sent_on_one]. constructor; [by eexists|constructor]. }
    clearbody sent es. clear Hr. destruct Hsent as (Hn&Hd&Honly&Hes). rewrite length_app in Hn.
    eapply runs_bind with (P := fun d s' => did es s s' /\ (sent = 0%nat -> d = deadline)).
    { destruct (Nat.ltb_spec 0 sent); [|by apply runs_ret; [|split]].
      eapply runs_bind; [apply run_now|]. intros t s2 _ Hd2. apply runs_ret; [done|]. split; [|lia].
      rewrite <- (app_nil_r es). by eapply did_trans. }
    intros d s2 _ [Hd2 Hdl].
    assert (Hdl' : sent_on (tcp_fd to) es = [] -> header ++ body <> [] -> d = deadline).
    { intros Hz Hne. apply Hdl. rewrite Hes in Hz. apply (f_equal length) in Hz. rewrite length_take in Hz. cbn in Hz.
      destruct (header ++ body); [done|]. cbn in Hz. lia. }
    destruct (Nat.eqb_spec sent (length header + length body)) as [Hall|Hpart].
    + apply runs_ret; [done|]. exists es. rewrite Hes. split_and!; [done..| |].
      * intros Hz. destruct (decide (header ++ body = [])) as [Hnil|]; [|by apply Hdl'; rewrite ?Hes].
        apply Hdl. apply (f_equal length) in Hnil. rewrite length_app in Hnil. cbn in Hnil. lia.
      * rewrite take_ge by len. by rewrite Hq, app_nil_r.
    + destruct (split_remainder_spec header body sent ltac:(lia)) as (h&t&E&Ht).
      destruct (buffer_tail_spec b h t Hb) as (o&b'&E2&Hb'&Hc&Ho).
      eapply run_lift_bind; [exact E|]. cbv beta iota zeta. eapply run_lift_bind; [exact E2|]. cbv beta iota zeta.
      apply runs_ret; [done|]. exists es. rewrite Hes. split_and!; [done..| |].
      * intros Hz. apply Hdl'; [by rewrite Hes|]. intros Hnil. apply (f_equal length) in Hnil. rewrite length_app in Hnil.
        cbn in Hnil. lia.
      * destruct o; [|by apply prefix_app_r, prefix_of_take || (eexists; symmetry; apply take_drop)].
        rewrite Ho, Hq, Ht. cbn. by rewrite take_drop.
Qed.

(** What the calls on a direction leave alone. *)
Definition same_ends (x x' : DirectionContext) : Prop :=
  dc_from x' = dc_from x /\ dc_from_reg x' = dc_from_reg x /\ dc_to x' = dc_to x /\ dc_to_reg x' = dc_to_reg x.

(** The loop over the framed messages, from what [recv] left; its fuel is more
    than the bytes there are. *)
Definition forwarded_post (x : DirectionContext) s (r : Forwarded * DirectionContext) s' : Prop :=
  let '(o, x') := r in
  same_ends x x' /\ fl_state (dc_flow x') = fl_state (dc_flow x) /\
  exists es, did es s s' /\ (forall fd, fins_on fd es = 0%nat) /\
    (forall fd, fd <> tcp_fd (dc_from x) -> received_on fd es = []) /\ (forall fd, fd <> tcp_fd (dc_to x) -> sent_on fd es = []) /\
    match o with
    | Failed => cut_short (tcp_fd (dc_from x)) (tcp_fd (dc_to x)) (dc_flow x) es
    | _ => advanced (tcp_fd (dc_from x)) (tcp_fd (dc_to x)) (dc_flow x) (dc_flow x') es
    end.

Lemma run_forward_loop fuel x s :
  flow_wf (dc_flow x) -> (sb_len (fl_recv (dc_flow x)) < fuel)%nat ->
  ends (forward_loop fuel x) s (fun r s' =>
    let '(o, x') := r in
    same_ends x x' /\ fl_state (dc_flow x') = fl_state (dc_flow x) /\
    exists es, did es s s' /\ only_sent (tcp_fd (dc_to x)) es /\
      match o with
      | Failed => cut_short (tcp_fd (dc_from x)) (tcp_fd (dc_to x)) (dc_flow x) es
      | _ => advanced (tcp_fd (dc_from x)) (tcp_fd (dc_to x)) (dc_flow x) (dc_flow x') es
      end).
Proof.
  revert x s. induction fuel as [|fuel IH]; intros x s Hwf Hfuel; [lia|]. cbn [forward_loop].
  destruct Hwf as [Hfr [Hrecv Hrcap] [Hsend Hscap]] eqn:Ewf. clear Ewf.
  eapply run_lift_bind; [by apply pending_queue|]. set (ahead := queue (fl_recv (dc_flow x))).
  pose proof (feed_spec _ ahead Hfr) as Hfeed.
  destruct (feed (fl_framer (dc_flow x)) ahead) as [[framed f']|e|] eqn:Ef; [| |done].
  2:{ apply runs_ret; [done|]. split_and!; [done..|]. exists []. split_and!; [apply did_nil|constructor|apply cut_nil]. }
  destruct Hfeed as (Hf'&_&Hcons&_&Hnone). cbv beta zeta.
  set (x1 := match fd_application_url framed with Some ep => set_learned_rest (Some ep) _ | None => _ end).
  assert (Hx1 : same_ends x x1 /\ dc_flow x1 = with_framer f' (dc_flow x)) by (subst x1; by destruct (fd_application_url framed)).
  clearbody x1. destruct Hx1 as [(E1&E2&E3&E4) Eflow].
  destruct (Nat.eqb_spec (fd_consumed framed) 0) as [Hz|Hpos].
  { apply runs_ret; [done|]. split_and!; [done|by rewrite Eflow|]. exists []. split_and!; [apply did_nil|constructor|].
    destruct (Hnone Hz) as (->&Hh&Hb). rewrite Eflow. apply advanced_idle; [by split|done..|]. by destruct (dc_flow x). }
  rewrite Eflow. cbn [with_framer fl_send fl_recv]. unfold mbind at 1. eapply runs_bind; [by apply run_send_framed|].
  intros [[o b'] d] s1 _ (es&Hd&Honly&Hb'&Hc'&_&Ho). rewrite E3 in Honly, Ho.
  destruct (only_sent_quiet _ _ Honly) as (Hnr&_&_).
  assert (Hone : spliced (fl_framer (dc_flow x)) (take (fd_consumed framed) ahead) (fd_header framed ++ fd_body framed) f').
  { eapply (spliced_feed _ [] []); [constructor|exact Ef]. }
  destruct o.
  - destruct (consume_spec _ _ Hrecv Hcons) as (Hw3&Hq3&Hc3).
    eapply runs_mono; [apply IH|].
    + cbn. split; [done|cbn; split; congruence..].
    + cbn. rewrite <- (length_queue _ Hw3), Hq3, length_drop, (length_queue _ Hrecv). unfold ahead in Hcons.
      rewrite (length_queue _ Hrecv) in Hcons. lia.
    + intros [o2 x2] s2 _ (Hs2&Hst2&es2&Hd2&Honly2&Ho2). cbn in Hs2, Hst2, Honly2, Ho2. rewrite E3 in Honly2.
      split; [destruct Hs2 as (?&?&?&?); split_and!; cbn in *; congruence|]. split; [by rewrite Hst2|].
      exists (es ++ es2). split_and!; [by eapply did_trans|by apply Forall_app|].
      rewrite E1, E3 in Ho2.
      assert (Hadv : advanced (tcp_fd (dc_from x)) (tcp_fd (dc_to x)) (dc_flow x)
        (with_recv (consume (fl_recv (dc_flow x)) (fd_consumed framed)) (with_send b' (with_framer f' (dc_flow x)))) es).
      { split; [split; [done|cbn; split; congruence..]|]. do 2 eexists. split_and!; [exact Hone| |cbn; symmetry; exact Ho].
        cbn. rewrite Hnr, app_nil_r, Hq3. symmetry. apply take_drop. }
      destruct o2; [by eapply advanced_trans|by eapply advanced_trans|by eapply advanced_cut].
  - apply runs_ret; [done|]. split; [split_and!; cbn; congruence|]. split; [done|]. exists es. split_and!; [done..|].
    do 3 eexists. split_and!; [exact Hone| |exact Ho]. rewrite Hnr, app_nil_r. eexists. symmetry. apply take_drop.
Qed.

(** A flow that took in what was received. *)
Lemma advanced_received from to f b data :
  flow_wf f -> sb_wf b -> capacity b = MAX_RECV -> queue b = queue (fl_recv f) ++ data ->
  advanced from to f (with_recv b f) [Received from data].
Proof.
  intros [Hf1 _ Hf2] Hb Hc Hq. split; [by split|]. exists [], []. rewrite received_on_one. cbn.
  rewrite app_nil_r. split_and!; [constructor|done..].
Qed.

Lemma run_ctx_forward x s : flow_wf (dc_flow x) -> ends (ctx_forward x) s (forwarded_post x s).
Proof.
  intros Hwf. pose proof Hwf as [Hfr [Hrecv Hrcap] Hsend]. unfold ctx_forward.
  destruct (free_tail_spec (E:=Infallible) _ Hrecv) as (b&tail&Et&Hq&Hb&Hc&_&_&Hw).
  eapply run_lift_bind; [exact Et|]. cbv beta iota zeta.
  set (x1 := set_flow (with_recv b (dc_flow x)) x).
  assert (Hadv : advanced (tcp_fd (dc_from x)) (tcp_fd (dc_to x)) (dc_flow x) (dc_flow x1) []).
  { rewrite <- (app_nil_r []). split; [split; cbn; [done|split; congruence|done]|]. exists [], []. cbn. rewrite Hq, !app_nil_r.
    split_and!; [constructor|done..]. }
  assert (Hstop : forall o es s', did es s s' -> es = [] \/ es = [Received (tcp_fd (dc_from x)) []] ->
                             forwarded_post x s (o, x1) s').
  { intros o es s' Hd Hes. split; [done|]. split; [done|]. exists es. split_and!; [done| | | |].
    - by destruct Hes as [-> | ->].
    - intros fd Hfd. destruct Hes as [-> | ->]; [done|by apply received_on_other].
    - by destruct Hes as [-> | ->].
    - assert (Ha : advanced (tcp_fd (dc_from x)) (tcp_fd (dc_to x)) (dc_flow x) (dc_flow x1) es).
      { destruct Hes as [-> | ->]; [done|]. apply advanced_received; [done..|congruence|]. by rewrite Hq, app_nil_r. }
      destruct o; [done..|by eapply advanced_is_cut]. }
  case_bool_decide as Hnil; [apply runs_ret; [done|]; by apply (Hstop Failed []); [apply did_nil|left]|].
  eapply runs_bind; [apply run_recv|]. cbv beta. intros r s1 _ Hr. destruct r as [e|[data|]].
  - apply runs_ret; [done|]. by eapply (Hstop Failed); [exact Hr|left].
  - destruct Hr as [Hlen Hd]. destruct data as [|z data]; [apply runs_ret; [done|]; by eapply (Hstop SourceEof); [exact Hd|right]|].
    remember (z :: data) as d eqn:Ed. clear Ed z data.
    destruct (Hw (d ++ drop (length d) tail) (length d) ltac:(len) Hlen) as (Hb2&Hq2&Hc2).
    rewrite take_app_length in Hq2. set (b2 := commit _ _) in *. clearbody b2.
    eapply runs_mono; [apply run_forward_loop|].
    + cbn. split; [done|cbn; split; congruence|done].
    + cbn. lia.
    + intros [o x2] s2 _ (Hs2&Hst2&es&Hd2&Honly&Ho). cbn in Hs2, Hst2, Honly, Ho.
      split; [exact Hs2|]. split; [exact Hst2|]. exists (Received (tcp_fd (dc_from x)) d :: es).
      destruct (only_sent_quiet _ _ Honly) as (Hnr&Hnf&Hns).
      assert (Hrecvd : advanced (tcp_fd (dc_from x)) (tcp_fd (dc_to x)) (dc_flow x) (with_recv b2 (dc_flow x))
                         [Received (tcp_fd (dc_from x)) d]) by (apply advanced_received; [done..|congruence|done]).
      change (Received (tcp_fd (dc_from x)) d :: es) with ([Received (tcp_fd (dc_from x)) d] ++ es).
      split_and!; [by eapply did_trans| | | |].
      * intros fd. by rewrite fins_on_app, Hnf.
      * intros fd Hfd. by rewrite received_on_app, Hnr, received_on_other.
      * intros fd Hfd. by rewrite sent_on_app, Hns.
      * destruct o; [by eapply advanced_trans|by eapply advanced_trans|by eapply advanced_cut].
  - apply runs_ret; [done|]. by eapply (Hstop StillOpen); [exact Hr|left].
Qed.

(** [drain]: some of the backlog. *)
Lemma run_drain x s :
  flow_wf (dc_flow x) ->
  ends (drain x) s (fun r s' =>
    let '(o, x') := r in
    same_ends x x' /\ fl_state (dc_flow x') = fl_state (dc_flow x) /\
    exists es, did es s s' /\ only_sent (tcp_fd (dc_to x)) es /\
      (sb_is_empty (fl_send (dc_flow x)) = true -> es = [] /\ x' = x) /\
      advanced (tcp_fd (dc_from x)) (tcp_fd (dc_to x)) (dc_flow x) (dc_flow x') es).
Proof.
  intros Hwf. pose proof Hwf as [Hfr Hrecv [Hsend Hscap]]. unfold drain.
  assert (Hstop : forall s', did [] s s' -> same_ends x x /\ fl_state (dc_flow x) = fl_state (dc_flow x) /\
    exists es, did es s s' /\ only_sent (tcp_fd (dc_to x)) es /\
      (sb_is_empty (fl_send (dc_flow x)) = true -> es = [] /\ x = x) /\
      advanced (tcp_fd (dc_from x)) (tcp_fd (dc_to x)) (dc_flow x) (dc_flow x) es).
  { intros s' Hd. split; [done|]. split; [done|]. exists []. split; [exact Hd|]. split; [constructor|]. split; [done|].
    by apply advanced_refl. }
  destruct (sb_is_empty (fl_send (dc_flow x))) eqn:Eempty; [apply runs_ret; [done|]; apply Hstop, did_nil|].
  eapply run_lift_bind; [by apply pending_queue|]. eapply runs_bind; [apply run_send|]. cbv beta. intros r s1 _ Hr.
  destruct r as [e|[n|]]; [by apply runs_ret; [|apply Hstop]| |by apply runs_ret; [|apply Hstop]].
  destruct Hr as [Hn Hd]. destruct (consume_spec _ _ Hsend Hn) as (Hb&Hq&Hc). cbv zeta.
  set (x1 := set_flow _ x).
  eapply runs_bind with (P := fun x' s' => same_ends x x' /\ dc_flow x' = dc_flow x1 /\
    did [Sent (tcp_fd (dc_to x)) (take n (queue (fl_send (dc_flow x))))] s s').
  { destruct (Nat.ltb_spec 0 n); [|by apply runs_ret].
    eapply runs_bind; [apply run_now|]. intros t s2 _ Hd2. apply runs_ret; [done|]. split_and!; [done..|].
    rewrite <- (app_nil_r [Sent _ _]). by eapply did_trans. }
  intros x' s2 _ (Hs&Hfl&Hd2). apply runs_ret; [done|]. split; [done|]. split; [by rewrite Hfl|].
  eexists. split_and!; [exact Hd2|constructor; [by eexists|constructor]|done|]. rewrite Hfl.
  split; [split; cbn; [done..|split; congruence]|]. exists [], []. cbn [with_send fl_framer]. rewrite sent_on_one. cbn.
  rewrite Hq, !app_nil_r. split_and!; [constructor|done|by rewrite take_drop].
Qed.

(** ** The operations that touch the reactor *)

(** Only registrations of [mine] changed, none went, and these events were made. *)
Record moved (mine : Key -> Prop) (es : list Event) s s' : Prop := {
  mv_ok : reactor_ok (rs_reactor s');
  mv_frame : undisturbed mine (rs_reactor s) (rs_reactor s');
  mv_kept : all_kept (rs_reactor s) (rs_reactor s');
  mv_events : emits (rs_world s) es (rs_world s');
}.
Lemma did_moved mine es s s' : reactor_ok (rs_reactor s) -> did es s s' -> moved mine es s s'.
Proof. intros Hok [E He]. split; rewrite ?E; [done|apply undisturbed_refl|by intros ???|done]. Qed.
Lemma moved_trans mine es es' s1 s2 s3 : moved mine es s1 s2 -> moved mine es' s2 s3 -> moved mine (es ++ es') s1 s3.
Proof.
  intros [A1 A2 A3 A4] [B1 B2 B3 B4]. split; [done|by eapply undisturbed_trans|intros rk Hrk Hr; auto|by eapply (ob_trans _ Hob)].
Qed.
Lemma moved_weaken (mine mine' : Key -> Prop) es s s' : (forall k, mine k -> mine' k) -> moved mine es s s' -> moved mine' es s s'.
Proof. intros Hm [A1 A2 A3 A4]. split; [done|by eapply undisturbed_weaken|done..]. Qed.

Lemma call_emits {A} (f : W -> io A * W) s : emits (rs_world s) [] (f (rs_world s)).2 -> emits (rs_world s) [] (rs_world (call f s).2).
Proof. unfold call. by destruct (f (rs_world s)) as [[e|a] w]. Qed.

Lemma interest_emits (write : bool) rk b s :
  emits (rs_world s) [] (rs_world ((if write then set_write_interest rk b else set_read_interest rk b) s).2).
Proof.
  assert (Hm : forall f (g : FdRegistration -> W -> io () * W),
    (forall reg w, emits w [] (g reg w).2) -> emits (rs_world s) [] (rs_world (interest_change rk f g s).2)).
  { intros f g Hg. unfold interest_change, gets, modify, mbind, M_bind, mret, M_ret, registrations_of.
    destruct (get _ _) as [reg|]; [|apply (ob_refl _ Hob)]. pose proof (call_emits (g reg) s (Hg _ _)) as Hc.
    by destruct (call _ _) as [[a|e|] s1]. }
  destruct write.
  - specialize (Hm (with_write b) (fun reg => poll_set_interest (rg_fd reg) rk (rg_read reg) b)
      (fun _ _ => ob_interest _ Hob _ _ _ _ _)). revert Hm.
    unfold set_write_interest, interest_change, gets, mbind, M_bind, mret, M_ret, registrations_of.
    destruct (get _ _) as [reg|]; [|done]. case_bool_decide; [|done]. intros _. apply (ob_refl _ Hob).
  - apply (Hm (with_read b) (fun reg => poll_set_interest (rg_fd reg) rk b (rg_write reg))). intros. apply (ob_interest _ Hob).
Qed.
Lemma unwatch_emits rk s : emits (rs_world s) [] (rs_world (unwatch rk s).2).
Proof.
  unfold unwatch, gets, modify, mbind, M_bind, mret, M_ret, registrations_of.
  destruct (remove _ _) as [[reg a]|]; [|apply (ob_refl _ Hob)].
  match goal with |- context [call ?f ?s'] => pose proof (call_emits f s' (ob_remove _ Hob _ _)) as Hc; destruct (call f s') as [[x|e|] s1] end;
    exact Hc.
Qed.

(** A kernel that does not refuse to change the interest of a watched fd. *)
Definition steady : Prop := forall fd k r w w0, (poll_set_interest fd k r w w0).1 = inr ().

Lemma interest_steady (write : bool) rk b s e :
  ((if write then set_write_interest rk b else set_read_interest rk b) s).1 = Err e -> ~ steady.
Proof.
  intros E Hst. revert E. unfold set_write_interest, set_read_interest, gets, modify, mbind, M_bind, mret, M_ret, registrations_of, call.
  assert (Hc : forall (reg : FdRegistration) a b', (let '(r, w) := poll_set_interest (rg_fd reg) rk a b' (rs_world s) in
            (match r with inr x => Ok x | inl e => Err e end, {| rs_reactor := rs_reactor s; rs_world := w |})).1 = Ok ()).
  { intros reg a b'. specialize (Hst (rg_fd reg) rk a b' (rs_world s)). destruct (poll_set_interest _ _ _ _ _) as [r w].
    cbn in Hst. by rewrite Hst. }
  destruct write; (destruct (get _ _) as [reg|]; [|done]); [case_bool_decide; [done|]|].
  - specialize (Hc reg (rg_read reg) b). by destruct (let '(r, w) := _ in _) as [[?|?|] ?].
  - specialize (Hc reg b (rg_write reg)). by destruct (let '(r, w) := _ in _) as [[?|?|] ?].
Qed.

(** An interest change, whose failure is a value. *)
Lemma run_interest (write : bool) rk b s :
  reactor_ok (rs_reactor s) -> 0 <= index rk ->
  ends (attempt (E:=Infallible) (if write then set_write_interest rk b else set_read_interest rk b)) s
    (fun r s' => moved (eq rk) [] s s' /\ match r with inl _ => ~ steady | inr _ => True end).
Proof.
  intros Hok Hrk. pose proof (interest_steady write rk b s) as Hst. pose proof (run_set_interest write rk b s Hok Hrk) as Hr. pose proof (interest_emits write rk b s) as He.
  unfold runs, attempt. destruct ((if write then set_write_interest rk b else set_read_interest rk b) s) as [r s'].
  destruct Hr as (Hp&[Hok' Hu]&Hk).
  destruct r; [by split; [|split]|by split; [|split; [split|by eapply Hst]]|done].
Qed.

Lemma run_sync x rk s :
  reactor_ok (rs_reactor s) -> dc_to_reg x = Some rk -> 0 <= index rk ->
  ends (sync_write_interest x) s (fun _ s' => moved (eq rk) [] s s').
Proof.
  intros Hok Hrk Hi. unfold sync_write_interest. cbv zeta. eapply run_lift_bind; [by rewrite Hrk|].
  eapply runs_bind; [by apply (run_interest true)|]. intros r s1 _ [Hm _]. by apply runs_ret.
Qed.

(** What [settle] may do to the flow. *)
Definition settled (x : DirectionContext) (es : list Event) (x' : DirectionContext) : Prop :=
  (es = [] /\ x' = x) \/
  (es = [Fin (tcp_fd (dc_to x))] /\ fl_state (dc_flow x) = SourceClosed /\ sb_is_empty (fl_send (dc_flow x)) = true /\
   x' = set_flow (with_state Done (dc_flow x)) x).

Lemma run_settle x rk s :
  reactor_ok (rs_reactor s) -> dc_to_reg x = Some rk -> 0 <= index rk ->
  ends (settle x) s (fun r s' => exists es, moved (eq rk) es s s' /\ settled x es r.2).
Proof.
  intros Hok Hrk Hi. unfold settle.
  eapply runs_bind with (P := fun x' s' => exists es, did es s s' /\ settled x es x').
  { destruct (bool_decide _ && _ && _) eqn:Ec; [|apply runs_ret; [done|]; exists []; split; [apply did_nil|by left]].
    apply andb_prop in Ec as [[Hst%bool_decide_eq_true He]%andb_prop _].
    eapply runs_bind; [apply run_tell, (ob_fin _ Hob)|]. intros [] s1 _ Hd. apply runs_ret; [done|].
    eexists. split; [exact Hd|by right]. }
  intros x' s1 _ (es&Hd&Hs).
  assert (Hrk' : dc_to_reg x' = Some rk) by (by destruct Hs as [[_ ->]|(_&_&_&->)]).
  destruct (did_moved (eq rk) _ _ _ Hok Hd) as [Hok1 ?? ?].
  eapply runs_bind; [by apply run_sync|]. intros o s2 _ Hm. apply runs_ret; [done|]. exists es. split; [|done].
  rewrite <- (app_nil_r es). eapply moved_trans; [|exact Hm]. by apply did_moved.
Qed.

Lemma run_half_close x rf rt s :
  reactor_ok (rs_reactor s) -> dc_from_reg x = Some rf -> dc_to_reg x = Some rt -> 0 <= index rf -> 0 <= index rt ->
  ends (half_close x) s (fun r s' => exists es, moved (fun k => k = rf \/ k = rt) es s s' /\
    match r with
    | (Close, x') => es = [] /\ x' = x \/ settled (set_flow (with_state SourceClosed (dc_flow x)) x) es x'
    | (Keep, x') => settled (set_flow (with_state SourceClosed (dc_flow x)) x) es x'
    end).
Proof.
  intros Hok Hf Ht Hfi Hti. unfold half_close. eapply run_lift_bind; [by rewrite Hf|].
  eapply runs_bind; [by apply (run_interest false)|]. intros r s1 _ [Hm _]. destruct r as [e|b].
  - apply runs_ret; [done|]. exists []. split; [eapply moved_weaken; [|exact Hm]; by left|by left].
  - eapply runs_mono; [apply run_settle; [apply Hm|exact Ht|exact Hti]|]. intros [o x'] s2 _ (es&Hm2&Hs). exists es. split.
    + change es with ([] ++ es). eapply moved_trans; (eapply moved_weaken; [|eassumption]); [by left|by right].
    + destruct o; [done|by right].
Qed.
End direction.
