(* ===== verification/DialConnectionInv.v ===== *)
(** The proxied connection as a whole: its invariant over the edges of its
    sockets, and what has gone over them. *)

From S2P Require Import Prelude Effect Text Addr Names Interface Kernel StreamBuffer Http Framing FramingSpec.
From S2P Require Import Arena Reactor ReactorSpec Tcp DialConnection DialConnectionSpec.

Local Open Scope Z_scope.

Definition reverse (d : Direction) : Direction := match d with ClientToDevice => DeviceToClient | DeviceToClient => ClientToDevice end.
Definition from_fd (d : Direction) (c : Connection) : Z := tcp_fd (dc_from (context d c)).
Definition to_fd (d : Direction) (c : Connection) : Z := tcp_fd (dc_to (context d c)).
Definition from_reg (d : Direction) (c : Connection) : option Key := dc_from_reg (context d c).
Definition to_reg (d : Direction) (c : Connection) : option Key := dc_to_reg (context d c).

Lemma reverse_ends d c : from_fd (reverse d) c = to_fd d c /\ to_fd (reverse d) c = from_fd d c /\
  from_reg (reverse d) c = to_reg d c /\ to_reg (reverse d) c = from_reg d c.
Proof. by destruct d. Qed.
Lemma reverse_reverse d : reverse (reverse d) = d.
Proof. by destruct d. Qed.

(** ** Invariant *)

Record conn_ok (c : Connection) : Prop := {
  co_fds : tcp_fd (cn_client c) <> tcp_fd (cn_device c);
  co_flows : forall d, flow_wf (flow_of d c);
  co_regs : forall d rk, from_reg d c = Some rk -> 0 <= index rk;
  co_distinct : forall rk, cn_client_reg c = Some rk -> cn_device_reg c <> Some rk;
  (** a side without a registration hung up *)
  co_gone : forall d, from_reg d c = None -> fl_state (flow_of d c) <> Open /\ fl_state (flow_of (reverse d) c) = Done;
  (** a direction that is done sends no more *)
  co_done : forall d, fl_state (flow_of d c) = Done -> queue (fl_send (flow_of d c)) = [] \/ to_reg d c = None;
}.

Definition mine (c : Connection) (rk : Key) : Prop := cn_client_reg c = Some rk \/ cn_device_reg c = Some rk.
Lemma mine_from d c rk : from_reg d c = Some rk -> mine c rk.
Proof. destruct d; [by left|by right]. Qed.
Lemma mine_to d c rk : to_reg d c = Some rk -> mine c rk.
Proof. destruct d; [by right|by left]. Qed.
Lemma co_to_reg c d rk : conn_ok c -> to_reg d c = Some rk -> 0 <= index rk.
Proof. intros Hc. destruct d; [apply (co_regs _ Hc DeviceToClient)|apply (co_regs _ Hc ClientToDevice)]. Qed.
Lemma co_ends c d : conn_ok c -> from_fd d c <> to_fd d c.
Proof. intros Hc. pose proof (co_fds _ Hc). destruct d; unfold from_fd, to_fd; cbn; congruence. Qed.

(** ** What an edge does to a direction *)

(** The events of one direction. *)
Record local (from to : Z) (es : list Event) : Prop := {
  lc_received : forall fd, fd <> from -> received_on fd es = [];
  lc_sent : forall fd, fd <> to -> sent_on fd es = [];
  lc_fin : forall fd, fd <> to -> fins_on fd es = 0%nat;
}.
Lemma local_app from to es es' : local from to es -> local from to es' -> local from to (es ++ es').
Proof.
  intros [A1 A2 A3] [B1 B2 B3]. split; intros fd Hfd.
  - by rewrite received_on_app, A1, B1.
  - by rewrite sent_on_app, A2, B2.
  - by rewrite fins_on_app, A3, B3.
Qed.
Lemma local_nil from to : local from to [].
Proof. done. Qed.

(** The FIN, if any, is the last event and follows the last byte. *)
Definition fin_last (to : Z) (f' : Flow) (es : list Event) : Prop :=
  fins_on to es = 0%nat \/
  fl_state f' = Done /\ queue (fl_send f') = [] /\ exists es1, es = es1 ++ [Fin to] /\ fins_on to es1 = 0%nat.

Record dir_keep (from to : Z) (f f' : Flow) (es : list Event) : Prop := {
  dk_advanced : advanced from to f f' es;
  dk_fin : fin_last to f' es;
  dk_done : fl_state f = Done -> f' = f /\ received_on from es = [] /\ sent_on to es = [] /\ fins_on to es = 0%nat;
}.
Record dir_cut (from to : Z) (f : Flow) (es : list Event) : Prop := {
  dc_cut : cut_short from to f es;
  dc_fin : fins_on to es = 0%nat \/ exists f', advanced from to f f' es /\ fl_state f <> Done /\ fin_last to f' es;
  dc_done : fl_state f = Done -> received_on from es = [] /\ sent_on to es = [] /\ fins_on to es = 0%nat;
}.

Lemma dir_keep_cut from to f f' es : dir_keep from to f f' es -> dir_cut from to f es.
Proof.
  intros [Ha Hf Hd]. split; [by eapply advanced_is_cut| |intros Hs; by destruct (Hd Hs)].
  destruct (decide (fl_state f = Done)) as [Hs|Hs]; [left; by destruct (Hd Hs) as (_&_&_&?)|right; by exists f'].
Qed.
Lemma dir_keep_idle from to f es : flow_wf f -> local to from es -> from <> to -> dir_keep from to f f es.
Proof.
  intros Hf [L1 L2 L3] Hne. split; [apply advanced_idle; [done|by apply L1|by apply L2; congruence|by destruct f]|left; by apply L3; congruence|].
  intros _. split_and!; [done|by apply L1|by apply L2; congruence|by apply L3; congruence].
Qed.

(** The states of an operation on an open direction. *)
Lemma fins_on_fin fd : fins_on fd [Fin fd] = 1%nat.
Proof. unfold fins_on. cbn. by rewrite Z.eqb_refl. Qed.
Lemma settled_keep from x es es' f x' :
  from <> tcp_fd (dc_to x) -> advanced from (tcp_fd (dc_to x)) f (dc_flow x) es -> sb_wf (fl_send (dc_flow x)) ->
  fins_on (tcp_fd (dc_to x)) es = 0%nat -> fl_state f <> Done -> settled x es' x' ->
  dir_keep from (tcp_fd (dc_to x)) f (dc_flow x') (es ++ es').
Proof.
  intros Hne Ha Hwf Hf Hst [[-> ->]|(->&Hs&He&->)]; [rewrite app_nil_r; by split; [|left|]|].
  split; [|right|done].
  - eapply advanced_trans; [exact Ha|]. by apply advanced_idle; [apply Ha|..|destruct (dc_flow x)].
  - split; [done|]. split; [|by exists es].
    apply nil_length_inv. cbn. rewrite (length_queue _ Hwf). apply Nat.eqb_eq in He. unfold sb_len. lia.
Qed.

(** The direction an edge of a descriptor drives. *)
Definition read_side (fd : Z) (c : Connection) : Direction := if tcp_fd (cn_client c) =? fd then ClientToDevice else DeviceToClient.
Definition write_side (fd : Z) (c : Connection) : Direction := if tcp_fd (cn_device c) =? fd then ClientToDevice else DeviceToClient.
Lemma read_side_from d c : conn_ok c -> read_side (from_fd d c) c = d.
Proof.
  intros Hc. pose proof (co_fds _ Hc). unfold read_side, from_fd. destruct d; cbn; [by rewrite Z.eqb_refl|].
  by rewrite (proj2 (Z.eqb_neq _ _)).
Qed.
Lemma write_side_to d c : conn_ok c -> write_side (to_fd d c) c = d.
Proof.
  intros Hc. pose proof (co_fds _ Hc). unfold write_side, to_fd. destruct d; cbn; [by rewrite Z.eqb_refl|].
  by rewrite (proj2 (Z.eqb_neq _ _)) by congruence.
Qed.

Section connection.
Context {H W : Type} `{Kernel W} `{Poller W} `{Sockets W} (Htyped : sockets_typed W).
Context (emits : W -> list Event -> W -> Prop) (Hob : observer emits).
Implicit Types s : RState H W.

Abbreviation ends := (runs (fun _ => True) (fun _ => False)).
Abbreviation regs s := (rt_registrations (rs_reactor s)).

(** A side keeps its registration, or lost it with its watch. *)
Definition side_step (reg reg' : option Key) s s' : Prop :=
  (reg' = reg /\ forall rk, reg = Some rk -> is_Some (get (regs s) rk) -> is_Some (get (regs s') rk)) \/
  (reg' = None /\ forall rk, reg = Some rk -> steady (W:=W) -> get (regs s') rk = None).

Record edge_post (c : Connection) s (r : Outcome * Connection) s' : Prop := {
  ep_client : tcp_fd (cn_client r.2) = tcp_fd (cn_client c);
  ep_device : tcp_fd (cn_device r.2) = tcp_fd (cn_device c);
  ep_ok : reactor_ok (rs_reactor s');
  ep_frame : undisturbed (mine c) (rs_reactor s) (rs_reactor s');
  ep_sides : forall d, side_step (from_reg d c) (from_reg d r.2) s s';
  ep_events : exists es, emits (rs_world s) es (rs_world s') /\
    match r.1 with
    | Keep => conn_ok r.2 /\ forall d, dir_keep (from_fd d c) (to_fd d c) (flow_of d c) (flow_of d r.2) es
    | Close => forall d, dir_cut (from_fd d c) (to_fd d c) (flow_of d c) es
    end;
}.

(** An operation on one direction with both sides watched, or its target. *)
Definition on_dir_post (d : Direction) (c : Connection) s (r : Outcome * Connection) s' : Prop :=
  exists x' es, r.2 = put_context d x' c /\ same_ends (context d c) x' /\ moved emits (mine c) es s s' /\
    local (from_fd d c) (to_fd d c) es /\
    match r.1 with
    | Keep => dir_keep (from_fd d c) (to_fd d c) (flow_of d c) (dc_flow x') es /\
        (fl_state (dc_flow x') = Done -> fl_state (flow_of d c) = Done \/ queue (fl_send (dc_flow x')) = []) /\
        (fl_state (dc_flow x') = Open -> fl_state (flow_of d c) = Open)
    | Close => dir_cut (from_fd d c) (to_fd d c) (flow_of d c) es
    end.

Lemma context_put d x' c : same_ends (context d c) x' -> context d (put_context d x' c) = x'.
Proof. destruct x'. destruct d; unfold same_ends, put_context, context; cbn; intros (->&->&->&->); done. Qed.
Lemma flow_context d c : dc_flow (context d c) = flow_of d c.
Proof. by destruct d. Qed.
Lemma put_put d x1 x2 c : put_context d x2 (put_context d x1 c) = put_context d x2 c.
Proof. by destruct d. Qed.
Lemma flow_put d x' c : flow_of d (put_context d x' c) = dc_flow x' /\ flow_of (reverse d) (put_context d x' c) = flow_of (reverse d) c.
Proof. by destruct d. Qed.
Lemma reg_put d d' x' c : from_reg d (put_context d' x' c) = from_reg d c /\ to_reg d (put_context d' x' c) = to_reg d c.
Proof. by destruct d, d'. Qed.

(** One of the two directions. *)
Lemma either d d' : d' = d \/ d' = reverse d.
Proof. destruct d, d'; auto. Qed.
Ltac both d := let d' := fresh in intros d'; destruct (either d d') as [-> | ->].

Lemma close_if_complete_cases c o : close_if_complete c o = o \/ close_if_complete c o = Close.
Proof. destruct o; cbn; [case_bool_decide; auto|auto]. Qed.
Lemma on_dir_complete d c s o c1 c' s' : on_dir_post d c s (o, c') s' -> on_dir_post d c s (close_if_complete c1 o, c') s'.
Proof.
  intros (x'&es&E&Hs&Hm&Hl&Ho). destruct (close_if_complete_cases c1 o) as [-> | ->]; [by exists x', es|].
  exists x', es. split_and!; [done..|]. destruct o; [|done]. destruct Ho as [Ho _]. by eapply dir_keep_cut.
Qed.

Lemma on_dir_edge d c s r s' :
  conn_ok c -> to_reg d c <> None -> on_dir_post d c s r s' -> edge_post c s r s'.
Proof.
  intros Hc Hto (x'&es&E&Hs&Hm&Hl&Ho). destruct (reverse_ends d c) as (F1&F2&R1&R2).
  assert (Hidle : dir_keep (from_fd (reverse d) c) (to_fd (reverse d) c) (flow_of (reverse d) c) (flow_of (reverse d) c) es).
  { apply dir_keep_idle; [apply Hc|by rewrite F1, F2|apply (co_ends _ (reverse d) Hc)]. }
  destruct Hm as [M1 M2 M3 M4]. split; [..|exists es; split; [done|]].
  1,2: rewrite E; by destruct d.
  1,2: done.
  { intros d'. left. rewrite E. split; [apply reg_put|]. intros rk Hrk. apply M3. by eapply co_regs. }
  destruct (flow_put d x' c) as [P1 P2]. destruct (r.1).
  - rewrite E. destruct Ho as (Hk&Hdone&Hopen). split; [|both d; [by rewrite P1|by rewrite P2]]. split.
    + pose proof (co_fds _ Hc). by destruct d.
    + both d; [rewrite P1; apply Hk|rewrite P2; apply Hc].
    + intros d' rk. rewrite (proj1 (reg_put d' d x' c)). apply Hc.
    + apply Hc.
    + both d.
      * rewrite (proj1 (reg_put d d x' c)), P1, P2. intros Hn. destruct (co_gone _ Hc d Hn) as [G1 G2]. split; [|done]. auto.
      * rewrite (proj1 (reg_put _ d x' c)), R1. done.
    + both d.
      * rewrite (proj2 (reg_put d d x' c)), P1. intros Hd. left. destruct (Hdone Hd) as [Hw|]; [|done].
        destruct (dk_done _ _ _ _ _ Hk Hw) as (->&_). by destruct (co_done _ Hc d Hw).
      * rewrite (proj2 (reg_put _ d x' c)), P2. apply Hc.
  - both d; [done|by eapply dir_keep_cut].
Qed.

Lemma run_on_direction {A} d (f : DirectionContext -> M (RState H W) Infallible (A * DirectionContext)) c s P :
  ends (f (context d c)) s P ->
  ends (on_direction d f c) s (fun r s' => exists x', r.2 = put_context d x' c /\ P (r.1, x') s').
Proof. intros Hf. eapply runs_bind; [exact Hf|]. intros [a x'] s' _ HQ. apply runs_ret; [done|]. by exists x'. Qed.

Lemma forwarded_local d c s r s' :
  forwarded_post emits (context d c) s r s' -> exists es, did emits es s s' /\ fins_on (to_fd d c) es = 0%nat /\
    local (from_fd d c) (to_fd d c) es.
Proof. destruct r. intros (_&_&es&Hd&Hf&Hr&Hs&_). exists es. split_and!; [done..|]. by split. Qed.

(** A settle after a stretch that only advanced the flow. *)
Lemma settled_post d c x0 x2 es es2 o s s1 s2 :
  conn_ok c -> same_ends (context d c) x0 -> moved emits (mine c) es s s1 -> moved emits (mine c) es2 s1 s2 ->
  local (from_fd d c) (to_fd d c) es -> fins_on (to_fd d c) es = 0%nat ->
  advanced (from_fd d c) (to_fd d c) (flow_of d c) (dc_flow x0) es ->
  (fl_state (flow_of d c) = Done -> es = [] /\ dc_flow x0 = flow_of d c) ->
  (fl_state (dc_flow x0) = Done -> fl_state (flow_of d c) = Done) ->
  (fl_state (dc_flow x0) = Open -> fl_state (flow_of d c) = Open) ->
  settled x0 es2 x2 -> on_dir_post d c s (o, put_context d x2 c) s2.
Proof.
  intros Hc Hs Hm Hm2 Hl Hfin Ha Hdone Hd0 Ho0 Hset. pose proof Hs as (S1&S2&S3&S4). exists x2, (es ++ es2).
  assert (Hs2 : same_ends (context d c) x2) by (by destruct Hset as [[_ ->]|(_&_&_&->)]).
  assert (Hl2 : local (from_fd d c) (to_fd d c) (es ++ es2)).
  { apply local_app; [done|]. destruct Hset as [[-> _]|(->&_)]; [apply local_nil|]. rewrite S3. split; [done..|].
    intros fd Hfd. unfold fins_on. cbn. by rewrite (proj2 (Z.eqb_neq _ _)) by (unfold to_fd in Hfd; congruence). }
  assert (Hk : dir_keep (from_fd d c) (to_fd d c) (flow_of d c) (dc_flow x2) (es ++ es2)).
  { destruct (decide (fl_state (flow_of d c) = Done)) as [Hd|Hd].
    - destruct (Hdone Hd) as [-> Hf]. destruct Hset as [[-> ->]|(_&Hst&_)]; [|congruence].
      rewrite Hf. split; [apply advanced_refl, Hc|by left|done].
    - unfold to_fd in *. rewrite <- S3. eapply settled_keep; rewrite ?S3; try done; [by apply (co_ends _ d)|apply Ha]. }
  split_and!; [done..|by eapply moved_trans|done|]. cbn. destruct o; [|by eapply dir_keep_cut].
  split; [done|]. destruct Hset as [[_ ->]|(_&_&He&->)]; cbn; [split; [left; auto|auto]|split; [right|done]].
  apply nil_length_inv. destruct (av_wf _ _ _ _ _ Ha) as [_ _ [Hb _]]. rewrite (length_queue _ Hb).
  apply Nat.eqb_eq in He. unfold sb_len. lia.
Qed.

(** The branch of [forward] for an open flow. *)
Lemma run_forward_open d c s :
  conn_ok c -> reactor_ok (rs_reactor s) -> fl_state (flow_of d c) = Open ->
  ends ('(forwarded, c) ← on_direction d ctx_forward c;
        '(outcome, c) ← match forwarded with
                        | Failed => mret (Close, c)
                        | SourceEof => on_direction d half_close c
                        | StillOpen => outcome ← sync_write_interest (context d c); mret (outcome, c)
                        end;
        mret (close_if_complete c outcome, c)) s (on_dir_post d c s).
Proof.
  intros Hc Hok Hopen. destruct (reverse_ends d c) as (_&_&R1&R2).
  destruct (from_reg d c) as [rf|] eqn:Ef; [|by destruct (co_gone _ Hc d Ef)].
  destruct (to_reg d c) as [rt|] eqn:Et; [|destruct (co_gone _ Hc (reverse d)) as [_ Hd]; [congruence|]; rewrite reverse_reverse in Hd; congruence].
  pose proof (co_regs _ Hc _ _ Ef) as Hfi. pose proof (co_to_reg _ _ _ Hc Et) as Hti.
  pose proof (co_ends _ d Hc) as Hne.
  eapply runs_bind; [apply run_on_direction; apply (run_ctx_forward Htyped emits Hob); rewrite flow_context; apply Hc|].
  intros [fwd c1] s1 _ (x1&E&Hpost). cbn [fst snd] in E, Hpost. subst c1.
  eapply runs_bind with (P := on_dir_post d c s).
  2:{ intros [o c'] s' _ Hp. apply runs_ret; [done|]. by apply on_dir_complete. }
  destruct Hpost as (Hs&Hst&es&Hd&Hfin&Hr&Hsn&Ho). rewrite flow_context in *.
  assert (Hl : local (from_fd d c) (to_fd d c) es) by by split.
  pose proof (did_moved _ (mine c) _ _ _ Hok Hd) as Hm. destruct fwd.
  - pose proof (context_put d x1 c Hs) as Ex. rewrite Ex. pose proof Hs as (S1&S2&S3&S4).
    eapply runs_bind; [apply (run_sync _ Hob _ rt); [apply Hm|by rewrite S4|done]|]. intros o s2 _ Hm2. apply runs_ret; [done|].
    exists x1, es. split_and!; [done..| |done|].
    + rewrite <- (app_nil_r es). eapply moved_trans; [exact Hob|exact Hm|]. eapply moved_weaken; [|exact Hm2].
      intros k <-. by eapply mine_to.
    + assert (Hk : dir_keep (from_fd d c) (to_fd d c) (flow_of d c) (dc_flow x1) es) by (split; [done|left; apply Hfin|congruence]).
      cbn. destruct o; [split; [done|split; intros; congruence]|by eapply dir_keep_cut].
  - eapply runs_mono; [apply run_on_direction|].
    { pose proof (context_put d x1 c Hs) as Ex. rewrite Ex. pose proof Hs as (S1&S2&S3&S4).
      apply (run_half_close _ Hob _ rf rt); [apply Hm|by rewrite S2|by rewrite S4|done..]. }
    intros [o c2] s2 _ (x2&E2&es2&Hm2&Ho2). cbn [fst snd] in E2, Ho2. rewrite put_put in E2. subst c2.
    assert (Hm2' : moved emits (mine c) es2 s1 s2).
    { eapply moved_weaken; [|exact Hm2]. intros k [-> | ->]; [by eapply mine_from|by eapply mine_to]. }
    assert (Hset : settled (set_flow (with_state SourceClosed (dc_flow x1)) x1) es2 x2 -> on_dir_post d c s (o, put_context d x2 c) s2).
    { intros Hset. eapply (settled_post d c (set_flow (with_state SourceClosed (dc_flow x1)) x1) x2 es es2); [exact Hc|exact Hs|exact Hm|exact Hm2'|exact Hl|apply Hfin| |congruence|done|done|exact Hset].
      cbn [set_flow dc_flow]. rewrite <- (app_nil_r es). eapply advanced_trans; [exact Ho|].
      apply advanced_idle; [apply Ho|done..]. }
    destruct o; [by apply Hset|]. destruct Ho2 as [[-> ->]|Ho2]; [|by apply Hset].
    exists x1, (es ++ []). split_and!; [done..|by eapply moved_trans|by apply local_app|]. rewrite app_nil_r.
    split; [by eapply advanced_is_cut|left; apply Hfin|cbn; congruence].
  - apply runs_ret; [done|]. exists x1, es. split_and!; [done..|]. split; [done|left; apply Hfin|congruence].
Qed.

(** A writable edge. *)
Lemma run_write_direction d c s :
  conn_ok c -> reactor_ok (rs_reactor s) -> to_reg d c <> None ->
  ends ('(outcome, c) ← on_direction d drain c;
        match outcome with
        | Close => mret (Close, c)
        | Keep => '(outcome, c) ← on_direction d settle c; mret (close_if_complete c outcome, c)
        end) s (on_dir_post d c s).
Proof.
  intros Hc Hok Hto. destruct (to_reg d c) as [rt|] eqn:Et; [|done]. pose proof (co_to_reg _ _ _ Hc Et) as Hti.
  eapply runs_bind; [apply run_on_direction; apply (run_drain Htyped emits Hob); rewrite flow_context; apply Hc|].
  intros [o c1] s1 _ (x1&E&Hpost). cbn [fst snd] in E, Hpost. subst c1. destruct Hpost as (Hs&Hst&es&Hd&Honly&Hempty&Ha).
  rewrite flow_context in *. pose proof Hs as (S1&S2&S3&S4). fold (to_fd d c) in Honly, Ha. fold (from_fd d c) in Ha.
  destruct (only_sent_quiet _ _ Honly) as (Hnr&Hnf&Hns). assert (Hl : local (from_fd d c) (to_fd d c) es) by by split.
  pose proof (did_moved _ (mine c) _ _ _ Hok Hd) as Hm.
  assert (Hdone : fl_state (flow_of d c) = Done -> es = [] /\ dc_flow x1 = flow_of d c).
  { intros Hf. destruct (co_done _ Hc d Hf) as [Hq|]; [|congruence].
    destruct Hempty as [-> ->]; [|by rewrite flow_context]. destruct (fo_send _ (co_flows _ Hc d)) as [Hb _].
    apply (f_equal length) in Hq. rewrite (length_queue _ Hb) in Hq. apply Nat.eqb_eq. destruct Hb. unfold sb_len in Hq. cbn in Hq. lia. }
  destruct o.
  - eapply runs_bind; [apply run_on_direction; rewrite (context_put d x1 c Hs); apply (run_settle _ Hob _ rt); [apply Hm|by rewrite S4|done]|].
    intros [o c2] s2 _ (x2&E2&es2&Hm2&Hset). cbn [fst snd] in E2, Hset. rewrite put_put in E2. subst c2.
    apply runs_ret; [done|]. apply on_dir_complete. eapply (settled_post d c x1 x2 es es2); try done; [|by rewrite Hst..].
    eapply moved_weaken; [|exact Hm2]. intros k <-. by eapply mine_to.
  - apply runs_ret; [done|]. exists x1, es. split_and!; [done..|]. split; [by eapply advanced_is_cut|by left|].
    intros Hf. destruct (Hdone Hf) as [-> _]. done.
Qed.

(** ** A peer that hung up *)

Lemma abandon_facts d c :
  same_ends {| dc_from := dc_from (context d c); dc_from_reg := None; dc_to := dc_to (context d c); dc_to_reg := dc_to_reg (context d c);
               dc_flow := dc_flow (context d c); dc_learned_rest := None; dc_deadline := 0 |} (context d (abandon d c)) /\
  flow_of d (abandon d c) = flow_of d c /\ flow_of (reverse d) (abandon d c) = with_state Done (flow_of (reverse d) c) /\
  from_reg d (abandon d c) = None /\ from_reg (reverse d) (abandon d c) = from_reg (reverse d) c /\
  tcp_fd (cn_client (abandon d c)) = tcp_fd (cn_client c) /\ tcp_fd (cn_device (abandon d c)) = tcp_fd (cn_device c).
Proof. by destruct d. Qed.

Lemma distinct_regs d c rf rt : conn_ok c -> from_reg d c = Some rf -> to_reg d c = Some rt -> rf <> rt.
Proof.
  intros Hc Hf Ht ->. destruct d; unfold from_reg, to_reg in *; cbn in *; [by apply (co_distinct _ Hc rt)|].
  by apply (co_distinct _ Hc rt).
Qed.

(** The abandoned connection, with whatever settling did to the live flow. *)
Lemma peer_gone_post d c o x2 es rf rt s s' :
  conn_ok c -> fl_state (flow_of d c) <> Open -> from_reg d c = Some rf -> to_reg d c = Some rt ->
  settled (context d (abandon d c)) es x2 ->
  reactor_ok (rs_reactor s') -> undisturbed (mine c) (rs_reactor s) (rs_reactor s') -> emits (rs_world s) es (rs_world s') ->
  (is_Some (get (regs s) rt) -> is_Some (get (regs s') rt)) -> (o = Keep \/ steady (W:=W) -> get (regs s') rf = None) ->
  edge_post c s (o, put_context d x2 (abandon d c)) s'.
Proof.
  intros Hc Hst Ef Et Hset Hok Hu He Hkept Hgone. destruct (abandon_facts d c) as ((A1&A2&A3&A4)&F1&F2&G1&G2&T1&T2).
  cbn in A1, A2, A3, A4. destruct (reverse_ends d c) as (R1&R2&R3&R4). set (c2 := put_context d x2 (abandon d c)).
  destruct (flow_put d x2 (abandon d c)) as [P1 P2]. rewrite F2 in P2. fold c2 in P1, P2.
  assert (Hr : from_reg d c2 = None /\ from_reg (reverse d) c2 = Some rt /\ to_reg d c2 = Some rt /\ to_reg (reverse d) c2 = None).
  { subst c2. rewrite !(proj1 (reg_put _ _ _ _)), !(proj2 (reg_put _ _ _ _)), G1, G2, R3. by destruct d. }
  destruct Hr as (H1r&H2r&H3r&H4r).
  assert (Hlocal : local (from_fd d c) (to_fd d c) es).
  { destruct Hset as [[-> _]|(->&_)]; [apply local_nil|]. rewrite A3. split; [done..|].
    intros fd Hfd. unfold fins_on. cbn. by rewrite (proj2 (Z.eqb_neq _ _)) by (unfold to_fd in Hfd; congruence). }
  assert (Hk : dir_keep (from_fd d c) (to_fd d c) (flow_of d c) (dc_flow x2) es /\
               (fl_state (dc_flow x2) <> Open) /\ (fl_state (dc_flow x2) = Done -> queue (fl_send (dc_flow x2)) = [])).
  { assert (Hf : dc_flow (context d (abandon d c)) = flow_of d c) by (by rewrite flow_context).
    destruct (decide (fl_state (flow_of d c) = Done)) as [Hd|Hd].
    - destruct Hset as [[-> ->]|(_&Hs&_)]; [|rewrite Hf in Hs; congruence]. rewrite Hf.
      split; [split; [apply advanced_refl, Hc|by left|done]|]. split; [done|].
      intros _. destruct (co_done _ Hc d Hd) as [|]; [done|congruence].
    - assert (Hset' : dir_keep (from_fd d c) (to_fd d c) (flow_of d c) (dc_flow x2) ([] ++ es)).
      { unfold to_fd. rewrite <- A3. apply settled_keep; rewrite ?A3, ?Hf; try done; [by apply (co_ends _ d)|apply advanced_refl, Hc|apply (fo_send _ (co_flows _ Hc d))]. }
      split; [done|]. destruct Hset as [[-> ->]|(_&_&Hq&->)]; cbn; rewrite Hf in *; [done|]. split; [done|]. intros _.
      destruct (fo_send _ (co_flows _ Hc d)) as [Hb _]. apply nil_length_inv. rewrite (length_queue _ Hb).
      apply Nat.eqb_eq in Hq. unfold sb_len. lia. }
  destruct Hk as (Hk&Hno&Hq).
  assert (Hk2 : dir_keep (to_fd d c) (from_fd d c) (flow_of (reverse d) c) (with_state Done (flow_of (reverse d) c)) es).
  { pose proof (co_ends _ d Hc) as Hne. destruct Hlocal as [L1 L2 L3].
    split; [apply advanced_idle; [apply Hc|by apply L1|by apply L2|done]|left; by apply L3|].
    intros Hd. split_and!; [destruct (flow_of (reverse d) c); cbn in *; by subst|by apply L1|by apply L2|by apply L3]. }
  split; cbn [fst snd]; [by rewrite <- T1; destruct d|by rewrite <- T2; destruct d|done|done| |].
  { both d.
    - right. split; [done|]. rewrite Ef. intros rk [= <-] Hs. apply Hgone. by right.
    - left. rewrite R3, Et. split; [done|]. by intros rk [= <-]. }
  exists es. split; [done|].
  assert (Hdirs : forall d', dir_keep (from_fd d' c) (to_fd d' c) (flow_of d' c) (flow_of d' c2) es).
  { both d; [by rewrite P1|by rewrite P2, R1, R2]. }
  destruct o; [|intros d'; by eapply dir_keep_cut]. split; [|done]. split.
  - pose proof (co_fds _ Hc). subst c2. destruct d; cbn; congruence.
  - intros d'. apply (Hdirs d').
  - both d; intros rk; [by rewrite H1r|rewrite H2r; intros [= <-]; by eapply co_to_reg].
  - intros rk. destruct d; unfold from_reg in *; cbn in H1r, H2r |- *; congruence.
  - both d; [intros _; rewrite P1, P2; by split|by rewrite H2r].
  - both d; [rewrite P1; intros Hd; left; auto|right; done].
Qed.

Lemma run_peer_gone d c s :
  conn_ok c -> reactor_ok (rs_reactor s) -> fl_state (flow_of d c) <> Open -> is_Some (from_reg d c) -> is_Some (to_reg d c) ->
  ends (peer_gone d c) s (edge_post c s).
Proof.
  intros Hc Hok Hst [rf Ef] [rt Et]. pose proof (co_regs _ Hc _ _ Ef) as Hfi. pose proof (co_to_reg _ _ _ Hc Et) as Hti.
  pose proof (distinct_regs _ _ _ _ Hc Ef Et) as Hne. destruct (abandon_facts d c) as ((A1&A2&A3&A4)&F1&_). cbn in A1, A2, A3, A4.
  unfold peer_gone. eapply run_lift_bind; [unfold to_reg in Et; by rewrite Et|]. eapply run_lift_bind; [unfold from_reg in Ef; by rewrite Ef|].
  cbv zeta. assert (Hself : put_context d (context d (abandon d c)) (abandon d c) = abandon d c) by (by destruct d).
  assert (Hset0 : settled (context d (abandon d c)) [] (context d (abandon d c))) by by left.
  assert (Hm1 : forall k, rt = k -> mine c k) by (intros k <-; by eapply mine_to).
  assert (Hm2 : forall k, rf = k -> mine c k) by (intros k <-; by eapply mine_from).
  eapply runs_bind; [by apply (run_interest _ Hob false)|]. intros r s1 _ [[M1 M2 M3 M4] Hsteady].
  apply (undisturbed_weaken _ _ _ _ Hm1) in M2. specialize (M3 rt Hti). destruct r as [e|b].
  { apply runs_ret; [done|]. rewrite <- Hself. eapply peer_gone_post; try done. by intros [|]. }
  pose proof (run_unwatch rf s1 M1 Hfi) as Hu. pose proof (unwatch_emits _ Hob rf s1) as He.
  eapply runs_bind with (P := fun _ s2 => touching rf s1 s2 /\ get (regs s2) rf = None /\ emits (rs_world s1) [] (rs_world s2)).
  { unfold runs, attempt. destruct (unwatch rf s1) as [[a|e|] s2]; [by destruct Hu as (_&?&?)..|by destruct Hu]. }
  intros r s2 _ ([Hok2 Hu2]&Hnone&He2).
  assert (Hk2 : is_Some (get (regs s) rt) -> is_Some (get (regs s2) rt)).
  { intros Hs. by rewrite (un_regs _ _ _ Hu2 rt Hti Hne); auto. }
  apply (undisturbed_weaken _ _ _ _ Hm2) in Hu2. pose proof (undisturbed_trans _ _ _ _ M2 Hu2) as Hu12.
  pose proof (ob_trans _ Hob _ _ _ _ _ M4 He2) as He12. cbn in He12. destruct r as [e|b'].
  { apply runs_ret; [done|]. rewrite <- Hself. eapply peer_gone_post; done. }
  eapply runs_bind; [apply run_on_direction; apply (run_settle _ Hob _ rt); [done|by rewrite A4|done]|].
  intros [o c3] s3 _ (x3&E&es&[N1 N2 N3 N4]&Hset). cbn [fst snd] in E, Hset. subst c3. apply runs_ret; [done|].
  apply (undisturbed_weaken _ _ _ _ Hm1) in N2. eapply peer_gone_post; try done.
  - by eapply undisturbed_trans.
  - change es with ([] ++ es). by eapply (ob_trans _ Hob).
  - intros Hs. apply N3; auto.
  - intros _. destruct (get (regs s3) rf) as [g'|] eqn:Eg; [|done]. destruct (un_mine _ _ _ N2 rf g' Hfi Eg) as (g&Hg&_). congruence.
Qed.

(** ** The edges *)

(** Connections that differ in the state of the connect and the deadline only. *)
Record same_splice (c c1 : Connection) : Prop := {
  ss_client : cn_client c1 = cn_client c;
  ss_device : tcp_fd (cn_device c1) = tcp_fd (cn_device c);
  ss_regs : cn_client_reg c1 = cn_client_reg c /\ cn_device_reg c1 = cn_device_reg c;
  ss_flows : cn_c2u c1 = cn_c2u c /\ cn_u2c c1 = cn_u2c c;
}.
Lemma same_splice_facts c c1 d : same_splice c c1 ->
  from_fd d c1 = from_fd d c /\ to_fd d c1 = to_fd d c /\ from_reg d c1 = from_reg d c /\ to_reg d c1 = to_reg d c /\
  flow_of d c1 = flow_of d c.
Proof. intros [E1 E2 [E3 E4] [E5 E6]]. destruct d; unfold from_fd, to_fd, from_reg, to_reg; cbn; rewrite ?E1; done. Qed.
Lemma same_splice_ok c c1 : same_splice c c1 -> conn_ok c -> conn_ok c1.
Proof.
  intros Hs [A1 A2 A3 A4 A5 A6]. pose proof (fun d => same_splice_facts _ _ d Hs) as Hf. destruct Hs as [E1 E2 [E3 E4] _].
  split; [congruence|..|rewrite E3, E4; exact A4| |]; intros d; destruct (Hf d) as (_&_&F3&F4&F5);
    rewrite ?F3, ?F4, ?F5; try done; [apply A3| |apply A6].
  destruct (Hf (reverse d)) as (_&_&_&_&F6). rewrite F6. apply A5.
Qed.
Lemma edge_same c c1 s s1 r s' :
  same_splice c c1 -> did emits [] s s1 -> edge_post c1 s1 r s' -> edge_post c s r s'.
Proof.
  intros Hs [Er He] [A1 A2 A3 A4 A5 (es&A6&A7)]. pose proof (fun d => same_splice_facts _ _ d Hs) as Hf.
  destruct Hs as [E1 E2 [E3 E4] _]. split; [congruence..|done| | |].
  - rewrite <- Er. eapply undisturbed_weaken; [|exact A4]. unfold mine. intros k. by rewrite E3, E4.
  - intros d. specialize (A5 d). destruct (Hf d) as (_&_&F3&_). unfold side_step in *. by rewrite F3, Er in A5.
  - exists es. split; [change es with ([] ++ es); by eapply (ob_trans _ Hob)|].
    destruct (r.1); [destruct A7 as [A7 A8]; split; [done|]|]; intros d; destruct (Hf d) as (F1&F2&_&_&F5); rewrite <- F1, <- F2, <- F5; auto.
Qed.
Lemma edge_close c s s' : conn_ok c -> reactor_ok (rs_reactor s) -> did emits [] s s' -> edge_post c s (Close, c) s'.
Proof.
  intros Hc Hok [Er He]. split; rewrite ?Er; [done..|apply undisturbed_refl| |].
  - intros d. left. split; [done|]. by rewrite Er.
  - exists []. split; [done|]. intros d. eapply dir_keep_cut, dir_keep_idle; [apply Hc|apply local_nil|by apply co_ends].
Qed.

Lemma run_connect_first b c k s :
  conn_ok c -> reactor_ok (rs_reactor s) ->
  (forall c1 s1, conn_ok c1 -> same_splice c c1 -> rs_reactor s1 = rs_reactor s -> ends (k c1) s1 (edge_post c1 s1)) ->
  ends (connect_first b c k) s (edge_post c s).
Proof.
  intros Hc Hok Hk. unfold connect_first.
  assert (Hrefl : same_splice c c) by by split.
  destruct (b && _); [|by apply Hk].
  eapply runs_bind with (P := fun r s1 => did emits [] s s1 /\ (r = (Close, c) \/ exists c1, r = (Keep, c1) /\ same_splice c c1)).
  { unfold finish_device_connect. eapply runs_bind with (P := fun r s1 => did emits [] s s1 /\ match r with inr x => tcp_fd x = tcp_fd (cn_device c) | inl _ => True end).
    { apply run_ask. intros w <-. unfold finish_connect, mbind, Sys_bind.
      pose proof (ob_error _ Hob (tcp_fd (cn_device c)) (rs_world s)) as He. destruct (so_error _ _) as [[e|err] w]; [done|].
      destruct (negb (err =? 0)); done. }
    intros [e|x] s1 _ [Hd Hx]; [apply runs_ret; [done|]; split; [done|by left]|].
    eapply runs_bind; [by apply run_now|]. intros t s2 _ Hd2. apply runs_ret; [done|].
    split; [by apply (did_trans _ Hob _ [] _ [] _ Hd Hd2)|]. right. eexists. split; [done|]. by split. }
  intros r s1 _ [Hd [->|(c1&->&Hs)]]; [apply runs_ret; [done|]; by apply edge_close|].
  eapply runs_mono; [apply Hk; [by eapply same_splice_ok|done|apply Hd]|]. intros r s' _. by apply edge_same.
Qed.

(** A readable edge of a watched side. *)
Lemma run_readable fd c s :
  conn_ok c -> reactor_ok (rs_reactor s) -> is_Some (from_reg (read_side fd c) c) ->
  ends (connection_readable fd c) s (edge_post c s).
Proof.
  intros Hc Hok Hreg. apply run_connect_first; [done..|]. fold (read_side fd c). set (d := read_side fd c) in *.
  intros c1 s1 Hc1 Hs Er. destruct (same_splice_facts _ _ d Hs) as (_&_&F3&F4&F5).
  rewrite <- F3 in Hreg. assert (Hok1 : reactor_ok (rs_reactor s1)) by (by rewrite Er).
  case_bool_decide as Hst; cbn [negb].
  - assert (Hto : to_reg d c1 <> None).
    { intros Hn. destruct (reverse_ends d c1) as (_&_&R1&_). destruct (co_gone _ Hc1 (reverse d)) as [_ Hd]; [congruence|].
      rewrite reverse_reverse in Hd. congruence. }
    eapply runs_mono; [by apply run_forward_open|]. intros r s' _. by apply on_dir_edge.
  - destruct (dc_to_reg (context d c1)) as [rt|] eqn:Et.
    + apply run_peer_gone; [done..|]. unfold to_reg. by rewrite Et.
    + apply runs_ret; [done|]. apply edge_close; [done..|by apply did_nil].
Qed.

(** A writable edge of a watched side. *)
Lemma run_writable fd c s :
  conn_ok c -> reactor_ok (rs_reactor s) -> is_Some (to_reg (write_side fd c) c) ->
  ends (connection_writable fd c) s (edge_post c s).
Proof.
  intros Hc Hok Hreg. apply run_connect_first; [done..|]. fold (write_side fd c). set (d := write_side fd c) in *.
  intros c1 s1 Hc1 Hs Er. destruct (same_splice_facts _ _ d Hs) as (_&_&F3&F4&F5). rewrite <- F4 in Hreg.
  assert (Hto : to_reg d c1 <> None) by (by destruct Hreg as [? ->]).
  eapply runs_mono; [apply run_write_direction; [done|by rewrite Er|done]|]. intros r s' _. by apply on_dir_edge.
Qed.
End connection.
