(* ===== verification/DialSplice.v ===== *)
(** The splice end to end: over every sequence of edges, what each side of a
    proxied connection was sent is what the framer makes of what the other side
    sent, in order, and its FIN follows the last byte. *)

From S2P Require Import Prelude Effect Text Addr Names Interface Kernel StreamBuffer Http Framing FramingSpec.
From S2P Require Import Arena Reactor ReactorSpec Tcp DialConnection DialConnectionSpec DialConnectionInv.

Local Open Scope Z_scope.

(** ** The edges of a connection *)

Inductive Edge : Type := Readable (d : Direction) | Writable (d : Direction).

Section edges.
Context {H W : Type} `{Kernel W} `{Poller W} `{Sockets W}.

(** An edge of a side's socket, which the reactor delivers only while its
    registration stands. *)
Definition deliver (e : Edge) (c : Connection) : M (RState H W) Infallible (Outcome * Connection) :=
  match e with
  | Readable d => match from_reg d c with Some _ => connection_readable (from_fd d c) c | None => mret (Keep, c) end
  | Writable d => match to_reg d c with Some _ => connection_writable (to_fd d c) c | None => mret (Keep, c) end
  end.
Fixpoint deliver_all (es : list Edge) (c : Connection) : M (RState H W) Infallible (Outcome * Connection) :=
  match es with
  | [] => mret (Keep, c)
  | e :: es =>
      '(outcome, c) ← deliver e c;
      match outcome with Close => mret (Close, c) | Keep => deliver_all es c end
  end.
End edges.

(** ** The log of the socket calls *)

Section logging.
Context {W : Type} (P : Poller W) (S : Sockets W).

Definition quiet_call {A L} (m : W -> A * W) : W * L -> A * (W * L) := fun w => let '(r, w') := m w.1 in (r, (w', w.2)).
Definition noting {A} (note : A -> list Event) (m : Sys W A) : Sys (W * list Event) A := fun w =>
  let '(r, w') := m w.1 in (r, (w', w.2 ++ match r with inr a => note a | inl _ => [] end)).
Definition noted_poller : Poller (W * list Event) :=
  {| poll_add := fun fd k => quiet_call (poll_add fd k); poll_remove := fun fd => quiet_call (poll_remove fd);
     poll_set_interest := fun fd k r w => quiet_call (poll_set_interest fd k r w); poll_wait := fun t => quiet_call (poll_wait t) |}.
Definition noted_sockets : Sockets (W * list Event) :=
  {| sock_errnos := sock_errnos;
     sock_stream := quiet_call sock_stream;
     sock_bind := fun fd a => quiet_call (sock_bind fd a);
     sock_listen := fun fd n => quiet_call (sock_listen fd n);
     sock_name := fun fd => quiet_call (sock_name fd);
     sock_accept := fun fd => quiet_call (sock_accept fd);
     sock_cloexec_nonblock := fun fd => quiet_call (sock_cloexec_nonblock fd);
     sock_nodelay := fun fd => quiet_call (sock_nodelay fd);
     sock_bind_device := fun fd n => quiet_call (sock_bind_device fd n);
     sock_bound_if := fun fd i => quiet_call (sock_bound_if fd i);
     egress_ifindex := fun a => quiet_call (egress_ifindex a);
     sock_connect := fun fd dst => quiet_call (sock_connect fd dst);
     so_error := fun fd => quiet_call (so_error fd);
     sock_recv := fun fd n => noting (fun data => [Received fd data]) (sock_recv fd n);
     sock_send := fun fd data => noting (fun n => [Sent fd (take n data)]) (sock_send fd data);
     sock_writev := fun fd bufs => noting (fun n => [Sent fd (take n (concat bufs))]) (sock_writev fd bufs);
     sock_shutdown_write := fun fd w => (sock_shutdown_write fd w.1, w.2 ++ [Fin fd]);
     sock_shutdown := fun fd w => (sock_shutdown fd w.1, w.2 ++ [Shut fd]);
     getifaddrs := quiet_call getifaddrs |}.

Definition noted (w : W * list Event) (es : list Event) (w' : W * list Event) : Prop := w'.2 = w.2 ++ es.

Context (K : Kernel W).
Definition noted_kernel : Kernel (W * list Event) := observing K (fun _ _ l => l) (fun _ l => l) (fun _ l => l).

Lemma noted_observer : observer (H := noted_kernel) (H0 := noted_poller) (H1 := noted_sockets) noted.
Proof.
  assert (Hq : forall A (m : W -> A * W) w, noted w [] (quiet_call m w).2).
  { intros A m w. unfold quiet_call, noted. destruct (m w.1). cbn. by rewrite app_nil_r. }
  assert (Hn : forall A (note : A -> list Event) (m : Sys W A) w,
    noted w (match (noting note m w).1 with inr a => note a | inl _ => [] end) (noting note m w).2).
  { intros A note m w. unfold noting, noted. by destruct (m w.1). }
  split; try (intros; apply Hq); try (intros; apply Hn); try done.
  - intros w. unfold noted. by rewrite app_nil_r.
  - intros w1 es w2 es' w3 E1 E2. unfold noted in *. by rewrite E2, E1, app_assoc.
Qed.

Lemma noted_typed : sockets_typed W -> sockets_typed (H := noted_sockets) (W * list Event).
Proof.
  intros [T1 T2 T3 T4]. split; cbn; unfold quiet_call, noting.
  - intros fd w addr. specialize (T1 fd w.1 addr). by destruct (sock_name fd w.1).
  - intros fd n w data. specialize (T2 fd n w.1 data). by destruct (sock_recv fd n w.1).
  - intros fd data w n. specialize (T3 fd data w.1 n). by destruct (sock_send fd data w.1).
  - intros fd bufs w n. specialize (T4 fd bufs w.1 n). by destruct (sock_writev fd bufs w.1).
Qed.
End logging.

(** ** The history of a direction *)

(** The FIN of [to] follows everything the framer made of what came from [from],
    and nothing of this direction follows it. *)
Definition finished (from to : Z) (f0 : HttpFraming) (log : list Event) : Prop :=
  exists before after, log = before ++ Fin to :: after /\ fins_on to before = 0%nat /\ fins_on to after = 0%nat /\
    sent_on to after = [] /\ received_on from after = [] /\
    exists input rest f, received_on from before = input ++ rest /\ spliced f0 input (sent_on to before) f.

Record history (from to : Z) (f0 f : Flow) (log : list Event) : Prop := {
  hi_advanced : advanced from to f0 f log;
  hi_fin : fins_on to log = 0%nat \/ fl_state f = Done /\ finished from to (fl_framer f0) log;
}.
Record history_cut (from to : Z) (f0 : Flow) (log : list Event) : Prop := {
  hc_cut : cut_short from to f0 log;
  hc_fin : fins_on to log = 0%nat \/ finished from to (fl_framer f0) log;
}.

Lemma sent_on_fin fd fd' : sent_on fd [Fin fd'] = [].
Proof. done. Qed.
Lemma received_on_fin fd fd' : received_on fd [Fin fd'] = [].
Proof. done. Qed.

(** A FIN right after the last byte. *)
Lemma finished_now from to f0 f es es1 :
  queue (fl_recv f0) = [] -> queue (fl_send f0) = [] -> advanced from to f0 f es -> queue (fl_send f) = [] ->
  es = es1 ++ [Fin to] -> fins_on to es1 = 0%nat -> finished from to (fl_framer f0) es.
Proof.
  intros Hr0 Hs0 [_ (input&out&Hsp&Hr&Hs)] Hq -> Hf. exists es1, []. split_and!; [done..|].
  rewrite Hr0, received_on_app, received_on_fin, app_nil_r in Hr. rewrite Hs0, sent_on_app, sent_on_fin, Hq, !app_nil_r in Hs. cbn in Hr, Hs.
  exists input, (queue (fl_recv f)), (fl_framer f). split; [done|]. by rewrite <- Hs.
Qed.
(** What follows it does not concern this direction. *)
Lemma finished_later from to f0 log es :
  finished from to f0 log -> received_on from es = [] -> sent_on to es = [] -> fins_on to es = 0%nat -> finished from to f0 (log ++ es).
Proof.
  intros (before&after&->&F1&F2&S1&R1&Hsp) Hr Hs Hf. exists before, (after ++ es).
  rewrite fins_on_app, sent_on_app, received_on_app, F2, S1, R1, Hf, Hs, Hr. by rewrite <- app_assoc.
Qed.

Lemma history_keep from to f0 f f' log es :
  queue (fl_recv f0) = [] -> queue (fl_send f0) = [] ->
  history from to f0 f log -> dir_keep from to f f' es -> history from to f0 f' (log ++ es).
Proof.
  intros Hr0 Hs0 [Ha Hf] [Ka Kf Kd]. pose proof (advanced_trans _ _ _ _ _ _ _ Ha Ka) as Hall. split; [done|].
  destruct Hf as [Hf|[Hd Hfin]].
  - destruct Kf as [Kf|(Hd&Hq&es1&->&Hf1)]; [left; by rewrite fins_on_app, Hf, Kf|right; split; [done|]].
    rewrite app_assoc in *. eapply finished_now; [done|done|exact Hall|done|done|]. by rewrite fins_on_app, Hf, Hf1.
  - right. destruct (Kd Hd) as (->&?&?&?). split; [done|]. by apply finished_later.
Qed.
Lemma history_close from to f0 f log es :
  queue (fl_recv f0) = [] -> queue (fl_send f0) = [] ->
  history from to f0 f log -> dir_cut from to f es -> history_cut from to f0 (log ++ es).
Proof.
  intros Hr0 Hs0 [Ha Hf] [Kc Kf Kd]. split; [by eapply advanced_cut|]. destruct Hf as [Hf|[Hd Hfin]].
  - destruct Kf as [Kf|(f'&Ka&_&[Kf|(_&Hq&es1&->&Hf1)])]; [left; by rewrite fins_on_app, Hf, Kf..|right].
    pose proof (advanced_trans _ _ _ _ _ _ _ Ha Ka) as Hall. rewrite app_assoc in *.
    eapply finished_now; [done|done|exact Hall|done|done|]. by rewrite fins_on_app, Hf, Hf1.
  - right. destruct (Kd Hd) as (?&?&?). by apply finished_later.
Qed.
Lemma history_is_cut from to f0 f log : history from to f0 f log -> history_cut from to f0 log.
Proof. intros [Ha Hf]. split; [by eapply advanced_is_cut|]. destruct Hf as [|[]]; auto. Qed.

(** ** Every sequence of edges *)

Section splice.
Context {H W : Type} (K : Kernel W) (P : Poller W) (S : Sockets W) (Htyped : sockets_typed W).
Local Existing Instances noted_kernel noted_poller noted_sockets.
Implicit Types s : RState H (W * list Event).

Abbreviation ends := (runs (fun _ => True) (fun _ => False)).

Lemma run_deliver e c s : conn_ok c -> reactor_ok (rs_reactor s) -> ends (deliver e c) s (edge_post noted c s).
Proof.
  intros Hc Hok.
  assert (Hidle : edge_post noted c s (Keep, c) s).
  { split; [done..|apply undisturbed_refl|by intros d; left|]. exists []. split; [apply (did_nil _ (noted_observer P S K) s)|].
    split; [done|]. intros d. apply dir_keep_idle; [apply Hc|apply local_nil|by apply co_ends]. }
  pose proof (noted_typed S Htyped) as Ht. pose proof (noted_observer P S K) as Ho. destruct e as [d|d]; cbn [deliver].
  - destruct (from_reg d c) as [rk|] eqn:E; [|by apply runs_ret].
    apply (run_readable Ht noted Ho); [done..|]. by rewrite read_side_from, E.
  - destruct (to_reg d c) as [rk|] eqn:E; [|by apply runs_ret].
    apply (run_writable Ht noted Ho); [done..|]. by rewrite write_side_to, E.
Qed.

Lemma fds_kept c s r s' d : edge_post noted c s r s' -> from_fd d r.2 = from_fd d c /\ to_fd d r.2 = to_fd d c.
Proof. intros [E1 E2 _ _ _ _]. unfold from_fd, to_fd. by destruct d; cbn; rewrite E1, E2. Qed.

Lemma run_deliver_all (f0 : Direction -> Flow) es c s :
  (forall d, queue (fl_recv (f0 d)) = [] /\ queue (fl_send (f0 d)) = []) -> conn_ok c -> reactor_ok (rs_reactor s) ->
  (forall d, history (from_fd d c) (to_fd d c) (f0 d) (flow_of d c) (rs_world s).2) ->
  ends (deliver_all es c) s (fun r s' => reactor_ok (rs_reactor s') /\
    match r.1 with
    | Keep => forall d, history (from_fd d c) (to_fd d c) (f0 d) (flow_of d r.2) (rs_world s').2
    | Close => forall d, history_cut (from_fd d c) (to_fd d c) (f0 d) (rs_world s').2
    end).
Proof.
  intros H0. revert c s. induction es as [|e es IH]; intros c s Hc Hok Hh; cbn [deliver_all]; [by apply runs_ret|].
  eapply runs_bind; [by apply run_deliver|]. intros r s1 _ Hp. pose proof (fun d => fds_kept c s r s1 d Hp) as Hfd.
  destruct Hp as [_ _ Hok1 _ _ (evs&E&He)]. unfold noted in E. destruct r as [[|] c1]; cbn [fst snd] in *.
  - destruct He as [Hc1 He]. eapply runs_mono; [apply IH; [done..|]|].
    + intros d. destruct (Hfd d) as [-> ->]. rewrite E. destruct (H0 d). by eapply history_keep.
    + intros r s2 _ [Hok2 Hr]. split; [done|]. destruct (r.1); intros d; specialize (Hr d); destruct (Hfd d) as [F1 F2]; by rewrite F1, F2 in Hr.
  - apply runs_ret; [done|]. split; [done|]. intros d. rewrite E. destruct (H0 d). by eapply history_close.
Qed.

(** The flow and the framer a direction starts from. *)
Definition new_flow (device_endpoint rest_listener own_listener : SocketAddrV4) (d : Direction) : Flow :=
  match d with
  | ClientToDevice => flow_new Request {| rp_host := Some device_endpoint; rp_application_url := None; rp_location := None |}
  | DeviceToClient => flow_new Response {| rp_host := None; rp_application_url := Some rest_listener; rp_location := Some own_listener |}
  end.
Definition direction_framer (device_endpoint rest_listener own_listener : SocketAddrV4) (d : Direction) : HttpFraming :=
  match d with
  | ClientToDevice => framing_new Request {| rp_host := Some device_endpoint; rp_application_url := None; rp_location := None |}
  | DeviceToClient => framing_new Response {| rp_host := None; rp_application_url := Some rest_listener; rp_location := Some own_listener |}
  end.
Lemma new_flow_facts endpoint rest own d :
  queue (fl_recv (new_flow endpoint rest own d)) = [] /\ queue (fl_send (new_flow endpoint rest own d)) = [] /\
  flow_wf (new_flow endpoint rest own d) /\ fl_framer (new_flow endpoint rest own d) = direction_framer endpoint rest own d.
Proof. split; [by destruct d; apply with_capacity_wf|]. split; [by destruct d; apply with_capacity_wf|]. split; [destruct d; apply flow_new_wf|by destruct d]. Qed.

Definition source_fd (client device : TcpSocket) (d : Direction) : Z :=
  tcp_fd (match d with ClientToDevice => client | DeviceToClient => device end).
Definition target_fd (client device : TcpSocket) (d : Direction) : Z :=
  tcp_fd (match d with ClientToDevice => device | DeviceToClient => client end).

(** A new connection, watched, and the edges delivered to it. *)
Definition proxied (client device : TcpSocket) (client_reg device_reg : Key) (endpoint rest own : SocketAddrV4) (edges : list Edge)
    : M (RState H (W * list Event)) Infallible (Outcome * Connection) :=
  c ← connection_new client device endpoint rest own;
  deliver_all edges (attach_registrations client_reg device_reg c).

Lemma run_splice client device client_reg device_reg endpoint rest own edges (reactor : Reactor H) w :
  tcp_fd client <> tcp_fd device -> client_reg <> device_reg -> 0 <= index client_reg -> 0 <= index device_reg ->
  reactor_ok reactor ->
  ends (proxied client device client_reg device_reg endpoint rest own edges)
    {| rs_reactor := reactor; rs_world := (w, []) |}
    (fun r s' => reactor_ok (rs_reactor s') /\ forall d,
       match r.1 with
       | Keep => history (source_fd client device d) (target_fd client device d) (new_flow endpoint rest own d) (flow_of d r.2) (rs_world s').2
       | Close => history_cut (source_fd client device d) (target_fd client device d) (new_flow endpoint rest own d) (rs_world s').2
       end).
Proof.
  intros Hfd Hregs Hc Hd Hok.
  eapply runs_bind with (P := fun c s' => did noted [] {| rs_reactor := reactor; rs_world := (w, []) |} s' /\
    cn_client c = client /\ cn_device c = device /\ forall d, flow_of d c = new_flow endpoint rest own d).
  { eapply runs_bind; [apply (run_now noted (noted_observer P S K))|]. intros t s1 _ Hd1. apply runs_ret; [done|].
    split_and!; [done..|]. by intros []. }
  intros c s1 _ ([Er El]&Ec&Ed&Hf). unfold noted in El. cbn in El.
  set (c1 := attach_registrations client_reg device_reg c).
  assert (Hf1 : forall d, flow_of d c1 = new_flow endpoint rest own d) by (intros d; rewrite <- Hf; by destruct d).
  assert (Hends : forall d, from_fd d c1 = source_fd client device d /\ to_fd d c1 = target_fd client device d).
  { intros d. unfold from_fd, to_fd, source_fd, target_fd. by destruct d; cbn; rewrite Ec, Ed. }
  eapply runs_mono; [apply (run_deliver_all (new_flow endpoint rest own)); [intros d; by destruct (new_flow_facts endpoint rest own d) as (?&?&_)| |by rewrite Er|]|].
  - split.
    + cbn. by rewrite Ec, Ed.
    + intros d. rewrite Hf1. apply (new_flow_facts endpoint rest own d).
    + intros [] rk; unfold from_reg; cbn; by intros [= <-].
    + cbn. congruence.
    + by intros [].
    + intros d. rewrite Hf1. by destruct d.
  - intros d. rewrite Hf1, El. split; [apply advanced_refl; apply (new_flow_facts endpoint rest own d)|by left].
  - intros r s' _ [Hok' Hr]. split; [done|]. intros d. destruct (Hends d) as [E1 E2]. rewrite <- E1, <- E2.
    destruct r as [[] c']; apply Hr.
Qed.

(** C14. The DIAL proxy's splice is faithful.  From a new connection, over any
    sequence of readable and writable edges of its two sockets, whatever the
    kernel answers (short reads and writes, errors, hang-ups, a connect still
    in progress), nothing panics, the reactor stays consistent, and in each
    direction: what the destination was sent is a prefix of what the framer
    makes of a prefix of what the source sent, in order, without loss or
    repetition; while the connection lives the rest of it waits in a send
    buffer of at most 8 KiB behind at most 4 KiB of input; and there is at most
    one FIN, after every byte of that output, and nothing follows it. *)
Theorem splice_faithful client device client_reg device_reg endpoint rest own edges (reactor : Reactor H) w :
  tcp_fd client <> tcp_fd device -> client_reg <> device_reg -> 0 <= index client_reg -> 0 <= index device_reg ->
  reactor_ok reactor ->
  match proxied client device client_reg device_reg endpoint rest own edges
          {| rs_reactor := reactor; rs_world := (w, []) |} with
  | (Ok (outcome, c), s) =>
      reactor_ok (rs_reactor s) /\
      forall d, let log := (rs_world s).2 in
        let from := source_fd client device d in
        let to := target_fd client device d in
        let f0 := direction_framer endpoint rest own d in
        (exists input out f, spliced f0 input out f /\ input `prefix_of` received_on from log /\ sent_on to log `prefix_of` out) /\
        (fins_on to log = 0%nat \/ finished from to f0 log) /\
        (outcome = Keep -> exists input f, spliced f0 input (sent_on to log ++ queue (fl_send (flow_of d c))) f /\
           received_on from log = input ++ queue (fl_recv (flow_of d c)) /\
           (length (queue (fl_send (flow_of d c))) <= MAX_SEND)%nat /\ (length (queue (fl_recv (flow_of d c))) <= MAX_RECV)%nat)
  | _ => False
  end.
Proof.
  intros Hfd Hregs Hc Hd Hok.
  pose proof (run_splice client device client_reg device_reg endpoint rest own edges reactor w Hfd Hregs Hc Hd Hok) as Hrun.
  unfold runs in Hrun. match goal with |- match ?x with _ => _ end => destruct x as [[[o c]|[]|] s'] end; [|done].
  destruct Hrun as [_ [Hok' Hrun]]. split; [done|]. intros d. cbv zeta. specialize (Hrun d). cbn [fst snd] in Hrun.
  destruct (new_flow_facts endpoint rest own d) as (Hqr&Hqs&_&<-).
  assert (Hcut : history_cut (source_fd client device d) (target_fd client device d) (new_flow endpoint rest own d) (rs_world s').2).
  { destruct o; [by eapply history_is_cut|done]. }
  destruct Hcut as [(input&out&f&Hsp&Hi&Ho) Hfin]. rewrite Hqr in Hi. rewrite Hqs in Ho. split; [by exists input, out, f|]. split; [done|].
  intros ->. destruct Hrun as [[[_ [Hb1 Hc1] [Hb2 Hc2]] (input'&out'&Hsp'&Hi'&Ho')] _]. rewrite Hqr in Hi'. rewrite Hqs in Ho'.
  cbn in Hi', Ho'. exists input', (fl_framer (flow_of d c)). rewrite <- Ho'. split_and!; [done..| |].
  - rewrite (length_queue _ Hb2), <- Hc2. destruct Hb2. unfold sb_len. lia.
  - rewrite (length_queue _ Hb1), <- Hc1. destruct Hb1. unfold sb_len. lia.
Qed.
End splice.

(** ** Witness: a request, then the client's end *)

Definition still_poller (W : Type) : Poller W :=
  {| poll_add := fun _ _ w => (inr (), w); poll_remove := fun _ w => (inr (), w);
     poll_set_interest := fun _ _ _ _ w => (inr (), w); poll_wait := fun _ w => (inr [], w) |}.
Definition ex_socket (fd : Z) (connecting : bool) : TcpSocket :=
  {| tcp_fd := fd; tcp_local := {| sa_ip := Ipv4.new 192 168 0 2; sa_port := 40000 |}; tcp_connecting := connecting |}.
Definition ex_request : bytes := bs "GET / HTTP/1.1" ++ CRLF ++ bs "Host: 1.2.3.4:80" ++ CRLF ++ CRLF.
Definition ex_endpoint : SocketAddrV4 := {| sa_ip := Ipv4.new 10 0 0 5; sa_port := 8008 |}.
Definition ex_listener : SocketAddrV4 := {| sa_ip := Ipv4.new 192 168 0 2; sa_port := 40000 |}.
Definition ex_edges : list Edge :=
  [Readable ClientToDevice; Readable ClientToDevice; Writable ClientToDevice; Writable ClientToDevice; Writable ClientToDevice].
Definition ex_kernel : Kernel (() * list bytes) := observing quiet_kernel (fun _ _ l => l) (fun _ l => l) (fun _ l => l).
Abbreviation ex_splice :=
  (proxied (H := ()) ex_kernel (still_poller (() * list bytes)) scripted_sockets (ex_socket 10 false) (ex_socket 11 true)
    {| index := 0; generation := 0 |} {| index := 1; generation := 0 |} ex_endpoint ex_listener ex_listener ex_edges
    {| rs_reactor := reactor_new (); rs_world := ((), [ex_request], []) |}).

Lemma splice_faithful_witness :
  match ex_splice with
  | (_, s) =>
      sent_on 11 (rs_world s).2 = bs "GET / HTTP/1.1" ++ CRLF ++ bs "Host: 10.0.0.5:8008" ++ CRLF ++ CRLF /\
      finished 10 11 (direction_framer ex_endpoint ex_listener ex_listener ClientToDevice) (rs_world s).2
  end.
Proof.
  assert (E : match ex_splice with
    | (_, s) => fins_on 11 (rs_world s).2 = 1%nat /\
        sent_on 11 (rs_world s).2 = bs "GET / HTTP/1.1" ++ CRLF ++ bs "Host: 10.0.0.5:8008" ++ CRLF ++ CRLF
    end) by (vm_compute; split; reflexivity).
  pose proof (splice_faithful (H := ()) ex_kernel (still_poller (() * list bytes)) scripted_sockets scripted_typed
    (ex_socket 10 false) (ex_socket 11 true) {| index := 0; generation := 0 |} {| index := 1; generation := 0 |}
    ex_endpoint ex_listener ex_listener ex_edges (reactor_new ()) ((), [ex_request])
    ltac:(discriminate) ltac:(discriminate) (Z.le_refl 0) Z.le_0_1 reactor_new_ok) as H.
  revert E H. generalize ex_splice. intros [[[o c]|e|] s] [E1 E2] H; [|destruct H..].
  split; [exact E2|]. destruct H as [_ H]. destruct (H ClientToDevice) as (_&[Hz|Hfin]&_); [|exact Hfin].
  unfold target_fd in Hz. cbn [tcp_fd ex_socket] in Hz. rewrite E1 in Hz. discriminate Hz.
Defined.
