(* ===== verification/DialProxy.v ===== *)
(** The proxy of one DIAL device ([src/reflector/dial/proxy.rs]): its two
    listeners and its connections, a handler of the reactor. *)

From S2P Require Import Prelude Effect Text Addr Names Interface Kernel Multicast Http Framing.
From S2P Require Import Arena Reactor Tcp DialRegistry DialConnection.

Local Open Scope Z_scope.

Definition MAX_CONNECTIONS : nat := 64.

(** [Listener] *)
Inductive Listener : Type := Description | Rest.

Record DialDeviceProxy : Type := {
  px_key : option Key;
  px_target : Z;
  px_target_iface : option InterfaceName;
  px_desc : TcpSocket;
  px_desc_endpoint : SocketAddrV4;
  px_rest : TcpSocket;
  px_rest_endpoint : option SocketAddrV4;
  px_conns : Arena Connection;
}.

Definition set_key (k : option Key) (p : DialDeviceProxy) : DialDeviceProxy :=
  {| px_key := k; px_target := px_target p; px_target_iface := px_target_iface p; px_desc := px_desc p;
     px_desc_endpoint := px_desc_endpoint p; px_rest := px_rest p; px_rest_endpoint := px_rest_endpoint p; px_conns := px_conns p |}.
Definition set_rest_endpoint (e : option SocketAddrV4) (p : DialDeviceProxy) : DialDeviceProxy :=
  {| px_key := px_key p; px_target := px_target p; px_target_iface := px_target_iface p; px_desc := px_desc p;
     px_desc_endpoint := px_desc_endpoint p; px_rest := px_rest p; px_rest_endpoint := e; px_conns := px_conns p |}.
Definition set_conns (a : Arena Connection) (p : DialDeviceProxy) : DialDeviceProxy :=
  {| px_key := px_key p; px_target := px_target p; px_target_iface := px_target_iface p; px_desc := px_desc p;
     px_desc_endpoint := px_desc_endpoint p; px_rest := px_rest p; px_rest_endpoint := px_rest_endpoint p; px_conns := a |}.

(** [DialDeviceProxy::new] *)
Definition dial_proxy_new (target : Z) (target_iface : option InterfaceName) (desc : TcpSocket) (desc_endpoint : SocketAddrV4)
    (rest : TcpSocket) : DialDeviceProxy :=
  {| px_key := None; px_target := target; px_target_iface := target_iface; px_desc := desc; px_desc_endpoint := desc_endpoint;
     px_rest := rest; px_rest_endpoint := None; px_conns := arena_new |}.

(** [own_key] *)
Definition own_key (p : DialDeviceProxy) : res Infallible Key := expect (px_key p).

(** [Handler::adopt_key] and [next_deadline] *)
Definition proxy_adopt_key (key : Key) (p : DialDeviceProxy) : DialDeviceProxy := set_key (Some key) p.
Definition proxy_next_deadline (p : DialDeviceProxy) : option Z :=
  min_instant ((fun x => cn_deadline x.2) <$> iter (px_conns p)).

Section proxy.
Context {H W : Type} `{Kernel W} `{Poller W} `{Sockets W}.
Local Existing Instance sockets_tcp.

(** [accept_client] *)
Definition accept_client (what : Listener) (p : DialDeviceProxy) : M (RState H W) Infallible (option TcpSocket) :=
  let listener := match what with Description => px_desc p | Rest => px_rest p end in
  r ← ask (accept listener);
  match r with
  | inr None => mret None
  | inl _ =>
      key ← lift (own_key p);
      _ ← attempt (E' := IoError) (unregister key);
      mret None
  | inr (Some client) => mret (if (MAX_CONNECTIONS <=? length (iter (px_conns p)))%nat then None else Some client)
  end.

(** [close_conn] *)
Definition close_conn (conn_key : Key) (p : DialDeviceProxy) : M (RState H W) Infallible DialDeviceProxy :=
  '(conn, conns) ← lift (expect (remove (px_conns p) conn_key));
  _ ← teardown conn;
  mret (set_conns conns p).

(** [start_connection] *)
Definition start_connection (client : TcpSocket) (device_endpoint own_listener : SocketAddrV4) (p : DialDeviceProxy)
    : M (RState H W) Infallible DialDeviceProxy :=
  key ← lift (own_key p);
  let rest_listener := tcp_local (px_rest p) in
  r ← ask (connect device_endpoint (px_target p) (fun fd => confine fd device_endpoint (px_target_iface p)));
  match r with
  | inl _ => mret p
  | inr device =>
      conn ← connection_new client device device_endpoint rest_listener own_listener;
      '(conn_key, conns) ← lift (arena_insert (px_conns p) conn);
      let p := set_conns conns p in
      client_reg ← attempt (watch key (tcp_fd client) (to_u64 conn_key));
      match client_reg with
      | inl _ => close_conn conn_key p
      | inr client_reg =>
          device_reg ← attempt (watch key (tcp_fd device) (to_u64 conn_key));
          match device_reg with
          | inl _ =>
              _ ← attempt (E' := IoError) (unwatch client_reg);
              close_conn conn_key p
          | inr device_reg =>
              _ ← attempt (E' := IoError) (set_write_interest device_reg true);
              _ ← lift (expect (get (px_conns p) conn_key));
              mret (set_conns (get_mut (px_conns p) conn_key (attach_registrations client_reg device_reg)) p)
          end
      end
  end.

(** [accept_desc] and [accept_rest] *)
Definition accept_desc (p : DialDeviceProxy) : M (RState H W) Infallible DialDeviceProxy :=
  client ← accept_client Description p;
  match client with
  | Some client => start_connection client (px_desc_endpoint p) (tcp_local (px_desc p)) p
  | None => mret p
  end.
Definition accept_rest (p : DialDeviceProxy) : M (RState H W) Infallible DialDeviceProxy :=
  client ← accept_client Rest p;
  match client, px_rest_endpoint p with
  | None, _ => mret p
  | Some _, None => mret p
  | Some client, Some device => start_connection client device (tcp_local (px_rest p)) p
  end.

(** [adopt_rest_endpoint] *)
Definition adopt_rest_endpoint (endpoint : SocketAddrV4) (p : DialDeviceProxy) : M (RState H W) Infallible DialDeviceProxy :=
  if bool_decide (px_rest_endpoint p = Some endpoint) then mret p
  else if is_never_a_peer (V4 (sa_ip endpoint)) then mret p
  else
    ours ← names_this_host endpoint;
    mret (if ours : bool then p else set_rest_endpoint (Some endpoint) p).

(** [on_connection_readable] *)
Definition on_connection_readable (conn_key : Key) (fd : Z) (p : DialDeviceProxy) : M (RState H W) Infallible DialDeviceProxy :=
  match get (px_conns p) conn_key with
  | None => mret p
  | Some conn =>
      '(outcome, conn) ← connection_readable fd conn;
      let '(learned, conn) := take_learned_rest conn in
      let p := set_conns (get_mut (px_conns p) conn_key (fun _ => conn)) p in
      p ← match learned with Some endpoint => adopt_rest_endpoint endpoint p | None => mret p end;
      match outcome with Close => close_conn conn_key p | Keep => mret p end
  end.

(** [on_connection_writable] *)
Definition on_connection_writable (conn_key : Key) (fd : Z) (p : DialDeviceProxy) : M (RState H W) Infallible DialDeviceProxy :=
  match get (px_conns p) conn_key with
  | None => mret p
  | Some conn =>
      '(outcome, conn) ← connection_writable fd conn;
      let p := set_conns (get_mut (px_conns p) conn_key (fun _ => conn)) p in
      match outcome with Close => close_conn conn_key p | Keep => mret p end
  end.

(** [sweep] *)
Fixpoint close_all (keys : list Key) (p : DialDeviceProxy) : M (RState H W) Infallible DialDeviceProxy :=
  match keys with
  | [] => mret p
  | key :: keys => p ← close_conn key p; close_all keys p
  end.
Definition sweep (now : Z) (p : DialDeviceProxy) : M (RState H W) Infallible DialDeviceProxy :=
  let expired := List.filter (fun x => cn_deadline x.2 <=? now) (iter (px_conns p)) in
  close_all expired.*1 p.

(** The calls of [trait Handler]. *)
Definition proxy_on_readable (event : ReadyEvent) (p : DialDeviceProxy) : M (RState H W) Infallible DialDeviceProxy :=
  if ev_fd event =? tcp_fd (px_desc p) then accept_desc p
  else if ev_fd event =? tcp_fd (px_rest p) then accept_rest p
  else on_connection_readable (from_u64 (ev_user_data event)) (ev_fd event) p.
Definition proxy_on_writable (event : ReadyEvent) (p : DialDeviceProxy) : M (RState H W) Infallible DialDeviceProxy :=
  on_connection_writable (from_u64 (ev_user_data event)) (ev_fd event) p.
Definition proxy_on_deadline (now : Z) (p : DialDeviceProxy) : M (RState H W) Infallible DialDeviceProxy := sweep now p.
End proxy.
