(* ===== verification/DialProxySpec.v ===== *)
(** What a DIAL proxy guarantees: at most 64 connections, each watched under the
    proxy's key for as long as it lives, nothing watched that is not a listener
    or a live connection, and no call panics. *)

From S2P Require Import Prelude Effect Text Addr Names Interface Kernel Multicast StreamBuffer Http Framing.
From S2P Require Import FramingSpec Arena Reactor ReactorSpec Tcp DialRegistry DialConnection.
From S2P Require Import DialConnectionSpec DialConnectionInv DialProxy DialSplice.

Local Open Scope Z_scope.

Section invariant.
Context {H : Type}.

(** The sides of a connection are watched for it. *)
Definition sides_watched (k ck : Key) (c : Connection) (r : Reactor H) : Prop :=
  forall d rk, from_reg d c = Some rk -> 0 <= index rk /\
    exists g, get (rt_registrations r) rk = Some g /\ rg_handler g = k /\ rg_fd g = from_fd d c /\ rg_user_data g = to_u64 ck.

(** A listener stays watched, for reading, by a registration that is no
    connection's. *)
Definition listens (conns : Arena Connection) (k : Key) (r : Reactor H) (fd : Z) : Prop :=
  exists rk g, 0 <= index rk /\ get (rt_registrations r) rk = Some g /\
    (rg_handler g = k /\ rg_fd g = fd /\ rg_read g = true) /\
    forall ck c d, 0 <= index ck -> get conns ck = Some c -> from_reg d c <> Some rk.
Lemma listens_step conns conns' k r r' fd :
  (forall rk g, 0 <= index rk -> get (rt_registrations r) rk = Some g -> rg_handler g = k ->
     (forall ck c d, 0 <= index ck -> get conns ck = Some c -> from_reg d c <> Some rk) ->
     get (rt_registrations r') rk = Some g /\ forall ck c d, 0 <= index ck -> get conns' ck = Some c -> from_reg d c <> Some rk) ->
  listens conns k r fd -> listens conns' k r' fd.
Proof.
  intros Hs (rk&g&Hrk&Hg&Hx&Hn). destruct (Hs rk g Hrk Hg (proj1 Hx) Hn) as [Hg' Hn']. by exists rk, g.
Qed.

(** [but] is a connection that is closing. *)
Record proxy_inv (but : option Key) (k : Key) (p : DialDeviceProxy) (r : Reactor H) : Prop := {
  po_key : px_key p = Some k /\ 0 <= index k;
  po_arena : arena_wf (px_conns p);
  po_slots : (length (slots (px_conns p)) <= MAX_CONNECTIONS)%nat;
  po_conns : forall ck c, 0 <= index ck -> get (px_conns p) ck = Some c -> (but <> Some ck -> conn_ok c) /\ sides_watched k ck c r;
  po_regs : forall rk g, 0 <= index rk -> get (rt_registrations r) rk = Some g -> rg_handler g = k ->
    rg_write g = false /\ (rg_fd g = tcp_fd (px_desc p) \/ rg_fd g = tcp_fd (px_rest p)) \/
    exists ck c d, 0 <= index ck /\ get (px_conns p) ck = Some c /\ from_reg d c = Some rk;
  po_listen : listens (px_conns p) k r (tcp_fd (px_desc p)) /\ listens (px_conns p) k r (tcp_fd (px_rest p));
}.
Abbreviation proxy_ok := (proxy_inv None).

(** The connection behind a registration. *)
Lemma watched_by but k p r ck c d rk : proxy_inv but k p r -> 0 <= index ck -> get (px_conns p) ck = Some c -> from_reg d c = Some rk ->
  0 <= index rk /\ exists g, get (rt_registrations r) rk = Some g /\ rg_handler g = k /\ rg_fd g = from_fd d c /\ rg_user_data g = to_u64 ck.
Proof. intros Hp Hck Hc. destruct (po_conns _ _ _ _ Hp _ _ Hck Hc) as [_ Hs]. apply Hs. Qed.

Lemma to_u64_inj k k' : key_ok k -> key_ok k' -> to_u64 k = to_u64 k' -> k = k'.
Proof. intros Hk Hk' E. destruct (key_u64_roundtrip k Hk) as [_ <-]. destruct (key_u64_roundtrip k' Hk') as [_ <-]. by rewrite E. Qed.

(** No registration serves two connections. *)
Lemma watched_once but k p r ck c d ck' c' d' rk :
  proxy_inv but k p r -> 0 <= index ck -> 0 <= index ck' -> get (px_conns p) ck = Some c -> get (px_conns p) ck' = Some c' ->
  from_reg d c = Some rk -> from_reg d' c' = Some rk -> ck = ck'.
Proof.
  intros Hp Hck Hck' Hc Hc' E E'. destruct (watched_by _ _ _ _ _ _ _ _ Hp Hck Hc E) as (_&g&Hg&_&_&U).
  destruct (watched_by _ _ _ _ _ _ _ _ Hp Hck' Hc' E') as (_&g'&Hg'&_&_&U'). apply to_u64_inj; [..|congruence].
  - exact (get_key_ok _ _ _ (po_arena _ _ _ _ Hp) Hck Hc).
  - exact (get_key_ok _ _ _ (po_arena _ _ _ _ Hp) Hck' Hc').
Qed.

(** The proxy's invariant where another handler ran. *)
Lemma proxy_inv_others but k k' p r r' : k <> k' -> others k' r r' -> proxy_inv but k p r -> proxy_inv but k p r'.
Proof.
  intros Hne Ho [H1 H2 H3 H4 H5 H6]. split; [done..| | |].
  - intros ck c Hck Hc. destruct (H4 _ _ Hck Hc) as [Hok Hs]. split; [done|]. intros d rk E.
    destruct (Hs _ _ E) as (Hrk&g&Hg&Hh&?). split; [done|]. exists g. split; [|done]. apply (ot_regs _ _ _ Ho); [done|congruence|done].
  - intros rk g Hrk Hg Hh. apply H5; [done| |done]. apply (ot_regs _ _ _ Ho) in Hg; [done..|congruence].
  - destruct H6 as [Hd Hr]. split; [eapply listens_step; [|exact Hd]|eapply listens_step; [|exact Hr]];
      intros rk g Hrk Hg Hh Hn; (split; [apply (ot_regs _ _ _ Ho); [done|congruence|done]|done]).
Qed.
End invariant.
Abbreviation proxy_ok := (proxy_inv None).

Section operations.
Context {H W : Type} `{Kernel W} `{Poller W} `{Sockets W} (Htyped : sockets_typed W) (Hsteady : steady (W:=W)).
Implicit Types (s : RState H W) (p : DialDeviceProxy).

Abbreviation ends := (runs (fun _ => True) (fun _ => False)).
(** A run under the reactor's invariant, which panics only when an arena is used up. *)
Abbreviation keeping := (runs (fun s => reactor_ok (rs_reactor s)) (fun s => exhausted (rs_reactor s))).

Lemma ends_keeping {A} (m : M (RState H W) Infallible A) s (Q : A -> RState H W -> Prop) :
  ends m s Q -> (forall a s', Q a s' -> reactor_ok (rs_reactor s')) -> keeping m s Q.
Proof. unfold runs. destruct (m s) as [[a|[]|] s']; [|done]. intros [_ HQ] Hr. split; [by eapply Hr|done]. Qed.

(** The proxy's slot as it was. *)
Definition held (k : Key) (r r' : Reactor H) : Prop := he_handler <$> get (rt_handlers r') k = he_handler <$> get (rt_handlers r) k.
(** What a call on the proxy [k] does: it kept its invariant and left the others
    alone, or it removed itself. *)
Definition proxy_step (k : Key) s (p : DialDeviceProxy) s' : Prop :=
  others k (rs_reactor s) (rs_reactor s') /\ held k (rs_reactor s) (rs_reactor s') /\ proxy_ok k p (rs_reactor s').
Definition proxy_post (k : Key) s (p : DialDeviceProxy) s' : Prop :=
  others k (rs_reactor s) (rs_reactor s') /\
  (get (rt_handlers (rs_reactor s')) k = None \/ held k (rs_reactor s) (rs_reactor s') /\ proxy_ok k p (rs_reactor s')).
Lemma proxy_step_post k s p s' : proxy_step k s p s' -> proxy_post k s p s'.
Proof. intros (?&?&?). split; [done|]. by right. Qed.
Lemma proxy_step_refl k p s : reactor_ok (rs_reactor s) -> proxy_ok k p (rs_reactor s) -> proxy_step k s p s.
Proof. intros Hok Hp. split; [by apply others_refl|done]. Qed.
Lemma proxy_step_trans k s1 p1 s2 p2 s3 : proxy_step k s1 p1 s2 -> proxy_step k s2 p2 s3 -> proxy_step k s1 p2 s3.
Proof. intros (A1&A2&_) (B1&B2&B3). split; [by eapply others_trans|]. split; [unfold held in *; congruence|done]. Qed.
Lemma proxy_step_same k s p p' s' :
  rs_reactor s' = rs_reactor s -> reactor_ok (rs_reactor s) -> proxy_ok k p' (rs_reactor s) -> proxy_step k s p' s'.
Proof. intros E Hok Hp. unfold proxy_step, held. rewrite E. split; [by apply others_refl|done]. Qed.

(** The calls that leave the reactor alone. *)
Lemma run_ask_same {A} (m : Sys W A) s : ends (ask m) s (fun r s' => rs_reactor s' = rs_reactor s /\ r = (m (rs_world s)).1).
Proof. unfold ask, runs. by destruct (m (rs_world s)). Qed.
Lemma run_now_same s : ends now s (fun _ s' => rs_reactor s' = rs_reactor s).
Proof. unfold now, runs. by destruct (clock _). Qed.

(** [teardown]: neither side is watched any more. *)
Lemma run_unwatch_reg reg s :
  reactor_ok (rs_reactor s) -> (forall rk, reg = Some rk -> 0 <= index rk) ->
  ends (unwatch_reg reg) s (fun _ s' => reactor_ok (rs_reactor s') /\ undisturbed (fun rk => reg = Some rk) (rs_reactor s) (rs_reactor s') /\
    forall rk, reg = Some rk -> get (rt_registrations (rs_reactor s')) rk = None).
Proof.
  intros Hok Hi. destruct reg as [rk|]; cbn [unwatch_reg]; [|by apply runs_ret; [|split; [|split; [apply undisturbed_refl|]]]].
  pose proof (run_unwatch rk s Hok (Hi _ eq_refl)) as Hu. unfold mbind, M_bind, attempt, runs.
  assert (Hgoal : forall s', touching rk s s' /\ get (rt_registrations (rs_reactor s')) rk = None ->
    reactor_ok (rs_reactor s') /\ undisturbed (fun rk0 => Some rk = Some rk0) (rs_reactor s) (rs_reactor s') /\
    forall rk0, Some rk = Some rk0 -> get (rt_registrations (rs_reactor s')) rk0 = None).
  { intros s' [[Hok' Hd] Hn]. split; [done|]. split; [eapply undisturbed_weaken; [|exact Hd]; congruence|by intros rk0 [= <-]]. }
  destruct (unwatch rk s) as [[b|e|] s']; destruct Hu as [Hp Hu]; [split; [done|]; by apply Hgoal..|done].
Qed.
Lemma run_teardown c s :
  reactor_ok (rs_reactor s) -> (forall rk, mine c rk -> 0 <= index rk) ->
  ends (teardown c) s (fun _ s' => reactor_ok (rs_reactor s') /\ undisturbed (mine c) (rs_reactor s) (rs_reactor s') /\
    forall rk, mine c rk -> get (rt_registrations (rs_reactor s')) rk = None).
Proof.
  intros Hok Hi. unfold teardown.
  eapply runs_bind; [apply run_unwatch_reg; [done|]; intros rk E; apply Hi; by left|]. intros [] s1 _ (Hok1&Hd1&Hn1).
  eapply runs_bind; [apply run_unwatch_reg; [done|]; intros rk E; apply Hi; by right|]. intros [] s2 _ (Hok2&Hd2&Hn2).
  apply runs_bind with (P := fun _ s' => rs_reactor s' = rs_reactor s2); [done|]. intros [] s3 _ E3.
  apply runs_mono with (P := fun _ s' => rs_reactor s' = rs_reactor s3); [done|]. intros [] s4 _ E4. rewrite E4, E3.
  split; [done|]. split.
  - eapply undisturbed_trans; eapply undisturbed_weaken; [|exact Hd1| |exact Hd2]; intros rk E; [by left|by right].
  - intros rk [E|E]; [|by apply Hn2]. specialize (Hn1 _ E).
    destruct (get (rt_registrations (rs_reactor s2)) rk) as [g|] eqn:Eg; [|done].
    destruct (un_mine _ _ _ Hd2 _ _ (Hi rk ltac:(by left)) Eg) as (g'&Hg'&_). congruence.
Qed.

(** ** Closing *)

Lemma mine_reg c rk : mine c rk <-> exists d, from_reg d c = Some rk.
Proof.
  split; [intros [E|E]; [by exists ClientToDevice|by exists DeviceToClient]|]. intros [[] E]; [by left|by right].
Qed.
Lemma mine_owned but k p r ck c rk :
  proxy_inv (H := H) but k p r -> 0 <= index ck -> get (px_conns p) ck = Some c -> mine c rk ->
  0 <= index rk /\ exists g, get (rt_registrations r) rk = Some g /\ rg_handler g = k.
Proof.
  intros Hp Hck Hc [d E]%mine_reg. destruct (watched_by _ _ _ _ _ _ _ _ Hp Hck Hc E) as (Hrk&g&Hg&Hh&_).
  split; [done|]. by exists g.
Qed.

(** Every registration was there, with the same target. *)
Definition derived (r r' : Reactor H) : Prop := forall rk g', 0 <= index rk -> get (rt_registrations r') rk = Some g' ->
  exists g, get (rt_registrations r) rk = Some g /\ same_target g g'.
Lemma derived_trans (r1 r2 r3 : Reactor H) : derived r1 r2 -> derived r2 r3 -> derived r1 r3.
Proof.
  intros A B rk g3 Hrk Hg. destruct (B _ _ Hrk Hg) as (g2&Hg2&T2). destruct (A _ _ Hrk Hg2) as (g1&Hg1&T1).
  exists g1. split; [done|]. by eapply same_target_trans.
Qed.
Lemma derived_refl (r : Reactor H) : derived r r.
Proof. intros rk g _ Hg. by exists g. Qed.

(** The proxy without the connection [ck], whose registrations are gone. *)
Lemma proxy_without k p conns ck c (r r' : Reactor H) :
  proxy_inv (Some ck) k p r -> 0 <= index ck -> remove (px_conns p) ck = Some (c, conns) ->
  undisturbed (mine c) r r' -> (forall rk, mine c rk -> get (rt_registrations r') rk = None) ->
  proxy_ok k (set_conns conns p) r'.
Proof.
  intros Hp Hck E Hu Hn. pose proof Hp as [P1 P2 P3 P4 P5 P6]. destruct (get_remove _ _ _ _ P2 Hck E) as (Hwf&Hc&Hg).
  split; cbn [px_key px_conns px_desc px_rest set_conns]; [done|done|by rewrite (remove_slots _ _ _ _ E)| | |].
  - intros ck' c' Hck'. rewrite Hg by done. case_decide as Hd; [done|]. intros Hc'. destruct (P4 _ _ Hck' Hc') as [Hok Hs].
    split; [intros _; apply Hok; congruence|]. intros d rk Er. destruct (Hs _ _ Er) as (Hrk&g&Hg'&Hx).
    split; [done|]. exists g. split; [|done]. rewrite (un_regs _ _ _ Hu); [done..|]. intros [d' Em]%mine_reg.
    by apply Hd, (watched_once _ _ _ _ _ _ _ _ _ _ _ Hp Hck' Hck Hc' Hc Er Em).
  - intros rk g Hrk Hg' Hh.
    assert (Hnm : ~ mine c rk) by (intros Hm; rewrite (Hn _ Hm) in Hg'; done).
    rewrite (un_regs _ _ _ Hu) in Hg' by done. destruct (P5 _ _ Hrk Hg' Hh) as [|(ck'&c'&d&Hck'&Hc'&Er)]; [by left|right].
    exists ck', c', d. split_and!; [done| |done]. rewrite Hg by done. rewrite decide_False; [done|].
    intros ->. apply Hnm, mine_reg. exists d. congruence.
  - assert (Hl : forall fd, listens (px_conns p) k r fd -> listens conns k r' fd).
    { intros fd. apply listens_step. intros rk g Hrk Hg' Hh Hno. split.
      - rewrite (un_regs _ _ _ Hu); [done..|]. intros [d Em]%mine_reg. by apply (Hno ck c d).
      - intros ck' c' d Hck' Hc'. rewrite Hg in Hc' by done. case_decide; [done|]. by apply (Hno ck'). }
    destruct P6. auto.
Qed.

Lemma run_close_conn k p ck c s :
  reactor_ok (rs_reactor s) -> proxy_inv (Some ck) k p (rs_reactor s) -> 0 <= index ck -> get (px_conns p) ck = Some c ->
  ends (close_conn ck p) s (fun p' s' => proxy_step k s p' s' /\ derived (rs_reactor s) (rs_reactor s') /\
    (px_desc p' = px_desc p /\ px_rest p' = px_rest p /\ px_rest_endpoint p' = px_rest_endpoint p) /\
    forall ck', 0 <= index ck' -> get (px_conns p') ck' = if decide (ck' = ck) then None else get (px_conns p) ck').
Proof.
  intros Hok Hp Hck Hc. unfold close_conn.
  destruct (remove (px_conns p) ck) as [[c' conns]|] eqn:E; [|apply remove_None in E; congruence].
  destruct (get_remove _ _ _ _ (po_arena _ _ _ _ Hp) Hck E) as (_&Hc'&Hg). rewrite Hc in Hc'. injection Hc' as <-.
  eapply run_lift_bind; [done|]. cbv beta iota.
  eapply runs_bind; [apply run_teardown; [done|]; intros rk Hm; by eapply mine_owned|].
  intros [] s1 _ (Hok1&Hu&Hn). apply runs_ret; [done|]. split; [|split; [exact (un_mine _ _ _ Hu)|done]].
  destruct (po_key _ _ _ _ Hp) as [_ Hk].
  split; [|split; [by apply (un_slots _ _ _ Hu)|exact (proxy_without _ _ _ _ _ _ _ Hp Hck E Hu Hn)]].
  apply (undisturbed_others k (mine c)); [done..|]. intros rk _ Hm. by destruct (mine_owned _ _ _ _ _ _ _ Hp Hck Hc Hm).
Qed.

(** [sweep]'s loop, over live connections. *)
Lemma run_close_all k keys p s :
  reactor_ok (rs_reactor s) -> proxy_ok k p (rs_reactor s) -> NoDup keys ->
  (forall ck, ck ∈ keys -> 0 <= index ck /\ is_Some (get (px_conns p) ck)) ->
  ends (close_all keys p) s (fun p' s' => proxy_step k s p' s' /\ derived (rs_reactor s) (rs_reactor s') /\
    (px_desc p' = px_desc p /\ px_rest p' = px_rest p /\ px_rest_endpoint p' = px_rest_endpoint p) /\
    forall ck, 0 <= index ck -> get (px_conns p') ck = if decide (ck ∈ keys) then None else get (px_conns p) ck).
Proof.
  intros Hok Hp Hnd. revert p s Hok Hp. induction Hnd as [|ck keys Hni Hnd IH]; intros p s Hok Hp Hlive; cbn [close_all].
  { apply runs_ret; [done|]. split; [by apply proxy_step_refl|]. split; [apply derived_refl|]. split; [done|]. intros ck _. by rewrite decide_False by apply not_elem_of_nil. }
  destruct (Hlive ck ltac:(by left)) as [Hck [c Hc]].
  assert (Hpb : proxy_inv (Some ck) k p (rs_reactor s)).
  { destruct Hp as [P1 P2 P3 P4 P5 P6]. split; [done..| |done|done]. intros ck' c' Hck' Hc'. destruct (P4 _ _ Hck' Hc') as [Hx ?].
    split; [intros _; by apply Hx|done]. }
  eapply runs_bind; [by eapply run_close_conn|]. intros p1 s1 _ (Hst&Hd1&(D1&D2&D3)&Hg). pose proof Hst as (Ho&_&Hp1).
  eapply runs_mono; [apply IH; [apply Ho|done|]|].
  - intros ck' Hin. destruct (Hlive ck' ltac:(by right)) as [Hck' Hs]. split; [done|]. rewrite Hg by done.
    rewrite decide_False; [done|]. by intros ->.
  - intros p2 s2 _ (Hst2&Hd2&(F1&F2&F3)&Hg2). split; [by eapply proxy_step_trans|]. split; [by eapply derived_trans|]. split; [split_and!; congruence|].
    intros ck' Hck'. rewrite Hg2, Hg by done. destruct (decide (ck' ∈ keys)) as [Hin|Hin].
    + by rewrite decide_True by (by right).
    + case_decide as Hd; [by rewrite decide_True by (subst; by left)|]. rewrite decide_False; [done|]. by intros [?|?]%elem_of_cons.
Qed.

(** ** Edges *)

(** An edge of the connection [ck], whatever it changed in it. *)
Lemma conn_stepped emits k p ck c o c1 c2 s s' :
  reactor_ok (rs_reactor s) -> proxy_ok k p (rs_reactor s) -> 0 <= index ck -> get (px_conns p) ck = Some c ->
  edge_post emits c s (o, c1) s' -> same_splice c1 c2 ->
  others k (rs_reactor s) (rs_reactor s') /\ held k (rs_reactor s) (rs_reactor s') /\
  proxy_inv (match o with Keep => None | Close => Some ck end) k (set_conns (get_mut (px_conns p) ck (fun _ => c2)) p) (rs_reactor s').
Proof.
  intros Hok Hp Hck Hc [E1 E2 Hok' Hu Hsides (es&_&Hev)] Hs2. cbn [fst snd] in *. pose proof Hp as [P1 P2 P3 P4 P5 P6].
  pose proof (fun d => same_splice_facts c1 c2 d Hs2) as Hf.
  assert (Hfd : forall d, from_fd d c2 = from_fd d c).
  { intros d. destruct (Hf d) as (->&_). unfold from_fd. by destruct d; cbn; rewrite ?E1, ?E2. }
  assert (Hreg : forall d rk, from_reg d c2 = Some rk -> from_reg d c = Some rk /\
    (is_Some (get (rt_registrations (rs_reactor s)) rk) -> is_Some (get (rt_registrations (rs_reactor s')) rk))).
  { intros d rk. destruct (Hf d) as (_&_&->&_). destruct (Hsides d) as [[-> Hk]|[-> _]]; [|done]. intros E. split; [done|by apply Hk]. }
  destruct P1 as [P1 Hk]. split; [|split; [by apply (un_slots _ _ _ Hu)|]].
  { apply (undisturbed_others k (mine c)); [done..|]. intros rk _ Hm. by destruct (mine_owned _ _ _ _ _ _ _ Hp Hck Hc Hm). }
  split; cbn [px_key px_conns px_desc px_rest set_conns]; [done|by apply get_mut_wf|by rewrite get_mut_slots| | |].
  - intros ck' c' Hck'. rewrite get_get_mut by done. case_decide as Hd.
    + subst ck'. rewrite Hc. intros [= <-]. split; [destruct o; [intros _; apply (same_splice_ok _ _ Hs2), Hev|congruence]|].
      intros d rk Er. destruct (Hreg d rk Er) as [Er0 Hlive]. destruct (watched_by _ _ _ _ _ _ _ _ Hp Hck Hc Er0) as (Hrk&g&Hg&G1&G2&G3).
      split; [done|]. destruct (Hlive (mk_is_Some _ _ Hg)) as [g' Hg']. destruct (un_mine _ _ _ Hu _ _ Hrk Hg') as (g0&Hg0&T1&T2&T3).
      exists g'. rewrite Hg in Hg0. injection Hg0 as <-. split_and!; [done|congruence|by rewrite Hfd; congruence|congruence].
    + intros Hc'. destruct (P4 _ _ Hck' Hc') as [Hx Hs]. split; [intros _; by apply Hx|]. intros d rk Er.
      destruct (Hs _ _ Er) as (Hrk&g&Hg&G). split; [done|]. exists g. split; [|done]. rewrite (un_regs _ _ _ Hu); [done..|].
      intros [d' Em]%mine_reg. by apply Hd, (watched_once _ _ _ _ _ _ _ _ _ _ _ Hp Hck' Hck Hc' Hc Er Em).
  - intros rk g' Hrk Hg' Hh. destruct (un_mine _ _ _ Hu _ _ Hrk Hg') as (g&Hg&T1&T2&T3).
    destruct (P5 _ _ Hrk Hg ltac:(congruence)) as [[Hw Hl]|(ck'&c'&d&Hck'&Hc'&Er)].
    + destruct (decide (cn_client_reg c = Some rk \/ cn_device_reg c = Some rk)) as [[d Em]%mine_reg|Hnm].
      * right. exists ck, c2, d. split_and!; [done|rewrite get_get_mut by done; by rewrite decide_True, Hc|].
        destruct (Hf d) as (_&_&->&_). destruct (Hsides d) as [[-> _]|[_ Hgone]]; [done|]. specialize (Hgone _ Em Hsteady). congruence.
      * left. rewrite (un_regs _ _ _ Hu) in Hg' by done. rewrite Hg in Hg'. by injection Hg' as <-.
    + right. destruct (decide (ck' = ck)) as [->|Hne].
      * exists ck, c2, d. split_and!; [done|rewrite get_get_mut by done; by rewrite decide_True, Hc|].
        assert (c' = c) as -> by congruence. destruct (Hf d) as (_&_&->&_). destruct (Hsides d) as [[-> _]|[_ Hgone]]; [done|].
        specialize (Hgone _ Er Hsteady). congruence.
      * exists ck', c', d. split_and!; [done| |done]. rewrite get_get_mut by done. by rewrite decide_False.
  - assert (Hl : forall fd, listens (px_conns p) k (rs_reactor s) fd -> listens (get_mut (px_conns p) ck (fun _ => c2)) k (rs_reactor s') fd).
    { intros fd. apply listens_step. intros rk g Hrk Hg _ Hno. split.
      - rewrite (un_regs _ _ _ Hu); [done..|]. intros [d Em]%mine_reg. by apply (Hno ck c d).
      - intros ck' c' d Hck'. rewrite get_get_mut by done. case_decide as Hd; [|by apply Hno].
        subst ck'. rewrite Hc. intros [= <-] Er. by apply (Hno ck c d), Hreg. }
    destruct P6. auto.
Qed.

(** After an edge: the connection closes or stays. *)
Lemma run_after_edge emits k p ck c o c1 c2 s s' :
  reactor_ok (rs_reactor s) -> proxy_ok k p (rs_reactor s) -> 0 <= index ck -> get (px_conns p) ck = Some c ->
  edge_post emits c s (o, c1) s' -> same_splice c1 c2 ->
  forall p2 s2, rs_reactor s2 = rs_reactor s' -> px_conns p2 = get_mut (px_conns p) ck (fun _ => c2) ->
    px_key p2 = px_key p -> px_desc p2 = px_desc p -> px_rest p2 = px_rest p ->
  ends (match o with Close => close_conn ck p2 | Keep => mret p2 end) s2 (fun p' s' => proxy_step k s p' s' /\ derived (rs_reactor s) (rs_reactor s')).
Proof.
  intros Hok Hp Hck Hc He Hs p2 s2 Er Ec Ek Ed Ere. destruct (conn_stepped _ _ _ _ _ _ _ _ _ _ Hok Hp Hck Hc He Hs) as (Ho&Hh&Hi).
  rewrite <- Er in *.
  assert (Hi2 : proxy_inv (match o with Keep => None | Close => Some ck end) k p2 (rs_reactor s2)).
  { destruct Hi as [I1 I2 I3 I4 I5 I6]. cbn [px_key px_conns px_desc px_rest set_conns] in *. split; rewrite ?Ec, ?Ek, ?Ed, ?Ere; done. }
  pose proof (un_mine _ _ _ (ep_frame _ _ _ _ _ He)) as Hd. rewrite <- Er in Hd.
  destruct o; [by apply runs_ret|].
  eapply runs_mono; [eapply (run_close_conn k p2 ck c2); [apply Ho|done|done|]|].
  - rewrite Ec, get_get_mut by done. by rewrite decide_True, Hc.
  - intros p3 s3 _ ((O3&H3&I3)&Hd3&_). split; [|by eapply derived_trans]. split; [by eapply others_trans|]. split; [unfold held in *; congruence|done].
Qed.

(** ** A new connection *)

(** The registration [rk] of a new fd for [k]. *)
Record added (k rk : Key) (fd user_data : Z) (r r' : Reactor H) : Prop := {
  ad_key : 0 <= index rk;
  ad_new : get (rt_registrations r) rk = None;
  ad_slots : forall k', 0 <= index k' -> he_handler <$> get (rt_handlers r') k' = he_handler <$> get (rt_handlers r) k';
  ad_regs : forall rk', 0 <= index rk' -> get (rt_registrations r') rk' =
    if decide (rk' = rk)
    then Some {| rg_fd := fd; rg_handler := k; rg_read := true; rg_write := false; rg_user_data := user_data |}
    else get (rt_registrations r) rk';
}.
Lemma run_try_watch k fd user_data s :
  reactor_ok (rs_reactor s) -> 0 <= index k ->
  keeping (attempt (E:=Infallible) (watch k fd user_data)) s (fun r s' =>
    match r with
    | inr rk => added k rk fd user_data (rs_reactor s) (rs_reactor s')
    | inl _ => undisturbed (fun _ => False) (rs_reactor s) (rs_reactor s')
    end).
Proof.
  intros Hok Hk. pose proof (run_watch k fd user_data s Hok Hk) as Hw. unfold runs, attempt.
  destruct (watch k fd user_data s) as [[rk|e|] s']; [|done..]. destruct Hw as (?&?&?&?&?). split; [done|]. by split.
Qed.

Lemma added_others k rk fd ud r r' : reactor_ok r' -> 0 <= index k -> added k rk fd ud r r' -> others k r r'.
Proof.
  intros Hok Hk [A1 A2 A3 A4]. split; [done|intros k' Hk' _; by apply A3|].
  intros rk' g Hrk' Hne. rewrite A4 by done. case_decide; [subst|done]. rewrite A2. split; [intros [= <-]; done|done].
Qed.
Lemma same_others k r r' : reactor_ok r' -> 0 <= index k -> undisturbed (H := H) (fun _ => False) r r' -> others k r r'.
Proof. intros Hok Hk Hu. by apply (undisturbed_others k (fun _ => False)). Qed.

(** A registration that stands through a call keeps its target. *)
Definition targets (r r' : Reactor H) : Prop := forall rk g g', 0 <= index rk ->
  get (rt_registrations r) rk = Some g -> get (rt_registrations r') rk = Some g' -> same_target g g'.
Lemma undisturbed_targets mine' (r r' : Reactor H) : undisturbed mine' r r' -> targets r r'.
Proof. intros Hu rk g g' Hrk Hg Hg'. destruct (un_mine _ _ _ Hu _ _ Hrk Hg') as (g0&Hg0&Ht). congruence. Qed.

Lemma proxy_inv_ext but k p (r r' : Reactor H) :
  (forall rk, 0 <= index rk -> get (rt_registrations r') rk = get (rt_registrations r) rk) -> proxy_inv but k p r -> proxy_inv but k p r'.
Proof.
  intros E [P1 P2 P3 P4 P5 P6]. split; [done..| | |].
  - intros ck c Hck Hc. destruct (P4 _ _ Hck Hc) as [Hok Hs]. split; [done|]. intros d rk Er. destruct (Hs _ _ Er) as [Hrk Hg].
    split; [done|]. by rewrite E.
  - intros rk g Hrk. rewrite E by done. by apply P5.
  - destruct P6 as [Hd Hr]. split; [eapply listens_step; [|exact Hd]|eapply listens_step; [|exact Hr]]; intros rk g Hrk; by rewrite E.
Qed.

(** The connection just inserted, before anything is watched for it. *)
Lemma inserted_inv k p conn ck conns (r : Reactor H) :
  proxy_ok k p r -> arena_insert (E:=Infallible) (px_conns p) conn = Ok (ck, conns) -> (length (slots conns) <= MAX_CONNECTIONS)%nat ->
  cn_client_reg conn = None -> cn_device_reg conn = None ->
  key_ok ck /\ get (px_conns p) ck = None /\ get conns ck = Some conn /\ proxy_inv (Some ck) k (set_conns conns p) r.
Proof.
  intros [P1 P2 P3 P4 P5 P6] E Hlen Hn1 Hn2. destruct (get_insert_from _ _ _ _ P2 E) as (Hwf&Hck&Hnew&Hg).
  split; [done|]. split; [done|]. split; [rewrite Hg by apply Hck; by rewrite decide_True|].
  split; cbn [px_key px_conns px_desc px_rest set_conns]; [done..| | |].
  - intros ck' c Hck'. rewrite Hg by done. case_decide as Hd.
    + intros [= <-]. split; [congruence|]. intros [] rk; unfold from_reg; cbn; congruence.
    + intros Hc. destruct (P4 _ _ Hck' Hc) as [Hx Hs]. split; [intros _; by apply Hx|done].
  - intros rk g Hrk Hgr Hh. destruct (P5 _ _ Hrk Hgr Hh) as [|(ck'&c&d&Hck'&Hc&Er)]; [by left|right].
    exists ck', c, d. split_and!; [done| |done]. rewrite Hg by done. rewrite decide_False; [done|]. intros ->. congruence.
  - assert (Hl : forall fd, listens (px_conns p) k r fd -> listens conns k r fd).
    { intros fd. apply listens_step. intros rk g Hrk Hgr _ Hno. split; [done|]. intros ck' c d Hck'. rewrite Hg by done.
      case_decide; [intros [= <-]; unfold from_reg; destruct d; cbn; congruence|by apply Hno]. }
    destruct P6. auto.
Qed.

(** The connection attached to its two registrations. *)
Lemma attached_inv k p conn ck conns rk1 rk2 (r r1 r2 r3 : Reactor H) :
  reactor_ok r2 -> proxy_inv (Some ck) k (set_conns conns p) r -> key_ok ck -> get conns ck = Some conn ->
  (forall d, flow_wf (flow_of d conn) /\ fl_state (flow_of d conn) = Open) ->
  cn_client_reg conn = None -> cn_device_reg conn = None ->
  added k rk1 (tcp_fd (cn_client conn)) (to_u64 ck) r r1 -> added k rk2 (tcp_fd (cn_device conn)) (to_u64 ck) r1 r2 ->
  undisturbed (eq rk2) r2 r3 -> all_kept r2 r3 ->
  proxy_ok k (set_conns (get_mut conns ck (attach_registrations rk1 rk2)) p) r3.
Proof.
  intros Hok Hp [[Hck _] _] Hc Hfl Hcn1 Hcn2 [K1 N1 S1 G1] [K2 N2 S2 G2] Hu Hkept.
  pose proof Hp as [P1 P2 P3 P4 P5 P6]. cbn [px_key px_conns px_desc px_rest set_conns] in *.
  assert (Hne : rk1 <> rk2).
  { intros ->. rewrite G1, decide_True in N2 by done. done. }
  assert (Hr1 : get (rt_registrations r2) rk1 = Some {| rg_fd := tcp_fd (cn_client conn); rg_handler := k; rg_read := true; rg_write := false; rg_user_data := to_u64 ck |}).
  { rewrite G2, decide_False, G1, decide_True by done. done. }
  assert (Hr2 : get (rt_registrations r2) rk2 = Some {| rg_fd := tcp_fd (cn_device conn); rg_handler := k; rg_read := true; rg_write := false; rg_user_data := to_u64 ck |}).
  { rewrite G2, decide_True by done. done. }
  assert (Hfds : tcp_fd (cn_client conn) <> tcp_fd (cn_device conn)).
  { intros E. apply Hne. by apply (ro_fds _ Hok _ _ _ _ K1 K2 Hr1 Hr2). }
  assert (Hold : forall rk g, 0 <= index rk -> get (rt_registrations r) rk = Some g -> get (rt_registrations r3) rk = Some g).
  { intros rk g Hrk Hg. assert (rk <> rk1) by congruence.
    assert (rk <> rk2). { intros ->. rewrite G1, decide_False in N2 by done. congruence. }
    rewrite (un_regs _ _ _ Hu), G2, decide_False, G1, decide_False by (done || congruence). done. }
  split; cbn [px_key px_conns px_desc px_rest set_conns]; [done|by apply get_mut_wf|by rewrite get_mut_slots| | |].
  - intros ck' c' Hck'. rewrite get_get_mut by done. case_decide as Hd.
    + subst ck'. rewrite Hc. intros [= <-]. split.
      * intros _. split; [done|intros d; apply (Hfl d) || (destruct d; apply (Hfl _))|intros [] rk; unfold from_reg; cbn; by intros [= <-]|cbn; congruence|by intros []|].
        intros d E. destruct (Hfl d) as [_ Ho]. by destruct d; cbn in *; rewrite Ho in E.
      * intros [] rk; unfold from_reg, from_fd; cbn; intros [= <-]; (split; [done|]).
        -- destruct (Hkept rk1 K1 (mk_is_Some _ _ Hr1)) as [g' Hg']. destruct (un_mine _ _ _ Hu _ _ K1 Hg') as (g0&Hg0&T1&T2&T3).
           rewrite Hr1 in Hg0. injection Hg0 as <-. by exists g'.
        -- destruct (Hkept rk2 K2 (mk_is_Some _ _ Hr2)) as [g' Hg']. destruct (un_mine _ _ _ Hu _ _ K2 Hg') as (g0&Hg0&T1&T2&T3).
           rewrite Hr2 in Hg0. injection Hg0 as <-. by exists g'.
    + intros Hc'. destruct (P4 _ _ Hck' Hc') as [Hx Hs]. split; [intros _; apply Hx; congruence|]. intros d rk Er.
      destruct (Hs _ _ Er) as (Hrk&g&Hg&G). split; [done|]. exists g. split; [by apply Hold|done].
  - intros rk g' Hrk Hg' Hh. destruct (decide (rk = rk1 \/ rk = rk2)) as [Hnew|Hn].
    + right. exists ck, (attach_registrations rk1 rk2 conn). destruct Hnew as [-> | ->];
        [exists ClientToDevice|exists DeviceToClient]; (split_and!; [done|rewrite get_get_mut by done; by rewrite decide_True, Hc|done]).
    + assert (Hg : get (rt_registrations r) rk = Some g').
      { rewrite (un_regs _ _ _ Hu), G2, decide_False, G1, decide_False in Hg' by (done || (intros ->; apply Hn; auto)). done. }
      destruct (P5 _ _ Hrk Hg Hh) as [|(ck'&c'&d&Hck'&Hc'&Er)]; [by left|right]. exists ck', c', d.
      split_and!; [done| |done]. rewrite get_get_mut by done. rewrite decide_False; [done|]. intros ->.
      assert (c' = conn) as -> by congruence. destruct d; unfold from_reg in Er; cbn in Er; congruence.
  - assert (Hl : forall fd, listens conns k r fd -> listens (get_mut conns ck (attach_registrations rk1 rk2)) k r3 fd).
    { intros fd. apply listens_step. intros rk g Hrk Hg _ Hno. split; [by apply Hold|]. intros ck' c' d Hck'. rewrite get_get_mut by done.
      case_decide; [|by apply Hno]. subst ck'. rewrite Hc. assert (rk <> rk1) by congruence.
      assert (rk <> rk2) by (intros ->; rewrite G1, decide_False in N2 by done; congruence).
      intros [= <-]. destruct d; unfold from_reg; cbn; congruence. }
    destruct P6. auto.
Qed.

(** Closing what has just been inserted, whatever was watched and dropped since. *)
Lemma run_close_inserted k p conn ck conns s s1 :
  reactor_ok (rs_reactor s1) -> proxy_ok k p (rs_reactor s) ->
  proxy_inv (Some ck) k (set_conns conns p) (rs_reactor s) -> key_ok ck -> get conns ck = Some conn ->
  others k (rs_reactor s) (rs_reactor s1) -> held k (rs_reactor s) (rs_reactor s1) ->
  (forall rk, 0 <= index rk -> get (rt_registrations (rs_reactor s1)) rk = get (rt_registrations (rs_reactor s)) rk) ->
  ends (close_conn ck (set_conns conns p)) s1 (fun p' s' => proxy_step k s p' s' /\ targets (rs_reactor s) (rs_reactor s')).
Proof.
  intros Hok Hp Hi [[Hck _] _] Hc Ho Hh E. pose proof (proxy_inv_ext _ _ _ _ _ E Hi) as Hi1.
  unfold close_conn. cbn [px_conns set_conns].
  destruct (remove conns ck) as [[c' conns']|] eqn:Er; [|apply remove_None in Er; congruence].
  destruct (get_remove _ _ _ _ (po_arena _ _ _ _ Hi1) Hck Er) as (_&Hc'&_). cbn in Hc'. rewrite Hc in Hc'. injection Hc' as <-.
  eapply run_lift_bind; [done|]. cbv beta iota.
  eapply runs_bind; [apply run_teardown; [done|]; intros rk Hm; by eapply (mine_owned _ _ _ _ ck)|].
  intros [] s2 _ (Hok2&Hu&Hn). apply runs_ret; [done|]. split; [|].
  - destruct (po_key _ _ _ _ Hp) as [_ Hk]. split; [|split].
    + eapply others_trans; [exact Ho|]. apply (undisturbed_others k (mine conn)); [done..|].
      intros rk _ Hm. by destruct (mine_owned _ _ _ _ _ _ _ Hi1 Hck Hc Hm).
    + unfold held in *. rewrite <- Hh. by apply (un_slots _ _ _ Hu).
    + exact (proxy_without _ _ _ _ _ _ _ Hi1 Hck Er Hu Hn).
  - intros rk g g' Hrk Hg Hg'. destruct (un_mine _ _ _ Hu _ _ Hrk Hg') as (g0&Hg0&Ht). rewrite E in Hg0 by done. congruence.
Qed.

Lemma run_try_unwatch rk s :
  reactor_ok (rs_reactor s) -> 0 <= index rk ->
  ends (attempt (E:=Infallible) (E' := IoError) (unwatch rk)) s (fun _ s' =>
    touching rk s s' /\ get (rt_registrations (rs_reactor s')) rk = None).
Proof.
  intros Hok Hrk. pose proof (run_unwatch rk s Hok Hrk) as Hu. unfold runs, attempt.
  destruct (unwatch rk s) as [[b|e|] s']; destruct Hu as [? Hu]; done.
Qed.
Lemma run_try_interest rk b s :
  reactor_ok (rs_reactor s) -> 0 <= index rk ->
  ends (attempt (E:=Infallible) (E' := IoError) (set_write_interest rk b)) s (fun _ s' =>
    touching rk s s' /\ all_kept (rs_reactor s) (rs_reactor s')).
Proof.
  intros Hok Hrk. pose proof (run_set_interest true rk b s Hok Hrk) as Hu. cbn in Hu. unfold runs, attempt.
  destruct (set_write_interest rk b s) as [[x|e|] s']; destruct Hu as (?&?&?); done.
Qed.

(** The connection [Connection::new] makes. *)
Definition fresh (client device : TcpSocket) (conn : Connection) : Prop :=
  cn_client conn = client /\ cn_device conn = device /\ cn_client_reg conn = None /\ cn_device_reg conn = None /\
  forall d, flow_wf (flow_of d conn) /\ fl_state (flow_of d conn) = Open.
Lemma run_connection_new client device ep rest own s :
  ends (connection_new client device ep rest own) s (fun conn s' => rs_reactor s' = rs_reactor s /\ fresh client device conn).
Proof.
  eapply runs_bind; [apply run_now_same|]. intros t s1 _ E. apply runs_ret; [done|]. split; [done|].
  split_and!; [done..|]. intros []; (split; [apply flow_new_wf|done]).
Qed.

(** Both sides of the inserted connection watched, or the connection closed. *)
Lemma run_watch_both k p conn ck conns client device s :
  reactor_ok (rs_reactor s) -> proxy_ok k p (rs_reactor s) -> fresh client device conn ->
  proxy_inv (Some ck) k (set_conns conns p) (rs_reactor s) -> key_ok ck -> get conns ck = Some conn ->
  keeping (client_reg ← attempt (watch k (tcp_fd client) (to_u64 ck));
           match client_reg with
           | inl _ => close_conn ck (set_conns conns p)
           | inr client_reg =>
               device_reg ← attempt (watch k (tcp_fd device) (to_u64 ck));
               match device_reg with
               | inl _ => _ ← attempt (E' := IoError) (unwatch client_reg); close_conn ck (set_conns conns p)
               | inr device_reg =>
                   _ ← attempt (E' := IoError) (set_write_interest device_reg true);
                   _ ← lift (expect (get (px_conns (set_conns conns p)) ck));
                   mret (set_conns (get_mut (px_conns (set_conns conns p)) ck (attach_registrations client_reg device_reg)) (set_conns conns p))
               end
           end) s (fun p' s' => proxy_step k s p' s' /\ targets (rs_reactor s) (rs_reactor s')).
Proof.
  intros Hok Hp (F1&F2&F3&F4&F5) Hi Hck Hc. destruct (po_key _ _ _ _ Hp) as [_ Hk].
  assert (Hdone : forall (m : M (RState H W) Infallible DialDeviceProxy) s1,
    ends m s1 (fun p' s' => proxy_step k s p' s' /\ targets (rs_reactor s) (rs_reactor s')) ->
    keeping m s1 (fun p' s' => proxy_step k s p' s' /\ targets (rs_reactor s) (rs_reactor s'))).
  { intros m s1 Hm. apply ends_keeping; [done|]. intros p' s' [[Ho _] _]. apply Ho. }
  eapply runs_bind; [by apply run_try_watch|]. intros [e|rk1] s1 Hok1 A1.
  { apply Hdone, (run_close_inserted k p conn); try done; [by apply same_others|by apply (un_slots _ _ _ A1)|].
    intros rk Hrk. apply (un_regs _ _ _ A1); [done|]. by intros []. }
  eapply runs_bind; [by apply run_try_watch|]. pose proof (added_others _ _ _ _ _ _ Hok1 Hk A1) as Ho1. intros [e|rk2] s2 Hok2 A2.
  - pose proof (same_others k _ _ Hok2 Hk A2) as Ho2.
    apply Hdone. eapply runs_bind; [apply run_try_unwatch; [done|apply A1]|]. intros ? s3 _ ([Hok3 Hu3]&Hn3).
    assert (Hsame : forall rk, 0 <= index rk -> get (rt_registrations (rs_reactor s3)) rk = get (rt_registrations (rs_reactor s)) rk).
    { intros rk Hrk. destruct (decide (rk = rk1)) as [->|Hne]; [by rewrite Hn3, (ad_new _ _ _ _ _ _ A1)|].
      rewrite (un_regs _ _ _ Hu3), (un_regs _ _ _ A2), (ad_regs _ _ _ _ _ _ A1), decide_False by (done || congruence). done. }
    assert (Hslots : forall k', 0 <= index k' -> he_handler <$> get (rt_handlers (rs_reactor s3)) k' = he_handler <$> get (rt_handlers (rs_reactor s)) k').
    { intros k' Hk'. by rewrite (un_slots _ _ _ Hu3), (un_slots _ _ _ A2), (ad_slots _ _ _ _ _ _ A1). }
    apply (run_close_inserted k p conn); try done; [|by apply Hslots].
    split; [done|intros; by apply Hslots|]. intros rk g Hrk Hne. by rewrite Hsame.
  - pose proof (added_others _ _ _ _ _ _ Hok2 Hk A2) as Ho2.
    apply Hdone. eapply runs_bind; [apply run_try_interest; [done|apply A2]|]. intros ? s3 _ ([Hok3 Hu3]&Hkept3).
    eapply run_lift_bind; [by cbn [px_conns set_conns]; rewrite Hc|]. apply runs_ret; [done|]. cbn [px_conns set_conns].
    assert (Ho3 : others k (rs_reactor s2) (rs_reactor s3)).
    { apply (undisturbed_others k (eq rk2)); [done..|]. intros rk Hrk <-. rewrite (ad_regs _ _ _ _ _ _ A2), decide_True by done. by eexists. }
    split; [split; [|split]|].
    + eapply others_trans; [exact Ho1|]. by eapply others_trans.
    + unfold held. by rewrite (un_slots _ _ _ Hu3), (ad_slots _ _ _ _ _ _ A2), (ad_slots _ _ _ _ _ _ A1).
    + assert (Hatt : forall a, set_conns a (set_conns conns p) = set_conns a p) by done. rewrite Hatt.
      rewrite <- F1 in A1. rewrite <- F2 in A2.
      exact (attached_inv k p conn ck conns rk1 rk2 _ _ _ _ Hok2 Hi Hck Hc F5 F3 F4 A1 A2 Hu3 Hkept3).
    + intros rk g g' Hrk Hg Hg'. destruct (un_mine _ _ _ Hu3 _ _ Hrk Hg') as (g2&Hg2&Ht).
      rewrite (ad_regs _ _ _ _ _ _ A2) in Hg2 by done. destruct (decide (rk = rk2)) as [->|_].
      { pose proof (ad_new _ _ _ _ _ _ A2) as N. rewrite (ad_regs _ _ _ _ _ _ A1) in N by done. case_decide; congruence. }
      rewrite (ad_regs _ _ _ _ _ _ A1) in Hg2 by done. destruct (decide (rk = rk1)) as [->|_]; [|congruence].
      pose proof (ad_new _ _ _ _ _ _ A1). congruence.
Qed.

Lemma run_start_connection k client ep own p s :
  reactor_ok (rs_reactor s) -> proxy_ok k p (rs_reactor s) -> (length (iter (px_conns p)) < MAX_CONNECTIONS)%nat ->
  keeping (start_connection client ep own p) s (fun p' s' => proxy_step k s p' s' /\ targets (rs_reactor s) (rs_reactor s')).
Proof.
  intros Hok Hp Hroom. destruct (po_key _ _ _ _ Hp) as [Ek Hk]. unfold start_connection, own_key. rewrite Ek.
  eapply runs_bind with (P := fun key s' => key = k /\ s' = s); [done|]. intros ? ? _ [-> ->].
  eapply runs_bind; [apply ends_keeping; [apply run_ask_same|by intros ? s' [-> _]]|]. intros r s1 Hok1 [E1 _].
  assert (Hp1 : proxy_ok k p (rs_reactor s1)) by (by rewrite E1).
  destruct r as [e|device]; [apply runs_ret; [done|]; split; [by apply proxy_step_same|]; rewrite E1; by apply (undisturbed_targets (fun _ => False)), undisturbed_refl|].
  eapply runs_bind; [apply ends_keeping; [apply run_connection_new|by intros ? s' [-> _]]|]. intros conn s2 Hok2 [E2 Hfresh].
  assert (Hp2 : proxy_ok k p (rs_reactor s2)) by (by rewrite E2).
  destruct (insert_bounded (E:=Infallible) (px_conns p) conn MAX_CONNECTIONS (po_arena _ _ _ _ Hp) (po_slots _ _ _ _ Hp) Hroom) as (ck&conns&Ei&Hlen);
    [unfold MAX_CONNECTIONS; lia|].
  destruct Hfresh as (F1&F2&F3&F4&F5). destruct (inserted_inv _ _ _ _ _ _ Hp2 Ei Hlen F3 F4) as (Hck&_&Hc&Hi).
  rewrite Ei. unfold lift. unfold mbind at 1, M_bind, runs. cbv beta iota zeta.
  eapply runs_mono; [by apply (run_watch_both k p conn ck conns client device s2)|].
  intros p' s' _ [(O1&O2&O3) Ht]. rewrite E2, E1 in O1, Ht. unfold held in O2. rewrite E2, E1 in O2. done.
Qed.

(** ** The calls of the reactor *)

(** What a call does, with the targets of the registrations that stand. *)
Definition proxy_call k s p s' : Prop := proxy_post k s p s' /\ targets (rs_reactor s) (rs_reactor s').

Lemma targets_refl (r : Reactor H) : targets r r.
Proof. apply (undisturbed_targets (fun _ => False)), undisturbed_refl. Qed.
Lemma proxy_call_same k s p s' :
  rs_reactor s' = rs_reactor s -> reactor_ok (rs_reactor s) -> proxy_ok k p (rs_reactor s) -> proxy_call k s p s'.
Proof.
  intros E Hok Hp. split; [by apply proxy_step_post, proxy_step_same|]. rewrite E. apply targets_refl.
Qed.
Lemma proxy_call_from k s s1 p s' : rs_reactor s1 = rs_reactor s -> proxy_call k s1 p s' -> proxy_call k s p s'.
Proof. unfold proxy_call, proxy_post, held. by intros ->. Qed.
Lemma step_call k s p s' : proxy_step k s p s' -> targets (rs_reactor s) (rs_reactor s') -> proxy_call k s p s'.
Proof. intros Hs Ht. split; [by apply proxy_step_post|done]. Qed.

Lemma run_accept_client k what p s :
  reactor_ok (rs_reactor s) -> proxy_ok k p (rs_reactor s) ->
  keeping (accept_client what p) s (fun r s' =>
    match r with
    | Some _ => rs_reactor s' = rs_reactor s /\ (length (iter (px_conns p)) < MAX_CONNECTIONS)%nat
    | None => proxy_call k s p s'
    end).
Proof.
  intros Hok Hp. destruct (po_key _ _ _ _ Hp) as [Ek Hk]. unfold accept_client, own_key. rewrite Ek.
  eapply runs_bind; [apply ends_keeping; [apply run_ask_same|by intros ? s' [-> _]]|]. intros r s1 Hok1 [E1 _].
  destruct r as [e|[client|]].
  - eapply runs_bind with (P := fun key s' => key = k /\ s' = s1); [done|]. intros ? ? _ [-> ->].
    pose proof (unregister_others k s1 Hok1 Hk) as Hu. pose proof (unregister_ok k s1 Hok1 Hk) as Hu2.
    unfold attempt, mbind, M_bind, runs. destruct (unregister k s1) as [[b|e'|] s2]; [| |by destruct Hu as [? _]].
    all: destruct Hu as (_&Ho&Hgone); destruct Hu2 as (_&_&Hu2); unfold mret, M_ret; split; [apply Ho|]; apply (proxy_call_from _ _ _ _ _ E1);
      split; [split; [done|by left]|]; intros rk g g' Hrk Hg Hg'; unfold handlers_of, registrations_of in Hu2;
      destruct (get (rt_handlers (rs_reactor s1)) k);
      [destruct Hu2 as (_&_&Hr); rewrite Hr in Hg' by done; case_decide; [done|]; rewrite Hg in Hg'; by injection Hg' as <-|
       destruct Hu2 as [_ ->]; rewrite Hg in Hg'; by injection Hg' as <-].
  - apply runs_ret; [done|]. destruct (Nat.leb_spec MAX_CONNECTIONS (length (iter (px_conns p)))); [by apply proxy_call_same|done].
  - apply runs_ret; [done|]. by apply proxy_call_same.
Qed.

Lemma run_accepted k client ep own p s s1 :
  reactor_ok (rs_reactor s) -> rs_reactor s1 = rs_reactor s -> proxy_ok k p (rs_reactor s) -> (length (iter (px_conns p)) < MAX_CONNECTIONS)%nat ->
  keeping (start_connection client ep own p) s1 (proxy_call k s).
Proof.
  intros Hok E Hp Hroom. eapply runs_mono; [apply (run_start_connection k); [by rewrite E..|done]|].
  intros p' s' _ [Hs Ht]. apply (proxy_call_from _ _ _ _ _ E). by apply step_call.
Qed.

Lemma run_accept_desc k p s : reactor_ok (rs_reactor s) -> proxy_ok k p (rs_reactor s) -> keeping (accept_desc p) s (proxy_call k s).
Proof.
  intros Hok Hp. eapply runs_bind; [by apply run_accept_client|]. intros [client|] s1 Hok1 Hc; [|by apply runs_ret].
  destruct Hc as [E Hroom]. by apply run_accepted.
Qed.
Lemma run_accept_rest k p s : reactor_ok (rs_reactor s) -> proxy_ok k p (rs_reactor s) -> keeping (accept_rest p) s (proxy_call k s).
Proof.
  intros Hok Hp. eapply runs_bind; [by apply run_accept_client|]. intros [client|] s1 Hok1 Hc; [|by apply runs_ret].
  destruct Hc as [E Hroom]. destruct (px_rest_endpoint p) as [device|]; [by apply run_accepted|].
  apply runs_ret; [done|]. by apply proxy_call_same.
Qed.

(** The handlers of an event on a watched fd. *)
Definition event_of (g : FdRegistration) : ReadyEvent := {| ev_fd := rg_fd g; ev_user_data := rg_user_data g |}.

Lemma derived_targets (r r' : Reactor H) : derived r r' -> targets r r'.
Proof. intros Hd rk g g' Hrk Hg Hg'. destruct (Hd _ _ Hrk Hg') as (g0&Hg0&Ht). congruence. Qed.

(** The connection an event is for. *)
Lemma event_conn k p (r : Reactor H) rk g :
  proxy_ok k p r -> 0 <= index rk -> get (rt_registrations r) rk = Some g -> rg_handler g = k ->
  rg_write g = true \/ rg_fd g <> tcp_fd (px_desc p) /\ rg_fd g <> tcp_fd (px_rest p) ->
  exists ck c d, 0 <= index ck /\ get (px_conns p) ck = Some c /\ conn_ok c /\ from_reg d c = Some rk /\
    rg_fd g = from_fd d c /\ from_u64 (rg_user_data g) = ck.
Proof.
  intros Hp Hrk Hg Hh Hwhich. destruct (po_regs _ _ _ _ Hp _ _ Hrk Hg Hh) as [[Hw Hl]|(ck&c&d&Hck&Hc&Er)].
  { exfalso. destruct Hwhich as [|[]]; [congruence|tauto]. }
  destruct (watched_by _ _ _ _ _ _ _ _ Hp Hck Hc Er) as (_&g'&Hg'&_&Hf&Hu).
  rewrite Hg in Hg'. injection Hg' as <-. destruct (po_conns _ _ _ _ Hp _ _ Hck Hc) as [Hx _].
  exists ck, c, d. split_and!; [done|done|by apply Hx|done|done|]. rewrite Hu.
  apply key_u64_roundtrip. exact (get_key_ok _ _ _ (po_arena _ _ _ _ Hp) Hck Hc).
Qed.

Lemma run_adopt_rest_endpoint ep p s :
  ends (adopt_rest_endpoint ep p) s (fun p' s' => rs_reactor s' = rs_reactor s /\ px_conns p' = px_conns p /\
    px_key p' = px_key p /\ px_desc p' = px_desc p /\ px_rest p' = px_rest p).
Proof.
  unfold adopt_rest_endpoint. case_bool_decide; [by apply runs_ret|]. destruct (is_never_a_peer _); [by apply runs_ret|].
  eapply runs_bind with (P := fun _ s' => rs_reactor s' = rs_reactor s).
  - unfold names_this_host. eapply runs_bind with (P := fun _ s' => rs_reactor s' = rs_reactor s).
    + unfold world_call, runs. by destruct (host_v4_addrs _).
    + intros a s1 _ E. by apply runs_ret.
  - intros ours s1 _ E. apply runs_ret; [done|]. by destruct ours.
Qed.

Lemma run_on_connection_readable k p rk g s :
  reactor_ok (rs_reactor s) -> proxy_ok k p (rs_reactor s) -> 0 <= index rk -> get (rt_registrations (rs_reactor s)) rk = Some g ->
  rg_handler g = k -> rg_fd g <> tcp_fd (px_desc p) -> rg_fd g <> tcp_fd (px_rest p) ->
  ends (on_connection_readable (from_u64 (rg_user_data g)) (rg_fd g) p) s (proxy_call k s).
Proof.
  intros Hok Hp Hrk Hg Hh Hn1 Hn2. destruct (event_conn _ _ _ _ _ Hp Hrk Hg Hh) as (ck&c&d&Hck&Hc&Hcok&Er&Ef&Eu); [by right|].
  unfold on_connection_readable. rewrite Eu, Ef, Hc.
  eapply runs_bind; [apply (run_readable Htyped _ blind_observer); [done..|]; by rewrite (read_side_from d c Hcok), Er|].
  intros [o c1] s1 _ He. cbn [take_learned_rest]. set (c2 := {| cn_client := _ |}).
  eapply runs_bind with (P := fun p2 s2 => rs_reactor s2 = rs_reactor s1 /\ px_conns p2 = get_mut (px_conns p) ck (fun _ => c2) /\
    px_key p2 = px_key p /\ px_desc p2 = px_desc p /\ px_rest p2 = px_rest p).
  - destruct (cn_learned_rest c1); [|by apply runs_ret]. eapply runs_mono; [apply run_adopt_rest_endpoint|done].
  - intros p2 s2 _ (E1&E2&E3&E4&E5). assert (Hsame : same_splice c1 c2) by by split.
    eapply runs_mono; [exact (run_after_edge _ k p ck c o c1 c2 s s1 Hok Hp Hck Hc He Hsame p2 s2 E1 E2 E3 E4 E5)|].
    intros p3 s3 _ [Hs Hd]. apply step_call; [done|by apply derived_targets].
Qed.

Lemma run_on_connection_writable k p rk g s :
  reactor_ok (rs_reactor s) -> proxy_ok k p (rs_reactor s) -> 0 <= index rk -> get (rt_registrations (rs_reactor s)) rk = Some g ->
  rg_handler g = k -> rg_write g = true ->
  ends (on_connection_writable (from_u64 (rg_user_data g)) (rg_fd g) p) s (proxy_call k s).
Proof.
  intros Hok Hp Hrk Hg Hh Hw. destruct (event_conn _ _ _ _ _ Hp Hrk Hg Hh) as (ck&c&d&Hck&Hc&Hcok&Er&Ef&Eu); [by left|].
  unfold on_connection_writable. rewrite Eu, Ef, Hc. destruct (reverse_ends d c) as (_&R2&_&R4).
  eapply runs_bind; [apply (run_writable Htyped _ blind_observer); [done..|]; by rewrite <- R2, (write_side_to (reverse d) c Hcok), R4, Er|].
  intros [o c1] s1 _ He. cbv beta iota zeta. assert (Hsame : same_splice c1 c1) by by split.
  eapply runs_mono; [exact (run_after_edge _ k p ck c o c1 c1 s s1 Hok Hp Hck Hc He Hsame
    (set_conns (get_mut (px_conns p) ck (fun _ => c1)) p) s1 eq_refl eq_refl eq_refl eq_refl eq_refl)|].
  intros p3 s3 _ [Hs Hd]. apply step_call; [done|by apply derived_targets].
Qed.

(** [sweep] closes exactly the connections past their deadline. *)
Lemma run_sweep k t p s :
  reactor_ok (rs_reactor s) -> proxy_ok k p (rs_reactor s) ->
  ends (sweep t p) s (fun p' s' => proxy_call k s p' s' /\
    forall ck, 0 <= index ck -> get (px_conns p') ck = (c ← get (px_conns p) ck; if cn_deadline c <=? t then None else Some c)).
Proof.
  intros Hok Hp. unfold sweep. pose proof (iter_NoDup (px_conns p)) as Hnd. set (keep := fun x : Key * Connection => cn_deadline x.2 <=? t).
  assert (Hin : forall ck, ck ∈ (List.filter keep (iter (px_conns p))).*1 <-> exists c, (ck, c) ∈ iter (px_conns p) /\ cn_deadline c <=? t = true).
  { intros ck. rewrite list_elem_of_fmap. split.
    - intros ([ck' c]&->&Hf). apply list_elem_of_In, filter_In in Hf as [Hf Hk]. exists c. split; [by apply list_elem_of_In|done].
    - intros (c&Hc&Hk). exists (ck, c). split; [done|]. apply list_elem_of_In, filter_In. split; [by apply list_elem_of_In|done]. }
  eapply runs_mono; [apply (run_close_all k); [done..| |]|].
  - clear Hin. revert Hnd. generalize (iter (px_conns p)). induction l as [|x l IH]; cbn; [constructor|].
    intros [Hni Hnd]%NoDup_cons. destruct (keep x); [|by apply IH]. cbn. apply NoDup_cons. split; [|by apply IH].
    intros (y&Ey&Hy)%list_elem_of_fmap. apply Hni, list_elem_of_fmap. exists y. split; [done|].
    apply list_elem_of_In, filter_In in Hy as [Hy _]. by apply list_elem_of_In.
  - intros ck (c&[Hck Hc]%elem_of_iter&_)%Hin. split; [done|by eexists].
  - intros p' s' _ (Hs&Hd&_&Hg). split; [by apply step_call; [|apply derived_targets]|]. intros ck Hck. rewrite Hg by done.
    destruct (get (px_conns p) ck) as [c|] eqn:Ec; cbn; [|by case_decide].
    destruct (cn_deadline c <=? t) eqn:Et; [rewrite decide_True; [done|]|rewrite decide_False; [done|]].
    + apply Hin. exists c. split; [by apply elem_of_iter|done].
    + intros (c'&[_ Hc']%elem_of_iter&Ht)%Hin. congruence.
Qed.

(** [DialDeviceProxy]'s calls, on an event of a registration of its own. *)
Lemma run_proxy_readable k p rk g s :
  reactor_ok (rs_reactor s) -> proxy_ok k p (rs_reactor s) -> 0 <= index rk -> get (rt_registrations (rs_reactor s)) rk = Some g ->
  rg_handler g = k -> keeping (proxy_on_readable (event_of g) p) s (proxy_call k s).
Proof.
  intros Hok Hp Hrk Hg Hh. unfold proxy_on_readable. cbn [event_of ev_fd ev_user_data].
  destruct (Z.eqb_spec (rg_fd g) (tcp_fd (px_desc p))); [by apply run_accept_desc|].
  destruct (Z.eqb_spec (rg_fd g) (tcp_fd (px_rest p))); [by apply run_accept_rest|].
  apply ends_keeping; [by eapply run_on_connection_readable|]. intros p' s' [[Ho _] _]. apply Ho.
Qed.
Lemma run_proxy_writable k p rk g s :
  reactor_ok (rs_reactor s) -> proxy_ok k p (rs_reactor s) -> 0 <= index rk -> get (rt_registrations (rs_reactor s)) rk = Some g ->
  rg_handler g = k -> rg_write g = true -> keeping (proxy_on_writable (event_of g) p) s (proxy_call k s).
Proof.
  intros Hok Hp Hrk Hg Hh Hw. apply ends_keeping; [by eapply run_on_connection_writable|]. intros p' s' [[Ho _] _]. apply Ho.
Qed.
Lemma run_proxy_deadline k t p s :
  reactor_ok (rs_reactor s) -> proxy_ok k p (rs_reactor s) -> keeping (proxy_on_deadline t p) s (proxy_call k s).
Proof.
  intros Hok Hp. apply ends_keeping; [eapply runs_mono; [by apply (run_sweep k)|by intros ??? [? _]]|]. intros p' s' [[Ho _] _]. apply Ho.
Qed.
End operations.

(** The proxy over every sequence of the reactor's calls: what it watches, and
    the descriptor it leaks when the kernel refuses to disarm one. *)

(** A call the reactor makes of the proxy: for an event of a registration, or for
    a deadline. *)
Inductive ProxyCall : Type := OnReadable (rk : Key) | OnWritable (rk : Key) | OnDeadline (now : Z).

Section calls.
Context {H W : Type} `{Kernel W} `{Poller W} `{Sockets W}.
Implicit Types (s : RState H W) (p : DialDeviceProxy).

(** As the reactor's dispatch does it: an event of a registration that is gone
    is dropped, and a writable one of a registration with no write interest. *)
Definition proxy_turn (k : Key) (call : ProxyCall) (p : DialDeviceProxy) : M (RState H W) Infallible DialDeviceProxy :=
  registrations ← gets registrations_of;
  let own rk := g ← get registrations rk; if bool_decide (rg_handler g = k) then Some g else None in
  match call with
  | OnReadable rk => match own rk with Some g => proxy_on_readable (event_of g) p | None => mret p end
  | OnWritable rk => match own rk with Some g => if rg_write g then proxy_on_writable (event_of g) p else mret p | None => mret p end
  | OnDeadline now => proxy_on_deadline now p
  end.
(** The calls, until the proxy is no longer registered. *)
Fixpoint proxy_turns (k : Key) (calls : list ProxyCall) (p : DialDeviceProxy) : M (RState H W) Infallible DialDeviceProxy :=
  match calls with
  | [] => mret p
  | call :: calls =>
      p ← proxy_turn k call p;
      handlers ← gets handlers_of;
      if contains handlers k then proxy_turns k calls p else mret p
  end.
Definition call_ok (call : ProxyCall) : Prop :=
  match call with OnReadable rk | OnWritable rk => 0 <= index rk | OnDeadline _ => True end.

Lemma new_proxy_ok k target iface desc ep rest (r : Reactor H) :
  0 <= index k -> watches_only k [tcp_fd desc; tcp_fd rest] r ->
  proxy_inv None k (proxy_adopt_key k (dial_proxy_new target iface desc ep rest)) r.
Proof.
  intros Hk Hw. assert (Hnone : forall ck c, get (@arena_new Connection) ck = Some c -> False).
  { intros ck c Hc. unfold get, slot in Hc. cbn in Hc. done. }
  split; cbn [proxy_adopt_key dial_proxy_new set_key px_key px_conns px_desc px_rest]; [done|apply arena_new_wf|cbn; lia| | |].
  - intros ck c _ Hc. by destruct (Hnone ck c).
  - intros rk g Hrk Hg Hh. left. destruct (wo_only _ _ _ Hw _ _ Hrk Hg Hh) as [? Hin]. split; [done|].
    apply elem_of_cons in Hin as [?|Hin]; [by left|]. apply list_elem_of_singleton in Hin. by right.
  - assert (Hl : forall fd, fd ∈ [tcp_fd desc; tcp_fd rest] -> listens arena_new k r fd).
    { intros fd (rk&g&Hrk&Hg&Hx)%(wo_all _ _ _ Hw). exists rk, g. split; [done|]. split; [done|]. split; [exact Hx|]. intros ck c d _ Hc. by destruct (Hnone ck c). }
    split; apply Hl; set_solver.
Qed.

(** A proxy keeps its listeners and its device for life. *)
Definition same_listeners p p' : Prop :=
  px_desc p' = px_desc p /\ px_rest p' = px_rest p /\ px_desc_endpoint p' = px_desc_endpoint p.
Definition keeps_listeners p (m : M (RState H W) Infallible DialDeviceProxy) : Prop :=
  forall s p' s', m s = (Ok p', s') -> same_listeners p p'.
Lemma listeners_bind {A} p (m : M (RState H W) Infallible A) f : (forall a, keeps_listeners p (f a)) -> keeps_listeners p (m ≫= f).
Proof. intros Hf s p' s'. unfold mbind, M_bind. destruct (m s) as [[a|e|] s1]; [apply Hf|done..]. Qed.
Lemma listeners_then p (m : M (RState H W) Infallible DialDeviceProxy) f :
  keeps_listeners p m -> (forall p1, same_listeners p p1 -> keeps_listeners p (f p1)) -> keeps_listeners p (m ≫= f).
Proof.
  intros Hm Hf s p' s'. unfold mbind, M_bind. destruct (m s) as [[p1|e|] s1] eqn:E; [|done..]. apply Hf. by apply (Hm s p1 s1).
Qed.
Lemma listeners_ret p p' : same_listeners p p' -> keeps_listeners p (mret p').
Proof. by intros Hp s q s' [= <- _]. Qed.
Lemma listeners_mono p p1 m : same_listeners p p1 -> keeps_listeners p1 m -> keeps_listeners p m.
Proof. intros (E1&E2&E3) Hm s p' s' E. destruct (Hm _ _ _ E) as (F1&F2&F3). split_and!; congruence. Qed.

Ltac listeners := repeat first
  [ apply listeners_ret; done | apply listeners_bind; intros ? | case_match
  | progress intros ].
Lemma close_conn_listeners ck p : keeps_listeners p (close_conn ck p).
Proof. unfold close_conn. listeners. Qed.
Lemma close_all_listeners keys p : keeps_listeners p (close_all keys p).
Proof.
  revert p. induction keys as [|ck keys IH]; intros p; cbn [close_all]; [by apply listeners_ret|].
  apply listeners_then; [apply close_conn_listeners|]. intros p1 Hp1. by eapply listeners_mono.
Qed.
Lemma start_connection_listeners client ep own p : keeps_listeners p (start_connection client ep own p).
Proof.
  unfold start_connection. listeners.
  all: match goal with |- keeps_listeners ?p (close_conn _ ?q) => by apply (listeners_mono p q), close_conn_listeners end.
Qed.
Lemma adopt_listeners ep p : keeps_listeners p (adopt_rest_endpoint ep p).
Proof. unfold adopt_rest_endpoint. listeners; destruct a; by apply listeners_ret. Qed.
Lemma readable_listeners ev p : keeps_listeners p (proxy_on_readable ev p).
Proof.
  unfold proxy_on_readable, accept_desc, accept_rest. case_match; [listeners; apply start_connection_listeners|].
  case_match; [listeners; apply start_connection_listeners|]. unfold on_connection_readable. destruct (get _ _); [|by apply listeners_ret].
  apply listeners_bind. intros [o c1]. destruct (take_learned_rest c1) as [learned c2]. cbv zeta. apply listeners_then.
  - destruct learned; [by eapply listeners_mono, adopt_listeners|by apply listeners_ret].
  - intros p1 Hp1. destruct o; [by apply listeners_ret|by eapply listeners_mono, close_conn_listeners].
Qed.
Lemma writable_listeners ev p : keeps_listeners p (proxy_on_writable ev p).
Proof. unfold proxy_on_writable, on_connection_writable. listeners. Qed.
Lemma proxy_turns_listeners k calls p : keeps_listeners p (proxy_turns k calls p).
Proof.
  revert p. induction calls as [|call calls IH]; intros p; cbn [proxy_turns]; [by apply listeners_ret|].
  apply listeners_then; [|intros p1 Hp1; apply listeners_bind; intros hs; case_match; [by apply (listeners_mono p p1)|by apply listeners_ret]].
  unfold proxy_turn. apply listeners_bind. intros regs. cbv zeta.
  destruct call; [| |apply close_all_listeners]; listeners; [apply readable_listeners|apply writable_listeners].
Qed.

(** What a proxy serves, as the registry relies on ([serving] of DialRegistrySpec):
    its device, on its description listener, from its making on. *)
Definition proxy_serves p : option (SocketAddrV4 * SocketAddrV4) := Some (tcp_local (px_desc p), px_desc_endpoint p).
Lemma new_proxy_serves k target iface desc ep rest :
  proxy_serves (proxy_adopt_key k (dial_proxy_new target iface desc ep rest)) = Some (tcp_local desc, ep).
Proof. done. Qed.
Lemma proxy_turns_serve k calls p s p' s' : proxy_turns k calls p s = (Ok p', s') -> proxy_serves p' = proxy_serves p.
Proof. intros (E1&_&E3)%proxy_turns_listeners. unfold proxy_serves. by rewrite E1, E3. Qed.

Context (Htyped : sockets_typed W) (Hsteady : steady (W:=W)).
Abbreviation keeping := (runs (fun s => reactor_ok (rs_reactor s)) (fun s => exhausted (rs_reactor s))).

Lemma run_proxy_turn k call p s :
  reactor_ok (rs_reactor s) -> proxy_inv None k p (rs_reactor s) -> call_ok call -> keeping (proxy_turn k call p) s (proxy_call k s).
Proof.
  intros Hok Hp Hc.
  assert (Hstop : keeping (mret p : M (RState H W) Infallible _) s (proxy_call k s)) by (split; [exact Hok|by apply proxy_call_same]).
  eapply runs_bind with (P := fun a s' => a = registrations_of s /\ s' = s); [done|]. intros ? ? _ [-> ->]. cbv zeta.
  destruct call as [rk|rk|t]; [| |by apply run_proxy_deadline].
  all: unfold registrations_of; destruct (get _ rk) as [g|] eqn:Eg; cbn; [|exact Hstop]; case_bool_decide; [|exact Hstop].
  - by eapply run_proxy_readable.
  - destruct (rg_write g) eqn:Ew; [|exact Hstop]. by eapply run_proxy_writable.
Qed.

Lemma run_proxy_turns k calls p s :
  reactor_ok (rs_reactor s) -> proxy_inv None k p (rs_reactor s) -> Forall call_ok calls ->
  is_Some (get (rt_handlers (rs_reactor s)) k) -> keeping (proxy_turns k calls p) s (proxy_post k s).
Proof.
  intros Hok Hp Hcalls. revert p s Hok Hp. induction Hcalls as [|call calls Hc _ IH]; intros p s Hok Hp Hreg; cbn [proxy_turns].
  { apply runs_ret; [done|]. by apply proxy_step_post, proxy_step_refl. }
  eapply runs_bind; [by apply run_proxy_turn|]. intros p1 s1 Hok1 [[Ho Hpost] _].
  eapply runs_bind with (P := fun a s' => a = handlers_of s1 /\ s' = s1); [done|]. intros ? ? _ [-> ->].
  destruct (contains (handlers_of s1) k) eqn:Ec; [|by apply runs_ret].
  apply contains_iff in Ec. destruct Hpost as [Hn|[Hh Hp1]]; [unfold handlers_of in Ec; rewrite Hn in Ec; by destruct Ec|].
  eapply runs_mono; [by apply IH|]. intros p2 s2 _ [Ho2 Hpost2]. split; [by eapply others_trans|].
  destruct Hpost2 as [|[Hh2 ?]]; [by left|right]. split; [unfold held in *; congruence|done].
Qed.

(** C15. A DIAL proxy watches exactly what it serves.  From its registration with
    its two listeners, over any sequence of the reactor's calls and whatever the
    kernel answers, as long as it does not refuse to change the interest of a
    descriptor it watches: no call panics unless an arena of the reactor is used
    up; every other handler's registrations stand unchanged; and then either the
    proxy is gone with every registration of its own, or it has at most 64
    connections, both listeners are watched still, to read, each side of a
    connection is watched under the proxy's key with the connection's token or
    has hung up, and everything watched is one of the two listeners, without
    write interest, or a side of a live connection. *)
Theorem dial_proxy_watches k target iface desc ep rest calls s :
  reactor_ok (rs_reactor s) -> 0 <= index k -> is_Some (get (handlers_of s) k) ->
  watches_only k [tcp_fd desc; tcp_fd rest] (rs_reactor s) -> Forall call_ok calls ->
  match proxy_turns k calls (proxy_adopt_key k (dial_proxy_new target iface desc ep rest)) s with
  | (Ok p, s') =>
      let registered rk g := 0 <= index rk /\ get (registrations_of s') rk = Some g in
      reactor_ok (rs_reactor s') /\
      (forall rk g, 0 <= index rk -> rg_handler g <> k ->
         get (registrations_of s') rk = Some g <-> get (registrations_of s) rk = Some g) /\
      (get (handlers_of s') k = None /\ (forall rk g, registered rk g -> rg_handler g <> k) \/
       (length (iter (px_conns p)) <= MAX_CONNECTIONS)%nat /\
       (forall fd, fd ∈ [tcp_fd desc; tcp_fd rest] -> exists rk g, registered rk g /\
          rg_handler g = k /\ rg_fd g = fd /\ rg_read g = true) /\
       (forall ck c d rk, (ck, c) ∈ iter (px_conns p) -> from_reg d c = Some rk -> exists g, registered rk g /\
          rg_handler g = k /\ rg_fd g = from_fd d c /\ from_u64 (rg_user_data g) = ck) /\
       (forall rk g, registered rk g -> rg_handler g = k ->
          rg_write g = false /\ (rg_fd g = tcp_fd desc \/ rg_fd g = tcp_fd rest) \/
          exists ck c d, (ck, c) ∈ iter (px_conns p) /\ from_reg d c = Some rk))
  | (Err _, _) => False
  | (Panic, s') => exhausted (rs_reactor s')
  end.
Proof.
  intros Hok Hk Hreg Hw Hcalls. pose proof (new_proxy_ok k target iface desc ep rest _ Hk Hw) as Hp.
  pose proof (run_proxy_turns k calls _ s Hok Hp Hcalls Hreg) as Hrun. unfold runs in Hrun.
  pose proof (proxy_turns_listeners k calls (proxy_adopt_key k (dial_proxy_new target iface desc ep rest)) s) as Hsame.
  destruct (proxy_turns _ _ _ s) as [[p|[]|] s']; [|done]. destruct (Hsame p s' eq_refl) as (Ed&Ere&_).
  cbn [proxy_adopt_key dial_proxy_new set_key px_desc px_rest] in Ed, Ere. destruct Hrun as [Hok' [Ho Hpost]]. cbv zeta.
  split; [done|]. split; [intros rk g Hrk Hne; by apply (ot_regs _ _ _ Ho)|]. destruct Hpost as [Hn|[_ [P1 P2 P3 P4 P5 P6]]]; [|rewrite Ed, Ere in P5, P6].
  - left. split; [done|]. intros rk g [Hrk Hg] <-. destruct (ro_owned _ Hok' _ _ Hrk Hg) as (_&e&He&_). congruence.
  - right. split_and!.
    + rewrite <- P3. apply length_iter_slots.
    + assert (Hl : forall fd, listens (px_conns p) k (rs_reactor s') fd -> exists rk g, (0 <= index rk /\ get (registrations_of s') rk = Some g) /\
        rg_handler g = k /\ rg_fd g = fd /\ rg_read g = true) by (intros fd (rk&g&?&?&?&_); by exists rk, g).
      intros fd [-> | ->%list_elem_of_singleton]%elem_of_cons; apply Hl, P6.
    + intros ck c d rk [Hck Hc]%elem_of_iter Er. destruct (P4 _ _ Hck Hc) as [_ Hs]. destruct (Hs _ _ Er) as (Hrk&g&Hg&G1&G2&G3).
      exists g. split; [done|]. split_and!; [done..|]. rewrite G3. apply key_u64_roundtrip. exact (get_key_ok _ _ _ P2 Hck Hc).
    + intros rk g [Hrk Hg] Hh. destruct (P5 _ _ Hrk Hg Hh) as [|(ck&c&d&Hck&Hc&Er)]; [by left|right].
      exists ck, c, d. split; [by apply elem_of_iter|done].
Qed.
End calls.

(** ** Witness: a client accepted *)

Definition ex_unregistered : RState () (() * list bytes) := {| rs_reactor := reactor_new (); rs_world := ((), []) |}.
Definition ex_proxy_registered : res IoError Key * RState () (() * list bytes) :=
  register_with_fds (H0 := still_poller (() * list bytes)) (H1 := unit_adopt) () [(20, 0); (21, 0)] ex_unregistered.
Abbreviation ex_calls := [OnReadable {| index := 0; generation := 0 |}].
Abbreviation ex_proxy_run k s :=
  (proxy_turns (H0 := ex_kernel) (H1 := still_poller (() * list bytes)) (H2 := scripted_sockets) k ex_calls
     (proxy_adopt_key k (dial_proxy_new (Ipv4.new 10 0 0 1) None (ex_socket 20 false) ex_endpoint (ex_socket 21 false))) s).

Lemma dial_proxy_watches_witness :
  match ex_proxy_registered with
  | (Ok k, s) => match ex_proxy_run k s with
                 | (Ok p, s') => length (iter (px_conns p)) = 1%nat /\ length (iter (registrations_of s')) = 4%nat /\ reactor_ok (rs_reactor s')
                 | _ => False
                 end
  | _ => False
  end.
Proof.
  assert (E : match ex_proxy_registered with
    | (Ok k, s) => match ex_proxy_run k s with
                   | (Ok p, s') => length (iter (px_conns p)) = 1%nat /\ length (iter (registrations_of s')) = 4%nat
                   | _ => False
                   end
    | _ => False
    end) by (vm_compute; split; reflexivity).
  pose proof (run_register_with_fds (H0 := still_poller (() * list bytes)) (H1 := unit_adopt) () [(20, 0); (21, 0)] ex_unregistered reactor_new_ok) as Hr.
  revert E Hr. unfold ex_proxy_registered.
  generalize (register_with_fds (H0 := still_poller (() * list bytes)) (H1 := unit_adopt) () [(20, 0); (21, 0)] ex_unregistered).
  intros [[k|e|] s] E Hr; [|destruct E..]. destruct Hr as (Hk&_&Ho&Hh&Hw).
  assert (Hreg : is_Some (get (handlers_of s) k)).
  { unfold handlers_of. destruct (get (rt_handlers (rs_reactor s)) k); [eexists; reflexivity|discriminate Hh]. }
  assert (Hcalls : Forall call_ok ex_calls) by (constructor; [apply Z.le_refl|constructor]).
  pose proof (dial_proxy_watches (H0 := ex_kernel) (H1 := still_poller (() * list bytes)) (H2 := scripted_sockets)
    scripted_typed (fun _ _ _ _ _ => eq_refl) k (Ipv4.new 10 0 0 1) None (ex_socket 20 false) ex_endpoint (ex_socket 21 false)
    ex_calls s (ot_ok _ _ _ Ho) Hk Hreg Hw Hcalls) as H.
  revert E H. generalize (ex_proxy_run k s). intros [[p|e|] s'] E H; [|destruct E..]. destruct E as [E1 E2].
  split; [exact E1|]. split; [exact E2|]. exact (proj1 H).
Defined.

(** ** A descriptor that stays registered *)

(** A kernel that refuses to disarm the device's socket, a second client on the
    descriptor number that the first one's socket had. *)
Definition refusing_poller (W : Type) : Poller W :=
  {| poll_add := fun _ _ w => (inr (), w); poll_remove := fun _ w => (inr (), w);
     poll_set_interest := fun fd _ read _ w => (if (fd =? 12) && negb read then inl (OsError 12) else inr (), w);
     poll_wait := fun _ w => (inr [], w) |}.
Definition hang_up : list ProxyCall :=
  let reg n := {| index := n; generation := 0 |} in
  [OnReadable (reg 0); OnReadable (reg 2); OnReadable (reg 2); OnReadable (reg 0)].

(** A hung-up client's registration outlives its connection when the kernel
    refuses to disarm the device's side: [peer_gone] has taken the client's
    registration out of the connection before it tries, and its short-circuit
    skips the [unwatch], so [teardown] no longer finds it.  The descriptor the
    connection closed stays registered, and the next client, on the same
    descriptor number, is refused. *)
Theorem hung_up_registration_leaks :
  match ex_proxy_registered with
  | (Ok k, s) =>
      match proxy_turns (H0 := ex_kernel) (H1 := refusing_poller (() * list bytes)) (H2 := scripted_sockets) k hang_up
              (proxy_adopt_key k (dial_proxy_new (Ipv4.new 10 0 0 1) None (ex_socket 20 false) ex_endpoint (ex_socket 21 false))) s with
      | (Ok p, s') => iter (px_conns p) = [] /\ rg_fd <$> (iter (registrations_of s')).*2 = [20; 21; 13]
      | _ => False
      end
  | _ => False
  end.
Proof. vm_compute. split; reflexivity. Qed.
