(* ===== verification/Reflector.v ===== *)
(** The reflectors' data ([src/reflector.rs],
    [src/reflector/simple.rs], [src/reflector/search.rs] and the protocols beside
    them): verdicts, deliveries, how a re-emit is stamped, the handlers
    themselves, and the decisions that need no dispatcher. *)

From S2P Require Import Prelude Text Addr Names Interface Packet Mac LinearMap Counters Arena Value Datagram.
From S2P Require Import Ssdp Wsd Mdns MdnsFilters.

Local Open Scope Z_scope.

(** [Verdict] *)
Inductive Verdict : Type :=
  | VReflect (t : MessageType)
  | VSkip (t : MessageType)
  | Excluded
  | Junk.
Global Instance Verdict_eq_dec : EqDecision Verdict.
Proof. solve_decision. Defined.

(** [Delivery] *)
Inductive Delivery : Type :=
  | ToLink
  | ToPeers (peers : list IpAddr)
  | ToUnicast (to : SocketAddr) (mac : MacAddr).

(** [Delivery::new] *)
Definition delivery_new (peers : option PeerList) : Delivery :=
  match peers with Some peers => ToPeers peers | None => ToLink end.

(** [Delivery::destination] *)
Definition delivery_destination (d : Delivery) (dst : IpAddr) : option IpAddr :=
  match d with
  | ToLink => Some dst
  | ToPeers peers => snd <$> list_find (fun peer => is_v4 peer = is_v4 dst) peers
  | ToUnicast to _ => Some (ip to)
  end.

(** [SourcePort], [Source] and [Ttl], with their [resolve] *)
Inductive SourcePort : Type := FixedPort (port : Z) | CapturedPort.
Inductive Source : Type := SEgress (port : SourcePort) | SCaptured.
Inductive Ttl : Type := FixedTtl (ttl : Z) | CapturedTtl.

Definition resolve_port (p : SourcePort) (packet : Packet) : Z :=
  match p with FixedPort port => port | CapturedPort => port (pk_source packet) end.
Definition resolve_source (s : Source) (packet : Packet) : DatagramSource :=
  match s with SEgress p => FromEgress (resolve_port p packet) | SCaptured => Exact (pk_source packet) end.
Definition resolve_ttl (t : Ttl) (packet : Packet) : Z :=
  match t with FixedTtl ttl => ttl | CapturedTtl => pk_ttl packet end.

(** [UnicastTo] *)
Inductive UnicastTo : Type := Nowhere | ToBroadcast | ToGroup (v4 v6 : Z).

(** [Emit] and its constructors *)
Record Emit : Type := { em_source : Source; em_ttl : Ttl; em_unicast : UnicastTo }.
Definition emit_fixed (port ttl : Z) : Emit :=
  {| em_source := SEgress (FixedPort port); em_ttl := FixedTtl ttl; em_unicast := Nowhere |}.
Definition emit_captured_from_egress : Emit :=
  {| em_source := SEgress CapturedPort; em_ttl := CapturedTtl; em_unicast := Nowhere |}.
Definition emit_reply (ttl : Z) : Emit :=
  {| em_source := SEgress CapturedPort; em_ttl := FixedTtl ttl; em_unicast := Nowhere |}.
Definition emit_captured : Emit := {| em_source := SCaptured; em_ttl := CapturedTtl; em_unicast := Nowhere |}.
Definition unicast_to_broadcast (e : Emit) : Emit :=
  {| em_source := em_source e; em_ttl := em_ttl e; em_unicast := ToBroadcast |}.
Definition unicast_to_group (v4 v6 : Z) (e : Emit) : Emit :=
  {| em_source := em_source e; em_ttl := em_ttl e; em_unicast := ToGroup v4 v6 |}.

(** [V6_ALL_NODES] *)
Definition V6_ALL_NODES : Z := Ipv6.new 65282 0 0 0 0 0 0 1.

(** [link_destination] *)
Definition link_destination (dest : SocketAddr) (directed_broadcast : option Z) (unicast : UnicastTo) : option SocketAddr :=
  let keeps := match ip dest with
               | V4 v4 => Ipv4.is_multicast v4 || Ipv4.is_broadcast v4
               | V6 v6 => Ipv6.is_multicast v6
               end in
  if keeps then Some dest
  else
    match ip dest, unicast with
    | _, Nowhere => None
    | V4 _, ToBroadcast => Some {| ip := V4 (default Ipv4.BROADCAST directed_broadcast); port := port dest |}
    | V6 _, ToBroadcast => Some {| ip := V6 V6_ALL_NODES; port := port dest |}
    | V4 _, ToGroup v4 _ => Some {| ip := V4 v4; port := port dest |}
    | V6 _, ToGroup _ v6 => Some {| ip := V6 v6; port := port dest |}
    end.

(** [directional_verdict] *)
Definition directional_verdict {K} `{EqDecision K} (into : K -> MessageType) (kind : option K) (reflect : K) : Verdict :=
  match kind with
  | Some kind => if decide (kind = reflect) then VReflect (into kind) else VSkip (into kind)
  | None => Junk
  end.

(** [impl From<MdnsKind> for MessageType] and its peers *)
Definition mdns_type (k : MdnsKind) : MessageType :=
  match k with Query => MdnsQuery | Response => MdnsResponse end.
Definition ssdp_type (k : SsdpKind) : MessageType :=
  match k with Ssdp.Search => SsdpSearch | Ssdp.Advertisement => SsdpAdvertisement end.
Definition wsd_type (k : WsdKind) : MessageType :=
  match k with Wsd.Search => WsdSearch | Wsd.Announcement => WsdAnnouncement end.

(** The classifiers: of mDNS ([direction]), SSDP, WSD, the relay and WoL. *)
Definition direction (kind : MdnsKind) (payload : bytes) : res Infallible Verdict :=
  found ← Mdns.classify payload; Ok (directional_verdict mdns_type found kind).
Definition ssdp_advertisement_verdict (payload : bytes) : res Infallible Verdict :=
  Ok (directional_verdict ssdp_type (Ssdp.classify payload) Ssdp.Advertisement).
Definition ssdp_search_verdict (payload : bytes) : res Infallible Verdict :=
  Ok (directional_verdict ssdp_type (Ssdp.classify payload) Ssdp.Search).
Definition wsd_announcement_verdict (payload : bytes) : res Infallible Verdict :=
  found ← Wsd.classify payload; Ok (directional_verdict wsd_type found Wsd.Announcement).
Definition wsd_search_verdict (payload : bytes) : res Infallible Verdict :=
  found ← Wsd.classify payload; Ok (directional_verdict wsd_type found Wsd.Search).
Definition relay (payload : bytes) : res Infallible Verdict := Ok (VReflect UdpDatagram).

(** [magic_packet_mac] *)
Definition PREFIX_LEN : nat := 6.
Definition MAC_LEN : nat := 6.
Definition MAC_REPS : nat := 16.
Definition MAGIC_LEN : nat := PREFIX_LEN + MAC_REPS * MAC_LEN.
Fixpoint as_chunks (n count : nat) (l : bytes) : list bytes :=
  match count with O => [] | S count => take n l :: as_chunks n count (drop n l) end.
Definition magic_packet_mac (payload : bytes) : option MacAddr :=
  magic ← get_range 0 MAGIC_LEN payload;
  if negb (bool_decide (take PREFIX_LEN magic = replicate PREFIX_LEN 255)) then None
  else
    match as_chunks MAC_LEN MAC_REPS (drop PREFIX_LEN magic) with
    | mac :: repeats => if existsb (fun rep => negb (bool_decide (rep = mac))) repeats then None else Some mac
    | [] => None
    end.

(** [wake_allowed] and [WakeClassifier::classify] *)
Definition wake_allowed (mac : MacAddr) (targets : option MacSet) : bool :=
  match targets with Some targets => bool_decide (mac ∈ targets) | None => true end.
Definition wake_classify (target_macs : option MacSet) (family : AddressFamily) (packet : Packet) : res Infallible Verdict :=
  Ok (match magic_packet_mac (pk_payload packet) with
      | None => Junk
      | Some mac =>
          if negb (wake_allowed mac target_macs) then Excluded
          else if negb (uses family (ip (pk_dest packet))) then Excluded
          else VReflect WakeOnLan
      end).

(** [Rewrite] *)
Inductive Rewrite : Type := Verbatim | Replaced (payload : bytes) | RwRefused | Unreadable.

(** [ServiceGate] and [ResponseGate] *)
Record ServiceGate : Type := { sg_message_type : MessageType; sg_services : ServiceList }.
Record ResponseGate : Type := { rp_services : option ServiceGate }.

(** [ServiceGate::judge] *)
Definition service_judge (g : ServiceGate) (packet : Packet) : res Infallible Rewrite :=
  decision ← decide_services (sg_services g) (pk_payload packet);
  Ok (match decision with
      | Pass => Verbatim
      | Refuse _ => RwRefused
      | Trimmed payload _ _ => Replaced payload
      | MalformedMessage => Unreadable
      end).

(** [ResponseGate::judge] *)
Definition response_judge (g : ResponseGate) (packet : Packet) : res Infallible Rewrite :=
  judged ← (match rp_services g with
            | None => Ok Verbatim
            | Some services => service_judge services packet
            end);
  match judged with
  | RwRefused | Unreadable => Ok judged
  | Verbatim | Replaced _ =>
      let trimmed := match judged with Replaced payload => Some payload | _ => None end in
      stripped ← strip (default (pk_payload packet) trimmed);
      Ok (match stripped with
          | Some (payload, _) => Replaced payload
          | None => match trimmed with Some payload => Replaced payload | None => Verbatim end
          end)
  end.

(** The implementors of [ReplyRewrite]; a [DialRewrite] holds its target. *)
Inductive ReplyRewrite : Type :=
  | NoRewrite
  | ServiceRewrite (g : ServiceGate)
  | ResponseRewrite (g : ResponseGate)
  | DialRewrite (target : CaptureKey).

(** [keeps_advertised_addresses] *)
Definition keeps_advertised_addresses (r : ReplyRewrite) : bool := match r with DialRewrite _ => false | _ => true end.

(** [SimpleReflector] *)
Record SimpleReflector : Type := {
  sr_egress : CaptureKey;
  sr_delivery : Delivery;
  sr_classify : Packet -> res Infallible Verdict;
  sr_emit : Emit;
  sr_rewrite : ReplyRewrite;
  sr_suppress : bytes -> res Infallible bool;
}.
Definition simple_new (egress : CaptureKey) (delivery : Delivery) (classify : Packet -> res Infallible Verdict) (emit : Emit)
    : SimpleReflector :=
  {| sr_egress := egress; sr_delivery := delivery; sr_classify := classify; sr_emit := emit; sr_rewrite := NoRewrite;
     sr_suppress := fun _ => Ok false |}.
Definition with_rewrite (r : ReplyRewrite) (s : SimpleReflector) : SimpleReflector :=
  {| sr_egress := sr_egress s; sr_delivery := sr_delivery s; sr_classify := sr_classify s; sr_emit := sr_emit s;
     sr_rewrite := r; sr_suppress := sr_suppress s |}.
Definition with_suppress (f : bytes -> res Infallible bool) (s : SimpleReflector) : SimpleReflector :=
  {| sr_egress := sr_egress s; sr_delivery := sr_delivery s; sr_classify := sr_classify s; sr_emit := sr_emit s;
     sr_rewrite := sr_rewrite s; sr_suppress := f |}.
(** A classifier of payloads alone, [impl Classify for F]. *)
Definition of_payload (f : bytes -> res Infallible Verdict) (packet : Packet) : res Infallible Verdict := f (pk_payload packet).

(** [SearchProtocol] *)
Record SearchProtocol : Type := {
  sp_port : Z;
  sp_ttl : Z;
  sp_group_v4 : Z;
  sp_groups_v6 : list Z;
  sp_response_type : MessageType;
  sp_announcement_verdict : bytes -> res Infallible Verdict;
  sp_search_verdict : bytes -> res Infallible Verdict;
  sp_window : bytes -> Z;
  sp_suppress : bytes -> res Infallible bool;
}.

(** [SessionKey] and [Session] *)
Record SessionKey : Type := { sk_searcher : SocketAddr; sk_dest : SocketAddr }.
Global Instance SessionKey_eq_dec : EqDecision SessionKey.
Proof. solve_decision. Defined.
Record Session : Type := { se_expiry : Z; se_reserved : SocketAddr; se_response_key : Key }.

(** [SearchReflector] *)
Record SearchReflector : Type := {
  sh_source : CaptureKey;
  sh_target : CaptureKey;
  sh_delivery : Delivery;
  sh_device_macs : option MacSet;
  sh_protocol : SearchProtocol;
  sh_make_reply : ReplyRewrite;
  sh_sessions : LinearMap SessionKey Session;
}.
Definition with_sessions (s : SearchReflector) (sessions : LinearMap SessionKey Session) : SearchReflector :=
  {| sh_source := sh_source s; sh_target := sh_target s; sh_delivery := sh_delivery s; sh_device_macs := sh_device_macs s;
     sh_protocol := sh_protocol s; sh_make_reply := sh_make_reply s; sh_sessions := sessions |}.

(** A reflector, called for each packet its registration's filter admits. *)
Inductive PacketHandler : Type :=
  | HSimple (s : SimpleReflector)
  | HSearch (s : SearchReflector).

(** [SSDP] and [WSD] *)
Definition SESSION_GRACE : Z := 2 * 10 ^ 9.
Definition ssdp_search_window (payload : bytes) : Z :=
  default MSEARCH_MX_DEFAULT (parse_msearch_mx payload) * 10 ^ 9 + SESSION_GRACE.
Definition SSDP : SearchProtocol :=
  {| sp_port := SSDP_PORT; sp_ttl := SSDP_TTL; sp_group_v4 := SSDP_GROUP_V4;
     sp_groups_v6 := [SSDP_GROUP_V6_LINK_LOCAL; SSDP_GROUP_V6_SITE_LOCAL]; sp_response_type := SsdpResponse;
     sp_announcement_verdict := ssdp_advertisement_verdict; sp_search_verdict := ssdp_search_verdict;
     sp_window := ssdp_search_window; sp_suppress := fun payload => Ok (Ssdp.advertises_only_unreachable payload) |}.
Definition SESSION_WINDOW : Z := 5 * 10 ^ 9.
Definition wsd_window (payload : bytes) : Z := SESSION_WINDOW.
Definition WSD : SearchProtocol :=
  {| sp_port := WSD_PORT; sp_ttl := WSD_TTL; sp_group_v4 := WSD_GROUP_V4; sp_groups_v6 := [WSD_GROUP_V6];
     sp_response_type := WsdResponse; sp_announcement_verdict := wsd_announcement_verdict;
     sp_search_verdict := wsd_search_verdict; sp_window := wsd_window; sp_suppress := Wsd.advertises_only_unreachable |}.

(** [group_addrs] and [SearchProtocol::groups] *)
Definition group_addrs (family : AddressFamily) (port : Z) (v4 : Z) (v6 : list Z) : list SocketAddr :=
  (if uses_ipv4 family then [{| ip := V4 v4; port := port |}] else []) ++
  (if uses_ipv6 family then (fun group => {| ip := V6 group; port := port |}) <$> v6 else []).
Definition protocol_groups (p : SearchProtocol) (family : AddressFamily) : list SocketAddr :=
  group_addrs family (sp_port p) (sp_group_v4 p) (sp_groups_v6 p).
