(* ===== verification/Dispatcher.v ===== *)
(** The packet dispatcher ([src/dispatch.rs]): its registrations with their
    filters, the state it keeps, and the services it offers the reflectors. *)

From S2P Require Import Prelude Effect Text Addr Names Interface Kernel Multicast InterfaceTable Lifecycle.
From S2P Require Import Counters Packet Reassembly LinearMap Arena Value Frame Datagram Egress.
From S2P Require Import Reactor DialRegistry Reflector.

Local Open Scope Z_scope.

Definition MAX_FRAMES_PER_EVENT : nat := 64.
Definition MONITOR_TAG : Z := 2 ^ 64 - 1.

(** [Filter]: an unset field matches anything. *)
Record Filter : Type := {
  fl_src_ip : option IpAddr;
  fl_dst_ip : option (list IpAddr);
  fl_src_port : option Z;
  fl_dst_port : option (list Z);
  fl_src_mac : option MacSet;
  fl_dst_mac : option MacAddr;
  fl_broadcast : bool;
  fl_dst_own : option AddressFamily;
}.
Definition filter_default : Filter :=
  {| fl_src_ip := None; fl_dst_ip := None; fl_src_port := None; fl_dst_port := None; fl_src_mac := None;
     fl_dst_mac := None; fl_broadcast := false; fl_dst_own := None |}.

(** [Option::is_none_or] *)
Definition is_none_or {A} (o : option A) (p : A -> bool) : bool := match o with Some a => p a | None => true end.
(** [Option::is_some_and] *)
Definition is_some_and {A} (o : option A) (p : A -> bool) : bool := match o with Some a => p a | None => false end.

(** [Filter::matches] *)
Definition filter_matches (f : Filter) (p : Packet) (ingress : option InterfaceAddresses) : bool :=
  (negb (fl_broadcast f) || is_broadcast p (ingress ≫= v4_directed_broadcast)) &&
  is_none_or (fl_src_ip f) (fun a => bool_decide (ip (pk_source p) = a)) &&
  is_none_or (fl_dst_ip f) (fun set =>
    bool_decide (ip (pk_dest p) ∈ set) ||
    is_some_and (fl_dst_own f) (fun family =>
      uses family (ip (pk_dest p)) && is_some_and ingress (fun addrs => has addrs (ip (pk_dest p))))) &&
  is_none_or (fl_src_port f) (fun n => port (pk_source p) =? n) &&
  is_none_or (fl_dst_port f) (fun set => bool_decide (port (pk_dest p) ∈ set)) &&
  is_none_or (fl_src_mac f) (fun set => is_some_and (pk_src_mac p) (fun mac => bool_decide (mac ∈ set))) &&
  is_none_or (fl_dst_mac f) (fun mac => bool_decide (pk_dst_mac p = Some mac)).

(** [Registration]: the handler is [None] only while taken out for its call. *)
Record Registration : Type := { rn_ingress : CaptureKey; rn_filter : Filter; rn_handler : option PacketHandler }.
#[export] Instance registration_slot : HandlerSlot Registration PacketHandler := {
  handler_slot := rn_handler;
  set_slot := fun h r => {| rn_ingress := rn_ingress r; rn_filter := rn_filter r; rn_handler := h |};
  slot_set_slot := fun h r => eq_refl;
  set_slot_slot := fun h h' r => eq_refl;
  set_slot_same := fun r => match r with {| rn_ingress := i; rn_filter := f; rn_handler := h |} => eq_refl end;
}.

Record CounterReport : Type := { cr_interval : Z; cr_next : Z }.

Record PacketDispatcher : Type := {
  pd_table : InterfaceTable;
  pd_registrations : Arena Registration;
  pd_lifecycle : Lifecycle;
  pd_dial : DialContext;
  pd_egress : Egress;
  pd_reassembly : Reassembler;
  pd_report : option CounterReport;
}.

(** [PacketDispatcher::with_table], [new] and [without_group_joins] *)
Definition with_table (table : InterfaceTable) (monitor : bool) (now next_id : Z) : PacketDispatcher :=
  {| pd_table := table; pd_registrations := arena_new; pd_lifecycle := lifecycle_new monitor now; pd_dial := dial_new;
     pd_egress := egress_new next_id; pd_reassembly := reassembler_new; pd_report := None |}.
Definition dispatcher_new : bool -> Z -> Z -> PacketDispatcher := with_table table_new.
Definition dispatcher_without_group_joins : bool -> Z -> Z -> PacketDispatcher := with_table without_group_joins.

Definition set_table (d : PacketDispatcher) (t : InterfaceTable) : PacketDispatcher :=
  {| pd_table := t; pd_registrations := pd_registrations d; pd_lifecycle := pd_lifecycle d; pd_dial := pd_dial d;
     pd_egress := pd_egress d; pd_reassembly := pd_reassembly d; pd_report := pd_report d |}.
Definition set_regs (d : PacketDispatcher) (a : Arena Registration) : PacketDispatcher :=
  {| pd_table := pd_table d; pd_registrations := a; pd_lifecycle := pd_lifecycle d; pd_dial := pd_dial d;
     pd_egress := pd_egress d; pd_reassembly := pd_reassembly d; pd_report := pd_report d |}.
Definition set_lifecycle (d : PacketDispatcher) (l : Lifecycle) : PacketDispatcher :=
  {| pd_table := pd_table d; pd_registrations := pd_registrations d; pd_lifecycle := l; pd_dial := pd_dial d;
     pd_egress := pd_egress d; pd_reassembly := pd_reassembly d; pd_report := pd_report d |}.
Definition set_dial (d : PacketDispatcher) (c : DialContext) : PacketDispatcher :=
  {| pd_table := pd_table d; pd_registrations := pd_registrations d; pd_lifecycle := pd_lifecycle d; pd_dial := c;
     pd_egress := pd_egress d; pd_reassembly := pd_reassembly d; pd_report := pd_report d |}.
Definition set_egress (d : PacketDispatcher) (e : Egress) : PacketDispatcher :=
  {| pd_table := pd_table d; pd_registrations := pd_registrations d; pd_lifecycle := pd_lifecycle d; pd_dial := pd_dial d;
     pd_egress := e; pd_reassembly := pd_reassembly d; pd_report := pd_report d |}.
Definition set_reassembly (d : PacketDispatcher) (r : Reassembler) : PacketDispatcher :=
  {| pd_table := pd_table d; pd_registrations := pd_registrations d; pd_lifecycle := pd_lifecycle d; pd_dial := pd_dial d;
     pd_egress := pd_egress d; pd_reassembly := r; pd_report := pd_report d |}.
Definition set_report (d : PacketDispatcher) (r : option CounterReport) : PacketDispatcher :=
  {| pd_table := pd_table d; pd_registrations := pd_registrations d; pd_lifecycle := pd_lifecycle d; pd_dial := pd_dial d;
     pd_egress := pd_egress d; pd_reassembly := pd_reassembly d; pd_report := r |}.

(** [enable_counter_report] *)
Definition enable_counter_report (d : PacketDispatcher) (interval now : Z) : PacketDispatcher :=
  set_report d (Some {| cr_interval := interval; cr_next := now + interval |}).

(** A dispatcher in its reactor, whose other handlers are [H], and the world. *)
Record DState (H W : Type) : Type := { ds_dispatcher : PacketDispatcher; ds_reactor : Reactor H; ds_world : W }.
Arguments ds_dispatcher {H W} _.
Arguments ds_reactor {H W} _.
Arguments ds_world {H W} _.

Section dispatcher.
Context {H W : Type}.
Implicit Types s : DState H W.

Definition put_dispatcher (d : PacketDispatcher) s : DState H W :=
  {| ds_dispatcher := d; ds_reactor := ds_reactor s; ds_world := ds_world s |}.
Definition put_world (w : W) s : DState H W :=
  {| ds_dispatcher := ds_dispatcher s; ds_reactor := ds_reactor s; ds_world := w |}.
Definition on_dispatcher {E} (f : PacketDispatcher -> PacketDispatcher) : M (DState H W) E () :=
  modify (fun s => put_dispatcher (f (ds_dispatcher s)) s).
Definition table_of s : InterfaceTable := pd_table (ds_dispatcher s).
Definition regs_of s : Arena Registration := pd_registrations (ds_dispatcher s).

(** The parts of the state the egress and the reactor work on. *)
Definition get_sending s : Sending W :=
  {| sd_egress := pd_egress (ds_dispatcher s); sd_table := pd_table (ds_dispatcher s); sd_world := ds_world s |}.
Definition put_sending (x : Sending W) s : DState H W :=
  {| ds_dispatcher := set_egress (set_table (ds_dispatcher s) (sd_table x)) (sd_egress x);
     ds_reactor := ds_reactor s; ds_world := sd_world x |}.
Definition on_egress {E A} : M (Sending W) E A -> M (DState H W) E A := zoom get_sending put_sending.
Definition get_rstate s : RState H W := {| rs_reactor := ds_reactor s; rs_world := ds_world s |}.
Definition put_rstate (x : RState H W) s : DState H W :=
  {| ds_dispatcher := ds_dispatcher s; ds_reactor := rs_reactor x; ds_world := rs_world x |}.
Definition on_reactor {E A} : M (RState H W) E A -> M (DState H W) E A := zoom get_rstate put_rstate.

(** [register] and [unregister] *)
Definition register_handler {E} (ingress : CaptureKey) (filter : Filter) (handler : PacketHandler) : M (DState H W) E Key :=
  a ← gets regs_of;
  '(key, a) ← lift (arena_insert a {| rn_ingress := ingress; rn_filter := filter; rn_handler := Some handler |});
  _ ← on_dispatcher (fun d => set_regs d a);
  mret key.
Definition drop_handler (key : Key) (d : PacketDispatcher) : PacketDispatcher :=
  match remove (pd_registrations d) key with Some (_, a) => set_regs d a | None => d end.
Definition unregister_handler {E} (key : Key) : M (DState H W) E () := on_dispatcher (drop_handler key).

Context `{Kernel W}.

(** [Instant::now] *)
Definition instant_now {E} : M (DState H W) E Z :=
  update (fun s => let '(now, w) := clock (ds_world s) in (now, put_world w s)).

(** [open_capture] *)
Definition dispatcher_open_capture (name : InterfaceName) : M (DState H W) IoError CaptureKey := fun s =>
  let '(r, t, w) := open_capture (table_of s) name (ds_world s) in
  let s := put_world w (put_dispatcher (set_table (ds_dispatcher s) t) s) in
  match r with
  | Ok key =>
      let l := pd_lifecycle (ds_dispatcher s) in
      let l := match interface_of t key ≫= interface_index t with Some i => saw_interface l i | None => l end in
      (Ok key, put_dispatcher (set_lifecycle (ds_dispatcher s) l) s)
  | Err e => (Err e, s)
  | Panic => (Panic, s)
  end.

(** [join_group] *)
Definition dispatcher_join_on (interface : InterfaceKey) (group : IpAddr) (wanted : Wanted) (now : Z)
    : M (DState H W) JoinError () := fun s =>
  let '(r, t, w) := join_on (table_of s) interface group wanted now (ds_world s) in
  (r, put_world w (put_dispatcher (set_table (ds_dispatcher s) t) s)).
Definition dispatcher_join_group (capture : CaptureKey) (group : IpAddr) (wanted : Wanted) : M (DState H W) JoinError () :=
  t ← gets table_of;
  match interface_of t capture with
  | None => mret ()
  | Some interface => now ← instant_now; dispatcher_join_on interface group wanted now
  end.

(** [link_type] *)
Definition link_type (t : InterfaceTable) (egress : CaptureKey) : option LinkType := cap_link <$> InterfaceTable.capture t egress.

Context `{Host}.

(** [Delivery::send], over the dispatcher's three sends *)
Definition delivery_send (d : Delivery) (egress : CaptureKey) (datagram : Egress.Datagram) : M (DState H W) IoError () :=
  match d with
  | ToLink => on_egress (send_udp_group egress datagram)
  | ToPeers peers => on_egress (send_udp_to_peers egress peers datagram)
  | ToUnicast to mac =>
      on_egress (send_udp egress mac {| dg_dst := to; dg_source := dg_source datagram; dg_ttl := dg_ttl datagram;
                                        dg_payload := dg_payload datagram |})
  end.
End dispatcher.
