(* ===== verification/Handlers.v ===== *)
(** The reflectors at work: what a rewrite makes of a payload, the stateless
    reflector's packet path ([src/reflector/simple.rs]) and the search
    reflector with its sessions ([src/reflector/search.rs]), over the
    dispatcher they send and register through. *)

From S2P Require Import Prelude Effect Text Addr Names Interface Kernel Multicast InterfaceTable Counters.
From S2P Require Import Packet LinearMap StreamBuffer Arena Datagram Egress Reactor DialRegistry Reflector.
From S2P Require Import Dispatcher.
From S2P Require Import Tcp.

Local Open Scope Z_scope.

Definition MAX_SESSIONS : nat := 64.

(** [egress_sources]: whether the egress has a source of the destination's family. *)
Definition egress_sources (t : InterfaceTable) (egress : CaptureKey) (dst : SocketAddr) : bool :=
  is_some_and (egress_addrs t egress) (fun addrs => match ip dst with V4 _ => has_v4 addrs | V6 _ => has_v6 addrs end).

(** [SimpleReflector::destination] *)
Definition simple_destination (r : SimpleReflector) (packet : Packet) (t : InterfaceTable) : option SocketAddr :=
  match sr_delivery r with
  | ToUnicast to _ => Some to
  | ToLink | ToPeers _ =>
      link_destination (pk_dest packet) (egress_addrs t (sr_egress r) ≫= v4_directed_broadcast) (em_unicast (sr_emit r))
  end.

(** [reply_source] *)
Definition reply_source (t : InterfaceTable) (target : CaptureKey) (dest : IpAddr) : option IpAddr :=
  match dest with
  | V4 _ => V4 <$> (egress_addrs t target ≫= ia_v4)
  | V6 dst6 => V6 <$> (egress_addrs t target ≫= fun a => source_v6 a (scope_of_v6 dst6))
  end.

(** [dial_context]'s interface name *)
Definition target_name (t : InterfaceTable) (target : CaptureKey) : option InterfaceName :=
  interface_of t target ≫= interface_name t.

Section handlers.
Context {H W : Type} `{Kernel W} `{Host} `{Poller W} `{Adopt H} `{Tcp W} `{ProxyHandler H}.
Abbreviation act A := (M (DState H W) Infallible A).

(** [DialRewrite::rewrite]; the clock is read on entry. *)
Definition dial_rewrite (target egress : CaptureKey) (packet : Packet) : act Rewrite :=
  t ← gets table_of;
  match egress_addrs t egress ≫= ia_v4, egress_addrs t target ≫= ia_v4 with
  | Some source_v4, Some target_v4 =>
      let placement := {| pp_source_capture := egress; pp_source := source_v4; pp_target_capture := target;
                          pp_target := target_v4; pp_target_iface := target_name t target |} in
      now ← instant_now;
      ctx ← gets (fun s => pd_dial (ds_dispatcher s));
      '(rewrote, ctx, out) ←
        on_reactor (rewrite_location ctx now (pk_payload packet) placement (with_capacity MAX_FRAME_LEN));
      _ ← on_dispatcher (fun d => set_dial d ctx);
      if rewrote : bool then payload ← lift (pending out); mret (Replaced payload) else mret Verbatim
  | _, _ => mret Verbatim
  end.

(** [ReplyRewrite::rewrite] of each implementor *)
Definition apply_rewrite (r : ReplyRewrite) (packet : Packet) (egress : CaptureKey) : act Rewrite :=
  match r with
  | NoRewrite => mret Verbatim
  | ServiceRewrite g => lift (service_judge g packet)
  | ResponseRewrite g => lift (response_judge g packet)
  | DialRewrite target => dial_rewrite target egress packet
  end.

(** ** The stateless reflector *)

(** The send that ends [SimpleReflector::on_packet]. *)
Definition simple_send (r : SimpleReflector) (packet : Packet) (t : MessageType) (dest : SocketAddr) (payload : bytes) : act Outcome :=
  sent ← attempt (delivery_send (sr_delivery r) (sr_egress r)
    {| dg_dst := dest; dg_source := resolve_source (em_source (sr_emit r)) packet;
       dg_ttl := resolve_ttl (em_ttl (sr_emit r)) packet; dg_payload := payload |});
  mret (match sent with inr () => Reflected t | inl _ => Dropped t end).

(** The unreachable-advertisement gate before it. *)
Definition simple_gate (r : SimpleReflector) (packet : Packet) (t : MessageType) (dest : SocketAddr) (payload : bytes)
    (checked : bool) : act Outcome :=
  unreachable ← lift (if checked then sr_suppress r payload else Ok false);
  if unreachable : bool then mret (Dropped t) else simple_send r packet t dest payload.

(** [SimpleReflector::on_packet] *)
Definition simple_on_packet (r : SimpleReflector) (packet : Packet) : act Outcome :=
  verdict ← lift (sr_classify r packet);
  match verdict with
  | VSkip t => mret (Skipped t)
  | Excluded | Junk => mret Filtered
  | VReflect t =>
      match delivery_destination (sr_delivery r) (ip (pk_dest packet)) with
      | None => mret Filtered
      | Some _ =>
          table ← gets table_of;
          match simple_destination r packet table with
          | None => mret Filtered
          | Some dest =>
              if negb (egress_sources table (sr_egress r) dest) then mret (Stalled t)
              else
                rewrite ← apply_rewrite (sr_rewrite r) packet (sr_egress r);
                match rewrite with
                | Verbatim => simple_gate r packet t dest (pk_payload packet) true
                | Replaced payload => simple_gate r packet t dest payload (keeps_advertised_addresses (sr_rewrite r))
                | RwRefused => mret (Refused t)
                | Unreadable => mret (Dropped t)
                end
          end
      end
  end.

(** ** The search reflector *)

(** [PortReservation::create] and its [Drop] *)
Definition reserve (addr : IpAddr) (ifindex : Z) : M (DState H W) IoError SocketAddr := fun s =>
  let '(r, w) := reserve_port addr ifindex (ds_world s) in
  (match r with inr n => Ok {| ip := addr; port := n |} | inl e => Err e end, put_world w s).
Definition release_reserved (source : SocketAddr) : act () := modify (fun s => put_world (release_port source (ds_world s)) s).

(** The reply leg of a session: to its searcher, every packet its filter admits. *)
Definition reply_leg (r : SearchReflector) (packet : Packet) : SimpleReflector :=
  with_suppress (sp_suppress (sh_protocol r))
    (with_rewrite (sh_make_reply r)
      (simple_new (sh_source r)
        (ToUnicast (pk_source packet) (default mac_broadcast (pk_src_mac packet)))
        (of_payload (fun _ => Ok (VReflect (sp_response_type (sh_protocol r)))))
        (emit_reply (sp_ttl (sh_protocol r))))).
Definition reply_filter (r : SearchReflector) (reserved : SocketAddr) : Filter :=
  {| fl_src_ip := None; fl_dst_ip := Some [ip reserved]; fl_src_port := None; fl_dst_port := Some [port reserved];
     fl_src_mac := sh_device_macs r; fl_dst_mac := None; fl_broadcast := false; fl_dst_own := None |}.

(** [SearchReflector::make_session]: the outcome to return, or the session. *)
Definition make_session (r : SearchReflector) (packet : Packet) (destination : IpAddr) (expiry : Z) (t : MessageType)
    : act (Outcome + Session) :=
  if (MAX_SESSIONS <=? lm_len (sh_sessions r))%nat then mret (inl (Dropped t))
  else
    table ← gets table_of;
    match reply_source table (sh_target r) destination with
    | None => mret (inl (Stalled t))
    | Some our_addr =>
        reservation ← attempt (reserve our_addr (default 0 (ifindex_of table (sh_target r))));
        match reservation with
        | inl _ => mret (inl (Dropped t))
        | inr reserved =>
            response_key ← register_handler (sh_target r) (reply_filter r reserved) (HSimple (reply_leg r packet));
            mret (inr {| se_expiry := expiry; se_reserved := reserved; se_response_key := response_key |})
        end
    end.

(** The reflection of a search from the port reserved for it. *)
Definition send_search (r : SearchReflector) (packet : Packet) (source : SocketAddr) : act (IoError + ()) :=
  attempt (delivery_send (sh_delivery r) (sh_target r)
    {| dg_dst := pk_dest packet; dg_source := Exact source; dg_ttl := sp_ttl (sh_protocol r); dg_payload := pk_payload packet |}).

Definition extend (expiry : Z) (s : Session) : Session :=
  {| se_expiry := Z.max (se_expiry s) expiry; se_reserved := se_reserved s; se_response_key := se_response_key s |}.

(** A retransmit of a search whose session is live. *)
Definition resend_search (r : SearchReflector) (packet : Packet) (key : SessionKey) (session : Session) (expiry : Z)
    (t : MessageType) : act (Outcome * SearchReflector) :=
  sent ← send_search r packet (se_reserved session);
  mret (match sent with
        | inr () => (Reflected t, with_sessions r (lm_get_mut (extend expiry) (sh_sessions r) key))
        | inl _ => (Dropped t, r)
        end).

(** A search that opens a session, rolled back if it cannot be sent. *)
Definition open_session (r : SearchReflector) (packet : Packet) (destination : IpAddr) (key : SessionKey) (expiry : Z)
    (t : MessageType) : act (Outcome * SearchReflector) :=
  made ← make_session r packet destination expiry t;
  match made with
  | inl outcome => mret (outcome, r)
  | inr session =>
      sent ← send_search r packet (se_reserved session);
      match sent with
      | inr () => mret (Reflected t, with_sessions r (lm_insert (sh_sessions r) key session).2)
      | inl _ =>
          _ ← unregister_handler (se_response_key session);
          _ ← release_reserved (se_reserved session);
          mret (Dropped t, r)
      end
  end.

(** [SearchReflector::on_packet] *)
Definition search_on_packet (r : SearchReflector) (packet : Packet) : act (Outcome * SearchReflector) :=
  verdict ← lift (sp_search_verdict (sh_protocol r) (pk_payload packet));
  match verdict with
  | VSkip t => mret (Skipped t, r)
  | Excluded | Junk => mret (Filtered, r)
  | VReflect t =>
      match delivery_destination (sh_delivery r) (ip (pk_dest packet)) with
      | None => mret (Filtered, r)
      | Some destination =>
          now ← instant_now;
          let expiry := now + sp_window (sh_protocol r) (pk_payload packet) in
          let key := {| sk_searcher := pk_source packet; sk_dest := pk_dest packet |} in
          match lm_get (sh_sessions r) key with
          | Some session => resend_search r packet key session expiry t
          | None => open_session r packet destination key expiry t
          end
      end
  end.

(** [SearchReflector::next_deadline] *)
Definition search_deadline (r : SearchReflector) : option Z :=
  min_instant ((fun x => se_expiry x.2) <$> lm_iter (sh_sessions r)).

(** [SearchReflector::on_deadline], the [retain] over its sessions *)
Fixpoint evict_expired (now : Z) (sessions : LinearMap SessionKey Session) : act (LinearMap SessionKey Session) :=
  match sessions with
  | [] => mret []
  | (key, session) :: sessions =>
      if se_expiry session <=? now then
        _ ← unregister_handler (se_response_key session);
        _ ← release_reserved (se_reserved session);
        evict_expired now sessions
      else
        sessions ← evict_expired now sessions;
        mret ((key, session) :: sessions)
  end.
Definition search_on_deadline (now : Z) (r : SearchReflector) : act SearchReflector :=
  sessions ← evict_expired now (sh_sessions r);
  mret (with_sessions r sessions).

(** [SearchReflector::on_iface_change] *)
Definition search_on_iface_change (captures : list CaptureKey) (r : SearchReflector) : act SearchReflector :=
  if lm_is_empty (sh_sessions r) || negb (bool_decide (sh_target r ∈ captures)) then mret r
  else
    _ ← for_each (fun x => unregister_handler (se_response_key x.2)) (lm_iter (sh_sessions r));
    _ ← for_each (fun x => release_reserved (se_reserved x.2)) (lm_iter (sh_sessions r));
    mret (with_sessions r (lm_clear (sh_sessions r))).

(** ** [PacketHandler]'s methods *)

Definition handler_on_packet (h : PacketHandler) (packet : Packet) : act (Outcome * PacketHandler) :=
  match h with
  | HSimple r => outcome ← simple_on_packet r packet; mret (outcome, h)
  | HSearch r => '(outcome, r) ← search_on_packet r packet; mret (outcome, HSearch r)
  end.
Definition packet_deadline (h : PacketHandler) : option Z :=
  match h with HSimple _ => None | HSearch r => search_deadline r end.
Definition handler_on_deadline (now : Z) (h : PacketHandler) : act PacketHandler :=
  match h with HSimple _ => mret h | HSearch r => r ← search_on_deadline now r; mret (HSearch r) end.
Definition handler_on_iface_change (captures : list CaptureKey) (h : PacketHandler) : act PacketHandler :=
  match h with HSimple _ => mret h | HSearch r => r ← search_on_iface_change captures r; mret (HSearch r) end.
End handlers.
