(* ===== verification/TableTyped.v ===== *)
(** The interface table within its types, through everything the lifecycle does
    to it: the table in order, its addresses those of an interface, and no
    capture added or lost. *)

From S2P Require Import Prelude Text Addr Names Interface Kernel Multicast Counters LinearMap InterfaceTable Lifecycle.
From S2P Require Import Datagram EgressSpec.

Local Open Scope Z_scope.

Record table_typed (n : nat) (t : InterfaceTable) : Prop := {
  tt_ok : table_ok t;
  tt_addrs : table_addrs_ok t;
  tt_count : length (it_captures t) = n;
}.

(** What the operating system reads of an interface is within its types. *)
Definition resolve_typed {W} (K : Kernel W) : Prop :=
  forall name i w r, (resolve name i w).1 = inr r -> addrs_ok (rd_addrs r).

Lemma no_addrs_ok : addrs_ok no_addrs.
Proof. by split_and!. Qed.

(** The captures' rows replaced. *)
Lemma rows_typed n t t' : table_typed n t -> it_entries t' = it_entries t -> length (it_captures t') = n ->
  Forall (capture_ok (it_entries t)) (it_captures t') -> table_typed n t'.
Proof.
  intros [[H1 H2 H3] Ha Hn] He Hl Hc. split; [split|..]; try done; [by rewrite He..|]. unfold table_addrs_ok in *. by rewrite He.
Qed.

Section typed.
Context {W : Type} `{Kernel W} (Hres : resolve_typed _).

Lemma put_addrs t i e : table_addrs_ok t -> addrs_ok (if_addrs (ie_interface e)) ->
  table_addrs_ok (with_entries t (<[i := e]> (it_entries t))).
Proof. intros. by apply Forall_insert. Qed.

Lemma addrs_of t i e : table_addrs_ok t -> it_entries t !! i = Some e -> addrs_ok (if_addrs (ie_interface e)).
Proof. intros Ht Hi. apply (Forall_lookup_1 _ _ _ _ Ht Hi). Qed.

Lemma entry_of t i e : table_ok t -> it_entries t !! i = Some e -> entry_ok e.
Proof. intros Ht Hi. apply (Forall_lookup_1 _ _ _ _ (tk_entries _ Ht) Hi). Qed.

Lemma only_entry_count i t t' : only_entry i t t' -> length (it_captures t') = length (it_captures t).
Proof. intros [_ _ Hc]. by rewrite <- (length_fmap ce_interface), Hc, length_fmap. Qed.

Lemma refreshed_addrs i ifindex (w : W) r i' w' :
  interface_refresh i ifindex w = (r, i', w') -> addrs_ok (if_addrs i) ->
  addrs_ok (if_addrs i') /\ if_name i' = if_name i.
Proof.
  unfold interface_refresh. pose proof (Hres (if_name i) ifindex w) as Hr. destruct (resolve _ _ _) as [[e|reading] w1].
  - by intros [= <- <- <-].
  - destruct (adopt i reading) as [change i1] eqn:Ea. intros [= <- <- <-] _. split.
    + unfold adopt, replace_addrs in Ea. injection Ea as _ <-. by apply Hr.
    + unfold adopt, replace_addrs in Ea. by injection Ea as _ <-.
Qed.

Lemma entry_converge_interface e now (w : W) r e' w' :
  entry_converge e now w = (r, e', w') -> ie_interface e' = ie_interface e.
Proof.
  unfold entry_converge. destruct (ie_presence e); [|by intros [= <- <- <-]..].
  destruct (ie_memberships e); [|by intros [= <- <- <-]]. destruct (ms_converge _ _ _ _) as [[? ?] ?]. by intros [= <- <- <-].
Qed.

Lemma table_converge_addrs t i now (w : W) r t' w' :
  table_converge t i now w = (r, t', w') -> table_addrs_ok t -> table_addrs_ok t'.
Proof.
  unfold table_converge. intros Hc Ht. destruct (probe t i w) as [[] w1]; cbn [negb] in Hc; [|by injection Hc as <- <- <-].
  destruct (it_entries t !! i) as [e|] eqn:Hi; [|by injection Hc as <- <- <-].
  destruct (entry_converge e now w1) as [[r1 e1] w2] eqn:Ec. injection Hc as <- <- <-.
  apply put_addrs; [done|]. rewrite (entry_converge_interface _ _ _ _ _ _ Ec). by eapply addrs_of.
Qed.

Lemma settle_bind_addrs t i ifindex was bound now (w : W) r t' w' :
  settle_bind t i ifindex was bound now w = (r, t', w') -> table_addrs_ok t -> table_addrs_ok t'.
Proof.
  unfold settle_bind. intros Hc Ht. destruct (it_entries t !! i) as [e|] eqn:Hi; [|by injection Hc as <- <- <-].
  destruct bound as [error|[]]; [injection Hc as <- <- <-; apply put_addrs; [done|apply no_addrs_ok]|]. cbv zeta in Hc.
  destruct (table_converge _ _ _ _) as [[r1 t1] w1] eqn:Ec. injection Hc as <- <- <-.
  eapply table_converge_addrs; [exact Ec|].
  refine (put_addrs t i _ Ht _). exact (addrs_of t i e Ht Hi).
Qed.

Lemma bind_addrs t i ifindex now (w : W) r t' w' :
  bind_interface t i ifindex now w = (r, t', w') -> table_addrs_ok t -> table_addrs_ok t'.
Proof.
  unfold bind_interface. intros Hc Ht. destruct (it_entries t !! i) as [e|] eqn:Hi; [|by injection Hc as <- <- <-].
  pose proof (addrs_of _ _ _ Ht Hi) as He. cbv zeta in Hc. cbn in Hc.
  pose proof (Hres (if_name (ie_interface e)) ifindex w) as Hr.
  destruct (resolve _ _ _) as [[error|reading] w1].
  - eapply settle_bind_addrs; [exact Hc|]. by apply put_addrs.
  - destruct (rebind_each _ _ _ _ _) as [[b captures] w2]. eapply settle_bind_addrs; [exact Hc|].
    refine (put_addrs t i _ Ht _). destruct b as [err|[]]; cbn; [by case_match|]. exact (Hr _ eq_refl).
Qed.

Lemma table_step_addrs t i now (w : W) r t' w' :
  table_step t i now w = (r, t', w') -> table_addrs_ok t -> table_addrs_ok t'.
Proof.
  unfold table_step. intros Hc Ht. destruct (it_entries t !! i) as [e|] eqn:Hi; [|by injection Hc as <- <- <-].
  pose proof (addrs_of _ _ _ Ht Hi) as He. destruct (if_index_checked _ _) as [[err|cur] w1]; [by injection Hc as <- <- <-|].
  destruct (ie_presence e) as [bound| |u], cur as [cur|]; try (destruct (cur =? bound)); try (destruct (probe t i w1) as [[] w2]);
    try (destruct ((cur =? ub_ifindex u) && _)); try (by eapply bind_addrs); injection Hc as <- <- <-;
    first [exact Ht | apply put_addrs; [exact Ht|first [exact no_addrs_ok | exact He]]].
Qed.

Lemma reconcile_each_addrs is_ now soon rebuilt t (w : W) soon' rebuilt' t' w' :
  reconcile_each is_ now (soon, rebuilt, t, w) = Ok (soon', rebuilt', t', w') -> table_addrs_ok t -> table_addrs_ok t'.
Proof.
  revert soon rebuilt t w. induction is_ as [|i is_ IH]; intros soon rebuilt t w; cbn [reconcile_each]; [by intros [= <- <- <- <-]|].
  intros Hc Ht. apply bind_Ok in Hc as ([[[soon1 rebuilt1] t1] w1]&H1&H2). eapply IH; [exact H2|].
  unfold reconcile_interface in H1. destruct (table_step t i now w) as [[r t2] w2] eqn:Es.
  apply table_step_addrs in Es; [|done]. apply bind_Ok in H1 as (step&_&H1).
  destruct step; try (by injection H1 as <- <- <- <-).
  destruct (table_converge t2 i now w2) as [[r3 t3] w3] eqn:Ec. injection H1 as <- <- <- <-. by eapply table_converge_addrs.
Qed.

Lemma reconcile_typed n l t now (w : W) : table_typed n t ->
  exists rebuilt l' t' w', reconcile l t now w = Ok (rebuilt, l', t', w') /\ table_typed n t'.
Proof.
  intros [Hok Ha Hn]. unfold reconcile, table_interfaces.
  destruct (reconcile_each_spec (seq 0 (length (it_entries t))) now false [] t w Hok)
    as (soon&more&t'&w'&E&Hok'&_&Hc&_); [apply NoDup_seq|apply Forall_forall; intros i Hi; apply elem_of_seq in Hi; lia|].
  pose proof (reconcile_each_addrs _ _ _ _ _ _ _ _ _ _ E Ha) as Ha'. rewrite E, bind_ret. do 4 eexists. split; [done|].
  split; [done|done|]. by rewrite <- (length_fmap ce_interface), Hc, length_fmap.
Qed.

(** ** Re-reading, waking, converging *)

(** An entry that keeps its name and stays in order. *)
Definition keeps (e e' : InterfaceEntry) : Prop :=
  if_name (ie_interface e') = if_name (ie_interface e) /\ (entry_ok e -> entry_ok e') /\
  (addrs_ok (if_addrs (ie_interface e)) -> addrs_ok (if_addrs (ie_interface e'))).
Lemma keeps_refl e : keeps e e.
Proof. by split_and!. Qed.

Lemma entries_typed n t entries : Forall2 keeps (it_entries t) entries -> table_typed n t -> table_typed n (with_entries t entries).
Proof.
  intros Hk [[H1 H2 H3] Ha Hn]. split; [split|..]; cbn; try done.
  - clear -Hk H1. induction Hk as [|e e' l l' (_&He&_) _ IH]; [done|]. apply Forall_cons in H1 as [? ?]. constructor; auto.
  - eapply Forall_impl; [exact H2|]. intros c [Hc ?]. split; [|done]. by rewrite <- (Forall2_length _ _ _ Hk).
  - assert (Hnames : (fun e => if_name (ie_interface e)) <$> entries = (fun e => if_name (ie_interface e)) <$> it_entries t).
    { clear -Hk. induction Hk as [|e e' l l' (Hn&_&_) _ IH]; [done|]. rewrite !fmap_cons. by rewrite IH, Hn. }
    by rewrite Hnames.
  - unfold table_addrs_ok in *. cbn. clear -Hk Ha. induction Hk as [|e e' l l' (_&_&He) _ IH]; [done|].
    apply Forall_cons in Ha as [? ?]. constructor; auto.
Qed.

Lemma put_keeps n t i e e' : it_entries t !! i = Some e -> keeps e e' -> table_typed n t ->
  table_typed n (with_entries t (<[i := e']> (it_entries t))).
Proof.
  intros Hi He. apply entries_typed. rewrite <- (list_insert_id _ _ _ Hi) at 1.
  apply Forall2_insert; [|done]. apply Forall_Forall2_diag, Forall_true, keeps_refl.
Qed.

Lemma fmap_keeps n t f : (forall e, keeps e (f e)) -> table_typed n t -> table_typed n (with_entries t (f <$> it_entries t)).
Proof. intros Hf. apply entries_typed. apply Forall2_fmap_r, Forall_Forall2_diag, Forall_true, Hf. Qed.

Lemma refreshed_keeps e ifindex (w : W) r iface w' :
  ie_presence e = Present ifindex -> interface_refresh (ie_interface e) ifindex w = (r, iface, w') -> keeps e (with_interface e iface).
Proof.
  intros Hp Hr. split_and!; cbn.
  - unfold interface_refresh in Hr. destruct (resolve _ _ _) as [[?|?] ?]; by injection Hr as <- <- <-.
  - intros (H1&_&H3). split_and!; [done| |done]. unfold entry_ifindex. cbn. by rewrite Hp.
  - intros Ha. by destruct (refreshed_addrs _ _ _ _ _ _ Hr Ha).
Qed.

Lemma table_refresh_typed n t i (w : W) r t' w' : table_refresh t i w = (r, t', w') -> table_typed n t ->
  table_typed n t' /\ (it_entries t !! i <> None -> safe r).
Proof.
  unfold table_refresh. intros Hr Ht. destruct (it_entries t !! i) as [e|] eqn:Hi; [|by injection Hr as <- <- <-].
  destruct (ie_presence e) as [ifindex| |u] eqn:Hp; [|by injection Hr as <- <- <-..].
  destruct (interface_refresh _ _ _) as [[r1 iface] w1] eqn:Hf. injection Hr as <- <- <-. split; [|by destruct r1].
  eapply put_keeps; [done|by eapply refreshed_keeps|done].
Qed.

Lemma refresh_all_typed n t (w : W) rs t' w' : refresh_all t w = (rs, t', w') -> table_typed n t -> table_typed n t'.
Proof.
  unfold refresh_all. destruct (refresh_entries 0 (it_entries t) w) as [[rs1 entries] w1] eqn:E. intros [= <- <- <-].
  apply entries_typed. revert E. generalize 0%nat. generalize (it_entries t) as l. intros l.
  revert rs1 entries w w1. induction l as [|e l IH]; intros rs1 entries w w1 i; cbn [refresh_entries]; [by intros [= <- <- <-]|].
  destruct (ie_presence e) as [ifindex| |u] eqn:Hp.
  - destruct (interface_refresh _ _ _) as [[r iface] w2] eqn:Hf. destruct (refresh_entries _ l w2) as [[rs2 l2] w3] eqn:El.
    intros [= <- <- <-]. constructor; [by eapply refreshed_keeps|by eapply IH].
  - destruct (refresh_entries _ l w) as [[rs2 l2] w3] eqn:El. intros [= <- <- <-]. constructor; [apply keeps_refl|by eapply IH].
  - destruct (refresh_entries _ l w) as [[rs2 l2] w3] eqn:El. intros [= <- <- <-]. constructor; [apply keeps_refl|by eapply IH].
Qed.

Lemma wake_keeps now e : keeps e (wake now e).
Proof.
  unfold wake. destruct (ie_presence e) as [| |u] eqn:Hp; try apply keeps_refl. split_and!; try done.
  intros (H1&H2&H3). rewrite Hp in H3. split_and!; [done| |done]. intros _. apply H2. unfold entry_ifindex. by rewrite Hp.
Qed.

Lemma wake_unbound_typed n t ifindex now : table_typed n t -> table_typed n (wake_unbound t ifindex now).2.
Proof. apply fmap_keeps. intros e. destruct (waits_on ifindex e); [apply wake_keeps|apply keeps_refl]. Qed.
Lemma wake_all_typed n t now : table_typed n t -> table_typed n (wake_all_unbound t now).
Proof. apply fmap_keeps, wake_keeps. Qed.

Lemma table_converge_typed n t i now (w : W) r t' w' :
  table_converge t i now w = (r, t', w') -> table_typed n t -> table_typed n t'.
Proof.
  intros Hc [Hok Ha Hn]. destruct (table_converge_ok _ _ _ _ _ _ _ Hc Hok) as (Hok'&Ho&_).
  split; [done|by eapply table_converge_addrs|]. by rewrite (only_entry_count _ _ _ Ho).
Qed.

Lemma converge_all_typed n t now (w : W) r t' w' : converge_all t now w = (r, t', w') -> table_typed n t -> table_typed n t'.
Proof.
  unfold converge_all. generalize (inr () : Gone + ()) as result. generalize (table_interfaces t) as is_. intros is_.
  revert t w. induction is_ as [|i is_ IH]; intros t w result; cbn [converge_each]; [by intros [= <- <- <-]|].
  destruct (table_converge t i now w) as [[r1 t1] w1] eqn:Ec. intros Hc Ht. eapply IH; [exact Hc|]. by eapply table_converge_typed.
Qed.

Lemma recheck_typed n l t now (w : W) c l' t' w' : recheck l t now w = (c, l', t', w') -> table_typed n t -> table_typed n t'.
Proof.
  unfold recheck. destruct (refresh_all t w) as [[rs t1] w1] eqn:Er. destruct (note_all false rs) as [a b].
  destruct (converge_all t1 now w1) as [[r t2] w2] eqn:Ec. intros [= <- <- <- <-] Ht.
  eapply converge_all_typed; [exact Ec|]. by eapply refresh_all_typed.
Qed.

(** ** The monitor's drain *)

Lemma drain_index_typed n ceiling now ifindex is_link want noted t (w : W) : table_typed n t ->
  exists want' noted' t' w', drain_index ceiling now ifindex is_link (want, noted, t, w) = Ok (want', noted', t', w') /\ table_typed n t'.
Proof.
  intros Ht. unfold drain_index. destruct (key_by_ifindex t ifindex) as [key|] eqn:Ek.
  - destruct (table_refresh t key w) as [[r t1] w1] eqn:Er. destruct (table_refresh_typed _ _ _ _ _ _ _ Er Ht) as [Ht1 Hsafe].
    destruct r as [change|e|]; [|by eauto 6|].
    + destruct (table_converge t1 key now w1) as [[r2 t2] w2] eqn:Ec. do 4 eexists. split; [done|]. by eapply table_converge_typed.
    + exfalso. apply Hsafe; [|done]. apply position_Some in Ek as (x&Hx&_). congruence.
  - unfold unwatched_event_reconciles. pose proof (wake_unbound_typed n t ifindex now Ht) as Hw.
    destruct (wake_unbound t ifindex now) as [woke t1]. destruct woke; by eauto 6.
Qed.

Lemma drain_indexes_typed n ceiling now changed want noted t (w : W) : table_typed n t ->
  exists want' noted' t' w', drain_indexes ceiling now changed (want, noted, t, w) = Ok (want', noted', t', w') /\ table_typed n t'.
Proof.
  revert want noted t w. induction changed as [|[ifindex is_link] changed IH]; intros want noted t w Ht; cbn [drain_indexes]; [by eauto 6|].
  destruct (drain_index_typed n ceiling now ifindex is_link want noted t w Ht) as (want1&noted1&t1&w1&->&Ht1). rewrite bind_ret. by apply IH.
Qed.

Lemma drain_typed n l t evs now (w : W) : table_typed n t ->
  exists changes l' t' w', drain l t evs now w = Ok (changes, l', t', w') /\ table_typed n t'.
Proof.
  intros Ht. unfold drain. destruct (negb _); [by eauto 6|]. destruct (collect_events evs) as [overflow changed].
  destruct (_ && _); [by eauto 6|]. cbv zeta. destruct overflow.
  - destruct (refresh_all _ w) as [[rs t1] w1] eqn:Er. rewrite bind_ret. do 4 eexists. split; [done|].
    eapply refresh_all_typed; [exact Er|]. by apply wake_all_typed.
  - destruct (drain_indexes_typed n (lc_max_seen l) now (lm_iter changed) false ([], []) t w Ht) as (want1&noted1&t1&w1&->&Ht1).
    rewrite bind_ret. by eauto 6.
Qed.
End typed.
