(* ===== verification/ReassemblyTyped.v ===== *)
(** Reassembly within its types: whatever is offered, the buffers hold octets,
    the headers are those of fragments, and what is collected or given up on
    names a capture that exists. *)

From S2P Require Import Prelude Addr Packet PacketWf Frame LinearMap Interface InterfaceTable Reassembly.

Local Open Scope Z_scope.

Section maps.
Context {K V : Type} `{EqDecision K} (P : K * V -> Prop).

Lemma lm_remove_Forall m k v m' : lm_remove m k = Some (v, m') -> Forall P m -> P (k, v) /\ Forall P m'.
Proof. intros E. pose proof (lm_remove_perm m k) as Hp. rewrite E in Hp. rewrite Hp. apply Forall_cons. Qed.

Lemma lm_get_mut_Forall m k f : (forall v, P (k, v) -> P (k, f v)) -> Forall P m -> Forall P (lm_get_mut f m k).
Proof.
  intros Hf. induction m as [|[k' v] m IH]; intros Hm; cbn [lm_get_mut]; [done|]. apply Forall_cons in Hm as [Hv Hm].
  case_decide; [subst|]; constructor; auto.
Qed.

Lemma lm_insert_Forall m k v : Forall P m -> P (k, v) -> Forall P (lm_insert m k v).2.
Proof.
  intros Hm Hv. unfold lm_insert. destruct (lm_get m k); cbn; [by apply lm_get_mut_Forall|].
  apply Forall_app. split; [done|by apply Forall_singleton].
Qed.

Lemma lm_get_Forall m k v : lm_get m k = Some v -> Forall P m -> P (k, v).
Proof. intros Hg%lm_get_elem Hm. rewrite Forall_forall in Hm. by apply Hm. Qed.
End maps.

(** A slot of a capture that exists, its buffer of octets. *)
Definition octet_buffer (b : Buffer) : Prop := bytes_ok (buf_bytes b).
Definition collects_ok (n : nat) (x : DatagramKey * Collecting) : Prop :=
  (capture_index (dk_ingress x.1) < n)%nat /\ octet_buffer (co_buf x.2) /\
  forall first, co_first x.2 = Some first -> header_ok first.
Record contents_ok (n : nat) (r : Reassembler) : Prop := {
  cn_collecting : Forall (collects_ok n) (collecting r);
  cn_spare : Forall octet_buffer (spare r);
  cn_lost : Forall (fun l => (capture_index (lost_ingress l) < n)%nat) (lost r);
}.

(** Between offers: [loaned] buffers out, and no loss unreported. *)
Record reassembly_typed (n loaned : nat) (r : Reassembler) : Prop := {
  rt_ok : reassembler_ok loaned r;
  rt_contents : contents_ok n r;
  rt_lost : lost r = [];
}.

Lemma discard_contents n r key now : contents_ok n r -> contents_ok n (discard r key now).
Proof. by intros [? ? ?]. Qed.

Lemma give_up_contents n r key loss now : contents_ok n r -> contents_ok n (give_up_on r key loss now).
Proof.
  intros [Hc Hs Hl]. unfold give_up_on. apply discard_contents.
  destruct (lm_remove _ _) as [[c m]|] eqn:E; [|done]. destruct (lm_remove_Forall _ _ _ _ _ E Hc) as [(Hi&Hb&_) Hm].
  split; cbn; [done|by constructor|]. apply Forall_app. split; [done|]. by apply Forall_singleton.
Qed.

Lemma expire_loop_contents n fuel r now : contents_ok n r -> contents_ok n (expire_loop fuel r now).
Proof.
  revert r. induction fuel as [|fuel IH]; intros r Hr; cbn [expire_loop]; [done|].
  destruct (first_expired r now); [|done]. by apply IH, give_up_contents.
Qed.

Lemma expire_contents n r now : contents_ok n r -> contents_ok n (expire r now).
Proof. intros [? ? ?]. by apply expire_loop_contents. Qed.

Lemma buffer_new_octets : octet_buffer buffer_new.
Proof. apply Forall_replicate. by split. Qed.

Lemma with_slot_contents n r key now :
  contents_ok n r -> (capture_index (dk_ingress key) < n)%nat -> contents_ok n (with_slot r key now).
Proof.
  intros Hr Hk. unfold with_slot. destruct (lm_get _ _); [done|].
  assert (Hr1 : contents_ok n (make_room r now)).
  { unfold make_room. case_decide; [|done]. destruct (min_by_key _ _) as [[]|]; [|done]. by apply give_up_contents. }
  cbv zeta. set (r1 := make_room r now) in *. clearbody r1. destruct Hr1 as [Hc Hs Hl].
  assert (Hnew : forall b, octet_buffer b -> collects_ok n (key, collecting_new b now)) by (intros; by split_and!).
  destruct (spare r1) as [|b sp]; [|apply Forall_cons in Hs as [Hb Hs]]; split; cbn; try done;
    apply lm_insert_Forall; auto using buffer_new_octets.
Qed.

Lemma add_contents n key c fragment c' :
  add c fragment = Ok c' -> collects_ok n (key, c) -> fragment_ok fragment -> collects_ok n (key, c').
Proof.
  intros H (Hi&Hb&Hf) [Hh Hd]. unfold add in H. case_match; [done|]. case_decide; [done|].
  apply bind_Ok in H as (e&_&H). apply bind_Ok in H as (o&_&H). destruct o; [done|].
  apply bind_Ok in H as (b&Hcopy&H). apply bind_Ok in H as (rc&_&[= <-]). split_and!; cbn; [done| |].
  - unfold copy_at in Hcopy. repeat (case_decide; [|done]). injection Hcopy as <-. unfold octet_buffer in *. cbn in *.
    rewrite !Forall_app. split_and!; [by apply Forall_take|done|by apply Forall_drop].
  - intros first. case_match; [|apply Hf]. intros Hx. injection Hx as Hx. by rewrite <- Hx.
Qed.

(** An offer keeps the contents, and hands over a datagram of octets. *)
Lemma offer_contents {E} n r ingress fragment wanted now done r' :
  offer (E:=E) r ingress fragment wanted now = Ok (done, r') ->
  contents_ok n r -> (capture_index ingress < n)%nat -> fragment_ok fragment ->
  contents_ok n r' /\ forall d, done = Some d -> octet_buffer (ra_buf d) /\ header_ok (ra_first d).
Proof.
  intros H Hr Hi Hf. unfold offer in H. apply (expire_contents _ _ now) in Hr. set (r1 := expire r now) in *. clearbody r1.
  set (key := datagram_key _ _) in *. assert (Hk : (capture_index (dk_ingress key) < n)%nat) by done. clearbody key.
  cbv zeta in H. destruct (lm_get (discarding r1) key); [by injection H as <- <-|]. destruct wanted; cbn [negb] in H.
  - apply (with_slot_contents _ _ key now) in Hr; [|done]. set (r2 := with_slot r1 key now) in *. clearbody r2.
    destruct (lm_get (collecting r2) key) as [c|] eqn:Eg; [|by injection H as <- <-].
    pose proof (lm_get_Forall _ _ _ _ Eg (cn_collecting _ _ Hr)) as Hc.
    destruct (add c fragment) as [c'|loss|] eqn:Ea; [|injection H as <- <-; split; [by apply give_up_contents|done]|done].
    pose proof (add_contents n key c fragment c' Ea Hc Hf) as Hc'.
    assert (Hr3 : contents_ok n (set_collecting r2 (lm_get_mut (fun _ => c') (collecting r2) key))).
    { destruct Hr. split; cbn; [|done..]. by apply lm_get_mut_Forall. }
    set (r3 := set_collecting r2 _) in *. clearbody r3. apply bind_Ok in H as ([|]&_&H); cbn [negb] in H; [|by injection H as <- <-].
    destruct (lm_remove _ _) as [[c2 m]|] eqn:Er; [|by injection H as <- <-].
    destruct (lm_remove_Forall _ _ _ _ _ Er (cn_collecting _ _ Hr3)) as [(_&Hb&Hfirst) Hm].
    apply bind_Ok in H as (d&Hd&H). injection H as <- <-. split; [destruct Hr3; by split|].
    intros d' ->. unfold finish in Hd. apply bind_Ok in Hd as ([|]&_&Hd); [|done]. injection Hd as Hd.
    destruct (co_first c2) as [first|] eqn:E1; [|done]. destruct (co_len c2); [|done]. injection Hd as <-.
    split; [done|by apply Hfirst].
  - injection H as <- <-. split; [|done]. apply discard_contents.
    destruct (lm_remove _ _) as [[c m]|] eqn:Er; [|done].
    destruct Hr as [Hc Hs Hl]. destruct (lm_remove_Forall _ _ _ _ _ Er Hc) as [(_&Hb&_) Hm]. split; cbn; [done|by constructor|done].
Qed.

Lemma reassembler_new_typed n : reassembly_typed n 0 reassembler_new.
Proof. split; [apply reassembler_new_ok|by split|done]. Qed.
