(* ===== verification/DispatchInv.v ===== *)
(** The invariant of a dispatcher at work, and that the reflectors keep it: the
    tables well formed, every handler present but the one being called, and
    every value within its Rust type.  A run under it panics only when an index
    space of 2^32 is used up. *)

From S2P Require Import Prelude Effect Text Addr Names Interface Kernel Multicast InterfaceTable Counters.
From S2P Require Import Packet PacketWf Mdns MdnsFilters DnsTrim MdnsFiltersSpec Reassembly.
From S2P Require Import ReassemblyTyped LinearMap StreamBuffer Http Arena Value Mac Frame Datagram.
From S2P Require Import Egress EgressSpec Reactor ReactorSpec DialRegistry DialRegistrySpec Reflector.
From S2P Require Import Dispatcher Handlers.
From S2P Require Import TableTyped.

Local Open Scope Z_scope.

(** ** Handlers within their types *)

Definition delivery_ok (d : Delivery) : Prop :=
  match d with ToLink => True | ToPeers peers => Forall ip_ok peers | ToUnicast to mac => socket_ok to /\ mac_ok mac end.
Definition emit_ok (e : Emit) : Prop :=
  (match em_source e with SEgress (FixedPort p) => word_ok 16 p | _ => True end) /\
  (match em_ttl e with FixedTtl ttl => byte_ok ttl | CapturedTtl => True end) /\
  (match em_unicast e with ToGroup v4 v6 => word_ok 32 v4 /\ word_ok 128 v6 | _ => True end).
Record simple_ok (r : SimpleReflector) : Prop := {
  so_delivery : delivery_ok (sr_delivery r);
  so_emit : emit_ok (sr_emit r);
  so_classify : forall p, packet_ok p -> safe (sr_classify r p);
  so_suppress : forall b, safe (sr_suppress r b);
}.
Record protocol_ok (p : SearchProtocol) : Prop := {
  po_port : word_ok 16 (sp_port p);
  po_ttl : byte_ok (sp_ttl p);
  po_announcement : forall b, safe (sp_announcement_verdict p b);
  po_search : forall b, safe (sp_search_verdict p b);
  po_suppress : forall b, safe (sp_suppress p b);
}.
Definition session_ok (s : Session) : Prop := socket_ok (se_reserved s) /\ 0 <= index (se_response_key s).
Record search_ok (n : nat) (r : SearchReflector) : Prop := {
  sh_target_ok : (capture_index (sh_target r) < n)%nat;
  sh_delivery_ok : delivery_ok (sh_delivery r);
  sh_protocol_ok : protocol_ok (sh_protocol r);
  sh_sessions_ok : Forall (fun x => session_ok x.2) (sh_sessions r);
}.
(** [n] is how many captures there are. *)
Definition handler_ok (n : nat) (h : PacketHandler) : Prop := match h with HSimple r => simple_ok r | HSearch r => search_ok n r end.

(** The answers of the kernel within their Rust types: a port is a [u16], a
    frame is of octets, an interface's addresses are addresses; and a capture
    asked for a frame takes some of the batch it has, or has none and reads at
    most a buffer of it ([bpf_batch_law] of BpfCapture; Linux has none). *)
Record kernel_typed {W} (K : Kernel W) : Prop := {
  kt_resolve : resolve_typed K;
  kt_port : forall addr ifindex w n, (reserve_port addr ifindex w).1 = inr n -> word_ok 16 n;
  kt_frame : forall c w frame, (capture_next c w).1.2 = inr (Some (RdFrame frame)) -> bytes_ok frame;
  kt_batch : forall c w, let c' := (capture_next c w).1.1 in
    match cap_batch c with [] => (length (cap_batch c') <= batch_limit)%nat | batch => (length (cap_batch c') < length batch)%nat end;
}.

(** ** The invariant *)

Definition reg_ok (n : nat) (r : Registration) : Prop :=
  (capture_index (rn_ingress r) < n)%nat /\ forall h, rn_handler r = Some h -> handler_ok n h.

(** What is out of the dispatcher: the registration whose handler is being
    called, and the reassembly buffers being routed. *)
Record Out : Type := { out_handler : option Key; out_buffers : nat }.
Definition nothing_out : Out := {| out_handler := None; out_buffers := 0 |}.

Section inv.
Context {H W : Type}.
Implicit Types s : DState H W.

(** An index space used up. *)
Definition full s : Prop := exhausted (ds_reactor s) \/ Z.of_nat (length (slots (regs_of s))) = 2 ^ 32.

(** [n] captures, and [absent] what is out. *)
Record dispatch_ok (n : nat) (absent : Out) s : Prop := {
  di_table : table_typed n (table_of s);
  di_regs : arena_wf (regs_of s);
  di_reg : forall k r, 0 <= index k -> get (regs_of s) k = Some r -> reg_ok n r;
  di_present : forall k r, 0 <= index k -> get (regs_of s) k = Some r -> Some k <> out_handler absent -> is_Some (rn_handler r);
  di_sending : sending_ok (get_sending s);
  di_reactor : reactor_ok (ds_reactor s);
  di_dial : dial_ok (pd_dial (ds_dispatcher s));
  di_reassembly : reassembly_typed n (out_buffers absent) (pd_reassembly (ds_dispatcher s));
}.

Abbreviation druns n absent m s Q := (runs (dispatch_ok n absent) full m s Q).

Lemma dispatch_ok_world n absent s w : dispatch_ok n absent s -> dispatch_ok n absent (put_world w s).
Proof. intros [? ? ? ? [] ? ? ?]. by split; [..|split| | |]. Qed.

Lemma put_sending_ok n absent s x : dispatch_ok n absent s -> calm (table_of s) x -> dispatch_ok n absent (put_sending x s).
Proof.
  intros [Hn H1 H2 H3 H5 H6 H7 H8] [Hs He Hj Hr].
  split; unfold regs_of, table_of in *; cbn in *; try done; [|by destruct Hs].
  eapply rows_typed; [exact Hn|exact He|rewrite <- (tt_count _ _ Hn); symmetry; by eapply Forall2_length|].
  pose proof (tk_captures _ (tt_ok _ _ Hn)) as Hc. clear -Hc Hr.
  induction Hr as [|c c' l l' (_&Hi&Hk) _ IH]; [done|]. apply Forall_cons in Hc as [[? ?] Hc].
  constructor; [|by apply IH]. split; [by rewrite Hi|by rewrite Hk].
Qed.

Lemma run_egress {E A} n absent s (m : M (Sending W) E A) :
  dispatch_ok n absent s -> (forall x, calm (table_of s) x -> runs (calm (table_of s)) never m x (fun _ _ => True)) ->
  druns n absent (on_egress m) s (fun _ _ => True).
Proof.
  intros Hs Hm. unfold on_egress. eapply runs_zoom with (J := calm (table_of s)) (stuck := never).
  - eapply runs_mono; [apply Hm; apply (calm_refl (get_sending s)), (di_sending _ _ _ Hs)|].
    intros a x Hx _. split; [by apply put_sending_ok|done].
  - intros x Hx. by apply put_sending_ok.
  - by intros x.
Qed.

(** ** Registrations *)

Lemma run_register {E} n absent s ingress filter handler :
  dispatch_ok n absent s -> (capture_index ingress < n)%nat -> handler_ok n handler ->
  druns n absent (register_handler (E:=E) ingress filter handler) s (fun k _ => 0 <= index k).
Proof.
  intros [Hn H1 H2 H3 H5 H6 H7 H8] Hi Hh. unfold runs, register_handler, gets, lift, on_dispatcher, modify, mbind, M_bind.
  set (reg := {| rn_ingress := ingress; rn_filter := filter; rn_handler := Some handler |}).
  pose proof (insert_from_spec (E:=E) (regs_of s) (fun _ => reg) H1) as Hspec. unfold arena_insert.
  destruct (insert_from (regs_of s) (fun _ => reg)) as [[k a]|e|] eqn:E0; [|done|right; apply Hspec].
  destruct (get_insert_from _ _ _ _ H1 E0) as (Hwf&[Hk _]&_&Hg). split; [|apply Hk].
  split; unfold regs_of, table_of in *; cbn in *; try done.
  - intros k' r Hk'. rewrite Hg by done. case_decide; [|by apply H2]. intros [= <-]. split; [done|]. by intros h [= <-].
  - intros k' r Hk'. rewrite Hg by done. case_decide; [|by apply H3]. by intros [= <-] _.
Qed.

Lemma drop_handler_ok n absent s key : 0 <= index key -> dispatch_ok n absent s ->
  dispatch_ok n absent (put_dispatcher (drop_handler key (ds_dispatcher s)) s).
Proof.
  intros Hk [Hn H1 H2 H3 H5 H6 H7 H8]. unfold drop_handler.
  destruct (remove _ key) as [[v a]|] eqn:E; [|by destruct s].
  destruct (get_remove _ _ _ _ H1 Hk E) as (Hwf&_&Hg). split; unfold regs_of, table_of in *; cbn in *; try done.
  - intros k' r Hk'. rewrite Hg by done. case_decide; [done|]. by apply H2.
  - intros k' r Hk'. rewrite Hg by done. case_decide; [done|]. by apply H3.
Qed.

Lemma run_unregister {E} n absent s key : 0 <= index key -> dispatch_ok n absent s ->
  druns n absent (unregister_handler (E:=E) key) s (fun _ _ => True).
Proof. intros. by apply runs_modify; [apply drop_handler_ok|]. Qed.

Context `{Kernel W} `{Host}.

Lemma run_clock {E} n absent s : dispatch_ok n absent s -> druns n absent (instant_now (E:=E)) s (fun _ _ => True).
Proof.
  intros Hs. unfold runs, instant_now, update. destruct (clock _) as [now w]. split; [by apply dispatch_ok_world|done].
Qed.

(** ** Deliveries *)

Lemma run_delivery n absent s d egress datagram :
  dispatch_ok n absent s -> delivery_ok d -> datagram_ok datagram ->
  druns n absent (delivery_send d egress datagram) s (fun _ _ => True).
Proof.
  intros Hs Hd Hok. destruct d as [|peers|to mac]; cbn [delivery_send]; apply run_egress; try done; intros x Hx.
  - by apply calm_send_udp_group.
  - by apply calm_send_udp_to_peers.
  - destruct Hd as [Hto Hmac], Hok as (_&?&?&?). apply calm_send_udp; [done| |done]. by split_and!.
Qed.
End inv.
