(* ===== verification/HandlersSpec.v ===== *)
(** The reflectors keep the dispatcher's invariant, and so does every call of
    them: no packet, deadline or interface change makes one panic. *)

From S2P Require Import Prelude Effect Text Addr Names Interface Kernel Multicast InterfaceTable Counters.
From S2P Require Import Packet PacketWf Mdns MdnsFilters DnsTrim MdnsFiltersSpec Reassembly ReassemblyTyped.
From S2P Require Import LinearMap StreamBuffer Http Framing Arena Value Mac Frame Datagram Egress.
From S2P Require Import EgressSpec Reactor ReactorSpec DialRegistry DialRegistrySpec Reflector Dispatcher.
From S2P Require Import Handlers DispatchInv.
From S2P Require Import Tcp.

Local Open Scope Z_scope.

(** ** The mDNS gates *)

Lemma remade_trans m1 m2 m3 : remade m1 m2 -> remade m2 m3 -> remade m1 m3.
Proof. intros (_&E1&_) (H2&E2&H3). split_and!; [done|congruence|done]. Qed.

Lemma service_judge_ok g packet :
  match service_judge g packet with
  | Ok (Replaced m) => bytes_ok (pk_payload packet) -> remade (pk_payload packet) m
  | Ok _ => True
  | Err _ => True
  | Panic => False
  end.
Proof.
  unfold service_judge. destruct (mdns_filters_safe (sg_services g) (pk_payload packet)) as [Hd _].
  destruct (decide_services _ _) as [[| |m n r|]|[]|] eqn:E; cbn [mbind res_bind]; try done.
  intros Hb. by eapply decide_services_bytes.
Qed.

Lemma response_judge_ok g packet :
  match response_judge g packet with
  | Ok (Replaced m) => bytes_ok (pk_payload packet) -> remade (pk_payload packet) m
  | Ok _ => True
  | Err _ => True
  | Panic => False
  end.
Proof.
  unfold response_judge.
  assert (Hj : match (match rp_services g with None => Ok Verbatim | Some services => service_judge services packet end) with
               | Ok (Replaced m) => bytes_ok (pk_payload packet) -> remade (pk_payload packet) m
               | Ok _ => True | Err _ => True | Panic => False end).
  { destruct (rp_services g); [apply service_judge_ok|done]. }
  destruct (match rp_services g with None => _ | Some _ => _ end) as [judged|[]|]; cbn [mbind res_bind]; [|done..].
  assert (Hstrip : forall b, safe (strip b)) by (intros b; apply (mdns_filters_safe [] b)).
  destruct judged as [|m| |]; try done.
  - specialize (Hstrip (pk_payload packet)). cbn [default]. destruct (strip _) as [[[m n]|]|[]|] eqn:E; cbn [mbind res_bind]; try done.
    intros Hb. by eapply strip_bytes.
  - specialize (Hstrip m). cbn [default id]. destruct (strip m) as [[[m' n]|]|[]|] eqn:E; cbn [mbind res_bind]; try done.
    intros Hb. specialize (Hj Hb). eapply remade_trans; [exact Hj|]. eapply strip_bytes; [apply Hj|exact E].
Qed.

(** ** Texts are octets *)

Lemma show_dec_bytes n : 0 <= n -> bytes_ok (show_dec n).
Proof.
  unfold show_dec. generalize 5%nat as fuel. intros fuel. revert n. induction fuel as [|fuel IH]; intros n Hn; cbn [show_dec_fuel]; [constructor|].
  destruct (Z.ltb_spec n 10); [repeat constructor; lia|]. apply Forall_app. split; [apply IH, Z.div_pos; lia|].
  pose proof (Z.mod_pos_bound n 10 ltac:(lia)). repeat constructor; lia.
Qed.

Lemma show_ipv4_bytes a : bytes_ok (show_ipv4 a).
Proof.
  unfold show_ipv4. pose proof (bytes_ok_be 4 a) as Hb. destruct (be_4_list a) as (b0&b1&b2&b3&E). rewrite E in *.
  rewrite !Forall_cons in Hb. destruct Hb as ([? _]&[? _]&[? _]&[? _]&_).
  rewrite !Forall_app. split_and!; try (by apply show_dec_bytes); by repeat constructor.
Qed.

Lemma authority_bytes e : 0 <= sa_port e -> bytes_ok (append_authority e).
Proof.
  intros Hp. unfold append_authority, show_endpoint. rewrite !Forall_app.
  split_and!; [apply show_ipv4_bytes|by repeat constructor|by apply show_dec_bytes].
Qed.

Section handlers.
Context {H W : Type} `{Kernel W} `{Host} `{Poller W} `{Adopt H} `{Tcp W} `{ProxyHandler H} (Hknl : kernel_typed _) (Htcp : tcp_typed W).
Implicit Types s : DState H W.
Abbreviation druns n absent m s Q := (runs (dispatch_ok n absent) full m s Q).

(** ** Rewrites *)

Lemma put_rstate_ok n absent s x : dispatch_ok n absent s -> reactor_ok (rs_reactor x) -> dispatch_ok n absent (put_rstate x s).
Proof. intros [? ? ? ? [] ? ? ?] ?. by split; [..|split| | |]. Qed.

Lemma set_dial_ok n absent s ctx : dispatch_ok n absent s -> dial_ok ctx ->
  dispatch_ok n absent (put_dispatcher (set_dial (ds_dispatcher s) ctx) s).
Proof. intros [? ? ? ? [] ? ? ?] ?. by split; [..|split| | |]. Qed.

Definition octets (rewrite : Rewrite) : Prop := match rewrite with Replaced m => bytes_ok m | _ => True end.

Lemma run_dial_rewrite n absent s target egress packet :
  dispatch_ok n absent s -> packet_ok packet -> druns n absent (dial_rewrite target egress packet) s (fun r _ => octets r).
Proof.
  intros Hs Hp. unfold dial_rewrite. eapply runs_bind with (P := fun _ _ => True); [by apply runs_gets|].
  intros t s1 Hs1 _. destruct (egress_addrs t egress ≫= ia_v4) as [v4|]; [|by apply runs_ret].
  destruct (egress_addrs t target ≫= ia_v4) as [target_v4|]; [|by apply runs_ret]. cbv zeta.
  eapply runs_bind; [by apply run_clock|]. intros now s2 Hs2 _.
  eapply runs_bind with (P := fun ctx s => ctx = pd_dial (ds_dispatcher s)); [by apply runs_gets|]. intros ctx s3 Hs3 ->.
  destruct (with_capacity_wf MAX_FRAME_LEN) as [Hwf Hq].
  match goal with |- context [rewrite_location ?c ?n ?p ?pl ?o] =>
    pose proof (rewrite_location_spec Htcp c n p pl o (get_rstate s3) (di_reactor _ _ _ Hs3) (di_dial _ _ _ Hs3) Hwf Hq) as Hr end.
  eapply runs_bind with (P := fun x _ => dial_ok x.1.2 /\ sb_wf x.2 /\ (x.1.1 = true -> bytes_ok (queue x.2))).
  - unfold runs, on_reactor, zoom. destruct (rewrite_location _ _ _ _ _ _) as [[[[b ctx'] out]|e|] s4]; [|done|by left].
    destruct Hr as (Hok&Hctx&Hout&Hb). split; [by apply put_rstate_ok|]. split_and!; [done..|]. cbn. intros ->.
    destruct (Hb eq_refl) as (loc&e&_&_&_&Hget&_&_&->). pose proof (pko_payload _ Hp).
    rewrite !Forall_app. split_and!; [by apply Forall_take| |by apply Forall_drop]. apply authority_bytes.
    apply lm_get_elem in Hget. apply (proj2 (proj2 Hctx) _ Hget).
  - intros [[b ctx] out] s4 Hs4 (Hctx&Hout&Hb). eapply runs_bind with (P := fun _ _ => True).
    { by apply runs_modify; [apply set_dial_ok|]. }
    intros [] s5 Hs5 _. destruct b; [|by apply runs_ret]. rewrite (pending_queue out Hout).
    eapply runs_bind with (P := fun m _ => m = queue out); [by apply runs_lift; [| |intros ? [= ->]]|].
    intros m s6 Hs6 ->. apply runs_ret; [done|]. by apply Hb.
Qed.

Lemma run_rewrite n absent s r packet egress :
  dispatch_ok n absent s -> packet_ok packet -> druns n absent (apply_rewrite r packet egress) s (fun rw _ => octets rw).
Proof.
  intros Hs Hp. pose proof (pko_payload _ Hp) as Hb. destruct r as [|g|g|target]; cbn [apply_rewrite].
  - by apply runs_ret.
  - pose proof (service_judge_ok g packet) as Hj. apply runs_lift; [done|by intros E; rewrite E in Hj|].
    intros rw E. rewrite E in Hj. destruct rw; try done. by apply Hj.
  - pose proof (response_judge_ok g packet) as Hj. apply runs_lift; [done|by intros E; rewrite E in Hj|].
    intros rw E. rewrite E in Hj. destruct rw; try done. by apply Hj.
  - by apply run_dial_rewrite.
Qed.

(** ** Datagrams within their types *)

Lemma egress_addrs_typed n absent s egress a : dispatch_ok n absent s -> egress_addrs (table_of s) egress = Some a -> addrs_ok a.
Proof. intros Hs. apply egress_addrs_ok. apply (so_addrs _ (di_sending _ _ _ Hs)). Qed.

Lemma directed_broadcast_ok a v4 : addrs_ok a -> v4_directed_broadcast a = Some v4 -> word_ok 32 v4.
Proof.
  intros (_&Hv4&_&_&Hp) Hb. unfold v4_directed_broadcast in Hb. apply bind_Some in Hb as (addr&Ha&Hb).
  apply bind_Some in Hb as (prefix&Hpr&Hb). destruct (30 <? prefix); [done|]. injection Hb as <-.
  specialize (Hv4 _ Ha). specialize (Hp _ Hpr). unfold word_ok in *.
  assert (0 <= Z.shiftr (2 ^ 32 - 1) prefix < 2 ^ 32).
  { rewrite Z.shiftr_div_pow2 by done. split; [apply Z.div_pos; lia|]. apply Z.div_lt_upper_bound; [lia|].
    assert (1 <= 2 ^ prefix) by (apply (Z.pow_le_mono_r 2 0); lia). nia. }
  assert (0 <= Z.lor addr (Z.shiftr (2 ^ 32 - 1) prefix)) by (apply Z.lor_nonneg; lia). split; [done|].
  destruct (decide (Z.lor addr (Z.shiftr (2 ^ 32 - 1) prefix) = 0)) as [->|]; [lia|].
  apply Z.log2_lt_pow2; [lia|]. rewrite Z.log2_lor by lia.
  apply Z.max_lub_lt; (destruct (decide (0 < addr)); destruct (decide (0 < Z.shiftr (2 ^ 32 - 1) prefix));
    try (apply Z.log2_lt_pow2; lia); rewrite Z.log2_nonpos by lia; lia).
Qed.

Lemma link_destination_ok dest broadcast unicast d :
  socket_ok dest -> (forall v4, broadcast = Some v4 -> word_ok 32 v4) ->
  (match unicast with ToGroup v4 v6 => word_ok 32 v4 /\ word_ok 128 v6 | _ => True end) ->
  link_destination dest broadcast unicast = Some d -> socket_ok d.
Proof.
  intros [Hip Hport] Hb Hu. unfold link_destination. destruct dest as [[v4|v6] p]; cbn [ip port] in *.
  - destruct (_ || _); [intros [= <-]; by split|]. destruct unicast; intros [= <-]; split; cbn; try done; [|apply Hu].
    destruct broadcast as [b|]; [by apply Hb|done].
  - destruct (Ipv6.is_multicast _); [intros [= <-]; by split|]. destruct unicast; intros [= <-]; split; cbn; try done. apply Hu.
Qed.

Lemma resolve_source_ok e packet : emit_ok e -> packet_ok packet -> source_ok (resolve_source (em_source e) packet).
Proof.
  intros (Hs&_) Hp. pose proof (pko_source _ Hp) as [? ?]. destruct (em_source e) as [[p|]|]; cbn; [done|done|by split].
Qed.
Lemma resolve_ttl_ok e packet : emit_ok e -> packet_ok packet -> byte_ok (resolve_ttl (em_ttl e) packet).
Proof. intros (_&Ht&_) Hp. destruct (em_ttl e); [done|apply Hp]. Qed.

(** ** The stateless reflector *)

Lemma run_simple_gate n absent s r packet t dest payload checked :
  dispatch_ok n absent s -> simple_ok r -> packet_ok packet -> socket_ok dest -> bytes_ok payload ->
  druns n absent (simple_gate r packet t dest payload checked) s (fun _ _ => True).
Proof.
  intros Hs [Hd He _ Hsup] Hp Hdest Hb. unfold simple_gate. eapply runs_bind with (P := fun _ _ => True).
  { apply runs_lift; [done| |done]. by destruct checked. }
  intros [|] s1 Hs1 _; [by apply runs_ret|]. unfold simple_send. eapply runs_bind with (P := fun _ _ => True).
  { apply runs_attempt; [|done]. apply run_delivery; [done..|].
    split_and!; [done|by apply resolve_source_ok|by apply resolve_ttl_ok|done]. }
  intros sent s2 Hs2 _. by apply runs_ret.
Qed.

Lemma run_simple n absent s r packet :
  dispatch_ok n absent s -> simple_ok r -> packet_ok packet -> druns n absent (simple_on_packet r packet) s (fun _ _ => True).
Proof.
  intros Hs Hr Hp. pose proof Hr as [Hd He Hc Hsup]. unfold simple_on_packet. eapply runs_bind with (P := fun _ _ => True).
  { apply runs_lift; [done|by apply Hc|done]. }
  intros [t|t| |] s1 Hs1 _; [|by apply runs_ret..]. destruct (delivery_destination _ _); [|by apply runs_ret].
  eapply runs_bind with (P := fun t s => t = table_of s); [by apply runs_gets|]. intros table s2 Hs2 ->.
  destruct (simple_destination r packet (table_of s2)) as [dest|] eqn:Ed; [|by apply runs_ret].
  assert (Hdest : socket_ok dest).
  { assert (Hlink : link_destination (pk_dest packet) (egress_addrs (table_of s2) (sr_egress r) ≫= v4_directed_broadcast)
      (em_unicast (sr_emit r)) = Some dest -> socket_ok dest).
    { apply link_destination_ok; [apply Hp| |apply He]. intros v4 (a&Ha&Hv)%bind_Some.
      eapply directed_broadcast_ok; [by eapply egress_addrs_typed|done]. }
    unfold simple_destination in Ed. destruct (sr_delivery r); [by apply Hlink|by apply Hlink|]. injection Ed as <-. apply Hd. }
  destruct (negb _); [by apply runs_ret|]. eapply runs_bind; [by apply run_rewrite|].
  intros [|m| |] s3 Hs3 Hm; [|by apply run_simple_gate|by apply runs_ret..].
  apply run_simple_gate; try done. apply Hp.
Qed.

(** ** The search reflector *)

Lemma reply_leg_ok r packet n : search_ok n r -> packet_ok packet -> simple_ok (reply_leg r packet).
Proof.
  intros [_ _ Hp _] Hpk. destruct Hp as [_ Httl _ _ Hsup]. split; cbn; [split; [apply Hpk|]|by split_and!|done|done].
  destruct (pk_src_mac packet) as [m|] eqn:E; [|done]. by apply (pko_src_mac _ Hpk).
Qed.

Lemma run_reserve n absent s addr ifindex : dispatch_ok n absent s -> ip_ok addr ->
  druns n absent (reserve addr ifindex) s (fun a _ => socket_ok a).
Proof.
  intros Hs Ha. unfold runs, reserve. pose proof (kt_port _ Hknl addr ifindex (ds_world s)) as Hp.
  destruct (reserve_port _ _ _) as [[e|p] w]; [by apply dispatch_ok_world|]. split; [by apply dispatch_ok_world|].
  split; [done|]. by apply Hp.
Qed.

Lemma reply_source_ok n absent s target dest addr :
  dispatch_ok n absent s -> reply_source (table_of s) target dest = Some addr -> ip_ok addr.
Proof.
  intros Hs. unfold reply_source. destruct dest as [v4|v6]; intros (a&Ha&->)%fmap_Some; apply bind_Some in Ha as (addrs&Ha&Hv);
    pose proof (egress_addrs_typed _ _ _ _ _ Hs Ha) as Haddrs; [by apply Haddrs|by eapply source_v6_ok].
Qed.

Lemma run_make_session n absent s r packet destination expiry t :
  dispatch_ok n absent s -> search_ok n r -> packet_ok packet ->
  druns n absent (make_session r packet destination expiry t) s
    (fun x _ => match x with inr session => session_ok session | inl _ => True end).
Proof.
  intros Hs Hr Hp. unfold make_session. destruct (_ <=? _)%nat; [by apply runs_ret|].
  eapply runs_bind with (P := fun t s' => t = table_of s'); [by apply runs_gets|]. intros table s1 Hs1 ->.
  destruct (reply_source _ _ _) as [addr|] eqn:Ea; [|by apply runs_ret].
  eapply runs_bind with (P := fun x _ => match x with inr a => socket_ok a | inl _ => True end).
  { apply runs_attempt; [|done]. apply run_reserve; [done|by eapply reply_source_ok]. }
  intros [e|reserved] s2 Hs2 Hres; [by apply runs_ret|].
  eapply runs_bind; [apply run_register; [done|apply Hr|cbn; by eapply reply_leg_ok]|].
  intros k s3 Hs3 Hk. by apply runs_ret.
Qed.

Lemma run_send_search n absent s r packet source :
  dispatch_ok n absent s -> search_ok n r -> packet_ok packet -> socket_ok source ->
  druns n absent (send_search r packet source) s (fun _ _ => True).
Proof.
  intros Hs [_ Hd [_ Httl _ _ _] _] Hp Hsrc. unfold send_search. apply runs_attempt; [|done]. apply run_delivery; [done..|].
  split_and!; [apply Hp|done|done|apply Hp].
Qed.

Lemma search_ok_sessions n r sessions : search_ok n r -> Forall (fun x => session_ok x.2) sessions -> search_ok n (with_sessions r sessions).
Proof. by intros [? ? ? ?] ?. Qed.

Lemma extend_sessions_ok expiry sessions key :
  Forall (fun x : SessionKey * Session => session_ok x.2) sessions ->
  Forall (fun x => session_ok x.2) (lm_get_mut (extend expiry) sessions key).
Proof.
  induction sessions as [|[k s] l IH]; intros Hall; cbn [lm_get_mut]; [done|]. apply Forall_cons in Hall as [Hs Hall].
  case_decide; by constructor; auto.
Qed.

Lemma run_release n absent s a : dispatch_ok n absent s -> druns n absent (release_reserved a) s (fun _ _ => True).
Proof. intros Hs. apply runs_modify; [by apply dispatch_ok_world|done]. Qed.

Lemma run_search n absent s r packet :
  dispatch_ok n absent s -> search_ok n r -> packet_ok packet ->
  druns n absent (search_on_packet r packet) s (fun x _ => search_ok n x.2).
Proof.
  intros Hs Hr Hp. unfold search_on_packet. eapply runs_bind with (P := fun _ _ => True).
  { apply runs_lift; [done|apply Hr|done]. }
  intros [t|t| |] s1 Hs1 _; [|by apply runs_ret..]. destruct (delivery_destination _ _) as [dest|]; [|by apply runs_ret].
  eapply runs_bind; [by apply run_clock|]. intros now s2 Hs2 _. cbv zeta.
  destruct (lm_get _ _) as [session|] eqn:Eg.
  - assert (Hsess : session_ok session).
    { apply lm_get_elem in Eg. pose proof (sh_sessions_ok _ _ Hr) as Hall. rewrite Forall_forall in Hall. by apply (Hall _ Eg). }
    unfold resend_search. eapply runs_bind; [by apply run_send_search; [..|apply Hsess]|].
    intros [e|[]] s3 Hs3 _; apply runs_ret; [done|done|done|]. apply search_ok_sessions; [done|]. apply extend_sessions_ok, Hr.
  - unfold open_session. eapply runs_bind; [by apply run_make_session|].
    intros [o|session] s3 Hs3 Hsess; [by apply runs_ret|].
    eapply runs_bind; [by apply run_send_search; [..|apply Hsess]|]. intros [e|[]] s4 Hs4 _.
    + eapply runs_bind; [by apply run_unregister; [apply Hsess|]|]. intros [] s5 Hs5 _.
      eapply runs_bind; [by apply run_release|]. intros [] s6 Hs6 _. by apply runs_ret.
    + apply runs_ret; [done|]. apply search_ok_sessions; [done|]. unfold lm_insert. rewrite Eg.
      apply Forall_app. split; [apply Hr|by apply Forall_singleton].
Qed.

Lemma run_search_deadline n absent s now r :
  dispatch_ok n absent s -> search_ok n r -> druns n absent (search_on_deadline now r) s (fun r' _ => search_ok n r').
Proof.
  intros Hs Hr. unfold search_on_deadline.
  assert (Hev : forall l s, Forall (fun x => session_ok x.2) l -> dispatch_ok n absent s ->
    druns n absent (evict_expired now l) s (fun l' _ => Forall (fun x => session_ok x.2) l')).
  { clear s Hs. induction l as [|[k se] l IH]; intros s Hall Hs; cbn [evict_expired]; [by apply runs_ret|].
    apply Forall_cons in Hall as [Hse Hall]. destruct (_ <=? _).
    - eapply runs_bind; [by apply run_unregister; [apply Hse|]|]. intros [] s1 Hs1 _.
      eapply runs_bind; [by apply run_release|]. intros [] s2 Hs2 _. by apply IH.
    - eapply runs_bind; [by apply IH|]. intros l' s1 Hs1 Hl'. apply runs_ret; [done|]. by constructor. }
  eapply runs_bind; [apply Hev; [apply Hr|done]|]. intros l s1 Hs1 Hl. apply runs_ret; [done|]. by apply search_ok_sessions.
Qed.

Lemma run_search_change n absent s captures r :
  dispatch_ok n absent s -> search_ok n r -> druns n absent (search_on_iface_change captures r) s (fun r' _ => search_ok n r').
Proof.
  intros Hs Hr. unfold search_on_iface_change. destruct (_ || _); [by apply runs_ret|].
  pose proof (sh_sessions_ok _ _ Hr) as Hall. rewrite Forall_forall in Hall.
  eapply runs_bind with (P := fun _ _ => True); [apply runs_for_each; [done| |done]|].
  { intros x s1 Hx Hs1. apply run_unregister; [|done]. apply (Hall _ Hx). }
  intros [] s1 Hs1 _. eapply runs_bind with (P := fun _ _ => True); [apply runs_for_each; [done| |done]|].
  { intros x s2 _ Hs2. by apply run_release. }
  intros [] s2 Hs2 _. apply runs_ret; [done|]. apply search_ok_sessions; [done|constructor].
Qed.

(** ** Any handler *)

Lemma run_on_packet n absent s h packet :
  dispatch_ok n absent s -> handler_ok n h -> packet_ok packet ->
  druns n absent (handler_on_packet h packet) s (fun x _ => handler_ok n x.2).
Proof.
  intros Hs Hh Hp. destruct h as [r|r]; cbn [handler_on_packet].
  - eapply runs_bind; [by apply run_simple|]. intros o s1 Hs1 _. by apply runs_ret.
  - eapply runs_bind; [by apply run_search|]. intros [o r'] s1 Hs1 Hr'. by apply runs_ret.
Qed.

Lemma run_on_deadline n absent s now h :
  dispatch_ok n absent s -> handler_ok n h -> druns n absent (handler_on_deadline now h) s (fun h' _ => handler_ok n h').
Proof.
  intros Hs Hh. destruct h as [r|r]; cbn [handler_on_deadline]; [by apply runs_ret|].
  eapply runs_bind; [by apply run_search_deadline|]. intros r' s1 Hs1 Hr'. by apply runs_ret.
Qed.

Lemma run_on_change n absent s captures h :
  dispatch_ok n absent s -> handler_ok n h -> druns n absent (handler_on_iface_change captures h) s (fun h' _ => handler_ok n h').
Proof.
  intros Hs Hh. destruct h as [r|r]; cbn [handler_on_iface_change]; [by apply runs_ret|].
  eapply runs_bind; [by apply run_search_change|]. intros r' s1 Hs1 Hr'. by apply runs_ret.
Qed.
End handlers.
