(* ===== verification/SearchSpec.v ===== *)
(** Search sessions: each holds one reserved port and one reply registration,
    for as long as it lives and no longer, and lives exactly as long as its
    window. *)

From S2P Require Import Prelude Effect Text Addr Names Interface Kernel Multicast InterfaceTable Counters.
From S2P Require Import Packet LinearMap Arena Datagram Egress EgressSpec Reactor DialRegistry Reflector Dispatcher Handlers.
From S2P Require Import Tcp.

Local Open Scope Z_scope.

(** ** What a send leaves alone *)

Section quiet.
Context {W : Type} `{Kernel W} `{Host} (J : W -> Prop).
Context (HJ : forall c frame w, J w -> J (capture_send c frame w).2).
Implicit Types s : Sending W.

(** A run on the egress after which [J] still holds of the world, if it ends. *)
Definition quietly {E A} (m : M (Sending W) E A) : Prop :=
  forall s, J (sd_world s) -> runs (fun s => J (sd_world s)) (fun _ => True) m s (fun _ _ => True).

Lemma quietly_bind {E A B} (m : M (Sending W) E A) (f : A -> M (Sending W) E B) :
  quietly m -> (forall a, quietly (f a)) -> quietly (m ≫= f).
Proof. intros Hm Hf s Hs. eapply runs_bind; [by apply Hm|]. intros a s' Hs' _. by apply Hf. Qed.
Lemma quietly_ret {E A} (a : A) : quietly (mret a : M (Sending W) E A).
Proof. by intros s Hs. Qed.
Lemma quietly_lift {E A} (r : res E A) : quietly (lift r).
Proof. intros s Hs. unfold runs, lift. by destruct r. Qed.
Lemma quietly_gets {E A} (f : Sending W -> A) : quietly (gets f : M (Sending W) E A).
Proof. by intros s Hs. Qed.
Lemma quietly_modify {E} (f : Sending W -> Sending W) : (forall s, sd_world (f s) = sd_world s) -> quietly (modify f : M (Sending W) E ()).
Proof. intros Hf s Hs. split; [by rewrite Hf|done]. Qed.
Lemma quietly_attempt {E E' A} (m : M (Sending W) E A) : quietly m -> quietly (attempt m : M (Sending W) E' (E + A)).
Proof. intros Hm s Hs. apply runs_attempt; [by apply Hm|done]. Qed.
Lemma quietly_for_each {E A} (f : A -> M (Sending W) E ()) l : (forall x, quietly (f x)) -> quietly (for_each f l).
Proof. intros Hf. induction l as [|x l IH]; [apply quietly_ret|]. by apply quietly_bind; [|intros _]. Qed.

Create HintDb quiet.
Ltac quiet :=
  repeat first
    [ apply quietly_ret | apply quietly_lift | apply quietly_gets | apply quietly_attempt
    | apply quietly_for_each; intros ? | apply quietly_modify; intros ?; try done
    | apply quietly_bind; [|intros ?]
    | match goal with |- context [match ?x with _ => _ end] => destruct x end
    | solve [eauto with quiet] ].

Lemma quietly_send_frame egress frame : quietly (send_frame egress frame).
Proof.
  intros s Hs. unfold runs, send_frame. destruct (capture _ _) as [c|]; [|done].
  pose proof (HJ c frame _ Hs) as Hc. by destruct (capture_send _ _ _) as [[e|[]] w].
Qed.

#[local] Hint Resolve quietly_send_frame : quiet.

Lemma quietly_transmit egress frames digest : quietly (transmit egress frames digest).
Proof. unfold transmit, transmit_frame. quiet. Qed.
Lemma quietly_plan egress mac d : quietly (plan egress mac d).
Proof. unfold plan. quiet. Qed.
#[local] Hint Resolve quietly_transmit quietly_plan : quiet.

Lemma quietly_send_udp egress mac d : quietly (send_udp egress mac d).
Proof. unfold send_udp. quiet. Qed.
#[local] Hint Resolve quietly_send_udp : quiet.
Lemma quietly_send_udp_group egress d : quietly (send_udp_group egress d).
Proof. unfold send_udp_group. quiet. Qed.

Lemma quietly_send_to_each egress d peers delivered failure : quietly (send_to_each egress d peers delivered failure).
Proof.
  revert delivered failure. induction peers; intros delivered failure; cbn [send_to_each]; quiet.
Qed.
End quiet.

(** ** The ports held *)

Fixpoint remove_one (a : SocketAddr) (l : list SocketAddr) : list SocketAddr :=
  match l with [] => [] | b :: l => if decide (a = b) then l else b :: remove_one a l end.

Lemma remove_one_perm a l : a ∈ l -> l ≡ₚ a :: remove_one a l.
Proof.
  induction l as [|b l IH]; [by intros ?%not_elem_of_nil|]. cbn. case_decide; [by subst|].
  rewrite elem_of_cons. intros [|Hl]; [done|]. rewrite IH at 1 by done. apply Permutation_swap.
Qed.

(** The kernel [K] with the list of the ports reserved and not yet released. *)
Definition holding {W} (K : Kernel W) : Kernel (W * list SocketAddr) := observing K (fun _ _ ports => ports) cons remove_one.

Section search.
Context {H W : Type} (K : Kernel W) `{Host} `{Poller (W * list SocketAddr)} `{Adopt H} `{Tcp (W * list SocketAddr)} `{ProxyHandler H}.
#[local] Existing Instance holding.
Implicit Types s : DState H (W * list SocketAddr).
Implicit Types (r : SearchReflector) (l : LinearMap SessionKey Session).

(** The reply registration of a session: on the target, for the port it
    reserved, to the searcher. *)
Definition serves r (x : SessionKey * Session) (kr : Key * Registration) : Prop :=
  kr.1 = se_response_key x.2 /\ rn_ingress kr.2 = sh_target r /\ rn_filter kr.2 = reply_filter r (se_reserved x.2) /\
  exists leg mac, rn_handler kr.2 = Some (HSimple leg) /\ sr_egress leg = sh_source r /\
    sr_delivery leg = ToUnicast (sk_searcher x.1) mac.

Definition ports_of l : list SocketAddr := (fun x => se_reserved x.2) <$> l.

(** Beside the registrations [base] and the [ports] of others, exactly a reply
    registration and a port for each session. *)
Record held (base : list (Key * Registration)) (ports : list SocketAddr) r l s : Prop := {
  hd_arena : arena_wf (regs_of s);
  hd_regs : exists replies, iter (regs_of s) ≡ₚ base ++ replies /\ Forall2 (serves r) l replies;
  hd_ports : (ds_world s).2 ≡ₚ ports ++ ports_of l;
}.
Record sessions_held base ports r s : Prop := {
  sh_held : held base ports r (sh_sessions r) s;
  sh_distinct : lm_wf (sh_sessions r);
  sh_bound : (length (sh_sessions r) <= MAX_SESSIONS)%nat;
}.

Abbreviation hruns base ports r l m s Q := (runs (held base ports r l) (fun _ => True) m s Q).

Lemma held_sending base ports r l s x : held base ports r l s -> (sd_world x).2 = (ds_world s).2 -> held base ports r l (put_sending x s).
Proof. intros [? ? ?] Hx. split; [done|done|]. cbn. by rewrite Hx. Qed.

Lemma held_send base ports r l s d egress datagram :
  held base ports r l s -> hruns base ports r l (delivery_send d egress datagram) s (fun _ _ => True).
Proof.
  intros Hs. set (J := fun w : W * list SocketAddr => w.2 = (ds_world s).2).
  assert (HJ : forall c frame w, J w -> J (capture_send c frame w).2).
  { intros c frame w Hw. cbn. by destruct (capture_send c frame w.1). }
  assert (Hm : forall (m : M (Sending (W * list SocketAddr)) IoError ()), quietly J m ->
    hruns base ports r l (on_egress m) s (fun _ _ => True)).
  { intros m Hm. unfold on_egress. eapply runs_zoom with (J := fun x => J (sd_world x)) (stuck := fun _ => True).
    - eapply runs_mono; [by apply Hm|]. intros a x Hx _. split; [by apply held_sending|done].
    - intros x Hx. by apply held_sending.
    - done. }
  destruct d; cbn [delivery_send]; apply Hm;
    [apply quietly_send_udp_group|apply quietly_send_to_each|apply quietly_send_udp]; exact HJ.
Qed.

Lemma held_search base ports r l s packet source :
  held base ports r l s -> hruns base ports r l (send_search r packet source) s (fun _ _ => True).
Proof. intros Hs. apply runs_attempt; [by apply held_send|done]. Qed.

(** A session torn down takes its registration and its port along. *)
Definition tear_down (x : SessionKey * Session) : M (DState H (W * list SocketAddr)) Infallible () :=
  _ ← unregister_handler (se_response_key x.2); release_reserved (se_reserved x.2).

Lemma drop_reply d k reg rest : arena_wf (pd_registrations d) -> iter (pd_registrations d) ≡ₚ (k, reg) :: rest ->
  arena_wf (pd_registrations (drop_handler k d)) /\ iter (pd_registrations (drop_handler k d)) ≡ₚ rest.
Proof.
  intros Ha Hr. assert (Hin : (k, reg) ∈ iter (pd_registrations d)) by (rewrite Hr; by left).
  apply elem_of_iter in Hin as [Hk Hget]. unfold drop_handler.
  destruct (remove _ k) as [[v a']|] eqn:E; [|apply remove_None in E; congruence].
  destruct (get_remove _ _ _ _ Ha Hk E) as (Ha'&Hv&_). assert (v = reg) as -> by congruence.
  split; [done|]. cbn. rewrite (iter_remove _ _ _ _ Ha Hk E) in Hr. by apply Permutation_cons_inv in Hr.
Qed.

Lemma release_one a (w : W * list SocketAddr) rest : w.2 ≡ₚ a :: rest -> (release_port a w).2 ≡ₚ rest.
Proof.
  intros Hw. cbn. apply (Permutation_cons_inv (a := a)). rewrite <- remove_one_perm; [done|]. rewrite Hw. by left.
Qed.

Lemma held_tear_down base ports r l x s : held base ports r (x :: l) s ->
  exists s', tear_down x s = (Ok (), s') /\ held base ports r l s'.
Proof.
  intros [Ha (replies&Hr&Hs) Hp]. apply Forall2_cons_inv_l in Hs as ([k reg]&replies'&(Hk&Hreg)&Hs&->). cbn in Hk. subst k.
  rewrite <- Permutation_middle in Hr. destruct (drop_reply _ _ _ _ Ha Hr) as [Ha' Hr'].
  unfold tear_down, unregister_handler, release_reserved, on_dispatcher, modify, mbind, M_bind.
  eexists. split; [done|]. split; [done|by exists replies'|]. apply release_one. rewrite Hp. symmetry. apply Permutation_middle.
Qed.

(** A port reserved, or not. *)
Lemma reserve_spec addr ifindex s :
  match reserve addr ifindex s with
  | (Ok a, s') => ds_dispatcher s' = ds_dispatcher s /\ (ds_world s').2 = a :: (ds_world s).2
  | (Err _, s') => ds_dispatcher s' = ds_dispatcher s /\ (ds_world s').2 = (ds_world s).2
  | (Panic, _) => False
  end.
Proof. unfold reserve. cbn. by destruct (reserve_port addr ifindex (ds_world s).1) as [[e|n] w]. Qed.

Lemma held_same base ports r l s s' : held base ports r l s -> regs_of s' = regs_of s -> (ds_world s').2 = (ds_world s).2 ->
  held base ports r l s'.
Proof. intros [? ? ?] Hr Hw. split; [by rewrite Hr..|by rewrite Hw]. Qed.

(** A session made holds a port and a registration of its own. *)
Lemma held_make_session base ports r l s packet destination expiry t key :
  held base ports r l s -> sk_searcher key = pk_source packet ->
  match make_session r packet destination expiry t s with
  | (Ok (inr session), s') => held base ports r (l ++ [(key, session)]) s' /\ se_expiry session = expiry /\
      (length (sh_sessions r) < MAX_SESSIONS)%nat
  | (Ok (inl o), s') => held base ports r l s' /\ forall t', o <> Reflected t'
  | (Err _, _) => False
  | (Panic, _) => True
  end.
Proof.
  intros Hs Hkey. unfold make_session, lm_len. destruct (Nat.leb_spec MAX_SESSIONS (length (sh_sessions r))) as [|Hle]; [done|].
  unfold gets, mbind, M_bind, mret, M_ret. destruct (reply_source _ _ _) as [addr|]; [|done].
  unfold attempt. pose proof (reserve_spec addr (default 0 (ifindex_of (table_of s) (sh_target r))) s) as Hres.
  destruct (reserve _ _ _) as [[a|e|] s1]; [|destruct Hres as [Hd Hw]; split; [|done]; apply (held_same _ _ _ _ s); [done|unfold regs_of; congruence|congruence]|done].
  destruct Hres as [Hd Hw]. unfold register_handler, gets, lift, on_dispatcher, modify, mbind, M_bind, mret, M_ret, arena_insert.
  assert (Hreg : regs_of s1 = regs_of s) by (unfold regs_of; by rewrite Hd).
  match goal with |- context [insert_from (regs_of s1) ?f] => set (make := f) end.
  destruct (insert_from (regs_of s1) make) as [[k a']|[]|] eqn:E; [|done].
  destruct Hs as [Ha (replies&Hr&Hsv) Hp]. rewrite Hreg in E.
  pose proof (iter_insert_from _ _ _ _ Ha E) as Hit. destruct (get_insert_from _ _ _ _ Ha E) as (Ha'&_&_&_).
  split; [|done]. split; unfold regs_of in *; cbn; [done| |].
  - exists (replies ++ [(k, make k)]). split.
    + rewrite Hit, Hr, app_assoc. apply Permutation_cons_append.
    + apply Forall2_app; [done|]. apply Forall2_cons. split; [|constructor]. do 3 (split; [done|]).
      eexists _, _. do 2 (split; [done|]). cbn. by rewrite Hkey.
  - rewrite Hw, Hp. unfold ports_of. rewrite fmap_app, app_assoc. cbn. apply Permutation_cons_append.
Qed.

(** ** One packet *)

Lemma clock_holds (w : W * list SocketAddr) : (clock w).2.2 = w.2.
Proof. cbn. unfold logged. by destruct (clock w.1). Qed.

(** What a packet does to the sessions: nothing, unless it was reflected; then
    its session, found or opened, lasts until the window of this search ends at
    least. *)
Definition session_of packet : SessionKey := {| sk_searcher := pk_source packet; sk_dest := pk_dest packet |}.
Definition answered r r' (packet : Packet) (o : Outcome) (now : Z) : Prop :=
  match o with
  | Reflected t =>
      let expiry := now + sp_window (sh_protocol r) (pk_payload packet) in
      (forall k, k <> session_of packet -> lm_get (sh_sessions r') k = lm_get (sh_sessions r) k) /\
      match lm_get (sh_sessions r) (session_of packet) with
      | Some session =>
          lm_get (sh_sessions r') (session_of packet) =
          Some {| se_expiry := Z.max (se_expiry session) expiry; se_reserved := se_reserved session;
                  se_response_key := se_response_key session |}
      | None => exists session, lm_get (sh_sessions r') (session_of packet) = Some session /\ se_expiry session = expiry
      end
  | _ => r' = r
  end.

(** What the reflector holds does not depend on the sessions it lists. *)
Lemma held_with base ports r l l' s : held base ports r l s -> held base ports (with_sessions r l') l s.
Proof. by intros [? ? ?]. Qed.

(** The order of the sessions does not matter. *)
Lemma held_shift base ports r l x s : held base ports r (l ++ [x]) s -> held base ports r (x :: l) s.
Proof.
  intros [Ha (replies&Hr&Hs) Hp]. apply Forall2_app_inv_l in Hs as (r1&r2&Hl1&Hl2&->).
  apply Forall2_cons_inv_l in Hl2 as (kr&r3&Hx&Hnil&->). apply Forall2_nil_inv_l in Hnil as ->. split; [done| |].
  - exists (kr :: r1). split; [|by constructor]. rewrite Hr. f_equiv. symmetry. apply Permutation_cons_append.
  - rewrite Hp. unfold ports_of. rewrite fmap_app. f_equiv. symmetry. apply Permutation_cons_append.
Qed.

Lemma held_extend base ports r l s key expiry : held base ports r l s -> held base ports r (lm_get_mut (extend expiry) l key) s.
Proof.
  intros [Ha (replies&Hr&Hs) Hp]. split; [done| |].
  - exists replies. split; [done|]. clear -Hs. induction Hs as [|[k se] kr l replies Hx Hl IH]; cbn [lm_get_mut]; [constructor|].
    case_decide; by constructor.
  - rewrite Hp. apply reflexive_eq. f_equal. unfold ports_of. clear. induction l as [|[k se] l IH]; [done|]. cbn [lm_get_mut].
    case_decide; cbn; [done|by rewrite IH].
Qed.

Lemma search_packet_held base ports r packet s : sessions_held base ports r s ->
  match search_on_packet r packet s with
  | (Ok (o, r'), s') => sessions_held base ports r' s' /\ answered r r' packet o (clock (ds_world s)).1
  | (Err _, _) => False
  | (Panic, _) => True
  end.
Proof.
  intros [Hs Hd Hb]. unfold search_on_packet. unfold lift, mbind at 1, M_bind.
  destruct (sp_search_verdict _ _) as [[t|t| |]|[]|]; try done.
  destruct (delivery_destination _ _) as [destination|]; [|done].
  unfold instant_now, update, mbind, M_bind. destruct (clock (ds_world s)) as [now w] eqn:Ec. cbn [fst].
  assert (Hs1 : held base ports r (sh_sessions r) (put_world w s)).
  { apply (held_same _ _ _ _ s); [done|done|]. rewrite <- (clock_holds (ds_world s)), Ec. done. }
  set (s1 := put_world w s) in *. clearbody s1. cbv zeta. set (expiry := now + _). fold (session_of packet).
  destruct (lm_get _ (session_of packet)) as [session|] eqn:Eg.
  - unfold resend_search, mbind, M_bind, mret, M_ret. pose proof (held_search _ _ _ _ s1 packet (se_reserved session) Hs1) as Hsend.
    unfold runs in Hsend. destruct (send_search _ _ _ s1) as [[[e|[]]|[]|] s2]; try done; destruct Hsend as [Hs2 _]; [by split|].
    split; [split; cbn; [by apply held_with, held_extend|unfold lm_wf; by rewrite lm_get_mut_keys|]|].
    + by rewrite <- (length_fmap fst), lm_get_mut_keys, length_fmap.
    + split; cbn.
      * intros k Hk. rewrite lm_get_get_mut. by rewrite decide_False.
      * rewrite Eg, lm_get_get_mut, decide_True, Eg by done. done.
  - unfold open_session, mbind, M_bind. pose proof (held_make_session _ _ _ _ s1 packet destination expiry t (session_of packet) Hs1 eq_refl) as Hmade.
    destruct (make_session _ _ _ _ _ s1) as [[[o|session]|[]|] s2]; try done; cbn.
    { destruct Hmade as [Hs2 Ho]. split; [done|]. destruct o as [t'| | | | |]; try done. by destruct (Ho t'). }
    destruct Hmade as (Hs2&Hexp&Hlt). pose proof (held_search _ _ _ _ s2 packet (se_reserved session) Hs2) as Hsend.
    unfold runs in Hsend. destruct (send_search _ _ _ s2) as [[[e|[]]|[]|] s3]; try done; destruct Hsend as [Hs3 _].
    + apply (held_shift base ports r _ _ s3) in Hs3. destruct (held_tear_down _ _ _ _ (session_of packet, session) _ Hs3) as (s4&Et&Hs4).
      unfold tear_down, mbind, M_bind in Et. unfold release_reserved, modify in Et. cbn in Et. injection Et as <-. by split.
    + split; [split; cbn; unfold lm_insert; rewrite Eg; cbn|split; cbn].
      * by apply held_with.
      * unfold lm_wf. rewrite fmap_app. apply NoDup_app. split_and!; [done| |apply NoDup_singleton].
        intros k Hk ->%list_elem_of_singleton. by apply lm_get_None in Eg.
      * rewrite length_app. cbn. lia.
      * intros k Hk. rewrite lm_get_insert. by rewrite decide_False.
      * rewrite Eg. exists session. split; [|done]. by rewrite lm_get_insert, decide_True.
Qed.

(** ** Deadlines *)

(** A session set aside counts among what others hold. *)
Lemma held_aside base ports r l x s : held base ports r (x :: l) s ->
  exists kr, serves r x kr /\ held (kr :: base) (se_reserved x.2 :: ports) r l s.
Proof.
  intros [Ha (replies&Hr&Hs) Hp]. apply Forall2_cons_inv_l in Hs as (kr&replies'&Hx&Hs&->). exists kr. split; [done|]. split; [done| |].
  - exists replies'. split; [|done]. rewrite Hr. symmetry. apply Permutation_middle.
  - rewrite Hp. cbn. symmetry. apply Permutation_middle.
Qed.
Lemma held_back base ports r l x kr s : serves r x kr -> held (kr :: base) (se_reserved x.2 :: ports) r l s -> held base ports r (x :: l) s.
Proof.
  intros Hx [Ha (replies&Hr&Hs) Hp]. split; [done| |].
  - exists (kr :: replies). split; [|by constructor]. rewrite Hr. apply Permutation_middle.
  - rewrite Hp. cbn. apply Permutation_middle.
Qed.

Definition live (now : Z) (x : SessionKey * Session) : bool := now <? se_expiry x.2.

Lemma evict_expired_held now base ports r l s : held base ports r l s ->
  exists s', evict_expired now l s = (Ok (List.filter (live now) l), s') /\ held base ports r (List.filter (live now) l) s'.
Proof.
  revert base ports s. induction l as [|[key session] l IH]; intros base ports s Hs; cbn [evict_expired]; [by exists s|].
  cbn [List.filter]. rewrite Z.leb_antisym. change (now <? se_expiry session) with (live now (key, session)).
  destruct (live now (key, session)); cbn [negb].
  - destruct (held_aside _ _ _ _ _ _ Hs) as (kr&Hx&Hs1). destruct (IH _ _ _ Hs1) as (s'&E&Hs2).
    exists s'. unfold mbind, M_bind. rewrite E. split; [done|]. by apply (held_back _ _ _ _ _ kr).
  - destruct (held_tear_down _ _ _ _ _ _ Hs) as (s1&E1&Hs1). destruct (IH _ _ _ Hs1) as (s2&E2&Hs2).
    exists s2. split; [|done]. unfold tear_down, mbind, M_bind in *. unfold release_reserved, modify in *. cbn in E1 |- *.
    injection E1 as ->. done.
Qed.

Lemma clear_held base ports r l s : held base ports r l s ->
  exists s', (_ ← for_each (E:=Infallible) (fun x => unregister_handler (se_response_key x.2)) l;
              for_each (fun x => release_reserved (se_reserved x.2)) l) s = (Ok (), s') /\ held base ports r [] s'.
Proof.
  intros [Ha (replies&Hr&Hs) Hp].
  assert (Hregs : exists s1, for_each (E:=Infallible) (fun x => unregister_handler (se_response_key x.2)) l s = (Ok (), s1) /\
    arena_wf (regs_of s1) /\ iter (regs_of s1) ≡ₚ base /\ ds_world s1 = ds_world s).
  { clear Hp. revert s Ha Hr. induction Hs as [|x [k reg] l replies (Hk&_) _ IH]; intros s Ha Hr; cbn [for_each].
    - exists s. rewrite app_nil_r in Hr. by split_and!.
    - cbn in Hk. subst k. rewrite <- Permutation_middle in Hr. destruct (drop_reply _ _ _ _ Ha Hr) as [Ha' Hr'].
      unfold unregister_handler at 1, on_dispatcher, modify, mbind, M_bind.
      destruct (IH (put_dispatcher (drop_handler (se_response_key x.2) (ds_dispatcher s)) s) Ha' Hr') as (s1&E1&?&?&?).
      exists s1. by split_and!. }
  destruct Hregs as (s1&E1&Ha1&Hr1&Hw1). rewrite <- Hw1 in Hp. clear - E1 Ha1 Hr1 Hp. unfold mbind, M_bind. rewrite E1. clear E1 s.
  revert s1 Ha1 Hr1 Hp. induction l as [|x l IH]; intros s Ha Hr Hp; cbn [for_each].
  - exists s. split; [done|]. split; [done| |done]. exists []. by rewrite app_nil_r.
  - unfold release_reserved at 1, modify, mbind, M_bind. apply IH; [done|done|]. apply release_one.
    rewrite Hp. symmetry. apply Permutation_middle.
Qed.

(** ** The reflector *)

Inductive SearchOp : Type :=
  | SoPacket (packet : Packet)
  | SoDeadline (now : Z)
  | SoChange (captures : list CaptureKey).
Definition search_op (op : SearchOp) r : M (DState H (W * list SocketAddr)) Infallible SearchReflector :=
  match op with
  | SoPacket packet => '(_, r) ← search_on_packet r packet; mret r
  | SoDeadline now => search_on_deadline now r
  | SoChange captures => search_on_iface_change captures r
  end.
Fixpoint search_ops (ops : list SearchOp) r : M (DState H (W * list SocketAddr)) Infallible SearchReflector :=
  match ops with
  | [] => mret r
  | op :: ops => r ← search_op op r; search_ops ops r
  end.

Lemma deadline_held base ports r now s : sessions_held base ports r s ->
  exists s', search_on_deadline now r s = (Ok (with_sessions r (List.filter (live now) (sh_sessions r))), s') /\
    sessions_held base ports (with_sessions r (List.filter (live now) (sh_sessions r))) s'.
Proof.
  intros [Hs Hd Hb]. destruct (evict_expired_held now _ _ _ _ _ Hs) as (s'&E&Hs'). exists s'.
  unfold search_on_deadline, mbind, M_bind. rewrite E. split; [done|]. split; cbn; [by apply held_with| |].
  - clear -Hd. unfold lm_wf in *. induction (sh_sessions r) as [|x l IH]; [done|]. cbn in *. apply NoDup_cons in Hd as [Hx Hd].
    destruct (live now x); [|by apply IH]. cbn. constructor; [|by apply IH]. intros Hin. apply Hx.
    apply list_elem_of_fmap in Hin as (y&->&Hy). apply list_elem_of_fmap. exists y. split; [done|].
    apply list_elem_of_In, List.filter_In in Hy as [Hy _]. by apply list_elem_of_In.
  - etrans; [|exact Hb]. apply List.filter_length_le.
Qed.

Lemma change_held base ports r captures s : sessions_held base ports r s ->
  exists s', search_on_iface_change captures r s =
      (Ok (if bool_decide (sh_target r ∈ captures) then with_sessions r [] else r), s') /\
    sessions_held base ports (if bool_decide (sh_target r ∈ captures) then with_sessions r [] else r) s'.
Proof.
  intros Hr. pose proof Hr as [Hs Hd Hb]. unfold search_on_iface_change. destruct (bool_decide _); cbn [negb orb].
  - rewrite orb_false_r. destruct (sh_sessions r) as [|x l] eqn:El; cbn [lm_is_empty].
    + assert (with_sessions r [] = r) as -> by (destruct r; cbn in *; by rewrite El). by exists s.
    + destruct (clear_held _ _ _ _ _ Hs) as (s'&E&Hs'). exists s'. unfold mbind, M_bind in *. unfold lm_iter.
      destruct (for_each _ (x :: l) s) as [[[]|[]|] s1]; [|done]. rewrite E. split; [done|].
      split; cbn; [by apply held_with|constructor|unfold MAX_SESSIONS; lia].
  - rewrite orb_true_r. by exists s.
Qed.

Lemma search_ops_held base ports ops r s : sessions_held base ports r s ->
  match search_ops ops r s with
  | (Ok r', s') => sessions_held base ports r' s'
  | (Err _, _) => False
  | (Panic, _) => True
  end.
Proof.
  revert r s. induction ops as [|op ops IH]; intros r s Hr; cbn [search_ops]; [done|]. unfold mbind, M_bind.
  assert (Hop : match search_op op r s with (Ok r', s') => sessions_held base ports r' s' | (Err _, _) => False | (Panic, _) => True end).
  { destruct op as [packet|now|captures]; cbn [search_op].
    - pose proof (search_packet_held base ports r packet s Hr) as Hp. unfold mbind, M_bind.
      destruct (search_on_packet r packet s) as [[[o r']|[]|] s']; [|done]. apply Hp.
    - destruct (deadline_held base ports r now s Hr) as (s'&->&Hs'). done.
    - destruct (change_held base ports r captures s Hr) as (s'&->&Hs'). done. }
  destruct (search_op op r s) as [[r'|[]|] s']; [|done]. by apply IH.
Qed.

(** C7. A search reflector leaks nothing. Over any searches, retransmits,
    deadlines and interface changes, however each reservation and each send
    fares, it has at most 64 sessions, one for each searcher and group searched;
    beside what others hold, the ports reserved are exactly its sessions' and
    the registrations exactly one reply leg for each, on the target interface,
    for the port reserved, back to the searcher. *)
Theorem search_sessions_hold_exactly ops r s :
  arena_wf (regs_of s) -> sh_sessions r = [] ->
  match search_ops ops r s with
  | (Ok r', s') =>
      lm_wf (sh_sessions r') /\ (length (sh_sessions r') <= MAX_SESSIONS)%nat /\
      (ds_world s').2 ≡ₚ (ds_world s).2 ++ ports_of (sh_sessions r') /\
      exists replies, iter (regs_of s') ≡ₚ iter (regs_of s) ++ replies /\ Forall2 (serves r') (sh_sessions r') replies
  | (Err _, _) => False
  | (Panic, _) => True
  end.
Proof.
  intros Ha Hr. assert (H0' : sessions_held (iter (regs_of s)) (ds_world s).2 r s).
  { split; rewrite Hr; [|constructor|cbn; lia]. split; [done| |cbn; by rewrite app_nil_r].
    exists []. split; [by rewrite app_nil_r|constructor]. }
  pose proof (search_ops_held _ _ ops r s H0') as Hops.
  destruct (search_ops ops r s) as [[r'|e|] s']; [|done..]. destruct Hops as [[_ Hregs Hp] Hd Hb]. by split_and!.
Qed.

(** A session is opened by the search that is reflected, and a retransmit
    moves its expiry to the end of its own window but never back; a search that
    is not reflected, for want of an address, a port or room, or because it
    could not be sent, changes no session at all. *)
Theorem search_answered base ports r packet s :
  sessions_held base ports r s ->
  match search_on_packet r packet s with
  | (Ok (o, r'), _) => answered r r' packet o (clock (ds_world s)).1
  | (Err _, _) => False
  | (Panic, _) => True
  end.
Proof.
  intros Hr. pose proof (search_packet_held base ports r packet s Hr) as Hp.
  destruct (search_on_packet r packet s) as [[[o r']|e|] s']; [|done..]. apply Hp.
Qed.

(** A deadline ends exactly the sessions whose window is over, and gives back
    their ports and reply legs; none left is due, so the next deadline is to
    come. *)
Theorem search_deadline_exact base ports r now s :
  sessions_held base ports r s ->
  exists r' s', search_on_deadline now r s = (Ok r', s') /\ sessions_held base ports r' s' /\
    (forall k session, lm_get (sh_sessions r') k = Some session <->
       lm_get (sh_sessions r) k = Some session /\ now < se_expiry session) /\
    forall d, search_deadline r' = Some d -> now < d.
Proof.
  intros Hr. destruct (deadline_held base ports r now s Hr) as (s'&E&Hs').
  eexists _, s'. split; [exact E|]. split; [done|]. split.
  - intros k session. rewrite (lm_get_Some _ _ _ (sh_distinct _ _ _ _ Hs')), (lm_get_Some _ _ _ (sh_distinct _ _ _ _ Hr)).
    cbn. rewrite list_elem_of_In, List.filter_In, <- list_elem_of_In. unfold live. cbn. by rewrite Z.ltb_lt.
  - intros d Hd. unfold search_deadline in Hd. cbn in Hd. apply min_instant_elem in Hd.
    apply list_elem_of_fmap in Hd as (x&->&Hx). apply list_elem_of_In, List.filter_In in Hx as [_ Hx]. by apply Z.ltb_lt.
Qed.
End search.

(** ** Witnesses *)

Definition ex_searcher : SearchReflector :=
  {| sh_source := {| ck_index := 0 |}; sh_target := {| ck_index := 0 |}; sh_delivery := ToLink; sh_device_macs := None;
     sh_protocol := SSDP; sh_make_reply := NoRewrite; sh_sessions := [] |}.
Definition ex_search_state : DState () (() * list SocketAddr) :=
  {| ds_dispatcher := set_table (dispatcher_new false 0 7) ex_bound; ds_reactor := reactor_new (); ds_world := ((), []) |}.
Definition ex_search : Packet :=
  {| pk_source := {| ip := V4 (Ipv4.new 192 168 0 9); port := 50000 |};
     pk_dest := {| ip := V4 (Ipv4.new 239 255 255 250); port := 1900 |}; pk_ttl := 2;
     pk_dst_mac := None; pk_src_mac := Some [2; 0; 0; 0; 0; 9];
     pk_payload := bs "M-SEARCH * HTTP/1.1" ++ [13; 10] ++ bs "MX: 3" ++ [13; 10; 13; 10] |}.

Lemma search_sessions_hold_exactly_witness :
  exists r s port, search_ops (H:=()) quiet_kernel (H0:=ex_host) [SoPacket ex_search; SoPacket ex_search] ex_searcher ex_search_state =
    (Ok r, s) /\ ports_of (sh_sessions r) = [port] /\ (ds_world s).2 ≡ₚ [port].
Proof.
  pose proof (search_sessions_hold_exactly (H:=()) quiet_kernel (H0:=ex_host) [SoPacket ex_search; SoPacket ex_search]
    ex_searcher ex_search_state arena_new_wf eq_refl) as Hr.
  assert (Hb : match (search_ops (H:=()) quiet_kernel (H0:=ex_host) [SoPacket ex_search; SoPacket ex_search]
    ex_searcher ex_search_state).1 with Ok r => ports_of (sh_sessions r) | _ => [] end =
    [{| ip := V4 (Ipv4.new 192 168 0 2); port := 40000 |}]) by (vm_compute; reflexivity).
  destruct (search_ops _ _ _ _) as [[r|e|] s]; cbn [fst] in Hb; [|discriminate Hb..].
  destruct Hr as (_&_&Hp&_). exists r, s, {| ip := V4 (Ipv4.new 192 168 0 2); port := 40000 |}.
  split; [reflexivity|]. split; [exact Hb|]. rewrite Hp, Hb. reflexivity.
Defined.

Lemma ex_search_held : sessions_held (H:=()) (W:=()) [] [] ex_searcher ex_search_state.
Proof. split; [split; [apply arena_new_wf|exists []; by split|done]|constructor|cbn; lia]. Qed.

Lemma search_answered_witness :
  exists t r s, search_on_packet (H:=()) (H0:=holding quiet_kernel) (H1:=ex_host) ex_searcher ex_search ex_search_state =
    (Ok (Reflected t, r), s) /\
    exists session, lm_get (sh_sessions r) (session_of ex_search) = Some session /\ se_expiry session = 5 * 10 ^ 9.
Proof.
  pose proof (search_answered (H:=()) quiet_kernel (H0:=ex_host) [] [] ex_searcher ex_search ex_search_state ex_search_held) as Hr.
  assert (Hb : match (search_on_packet (H:=()) (H0:=holding quiet_kernel) (H1:=ex_host) ex_searcher ex_search ex_search_state).1 with
    Ok (Reflected SsdpSearch, _) => true | _ => false end = true) by (vm_compute; reflexivity).
  destruct (search_on_packet _ _ _) as [[[o r]|e|] s]; cbn [fst] in Hb; [|discriminate Hb..].
  destruct o as [t|t|t|t|t|]; [|discriminate Hb..]. destruct Hr as [_ (session&Hg&He)].
  exists t, r, s. split; [reflexivity|]. exists session. split; [exact Hg|]. rewrite He. vm_compute. reflexivity.
Defined.

(** The searcher and its state once the search was answered. *)
Definition ex_answered : SearchReflector * DState () (() * list SocketAddr) :=
  match search_on_packet (H:=()) (H0:=holding quiet_kernel) (H1:=ex_host) ex_searcher ex_search ex_search_state with
  | (Ok (_, r), s) => (r, s)
  | (_, s) => (ex_searcher, s)
  end.
Lemma ex_answered_held : sessions_held (H:=()) (W:=()) [] [] ex_answered.1 ex_answered.2.
Proof.
  pose proof (search_packet_held (H:=()) quiet_kernel (H0:=ex_host) [] [] ex_searcher ex_search ex_search_state ex_search_held) as Hr.
  unfold ex_answered. assert (Hb : match (search_on_packet (H:=()) (H0:=holding quiet_kernel) (H1:=ex_host) ex_searcher ex_search ex_search_state).1 with
    Ok _ => true | _ => false end = true) by (vm_compute; reflexivity).
  destruct (search_on_packet _ _ _) as [[[o r]|e|] s]; cbn [fst] in Hb; [|discriminate Hb..]. apply Hr.
Qed.

Lemma search_deadline_exact_witness :
  length (sh_sessions ex_answered.1) = 1%nat /\
  exists r s, search_on_deadline (H0:=holding quiet_kernel) (5 * 10 ^ 9) ex_answered.1 ex_answered.2 = (Ok r, s) /\
    lm_get (sh_sessions r) (session_of ex_search) = None.
Proof.
  split; [vm_compute; reflexivity|].
  destruct (search_deadline_exact (H:=()) quiet_kernel [] [] ex_answered.1 (5 * 10 ^ 9) ex_answered.2 ex_answered_held)
    as (r&s&E&_&Hk&_).
  exists r, s. split; [exact E|]. destruct (lm_get (sh_sessions r) (session_of ex_search)) as [session|] eqn:Eg; [|reflexivity].
  apply Hk in Eg as [Eg Hlt].
  assert (Hb : se_expiry <$> lm_get (sh_sessions ex_answered.1) (session_of ex_search) = Some (5 * 10 ^ 9)) by (vm_compute; reflexivity).
  rewrite Eg in Hb. injection Hb as Hb. rewrite Hb in Hlt. destruct (Z.lt_irrefl _ Hlt).
Defined.
