(* ===== verification/Routing.v ===== *)
(** The dispatcher at work ([src/dispatch.rs]): frames drained off a capture
    and routed to the handlers, fragments reassembled on the way, interface
    changes applied, deadlines run, and the dispatcher as a handler of the
    reactor. *)

From S2P Require Import Prelude Effect Text Addr Names Interface Kernel Multicast InterfaceTable Lifecycle.
From S2P Require Import Counters Packet Reassembly LinearMap Arena Datagram Egress Reactor DialRegistry.
From S2P Require Import Reflector Dispatcher Handlers.
From S2P Require Import Tcp.

Local Open Scope Z_scope.

(** The interface monitor: the events it reads before it would block or fails. *)
Class Monitor (W : Type) : Type := monitor_read : W -> list InterfaceEvent * W.

(** [is_own_echo] *)
Definition is_own_echo (src_mac own_mac : option MacAddr) : bool :=
  match src_mac, own_mac with
  | Some src, Some own => bool_decide (src = own) && negb (mac_is_unspecified own)
  | _, _ => false
  end.

(** Whether a registration is offered a packet. *)
Definition applies (ingress : CaptureKey) (packet : Packet) (addrs : option InterfaceAddresses) (reg : Registration) : bool :=
  bool_decide (rn_ingress reg = ingress) && filter_matches (rn_filter reg) packet addrs.

(** [PacketDispatcher::would_route] *)
Definition would_route (d : PacketDispatcher) (ingress : CaptureKey) (packet : Packet) : bool :=
  let addrs := egress_addrs (pd_table d) ingress in
  existsb (fun x => applies ingress packet addrs x.2) (iter (pd_registrations d)).

(** The outcome so far merged with a handler's. *)
Definition merge_outcome (prev : option Outcome) (outcome : Outcome) : option Outcome :=
  Some (match prev with None => outcome | Some prev => (combine prev outcome).1 end).

(** [CaptureKey::from_u64], an [as u32] cast *)
Definition capture_key_from_u64 (packed : Z) : CaptureKey := {| ck_index := packed mod 2 ^ 32 |}.

(** [PacketDispatcher::next_deadline] *)
Definition dispatcher_deadline (d : PacketDispatcher) : option Z :=
  min_instant (omap (fun x => packet_deadline x.2) (handlers (pd_registrations d)) ++
               option_list (next_grace (pd_dial d)) ++
               option_list (cr_next <$> pd_report d) ++
               [lc_next_reconcile (pd_lifecycle d); lc_next_recheck (pd_lifecycle d)] ++
               option_list (next_join_retry (pd_table d))).

Section routing.
Context {H W : Type} `{Kernel W} `{Host} `{Poller W} `{Adopt H} `{Tcp W} `{ProxyHandler H} `{Monitor W}.
Abbreviation act A := (M (DState H W) Infallible A).

(** A call of a handler taken out of its registration and put back after it;
    [None] when there is none to take. *)
Definition with_registered {A} (key : Key) (f : PacketHandler -> act (A * PacketHandler)) : act (option A) :=
  regs ← gets regs_of;
  match take_handler regs key with
  | (None, _) => mret None
  | (Some handler, regs) =>
      _ ← on_dispatcher (fun d => set_regs d regs);
      '(a, handler) ← f handler;
      _ ← on_dispatcher (fun d => set_regs d (restore_handler (pd_registrations d) key handler));
      mret (Some a)
  end.

(** The loop of [PacketDispatcher::route] over the snapshot of keys; it
    [expect]s a registration that just matched to have its handler. *)
Fixpoint route_keys (keys : list Key) (ingress : CaptureKey) (packet : Packet) (addrs : option InterfaceAddresses)
    (final_outcome : option Outcome) : act (option Outcome) :=
  match keys with
  | [] => mret final_outcome
  | key :: keys =>
      regs ← gets regs_of;
      if negb (is_some_and (get regs key) (applies ingress packet addrs))
      then route_keys keys ingress packet addrs final_outcome
      else
        called ← with_registered key (fun handler => handler_on_packet handler packet);
        match called with
        | None => lift Panic
        | Some outcome => route_keys keys ingress packet addrs (merge_outcome final_outcome outcome)
        end
  end.

(** A change of the dispatcher's table that may index out of it. *)
Definition on_table (f : InterfaceTable -> res Infallible InterfaceTable) : act () :=
  t ← gets table_of;
  t ← lift (f t);
  on_dispatcher (fun d => set_table d t).

(** [PacketDispatcher::route] *)
Definition route (ingress : CaptureKey) (packet : Packet) : act () :=
  table ← gets table_of;
  if is_own_echo (pk_src_mac packet) (egress_addrs table ingress ≫= ia_mac)
  then on_table (fun t => table_record_echo t ingress)
  else
    regs ← gets regs_of;
    _ ← on_dispatcher (fun d => set_egress d (begin_packet (pd_egress d)));
    final_outcome ← route_keys (iter regs).*1 ingress packet (egress_addrs table ingress) None;
    _ ← on_dispatcher (fun d => set_egress d (end_packet (pd_egress d)));
    match final_outcome with
    | Some outcome => on_table (fun t => table_record t ingress outcome)
    | None => mret ()
    end.

(** What [PacketDispatcher::reassemble_and_route] does with an offer's answer. *)
Definition route_offered (ingress : CaptureKey) (done : option Reassembled) (r : Reassembler) : act () :=
  let '(lost, r) := drain_lost r in
  _ ← on_dispatcher (fun d => set_reassembly d r);
  _ ← for_each (fun l => on_table (fun t => table_record_unreassembled t (lost_ingress l))) lost;
  match done with
  | None => mret ()
  | Some done =>
      parsed ← attempt (lift (Reassembly.packet done));
      _ ← (match parsed with
           | inr packet => route ingress packet
           | inl _ => on_table (fun t => table_record_unreassembled t ingress)
           end);
      on_dispatcher (fun d => set_reassembly d (recycle (pd_reassembly d) done))
  end.

(** [PacketDispatcher::reassemble_and_route] *)
Definition reassemble_and_route (ingress : CaptureKey) (fragment : Fragment) : act () :=
  d ← gets ds_dispatcher;
  let wanted := is_none_or (headers fragment) (would_route d ingress) in
  now ← instant_now;
  '(done, r) ← lift (offer (pd_reassembly d) ingress fragment wanted now);
  route_offered ingress done r.

(** ** The drain of a capture *)

(** [Capture::next_frame] and [Capture::has_buffered] *)
Definition next_frame (cap : Capture) : act (Capture * io (option Read)) :=
  update (fun s => let '(r, w) := capture_next cap (ds_world s) in (r, put_world w s)).
Definition has_buffered (cap : Capture) : bool := negb (bool_decide (cap_batch cap = [])).

(** A frame read off a bound interface. *)
Definition route_frame (ingress : CaptureKey) (link : LinkType) (frame : bytes) : act () :=
  parsed ← attempt (lift (parse link frame));
  match parsed with
  | inr (Packet.Datagram packet) => route ingress packet
  | inr (Fragmented fragment) => reassemble_and_route ingress fragment
  | inl _ => mret ()
  end.

(** The loop of [PacketDispatcher::drain_and_route]: the capture, and how many
    reads were oversized. *)
Fixpoint drain_loop (fuel : nat) (ingress : CaptureKey) (link : LinkType) (bound : bool) (cap : Capture)
    (drained : nat) (oversized : Z) : act (Capture * Z) :=
  if (MAX_FRAMES_PER_EVENT <=? drained)%nat && negb (has_buffered cap) then mret (cap, oversized)
  else
    match fuel with
    | O => lift Panic
    | S fuel =>
        '(cap, read) ← next_frame cap;
        match read with
        | inr (Some (RdFrame frame)) =>
            _ ← (if bound then route_frame ingress link frame else mret ());
            drain_loop fuel ingress link bound cap (S drained) oversized
        | inr (Some RdOversized) => drain_loop fuel ingress link bound cap (S drained) (oversized + 1)
        | inr None => mret (cap, oversized)
        | inl e =>
            if capture_lost e then
              now ← instant_now;
              _ ← on_dispatcher (fun d => set_lifecycle d (reconcile_now (pd_lifecycle d) now));
              mret (cap, oversized)
            else mret (cap, oversized)
        end
    end.

(** [PacketDispatcher::drain_and_route]; the capture is out of the table for it. *)
Definition drain_and_route (ingress : CaptureKey) : act () :=
  t ← gets table_of;
  match take_capture t ingress with
  | (None, _) => mret ()
  | (Some cap, t) =>
      _ ← on_dispatcher (fun d => set_table d t);
      let bound := bool_decide (is_Some (ifindex_of t ingress)) in
      '(cap, oversized) ← drain_loop (MAX_FRAMES_PER_EVENT + Nat.max batch_limit (length (cap_batch cap))) ingress (cap_link cap) bound cap 0 0;
      _ ← (if 0 <? oversized then on_table (fun t => table_record_oversized t ingress oversized) else mret ());
      on_dispatcher (fun d => set_table d (restore_capture (pd_table d) ingress cap).2)
  end.

(** ** Interface changes *)

(** The DIAL proxies evicted for the captures that changed. *)
Definition evict_dial (changed : list CaptureKey) : act () :=
  ctx ← gets (fun s => pd_dial (ds_dispatcher s));
  ctx ← on_reactor (evict_on_interface_change ctx changed);
  on_dispatcher (fun d => set_dial d ctx).

(** [PacketDispatcher::notify_iface_change] *)
Definition notify_iface_change (captures : list CaptureKey) : act () :=
  match captures with
  | [] => mret ()
  | _ =>
      regs ← gets regs_of;
      for_each (fun key =>
        _ ← with_registered key (fun handler => handler ← handler_on_iface_change captures handler; mret ((), handler));
        mret ()) (iter regs).*1
  end.

(** [PacketDispatcher::after_repair] *)
Definition add_changed (changed captures : list CaptureKey) : list CaptureKey :=
  foldl (fun changed capture => if bool_decide (capture ∈ changed) then changed else changed ++ [capture]) changed captures.
Definition after_repair (touched : list CaptureKey) (rebuilt : list Rebuilt) : act () :=
  _ ← for_each (fun r => evict_dial (rb_captures r)) rebuilt;
  notify_iface_change (foldl (fun changed r => add_changed changed (rb_captures r)) touched rebuilt).

(** The lifecycle's reconcile, on the dispatcher's table. *)
Definition reconcile_at (now : Z) : act (list Rebuilt) := fun s =>
  match reconcile (pd_lifecycle (ds_dispatcher s)) (table_of s) now (ds_world s) with
  | Ok (rebuilt, l, t, w) => (Ok rebuilt, put_world w (put_dispatcher (set_lifecycle (set_table (ds_dispatcher s) t) l) s))
  | _ => (Panic, s)
  end.
Definition run_reconcile : act (list Rebuilt) := now ← instant_now; reconcile_at now.

(** [PacketDispatcher::apply_interface_changes] and [reconcile_interfaces] *)
Definition apply_interface_changes (changes : Changes) : act () :=
  rebuilt ← (if cg_reconcile changes then run_reconcile else mret []);
  _ ← evict_dial (cg_v4_moved changes);
  after_repair (cg_touched changes) rebuilt.
Definition reconcile_interfaces : act () :=
  rebuilt ← run_reconcile;
  after_repair [] rebuilt.

(** [PacketDispatcher::refresh_changed_interfaces] *)
Definition run_drain (now : Z) : act Changes := fun s =>
  let d := ds_dispatcher s in
  let '(events, w) := if lc_monitor (pd_lifecycle d) then monitor_read (ds_world s) else ([], ds_world s) in
  match drain (pd_lifecycle d) (pd_table d) events now w with
  | Ok (changes, l, t, w) => (Ok changes, put_world w (put_dispatcher (set_lifecycle (set_table d t) l) s))
  | _ => (Panic, s)
  end.
Definition refresh_changed_interfaces : act () :=
  now ← instant_now;
  changes ← run_drain now;
  apply_interface_changes changes.

(** ** [impl Handler for PacketDispatcher] *)

Definition dispatcher_on_readable (event : ReadyEvent) : act () :=
  if ev_user_data event =? MONITOR_TAG then refresh_changed_interfaces
  else drain_and_route (capture_key_from_u64 (ev_user_data event)).

(** The handlers whose deadline came, each called once. *)
Definition run_due (now : Z) : act () :=
  regs ← gets regs_of;
  let due := omap (fun x => match packet_deadline x.2 with
                            | Some d => if d <=? now then Some x.1 else None
                            | None => None
                            end) (handlers regs) in
  for_each (fun key =>
    _ ← with_registered key (fun handler => handler ← handler_on_deadline now handler; mret ((), handler));
    mret ()) due.

Definition run_sweep (now : Z) : act () :=
  ctx ← gets (fun s => pd_dial (ds_dispatcher s));
  ctx ← on_reactor (dial_sweep ctx now);
  on_dispatcher (fun d => set_dial d ctx).

Definition report_due (now : Z) (d : PacketDispatcher) : PacketDispatcher :=
  match pd_report d with
  | Some report =>
      if cr_next report <=? now
      then set_report d (Some {| cr_interval := cr_interval report; cr_next := now + cr_interval report |}) else d
  | None => d
  end.

Definition run_recheck (now : Z) : act Changes := update (fun s =>
  let d := ds_dispatcher s in
  let '(changes, l, t, w) := recheck (pd_lifecycle d) (pd_table d) now (ds_world s) in
  (changes, put_world w (put_dispatcher (set_lifecycle (set_table d t) l) s))).

(** The join retries that came due: whether an interface was found gone. *)
Definition retry_joins (now : Z) : act bool :=
  t ← gets table_of;
  if is_some_and (next_join_retry t) (fun due => due <=? now) then
    update (fun s =>
      let '(r, t, w) := converge_all (table_of s) now (ds_world s) in
      (match r with inl _ => true | inr _ => false end, put_world w (put_dispatcher (set_table (ds_dispatcher s) t) s)))
  else mret false.

Definition dispatcher_on_deadline (now : Z) : act () :=
  _ ← run_due now;
  _ ← run_sweep now;
  _ ← on_dispatcher (report_due now);
  d ← gets ds_dispatcher;
  _ ← (if lc_next_recheck (pd_lifecycle d) <=? now
       then changes ← run_recheck now; apply_interface_changes changes
       else mret ());
  gone ← retry_joins now;
  d ← gets ds_dispatcher;
  if gone || (lc_next_reconcile (pd_lifecycle d) <=? now) then reconcile_interfaces else mret ().

(** A call of the dispatcher, as the reactor makes it: with the dispatcher out
    of its slot. *)
Definition as_handler (m : act ()) (d : PacketDispatcher) : M (RState H W) Infallible PacketDispatcher := fun s =>
  let '(r, s) := m {| ds_dispatcher := d; ds_reactor := rs_reactor s; ds_world := rs_world s |} in
  (match r with Ok _ => Ok (ds_dispatcher s) | Err e => Err e | Panic => Panic end, get_rstate s).


End routing.
