(* ===== verification/RoutingSpec.v ===== *)
(** The data path never panics: frames drained off a capture, parsed,
    reassembled and routed leave the dispatcher in order, whatever they hold; and
    so does every other call of the reactor. *)

From S2P Require Import Prelude Effect Text Addr Names Interface Kernel Multicast InterfaceTable Lifecycle Counters.
From S2P Require Import Packet PacketWf Reassembly ReassemblyTyped LinearMap Arena Datagram Egress.
From S2P Require Import EgressSpec Reactor ReactorSpec DialRegistry DialRegistrySpec Reflector Dispatcher Handlers.
From S2P Require Import DispatchInv HandlersSpec Routing TableTyped Tcp.

Local Open Scope Z_scope.

Section routing.
Context {H W : Type} `{Kernel W} `{Host} `{Poller W} `{Adopt H} `{Tcp W} `{ProxyHandler H} (Hknl : kernel_typed _) (Htcp : tcp_typed W).
Implicit Types s : DState H W.
Abbreviation druns n absent m s Q := (runs (dispatch_ok n absent) full m s Q).

(** ** The parts of the dispatcher *)

Lemma set_table_ok n absent s t :
  dispatch_ok n absent s -> table_typed n t -> dispatch_ok n absent (put_dispatcher (set_table (ds_dispatcher s) t) s).
Proof. intros [? ? ? ? [Ha Hb Hd] ? ? ?] [? ? ?]. by split; [split| | | |split| | |]. Qed.

Lemma row_of n absent s c : dispatch_ok n absent s -> (capture_index c < n)%nat ->
  exists e, it_captures (table_of s) !! capture_index c = Some e /\ counters_ok (ce_counters e).
Proof.
  intros Hs Hc. rewrite <- (tt_count _ _ (di_table _ _ _ Hs)) in Hc. destruct (lookup_lt_is_Some_2 _ _ Hc) as [e He]. exists e. split; [done|].
  apply (Forall_lookup_1 _ _ _ _ (tk_captures _ (tt_ok _ _ (di_table _ _ _ Hs))) He).
Qed.

(** A row replaced by one of the same interface. *)
Lemma put_row n absent s c e e' :
  dispatch_ok n absent s -> it_captures (table_of s) !! capture_index c = Some e -> ce_interface e' = ce_interface e ->
  counters_ok (ce_counters e') ->
  table_typed n (with_captures (table_of s) (<[capture_index c := e']> (it_captures (table_of s)))).
Proof.
  intros Hs He Hi Hok. pose proof (di_table _ _ _ Hs) as Ht. eapply rows_typed; [exact Ht|done|cbn; rewrite length_insert; apply Ht|].
  cbn. apply Forall_insert; [apply Ht|]. split; [|done]. rewrite Hi.
  apply (Forall_lookup_1 _ _ _ _ (tk_captures _ (tt_ok _ _ Ht)) He).
Qed.

Lemma set_regs_ok n absent absent' s a :
  dispatch_ok n absent s -> out_buffers absent' = out_buffers absent -> arena_wf a ->
  (forall k r, 0 <= index k -> get a k = Some r -> reg_ok n r) ->
  (forall k r, 0 <= index k -> get a k = Some r -> Some k <> out_handler absent' -> is_Some (rn_handler r)) ->
  dispatch_ok n absent' (put_dispatcher (set_regs (ds_dispatcher s) a) s).
Proof. intros [? ? ? ? [] ? ? ?] Hb ? ? ?. split; [done..|by split|done|done|by rewrite Hb]. Qed.

Lemma set_egress_ok n absent s e :
  dispatch_ok n absent s -> eg_scratch e = eg_scratch (pd_egress (ds_dispatcher s)) ->
  eg_next_id e = eg_next_id (pd_egress (ds_dispatcher s)) ->
  dispatch_ok n absent (put_dispatcher (set_egress (ds_dispatcher s) e) s).
Proof.
  intros [? ? ? ? [Ha Hb Hd] ? ? ?] Hs Hn. split; try done. split; cbn in *; by rewrite ?Hs, ?Hn.
Qed.

Lemma set_reassembly_ok n absent absent' s r :
  dispatch_ok n absent s -> reassembly_typed n (out_buffers absent') r -> out_handler absent' = out_handler absent ->
  dispatch_ok n absent' (put_dispatcher (set_reassembly (ds_dispatcher s) r) s).
Proof. intros [? ? ? ? [] ? ? ?] ? Ho. by split; [..|rewrite Ho|split| | |]. Qed.

Lemma set_lifecycle_ok n absent s l :
  dispatch_ok n absent s -> dispatch_ok n absent (put_dispatcher (set_lifecycle (ds_dispatcher s) l) s).
Proof. intros [? ? ? ? [] ? ? ?]. by split; [..|split| | |]. Qed.

(** ** Counters *)

Lemma run_on_table n absent s (f : InterfaceTable -> res Infallible InterfaceTable) :
  dispatch_ok n absent s -> (exists t, f (table_of s) = Ok t /\ table_typed n t) ->
  druns n absent (on_table f) s (fun _ _ => True).
Proof.
  intros Hs (t&Ht&Hok). unfold runs, on_table, gets, lift, on_dispatcher, modify, mbind, M_bind. rewrite Ht.
  split; [by apply set_table_ok|done].
Qed.

Lemma run_record n absent s c o : dispatch_ok n absent s -> (capture_index c < n)%nat ->
  druns n absent (on_table (fun t => table_record t c o)) s (fun _ _ => True).
Proof.
  intros Hs Hc. destruct (row_of n absent s c Hs Hc) as (e&He&Hok). destruct (record_ok (E:=Infallible) _ o Hok) as (c'&Hr&Hok').
  apply run_on_table; [done|]. unfold table_record, idx. rewrite He. cbn [expect]. rewrite bind_ret, Hr, bind_ret.
  eexists. split; [done|]. by eapply put_row.
Qed.

Lemma run_count_row n absent s c f : dispatch_ok n absent s -> (capture_index c < n)%nat ->
  (forall c, counters_ok c -> counters_ok (f c)) ->
  druns n absent (on_table (fun t => count_row t c f)) s (fun _ _ => True).
Proof.
  intros Hs Hc Hf. destruct (row_of n absent s c Hs Hc) as (e&He&Hok).
  apply run_on_table; [done|]. unfold count_row, idx. rewrite He. cbn [expect]. rewrite bind_ret.
  eexists. split; [done|]. eapply put_row; [done..|]. by apply Hf.
Qed.

(** ** Calls of a handler *)

(** Between calls, with [b] buffers being routed, and in the call of a handler. *)
Definition idle (b : nat) : Out := {| out_handler := None; out_buffers := b |}.
Definition calling (key : Key) (b : nat) : Out := {| out_handler := Some key; out_buffers := b |}.

(** A call leaves every handler in its place, the one it was made on included. *)
Lemma run_with_registered {A} n b s key (f : PacketHandler -> M (DState H W) Infallible (A * PacketHandler)) :
  dispatch_ok n (idle b) s -> 0 <= index key ->
  (forall s h, dispatch_ok n (calling key b) s -> handler_ok n h -> druns n (calling key b) (f h) s (fun x _ => handler_ok n x.2)) ->
  druns n (idle b) (with_registered key f) s (fun a _ => is_Some (get (regs_of s) key) -> is_Some a).
Proof.
  intros Hs Hk Hf. unfold with_registered. eapply runs_bind with (P := fun r s' => r = regs_of s' /\ s' = s); [by apply runs_gets|].
  intros regs s' _ [-> ->]. destruct (take_handler (regs_of s) key) as [[h|] a'] eqn:Et.
  - apply take_handler_Some in Et as (reg&Hreg&Hh&->).
    pose proof (di_reg _ _ _ Hs _ _ Hk Hreg) as [Hin Hhok].
    set (s1 := put_dispatcher (set_regs (ds_dispatcher s) (get_mut (regs_of s) key (set_slot None))) s).
    assert (Hs1 : dispatch_ok n (calling key b) s1).
    { eapply set_regs_ok; [exact Hs|done|apply get_mut_wf, Hs| |].
      - intros k r Hk'. rewrite get_get_mut by done. case_decide; [|by apply (di_reg _ _ _ Hs)].
        rewrite Hreg. cbn. intros [= <-]. by split.
      - intros k r Hk'. rewrite get_get_mut by done. case_decide; [subst; done|]. intros Hg _. by eapply (di_present _ _ _ Hs). }
    eapply runs_scope with (J := dispatch_ok n (calling key b)) (P := fun _ _ => True); [by apply runs_modify|].
    intros [] s' Hs' _. eapply runs_scope; [by apply Hf; [|apply Hhok]|]. intros [a h'] s2 Hs2 Hh'. cbn in Hh'.
    eapply runs_bind with (P := fun _ _ => True); [apply runs_modify; [|done]|by intros; apply runs_ret].
    eapply set_regs_ok; [exact Hs2|done|apply get_mut_wf, Hs2| |]; unfold restore_handler.
    + intros k r Hk'. rewrite get_get_mut by done. case_decide; [|by apply (di_reg _ _ _ Hs2)].
      intros (r0&Hr0&->)%fmap_Some. destruct (di_reg _ _ _ Hs2 _ _ Hk Hr0). split; [done|]. by intros ? [= <-].
    + intros k r Hk'. rewrite get_get_mut by done. case_decide.
      * intros (r0&Hr0&->)%fmap_Some _. by eexists.
      * intros Hg _. eapply (di_present _ _ _ Hs2); [done..|]. intros [= ->]. done.
  - apply runs_ret; [done|]. intros [reg Hreg]. unfold take_handler in Et. rewrite Hreg in Et.
    destruct (di_present _ _ _ Hs _ _ Hk Hreg) as [h Hh]; [done|]. cbn in Et. by rewrite Hh in Et.
Qed.

Lemma iter_index n absent s : dispatch_ok n absent s -> Forall (fun k => 0 <= index k) (iter (regs_of s)).*1.
Proof.
  intros _. apply Forall_forall. intros k Hk. apply list_elem_of_fmap in Hk as ([k' r]&->&Hin). by apply elem_of_iter in Hin as [? _].
Qed.

Lemma run_route_keys n b s keys ingress packet addrs outcome :
  dispatch_ok n (idle b) s -> Forall (fun k => 0 <= index k) keys -> packet_ok packet ->
  druns n (idle b) (route_keys keys ingress packet addrs outcome) s (fun _ _ => True).
Proof.
  intros Hs Hk Hp. revert s outcome Hs Hk. induction keys as [|key keys IH]; intros s outcome Hs Hk; cbn [route_keys]; [by apply runs_ret|].
  apply Forall_cons in Hk as [Hkey Hk]. eapply runs_bind with (P := fun r s' => r = regs_of s'); [by apply runs_gets|].
  intros regs s1 Hs1 ->. destruct (get (regs_of s1) key) as [reg|] eqn:Eg; cbn [is_some_and]; [|by apply IH].
  destruct (negb _); [by apply IH|]. eapply runs_bind; [apply run_with_registered; [done..|]|].
  { intros s' h Hs' Hh. by apply run_on_packet. }
  intros [o|] s2 Hs2 Hc; [by apply IH|]. rewrite Eg in Hc. by destruct Hc.
Qed.

(** ** Routing *)

Lemma run_route n b s ingress packet : dispatch_ok n (idle b) s -> (capture_index ingress < n)%nat -> packet_ok packet ->
  druns n (idle b) (route ingress packet) s (fun _ _ => True).
Proof.
  intros Hs Hi Hp. unfold route. eapply runs_bind with (P := fun _ _ => True); [by apply runs_gets|]. intros table s1 Hs1 _.
  destruct (is_own_echo _ _); [by apply run_count_row|].
  eapply runs_bind with (P := fun r s' => r = regs_of s'); [by apply runs_gets|]. intros regs s2 Hs2 ->.
  eapply runs_bind with (P := fun _ _ => True); [by apply runs_modify; [apply set_egress_ok|]|]. intros [] s3 Hs3 _.
  eapply runs_bind; [apply run_route_keys; [done|by eapply iter_index|done]|]. intros outcome s4 Hs4 _.
  eapply runs_bind with (P := fun _ _ => True); [by apply runs_modify; [apply set_egress_ok|]|]. intros [] s5 Hs5 _.
  destruct outcome; [by apply run_record|by apply runs_ret].
Qed.

Lemma run_clock_same {E} n absent s : dispatch_ok n absent s ->
  druns n absent (instant_now (E:=E)) s (fun _ s' => ds_dispatcher s' = ds_dispatcher s).
Proof.
  intros Hs. unfold runs, instant_now, update. destruct (clock _) as [now w]. split; [by apply dispatch_ok_world|done].
Qed.

Lemma drained_ok n loaned r : reassembler_ok loaned r -> contents_ok n r -> reassembly_typed n loaned (drain_lost r).2.
Proof. intros [? ? ? ? ? ?] [? ? ?]. by split; [split|split|]. Qed.

Lemma run_losses n absent s (lost : list Lost) :
  dispatch_ok n absent s -> Forall (fun l => (capture_index (lost_ingress l) < n)%nat) lost ->
  druns n absent (for_each (fun l => on_table (fun t => table_record_unreassembled t (lost_ingress l))) lost) s (fun _ _ => True).
Proof.
  intros Hs Hl. rewrite Forall_forall in Hl. apply runs_for_each; [done| |done]. intros l s' Hin Hs'.
  apply run_count_row; [done|by apply Hl|done].
Qed.

(** What an offer left, with the buffer of a completed datagram on loan. *)
Lemma run_offered n s ingress (done : option Reassembled) r :
  dispatch_ok n nothing_out s -> (capture_index ingress < n)%nat -> contents_ok n r ->
  match done with
  | Some d => reassembler_ok 1 r /\ buffer_ok (ra_buf d) /\ (ra_len d <= MAX_DATAGRAM_LEN)%nat
  | None => reassembler_ok 0 r
  end ->
  (forall d, done = Some d -> octet_buffer (ra_buf d) /\ header_ok (ra_first d)) ->
  druns n nothing_out (route_offered ingress done r) s (fun _ _ => True).
Proof.
  intros Hs Hi Hc Hr Hd. unfold route_offered. cbn [drain_lost]. destruct done as [d|].
  - destruct Hr as (Hr&Hbuf&Hlen). destruct (Hd d eq_refl) as [Hoct Hhdr].
    eapply runs_scope with (J := dispatch_ok n (idle 1)) (P := fun _ _ => True).
    { apply runs_modify; [|done]. eapply set_reassembly_ok; [done|by apply (drained_ok n 1 r)|done]. }
    intros [] s1 Hs1 _. eapply runs_scope; [apply run_losses; [done|apply Hc]|]. intros [] s2 Hs2 _.
    eapply runs_scope with (J := dispatch_ok n (idle 1)) (P := fun x _ => match x with inr p => packet_ok p | inl _ => True end).
    { apply runs_attempt; [|done]. unfold Reassembly.packet. pose proof (proj1 Hbuf) as Hbl. rewrite range_ok by lia. rewrite bind_ret.
      assert (Hb : bytes_ok (take (ra_len d - 0) (drop 0 (buf_bytes (ra_buf d))))) by (by apply Forall_take).
      apply runs_lift; [done|by apply reassembled_safe|]. intros p Hp. by eapply reassembled_packet_ok. }
    intros x s3 Hs3 Hx. eapply runs_scope with (J := dispatch_ok n (idle 1)) (P := fun _ _ => True).
    { destruct x; [by apply run_count_row|by apply run_route]. }
    intros [] s4 Hs4 _. apply runs_modify; [|done]. eapply set_reassembly_ok; [done| |done].
    destruct (di_reassembly _ _ _ Hs4) as [Hok [? ? ?] Hl]. split; [by apply recycle_ok|split; [done|by constructor|done]|done].
  - eapply runs_bind with (P := fun _ _ => True).
    { apply runs_modify; [|done]. eapply set_reassembly_ok; [done|by apply (drained_ok n 0 r)|done]. }
    intros [] s1 Hs1 _. eapply runs_bind; [apply run_losses; [done|apply Hc]|]. intros [] s2 Hs2 _. by apply runs_ret.
Qed.

Lemma run_reassemble n s ingress fragment : dispatch_ok n nothing_out s -> (capture_index ingress < n)%nat -> fragment_ok fragment ->
  druns n nothing_out (reassemble_and_route ingress fragment) s (fun _ _ => True).
Proof.
  intros Hs Hi Hf. unfold reassemble_and_route.
  eapply runs_bind with (P := fun d s' => d = ds_dispatcher s'); [by apply runs_gets|]. intros d s1 Hs1 ->.
  set (wanted := is_none_or _ _). clearbody wanted. eapply runs_bind; [by apply run_clock_same|]. intros now s2 Hs2 <-.
  destruct (di_reassembly _ _ _ Hs2) as [Hok Hc Hl].
  destruct (offer_ok (E:=Infallible) _ ingress fragment wanted now Hok) as (done&r&E&_&Hr).
  pose proof (offer_contents n _ _ _ _ _ _ _ E Hc Hi Hf) as [Hc' Hd].
  eapply runs_bind with (P := fun x _ => x = (done, r)); [apply runs_lift; [done|by rewrite E|intros x; rewrite E; by intros [= <-]]|].
  intros x s3 Hs3 ->. by apply run_offered.
Qed.

(** ** Draining a capture *)

Lemma run_route_frame n s ingress link frame : dispatch_ok n nothing_out s -> (capture_index ingress < n)%nat -> bytes_ok frame ->
  druns n nothing_out (route_frame ingress link frame) s (fun _ _ => True).
Proof.
  intros Hs Hi Hb. unfold route_frame.
  eapply runs_bind with (P := fun x _ => match x with inr p => parsed_ok p | inl _ => True end).
  { apply runs_attempt; [|done]. apply runs_lift; [done|apply parse_safe|]. intros p. by apply parse_ok. }
  intros [e|[packet|fragment]] s1 Hs1 Hp; [by apply runs_ret|by apply run_route|by apply run_reassemble].
Qed.

Local Opaque MAX_FRAMES_PER_EVENT.

Definition batch_step (c c' : Capture) : Prop :=
  match cap_batch c with [] => (length (cap_batch c') <= batch_limit)%nat | batch => (length (cap_batch c') < length batch)%nat end.

Lemma run_next_frame n absent s cap : dispatch_ok n absent s ->
  druns n absent (next_frame cap) s (fun r _ => batch_step cap r.1 /\ forall frame, r.2 = inr (Some (RdFrame frame)) -> bytes_ok frame).
Proof.
  intros Hs. unfold runs, next_frame, update. pose proof (kt_frame _ Hknl cap (ds_world s)) as Hf.
  pose proof (kt_batch _ Hknl cap (ds_world s)) as Hb.
  destruct (capture_next _ _) as [[c r] w]. by split_and!; [apply dispatch_ok_world|..].
Qed.

(** The fuel lasts: the frames still allowed and a batch of at most [limit]
    after them, or what is left of that batch. *)
Record fuel_ok (limit fuel drained : nat) (cap : Capture) : Prop := {
  fu_buffer : (batch_limit <= limit)%nat;
  fu_batch : (length (cap_batch cap) <= limit)%nat;
  fu_left : if decide (drained < MAX_FRAMES_PER_EVENT)%nat then (MAX_FRAMES_PER_EVENT + limit <= drained + fuel)%nat
            else (length (cap_batch cap) <= fuel)%nat;
}.
(** Whether the loop goes on. *)
Definition going_on (drained : nat) (cap : Capture) : bool :=
  negb ((MAX_FRAMES_PER_EVENT <=? drained)%nat && negb (has_buffered cap)).

Lemma fuel_ok_spent limit drained cap : fuel_ok limit 0 drained cap -> going_on drained cap = false.
Proof.
  intros [_ _ Hf]. unfold going_on, has_buffered. apply negb_false_iff. case_decide; [lia|].
  destruct (cap_batch cap); [|cbn in Hf; lia]. cbn. rewrite andb_true_r. apply Nat.leb_le. lia.
Qed.
Lemma fuel_ok_next limit fuel drained cap cap' : fuel_ok limit (S fuel) drained cap -> batch_step cap cap' ->
  going_on drained cap = true -> fuel_ok limit fuel (S drained) cap'.
Proof.
  unfold batch_step, going_on, has_buffered. intros [Hl Hb Hf] Hs Hg.
  destruct (cap_batch cap) as [|b batch]; cbn [length bool_decide negb andb] in *.
  - rewrite bool_decide_eq_true_2, andb_true_r in Hg by done. apply negb_true_iff, Nat.leb_gt in Hg.
    rewrite decide_True in Hf by done. split; [done|lia|]. case_decide; lia.
  - split; [done|lia|]. repeat case_decide; lia.
Qed.

Lemma fuel_ok_start cap limit : limit = Nat.max batch_limit (length (cap_batch cap)) ->
  fuel_ok limit (MAX_FRAMES_PER_EVENT + limit) 0 cap.
Proof. intros ->. split; [lia|lia|]. rewrite decide_True; [lia|]. apply (bool_decide_eq_true_1 _). vm_compute. reflexivity. Qed.

Lemma run_drain_loop n s limit fuel ingress link bound cap drained oversized :
  dispatch_ok n nothing_out s -> (capture_index ingress < n)%nat -> fuel_ok limit fuel drained cap ->
  druns n nothing_out (drain_loop fuel ingress link bound cap drained oversized) s (fun _ _ => True).
Proof.
  intros Hs Hi. revert s cap drained oversized Hs. induction fuel as [|fuel IH]; intros s cap drained oversized Hs Hf; cbn [drain_loop];
    (destruct (going_on drained cap) eqn:Eg; pose proof Eg as Em; [apply negb_true_iff in Em|apply negb_false_iff in Em];
     rewrite Em; [|by apply runs_ret]).
  - by rewrite (fuel_ok_spent _ _ _ Hf) in Eg.
  - eapply runs_bind; [by apply run_next_frame|]. intros [cap' read] s1 Hs1 [Hb Hr]. cbn [fst snd] in *.
    pose proof (fuel_ok_next _ _ _ _ _ Hf Hb Eg) as Hf'. destruct read as [e|[[frame|]|]].
    + destruct (capture_lost e); [|by apply runs_ret]. eapply runs_bind; [by apply run_clock|]. intros now s3 Hs3 _.
      eapply runs_bind with (P := fun _ _ => True); [apply runs_modify; [by apply set_lifecycle_ok|done]|]. intros [] s4 Hs4 _. by apply runs_ret.
    + eapply runs_bind with (P := fun _ _ => True); [destruct bound; [by apply run_route_frame, Hr|by apply runs_ret]|].
      intros [] s3 Hs3 _. by apply IH.
    + by apply IH.
    + by apply runs_ret.
Qed.

Lemma replace_capture n absent s c e v :
  dispatch_ok n absent s -> it_captures (table_of s) !! capture_index c = Some e ->
  dispatch_ok n absent (put_dispatcher (set_table (ds_dispatcher s)
    (with_captures (table_of s) (<[capture_index c := with_capture e v]> (it_captures (table_of s))))) s).
Proof.
  intros Hs He. apply set_table_ok; [done|]. eapply put_row; [done..|].
  apply (Forall_lookup_1 _ _ _ _ (tk_captures _ (tt_ok _ _ (di_table _ _ _ Hs))) He).
Qed.

Lemma run_drain_and_route n s ingress : dispatch_ok n nothing_out s ->
  druns n nothing_out (drain_and_route ingress) s (fun _ _ => True).
Proof.
  intros Hs. unfold drain_and_route. eapply runs_bind with (P := fun t s' => t = table_of s'); [by apply runs_gets|].
  intros t s1 Hs1 ->. unfold take_capture. destruct (it_captures (table_of s1) !! capture_index ingress) as [e|] eqn:He; [|by apply runs_ret].
  assert (Hi : (capture_index ingress < n)%nat) by (rewrite <- (tt_count _ _ (di_table _ _ _ Hs1)); by eapply lookup_lt_Some).
  destruct (ce_capture e) as [cap|]; [|by apply runs_ret].
  eapply runs_bind with (P := fun _ _ => True); [apply runs_modify; [by apply replace_capture|done]|]. intros [] s2 Hs2 _. cbv zeta.
  eapply runs_bind; [apply (run_drain_loop _ _ (Nat.max batch_limit (length (cap_batch cap)))); [done|done|by apply fuel_ok_start]|].
  intros [cap' oversized] s3 Hs3 _.
  eapply runs_bind with (P := fun _ _ => True); [destruct (0 <? oversized); [by apply run_count_row|by apply runs_ret]|].
  intros [] s4 Hs4 _. destruct (row_of n _ s4 ingress Hs4 Hi) as (e'&He'&_). apply runs_modify; [|done].
  unfold restore_capture, table_of in *. rewrite He'. by apply replace_capture.
Qed.
End routing.

(** The dispatcher as a handler of the reactor: whatever becomes readable and
    whenever its deadlines come, each call ends with the dispatcher in order. *)

Section dispatch.
Context {H W : Type} `{Kernel W} `{Host} `{Poller W} `{Adopt H} `{Tcp W} `{ProxyHandler H} `{Monitor W}.
Context (Hknl : kernel_typed _) (Htcp : tcp_typed W).
Implicit Types s : DState H W.
Abbreviation druns n m s Q := (runs (dispatch_ok n nothing_out) full m s Q).
Abbreviation ok n s := (dispatch_ok n nothing_out s).

(** ** DIAL proxies *)

Lemma run_evictions n s (f : DialContext -> M (RState H W) Infallible DialContext) :
  ok n s -> (forall ctx x, dial_ok ctx -> reactor_ok (rs_reactor x) ->
    exists ctx' x', f ctx x = (Ok ctx', x') /\ reactor_ok (rs_reactor x') /\ sublist ctx' ctx) ->
  druns n (ctx ← gets (fun s => pd_dial (ds_dispatcher s)); ctx ← on_reactor (f ctx); on_dispatcher (fun d => set_dial d ctx)) s
    (fun _ _ => True).
Proof.
  intros Hs Hf. eapply runs_bind with (P := fun ctx _ => dial_ok ctx); [apply runs_gets; [done|apply Hs]|]. intros ctx s1 Hs1 Hctx.
  eapply runs_bind with (P := fun ctx _ => dial_ok ctx).
  - destruct (Hf ctx (get_rstate s1) Hctx (di_reactor _ _ _ Hs1)) as (ctx'&x'&E&Hx&Hsub).
    unfold runs, on_reactor, zoom. rewrite E. split; [by apply put_rstate_ok|by eapply dial_ok_sublist].
  - intros ctx' s2 Hs2 Hctx'. apply runs_modify; [by apply set_dial_ok|done].
Qed.

Lemma run_evict_dial n s changed : ok n s -> druns n (evict_dial changed) s (fun _ _ => True).
Proof.
  intros Hs. apply run_evictions; [done|]. intros ctx x (_&_&Hidx) Hx. unfold evict_on_interface_change.
  edestruct (evict_where_spec (fun key _ => bool_decide (dk_source key ∈ changed) || bool_decide (dk_target key ∈ changed)) ctx x)
    as (ctx'&x'&E&?&?&_); [done|intros p Hp; by apply (Hidx p Hp)|]. eauto 6.
Qed.

Lemma run_dial_sweep n s now : ok n s -> druns n (run_sweep now) s (fun _ _ => True).
Proof.
  intros Hs. apply run_evictions; [done|]. intros ctx x (_&_&Hidx) Hx. unfold dial_sweep.
  edestruct (evict_where_spec (fun _ p => de_desc_grace p <=? now) ctx x)
    as (ctx'&x'&E&?&?&_); [done|intros p Hp; by apply (Hidx p Hp)|]. eauto 6.
Qed.

(** ** Calls of every handler *)

Lemma run_calls n s keys (f : Key -> PacketHandler -> M (DState H W) Infallible (() * PacketHandler)) :
  ok n s -> Forall (fun k => 0 <= index k) keys ->
  (forall absent k s h, dispatch_ok n absent s -> handler_ok n h ->
    runs (dispatch_ok n absent) full (f k h) s (fun x _ => handler_ok n x.2)) ->
  druns n (for_each (fun key => _ ← with_registered key (f key); mret ()) keys) s (fun _ _ => True).
Proof.
  intros Hs Hk Hf. rewrite Forall_forall in Hk. apply runs_for_each; [done| |done]. intros key s1 Hin Hs1.
  eapply runs_bind; [apply run_with_registered; [done|by apply Hk|by intros; apply Hf]|]. intros a s2 Hs2 _. by apply runs_ret.
Qed.

Lemma run_notify n s captures : ok n s -> druns n (notify_iface_change captures) s (fun _ _ => True).
Proof.
  intros Hs. unfold notify_iface_change. destruct captures as [|c cs]; [by apply runs_ret|].
  eapply runs_bind with (P := fun r s' => r = regs_of s'); [by apply runs_gets|]. intros regs s1 Hs1 ->.
  apply (run_calls n s1 _ (fun _ handler => handler ← handler_on_iface_change (c :: cs) handler; mret ((), handler)));
    [done|by eapply iter_index|]. intros absent k s2 h Hs2 Hh.
  eapply runs_bind; [by apply run_on_change|]. intros h' s3 Hs3 Hh'. by apply runs_ret.
Qed.

Lemma run_due_handlers n s now : ok n s -> druns n (run_due now) s (fun _ _ => True).
Proof.
  intros Hs. unfold run_due. eapply runs_bind with (P := fun r s' => r = regs_of s'); [by apply runs_gets|]. intros regs s1 Hs1 ->.
  apply (run_calls n s1 _ (fun _ handler => handler ← handler_on_deadline now handler; mret ((), handler))); [done| |].
  - apply Forall_forall. intros k Hk. apply list_elem_of_omap in Hk as ([k' h]&Hin&E). apply elem_of_handlers in Hin as [? _].
    cbn in E. destruct (packet_deadline h); [|done]. case_match; [|done]. by injection E as <-.
  - intros absent k s2 h Hs2 Hh. eapply runs_bind; [by apply run_on_deadline|]. intros h' s3 Hs3 Hh'. by apply runs_ret.
Qed.

(** ** Interface changes *)

Lemma set_lifecycle_table_ok n s l t : ok n s -> table_typed n t ->
  ok n (put_dispatcher (set_lifecycle (set_table (ds_dispatcher s) t) l) s).
Proof. intros Hs Ht. pose proof (set_table_ok n _ s t Hs Ht) as [? ? ? ? [] ? ? ?]. by split; [..|split| | |]. Qed.

Lemma run_reconcile_ok n s : ok n s -> druns n run_reconcile s (fun _ _ => True).
Proof.
  intros Hs. unfold run_reconcile. eapply runs_bind; [by apply run_clock|]. intros now s1 Hs1 _. unfold runs, reconcile_at.
  destruct (reconcile_typed (kt_resolve _ Hknl) n (pd_lifecycle (ds_dispatcher s1)) (table_of s1) now (ds_world s1) (di_table _ _ _ Hs1))
    as (rebuilt&l&t&w&->&Ht). split; [|done]. by apply dispatch_ok_world, set_lifecycle_table_ok.
Qed.

Lemma run_after_repair n s touched rebuilt : ok n s -> druns n (after_repair touched rebuilt) s (fun _ _ => True).
Proof.
  intros Hs. unfold after_repair. eapply runs_bind with (P := fun _ _ => True).
  { apply runs_for_each; [done| |done]. intros r s1 _ Hs1. by apply run_evict_dial. }
  intros [] s1 Hs1 _. by apply run_notify.
Qed.

Lemma run_apply_changes n s changes : ok n s -> druns n (apply_interface_changes changes) s (fun _ _ => True).
Proof.
  intros Hs. unfold apply_interface_changes. eapply runs_bind with (P := fun _ _ => True).
  { destruct (cg_reconcile changes); [by apply run_reconcile_ok|by apply runs_ret]. }
  intros rebuilt s1 Hs1 _. eapply runs_bind; [by apply run_evict_dial|]. intros [] s2 Hs2 _. by apply run_after_repair.
Qed.

Lemma run_reconcile_interfaces n s : ok n s -> druns n reconcile_interfaces s (fun _ _ => True).
Proof.
  intros Hs. unfold reconcile_interfaces. eapply runs_bind; [by apply run_reconcile_ok|].
  intros rebuilt s1 Hs1 _. by apply run_after_repair.
Qed.

Lemma run_refresh n s : ok n s -> druns n refresh_changed_interfaces s (fun _ _ => True).
Proof.
  intros Hs. unfold refresh_changed_interfaces. eapply runs_bind; [by apply run_clock|]. intros now s1 Hs1 _.
  eapply runs_bind with (P := fun _ _ => True); [|intros changes s2 Hs2 _; by apply run_apply_changes].
  unfold runs, run_drain. destruct (if lc_monitor _ then _ else _) as [evs w].
  destruct (drain_typed (kt_resolve _ Hknl) n (pd_lifecycle (ds_dispatcher s1)) (pd_table (ds_dispatcher s1)) evs now w (di_table _ _ _ Hs1))
    as (changes&l&t&w'&->&Ht). split; [|done]. by apply dispatch_ok_world, set_lifecycle_table_ok.
Qed.

(** ** Deadlines *)

Lemma report_due_ok n s now : ok n s -> ok n (put_dispatcher (report_due now (ds_dispatcher s)) s).
Proof.
  intros [? ? ? ? [] ? ? ?]. unfold report_due. destruct (pd_report _); [|by split]. destruct (_ <=? _); by split.
Qed.

Lemma run_recheck_ok n s now : ok n s -> druns n (run_recheck now) s (fun _ _ => True).
Proof.
  intros Hs. unfold runs, run_recheck, update.
  destruct (recheck (pd_lifecycle (ds_dispatcher s)) (pd_table (ds_dispatcher s)) now (ds_world s)) as [[[c l] t] w] eqn:E.
  split; [|done]. apply dispatch_ok_world, set_lifecycle_table_ok; [done|].
  eapply recheck_typed; [apply Hknl|exact E|apply Hs].
Qed.

Lemma run_retry_joins n s now : ok n s -> druns n (retry_joins now) s (fun _ _ => True).
Proof.
  intros Hs. unfold retry_joins. eapply runs_bind with (P := fun _ _ => True); [by apply runs_gets|]. intros t s1 Hs1 _.
  destruct (is_some_and _ _); [|by apply runs_ret]. unfold runs, update.
  destruct (converge_all (table_of s1) now (ds_world s1)) as [[r t'] w] eqn:E. split; [|done].
  apply dispatch_ok_world, set_table_ok; [done|]. by eapply converge_all_typed; [exact E|apply Hs1].
Qed.

Lemma run_dispatcher_deadline n s now : ok n s -> druns n (dispatcher_on_deadline now) s (fun _ _ => True).
Proof.
  intros Hs. unfold dispatcher_on_deadline. eapply runs_bind; [by apply run_due_handlers|]. intros [] s1 Hs1 _.
  eapply runs_bind; [by apply run_dial_sweep|]. intros [] s2 Hs2 _.
  eapply runs_bind with (P := fun _ _ => True); [apply runs_modify; [by apply report_due_ok|done]|]. intros [] s3 Hs3 _.
  eapply runs_bind with (P := fun _ _ => True); [by apply runs_gets|]. intros d s4 Hs4 _.
  eapply runs_bind with (P := fun _ _ => True).
  { destruct (_ <=? now); [|by apply runs_ret]. eapply runs_bind; [by apply run_recheck_ok|].
    intros changes s5 Hs5 _. by apply run_apply_changes. }
  intros [] s5 Hs5 _. eapply runs_bind; [by apply run_retry_joins|]. intros gone s6 Hs6 _.
  eapply runs_bind with (P := fun _ _ => True); [by apply runs_gets|]. intros d' s7 Hs7 _.
  destruct (_ || _); [by apply run_reconcile_interfaces|by apply runs_ret].
Qed.

(** ** The calls of the reactor *)

Lemma run_readable_event n s event : ok n s -> druns n (dispatcher_on_readable event) s (fun _ _ => True).
Proof.
  intros Hs. unfold dispatcher_on_readable. destruct (_ =? _); [by apply run_refresh|by apply run_drain_and_route].
Qed.

(** A call of the reactor's: an fd readable, or a deadline reached. *)
Inductive DispatcherCall : Type := CallReadable (event : ReadyEvent) | CallDeadline (now : Z).
Definition dispatcher_call (call : DispatcherCall) : M (DState H W) Infallible () :=
  match call with CallReadable event => dispatcher_on_readable event | CallDeadline now => dispatcher_on_deadline now end.

(** C2. The dispatcher never panics. Whatever becomes readable, in whatever
    order deadlines come, whatever the frames hold and however the kernel answers
    within the types of its calls, one frame to a read or a batch of them, each call
    returns with the dispatcher in order: the table consistent and its addresses
    within their types, every handler back in its registration, the reassembly's
    buffers home, the counters, the egress, the reactor and the DIAL registry in
    order. Only an index space of 2^32 used up stops it, and no drain outlasts 64
    frames and the batch its capture holds. *)
Theorem dispatcher_never_panics n calls s :
  dispatch_ok n nothing_out s ->
  match for_each dispatcher_call calls s with
  | (Ok (), s') => dispatch_ok n nothing_out s'
  | (Err _, _) => False
  | (Panic, s') => full s'
  end.
Proof.
  intros Hs. assert (Hr : druns n (for_each dispatcher_call calls) s (fun _ _ => True)).
  { apply runs_for_each; [done| |done]. intros [event|now] s' _ Hs'; [by apply run_readable_event|by apply run_dispatcher_deadline]. }
  unfold runs in Hr. destruct (for_each _ _ _) as [[[]|[]|] s']; [apply Hr|done].
Qed.
End dispatch.

(** ** Witness *)

(** A frame of mDNS, waiting on the one capture, which relays what it reads. *)
Definition ex_frame : bytes :=
  match frames_log (send_udp (H:=logging quiet_kernel) (H0:=ex_host) {| ck_index := 0 |} mac_broadcast ex_datagram
    (ex_sending ((), []))).2 with [(_, frame)] => frame | _ => [] end.
Definition framing_kernel (frame : bytes) : Kernel Z :=
  {| os := Linux; errnos := errnos (Kernel := quiet_kernel);
     clock := fun w => (0, w);
     if_nametoindex := fun _ w => ((1, 0), w);
     resolve := fun _ _ w => (inr quiet_reading, w);
     open_socket := fun _ w => (inr 3, w);
     join_group := fun _ _ _ w => (inr (), w);
     capture_open := fun _ _ w => (inr {| cap_fd := 4; cap_link := Ethernet; cap_batch := [] |}, w);
     capture_rebind := fun c _ _ w => ((c, inr ()), w);
     capture_attached := fun _ _ w => (true, w);
     capture_send := fun _ _ w => (inr (), w);
     capture_next := fun c w =>
       match cap_batch c with
       | _ :: batch => (({| cap_fd := cap_fd c; cap_link := cap_link c; cap_batch := batch |}, inr (Some (RdFrame frame))), w)
       | [] => if 0 <? w then (({| cap_fd := cap_fd c; cap_link := cap_link c; cap_batch := [0; 0] |}, inr (Some (RdFrame frame))), w - 1)
               else ((c, inr None), w)
       end;
     batch_limit := 2;
     capture_lost := fun _ => false;
     reserve_port := fun _ _ w => (inr 40000, w);
     release_port := fun _ w => w |}.
Definition ex_relay : Registration :=
  {| rn_ingress := {| ck_index := 0 |}; rn_filter := filter_default;
     rn_handler := Some (HSimple (simple_new {| ck_index := 0 |} ToLink (of_payload relay) emit_captured)) |}.
Definition ex_dispatch : DState () Z :=
  {| ds_dispatcher := set_regs (set_table (dispatcher_new true 0 7) ex_bound)
       {| slots := [{| sl_generation := 0; sl_value := Some ex_relay |}]; free := [] |};
     ds_reactor := reactor_new (); ds_world := 1 |}.
Definition quiet_monitor : Monitor Z := fun w => ([], w).

Lemma ex_frame_bytes : bytes_ok ex_frame.
Proof. apply (bool_decide_eq_true_1 (bytes_ok ex_frame)). vm_compute. reflexivity. Qed.

Lemma framing_typed frame : bytes_ok frame -> kernel_typed (framing_kernel frame).
Proof.
  intros Hb. split.
  - intros name i w r [= <-]. split_and!; [by intros m [= <-]|by intros v [= <-]; vm_compute|done|done|by intros p [= <-]].
  - by intros addr i w n [= <-].
  - intros c w frame'. cbn. destruct (cap_batch c); [|by intros [= <-]]. destruct (0 <? w); [|done]. by intros [= <-].
  - intros [fd link batch] w. cbn. destruct batch as [|x batch]; cbn; [destruct (0 <? w); cbn; lia|lia].
Qed.

Lemma ex_bound_ok : table_typed 1 ex_bound.
Proof.
  split; [split|by apply (ex_sending_ok ())|done].
  - constructor; [|constructor]. by split_and!.
  - constructor; [|constructor]. split; [cbn; lia|done].
  - apply NoDup_singleton.
Qed.

Lemma ex_dispatch_ok : dispatch_ok 1 nothing_out ex_dispatch.
Proof.
  assert (Hget : forall k r, 0 <= index k -> get (regs_of ex_dispatch) k = Some r -> r = ex_relay).
  { intros k r Hk (s&Hs&_&Hv)%get_Some. apply list_lookup_singleton_Some in Hs as [_ <-]. by injection Hv as <-. }
  split.
  - apply ex_bound_ok.
  - split; [constructor|cbn; lia| |by repeat constructor].
    intros i. split; [by intros ?%not_elem_of_nil|]. intros (_&s&Hs&Hv). apply list_lookup_singleton_Some in Hs as [_ <-]. done.
  - intros k r Hk Hg. rewrite (Hget k r Hk Hg). split; [by vm_compute|]. intros h [= <-]. by split.
  - intros k r Hk Hg _. rewrite (Hget k r Hk Hg). by eexists.
  - split; [by vm_compute|by vm_compute|apply ex_bound_ok].
  - apply reactor_new_ok.
  - split_and!; [constructor|cbn; lia|by intros p ?%not_elem_of_nil].
  - apply ReassemblyTyped.reassembler_new_typed.
Qed.

Lemma dispatcher_never_panics_witness :
  let calls := [CallReadable {| ev_fd := 4; ev_user_data := 0 |}; CallDeadline (31 * 10 ^ 9)] in
  exists s, for_each (dispatcher_call (H:=()) (H0:=framing_kernel ex_frame) (H1:=ex_host) (H2:=counting_poller) (H3:=unit_adopt)
      (H4:=counting_tcp) (H5:=unit_proxy) (H6:=quiet_monitor)) calls ex_dispatch = (Ok (), s) /\
    dispatch_ok 1 nothing_out s /\ ds_world s = 0.
Proof.
  intros calls.
  pose proof (dispatcher_never_panics (H0:=framing_kernel ex_frame) (H1:=ex_host) (H2:=counting_poller) (H3:=unit_adopt) (H4:=counting_tcp)
    (H5:=unit_proxy) (H6:=quiet_monitor) (framing_typed ex_frame ex_frame_bytes) counting_typed 1 calls ex_dispatch ex_dispatch_ok) as Hr.
  assert (Hv : (fun r : res Infallible () * DState () Z => match r with (Ok _, s) => Some (ds_world s) | _ => None end)
    (for_each (dispatcher_call (H:=()) (H0:=framing_kernel ex_frame) (H1:=ex_host) (H2:=counting_poller) (H3:=unit_adopt)
      (H4:=counting_tcp) (H5:=unit_proxy) (H6:=quiet_monitor)) calls ex_dispatch) = Some 0) by (vm_compute; reflexivity).
  destruct (for_each _ _ _) as [[[]|e|] s]; [|discriminate Hv..].
  exists s. split; [reflexivity|]. split; [exact Hr|]. injection Hv as Hv. exact Hv.
Defined.
