(* ===== verification/Env.v ===== *)
(** Configuration by environment variables ([src/config/env.rs]): the
    [NETFLECTOR_*] variables read into the raw configuration of Config, and
    the sources brought together ([Config::from_sources] of [src/config.rs]).
    A variable is a pair of texts, as [sys::process_env] lists them. *)

From stdpp Require Import gmap.
From stdpp Require Import sorting.
From S2P Require Import Prelude Text Addr UniqueList Mac Names Value ConfigError Conflict Config Ssdp Wsd Mdns.
From S2P Require Import ConfigSpec.

Local Open Scope Z_scope.

(** ** The entry under construction *)

Record PartialReflector : Type := {
  p_name : option ReflectorName;
  p_source_if : option InterfaceName;
  p_target_if : option InterfaceName;
  p_source_peers : option PeerList;
  p_target_peers : option PeerList;
  p_macs : option MacSet;
  p_wol : option bool;
  p_mdns : option bool;
  p_mdns_services : option ServiceList;
  p_ssdp : option bool;
  p_dial : option bool;
  p_wsd : option bool;
  p_bidirectional : option bool;
  p_wol_ports : option PortList;
  p_udp_ports : option PortList;
  p_udp_groups : option GroupList;
  p_udp_broadcast : option bool;
  p_address_family : option AddressFamily;
}.
Definition partial_default : PartialReflector :=
  Build_PartialReflector None None None None None None None None None None None None None None None None None None.

(** The parameters, the arms of [PartialReflector::set], each with the type of
    its field. *)
Inductive Param : Type :=
  | EName | ESourceIf | ETargetIf | ESourcePeers | ETargetPeers | EMacs | EWol | EMdns | EMdnsServices
  | ESsdp | EDial | EWsd | EBidirectional | EWolPorts | EUdpPorts | EUdpGroups | EUdpBroadcast | EAddressFamily.
Global Instance Param_eq_dec : EqDecision Param.
Proof. solve_decision. Defined.

Definition param_type (p : Param) : Type :=
  match p with
  | EName => ReflectorName
  | ESourceIf | ETargetIf => InterfaceName
  | ESourcePeers | ETargetPeers => PeerList
  | EMacs => MacSet
  | EMdnsServices => ServiceList
  | EWolPorts | EUdpPorts => PortList
  | EUdpGroups => GroupList
  | EAddressFamily => AddressFamily
  | EWol | EMdns | ESsdp | EDial | EWsd | EBidirectional | EUdpBroadcast => bool
  end.

(** The patterns of the arms. *)
Definition param_name (p : Param) : bytes :=
  match p with
  | EName => bs "name" | ESourceIf => bs "source_if" | ETargetIf => bs "target_if"
  | ESourcePeers => bs "source_peers" | ETargetPeers => bs "target_peers" | EMacs => bs "macs"
  | EWolPorts => bs "wol_ports" | EAddressFamily => bs "address_family" | EWol => bs "wol"
  | EMdns => bs "mdns" | EMdnsServices => bs "mdns_services" | ESsdp => bs "ssdp" | EDial => bs "dial"
  | EWsd => bs "wsd" | EBidirectional => bs "bidirectional" | EUdpPorts => bs "udp_ports"
  | EUdpGroups => bs "udp_groups" | EUdpBroadcast => bs "udp_broadcast"
  end.
Definition params : list Param :=
  [EName; ESourceIf; ETargetIf; ESourcePeers; ETargetPeers; EMacs; EWolPorts; EAddressFamily; EWol; EMdns;
   EMdnsServices; ESsdp; EDial; EWsd; EBidirectional; EUdpPorts; EUdpGroups; EUdpBroadcast].
Definition param_of (param : bytes) : option Param := match_str ((fun p => (param_name p, p)) <$> params) param.

(** The slot an arm borrows, read and written. *)
Definition slot (p : Param) (r : PartialReflector) : option (param_type p) :=
  match p with
  | EName => p_name r | ESourceIf => p_source_if r | ETargetIf => p_target_if r
  | ESourcePeers => p_source_peers r | ETargetPeers => p_target_peers r | EMacs => p_macs r
  | EWol => p_wol r | EMdns => p_mdns r | EMdnsServices => p_mdns_services r | ESsdp => p_ssdp r
  | EDial => p_dial r | EWsd => p_wsd r | EBidirectional => p_bidirectional r | EWolPorts => p_wol_ports r
  | EUdpPorts => p_udp_ports r | EUdpGroups => p_udp_groups r | EUdpBroadcast => p_udp_broadcast r
  | EAddressFamily => p_address_family r
  end.
Definition with_slot (p : Param) : option (param_type p) -> PartialReflector -> PartialReflector :=
  match p with
  | EName => fun x '(Build_PartialReflector _ b c d e f g h i j k l m n o q s t) =>
      Build_PartialReflector x b c d e f g h i j k l m n o q s t
  | ESourceIf => fun x '(Build_PartialReflector a _ c d e f g h i j k l m n o q s t) =>
      Build_PartialReflector a x c d e f g h i j k l m n o q s t
  | ETargetIf => fun x '(Build_PartialReflector a b _ d e f g h i j k l m n o q s t) =>
      Build_PartialReflector a b x d e f g h i j k l m n o q s t
  | ESourcePeers => fun x '(Build_PartialReflector a b c _ e f g h i j k l m n o q s t) =>
      Build_PartialReflector a b c x e f g h i j k l m n o q s t
  | ETargetPeers => fun x '(Build_PartialReflector a b c d _ f g h i j k l m n o q s t) =>
      Build_PartialReflector a b c d x f g h i j k l m n o q s t
  | EMacs => fun x '(Build_PartialReflector a b c d e _ g h i j k l m n o q s t) =>
      Build_PartialReflector a b c d e x g h i j k l m n o q s t
  | EWol => fun x '(Build_PartialReflector a b c d e f _ h i j k l m n o q s t) =>
      Build_PartialReflector a b c d e f x h i j k l m n o q s t
  | EMdns => fun x '(Build_PartialReflector a b c d e f g _ i j k l m n o q s t) =>
      Build_PartialReflector a b c d e f g x i j k l m n o q s t
  | EMdnsServices => fun x '(Build_PartialReflector a b c d e f g h _ j k l m n o q s t) =>
      Build_PartialReflector a b c d e f g h x j k l m n o q s t
  | ESsdp => fun x '(Build_PartialReflector a b c d e f g h i _ k l m n o q s t) =>
      Build_PartialReflector a b c d e f g h i x k l m n o q s t
  | EDial => fun x '(Build_PartialReflector a b c d e f g h i j _ l m n o q s t) =>
      Build_PartialReflector a b c d e f g h i j x l m n o q s t
  | EWsd => fun x '(Build_PartialReflector a b c d e f g h i j k _ m n o q s t) =>
      Build_PartialReflector a b c d e f g h i j k x m n o q s t
  | EBidirectional => fun x '(Build_PartialReflector a b c d e f g h i j k l _ n o q s t) =>
      Build_PartialReflector a b c d e f g h i j k l x n o q s t
  | EWolPorts => fun x '(Build_PartialReflector a b c d e f g h i j k l m _ o q s t) =>
      Build_PartialReflector a b c d e f g h i j k l m x o q s t
  | EUdpPorts => fun x '(Build_PartialReflector a b c d e f g h i j k l m n _ q s t) =>
      Build_PartialReflector a b c d e f g h i j k l m n x q s t
  | EUdpGroups => fun x '(Build_PartialReflector a b c d e f g h i j k l m n o _ s t) =>
      Build_PartialReflector a b c d e f g h i j k l m n o x s t
  | EUdpBroadcast => fun x '(Build_PartialReflector a b c d e f g h i j k l m n o q _ t) =>
      Build_PartialReflector a b c d e f g h i j k l m n o q x t
  | EAddressFamily => fun x '(Build_PartialReflector a b c d e f g h i j k l m n o q s _) =>
      Build_PartialReflector a b c d e f g h i j k l m n o q s x
  end.

(** ** Values *)

(** [env_value], of the type's [FromStr] *)
Definition env_value {T} (from_str : bytes -> res ParseValueError T) (value var : bytes) : res ConfigError T :=
  map_err (EnvBadValue var value) (from_str value).
Definition parse_or {T} (e : ParseValueError) (from_str : bytes -> option T) (s : bytes) : res ParseValueError T :=
  ok_or (from_str s) e.
Definition u64_from_str : bytes -> res ParseValueError Z := parse_or VInteger (parse_uint 10 (2 ^ 64)).

(** [env_bool] *)
Definition env_bool (value var : bytes) : res ConfigError bool :=
  let lower := lowercase value in
  if bool_decide (lower = bs "true") || bool_decide (lower = bs "1") then Ok true
  else if bool_decide (lower = bs "false") || bool_decide (lower = bs "0") then Ok false
  else Err (EnvBadValue var value VBool).

(** The value an arm of [set] parses. *)
Definition param_value (p : Param) (value var : bytes) : res ConfigError (param_type p) :=
  match p with
  | EName => env_value (parse_or VReflectorName reflector_name_from_str) value var
  | ESourceIf | ETargetIf => env_value (fun s => map_err VInterface (interface_name_from_str s)) value var
  | ESourcePeers | ETargetPeers => env_value (fun s => map_err VAddresses (list_from_str (H := Peers) s)) value var
  | EMacs => env_value (fun s => map_err VMacs (list_from_str (H := Macs) s)) value var
  | EWolPorts | EUdpPorts => env_value (fun s => map_err VPorts (list_from_str (H := Ports) s)) value var
  | EMdnsServices => env_value (fun s => map_err VServices (list_from_str (H := Services) s)) value var
  | EUdpGroups => env_value (fun s => map_err VAddresses (list_from_str (H := Groups) s)) value var
  | EAddressFamily => env_value (parse_or VAddressFamily address_family_from_str) value var
  | EWol | EMdns | ESsdp | EDial | EWsd | EBidirectional | EUdpBroadcast => env_bool value var
  end.

(** [put]: the write-once slot. *)
Definition put {T} (slot : option T) (value : T) (param var : bytes) : res ConfigError (option T) :=
  match slot with Some _ => Err (EnvDuplicateParam var param) | None => Ok (Some value) end.

(** [PartialReflector::set] *)
Definition partial_set (self : PartialReflector) (param value var : bytes) : res ConfigError PartialReflector :=
  match param_of param with
  | Some p =>
      v ← param_value p value var;
      s ← put (slot p self) v param var;
      Ok (with_slot p s self)
  | None => Err (EnvUnknownParam var param)
  end.

(** [PartialReflector::into_raw] *)
Definition into_raw (self : PartialReflector) (name : bytes) : res ConfigError RawReflector :=
  source ← ok_or (p_source_if self) (EnvMissingField name SourceIf);
  target ← ok_or (p_target_if self) (EnvMissingField name TargetIf);
  Ok {| raw_name := p_name self;
        raw_source_if := source;
        raw_target_if := target;
        raw_source_peers := p_source_peers self;
        raw_target_peers := p_target_peers self;
        raw_macs := p_macs self;
        raw_address_family := default FDefault (p_address_family self);
        raw_wol := default false (p_wol self);
        raw_wol_ports := p_wol_ports self;
        raw_mdns := default false (p_mdns self);
        raw_mdns_services := p_mdns_services self;
        raw_ssdp := default false (p_ssdp self);
        raw_dial := default false (p_dial self);
        raw_wsd := default false (p_wsd self);
        raw_bidirectional := default false (p_bidirectional self);
        raw_udp_ports := p_udp_ports self;
        raw_udp_groups := p_udp_groups self;
        raw_udp_broadcast := default false (p_udp_broadcast self) |}.

(** ** The variables *)

(** The locals of [parse_env]. *)
Record EnvState : Type := {
  es_user : option RunAs;
  es_memory : option Z;
  es_counters : option Z;
  es_partials : BTreeMap PartialReflector;
}.
Definition env_start : EnvState := Build_EnvState None None None ∅.
Definition set_user (u : RunAs) (st : EnvState) : EnvState :=
  Build_EnvState (Some u) (es_memory st) (es_counters st) (es_partials st).
Definition set_memory (secs : Z) (st : EnvState) : EnvState :=
  Build_EnvState (es_user st) (Some secs) (es_counters st) (es_partials st).
Definition set_counters (secs : Z) (st : EnvState) : EnvState :=
  Build_EnvState (es_user st) (es_memory st) (Some secs) (es_partials st).
Definition set_partial (tag : bytes) (r : PartialReflector) (st : EnvState) : EnvState :=
  Build_EnvState (es_user st) (es_memory st) (es_counters st) (<[tag := r]> (es_partials st)).
Definition partial_at (tag : bytes) (st : EnvState) : PartialReflector := default partial_default (es_partials st !! tag).

Definition PREFIX : bytes := bs "NETFLECTOR_".
Definition reserved_tags : list bytes := [bs "log"; bs "debug"; bs "counters"].

(** [str::strip_prefix] *)
Definition strip_prefix (prefix s : bytes) : option bytes :=
  if bool_decide (take (length prefix) s = prefix) then Some (drop (length prefix) s) else None.

(** One turn of [parse_env]'s loop. *)
Definition env_var (st : EnvState) (var : bytes * bytes) : res ConfigError EnvState :=
  let '(key, value) := var in
  match strip_prefix PREFIX key with
  | None => Ok st
  | Some rest =>
      if bool_decide (rest = bs "LOG_LEVEL") then
        _ ← env_value (parse_or VLogLevel log_level_from_str) value key; Ok st
      else if bool_decide (rest = bs "LOG_TARGET") then
        _ ← env_value (parse_or VLogTarget log_target_from_str) value key; Ok st
      else if bool_decide (rest = bs "USER") then
        u ← env_value (parse_or VRunAs run_as_from_str) value key; Ok (set_user u st)
      else if bool_decide (rest = bs "DEBUG_MEMORY_INTERVAL_SECS") then
        secs ← env_value u64_from_str value key; Ok (set_memory secs st)
      else if bool_decide (rest = bs "COUNTERS_INTERVAL_SECS") then
        secs ← env_value u64_from_str value key; Ok (set_counters secs st)
      else
        '(tag, param) ← ok_or (split_once 95 rest) (EnvMalformedVar key);
        if bool_decide (tag = []) || negb (forallb is_alphanumeric tag) then Err (EnvInvalidTag key tag)
        else
          let tag := lowercase tag in
          if bool_decide (tag ∈ reserved_tags) then Err (EnvReservedTag key)
          else
            let param := lowercase param in
            r ← partial_set (partial_at tag st) param value key;
            Ok (set_partial tag r st)
  end.
Fixpoint env_vars (st : EnvState) (vars : list (bytes * bytes)) : res ConfigError EnvState :=
  match vars with
  | [] => Ok st
  | var :: vars => st ← env_var st var; env_vars st vars
  end.

(** The loop that completes the entries, in the order of their tags. *)
Fixpoint into_raws (partials : list (bytes * PartialReflector)) (reflectors : BTreeMap RawReflector)
    : res ConfigError (BTreeMap RawReflector) :=
  match partials with
  | [] => Ok reflectors
  | (name, partial) :: partials =>
      raw ← into_raw partial name;
      into_raws partials (<[name := raw]> reflectors)
  end.

(** [parse_env] *)
Definition parse_env (vars : list (bytes * bytes)) : res ConfigError RawConfig :=
  st ← env_vars env_start vars;
  reflectors ← into_raws (bt_iter (es_partials st)) ∅;
  Ok {| rc_user := es_user st; rc_debug_memory_interval_secs := es_memory st;
        rc_counters_interval_secs := es_counters st; rc_reflectors := reflectors |}.

(** [logging_from_env] *)
Definition find_var {T} (from_str : bytes -> res ParseValueError T) (vars : list (bytes * bytes)) (var : bytes)
    : res ConfigError (option T) :=
  match list_find (fun kv => kv.1 = var) vars with
  | Some (_, (key, value)) => Some <$> env_value from_str value key
  | None => Ok None
  end.
Definition logging_from_env (vars : list (bytes * bytes)) : res ConfigError (option LogLevel * option LogTarget) :=
  level ← find_var (parse_or VLogLevel log_level_from_str) vars (bs "NETFLECTOR_LOG_LEVEL");
  target ← find_var (parse_or VLogTarget log_target_from_str) vars (bs "NETFLECTOR_LOG_TARGET");
  Ok (level, target).

(** [Config::from_sources], over the TOML reader of another crate *)
Definition from_sources (toml_from_str : bytes -> option TomlConfig) (toml_text : option bytes)
    (env : list (bytes * bytes)) : res ConfigError Config :=
  raw ← match toml_text with
        | Some text => from_toml toml_from_str raw_config_deserialize text
        | None => Ok raw_config_default
        end;
  env ← parse_env env;
  raw ← merge_env raw env;
  config_try_from raw.

(** What the environment variables mean: each sets exactly the field it names,
    none is lost or overridden, their order is irrelevant, and a configuration
    loaded from a file and the environment is a valid one. *)

(** ** The slots of an entry *)

Lemma slot_with_same p x r : slot p (with_slot p x r) = x.
Proof. by destruct p, r. Qed.
Lemma slot_with_other p q x r : p <> q -> slot q (with_slot p x r) = slot q r.
Proof. destruct r. by destruct p, q. Qed.
Lemma with_slot_comm p q x y r : p <> q -> with_slot p x (with_slot q y r) = with_slot q y (with_slot p x r).
Proof. destruct r. by destruct p, q. Qed.
Lemma slot_default p : slot p partial_default = None.
Proof. by destruct p. Qed.

Lemma param_of_Some s p : param_of s = Some p <-> s = param_name p.
Proof.
  split; [|intros ->; by destruct p; vm_compute].
  unfold param_of. assert (H : Forall (fun q => q.1 = param_name q.2) ((fun p => (param_name p, p)) <$> params))
    by (by apply Forall_fmap, Forall_true).
  induction H as [|[lit q] arms Hq _ IH]; [done|]. cbn. case_bool_decide as E; [intros [= <-]; by rewrite E|done].
Qed.
Lemma param_name_inj p q : param_name p = param_name q -> p = q.
Proof. intros E. apply (inj Some). rewrite <- (proj2 (param_of_Some _ p) eq_refl). by apply param_of_Some. Qed.

(** ** Parsers return *)

Lemma safe_map_err {E E' A} (f : E -> E') (r : res E A) : safe r -> safe (map_err f r).
Proof. by destruct r. Qed.
Lemma list_from_str_safe {T} `{ListRule T} s : safe (list_from_str s).
Proof.
  unfold list_from_str. apply bind_safe; [|intros l _; apply try_from_safe].
  induction (split_on _ _) as [|token tokens IH]; [done|]. cbn [parse_tokens].
  apply bind_safe; [auto with nf|intros item _]. by apply bind_safe.
Qed.
Lemma interface_from_str_safe s : safe (interface_name_from_str s).
Proof. unfold interface_name_from_str. by repeat case_match. Qed.
Lemma parse_or_safe {T} e (f : bytes -> option T) s : safe (parse_or e f s).
Proof. apply safe_ok_or. Qed.
#[export] Hint Resolve safe_map_err list_from_str_safe interface_from_str_safe parse_or_safe : nf.
Lemma env_value_safe {T} (f : bytes -> res ParseValueError T) value var : safe (f value) -> safe (env_value f value var).
Proof. apply safe_map_err. Qed.
Lemma env_bool_safe value var : safe (env_bool value var).
Proof. unfold env_bool. by repeat case_match. Qed.
#[export] Hint Resolve env_value_safe env_bool_safe : nf.
Lemma param_value_safe p value var : safe (param_value p value var).
Proof. destruct p; cbn [param_value]; auto with nf. Qed.

(** ** What a variable says *)

(** A variable's own meaning, whatever was read before it. *)
Inductive Assignment : Type :=
  | ANothing
  | AUser (u : RunAs)
  | AMemory (secs : Z)
  | ACounters (secs : Z)
  | AParam (tag : bytes) (p : Param) (v : param_type p).

Definition meaning (var : bytes * bytes) : res ConfigError Assignment :=
  let '(key, value) := var in
  match strip_prefix PREFIX key with
  | None => Ok ANothing
  | Some rest =>
      if bool_decide (rest = bs "LOG_LEVEL") then
        _ ← env_value (parse_or VLogLevel log_level_from_str) value key; Ok ANothing
      else if bool_decide (rest = bs "LOG_TARGET") then
        _ ← env_value (parse_or VLogTarget log_target_from_str) value key; Ok ANothing
      else if bool_decide (rest = bs "USER") then
        u ← env_value (parse_or VRunAs run_as_from_str) value key; Ok (AUser u)
      else if bool_decide (rest = bs "DEBUG_MEMORY_INTERVAL_SECS") then
        secs ← env_value u64_from_str value key; Ok (AMemory secs)
      else if bool_decide (rest = bs "COUNTERS_INTERVAL_SECS") then
        secs ← env_value u64_from_str value key; Ok (ACounters secs)
      else
        '(tag, param) ← ok_or (split_once 95 rest) (EnvMalformedVar key);
        if bool_decide (tag = []) || negb (forallb is_alphanumeric tag) then Err (EnvInvalidTag key tag)
        else if bool_decide (lowercase tag ∈ reserved_tags) then Err (EnvReservedTag key)
        else
          p ← ok_or (param_of (lowercase param)) (EnvUnknownParam key (lowercase param));
          v ← param_value p value key;
          Ok (AParam (lowercase tag) p v)
  end.

Definition assign (key : bytes) (a : Assignment) (st : EnvState) : res ConfigError EnvState :=
  match a with
  | ANothing => Ok st
  | AUser u => Ok (set_user u st)
  | AMemory secs => Ok (set_memory secs st)
  | ACounters secs => Ok (set_counters secs st)
  | AParam tag p v =>
      s ← put (slot p (partial_at tag st)) v (param_name p) key;
      Ok (set_partial tag (with_slot p s (partial_at tag st)) st)
  end.

Lemma env_var_assigns st var : env_var st var = (a ← meaning var; assign var.1 a st).
Proof.
  destruct var as [key value]. cbn [env_var meaning fst]. destruct (strip_prefix PREFIX key) as [rest|]; [|done].
  do 5 (case_bool_decide; [by destruct (env_value _ _ _)|]).
  destruct (split_once 95 rest) as [[tag param]|]; cbn [ok_or mbind res_bind]; [|done].
  destruct (_ || _); [done|]. case_bool_decide; [done|]. unfold partial_set.
  destruct (param_of (lowercase param)) as [p|] eqn:Ep; cbn [ok_or mbind res_bind]; [|done].
  apply param_of_Some in Ep as ->. destruct (param_value p value key) as [v|e|]; cbn [mbind res_bind assign]; [|done..].
  by destruct (put _ _ _ _).
Qed.

Lemma meaning_safe var : safe (meaning var).
Proof.
  destruct var as [key value]. cbn [meaning]. destruct (strip_prefix PREFIX key) as [rest|]; [|done].
  do 5 (case_bool_decide; [apply bind_safe; [apply env_value_safe, parse_or_safe|done]|]).
  apply bind_safe; [auto with nf|]. intros [tag param] _. destruct (_ || _); [done|]. case_bool_decide; [done|].
  apply bind_safe; [auto with nf|intros p _]. apply bind_safe; [apply param_value_safe|done].
Qed.

(** ** The order of the variables *)

Lemma bind_assoc {E A B C} (m : res E A) (f : A -> res E B) (g : B -> res E C) :
  (m ≫= f) ≫= g = a ← m; f a ≫= g.
Proof. by destruct m. Qed.

(** Two runs end alike: in one state, or both refused. *)
Definition alike {A} (x y : res ConfigError A) : Prop :=
  match x, y with Ok a, Ok b => a = b | Err _, Err _ => True | _, _ => False end.
Lemma alike_bind {A B} (f g : A -> res ConfigError B) x y :
  alike x y -> (forall a, alike (f a) (g a)) -> alike (x ≫= f) (y ≫= g).
Proof. destruct x, y; cbn; try done. intros -> H. apply H. Qed.
Lemma alike_refl {A} (x : res ConfigError A) : safe x -> alike x x.
Proof. by destruct x. Qed.
Lemma alike_trans {A} (x y z : res ConfigError A) : alike x y -> alike y z -> alike x z.
Proof. destruct x, y, z; cbn; naive_solver congruence. Qed.

Lemma assign_safe key a st : safe (assign key a st).
Proof. destruct a; cbn [assign]; [done..|]. by destruct (slot _ _). Qed.
Lemma env_var_safe st var : safe (env_var st var).
Proof. rewrite env_var_assigns. apply bind_safe; [apply meaning_safe|]. intros a _. apply assign_safe. Qed.
Lemma env_vars_safe vars st : safe (env_vars st vars).
Proof. revert st. induction vars; intros st; [done|]. apply bind_safe; [apply env_var_safe|]. auto. Qed.

(** Of two variables the global ones, at least, say different things. *)
Definition clash (a b : Assignment) : Prop :=
  match a, b with
  | AUser _, AUser _ | AMemory _, AMemory _ | ACounters _, ACounters _ => True
  | _, _ => False
  end.

Lemma partial_at_same tag r st : partial_at tag (set_partial tag r st) = r.
Proof. unfold partial_at, set_partial. cbn. by rewrite lookup_insert_eq. Qed.
Lemma partial_at_other tag tag' r st : tag <> tag' -> partial_at tag' (set_partial tag r st) = partial_at tag' st.
Proof. intros H. unfold partial_at, set_partial. cbn. by rewrite lookup_insert_ne. Qed.

Lemma set_partial_twice tag r r' st : set_partial tag r (set_partial tag r' st) = set_partial tag r st.
Proof. unfold set_partial. f_equal. apply insert_insert_eq. Qed.
Lemma set_partial_comm tag tag' r r' st :
  tag <> tag' -> set_partial tag r (set_partial tag' r' st) = set_partial tag' r' (set_partial tag r st).
Proof. intros H. unfold set_partial. f_equal. by apply insert_insert_ne. Qed.

Lemma params_commute k k' tag p v tag' q w st :
  alike (st ← assign k (AParam tag p v) st; assign k' (AParam tag' q w) st)
        (st ← assign k' (AParam tag' q w) st; assign k (AParam tag p v) st).
Proof.
  cbn [assign]. destruct (decide (tag = tag')) as [<-|Ht].
  - destruct (decide (p = q)) as [<-|Hp].
    + destruct (slot p (partial_at tag st)); cbn; [done|]. by rewrite !partial_at_same, !slot_with_same.
    + destruct (slot p (partial_at tag st)) as [|] eqn:Ep, (slot q (partial_at tag st)) as [|] eqn:Eq;
        cbn [put mbind res_bind];
        rewrite ?partial_at_same, ?(slot_with_other p q _ _ Hp), ?(slot_with_other q p _ _ (not_eq_sym Hp)), ?Ep, ?Eq; try done.
      cbn [put mbind res_bind alike]. rewrite !set_partial_twice. f_equal. apply with_slot_comm. congruence.
  - destruct (slot p (partial_at tag st)) as [|] eqn:Ep, (slot q (partial_at tag' st)) as [|] eqn:Eq;
      cbn [put mbind res_bind];
      rewrite ?(partial_at_other tag tag' _ _ Ht), ?(partial_at_other tag' tag _ _ (not_eq_sym Ht)), ?Ep, ?Eq; try done.
    cbn [put mbind res_bind alike]. apply set_partial_comm. congruence.
Qed.

Lemma assign_commute k k' a b st : ~ clash a b ->
  alike (st ← assign k a st; assign k' b st) (st ← assign k' b st; assign k a st).
Proof.
  intros Hc. destruct a as [|?|?|?|tag p v], b as [|?|?|?|tag' q w]; try (by destruct (Hc I));
    try (by apply params_commute); cbn [assign mbind res_bind]; try done.
  all: unfold partial_at; cbn; by destruct (slot _ _).
Qed.

Lemma strip_prefix_Some prefix s rest : strip_prefix prefix s = Some rest <-> s = prefix ++ rest.
Proof.
  unfold strip_prefix. case_bool_decide as E.
  - split; [intros [= <-]; rewrite <- E at 1; symmetry; apply take_drop|].
    intros ->. f_equal. apply drop_app_length.
  - split; [done|]. intros ->. by rewrite take_app_length in E.
Qed.

(** The name of the global a meaning is of. *)
Definition global_of (a : Assignment) : option bytes :=
  match a with
  | AUser _ => Some (bs "USER")
  | AMemory _ => Some (bs "DEBUG_MEMORY_INTERVAL_SECS")
  | ACounters _ => Some (bs "COUNTERS_INTERVAL_SECS")
  | _ => None
  end.

Lemma meaning_global var a g : meaning var = Ok a -> global_of a = Some g -> var.1 = PREFIX ++ g.
Proof.
  destruct var as [key value]. cbn [meaning fst]. destruct (strip_prefix PREFIX key) as [rest|] eqn:E; [|by intros [= <-]].
  apply strip_prefix_Some in E as ->.
  do 5 (case_bool_decide; [subst; intros (?&_&[= <-])%bind_Ok; by intros [= <-]|]).
  intros ([tag param]&_&Hm)%bind_Ok. destruct (_ || _); [done|]. case_bool_decide; [done|].
  apply bind_Ok in Hm as (p&_&Hm). by apply bind_Ok in Hm as (v&_&[= <-]).
Qed.

Lemma clash_same_key var var' a b : meaning var = Ok a -> meaning var' = Ok b -> clash a b -> var.1 = var'.1.
Proof.
  intros Ha Hb Hc. assert (exists g, global_of a = Some g /\ global_of b = Some g) as (g&Ga&Gb)
    by (destruct a, b; try destruct Hc; eauto).
  by rewrite (meaning_global _ _ _ Ha Ga), (meaning_global _ _ _ Hb Gb).
Qed.

Lemma env_var_commute u v st : u.1 <> v.1 ->
  alike (st ← env_var st u; env_var st v) (st ← env_var st v; env_var st u).
Proof.
  intros Hk. destruct (meaning u) as [a|e|] eqn:Ea; [|rewrite (env_var_assigns st u), Ea; cbn [mbind res_bind]..].
  - destruct (meaning v) as [b|e|] eqn:Eb.
    + assert (Hc : ~ clash a b) by (intros Hc; by apply Hk, (clash_same_key u v a b)).
      pose proof (assign_commute u.1 v.1 a b st Hc) as H.
      replace (env_var st u) with (assign u.1 a st) by (by rewrite env_var_assigns, Ea).
      replace (env_var st v) with (assign v.1 b st) by (by rewrite env_var_assigns, Eb).
      destruct (assign u.1 a st) as [s|e|], (assign v.1 b st) as [s'|e'|]; cbn [mbind res_bind] in H |- *;
        rewrite ?env_var_assigns, ?Ea, ?Eb; done.
    + rewrite (env_var_assigns st v), Eb. cbn [mbind res_bind]. destruct (env_var st u) as [s| |] eqn:Es; cbn [mbind res_bind].
      * by rewrite env_var_assigns, Eb.
      * done.
      * by destruct (env_var_safe st u).
    + by destruct (meaning_safe v).
  - destruct (env_var st v) as [s| |] eqn:Es; cbn [mbind res_bind].
    + by rewrite env_var_assigns, Ea.
    + done.
    + by destruct (env_var_safe st v).
  - by destruct (meaning_safe u).
Qed.

Lemma env_vars_alike vars vars' : vars ≡ₚ vars' -> NoDup vars.*1 ->
  forall st, alike (env_vars st vars) (env_vars st vars').
Proof.
  induction 1 as [|v vars vars' _ IH|u v vars|vars vars' vars'' Hp IH Hp' IH']; intros Hnd st.
  - done.
  - apply NoDup_cons in Hnd as [_ Hnd]. apply alike_bind; [apply alike_refl, env_var_safe|]. auto.
  - cbn [env_vars]. assert (Hk : u.1 <> v.1).
    { intros E. apply NoDup_cons in Hnd as [Hn _]. apply Hn. rewrite E. left. }
    pose proof (env_var_commute v u st ltac:(congruence)) as H.
    rewrite <- !bind_assoc. apply alike_bind; [done|]. intros s. apply alike_refl, env_vars_safe.
  - eapply alike_trans; [by apply IH|]. apply IH'. by rewrite <- Hp.
Qed.

Lemma into_raws_safe l m : safe (into_raws l m).
Proof.
  revert m. induction l as [|[name partial] l IH]; intros m; [done|]. cbn [into_raws]. apply bind_safe; [|auto].
  unfold into_raw. repeat (apply bind_safe; [auto with nf|intros ? _]). done.
Qed.

Lemma complete_safe st : safe (reflectors ← into_raws (bt_iter (es_partials st)) ∅;
  Ok {| rc_user := es_user st; rc_debug_memory_interval_secs := es_memory st;
        rc_counters_interval_secs := es_counters st; rc_reflectors := reflectors |}).
Proof. apply bind_safe; [apply into_raws_safe|done]. Qed.

(** The environment has no order.  Of one set of variables, no two of one
    name, listed in any two orders, either both lists are refused or both give
    the same configuration: no variable silently overrides another, not even one
    that differs from it in letter case only.  And no list makes the reader panic. *)
Theorem env_order_irrelevant vars vars' : vars ≡ₚ vars' -> NoDup vars.*1 ->
  match parse_env vars, parse_env vars' with
  | Ok raw, Ok raw' => raw = raw'
  | Err _, Err _ => True
  | _, _ => False
  end.
Proof.
  intros Hp Hnd. apply (alike_bind _ _ _ _ (env_vars_alike _ _ Hp Hnd env_start)).
  intros st. apply alike_refl, complete_safe.
Qed.

(** ** What the variables say *)

(** The variable of [param] for [tag], in any mix of cases. *)
Definition names (tag : bytes) (p : Param) (key : bytes) : Prop :=
  exists t q, key = PREFIX ++ t ++ 95 :: q /\ lowercase t = tag /\ lowercase q = param_name p.
Record tag_ok (tag : bytes) : Prop := {
  tag_some : tag <> [];
  tag_alphanumeric : Forall (fun b => is_alphanumeric b = true) tag;
  tag_free : tag ∉ reserved_tags;
}.

Lemma lowercase_alphanumeric s :
  Forall (fun b => is_alphanumeric b = true) (lowercase s) <-> Forall (fun b => is_alphanumeric b = true) s.
Proof.
  unfold lowercase. rewrite Forall_fmap. apply Forall_iff. intros b. cbn.
  enough (is_alphanumeric (to_lower b) = is_alphanumeric b) as -> by done.
  unfold is_alphanumeric, to_lower, is_digit, is_upper, is_lower. destruct ((65 <=? b) && (b <=? 90)) eqn:E; lia.
Qed.

Lemma all_alphanumeric s : forallb is_alphanumeric s = true <-> Forall (fun b => is_alphanumeric b = true) s.
Proof. rewrite forallb_forall, Forall_forall. by setoid_rewrite list_elem_of_In. Qed.

Definition globals : list bytes :=
  [bs "LOG_LEVEL"; bs "LOG_TARGET"; bs "USER"; bs "DEBUG_MEMORY_INTERVAL_SECS"; bs "COUNTERS_INTERVAL_SECS"].

(** A variable of an entry is never taken for a global one. *)
Lemma names_parts tag p key : names tag p key -> tag_ok tag ->
  exists t q, strip_prefix PREFIX key = Some (t ++ 95 :: q) /\ split_once 95 (t ++ 95 :: q) = Some (t, q) /\
    lowercase t = tag /\ param_of (lowercase q) = Some p /\ t <> [] /\ forallb is_alphanumeric t = true /\
    (t ++ 95 :: q) ∉ globals.
Proof.
  intros (t&q&->&<-&Hq) [Hne Ha Hf]. exists t, q. rewrite lowercase_alphanumeric in Ha.
  assert (Hs : split_once 95 (t ++ 95 :: q) = Some (t, q)).
  { apply split_once_Some. split; [done|]. intros H. rewrite Forall_forall in Ha. by specialize (Ha 95 H). }
  split_and!; [by apply strip_prefix_Some|done|done|by apply param_of_Some|by intros ->| |].
  { by apply all_alphanumeric. }
  intros H. apply Hf. unfold globals in H. rewrite !elem_of_cons in H.
  destruct H as [E|[E|[E|[E|[E|H]]]]]; [rewrite E in Hs; vm_compute in Hs..|by apply elem_of_nil in H].
  all: first [discriminate Hs|injection Hs as <- <-].
  all: apply (bool_decide_unpack (_ ∈ _)); vm_compute; done.
Qed.

Lemma names_functional tag p tag' p' key :
  names tag p key -> tag_ok tag -> names tag' p' key -> tag_ok tag' -> tag = tag' /\ p = p'.
Proof.
  intros H Hok H' Hok'. destruct (names_parts _ _ _ H Hok) as (t&q&E&Es&<-&Ep&_), (names_parts _ _ _ H' Hok') as (t'&q'&E'&Es'&<-&Ep'&_).
  rewrite E in E'. injection E' as E'. rewrite E' in Es. split; congruence.
Qed.

Lemma meaning_param tag p key value : names tag p key -> tag_ok tag ->
  meaning (key, value) = v ← param_value p value key; Ok (AParam tag p v).
Proof.
  intros H Hok. destruct (names_parts _ _ _ H Hok) as (t&q&E&Es&<-&Ep&Hne&Ha&Hg). cbn [meaning]. rewrite E.
  unfold globals in Hg. rewrite !elem_of_cons in Hg.
  do 5 (rewrite (bool_decide_false (_ = bs _)) by tauto).
  rewrite Es. cbn [ok_or mbind res_bind]. rewrite (bool_decide_false (t = [])), Ha by done. cbn [negb orb].
  rewrite bool_decide_false by apply Hok. by rewrite Ep.
Qed.

(** What each assignment comes from. *)
Definition says (key value : bytes) (a : Assignment) : Prop :=
  match a with
  | ANothing => strip_prefix PREFIX key = None \/
      (key = PREFIX ++ bs "LOG_LEVEL" /\ is_Some (log_level_from_str value)) \/
      (key = PREFIX ++ bs "LOG_TARGET" /\ is_Some (log_target_from_str value))
  | AUser u => key = PREFIX ++ bs "USER" /\ run_as_from_str value = Some u
  | AMemory secs => key = PREFIX ++ bs "DEBUG_MEMORY_INTERVAL_SECS" /\ parse_uint 10 (2 ^ 64) value = Some secs
  | ACounters secs => key = PREFIX ++ bs "COUNTERS_INTERVAL_SECS" /\ parse_uint 10 (2 ^ 64) value = Some secs
  | AParam tag p v => names tag p key /\ tag_ok tag /\ param_value p value key = Ok v
  end.

Lemma env_value_Ok {T} (f : bytes -> option T) e value var v :
  env_value (parse_or e f) value var = Ok v <-> f value = Some v.
Proof. unfold env_value, parse_or. destruct (f value); cbn; split; congruence. Qed.

(** Selects the arm of a global variable. *)
Local Ltac at_global :=
  unfold meaning; rewrite (proj2 (strip_prefix_Some _ _ _) eq_refl);
  repeat match goal with
  | |- context [bool_decide (?a = ?b)] =>
      let v := eval vm_compute in (bool_decide (a = b)) in change (bool_decide (a = b)) with v; cbv iota beta
  end.

Lemma meaning_says key value a : meaning (key, value) = Ok a <-> says key value a.
Proof.
  split.
  - cbn [meaning]. destruct (strip_prefix PREFIX key) as [rest|] eqn:E; [|intros [= <-]; by left].
    apply strip_prefix_Some in E as ->.
    do 5 (case_bool_decide as E; [subst; intros (?&H%env_value_Ok&[= <-])%bind_Ok; cbn [says]; by eauto 6|clear E]).
    intros ([t q]&Hs&Hm)%bind_Ok. apply ok_or_Ok, split_once_Some in Hs as (->&_).
    destruct (_ || _) eqn:Eo in Hm; [done|]. apply orb_false_iff in Eo as (Hne&Ha).
    destruct (bool_decide (lowercase t ∈ _)) eqn:Hr; [done|]. apply bool_decide_eq_false in Hr. apply bind_Ok in Hm as (p&Hp&Hm). apply bind_Ok in Hm as (v&Hv&[= <-]).
    apply ok_or_Ok, param_of_Some in Hp. split; [by exists t, q|]. split; [|done]. apply bool_decide_eq_false in Hne.
    split; [by destruct t| |done]. apply lowercase_alphanumeric. by apply all_alphanumeric, negb_false_iff.
  - destruct a as [|u|secs|secs|tag p v]; cbn [says].
    + intros [H|[(->&l&H)|(->&l&H)]]; [cbn [meaning]; by rewrite H|at_global; rewrite (proj2 (env_value_Ok _ _ _ _ _) H); done..].
    + intros (->&H). at_global. by rewrite (proj2 (env_value_Ok _ _ _ _ _) H).
    + intros (->&H). at_global. unfold u64_from_str. by rewrite (proj2 (env_value_Ok _ _ _ _ _) H).
    + intros (->&H). at_global. unfold u64_from_str. by rewrite (proj2 (env_value_Ok _ _ _ _ _) H).
    + intros (Hn&Hok&H). by rewrite (meaning_param _ _ _ _ Hn Hok), H.
Qed.

(** A variable gives the entry [tag] the value [v] for [p]. *)
Definition given (vars : list (bytes * bytes)) (tag : bytes) (p : Param) (v : param_type p) : Prop :=
  exists key value, (key, value) ∈ vars /\ says key value (AParam tag p v).
(** A variable gives a global value. *)
Definition set_by {A} (say : A -> Assignment) (vars : list (bytes * bytes)) (o : option A) : Prop :=
  forall x, o = Some x <-> exists key value, (key, value) ∈ vars /\ says key value (say x).

(** Every variable with the prefix is understood, and no two give one field. *)
Definition rivals (u v : bytes * bytes) : Prop := exists tag p, tag_ok tag /\ names tag p u.1 /\ names tag p v.1.
Record readable (vars : list (bytes * bytes)) : Prop := {
  rd_understood : Forall (fun v => exists a, says v.1 v.2 a) vars;
  rd_once : ForallOrdPairs (fun u v => ~ rivals u v) vars;
}.

(** What the loop has read of [vars]. *)
Record reads (vars : list (bytes * bytes)) (st : EnvState) : Prop := {
  rs_slots : forall tag p v, slot p (partial_at tag st) = Some v <-> given vars tag p v;
  rs_tags : forall tag, is_Some (es_partials st !! tag) <-> exists p v, given vars tag p v;
  rs_user : set_by AUser vars (es_user st);
  rs_memory : set_by AMemory vars (es_memory st);
  rs_counters : set_by ACounters vars (es_counters st);
}.

Lemma given_snoc vars key value tag p v :
  given (vars ++ [(key, value)]) tag p v <-> given vars tag p v \/ says key value (AParam tag p v).
Proof.
  unfold given. setoid_rewrite elem_of_app. setoid_rewrite list_elem_of_singleton. split.
  - intros (k&x&[H|[= -> ->]]&Hs); eauto 6.
  - intros [(k&x&H&Hs)|Hs]; eauto 8.
Qed.

Lemma set_by_other {A} (say : A -> Assignment) vars o key value :
  set_by say vars o -> (forall x, ~ says key value (say x)) -> set_by say (vars ++ [(key, value)]) o.
Proof.
  intros H Hn x. rewrite (H x). setoid_rewrite elem_of_app. setoid_rewrite list_elem_of_singleton. split.
  - intros (k&y&Hv&Hs). eauto 6.
  - intros (k&y&[Hv|[= -> ->]]&Hs); [eauto|]. by destruct (Hn x).
Qed.

(** A global of one variable: the other variables have other names. *)
Lemma set_by_this {A} (say : A -> Assignment) vars o key value x :
  set_by say vars o -> key ∉ vars.*1 -> (forall y, says key value (say y) <-> y = x) ->
  (forall k w y, says k w (say y) -> k = key) -> set_by say (vars ++ [(key, value)]) (Some x).
Proof.
  intros H Hn Hs Hk y. setoid_rewrite elem_of_app. setoid_rewrite list_elem_of_singleton. split.
  - intros [= <-]. exists key, value. split; [by right|by apply Hs].
  - intros (k&w&[Hv|[= -> ->]]&Hy); [|apply Hs in Hy; by subst]. apply Hk in Hy as ->. destruct Hn.
    apply list_elem_of_fmap. by exists (key, w).
Qed.

(** One variable says one thing: by its name, and its value. *)
Lemma says_unique key value a b : says key value a -> says key value b -> a = b.
Proof. intros Ha%meaning_says Hb%meaning_says. congruence. Qed.

Lemma partial_slot_new tag tag' p q v st :
  slot q (partial_at tag' (set_partial tag (with_slot p (Some v) (partial_at tag st)) st)) =
  if decide (tag = tag') then slot q (with_slot p (Some v) (partial_at tag' st)) else slot q (partial_at tag' st).
Proof.
  case_decide as E; [subst; by rewrite partial_at_same|by rewrite partial_at_other].
Qed.

Lemma ordered_pairs_middle {A} (R : A -> A -> Prop) l x r y : ForallOrdPairs R (l ++ x :: r) -> y ∈ l -> R y x.
Proof.
  induction l as [|z l IH]; cbn; [by intros _ ?%elem_of_nil|]. intros H Hy. inversion_clear H as [|?? Hz Hl].
  apply elem_of_cons in Hy as [-> | Hy]; [|by apply IH]. rewrite Forall_forall in Hz. apply Hz, elem_of_app. right. left.
Qed.
Lemma ordered_pairs_snoc {A} (R : A -> A -> Prop) l x :
  ForallOrdPairs R l -> (forall y, y ∈ l -> R y x) -> ForallOrdPairs R (l ++ [x]).
Proof.
  induction 1 as [|z l Hz _ IH]; cbn; intros Hx; [by repeat constructor|].
  constructor; [|apply IH; intros y Hy; apply Hx; by right]. apply Forall_app. split; [done|].
  constructor; [apply Hx; left|constructor].
Qed.

Lemma readable_snoc vars key value a :
  readable vars -> says key value a -> (forall u, u ∈ vars -> ~ rivals u (key, value)) -> readable (vars ++ [(key, value)]).
Proof.
  intros [Hu Ho] Ha Hr. split; [|by apply ordered_pairs_snoc]. apply Forall_app. split; [done|]. constructor; [by exists a|constructor].
Qed.

Lemma rivals_param u key value tag p v : says key value (AParam tag p v) -> rivals u (key, value) -> names tag p u.1.
Proof.
  intros (Hn&Hok&_) (tag'&p'&Hok'&Hu&Hk). by destruct (names_functional _ _ _ _ _ Hn Hok Hk Hok') as [-> ->].
Qed.
Lemma rivals_says u key value a : says key value a -> rivals u (key, value) -> exists tag p v, a = AParam tag p v.
Proof.
  intros Ha (tag&p&Hok&_&Hk). apply meaning_says in Ha. rewrite (meaning_param _ _ _ _ Hk Hok) in Ha.
  apply bind_Ok in Ha as (v&_&[= <-]). eauto.
Qed.

(** A global variable of a new name. *)
Lemma readable_global vars key value a : readable vars -> says key value a -> (forall tag p v, a <> AParam tag p v) ->
  readable (vars ++ [(key, value)]).
Proof. intros Hr Ha Hn. eapply readable_snoc; [done..|]. intros u _ (tag&p&v&->)%(rivals_says _ _ _ _ Ha). by eapply Hn. Qed.

Lemma slots_global vars st st' key value a : says key value a -> (forall tag p v, a <> AParam tag p v) ->
  es_partials st' = es_partials st -> reads vars st ->
  (forall tag p v, slot p (partial_at tag st') = Some v <-> given (vars ++ [(key, value)]) tag p v) /\
  (forall tag, is_Some (es_partials st' !! tag) <-> exists p v, given (vars ++ [(key, value)]) tag p v).
Proof.
  intros Ha Hn E [Hs Ht _ _ _].
  assert (Hg : forall tag p v, given (vars ++ [(key, value)]) tag p v <-> given vars tag p v).
  { intros tag p v. rewrite given_snoc. split; [|by left]. intros [H|H]; [done|].
    by destruct (Hn tag p v (says_unique _ _ _ _ Ha H)). }
  unfold partial_at. rewrite E. split.
  - intros tag p v. rewrite Hg. apply Hs.
  - intros tag. setoid_rewrite Hg. apply Ht.
Qed.

(** The field a variable names is still free. *)
Lemma once_free vars st tag p key value v k x : reads vars st -> readable vars -> says key value (AParam tag p v) ->
  slot p (partial_at tag st) = None -> (k, x) ∈ vars -> names tag p k -> False.
Proof.
  intros Hr [Hu _] (_&Hok&_) Ep Hin Hn. rewrite Forall_forall in Hu. destruct (Hu _ Hin) as [a Ha]. cbn in Ha.
  pose proof (proj2 (meaning_says _ _ _) Ha) as Hm. rewrite (meaning_param _ _ _ _ Hn Hok) in Hm.
  apply bind_Ok in Hm as (w&Hw&[= <-]). assert (Hg : given vars tag p w) by (by exists k, x).
  apply (rs_slots _ _ Hr) in Hg. congruence.
Qed.

Lemma param_reads vars st key value tag p v : reads vars st -> says key value (AParam tag p v) ->
  slot p (partial_at tag st) = None ->
  reads (vars ++ [(key, value)]) (set_partial tag (with_slot p (Some v) (partial_at tag st)) st).
Proof.
  intros [Hs Ht Hu Hm Hc] Ha Ep. split.
  - intros tag' q w. rewrite partial_slot_new, given_snoc, <- Hs. pose proof Ha as (Hn&Hok&Hv). case_decide as E.
    + subst tag'. destruct (decide (p = q)) as [<-|Hpq].
      * rewrite slot_with_same, Ep. split; [intros [= <-]; by right|]. intros [|(_&_&Hw)]; congruence.
      * rewrite slot_with_other by done. split; [by left|]. intros [|(Hn'&Hok'&_)]; [done|].
        by destruct (names_functional _ _ _ _ _ Hn Hok Hn' Hok').
    + split; [by left|]. intros [|(Hn'&Hok'&_)]; [done|]. by destruct (names_functional _ _ _ _ _ Hn Hok Hn' Hok').
  - intros tag'. setoid_rewrite given_snoc. unfold set_partial. cbn [es_partials]. destruct (decide (tag = tag')) as [<-|E].
    + rewrite lookup_insert_eq. split; [intros _; exists p, v; by right|done].
    + rewrite lookup_insert_ne, Ht by done. split; intros (q&w&H); exists q, w; [by left|]. destruct H as [|(Hn'&Hok'&_)]; [done|].
      destruct Ha as (Hn&Hok&_). by destruct (names_functional _ _ _ _ _ Hn Hok Hn' Hok').
  - apply set_by_other; [done|]. intros x Hx. by pose proof (says_unique _ _ _ _ Ha Hx).
  - apply set_by_other; [done|]. intros x Hx. by pose proof (says_unique _ _ _ _ Ha Hx).
  - apply set_by_other; [done|]. intros x Hx. by pose proof (says_unique _ _ _ _ Ha Hx).
Qed.

(** One step of the loop, on a variable of a new name. *)
Lemma assign_reads vars st key value a rest : reads vars st -> readable vars -> key ∉ vars.*1 -> says key value a ->
  match assign key a st with
  | Ok st' => reads (vars ++ [(key, value)]) st' /\ readable (vars ++ [(key, value)])
  | Err _ => ~ readable (vars ++ (key, value) :: rest)
  | Panic => False
  end.
Proof.
  intros Hr Hrd Hk Ha. pose proof Hr as [Hs Ht Hu Hm Hc].
  assert (Hother : forall {A} (say : A -> Assignment) o, set_by say vars o -> (forall x, a <> say x) ->
    set_by say (vars ++ [(key, value)]) o).
  { intros A say o H Hn. apply set_by_other; [done|]. intros x Hx. by apply (Hn x), (says_unique key value). }
  destruct a as [|u|secs|secs|tag p v]; cbn [assign].
  1-4: split; [|by eapply readable_global].
  1-4: match goal with |- reads _ ?st' => destruct (slots_global vars st st' key value _ Ha ltac:(done) eq_refl Hr) end.
  1-4: split; try done; try (by apply Hother).
  - eapply set_by_this; [done..| |]; [|by intros k w y [-> _]; destruct Ha as [-> _]].
    intros y. split; [|by intros ->]. intros Hy. by injection (says_unique _ _ _ _ Ha Hy).
  - eapply set_by_this; [done..| |]; [|by intros k w y [-> _]; destruct Ha as [-> _]].
    intros y. split; [|by intros ->]. intros Hy. by injection (says_unique _ _ _ _ Ha Hy).
  - eapply set_by_this; [done..| |]; [|by intros k w y [-> _]; destruct Ha as [-> _]].
    intros y. split; [|by intros ->]. intros Hy. by injection (says_unique _ _ _ _ Ha Hy).
  - destruct (slot p (partial_at tag st)) as [w|] eqn:Ep; cbn [put mbind res_bind].
    + intros [_ Ho]. apply Hs in Ep as (k&x&Hin&Hx). apply (ordered_pairs_middle _ _ _ _ _ Ho Hin).
      exists tag, p. split_and!; [apply Ha|apply Hx|apply Ha].
    + split; [by apply param_reads|]. eapply readable_snoc; [done..|]. intros [k x] Hin Hri.
      pose proof (rivals_param _ _ _ _ _ _ Ha Hri) as Hn. apply (once_free vars st tag p key value v k x); done.
Qed.

Lemma env_vars_reads rest : forall vars st, reads vars st -> readable vars -> NoDup (vars ++ rest).*1 ->
  match env_vars st rest with
  | Ok st' => reads (vars ++ rest) st' /\ readable (vars ++ rest)
  | Err _ => ~ readable (vars ++ rest)
  | Panic => False
  end.
Proof.
  induction rest as [|[key value] rest IH]; intros vars st Hr Hrd Hnd; cbn [env_vars]; [by rewrite app_nil_r|].
  rewrite env_var_assigns. destruct (meaning (key, value)) as [a|e|] eqn:Em; cbn [mbind res_bind fst].
  - assert (Hk : key ∉ vars.*1).
    { rewrite fmap_app in Hnd. apply NoDup_app in Hnd as (_&Hd&_). intros Hin. apply (Hd key Hin). left. }
    apply meaning_says in Em. pose proof (assign_reads vars st key value a rest Hr Hrd Hk Em) as H.
    destruct (assign key a st) as [st'|e|]; cbn [mbind res_bind]; [|done..]. destruct H as [H1 H2].
    rewrite (cons_middle (key, value) vars rest), app_assoc in Hnd |- *. by apply IH.
  - intros [Hu _]. apply Forall_app in Hu as [_ Hu]. apply Forall_cons in Hu as [[a Ha] _].
    apply (proj2 (meaning_says key value a)) in Ha. congruence.
  - by apply (meaning_safe (key, value)).
Qed.

Lemma reads_start : reads [] env_start.
Proof.
  split; cbn.
  - intros tag p v. unfold partial_at. cbn. rewrite lookup_empty. cbn. rewrite slot_default. split; [done|].
    by intros (?&?&?%elem_of_nil&_).
  - intros tag. rewrite lookup_empty. split; [by intros []|]. by intros (?&?&?&?&?%elem_of_nil&_).
  - intros u. split; [done|]. by intros (?&?&?%elem_of_nil&_).
  - intros u. split; [done|]. by intros (?&?&?%elem_of_nil&_).
  - intros u. split; [done|]. by intros (?&?&?%elem_of_nil&_).
Qed.

(** ** The entries *)

Lemma bt_iter_elem {V} (m : BTreeMap V) key v : (key, v) ∈ bt_iter m <-> m !! key = Some v.
Proof. unfold bt_iter. rewrite merge_sort_Permutation. apply elem_of_map_to_list. Qed.
Lemma bt_iter_keys {V} (m : BTreeMap V) : NoDup (bt_iter m).*1.
Proof. unfold bt_iter. rewrite merge_sort_Permutation. apply NoDup_fst_map_to_list. Qed.

(** A field of a raw entry, and what an absent one is. *)
Definition raw_field (p : Param) (r : RawReflector) : option (param_type p) :=
  match p with
  | EName => raw_name r | ESourceIf => Some (raw_source_if r) | ETargetIf => Some (raw_target_if r)
  | ESourcePeers => raw_source_peers r | ETargetPeers => raw_target_peers r | EMacs => raw_macs r
  | EWol => Some (raw_wol r) | EMdns => Some (raw_mdns r) | EMdnsServices => raw_mdns_services r
  | ESsdp => Some (raw_ssdp r) | EDial => Some (raw_dial r) | EWsd => Some (raw_wsd r)
  | EBidirectional => Some (raw_bidirectional r) | EWolPorts => raw_wol_ports r | EUdpPorts => raw_udp_ports r
  | EUdpGroups => raw_udp_groups r | EUdpBroadcast => Some (raw_udp_broadcast r)
  | EAddressFamily => Some (raw_address_family r)
  end.
Definition default_field (p : Param) : option (param_type p) :=
  match p with
  | EWol | EMdns | ESsdp | EDial | EWsd | EBidirectional | EUdpBroadcast => Some false
  | EAddressFamily => Some FDefault
  | _ => None
  end.

Lemma into_raw_fields r tag :
  match into_raw r tag with
  | Ok raw => forall p, raw_field p raw = opt_or (slot p r) (default_field p)
  | Err _ => p_source_if r = None \/ p_target_if r = None
  | Panic => False
  end.
Proof.
  unfold into_raw. destruct r as [? [s|] [t|]]; cbn [ok_or mbind res_bind p_source_if p_target_if]; [|auto..].
  intros p. destruct p; cbn; try done; unfold opt_or; by case_match.
Qed.

Lemma into_raws_spec l : forall m, NoDup l.*1 ->
  match into_raws l m with
  | Ok m' => (forall tag r, (tag, r) ∈ l -> exists raw, into_raw r tag = Ok raw /\ m' !! tag = Some raw) /\
             (forall tag, tag ∉ l.*1 -> m' !! tag = m !! tag)
  | Err _ => exists tag r, (tag, r) ∈ l /\ (p_source_if r = None \/ p_target_if r = None)
  | Panic => False
  end.
Proof.
  induction l as [|[tag r] l IH]; intros m Hnd; cbn [into_raws].
  - split; [by intros ?? ?%elem_of_nil|done].
  - apply NoDup_cons in Hnd as [Hn Hnd]. pose proof (into_raw_fields r tag) as Hf.
    destruct (into_raw r tag) as [raw|e|] eqn:E; cbn [mbind res_bind]; [|by exists tag, r; split; [left|]|done].
    specialize (IH (<[tag:=raw]> m) Hnd). destruct (into_raws l _) as [m'|e|]; [|..].
    + destruct IH as [H1 H2]. split.
      * intros tag' r' [[= -> ->]|H]%elem_of_cons; [|by apply H1]. exists raw. split; [done|].
        rewrite H2 by done. apply lookup_insert_eq.
      * intros tag' [Hne Hl]%not_elem_of_cons. rewrite H2 by done. by apply lookup_insert_ne.
    + destruct IH as (tag'&r'&H&Hno). exists tag', r'. split; [by right|done].
    + done.
Qed.

(** Every entry is given both its interfaces. *)
Definition whole (vars : list (bytes * bytes)) : Prop := forall tag p v, given vars tag p v ->
  (exists i, given vars tag ESourceIf i) /\ (exists i, given vars tag ETargetIf i).

(** The configuration the variables describe. *)
Record described (vars : list (bytes * bytes)) (raw : RawConfig) : Prop := {
  de_user : set_by AUser vars (rc_user raw);
  de_memory : set_by AMemory vars (rc_debug_memory_interval_secs raw);
  de_counters : set_by ACounters vars (rc_counters_interval_secs raw);
  de_entries : forall tag, is_Some (rc_reflectors raw !! tag) <-> exists p v, given vars tag p v;
  de_given : forall tag r p v, rc_reflectors raw !! tag = Some r -> given vars tag p v -> raw_field p r = Some v;
  de_default : forall tag r p, rc_reflectors raw !! tag = Some r -> (forall v, ~ given vars tag p v) ->
    raw_field p r = default_field p;
}.

Lemma reads_described vars st m : reads vars st -> into_raws (bt_iter (es_partials st)) ∅ = Ok m ->
  described vars {| rc_user := es_user st; rc_debug_memory_interval_secs := es_memory st;
    rc_counters_interval_secs := es_counters st; rc_reflectors := m |}.
Proof.
  intros [Hs Ht Hu Hm Hc] E. pose proof (into_raws_spec _ ∅ (bt_iter_keys (es_partials st))) as H. rewrite E in H.
  destruct H as [H1 H2].
  assert (Hd : forall tag, is_Some (m !! tag) <-> is_Some (es_partials st !! tag)).
  { intros tag. destruct (es_partials st !! tag) as [r|] eqn:Er.
    - split; [done|]. intros _. apply bt_iter_elem, H1 in Er as (raw&_&->). done.
    - rewrite H2, lookup_empty; [done|]. intros ([k r]&->&Hk%bt_iter_elem)%list_elem_of_fmap. cbn in *. congruence. }
  assert (Hf : forall tag r p, m !! tag = Some r -> raw_field p r = opt_or (slot p (partial_at tag st)) (default_field p)).
  { intros tag r p Hr. destruct (proj1 (Hd tag) (mk_is_Some _ _ Hr)) as [q Hq]. pose proof Hq as Hq'.
    apply bt_iter_elem, H1 in Hq' as (raw&Hraw&Hm'). unfold partial_at. rewrite Hq. cbn [default].
    pose proof (into_raw_fields q tag) as Hi. rewrite Hraw in Hi. rewrite Hr in Hm'. injection Hm' as ->. apply Hi. }
  split; cbn; try done.
  - intros tag. by rewrite Hd, Ht.
  - intros tag r p v Hr Hg%Hs. by rewrite (Hf _ _ p Hr), Hg.
  - intros tag r p Hr Hg. rewrite (Hf _ _ p Hr). destruct (slot p _) as [v|] eqn:Ev; [|done]. by apply Hs, Hg in Ev.
Qed.

(** A field with no default of its own was given. *)
Lemma field_given vars st tag r p : reads vars st -> described vars r -> default_field p = None ->
  forall e v, rc_reflectors r !! tag = Some e -> raw_field p e = Some v -> exists v, given vars tag p v.
Proof.
  intros Hr Hd Hp e v He Hv. destruct (slot p (partial_at tag st)) as [w|] eqn:E.
  - exists w. by apply (rs_slots _ _ Hr).
  - enough (raw_field p e = default_field p) by congruence. apply (de_default _ _ Hd tag); [done|].
    intros w Hw. apply (rs_slots _ _ Hr) in Hw. congruence.
Qed.

(** C22. The environment is read exactly.  It is accepted when, and only when,
    every variable with the prefix is understood (a global with a value, or a
    field of an entry with a value of its type), no two give one field of one
    entry, and every entry named is given both its interfaces; the reader never
    panics.  The configuration is then the one described: each global and each
    field is what its variable says, whatever the case of the variable's name,
    and a field no variable names has its default. *)
Theorem env_read_exactly vars : NoDup vars.*1 ->
  match parse_env vars with
  | Ok raw => readable vars /\ whole vars /\ described vars raw
  | Err _ => ~ (readable vars /\ whole vars)
  | Panic => False
  end.
Proof.
  intros Hnd. assert (Hr0 : readable []) by (split; constructor).
  pose proof (env_vars_reads vars [] env_start reads_start Hr0 Hnd) as H. cbn [app] in H. unfold parse_env.
  destruct (env_vars env_start vars) as [st|e|]; cbn [mbind res_bind]; [|by intros [? _]|done]. destruct H as [Hr Hrd].
  pose proof (into_raws_spec _ ∅ (bt_iter_keys (es_partials st))) as Hi.
  destruct (into_raws (bt_iter (es_partials st)) ∅) as [m|e|] eqn:E; cbn [mbind res_bind]; [|..|done].
  - split; [done|]. pose proof (reads_described _ _ _ Hr E) as Hd. split; [|done]. intros tag p v Hg.
    destruct (proj2 (de_entries _ _ Hd tag) (ex_intro _ p (ex_intro _ v Hg))) as [r Hr'].
    split; [exact (field_given _ _ tag _ ESourceIf Hr Hd eq_refl r _ Hr' eq_refl)|].
    exact (field_given _ _ tag _ ETargetIf Hr Hd eq_refl r _ Hr' eq_refl).
  - intros [_ Hw]. destruct Hi as (tag&r&Hin%bt_iter_elem&Hno).
    destruct (proj1 (rs_tags _ _ Hr tag)) as (p&v&Hg); [by rewrite Hin|]. apply Hw in Hg as [[i Hi] [j Hj]].
    apply (rs_slots _ _ Hr) in Hi, Hj. unfold partial_at in Hi, Hj. rewrite Hin in Hi, Hj. cbn in Hi, Hj. destruct Hno; congruence.
Qed.

Definition env_example : list (bytes * bytes) :=
  [(bs "PATH", bs "/bin"); (bs "NETFLECTOR_USER", bs "nobody"); (bs "NETFLECTOR_Tv_SOURCE_IF", bs "lan0");
   (bs "NETFLECTOR_TV_target_if", bs "iot0"); (bs "NETFLECTOR_TV_MDNS", bs "TRUE")].

Lemma env_read_exactly_witness :
  match parse_env env_example with
  | Ok raw => readable env_example /\ whole env_example /\ described env_example raw /\
      raw_mdns <$> rc_reflectors raw !! bs "tv" = Some true
  | _ => False
  end.
Proof.
  assert (Hnd : NoDup env_example.*1) by (apply (bool_decide_unpack (NoDup _)); vm_compute; exact I).
  pose proof (env_read_exactly env_example Hnd) as H.
  assert (E : match parse_env env_example with Ok raw => raw_mdns <$> rc_reflectors raw !! bs "tv" = Some true | _ => False end)
    by (vm_compute; reflexivity).
  revert E H. generalize (parse_env env_example). intros [raw|e|]; [|done..]. intros E (?&?&?). done.
Defined.

Lemma env_order_irrelevant_witness :
  match parse_env env_example, parse_env (reverse env_example) with Ok raw, Ok raw' => raw = raw' | _, _ => False end.
Proof.
  assert (Hnd : NoDup env_example.*1) by (apply (bool_decide_unpack (NoDup _)); vm_compute; exact I).
  pose proof (env_order_irrelevant env_example (reverse env_example) (symmetry (reverse_Permutation env_example)) Hnd) as H.
  assert (E : match parse_env env_example with Ok _ => True | _ => False end) by (vm_compute; exact I).
  revert E H. generalize (parse_env env_example) (parse_env (reverse env_example)). intros [raw|e|] [raw'|e'|]; done.
Defined.
