(* ===== verification/ConfigLoad.v ===== *)
(** The configuration as it is loaded: from a file, the environment or both,
    through the merge and the validation, to entries whose values are all what
    their types promise. *)

From stdpp Require Import gmap sorting.
From S2P Require Import Prelude Text Addr UniqueList Mac Names Value Ssdp Wsd Mdns ConfigError Conflict.
From S2P Require Import Config ConfigSpec Env.

Local Open Scope Z_scope.

(** What the type of a parameter promises of its values. *)
Definition value_ok (p : Param) : param_type p -> Prop :=
  match p with
  | ESourceIf | ETargetIf => interface_name_ok
  | ESourcePeers | ETargetPeers => peers_ok
  | EMacs => macs_ok
  | EMdnsServices => services_ok
  | EWolPorts | EUdpPorts => ports_ok
  | EUdpGroups => groups_ok
  | EName | EAddressFamily | EWol | EMdns | ESsdp | EDial | EWsd | EBidirectional | EUdpBroadcast => fun _ => True
  end.

Lemma list_from_str_ok {T} `{ListRule T} s l : list_from_str s = Ok l -> unique_list_ok l.
Proof. unfold list_from_str. intros (items&_&[-> Hok]%try_from_Ok)%bind_Ok. done. Qed.
Lemma interface_from_str_ok s n : interface_name_from_str s = Ok n -> interface_name_ok n.
Proof. by intros [-> H]%interface_name_from_str_Ok. Qed.

Lemma param_value_ok p value var v : param_value p value var = Ok v -> value_ok p v.
Proof.
  unfold env_value. destruct p; cbn [param_value value_ok]; try done; intros H%map_err_Ok%map_err_Ok.
  all: first [by eapply interface_from_str_ok|by eapply list_from_str_ok].
Qed.

(** ** Through the environment *)

Definition partial_typed (r : PartialReflector) : Prop := forall p v, slot p r = Some v -> value_ok p v.
Definition state_typed (st : EnvState) : Prop := forall tag, partial_typed (partial_at tag st).

Lemma env_vars_typed vars st st' : state_typed st -> env_vars st vars = Ok st' -> state_typed st'.
Proof.
  revert st. induction vars as [|[key value] vars IH]; intros st Hst; cbn [env_vars]; [by intros [= <-]|].
  intros (st1&H1&H2)%bind_Ok. apply (IH st1); [|done]. clear H2 IH. rewrite env_var_assigns in H1.
  apply bind_Ok in H1 as (a&Ha%meaning_says&H1). destruct a as [|u|s|s|tag p v]; cbn [assign fst] in H1;
    [by injection H1 as <-..|]. destruct (slot p (partial_at tag st)) eqn:Ep; [done|]. injection H1 as <-.
  intros tag' q w. rewrite partial_slot_new. case_decide as E; [|apply Hst]. destruct (decide (p = q)) as [<-|Hpq].
  - rewrite slot_with_same. intros [= <-]. destruct Ha as (_&_&Hv). by eapply param_value_ok.
  - rewrite slot_with_other by done. apply Hst.
Qed.

(** A raw entry whose values are what their types promise. *)
Definition raw_typed (r : RawReflector) : Prop := forall p v, raw_field p r = Some v -> value_ok p v.
Definition raws_typed (m : BTreeMap RawReflector) : Prop := map_Forall (fun _ => raw_typed) m.

Lemma raw_typed_lists r : raw_typed r -> raw_lists_ok r.
Proof.
  intros H. split; intros l Hl.
  - exact (H EMacs l Hl).
  - exact (H EWolPorts l Hl).
  - exact (H EUdpPorts l Hl).
  - exact (H EUdpGroups l Hl).
  - exact (H EMdnsServices l Hl).
  - exact (H ESourcePeers l Hl).
  - exact (H ETargetPeers l Hl).
Qed.

Lemma default_field_ok p v : default_field p = Some v -> value_ok p v.
Proof. by destruct p. Qed.

Lemma into_raws_typed l : forall m m', Forall (fun e => partial_typed e.2) l -> raws_typed m ->
  into_raws l m = Ok m' -> raws_typed m'.
Proof.
  induction l as [|[tag r] l IH]; intros m m' Hl Hm; cbn [into_raws]; [by intros [= <-]|].
  apply Forall_cons in Hl as [Hr Hl]. intros (raw&E&H)%bind_Ok. eapply IH; [done| |exact H].
  apply map_Forall_insert_2; [|done]. pose proof (into_raw_fields r tag) as Hf. rewrite E in Hf.
  intros p v. rewrite Hf. unfold opt_or. destruct (slot p r) as [w|] eqn:Ep; [intros [= <-]; by apply Hr|apply default_field_ok].
Qed.

Lemma parse_env_typed vars raw : parse_env vars = Ok raw -> raws_typed (rc_reflectors raw).
Proof.
  intros (st&Hst&(m&Hm&[= <-])%bind_Ok)%bind_Ok. cbn. eapply into_raws_typed; [|apply map_Forall_empty|exact Hm].
  apply env_vars_typed in Hst; [|intros tag p v; unfold partial_at; cbn; rewrite lookup_empty; cbn; by rewrite slot_default].
  apply Forall_forall. intros [tag r] Hin%bt_iter_elem. specialize (Hst tag). unfold partial_at in Hst. by rewrite Hin in Hst.
Qed.

Lemma parse_env_safe vars : safe (parse_env vars).
Proof. apply bind_safe; [apply env_vars_safe|]. intros st _. apply complete_safe. Qed.

(** ** Through the file *)

(** A reading that cannot panic, and what it promises of a value. *)
Definition reads {E A} (P : A -> Prop) (r : res E A) : Prop :=
  match r with Ok a => P a | Err _ => True | Panic => False end.
Lemma reads_bind {E A B} (P : A -> Prop) (Q : B -> Prop) (r : res E A) (f : A -> res E B) :
  reads P r -> (forall a, P a -> reads Q (f a)) -> reads Q (r ≫= f).
Proof. destruct r; cbn; auto. Qed.
Lemma reads_ok_or {E A} (o : option A) (e : E) : reads (fun _ => True) (ok_or o e).
Proof. by destruct o. Qed.
Lemma reads_map_err {E E' A} (P : A -> Prop) (f : E -> E') (r : res E A) : reads P r -> reads P (map_err f r).
Proof. by destruct r. Qed.
Lemma reads_opt {W A} (P : A -> Prop) (d : W -> res SerdeError A) v :
  (forall w, reads P (d w)) -> reads (fun o => forall a, o = Some a -> P a) (opt_deserialize d v).
Proof. intros H. destruct v as [w|]; [|done]. specialize (H w). cbn. destruct (d w); [|done..]. by intros ? [= <-]. Qed.

Lemma interface_reads s : reads interface_name_ok (interface_name_deserialize s).
Proof.
  apply reads_map_err. pose proof (interface_from_str_safe s) as H.
  destruct (interface_name_from_str s) eqn:E; [by eapply interface_from_str_ok|done..].
Qed.
Lemma vec_reads {W A} (d : W -> res SerdeError A) values :
  (forall w, reads (fun _ => True) (d w)) -> reads (fun _ => True) (vec_deserialize d values).
Proof.
  intros Hd. induction values as [|v values IH]; [done|]. eapply reads_bind; [apply Hd|]. intros item _.
  eapply reads_bind; [apply IH|done].
Qed.
Lemma list_reads {T} `{ListRule T} items :
  reads (fun _ => True) items -> reads unique_list_ok (list_deserialize items).
Proof.
  intros Hi. eapply reads_bind; [exact Hi|]. intros l _. apply reads_map_err. pose proof (try_from_safe l) as Hs.
  destruct (try_from l) eqn:E; [|done..]. by apply try_from_Ok in E as [-> ?].
Qed.

Lemma addresses_list_read R items : reads (unique_list_ok (H := R)) (addresses_deserialize R items).
Proof. by apply (list_reads (H := R)). Qed.
Lemma ports_read items : reads ports_ok (ports_deserialize items).
Proof. by apply (list_reads (H := Ports)). Qed.
Lemma macs_read items : reads macs_ok (macs_deserialize items).
Proof. apply (list_reads (H := Macs)), vec_reads. intros s. apply reads_ok_or. Qed.
Lemma services_read items : reads services_ok (services_deserialize items).
Proof. apply (list_reads (H := Services)), vec_reads. intros s. apply reads_ok_or. Qed.

Ltac field_reads :=
  first [apply interface_reads | apply reads_opt; intros ?;
         first [apply addresses_list_read | apply ports_read | apply macs_read | apply services_read | apply reads_ok_or]].

Lemma raw_reflector_reads t : reads raw_typed (raw_reflector_deserialize t).
Proof.
  unfold raw_reflector_deserialize. do 10 (eapply reads_bind; [field_reads|intros ? ?]).
  intros p v E. destruct p; cbn in E |- *; unfold peers_ok, groups_ok; first [done | by eauto | by injection E as <-].
Qed.
Lemma map_reads tables : forall m, raws_typed m -> reads raws_typed (map_deserialize tables m).
Proof.
  induction tables as [|[key t] tables IH]; intros m Hm; [done|].
  eapply reads_bind; [apply raw_reflector_reads|]. intros r Hr. apply IH. by apply map_Forall_insert_2.
Qed.
Lemma raw_config_reads t : reads (fun raw => raws_typed (rc_reflectors raw)) (raw_config_deserialize t).
Proof.
  unfold raw_config_deserialize. do 3 (eapply reads_bind; [field_reads|intros ? ?]).
  eapply reads_bind; [apply map_reads, map_Forall_empty|done].
Qed.
Lemma from_toml_reads {W T} (P : T -> Prop) (reader : bytes -> option W) d text :
  (forall w, reads P (d w)) -> reads P (from_toml reader d text).
Proof. intros H. eapply reads_bind; [apply reads_ok_or|]. intros w _. apply reads_map_err, H. Qed.

(** ** Through the merge and the validation *)

Lemma merge_reflectors_safe env : forall mine, safe (merge_reflectors mine env).
Proof. induction env as [|[name r] env IH]; intros mine; [done|]. cbn [merge_reflectors]. by destruct (existsb _ _). Qed.
Lemma merge_reflectors_typed env : forall mine m, raws_typed mine -> Forall (fun e => raw_typed e.2) env ->
  merge_reflectors mine env = Ok m -> raws_typed m.
Proof.
  induction env as [|[name r] env IH]; intros mine m Hm He; cbn [merge_reflectors]; [by intros [= <-]|].
  apply Forall_cons in He as [Hr He]. destruct (existsb _ _); [done|]. apply IH; [|done]. by apply map_Forall_insert_2.
Qed.
Lemma iter_typed m : raws_typed m -> Forall (fun e => raw_typed e.2) (bt_iter m).
Proof. intros H. apply Forall_forall. intros [k r] Hin%bt_iter_elem. by apply (H k). Qed.

(** What a loaded entry promises. *)
Record loaded_ok (r : Reflector) : Prop := {
  lo_valid : entry_valid r;
  lo_source : interface_name_ok (source_if r);
  lo_target : interface_name_ok (target_if r);
}.

Lemma try_reflectors_ok l : Forall (fun e => raw_typed e.2) l ->
  match try_reflectors l with Ok rs => Forall loaded_ok rs | Err _ => True | Panic => False end.
Proof.
  induction 1 as [|[key r] l Hr _ IH]; cbn [try_reflectors]; [constructor|].
  pose proof (reflector_try_from_safe key r) as Hs. destruct (reflector_try_from key r) as [x|e|] eqn:E; cbn; [|done..].
  destruct (try_reflectors l) as [rs|e|]; cbn; [|done..]. constructor; [|done].
  apply (reflector_try_from_described key r x (raw_typed_lists r Hr)) in E as (n&_&->&_&Hv).
  split; [done|exact (Hr ESourceIf _ eq_refl)|exact (Hr ETargetIf _ eq_refl)].
Qed.

Lemma check_against_safe a later : safe (check_against a later).
Proof. induction later; [done|]. cbn [check_against]. repeat case_match; done. Qed.
Lemma check_conflicts_safe rs : safe (check_conflicts rs).
Proof. induction rs; [done|]. apply bind_safe; [apply check_against_safe|done]. Qed.

(** The interval of a report, never zero nor beyond the bound. *)
Definition interval_ok (secs : option Z) : Prop := forall s, secs = Some s -> 0 < s <= MAX_INTERVAL_SECS.
Lemma interval_from_ok secs field :
  match interval_from secs field with Ok o => interval_ok o | Err _ => True | Panic => False end.
Proof.
  unfold interval_from, interval_ok. destruct secs as [s|]; [|done]. destruct (MAX_INTERVAL_SECS <? s) eqn:E; [done|].
  destruct (0 <? s) eqn:E'; [|done]. intros t [= <-]. lia.
Qed.

Definition loaded (c : Config) : Prop :=
  reflectors c <> [] /\ Forall loaded_ok (reflectors c) /\ check_conflicts (reflectors c) = Ok () /\
  interval_ok (debug_memory_interval c) /\ interval_ok (counter_interval c).

Lemma config_try_from_ok raw : raws_typed (rc_reflectors raw) ->
  match config_try_from raw with Ok c => loaded c | Err _ => True | Panic => False end.
Proof.
  intros Hm. unfold config_try_from. pose proof (try_reflectors_ok _ (iter_typed _ Hm)) as Hr.
  destruct (try_reflectors _) as [rs|e|]; cbn [mbind res_bind]; [|done..].
  case_bool_decide as Hne; cbn [reject_if mbind res_bind]; [done|]. pose proof (check_conflicts_safe rs) as Hcs.
  destruct (check_conflicts rs) as [[]|e|] eqn:Ec; cbn [mbind res_bind]; [|done..].
  pose proof (interval_from_ok (rc_debug_memory_interval_secs raw) (bs "debug_memory_interval_secs")) as Hi.
  destruct (interval_from _ _); cbn [mbind res_bind]; [|done..].
  pose proof (interval_from_ok (rc_counters_interval_secs raw) (bs "counters_interval_secs")) as Hj.
  by destruct (interval_from _ _).
Qed.

(** C21. A configuration that loads is a valid one.  Whatever keys the TOML reader
    finds in the file, or if it refuses it, and whatever the environment holds,
    loading them never panics, and the configuration it gives has only entries
    the validation accepts, of interface names the kernel can be given and lists
    free of duplicates and refused values, no two in conflict, at least one, and
    report intervals within their bounds. *)
Theorem loaded_config_valid toml_from_str toml_text env :
  match from_sources toml_from_str toml_text env with
  | Ok c => loaded c
  | Err _ => True
  | Panic => False
  end.
Proof.
  apply (reads_bind (fun raw => raws_typed (rc_reflectors raw))).
  { destruct toml_text; [|apply map_Forall_empty]. apply from_toml_reads, raw_config_reads. }
  intros raw Hraw. apply (reads_bind (fun raw => raws_typed (rc_reflectors raw))).
  { pose proof (parse_env_safe env) as Hs. destruct (parse_env env) eqn:Ee; [by eapply parse_env_typed|done..]. }
  intros env_raw Henv. apply (reads_bind (fun raw => raws_typed (rc_reflectors raw))).
  - eapply reads_bind; [|intros m Hm; exact Hm].
    pose proof (merge_reflectors_safe (bt_iter (rc_reflectors env_raw)) (rc_reflectors raw)) as Hs.
    destruct (merge_reflectors _ _) as [m|e|] eqn:Em; [|done..].
    by eapply merge_reflectors_typed; [|apply iter_typed|exact Em].
  - intros merged. apply config_try_from_ok.
Qed.

(** A reader that knows one file: two entries, one of them with lists of its own. *)
Definition file_example : TomlConfig :=
  let entry macs services ports groups :=
    {| toml_source_if := bs "lan0"; toml_target_if := bs "iot0"; toml_source_peers := None; toml_target_peers := None;
       toml_macs := macs; toml_address_family := Some (bs "IPv4"); toml_wol := None; toml_wol_ports := None;
       toml_mdns := Some (bool_decide (is_Some services)); toml_mdns_services := services; toml_ssdp := None;
       toml_dial := None; toml_wsd := None; toml_bidirectional := None; toml_udp_ports := ports;
       toml_udp_groups := groups; toml_udp_broadcast := None |} in
  {| toml_log_level := Some (bs "debug"); toml_log_target := None; toml_user := Some (bs "nobody:nogroup");
     toml_debug_memory_interval_secs := Some 0; toml_counters_interval_secs := Some 60;
     toml_reflectors :=
       [(bs "Cast", entry (Some [bs "02:00:5e:10:ab:ff"]) (Some [bs "_googlecast._tcp"]) None None);
        (bs "Relay", entry None None (Some [9003; 32412]) (Some [V4 (239 * 2 ^ 24 + 255 * 2 ^ 16 + 258)]))] |}.
Definition reader_example (text : bytes) : option TomlConfig :=
  if bool_decide (text = bs "# the example") then Some file_example else None.
Definition env_more : list (bytes * bytes) :=
  [(bs "NETFLECTOR_TV_SOURCE_IF", bs "lan0"); (bs "NETFLECTOR_TV_TARGET_IF", bs "iot1");
   (bs "NETFLECTOR_TV_WSD", bs "true")].

(** The file and the environment together; a list of the file with one element
    twice is refused, as is a file that does not read. *)
Lemma loaded_config_valid_witness :
  match from_sources reader_example (Some (bs "# the example")) env_more with
  | Ok c => loaded c /\ map (fun r => rn_str (name r)) (reflectors c) = [bs "cast"; bs "relay"; bs "tv"] /\
      counter_interval c = Some 60 /\ debug_memory_interval c = None
  | _ => False
  end /\
  ports_deserialize [9003; 9003] = Err Custom /\
  from_sources reader_example (Some (bs "reflectors = 1")) env_more = Err Parse.
Proof.
  split; [|by vm_compute].
  pose proof (loaded_config_valid reader_example (Some (bs "# the example")) env_more) as H.
  assert (E : match from_sources reader_example (Some (bs "# the example")) env_more with
              | Ok c => map (fun r => rn_str (name r)) (reflectors c) = [bs "cast"; bs "relay"; bs "tv"] /\
                  counter_interval c = Some 60 /\ debug_memory_interval c = None
              | _ => False end) by (vm_compute; split_and!; reflexivity).
  revert E H. generalize (from_sources reader_example (Some (bs "# the example")) env_more).
  intros [c|e|]; [|done..]. intros (?&?&?) ?. split_and!; done.
Defined.
