(* ===== verification/Privileges.v ===== *)
(** Dropping root ([src/privileges.rs] and [src/privileges/caps.rs]): the
    account resolved, the switch to it, and what Linux capabilities survive.
    The process's identity and the account database are asked of the operating
    system, whose calls are the class [Process]. *)

From S2P Require Import Prelude Effect Text Addr Names Interface Kernel Tcp Value.

Local Open Scope Z_scope.

(** [Credentials] *)
Record Credentials : Type := { uid : Z; gid : Z }.
Global Instance Credentials_eq_dec : EqDecision Credentials.
Proof. solve_decision. Defined.

(** [PrivilegeError]: a step by its name *)
Inductive PrivilegeError : Type :=
  | UnknownUser (name : bytes)
  | UnknownGroup (name : bytes)
  | NoPrimaryGroup (uid : Z)
  | PrivilegedAccount
  | NotRoot (uid : Z)
  | LookupFailed (source : IoError)
  | DropFailed (step : bytes) (source : IoError)
  | StillPrivileged
  | NewPrivilegesAllowed
  | CapabilitiesSurvived
  | Withheld (name : bytes).

(** [Switch], [DialPin] and [Outcome] *)
Inductive Switch : Type := Dropped | AlreadyThatAccount.
Inductive DialPin : Type := NoDial | Unprivileged | KeptNetRaw | NotHeld.
Global Instance DialPin_eq_dec : EqDecision DialPin.
Proof. solve_decision. Defined.
Record Outcome : Type := { oc_switch : Switch; oc_dial_pin : DialPin }.

(** ** Capability sets, bit [n] for capability [n] *)
Definition CapSet : Type := Z.
Definition CAP_SETGID : Z := 6.
Definition CAP_SETUID : Z := 7.
Definition CAP_NET_RAW : Z := 13.
Definition cap_of (capability : Z) : CapSet := Z.shiftl 1 capability.
Definition cap_with (s other : CapSet) : CapSet := Z.lor s other.
Definition cap_within (s other : CapSet) : CapSet := Z.land s other.
Definition cap_contains (s other : CapSet) : bool := Z.land s other =? other.

(** [Sets], and [Data]: the kernel's form in halves of 32 bits *)
Record Sets : Type := { st_effective : CapSet; st_permitted : CapSet; st_inheritable : CapSet }.
Global Instance Sets_eq_dec : EqDecision Sets.
Proof. solve_decision. Defined.
Definition only (s : CapSet) : Sets := {| st_effective := s; st_permitted := s; st_inheritable := 0 |}.
Record CapData : Type := { cd_effective : Z; cd_permitted : Z; cd_inheritable : Z }.

(** The errnos the account lookup tells apart. *)
Record LookupErrnos : Type := { ERANGE : Z; ENOENT : Z; ESRCH : Z; EBADF : Z; EPERM : Z }.

(** The identity of the process, which reading does not change, and the calls
    that change it; the account database. *)
Class Process (W : Type) : Type := {
  lookup_errnos : LookupErrnos;
  geteuid : W -> Z; getegid : W -> Z; getuid : W -> Z; getgid : W -> Z;
  setgroups : list Z -> Sys W ();
  setgid : Z -> Sys W (); setegid : Z -> Sys W (); setuid : Z -> Sys W (); seteuid : Z -> Sys W ();
  (** [prctl(PR_SET_NO_NEW_PRIVS)] or [procctl(PROC_NO_NEW_PRIVS_CTL)], and the queries *)
  enable_no_new_privs : Sys W ();
  query_no_new_privs : Sys W Z;
  PROC_NO_NEW_PRIVS_ENABLE : Z;
  capget : Sys W (CapData * CapData);
  capset : CapData -> CapData -> Sys W ();
  (** [prctl(PR_SET_KEEPCAPS)] *)
  keep_caps : Z -> Sys W ();
  (** a blocking TCP socket, and [SO_BINDTODEVICE] on one *)
  pin_socket : Sys W Z;
  pin_to_device : Z -> bytes -> Sys W ();
  (** [getpwnam_r], [getpwuid_r] and [getgrnam_r], with a buffer of this length:
      the code returned, and the entry found *)
  getpwnam : bytes -> Z -> W -> (Z * option Credentials) * W;
  getpwuid : Z -> Z -> W -> (Z * option Credentials) * W;
  getgrnam : bytes -> Z -> W -> (Z * option Z) * W;
}.

Section privileges.
Context {W : Type} `{Kernel W, Process W}.
Abbreviation drops A := (M W PrivilegeError A).

(** A call named by its step. *)
Definition step {A} (name : bytes) (m : Sys W A) : drops A := fun w =>
  match m w with (inr a, w) => (Ok a, w) | (inl e, w) => (Err (DropFailed name e), w) end.
(** The error of a call as a value. *)
Definition try_sys {A} (m : Sys W A) : drops (io A) := fun w => let '(r, w) := m w in (Ok r, w).

(** ** The account *)

Definition MAX_LOOKUP_BUFFER : Z := 2 ^ 20.
(** [lookup], of a call given its buffer's length *)
Fixpoint lookup_account {T} (fuel : nat) (call : Z -> W -> (Z * option T) * W) (len : Z) : drops (option T) :=
  match fuel with
  | O => lift Panic
  | S fuel =>
      '(rc, found) ← update (call len);
      if (rc =? ERANGE lookup_errnos) && (len <? MAX_LOOKUP_BUFFER) then lookup_account fuel call (len * 2)
      else if rc =? 0 then mret found
      else if existsb (Z.eqb rc) [ENOENT lookup_errnos; ESRCH lookup_errnos; EBADF lookup_errnos; EPERM lookup_errnos]
      then mret None
      else fail (LookupFailed (OsError rc))
  end.
Definition LOOKUP_TURNS : nat := 11.

(** [user_by_name], [user_by_id] and [group_by_name]: a name with a NUL is none *)
Definition user_by_name (name : bytes) : drops (option Credentials) :=
  if bool_decide (0 ∈ name) then mret None else lookup_account LOOKUP_TURNS (getpwnam name) 1024.
Definition user_by_id (uid : Z) : drops (option Credentials) := lookup_account LOOKUP_TURNS (getpwuid uid) 1024.
Definition group_by_name (name : bytes) : drops (option Z) :=
  if bool_decide (0 ∈ name) then mret None else lookup_account LOOKUP_TURNS (getgrnam name) 1024.

(** [resolve] *)
Definition resolve_account (run_as : RunAs) : drops Credentials :=
  '(id, primary) ←
    match ra_user run_as with
    | PId id => mret (id, None)
    | PName name =>
        found ← user_by_name name;
        account ← lift (ok_or found (UnknownUser name));
        mret (uid account, Some (gid account))
    end;
  group ←
    match ra_group run_as, primary with
    | Some (PId group), _ => mret group
    | Some (PName name), _ => found ← group_by_name name; lift (ok_or found (UnknownGroup name))
    | None, Some group => mret group
    | None, None => found ← user_by_id id; lift (ok_or (gid <$> found) (NoPrimaryGroup id))
    end;
  if (id =? 0) || (group =? 0) then fail PrivilegedAccount else mret {| uid := id; gid := group |}.

(** ** Capabilities *)

(** [caps::get] and [caps::set]: the 64-bit sets in halves *)
Definition join_halves (low high : Z) : CapSet := Z.lor (Z.shiftl high 32) low.
Definition half (s : CapSet) (shift : Z) : Z := Z.shiftr s shift mod 2 ^ 32.
Definition caps_get : drops Sets :=
  '(lo, hi) ← step (bs "capget") capget;
  mret {| st_effective := join_halves (cd_effective lo) (cd_effective hi);
          st_permitted := join_halves (cd_permitted lo) (cd_permitted hi);
          st_inheritable := join_halves (cd_inheritable lo) (cd_inheritable hi) |}.
Definition cap_data (sets : Sets) (shift : Z) : CapData :=
  {| cd_effective := half (st_effective sets) shift; cd_permitted := half (st_permitted sets) shift;
     cd_inheritable := half (st_inheritable sets) shift |}.
Definition caps_set (sets : Sets) : drops () := step (bs "capset") (capset (cap_data sets 0) (cap_data sets 32)).

(** [caps::narrow_for_switch] *)
Definition narrow_for_switch (dial : bool) : drops () :=
  held ← caps_get;
  let held := st_permitted held in
  _ ← for_each (fun c : Z * bytes => if cap_contains held (cap_of c.1) then mret () else fail (Withheld c.2))
        [(CAP_SETUID, bs "CAP_SETUID"); (CAP_SETGID, bs "CAP_SETGID")];
  let wanted := cap_with (cap_of CAP_SETUID) (cap_of CAP_SETGID) in
  let wanted := if dial then cap_with wanted (cap_of CAP_NET_RAW) else wanted in
  _ ← caps_set (only (cap_within wanted held));
  step (bs "prctl(PR_SET_KEEPCAPS)") (keep_caps 1).

(** [Pin], [probe] and [decide] *)
Inductive Pin : Type := PinUnprivileged | PinNeedsNetRaw | PinUnknown (e : IoError).
Definition probe_pin (iface : InterfaceName) : drops Pin :=
  socket ← try_sys pin_socket;
  match socket with
  | inl e => mret (PinUnknown e)
  | inr fd =>
      pinned ← try_sys (pin_to_device fd (if_str iface));
      mret (match pinned with
            | inr () => PinUnprivileged
            | inl e => if bool_decide (raw_os_error e = Some (EPERM lookup_errnos)) then PinNeedsNetRaw else PinUnknown e
            end)
  end.
Definition decide_pin (pin : option Pin) (held : CapSet) : DialPin :=
  match pin with
  | None => NoDial
  | Some PinUnprivileged => Unprivileged
  | Some (PinNeedsNetRaw | PinUnknown _) => if cap_contains held (cap_of CAP_NET_RAW) then KeptNetRaw else NotHeld
  end.

(** [caps::settle] *)
Definition settle_caps (dial : option InterfaceName) : drops DialPin :=
  held ← caps_get;
  let held := st_permitted held in
  _ ← caps_set {| st_effective := 0; st_permitted := held; st_inheritable := 0 |};
  pin ← match dial with Some iface => pin ← probe_pin iface; mret (Some pin) | None => mret None end;
  let decision := decide_pin pin held in
  let keep := if bool_decide (decision = KeptNetRaw) then cap_of CAP_NET_RAW else 0 in
  _ ← caps_set (only keep);
  _ ← step (bs "prctl(PR_SET_KEEPCAPS)") (keep_caps 0);
  sets ← caps_get;
  if bool_decide (sets = only keep) then mret decision else fail CapabilitiesSurvived.

(** ** The switch *)

Definition effective_ids (w : W) : Credentials := {| uid := geteuid w; gid := getegid w |}.
Definition real_ids (w : W) : Credentials := {| uid := getuid w; gid := getgid w |}.

(** [switch_to] *)
Definition switch_to (c : Credentials) : drops () :=
  _ ← step (bs "setgroups") (setgroups [gid c]);
  _ ← step (bs "setgid") (setgid (gid c));
  step (bs "setuid") (setuid (uid c)).

(** [root_regainable]: the first call that succeeds answers. *)
Fixpoint any_succeeds (calls : list (Sys W ())) : drops bool :=
  match calls with
  | [] => mret false
  | call :: calls => r ← try_sys call; match r with inr () => mret true | inl _ => any_succeeds calls end
  end.
Definition root_regainable : drops bool := any_succeeds [setgid 0; setegid 0; setuid 0; seteuid 0].

(** [forbid_new_privileges] and [new_privileges_forbidden], by system *)
Definition forbid_new_privileges : drops () :=
  match os with
  | Linux => step (bs "prctl(PR_SET_NO_NEW_PRIVS)") enable_no_new_privs
  | FreeBsd => step (bs "procctl(PROC_NO_NEW_PRIVS_CTL)") enable_no_new_privs
  | MacOs => mret ()
  end.
Definition new_privileges_forbidden : drops bool :=
  match os with
  | Linux => rc ← step (bs "prctl(PR_GET_NO_NEW_PRIVS)") query_no_new_privs; mret (rc =? 1)
  | FreeBsd => status ← step (bs "procctl(PROC_NO_NEW_PRIVS_STATUS)") query_no_new_privs;
               mret (status =? PROC_NO_NEW_PRIVS_ENABLE)
  | MacOs => mret true
  end.

(** [drop_to] *)
Definition drop_to (credentials : Credentials) (dial : option InterfaceName) : drops Outcome :=
  effective ← gets effective_ids;
  real ← gets real_ids;
  switch ←
    (if uid effective =? 0 then
       _ ← (if bool_decide (os = Linux) then narrow_for_switch (bool_decide (is_Some dial)) else mret ());
       _ ← switch_to credentials;
       mret Dropped
     else if bool_decide (effective = credentials) && bool_decide (real = credentials) then mret AlreadyThatAccount
     else fail (NotRoot (uid effective)));
  dial_pin ← (if bool_decide (os = Linux) then settle_caps dial else mret NoDial);
  _ ← forbid_new_privileges;
  forbidden ← new_privileges_forbidden;
  if negb forbidden then fail NewPrivilegesAllowed
  else
    effective ← gets effective_ids;
    real ← gets real_ids;
    regainable ← (if bool_decide (effective = credentials) && bool_decide (real = credentials)
                  then root_regainable else mret true);
    if (regainable : bool) then fail StillPrivileged else mret {| oc_switch := switch; oc_dial_pin := dial_pin |}.
End privileges.

(** What dropping root promises: under the rules POSIX gives a process's
    identity and Linux its capabilities, once the switch has succeeded no call
    of the process can make it root again. *)

(** The identity the operating system keeps of a process. *)
Record Identity : Type := {
  i_ruid : Z; i_euid : Z; i_suid : Z; i_rgid : Z; i_egid : Z; i_sgid : Z;
  i_caps : Sets; i_no_new_privs : bool;
}.
Definition uids (i : Identity) : list Z := [i_ruid i; i_euid i; i_suid i].
Definition gids (i : Identity) : list Z := [i_rgid i; i_egid i; i_sgid i].

(** The calls that change an id. *)
Inductive IdCall : Type := SetUid (u : Z) | SetEuid (u : Z) | SetGid (g : Z) | SetEgid (g : Z).

(** The set [a] is within [b]. *)
Definition caps_le (a b : CapSet) : Prop := Z.land a b = a.
Definition caps_sane (s : Sets) : Prop := caps_le (st_effective s) (st_permitted s).
Definition caps_shrunk (s s' : Sets) : Prop :=
  caps_le (st_permitted s') (st_permitted s) /\ (caps_sane s -> caps_sane s') /\ caps_le (st_inheritable s') (st_inheritable s).

(** The 64-bit sets as [capset] is given them and [capget] returns them. *)
Definition sets_of (lo hi : CapData) : Sets :=
  {| st_effective := join_halves (cd_effective lo) (cd_effective hi);
     st_permitted := join_halves (cd_permitted lo) (cd_permitted hi);
     st_inheritable := join_halves (cd_inheritable lo) (cd_inheritable hi) |}.

Section laws.
Context {W : Type} `{Kernel W, Process W}.

Definition do_id (call : IdCall) : Sys W () :=
  match call with SetUid u => setuid u | SetEuid u => seteuid u | SetGid g => setgid g | SetEgid g => setegid g end.

(** Whether a process may take any user or group id: a capability on Linux,
    being root elsewhere. *)
Definition may_take (cap : Z) (i : Identity) : Prop :=
  match os with Linux => cap_contains (st_effective (i_caps i)) (cap_of cap) = true | _ => i_euid i = 0 end.

(** A call that succeeded: it took an id the process had, or was allowed any. *)
Definition id_moved (call : IdCall) (i i' : Identity) : Prop :=
  i_no_new_privs i' = i_no_new_privs i /\ caps_shrunk (i_caps i) (i_caps i') /\
  match call with
  | SetUid u | SetEuid u => gids i' = gids i /\ uids i' ⊆ u :: uids i /\ (u ∉ uids i -> may_take CAP_SETUID i)
  | SetGid g | SetEgid g => uids i' = uids i /\ gids i' ⊆ g :: gids i /\ (g ∉ gids i -> may_take CAP_SETGID i)
  end.

(** The rules of credentials(7), setuid(2), seteuid(2) and capabilities(7), for
    the identity [who] of each state. *)
Record posix (who : W -> Identity) : Prop := {
  po_ids : forall w, geteuid w = i_euid (who w) /\ getuid w = i_ruid (who w) /\ getegid w = i_egid (who w) /\ getgid w = i_rgid (who w);
  po_set : forall call w, match do_id call w with
                          | (inl _, w') => who w' = who w
                          | (inr _, w') => id_moved call (who w) (who w')
                          end;
  (** going back to the real or saved id is always allowed *)
  po_back : forall u w e, (seteuid u w).1 = inl e -> u ∉ uids (who w);
  po_back_group : forall g w e, (setegid g w).1 = inl e -> g ∉ gids (who w);
  po_enable : forall w, i_caps (who (enable_no_new_privs w).2) = i_caps (who w);
  po_query : forall w rc w', query_no_new_privs w = (inr rc, w') -> who w' = who w /\
    (i_no_new_privs (who w) = true <-> match os with Linux => rc = 1 | _ => rc = PROC_NO_NEW_PRIVS_ENABLE end);
  po_capget : forall w lo hi w', capget w = (inr (lo, hi), w') -> who w' = who w /\ sets_of lo hi = i_caps (who w);
}.

Context (who : W -> Identity) (Hposix : posix who).

(** What the process runs as. *)
Record settled (c : Credentials) (dial : option InterfaceName) (o : Outcome) (i : Identity) : Prop := {
  se_uid : uid c ∈ uids i /\ 0 ∉ uids i;
  se_gid : gid c ∈ gids i /\ 0 ∉ gids i;
  se_caps : os = Linux -> i_caps i = only (if bool_decide (oc_dial_pin o = KeptNetRaw) then cap_of CAP_NET_RAW else 0) /\
    (dial = None -> oc_dial_pin o = NoDial);
  se_privs : os <> MacOs -> i_no_new_privs i = true;
}.

(** No id is root's and no capability brings one back. *)
Record rootless (i : Identity) : Prop := {
  rl_uids : 0 ∉ uids i;
  rl_gids : 0 ∉ gids i;
  rl_sane : os = Linux -> caps_sane (i_caps i) /\ caps_le (st_permitted (i_caps i)) (cap_of CAP_NET_RAW);
}.

Lemma caps_le_trans a b c : caps_le a b -> caps_le b c -> caps_le a c.
Proof. unfold caps_le. intros H1 H2. by rewrite <- H1 at 1; rewrite <- Z.land_assoc, H2. Qed.

Lemma net_raw_only s : caps_le s (cap_of CAP_NET_RAW) ->
  cap_contains s (cap_of CAP_SETUID) = false /\ cap_contains s (cap_of CAP_SETGID) = false.
Proof.
  unfold caps_le, cap_contains. intros <-. rewrite <- !Z.land_assoc.
  change (Z.land (cap_of CAP_NET_RAW) (cap_of CAP_SETUID)) with 0. change (Z.land (cap_of CAP_NET_RAW) (cap_of CAP_SETGID)) with 0.
  by rewrite Z.land_0_r.
Qed.

Lemma rootless_may_take i cap : rootless i -> cap = CAP_SETUID \/ cap = CAP_SETGID -> ~ may_take cap i.
Proof.
  intros [Hu _ Hs] Hc. unfold may_take. destruct os eqn:Eo.
  - destruct (Hs eq_refl) as [Hsane Hle]. destruct (net_raw_only _ (caps_le_trans _ _ _ Hsane Hle)) as [H1 H2].
    destruct Hc as [-> | ->]; congruence.
  - intros E. apply Hu. unfold uids. rewrite E. set_solver.
  - intros E. apply Hu. unfold uids. rewrite E. set_solver.
Qed.

Lemma rootless_step call w : rootless (who w) -> rootless (who (do_id call w).2).
Proof.
  intros Hr. pose proof (po_set _ Hposix call w) as Hm. destruct (do_id call w) as [[e|[]] w']; cbn [snd]; [by rewrite Hm|].
  destruct Hm as (_&(Hp&Hs&_)&Hm). pose proof Hr as [Hu Hg Hc].
  assert (Hc' : os = Linux -> caps_sane (i_caps (who w')) /\ caps_le (st_permitted (i_caps (who w'))) (cap_of CAP_NET_RAW)).
  { intros E. destruct (Hc E). split; [auto|]. by eapply caps_le_trans. }
  assert (Hin : forall x l l', l' ⊆ x :: l -> (x ∉ l -> False) -> 0 ∉ l -> 0 ∉ l').
  { intros x l l' Hl Hx Hz Hin. apply Hl, elem_of_cons in Hin as [<- | Hin]; [|done]. by apply Hx. }
  destruct call; destruct Hm as (He&Hl&Hnew); split; try done; rewrite ?He; try done.
  all: eapply Hin; [exact Hl| |done]; intros Hx; eapply rootless_may_take; [exact Hr| |by apply Hnew]; auto.
Qed.

(** The calls tried for root, all refused: nothing changed. *)
Lemma refused_same calls w w' : any_succeeds (do_id <$> calls) w = (Ok false, w') ->
  who w' = who w /\ forall call, call ∈ calls -> exists x e, who x = who w /\ (do_id call x).1 = inl e.
Proof.
  revert w. induction calls as [|call calls IH]; intros w.
  - intros [= <-]. split; [done|]. by intros ? ?%elem_of_nil.
  - intros Hrun. pose proof (po_set _ Hposix call w) as Hm.
    change (any_succeeds (do_id <$> call :: calls)) with
      (r ← try_sys (do_id call); match r with inr () => mret true | inl _ => any_succeeds (do_id <$> calls) end : M W PrivilegeError bool) in Hrun.
    unfold mbind, M_bind, try_sys in Hrun. destruct (do_id call w) as [[e|[]] x] eqn:E; [|done]. destruct (IH x Hrun) as [-> Hall]. split; [done|].
    intros c [-> | Hc]%elem_of_cons.
    + exists w, e. by rewrite E.
    + destruct (Hall c Hc) as (y&e'&Hy&He). exists y, e'. by rewrite Hy.
Qed.

Lemma step_Ok {A} name (m : Sys W A) w a w' : step name m w = (Ok a, w') <-> m w = (inr a, w').
Proof. unfold step. destruct (m w) as [[e|x] y]; split; by intros [= -> ->]. Qed.

(** The last turn of the switch: the ids read back, and root out of reach. *)
Lemma root_out_of_reach c w w' :
  (if bool_decide (effective_ids w = c) && bool_decide (real_ids w = c) then root_regainable else mret true) w = (Ok false, w') ->
  who w' = who w /\ (uid c ∈ uids (who w) /\ 0 ∉ uids (who w)) /\ (gid c ∈ gids (who w) /\ 0 ∉ gids (who w)).
Proof.
  case_bool_decide as He; case_bool_decide as Hr; cbn [andb]; [|done..]. intros Hrun.
  destruct (refused_same [SetGid 0; SetEgid 0; SetUid 0; SetEuid 0] w w' Hrun) as [Hw Hall].
  destruct (po_ids _ Hposix w) as (E1&E2&E3&E4). unfold effective_ids in He. rewrite E1, E3 in He. subst c. cbn [uid gid].
  split_and!; [done|unfold uids; set_solver| |unfold gids; set_solver|].
  - destruct (Hall (SetEuid 0)) as (x&e&<-&Hx); [set_solver|]. by eapply po_back.
  - destruct (Hall (SetEgid 0)) as (x&e&<-&Hx); [set_solver|]. by eapply po_back_group.
Qed.

(** The privileges an exec could bring. *)
Lemma forbidden_true w w' : new_privileges_forbidden w = (Ok true, w') ->
  who w' = who w /\ (os <> MacOs -> i_no_new_privs (who w') = true).
Proof.
  unfold new_privileges_forbidden. pose proof (po_query _ Hposix w) as Hq. destruct os.
  - intros Hrun. unfold mbind, M_bind, step in Hrun. destruct (query_no_new_privs w) as [[e|rc] x]; [done|].
    destruct (Hq rc x eq_refl) as [Hx Hn]. injection Hrun as Hrc <-. rewrite Hx. split; [done|]. intros _. apply Hn. lia.
  - intros [= <-]. done.
  - intros Hrun. unfold mbind, M_bind, step in Hrun. destruct (query_no_new_privs w) as [[e|rc] x]; [done|].
    destruct (Hq rc x eq_refl) as [Hx Hn]. injection Hrun as Hrc <-. rewrite Hx. split; [done|]. intros _. apply Hn. lia.
Qed.

Lemma forbid_caps w w' : forbid_new_privileges w = (Ok (), w') -> i_caps (who w') = i_caps (who w).
Proof.
  unfold forbid_new_privileges. pose proof (po_enable _ Hposix w) as He.
  destruct os; [intros Hrun%step_Ok|by intros [= <-]|intros Hrun%step_Ok]; by rewrite Hrun in He.
Qed.

Lemma run_bind_Ok {A B} (m : M W PrivilegeError A) (f : A -> M W PrivilegeError B) w b w' :
  (m ≫= f) w = (Ok b, w') -> exists a x, m w = (Ok a, x) /\ f a x = (Ok b, w').
Proof. unfold mbind, M_bind. destruct (m w) as [[a|e|] x]; [eauto|done..]. Qed.

Lemma caps_get_Ok w s w' : caps_get w = (Ok s, w') -> who w' = who w /\ s = i_caps (who w).
Proof.
  intros ([lo hi]&x&Hrun%step_Ok&Hret)%run_bind_Ok. injection Hret as <- <-. by destruct (po_capget _ Hposix _ _ _ _ Hrun) as [-> <-].
Qed.

(** The capabilities kept: [CAP_NET_RAW] alone, where the decision says so. *)
Lemma settle_caps_Ok dial w pin w' : settle_caps dial w = (Ok pin, w') ->
  i_caps (who w') = only (if bool_decide (pin = KeptNetRaw) then cap_of CAP_NET_RAW else 0) /\ (dial = None -> pin = NoDial).
Proof.
  unfold settle_caps. intros (held&x1&_&Hrun)%run_bind_Ok. apply run_bind_Ok in Hrun as ([]&x2&_&Hrun).
  apply run_bind_Ok in Hrun as (p&x3&Hp&Hrun). set (d := decide_pin p (st_permitted held)) in Hrun.
  apply run_bind_Ok in Hrun as ([]&x4&_&Hrun). apply run_bind_Ok in Hrun as ([]&x5&_&Hrun).
  apply run_bind_Ok in Hrun as (sets&x6&Hg&Hrun). apply caps_get_Ok in Hg as [Hw ->].
  lazymatch type of Hrun with (if ?same then _ else _) _ = _ => destruct same eqn:Hs end; [|done].
  apply bool_decide_eq_true in Hs. injection Hrun as Hd ->. rewrite <- Hd, Hw. split; [done|].
  intros ->. by injection Hp as <- _.
Qed.

(** What a switch that succeeded leaves. *)
Lemma drop_to_settled c dial w o w' : drop_to c dial w = (Ok o, w') -> settled c dial o (who w').
Proof.
  unfold drop_to. intros (eff&x0&_&Hrun)%run_bind_Ok. apply run_bind_Ok in Hrun as (real&x1&_&Hrun).
  apply run_bind_Ok in Hrun as (switch&x2&_&Hrun). apply run_bind_Ok in Hrun as (pin&x3&Hpin&Hrun).
  apply run_bind_Ok in Hrun as ([]&x4&Hforbid&Hrun). apply run_bind_Ok in Hrun as (forbidden&x5&Hq&Hrun).
  destruct forbidden; cbn [negb] in Hrun; [|done]. apply forbidden_true in Hq as [Hw5 Hnnp]. apply forbid_caps in Hforbid.
  apply run_bind_Ok in Hrun as (eff'&x6&Heff&Hrun). injection Heff as <- <-.
  apply run_bind_Ok in Hrun as (real'&x7&Hreal&Hrun). injection Hreal as <- <-.
  apply run_bind_Ok in Hrun as (regainable&x8&Hr&Hrun). destruct regainable; [done|]. injection Hrun as <- <-.
  apply root_out_of_reach in Hr as (Hw8&Hu&Hg). rewrite Hw8. split; try done. cbn [oc_dial_pin].
  intros Eo. rewrite (bool_decide_true _ Eo) in Hpin. rewrite Hw5, Hforbid. by eapply settle_caps_Ok.
Qed.

Lemma settled_rootless c dial o i : settled c dial o i -> rootless i.
Proof.
  intros [[_ Hu] [_ Hg] Hc _]. split; [done..|]. intros Eo. destruct (Hc Eo) as [-> _]. cbn [only st_permitted st_effective st_inheritable].
  unfold caps_sane, caps_le. cbn [st_effective st_permitted]. rewrite Z.land_diag. by case_bool_decide.
Qed.

(** Calls of the process, after the switch, whatever each answers. *)
Fixpoint do_ids (calls : list IdCall) (w : W) : W :=
  match calls with [] => w | call :: calls => do_ids calls (do_id call w).2 end.

Lemma rootless_for_ever calls w : rootless (who w) -> rootless (who (do_ids calls w)).
Proof. revert w. induction calls as [|call calls IH]; intros w Hr; [done|]. cbn. apply IH. by apply rootless_step. Qed.

(** C20. Root never comes back. Whatever account the process starts as, and
    however the calls answer within the rules of the operating system: a switch
    that succeeds leaves it the ids of the account, none of them root's, on
    Linux no capability but CAP_NET_RAW (and that only for an interface to pin),
    privileges barred from an exec where the system can bar them; and no calls
    that change its ids, however many and whatever they ask for, give it an id
    of root's or a capability to take one. *)
Theorem root_never_returns c dial w o w' calls :
  drop_to c dial w = (Ok o, w') -> settled c dial o (who w') /\ rootless (who (do_ids calls w')).
Proof.
  intros Hd%drop_to_settled. split; [done|]. apply rootless_for_ever. by eapply settled_rootless.
Qed.
End laws.

(** ** The account lookup *)

Section lookup.
Context {W : Type} `{Kernel W, Process W}.

Lemma lookup_account_safe {T} n (call : Z -> W -> (Z * option T) * W) : forall len w,
  MAX_LOOKUP_BUFFER <= len * 2 ^ Z.of_nat n -> safe (lookup_account (S n) call len w).1.
Proof.
  induction n as [|n IH]; intros len w Hl; cbn [lookup_account]; unfold mbind, M_bind, update;
    destruct (call len w) as [[rc found] x].
  - rewrite (proj2 (Z.ltb_ge _ _)), andb_false_r by lia. by repeat case_match.
  - destruct (_ && _); [|by repeat case_match]. apply IH. rewrite Nat2Z.inj_succ, Z.pow_succ_r in Hl by lia. lia.
Qed.

Lemma safe_bind_run {A B} (m : M W PrivilegeError A) (f : A -> M W PrivilegeError B) w :
  safe (m w).1 -> (forall a x, safe (f a x).1) -> safe ((m ≫= f) w).1.
Proof. unfold safe, mbind, M_bind. destruct (m w) as [[a|e|] x]; cbn; auto. Qed.

(** The account resolved is never root's, and the lookup always ends. *)
Lemma resolve_account_ok run_as w : safe (resolve_account run_as w).1 /\
  forall c w', resolve_account run_as w = (Ok c, w') -> uid c <> 0 /\ gid c <> 0.
Proof.
  split.
  - assert (Hlook : forall {T} (call : Z -> W -> (Z * option T) * W) w, safe (lookup_account LOOKUP_TURNS call 1024 w).1)
      by (intros T call x; apply lookup_account_safe; done).
    assert (Hu : forall name x, safe (user_by_name name x).1) by (intros name x; unfold user_by_name; case_bool_decide; [done|apply Hlook]).
    assert (Hg : forall name x, safe (group_by_name name x).1) by (intros name x; unfold group_by_name; case_bool_decide; [done|apply Hlook]).
    unfold resolve_account. apply safe_bind_run.
    + destruct (ra_user run_as); [|done]. apply safe_bind_run; [apply Hu|]. intros found x. apply safe_bind_run; [by destruct found|done].
    + intros [id primary] x. apply safe_bind_run; [|intros a y; by destruct (_ || _)].
      destruct (ra_group run_as) as [[name|group]|]; [|done|destruct primary; [done|]].
      * apply safe_bind_run; [apply Hg|]. intros found y. by destruct found.
      * apply safe_bind_run; [apply Hlook|]. intros found y. by destruct found.
  - intros c w' ([id primary]&x&_&Hrun)%run_bind_Ok. apply run_bind_Ok in Hrun as (group&y&_&Hrun).
    destruct (_ || _) eqn:E; [done|]. injection Hrun as <- _. cbn. lia.
Qed.

(** The switch ends, whatever is refused. *)
Lemma step_safe {A} name (m : Sys W A) w : safe (step name m w).1.
Proof. unfold step. by destruct (m w) as [[e|a] x]. Qed.
Lemma run_then_safe {A B} (m : M W PrivilegeError A) (f : A -> M W PrivilegeError B) :
  (forall w, safe (m w).1) -> (forall a w, safe (f a w).1) -> forall w, safe ((m ≫= f) w).1.
Proof. intros Hm Hf w. by apply safe_bind_run. Qed.
Lemma try_sys_safe {A} (m : Sys W A) w : safe (try_sys m w).1.
Proof. unfold try_sys. by destruct (m w). Qed.
Lemma any_succeeds_safe (calls : list (Sys W ())) w : safe (any_succeeds calls w).1.
Proof.
  revert w. induction calls as [|call calls IH]; [done|]. apply run_then_safe; [apply try_sys_safe|]. intros [e|[]] w; [apply IH|done].
Qed.
Ltac ends := repeat first
  [ progress intros | done | apply step_safe | apply try_sys_safe | apply any_succeeds_safe | apply run_then_safe | case_match ].
Lemma drop_to_safe c dial w : safe (drop_to c dial w).1.
Proof.
  assert (Hget : forall w, safe (caps_get w).1) by (unfold caps_get; ends).
  assert (Hset : forall s w, safe (caps_set s w).1) by (unfold caps_set; ends).
  assert (Hnarrow : forall b w, safe (narrow_for_switch b w).1) by (unfold narrow_for_switch; cbn [for_each fst snd]; ends; auto).
  assert (Hsettle : forall d w, safe (settle_caps d w).1) by (unfold settle_caps, probe_pin; ends; auto).
  assert (Hforbid : forall w, safe (forbid_new_privileges w).1) by (unfold forbid_new_privileges; ends).
  assert (Hquery : forall w, safe (new_privileges_forbidden w).1) by (unfold new_privileges_forbidden; ends).
  unfold drop_to, switch_to, root_regainable. ends; auto.
Qed.
End lookup.

(** ** Witness: a Linux process started as root *)

Definition with_ids (i : Identity) (u1 u2 u3 g1 g2 g3 : Z) (caps : Sets) : Identity :=
  {| i_ruid := u1; i_euid := u2; i_suid := u3; i_rgid := g1; i_egid := g2; i_sgid := g3; i_caps := caps;
     i_no_new_privs := i_no_new_privs i |}.
Definition refused (i : Identity) : io () * Identity := (inl (OsError 1), i).
(** Leaving root clears the capabilities in effect, becoming it restores them. *)
Definition left_root (i : Identity) (u : Z) : Sets :=
  {| st_effective := if negb (u =? 0) then 0 else if i_euid i =? 0 then st_effective (i_caps i) else st_permitted (i_caps i);
     st_permitted := st_permitted (i_caps i); st_inheritable := st_inheritable (i_caps i) |}.
Definition holds (i : Identity) (cap : Z) : bool := cap_contains (st_effective (i_caps i)) (cap_of cap).
Definition linux_setuid (u : Z) (i : Identity) : io () * Identity :=
  let moved u1 u3 := (inr (), with_ids i u1 u u3 (i_rgid i) (i_egid i) (i_sgid i) (left_root i u)) in
  if holds i CAP_SETUID then moved u u else if existsb (Z.eqb u) (uids i) then moved (i_ruid i) (i_suid i) else refused i.
Definition linux_seteuid (u : Z) (i : Identity) : io () * Identity :=
  if holds i CAP_SETUID || existsb (Z.eqb u) (uids i)
  then (inr (), with_ids i (i_ruid i) u (i_suid i) (i_rgid i) (i_egid i) (i_sgid i) (left_root i u)) else refused i.
Definition linux_setgid (g : Z) (i : Identity) : io () * Identity :=
  let moved g1 g3 := (inr (), with_ids i (i_ruid i) (i_euid i) (i_suid i) g1 g g3 (i_caps i)) in
  if holds i CAP_SETGID then (inr (), with_ids i (i_ruid i) (i_euid i) (i_suid i) g g g (i_caps i))
  else if existsb (Z.eqb g) (gids i) then moved (i_rgid i) (i_sgid i) else refused i.
Definition linux_setegid (g : Z) (i : Identity) : io () * Identity :=
  if holds i CAP_SETGID || existsb (Z.eqb g) (gids i)
  then (inr (), with_ids i (i_ruid i) (i_euid i) (i_suid i) (i_rgid i) g (i_sgid i) (i_caps i)) else refused i.
Definition linux_process : Process Identity :=
  {| lookup_errnos := {| ERANGE := 34; ENOENT := 2; ESRCH := 3; EBADF := 9; EPERM := 1 |};
     geteuid := i_euid; getegid := i_egid; getuid := i_ruid; getgid := i_rgid;
     setgroups := fun _ i => (inr (), i);
     setgid := linux_setgid; setegid := linux_setegid; setuid := linux_setuid; seteuid := linux_seteuid;
     enable_no_new_privs := fun i => (inr (), {| i_ruid := i_ruid i; i_euid := i_euid i; i_suid := i_suid i;
       i_rgid := i_rgid i; i_egid := i_egid i; i_sgid := i_sgid i; i_caps := i_caps i; i_no_new_privs := true |});
     query_no_new_privs := fun i => (inr (if i_no_new_privs i then 1 else 0), i);
     PROC_NO_NEW_PRIVS_ENABLE := 1;
     capget := fun i =>
       let lo := cap_data (i_caps i) 0 in let hi := cap_data (i_caps i) 32 in
       if bool_decide (sets_of lo hi = i_caps i) then (inr (lo, hi), i) else (inl OtherError, i);
     capset := fun lo hi i =>
       (inr (), with_ids i (i_ruid i) (i_euid i) (i_suid i) (i_rgid i) (i_egid i) (i_sgid i) (sets_of lo hi));
     keep_caps := fun _ i => (inr (), i);
     pin_socket := fun i => (inr 3, i);
     pin_to_device := fun _ _ i => if holds i CAP_NET_RAW then (inr (), i) else (inl (OsError 1), i);
     getpwnam := fun _ _ i => ((0, Some {| uid := 65534; gid := 65534 |}), i);
     getpwuid := fun _ _ i => ((0, None), i);
     getgrnam := fun _ _ i => ((0, None), i) |}.
Definition linux_clock : Kernel Identity := clocked_kernel (fun i => (0, i)).
Definition root_process : Identity :=
  {| i_ruid := 0; i_euid := 0; i_suid := 0; i_rgid := 0; i_egid := 0; i_sgid := 0;
     i_caps := {| st_effective := 2 ^ 41 - 1; st_permitted := 2 ^ 41 - 1; st_inheritable := 0 |}; i_no_new_privs := false |}.

Lemma among u l : existsb (Z.eqb u) l = true <-> u ∈ l.
Proof.
  rewrite existsb_exists. setoid_rewrite <- list_elem_of_In. split; [by intros (x&Hx&->%Z.eqb_eq)|].
  intros Hu. exists u. by rewrite Z.eqb_refl.
Qed.
Lemma caps_le_refl s : caps_le s s.
Proof. apply Z.land_diag. Qed.
Lemma left_root_shrunk i u : caps_shrunk (i_caps i) (left_root i u).
Proof.
  unfold left_root, caps_shrunk, caps_sane. cbn. split_and!; [apply caps_le_refl| |apply caps_le_refl].
  intros Hs. destruct (u =? 0); cbn [negb]; [|done]. destruct (i_euid i =? 0); [done|apply caps_le_refl].
Qed.
Lemma caps_shrunk_refl s : caps_shrunk s s.
Proof. split_and!; [apply caps_le_refl|done|apply caps_le_refl]. Qed.

Lemma linux_posix : posix (H := linux_clock) (H0 := linux_process) (fun i => i).
Proof.
  split; try done.
  - intros [u|u|g|g] i; cbn [do_id linux_process setuid seteuid setgid setegid].
    + unfold linux_setuid. destruct (holds i CAP_SETUID) eqn:Eh; [|destruct (existsb _ _) eqn:Ex; [apply among in Ex|done]].
      * split_and!; [done|apply left_root_shrunk|done|cbn; set_solver|by intros _].
      * split_and!; [done|apply left_root_shrunk|done|cbn; set_solver|done].
    + unfold linux_seteuid. destruct (holds i CAP_SETUID) eqn:Eh; cbn [orb]; [|destruct (existsb _ _) eqn:Ex; [apply among in Ex|done]].
      * split_and!; [done|apply left_root_shrunk|done|cbn; set_solver|by intros _].
      * split_and!; [done|apply left_root_shrunk|done|cbn; set_solver|done].
    + unfold linux_setgid. destruct (holds i CAP_SETGID) eqn:Eh; [|destruct (existsb _ _) eqn:Ex; [apply among in Ex|done]].
      * split_and!; [done|apply caps_shrunk_refl|done|cbn; set_solver|by intros _].
      * split_and!; [done|apply caps_shrunk_refl|done|cbn; set_solver|done].
    + unfold linux_setegid. destruct (holds i CAP_SETGID) eqn:Eh; cbn [orb]; [|destruct (existsb _ _) eqn:Ex; [apply among in Ex|done]].
      * split_and!; [done|apply caps_shrunk_refl|done|cbn; set_solver|by intros _].
      * split_and!; [done|apply caps_shrunk_refl|done|cbn; set_solver|done].
  - intros u i e. cbn [linux_process seteuid]. unfold linux_seteuid. destruct (holds _ _); cbn [orb]; [done|].
    destruct (existsb _ _) eqn:Ex; [done|]. intros _ Hin%among. congruence.
  - intros g i e. cbn [linux_process setegid]. unfold linux_setegid. destruct (holds _ _); cbn [orb]; [done|].
    destruct (existsb _ _) eqn:Ex; [done|]. intros _ Hin%among. congruence.
  - intros i rc i'. cbn [linux_process query_no_new_privs]. intros [= <- <-]. split; [done|]. cbn. by destruct (i_no_new_privs i).
  - intros i lo hi i'. cbn [linux_process capget]. case_bool_decide as Hs; [|done]. by intros [= <- <- <-].
Qed.

(** The switch of a daemon started as root, with a DIAL entry to pin. *)
Abbreviation ex_switch := (drop_to (H := linux_clock) (H0 := linux_process) {| uid := 65534; gid := 65534 |}
  (Some {| if_str := [101; 116; 104] |}) root_process).
Lemma root_never_returns_witness :
  exists o i, ex_switch = (Ok o, i) /\ oc_dial_pin o = KeptNetRaw /\
    rootless (H := linux_clock) (do_ids (H0 := linux_process) [SetUid 0; SetEuid 0; SetGid 0; SetEgid 0; SetUid 0] i).
Proof.
  assert (E : match ex_switch with (Ok o, _) => oc_dial_pin o = KeptNetRaw | _ => False end) by (vm_compute; reflexivity).
  pose proof (fun o i => root_never_returns (H := linux_clock) (H0 := linux_process) (fun i => i) linux_posix
    {| uid := 65534; gid := 65534 |} (Some {| if_str := [101; 116; 104] |}) root_process o i
    [SetUid 0; SetEuid 0; SetGid 0; SetEgid 0; SetUid 0]) as R.
  revert E R. generalize ex_switch. intros [[o|e|] i] E R; [|destruct E..]. exists o, i. split; [reflexivity|].
  split; [exact E|]. exact (proj2 (R o i eq_refl)).
Defined.
