(* ===== verification/Cli.v ===== *)
(** The command line ([src/cli.rs]): the arguments as octets, one positional
    and four flags.  The text an error shows is the argument itself; its lossy
    rendering is not modelled. *)

From S2P Require Import Prelude Text.

(** [Invocation] and [UsageError] *)
Inductive Invocation : Type :=
  | IRun (path : option bytes) (join_groups : bool)
  | ICheckConfig (path : option bytes)
  | IHelp
  | IVersion.
Inductive UsageError : Type := TooManyArgs (arg : bytes) | UnknownOption (arg : bytes).

(** The locals of [parse]. *)
Record CliState : Type := { cs_check : bool; cs_join : bool; cs_path : option bytes; cs_done : bool }.
Definition cli_start : CliState := {| cs_check := false; cs_join := true; cs_path := None; cs_done := false |}.

Definition is_arg (arg : bytes) (texts : list bytes) : bool := bool_decide (arg ∈ texts).
(** [text.starts_with('-') && text != "-"] *)
Definition is_option (arg : bytes) : bool := bool_decide (head arg = Some 45%Z) && negb (bool_decide (arg = bs "-")).

(** An argument taken as the path. *)
Definition take_path (st : CliState) (arg : bytes) : res UsageError CliState :=
  if negb (cs_done st) && is_option arg then Err (UnknownOption arg)
  else match cs_path st with
       | Some _ => Err (TooManyArgs arg)
       | None => Ok {| cs_check := cs_check st; cs_join := cs_join st; cs_path := Some arg; cs_done := cs_done st |}
       end.

(** [parse]'s loop, and what follows it. *)
Fixpoint parse_args (st : CliState) (args : list bytes) : res UsageError Invocation :=
  match args with
  | [] => Ok (if cs_check st then ICheckConfig (cs_path st) else IRun (cs_path st) (cs_join st))
  | arg :: args =>
      if cs_done st then st ← take_path st arg; parse_args st args
      else if is_arg arg [bs "--"] then
        parse_args {| cs_check := cs_check st; cs_join := cs_join st; cs_path := cs_path st; cs_done := true |} args
      else if is_arg arg [bs "-h"; bs "--help"] then Ok IHelp
      else if is_arg arg [bs "-V"; bs "--version"] then Ok IVersion
      else if is_arg arg [bs "--check-config"] then
        parse_args {| cs_check := true; cs_join := cs_join st; cs_path := cs_path st; cs_done := false |} args
      else if is_arg arg [bs "--no-join"] then
        parse_args {| cs_check := cs_check st; cs_join := false; cs_path := cs_path st; cs_done := false |} args
      else st ← take_path st arg; parse_args st args
  end.
Definition cli_parse (args : list bytes) : res UsageError Invocation := parse_args cli_start args.

(** ** What is accepted *)

(** The flags of an accepted command line, the arguments they leave, and
    whether [--] ended them. *)
Fixpoint options (args : list bytes) : list bytes :=
  match args with [] => [] | arg :: args => if bool_decide (arg = bs "--") then [] else arg :: options args end.
Fixpoint operands (args : list bytes) : list bytes :=
  match args with [] => [] | arg :: args => if bool_decide (arg = bs "--") then args else operands args end.
Definition flags : list bytes := [bs "--check-config"; bs "--no-join"].
Definition positionals (args : list bytes) : list bytes :=
  filter (fun arg => is_option arg = false) (options args) ++ operands args.

(** What a run or a check is accepted with. *)
Definition asks (check join : bool) (path : option bytes) : Invocation := if check then ICheckConfig path else IRun path join.
Definition one_of (l : list bytes) (path : option bytes) : Prop :=
  match l with [] => path = None | [p] => path = Some p | _ => False end.
Definition known (args : list bytes) : Prop := Forall (fun arg => is_option arg = true -> arg ∈ flags) (options args).
Definition has (flag : bytes) (args : list bytes) : bool := bool_decide (flag ∈ options args).

Lemma asks_inj check join path check' join' path' : asks check join path = asks check' join' path' <->
  path = path' /\ check = check' /\ (check' = false -> join = join').
Proof. destruct check, check'; cbn; naive_solver. Qed.
Lemma Ok_asks check join path check' join' path' :
  (Ok (asks check join path) : res UsageError Invocation) = Ok (asks check' join' path') <->
  path = path' /\ check = check' /\ (check' = false -> join = join').
Proof. rewrite <- asks_inj. split; [by intros [= H]|by intros ->]. Qed.

Lemma parse_args_done st args check join path : cs_done st = true ->
  parse_args st args = Ok (asks check join path) <->
  one_of (option_list (cs_path st) ++ args) path /\ check = cs_check st /\ (check = false -> join = cs_join st).
Proof.
  intros Hd. destruct args as [|arg rest]; cbn [parse_args].
  - change (if cs_check st then _ else _) with (asks (cs_check st) (cs_join st) (cs_path st)).
    rewrite Ok_asks, app_nil_r. destruct (cs_path st); cbn; naive_solver.
  - rewrite Hd. unfold take_path. rewrite Hd. cbn [negb andb]. destruct (cs_path st) eqn:Ep; cbn [mbind res_bind option_list app one_of].
    { split; [done|]. by intros []. }
    destruct rest as [|extra rest]; cbn [parse_args cs_done cs_check cs_join cs_path].
    + change (if cs_check st then _ else _) with (asks (cs_check st) (cs_join st) (Some arg)). rewrite Ok_asks. naive_solver.
    + split; [done|]. by intros [].
Qed.

Lemma has_cons flag arg args : arg <> bs "--" -> has flag (arg :: args) = bool_decide (arg = flag) || has flag args.
Proof.
  intros H. unfold has. cbn [options]. rewrite (bool_decide_false _ H). apply eq_true_iff_eq.
  rewrite orb_true_iff, !bool_decide_eq_true, elem_of_cons. naive_solver.
Qed.

Lemma known_cons arg args : arg <> bs "--" -> known (arg :: args) <-> (is_option arg = true -> arg ∈ flags) /\ known args.
Proof. intros H. unfold known. cbn [options]. rewrite (bool_decide_false _ H). apply Forall_cons. Qed.
Lemma positionals_cons arg args : arg <> bs "--" ->
  positionals (arg :: args) = if is_option arg then positionals args else arg :: positionals args.
Proof.
  intros H. unfold positionals. cbn [options operands]. rewrite !(bool_decide_false _ H), filter_cons. by destruct (is_option arg).
Qed.
(** A flag that ends the parse is none of those a run keeps. *)
Lemma not_kept (words : list bytes) arg args : arg ∈ words -> arg <> bs "--" ->
  forallb (fun w => is_option w && negb (bool_decide (w ∈ flags))) words = true -> ~ known (arg :: args).
Proof.
  intros Hin Hd Hall Hk. apply known_cons in Hk as [Hk _]; [|done]. rewrite forallb_forall in Hall.
  specialize (Hall arg (proj1 (list_elem_of_In _ _) Hin)). apply andb_true_iff in Hall as [Ho Hn].
  apply negb_true_iff, bool_decide_eq_false in Hn. auto.
Qed.

Lemma parse_args_exact args : forall st check join path, cs_done st = false ->
  parse_args st args = Ok (asks check join path) <->
  known args /\ one_of (option_list (cs_path st) ++ positionals args) path /\
  check = cs_check st || has (bs "--check-config") args /\
  (check = false -> join = cs_join st && negb (has (bs "--no-join") args)).
Proof.
  induction args as [|arg args IH]; intros st check join path Hd.
  - cbn [parse_args]. change (if cs_check st then _ else _) with (asks (cs_check st) (cs_join st) (cs_path st)).
    rewrite Ok_asks. change (positionals []) with (@nil bytes). rewrite app_nil_r. change (has (bs "--check-config") []) with false.
    change (has (bs "--no-join") []) with false. rewrite orb_false_r, andb_true_r. unfold known. cbn [options].
    destruct (cs_path st); cbn; naive_solver.
  - cbn [parse_args]. rewrite Hd. unfold is_arg.
    destruct (decide (arg = bs "--")) as [-> |Hdd].
    { rewrite bool_decide_true by set_solver. rewrite parse_args_done by done. cbn [cs_path cs_check cs_join].
      change (positionals (bs "--" :: args)) with args. change (has (bs "--check-config") (bs "--" :: args)) with false.
      change (has (bs "--no-join") (bs "--" :: args)) with false. rewrite orb_false_r, andb_true_r.
      split; [by intros (?&?&?); split_and!; [constructor|..]|by intros (_&?&?&?)]. }
    rewrite bool_decide_false by set_solver. rewrite !has_cons by done.
    case_bool_decide as Hh; [split; [intros E; destruct check; discriminate E|]; intros [Hk _]; by destruct (not_kept _ _ _ Hh Hdd eq_refl Hk)|].
    case_bool_decide as Hv; [split; [intros E; destruct check; discriminate E|]; intros [Hk _]; by destruct (not_kept _ _ _ Hv Hdd eq_refl Hk)|].
    rewrite known_cons, positionals_cons by done.
    case_bool_decide as Hc; [apply list_elem_of_singleton in Hc as ->|].
    { rewrite IH by done. cbn [cs_path cs_check cs_join]. change (is_option (bs "--check-config")) with true.
      rewrite (bool_decide_false (bs "--check-config" = bs "--no-join")), (bool_decide_true (_ = _)) by done.
      rewrite orb_true_l, orb_true_r. cbn [orb]. set_solver. }
    case_bool_decide as Hj; [apply list_elem_of_singleton in Hj as ->|].
    { rewrite IH by done. cbn [cs_path cs_check cs_join]. change (is_option (bs "--no-join")) with true.
      rewrite (bool_decide_false (bs "--no-join" = bs "--check-config")), (bool_decide_true (_ = _)) by done.
      cbn [orb negb andb]. rewrite andb_false_r. set_solver. }
    assert (Hn1 : arg <> bs "--check-config") by (intros ->; set_solver).
    assert (Hn2 : arg <> bs "--no-join") by (intros ->; set_solver).
    rewrite (bool_decide_false _ Hn1), (bool_decide_false _ Hn2). cbn [orb]. unfold take_path. rewrite Hd. cbn [negb andb].
    destruct (is_option arg); cbn [mbind res_bind].
    { split; [intros E; destruct check; discriminate E|]. intros [[Hf _] _]. specialize (Hf eq_refl). unfold flags in Hf. set_solver. }
    destruct (cs_path st) as [p|] eqn:Ep; cbn [mbind res_bind option_list app].
    { split; [intros E; destruct check; discriminate E|]. by intros (_&[]&_). }
    rewrite IH by done. cbn [cs_path cs_check cs_join option_list app]. naive_solver.
Qed.

(** A command line without a call for help is accepted exactly when its options
    are known and it names at most one path; the flags count wherever they
    stand, and a path that begins with a dash is reached after [--]. *)
Theorem cli_run_exact args check join path :
  cli_parse args = Ok (asks check join path) <->
  known args /\ one_of (positionals args) path /\ check = has (bs "--check-config") args /\
  (check = false -> join = negb (has (bs "--no-join") args)).
Proof. apply (parse_args_exact args cli_start check join path eq_refl). Qed.

Lemma cli_parse_safe args : safe (cli_parse args).
Proof.
  unfold cli_parse. generalize cli_start as st. induction args as [|arg args IH]; intros st; [done|]. cbn [parse_args].
  assert (Ht : safe (st ← take_path st arg; parse_args st args)).
  { apply bind_safe; [|auto]. unfold take_path. destruct (_ && _); [done|]. by destruct (cs_path st). }
  repeat (case_match; [done || apply IH || exact Ht|]). exact Ht.
Qed.
