(* ===== verification/Build.v ===== *)
(** Startup ([src/lib.rs], the [build] functions of [src/reflector.rs] and
    [src/reflector/]): the captures opened for the configuration, and each
    entry wired into the dispatcher's registrations. *)

From S2P Require Import Prelude Effect Text Addr Names Interface Kernel Multicast LinearMap InterfaceTable.
From S2P Require Import Value Mac Arena Ssdp Wsd Mdns MdnsFilters Reactor DialRegistry Reflector Dispatcher.
From S2P Require Import Handlers.

Local Open Scope Z_scope.

(** [IpFamily] *)
Inductive IpFamily : Type := IpV4 | IpV6.

(** The reason a group could not be joined; its text is not modelled. *)
Inductive JoinReason : Type := LacksIpv4 | LacksIpv6 | JoinRefused (source : IoError) (capped : bool).

(** [BuildError] *)
Inductive BuildError : Type :=
  | UnknownInterface (interface : InterfaceName)
  | RequiredFamilyUnavailable (interface : InterfaceName) (family : IpFamily)
  | MacsUnmatchable (interface : InterfaceName)
  | InterfaceGone (interface : InterfaceName)
  | GroupJoin (group : IpAddr) (interface : InterfaceName) (reason : JoinReason).

(** [InterfaceMap] *)
Definition InterfaceMap : Type := LinearMap InterfaceName CaptureKey.
Definition key_for (m : InterfaceMap) (name : InterfaceName) : option CaptureKey := lm_get m name.
Definition require (m : InterfaceMap) (name : InterfaceName) : res BuildError CaptureKey :=
  match key_for m name with Some key => Ok key | None => Err (UnknownInterface name) end.

(** [require_macs_matchable] *)
Definition require_macs_matchable (t : InterfaceTable) (macs : option MacSet) (target : CaptureKey) (target_if : InterfaceName)
    : res BuildError () :=
  if bool_decide (is_Some macs) && is_some_and (link_type t target) (fun link => negb (bool_decide (link = Ethernet)))
  then Err (MacsUnmatchable target_if) else Ok ().

(** [missing_required_family] *)
Definition missing_required_family (family : AddressFamily) (addrs : InterfaceAddresses) : option IpFamily :=
  if requires_ipv4 family && negb (has_v4 addrs) then Some IpV4
  else if requires_ipv6 family && negb (has_v6 addrs) then Some IpV6
  else None.

(** [require_egress_family] *)
Definition require_egress_family (t : InterfaceTable) (egress : CaptureKey) (egress_if : InterfaceName) (family : AddressFamily)
    : res BuildError () :=
  match missing_required_family family (default no_addrs (egress_addrs t egress)) with
  | Some family => Err (RequiredFamilyUnavailable egress_if family)
  | None => Ok ()
  end.

(** [require_both_sides_family] *)
Definition require_both_sides_family (t : InterfaceTable) (family : AddressFamily) (source : CaptureKey)
    (source_if : InterfaceName) (target : CaptureKey) (target_if : InterfaceName) : res BuildError () :=
  let src := default no_addrs (egress_addrs t source) in
  let tgt := default no_addrs (egress_addrs t target) in
  let unavailable family (missing_on_source : bool) :=
    RequiredFamilyUnavailable (if missing_on_source then source_if else target_if) family in
  if requires_ipv4 family && negb (has_v4 src && has_v4 tgt) then Err (unavailable IpV4 (negb (has_v4 src)))
  else if requires_ipv6 family && negb (has_v6 src && has_v6 tgt) then Err (unavailable IpV6 (negb (has_v6 src)))
  else Ok ().

(** [join_failure] *)
Definition join_failure (err : JoinError) (group : IpAddr) (interface : InterfaceName) : BuildError :=
  match err with
  | JoinGone => InterfaceGone interface
  | JoinNoFamily => GroupJoin group interface (if is_v4 group then LacksIpv4 else LacksIpv6)
  | JoinFailed source capped => GroupJoin group interface (JoinRefused source capped)
  end.

(** The filters the legs are registered with. *)
Definition group_filter (groups : list IpAddr) (ports : list Z) (macs : option MacSet) : Filter :=
  {| fl_src_ip := None; fl_dst_ip := Some groups; fl_src_port := None; fl_dst_port := Some ports; fl_src_mac := macs;
     fl_dst_mac := None; fl_broadcast := false; fl_dst_own := None |}.
Definition mdns_response_filter (groups : list IpAddr) (macs : option MacSet) (family : AddressFamily) : Filter :=
  {| fl_src_ip := None; fl_dst_ip := Some groups; fl_src_port := Some MDNS_PORT; fl_dst_port := Some [MDNS_PORT];
     fl_src_mac := macs; fl_dst_mac := None; fl_broadcast := false; fl_dst_own := Some family |}.
Definition port_filter (ports : list Z) (broadcast : bool) : Filter :=
  {| fl_src_ip := None; fl_dst_ip := None; fl_src_port := None; fl_dst_port := Some ports; fl_src_mac := None;
     fl_dst_mac := None; fl_broadcast := broadcast; fl_dst_own := None |}.

(** The legs of mDNS. *)
Definition mdns_gate (services : option ServiceList) (kind : MdnsKind) : option ServiceGate :=
  (fun s => {| sg_message_type := mdns_type kind; sg_services := s |}) <$> services.
Definition mdns_query_leg (r : Value.Reflector) (services : option ServiceList) (target : CaptureKey) : SimpleReflector :=
  with_rewrite (match mdns_gate services Query with Some gate => ServiceRewrite gate | None => NoRewrite end)
    (simple_new target (delivery_new (target_peers r)) (of_payload (direction Query)) (emit_fixed MDNS_PORT MDNS_TTL)).
Definition mdns_response_leg (r : Value.Reflector) (services : option ServiceList) (source : CaptureKey) : SimpleReflector :=
  with_suppress MdnsFilters.advertises_only_unreachable
    (with_rewrite (ResponseRewrite {| rp_services := mdns_gate services Response |})
      (simple_new source (delivery_new (source_peers r)) (of_payload (direction Response))
        (unicast_to_group MDNS_GROUP_V4 MDNS_GROUP_V6 (emit_fixed MDNS_PORT MDNS_TTL)))).

(** The legs of a search protocol. *)
Definition announcement_leg (r : Value.Reflector) (p : SearchProtocol) (rewrite : option (CaptureKey -> ReplyRewrite))
    (source target : CaptureKey) : SimpleReflector :=
  let leg := with_suppress (sp_suppress p)
    (simple_new source (delivery_new (source_peers r)) (of_payload (sp_announcement_verdict p)) (emit_fixed (sp_port p) (sp_ttl p))) in
  match rewrite with Some rewrite => with_rewrite (rewrite target) leg | None => leg end.
Definition search_new (source target : CaptureKey) (delivery : Delivery) (device_macs : option MacSet) (p : SearchProtocol)
    (make_reply : ReplyRewrite) : SearchReflector :=
  {| sh_source := source; sh_target := target; sh_delivery := delivery; sh_device_macs := device_macs; sh_protocol := p;
     sh_make_reply := make_reply; sh_sessions := lm_new |}.
Definition search_leg (r : Value.Reflector) (p : SearchProtocol) (rewrite : option (CaptureKey -> ReplyRewrite))
    (source target : CaptureKey) : SearchReflector :=
  search_new source target (delivery_new (target_peers r)) (macs r) p
    (match rewrite with Some rewrite => rewrite target | None => NoRewrite end).

(** The legs of Wake-on-LAN and the relay. *)
Definition wake_leg (r : Value.Reflector) (egress : CaptureKey) : SimpleReflector :=
  simple_new egress (delivery_new (target_peers r)) (wake_classify (macs r) (address_family r))
    (unicast_to_broadcast emit_captured_from_egress).
Definition relay_leg (r : Value.Reflector) (egress : CaptureKey) : SimpleReflector :=
  simple_new egress (delivery_new (target_peers r)) (of_payload relay) (unicast_to_broadcast emit_captured).
Definition relay_filters (udp : UdpRelay) : list Filter :=
  let groups := default [] (udp_groups udp) in
  (match groups with [] => [] | _ => [group_filter groups (udp_ports udp) None] end) ++
  (if udp_broadcast udp then [port_filter (udp_ports udp) true] else []).

(** [log::Level]s *)
Definition level_warn : Level := 2.
Definition level_info : Level := 3.

Section build.
Context {H W : Type} `{Kernel W}.
Abbreviation builds A := (M (DState H W) BuildError A).

(** [require_group_join] *)
Definition require_group_join (capture : CaptureKey) (group : IpAddr) (interface : InterfaceName) (wanted : Wanted) : builds () :=
  joined ← attempt (dispatcher_join_group capture group wanted);
  match joined with inr () => mret () | inl e => fail (join_failure e group interface) end.

(** [open_pair] *)
Definition open_pair (r : Value.Reflector) (interfaces : InterfaceMap) (protocol : bytes) (groups : list SocketAddr)
    : builds (CaptureKey * CaptureKey) :=
  source ← lift (require interfaces (source_if r));
  target ← lift (require interfaces (target_if r));
  t ← gets table_of;
  _ ← lift (require_both_sides_family t (address_family r) source (source_if r) target (target_if r));
  _ ← lift (require_macs_matchable t (macs r) target (target_if r));
  _ ← for_each (fun group =>
    for_each (fun x =>
      require_group_join x.1 (ip group) x.2
        {| wd_label := protocol; wd_required := requires (address_family r) (ip group); wd_wait_level := level_info |})
      [(source, source_if r); (target, target_if r)]) groups;
  mret (source, target).

(** [mdns::build] *)
Definition build_mdns (r : Value.Reflector) (interfaces : InterfaceMap) : builds () :=
  match mdns r with
  | None => mret ()
  | Some m =>
      let groups := group_addrs (address_family r) MDNS_PORT MDNS_GROUP_V4 [MDNS_GROUP_V6] in
      '(source, target) ← open_pair r interfaces (bs "mDNS") groups;
      _ ← register_handler source (group_filter (ip <$> groups) [MDNS_PORT] None) (HSimple (mdns_query_leg r (services m) target));
      _ ← register_handler target (mdns_response_filter (ip <$> groups) (macs r) (address_family r))
            (HSimple (mdns_response_leg r (services m) source));
      mret ()
  end.

(** [build_pair] *)
Definition build_pair (r : Value.Reflector) (interfaces : InterfaceMap) (name : bytes) (p : SearchProtocol)
    (rewrite : option (CaptureKey -> ReplyRewrite)) : builds () :=
  let groups := protocol_groups p (address_family r) in
  '(source, target) ← open_pair r interfaces name groups;
  _ ← register_handler target (group_filter (ip <$> groups) [sp_port p] (macs r))
        (HSimple (announcement_leg r p rewrite source target));
  _ ← register_handler source (group_filter (ip <$> groups) [sp_port p] None) (HSearch (search_leg r p rewrite source target));
  mret ().

(** [ssdp::build] and [wsd::build] *)
Definition build_ssdp (r : Value.Reflector) (interfaces : InterfaceMap) : builds () :=
  match ssdp r with
  | None => mret ()
  | Some s => build_pair r interfaces (bs "SSDP") SSDP (if dial s then Some DialRewrite else None)
  end.
Definition build_wsd (r : Value.Reflector) (interfaces : InterfaceMap) : builds () :=
  if wsd r then build_pair r interfaces (bs "WSD") WSD None else mret ().

(** [wol::build] *)
Definition build_wol (r : Value.Reflector) (interfaces : InterfaceMap) : builds () :=
  match wol r with
  | None => mret ()
  | Some w =>
      ingress ← lift (require interfaces (source_if r));
      egress ← lift (require interfaces (target_if r));
      t ← gets table_of;
      _ ← lift (require_egress_family t egress (target_if r) (address_family r));
      _ ← register_handler ingress (port_filter (wol_ports w) false) (HSimple (wake_leg r egress));
      mret ()
  end.

(** [udp::build] *)
Definition build_udp_relay (r : Value.Reflector) (interfaces : InterfaceMap) : builds () :=
  match udp r with
  | None => mret ()
  | Some u =>
      ingress ← lift (require interfaces (source_if r));
      egress ← lift (require interfaces (target_if r));
      t ← gets table_of;
      _ ← lift (require_egress_family t egress (target_if r) (address_family r));
      _ ← for_each (fun group =>
        require_group_join ingress group (source_if r)
          {| wd_label := bs "UDP relay"; wd_required := requires (address_family r) group; wd_wait_level := level_warn |})
        (default [] (udp_groups u));
      for_each (fun filter => _ ← register_handler ingress filter (HSimple (relay_leg r egress)); mret ()) (relay_filters u)
  end.

(** [build_reflector] *)
Definition build_reflector (interfaces : InterfaceMap) (r : Value.Reflector) : builds () :=
  for_each (fun build => build r interfaces) [build_wol; build_mdns; build_ssdp; build_wsd; build_udp_relay].

(** The loop of [reflect] over the entries. *)
Definition build_entries (interfaces : InterfaceMap) (entries : list Value.Reflector) : builds () :=
  for_each (fun r =>
    _ ← build_reflector interfaces r;
    if bidirectional r then build_reflector interfaces (reversed r) else mret ()) entries.

(** [open_captures]: the capture of an interface is opened once. *)
Fixpoint open_each (names : list InterfaceName) (interfaces : InterfaceMap)
    : M (DState H W) (InterfaceName * IoError) InterfaceMap :=
  match names with
  | [] => mret interfaces
  | name :: names =>
      match key_for interfaces name with
      | Some _ => open_each names interfaces
      | None =>
          opened ← attempt (dispatcher_open_capture name);
          match opened with
          | inl e => fail (name, e)
          | inr key => open_each names (lm_insert interfaces name key).2
          end
      end
  end.
Definition open_captures (entries : list Value.Reflector) : M (DState H W) (InterfaceName * IoError) InterfaceMap :=
  open_each (entries ≫= fun r => [source_if r; target_if r]) lm_new.
End build.
