(* ===== verification/Startup.v ===== *)
(** From the command line to the running daemon ([src/lib.rs], the errors of
    [src/error.rs]): the configuration fitted to the host, the account resolved,
    the captures opened, the entries built and root dropped, in this order.
    Printing, logging, the file limit, the memory reporter and the dispatcher's
    own registration in its reactor are not modelled. *)

From S2P Require Import Prelude Effect Text Addr Names Interface Kernel Multicast InterfaceTable Counters Http.
From S2P Require Import Lifecycle Packet PacketWf Mdns MdnsFilters DnsTrim MdnsFiltersSpec Ssdp Wsd LinearMap Mac Arena.
From S2P Require Import Reassembly ReassemblyTyped Datagram Egress EgressSpec Reactor ReactorSpec DialRegistry.
From S2P Require Import DialRegistrySpec Tcp Value Reflector Dispatcher Handlers TableTyped DispatchInv HandlersSpec.
From S2P Require Import Routing RoutingSpec ConfigError Conflict Config ConfigSpec Env ConfigLoad.
From S2P Require Import Getifaddrs Privileges Cli Build.

Local Open Scope Z_scope.

(** [Error] *)
Inductive Error : Type :=
  | ErrUsage (source : UsageError)
  | ErrConfig (source : ConfigError)
  | ErrCapture (iface : InterfaceName) (source : IoError)
  | ErrReflector (name : bytes) (source : BuildError)
  | ErrPrivileges (source : PrivilegeError).

(** [map_err] on a run. *)
Definition run_map_err {S E E' A} (f : E -> E') (m : M S E A) : M S E' A := fun s =>
  let '(r, s) := m s in (map_err f r, s).

(** [fit_to_host], given whether the host has IPv6 *)
Definition fit_to_host (has_ipv6 : bool) (c : Config) : res Error Config :=
  if negb has_ipv6 then map_err ErrConfig (fall_back_to_ipv4 c) else Ok c.

(** The interface the switch probes: that of the first DIAL entry. *)
Definition dial_interface (c : Config) : option InterfaceName :=
  target_if <$> find_first (fun r => match ssdp r with Some s => dial s | None => false end) (reflectors c).

Section startup.
Context {H W : Type} `{Kernel W, Process W, IfAddrsAbi}.
Abbreviation starts A := (M (DState H W) Error A).

Definition on_world {E A} (m : M W E A) : M (DState H W) E A := zoom ds_world (fun w s => put_world w s) m.

(** [sys::has_ipv6]: a socket that opens, or is refused for another reason *)
Definition has_ipv6 : starts bool := fun s =>
  let '(r, w) := open_socket true (ds_world s) in
  (Ok (match r with inl e => negb (no_ipv6_stack e) | inr _ => true end), put_world w s).

(** [build_reflector], its error with the entry's name *)
Definition build_named (interfaces : InterfaceMap) (r : Value.Reflector) : starts () :=
  run_map_err (ErrReflector (rn_str (name r))) (build_reflector interfaces r).
Definition build_all (interfaces : InterfaceMap) (entries : list Value.Reflector) : starts () :=
  for_each (fun r =>
    _ ← build_named interfaces r;
    if bidirectional r then build_named interfaces (reversed r) else mret ()) entries.

(** The steps of [reflect] up to the reactor: what it wires, and the account it
    will run as. *)
Definition set_up (c : Config) : starts (option Credentials) :=
  credentials ← match user c with
                | Some run_as => c ← run_map_err ErrPrivileges (on_world (resolve_account run_as)); mret (Some c)
                | None => mret None
                end;
  interfaces ← run_map_err (fun e => ErrCapture e.1 e.2) (open_captures (reflectors c));
  _ ← build_all interfaces (reflectors c);
  _ ← match counter_interval c with
      | Some interval => now ← instant_now; on_dispatcher (fun d => enable_counter_report d (interval * 10 ^ 9) now)
      | None => mret ()
      end;
  mret credentials.

(** [drop_privileges] *)
Definition drop_privileges (c : Config) (credentials : Credentials) : starts Outcome :=
  run_map_err ErrPrivileges (on_world (drop_to credentials (dial_interface c))).

(** [reflect] up to [reactor.run]: the outcome of the switch, if one was asked for. *)
Definition reflect (c : Config) : starts (option Outcome) :=
  v6 ← has_ipv6;
  c ← lift (fit_to_host v6 c);
  credentials ← set_up c;
  match credentials with
  | Some credentials => o ← drop_privileges c credentials; mret (Some o)
  | None => mret None
  end.
End startup.

(** [run]: what the command line asks for, over the file it names and the
    environment; [None] where nothing is to run. *)
Definition configured (toml_from_str : bytes -> option TomlConfig) (read_file : bytes -> res ConfigError bytes)
    (path : option bytes) (env : list (bytes * bytes)) : res ConfigError Config :=
  text ← match path with Some path => text ← read_file path; Ok (Some text) | None => Ok None end;
  from_sources toml_from_str text env.
Definition run_config (toml_from_str : bytes -> option TomlConfig) (read_file : bytes -> res ConfigError bytes)
    (args : list bytes) (env : list (bytes * bytes)) : res Error (option (Config * bool)) :=
  invocation ← map_err ErrUsage (cli_parse args);
  match invocation with
  | IHelp | IVersion => Ok None
  | ICheckConfig path => _ ← map_err ErrConfig (configured toml_from_str read_file path env); Ok None
  | IRun path join => c ← map_err ErrConfig (configured toml_from_str read_file path env); Ok (Some (c, join))
  end.

(** The daemon starts in order and stays so: from a configuration that loads,
    the set-up wires a dispatcher within its invariant or fails with an error of
    the host's, and no call of the reactor ever panics after it. *)

(** ** The legs within their types *)

Lemma mdns_classify_safe b : safe (Mdns.classify b).
Proof.
  unfold Mdns.classify. destruct (_ <? _)%nat eqn:E; [done|]. apply bind_safe; [|done].
  apply safe_idx. unfold FLAGS_HIGH, DNS_HEADER_LEN in *. lia.
Qed.
Lemma direction_safe kind b : safe (direction kind b).
Proof. apply bind_safe; [apply mdns_classify_safe|done]. Qed.
Lemma wsd_unreachable_safe b : safe (Wsd.advertises_only_unreachable b).
Proof.
  unfold Wsd.advertises_only_unreachable. by destruct (xaddrs_loop_spec (S (length b)) false b) as (texts&_&->); [lia|].
Qed.
Lemma wsd_classify_safe b : safe (Wsd.classify b).
Proof. by destruct (Wsd.classify_total b) as (k&->). Qed.

(** The peers of an entry are addresses. *)
Definition peers_typed (r : Value.Reflector) : Prop :=
  Forall ip_ok (or_empty (source_peers r)) /\ Forall ip_ok (or_empty (target_peers r)).
Lemma delivery_typed peers : Forall ip_ok (or_empty peers) -> delivery_ok (delivery_new peers).
Proof. by destruct peers. Qed.

Lemma simple_new_ok egress delivery classify emit :
  delivery_ok delivery -> emit_ok emit -> (forall p, packet_ok p -> safe (classify p)) -> simple_ok (simple_new egress delivery classify emit).
Proof. by split. Qed.
Lemma with_rewrite_ok rw r : simple_ok r -> simple_ok (with_rewrite rw r).
Proof. by intros [? ? ? ?]. Qed.
Lemma with_suppress_ok f r : (forall b, safe (f b)) -> simple_ok r -> simple_ok (with_suppress f r).
Proof. by intros Hf [? ? ? ?]. Qed.

Lemma emit_fixed_ok port ttl : word_ok 16 port -> byte_ok ttl -> emit_ok (emit_fixed port ttl).
Proof. intros. unfold emit_ok. cbn. by split_and!. Qed.

Definition known_protocol (p : SearchProtocol) : Prop := p = SSDP \/ p = WSD.
Lemma known_protocol_ok p : known_protocol p -> protocol_ok p.
Proof.
  intros [-> | ->]; split; cbn; try done; intros b.
  - apply bind_safe; [apply wsd_classify_safe|done].
  - apply bind_safe; [apply wsd_classify_safe|done].
  - apply wsd_unreachable_safe.
Qed.

Section legs.
Context (r : Value.Reflector) (Hr : peers_typed r).

Lemma mdns_query_leg_ok services target : simple_ok (mdns_query_leg r services target).
Proof.
  apply with_rewrite_ok, simple_new_ok; [apply delivery_typed, Hr|by apply emit_fixed_ok|]. intros p _. apply direction_safe.
Qed.
Lemma mdns_response_leg_ok services source : simple_ok (mdns_response_leg r services source).
Proof.
  apply with_suppress_ok; [intros b; apply (mdns_filters_safe [] b)|]. apply with_rewrite_ok, simple_new_ok; [apply delivery_typed, Hr| |].
  - unfold emit_ok. cbn. by split_and!.
  - intros p _. apply direction_safe.
Qed.
Lemma announcement_leg_ok p rewrite source target : known_protocol p -> simple_ok (announcement_leg r p rewrite source target).
Proof.
  intros Hp%known_protocol_ok. unfold announcement_leg.
  assert (Hs : simple_ok (with_suppress (sp_suppress p)
    (simple_new source (delivery_new (source_peers r)) (of_payload (sp_announcement_verdict p)) (emit_fixed (sp_port p) (sp_ttl p))))).
  { apply with_suppress_ok; [apply Hp|]. apply simple_new_ok; [apply delivery_typed, Hr|apply emit_fixed_ok; apply Hp|].
    intros q _. apply Hp. }
  destruct rewrite; [by apply with_rewrite_ok|done].
Qed.
Lemma search_leg_ok n p rewrite source target : known_protocol p -> (capture_index target < n)%nat ->
  search_ok n (search_leg r p rewrite source target).
Proof. intros Hp%known_protocol_ok Ht. split; cbn; [done|apply delivery_typed, Hr|done|constructor]. Qed.
Lemma wake_leg_ok egress : simple_ok (wake_leg r egress).
Proof. apply simple_new_ok; [apply delivery_typed, Hr|unfold emit_ok; cbn; by split_and!|done]. Qed.
Lemma relay_leg_ok egress : simple_ok (relay_leg r egress).
Proof. apply simple_new_ok; [apply delivery_typed, Hr|unfold emit_ok; cbn; by split_and!|done]. Qed.
End legs.

(** ** Joins *)

Lemma ms_add_pending ms group wanted : Forall (fun m => mb_state m = MPending) (ms_groups ms) ->
  Forall (fun m => mb_state m = MPending) (ms_groups (ms_add ms group wanted).2).
Proof.
  intros Hp. unfold ms_add. destruct (position _ _) as [i|]; cbn [snd ms_groups].
  - apply Forall_alter; [done|]. intros m _ Hm. by case_match.
  - apply Forall_app. split; [done|]. by repeat constructor.
Qed.

Section startup.
Context {H W : Type} `{Kernel W} (Hknl : kernel_typed _).
Implicit Types s : DState H W.
Abbreviation druns n m s Q := (runs (dispatch_ok n nothing_out) full m s Q).
Abbreviation ok n s := (dispatch_ok n nothing_out s).

Lemma join_on_typed n t i e group wanted now (w : W) r t' w' : join_on t i group wanted now w = (r, t', w') ->
  it_entries t !! i = Some e -> table_typed n t -> r <> Panic /\ table_typed n t'.
Proof.
  unfold join_on. intros Hj Hi Ht. rewrite Hi in Hj. pose proof (tk_entries _ (tt_ok _ _ Ht)) as He.
  rewrite Forall_lookup in He. destruct (He _ _ Hi) as (Hms&Hrel&Hpres).
  destruct (ie_memberships e) as [ms|] eqn:Em; [|by injection Hj as <- <- <-].
  assert (Hput : forall ms', memberships_ok ms' -> (entry_ifindex e = None -> released (with_memberships e (Some ms'))) ->
    table_typed n (with_entries t (<[i := with_memberships e (Some ms')]> (it_entries t)))).
  { intros ms' Hok Hrel'. eapply put_keeps; [exact Hi| |done]. split_and!; [done| |done]. intros _. split_and!; [|done|done].
    by intros m [= <-]. }
  assert (Hadd : table_typed n (with_entries t (<[i := with_memberships e (Some (ms_add ms group wanted).2)]> (it_entries t)))).
  { destruct (ms_add ms group wanted) as [ix ms1] eqn:E. destruct (ms_add_spec _ _ _ _ _ E (Hms ms eq_refl)) as (Hok&_&Hs&_).
    apply Hput; [done|]. intros Hn. destruct (Hrel Hn) as (Ha&Hm&Hg). split_and!; [done|done|]. intros m [= <-]. cbn.
    destruct (Hg ms Em) as [Hs0 Hp]. split; [by rewrite Hs|]. pose proof (ms_add_pending ms group wanted Hp) as Hp'. by rewrite E in Hp'. }
  destruct (ie_presence e) as [ifindex|u|] eqn:Ep; [|by injection Hj as <- <- <-..].
  destruct (ms_join ms group wanted _ now w) as [[r1 ms1] w1] eqn:E. injection Hj as <- <- <-.
  destruct (ms_join_spec _ _ _ _ _ _ _ _ _ E (Hms ms eq_refl)) as (Hr&Hok&_). split; [done|]. apply Hput; [done|].
  unfold entry_ifindex. by rewrite Ep.
Qed.

Lemma interface_of_entry n t capture i : table_typed n t -> interface_of t capture = Some i -> exists e, it_entries t !! i = Some e.
Proof.
  intros Ht (c&Hc&->)%fmap_Some. pose proof (tk_captures _ (tt_ok _ _ Ht)) as Hall. rewrite Forall_lookup in Hall.
  destruct (Hall _ _ Hc) as [Hl _]. by apply lookup_lt_is_Some_2.
Qed.

Lemma run_join n s capture group wanted : ok n s -> druns n (dispatcher_join_group capture group wanted) s (fun _ _ => True).
Proof.
  intros Hs. unfold dispatcher_join_group. eapply runs_bind with (P := fun t s' => t = table_of s'); [by apply runs_gets|].
  intros t s1 Hs1 ->. destruct (interface_of (table_of s1) capture) as [i|] eqn:Ei; [|by apply runs_ret].
  pose proof (di_table _ _ _ Hs1) as Ht. destruct (interface_of_entry _ _ _ _ Ht Ei) as [e He].
  eapply runs_bind; [by apply run_clock_same|]. intros now s2 Hs2 Hsame.
  assert (Et : table_of s2 = table_of s1) by (unfold table_of; by rewrite Hsame). unfold runs, dispatcher_join_on. rewrite Et.
  destruct (join_on (table_of s1) i group wanted now (ds_world s2)) as [[r t'] w'] eqn:Ej.
  destruct (join_on_typed _ _ _ _ _ _ _ _ _ _ _ Ej He Ht) as [Hr Ht'].
  assert (Hok : ok n (put_world w' (put_dispatcher (set_table (ds_dispatcher s2) t') s2))) by (by apply dispatch_ok_world, set_table_ok).
  by destruct r.
Qed.

Lemma run_require_join n s capture group interface wanted : ok n s ->
  druns n (require_group_join capture group interface wanted) s (fun _ _ => True).
Proof.
  intros Hs. eapply runs_bind with (P := fun _ _ => True); [by apply runs_attempt; [apply run_join|]|].
  intros [e|[]] s1 Hs1 _; [by apply runs_lift|by apply runs_ret].
Qed.

(** ** Entries *)

(** The captures opened by name. *)
Definition keyed (n : nat) (m : InterfaceMap) : Prop := Forall (fun x => (capture_index x.2 < n)%nat) m.
Lemma run_require n s m name : keyed n m -> ok n s -> druns n (lift (require m name)) s (fun c _ => (capture_index c < n)%nat).
Proof.
  intros Hm Hs. unfold require, key_for. destruct (lm_get m name) as [key|] eqn:E; apply runs_lift; try done.
  intros c [= <-]. unfold keyed in Hm. rewrite Forall_forall in Hm. apply (Hm (name, key)). by apply lm_get_elem.
Qed.
Lemma checks_safe r source target t :
  safe (require_both_sides_family t (address_family r) source (source_if r) target (target_if r)) /\
  safe (require_macs_matchable t (macs r) target (target_if r)) /\
  safe (require_egress_family t target (target_if r) (address_family r)).
Proof.
  unfold require_both_sides_family, require_macs_matchable, require_egress_family. by split_and!; repeat case_match.
Qed.

Lemma run_open_pair n s r m protocol groups : keyed n m -> ok n s ->
  druns n (open_pair r m protocol groups) s (fun x _ => (capture_index x.1 < n)%nat /\ (capture_index x.2 < n)%nat).
Proof.
  intros Hm Hs. unfold open_pair. eapply runs_bind; [by apply run_require|]. intros source s1 Hs1 Hsource.
  eapply runs_bind; [by apply run_require|]. intros target s2 Hs2 Htarget. cbn beta in Hsource, Htarget.
  eapply runs_bind with (P := fun _ _ => True); [by apply runs_gets|]. intros t s3 Hs3 _.
  destruct (checks_safe r source target t) as (Hb&Hmacs&_).
  eapply runs_bind with (P := fun _ _ => True); [by apply runs_lift|]. intros [] s4 Hs4 _.
  eapply runs_bind with (P := fun _ _ => True); [by apply runs_lift|]. intros [] s5 Hs5 _.
  eapply runs_bind with (P := fun _ _ => True); [|by intros [] s6 Hs6 _; apply runs_ret].
  apply runs_for_each; [done| |done]. intros group s6 _ Hs6. apply runs_for_each; [done| |done].
  intros x s7 _ Hs7. by apply run_require_join.
Qed.

(** Two legs registered one after the other. *)
Lemma run_two_legs n s i1 f1 h1 i2 f2 h2 : ok n s -> (capture_index i1 < n)%nat -> (capture_index i2 < n)%nat ->
  handler_ok n h1 -> handler_ok n h2 ->
  runs (dispatch_ok n nothing_out) full
    (_ ← register_handler i1 f1 h1; _ ← register_handler i2 f2 h2; mret () : M (DState H W) BuildError ()) s (fun _ _ => True).
Proof.
  intros Hs H1 H2 Hh1 Hh2. eapply runs_bind; [by apply run_register|]. intros k1 s1 Hs1 _.
  eapply runs_bind; [by apply run_register|]. intros k2 s2 Hs2 _. by apply runs_ret.
Qed.

Section entry.
Context (n : nat) (m : InterfaceMap) (Hm : keyed n m) (r : Value.Reflector) (Hr : peers_typed r).
Abbreviation builds_ok build := (forall s, ok n s -> druns n build s (fun _ _ => True)).

Lemma run_build_mdns : builds_ok (build_mdns r m).
Proof.
  intros s Hs. unfold build_mdns. destruct (mdns r) as [d|]; [|by apply runs_ret].
  eapply runs_bind; [by apply run_open_pair|]. intros [source target] s1 Hs1 [Hsource Htarget]. apply run_two_legs; try done.
  - by apply mdns_query_leg_ok.
  - by apply mdns_response_leg_ok.
Qed.

Lemma run_build_pair name p rewrite : known_protocol p -> builds_ok (build_pair r m name p rewrite).
Proof.
  intros Hp s Hs. unfold build_pair. eapply runs_bind; [by apply run_open_pair|].
  intros [source target] s1 Hs1 [Hsource Htarget]. apply run_two_legs; try done.
  - by apply announcement_leg_ok.
  - by apply search_leg_ok.
Qed.

(** One egress leg, its checks before it. *)
Lemma run_egress_leg (build : CaptureKey -> CaptureKey -> M (DState H W) BuildError ()) s : ok n s ->
  (forall ingress egress s, ok n s -> (capture_index ingress < n)%nat -> druns n (build ingress egress) s (fun _ _ => True)) ->
  druns n (ingress ← lift (require m (source_if r)); egress ← lift (require m (target_if r)); t ← gets table_of;
           _ ← lift (require_egress_family t egress (target_if r) (address_family r)); build ingress egress) s (fun _ _ => True).
Proof.
  intros Hs Hb. eapply runs_bind; [by apply run_require|]. intros source s1 Hs1 Hsource.
  eapply runs_bind; [by apply run_require|]. intros target s2 Hs2 _.
  eapply runs_bind with (P := fun _ _ => True); [by apply runs_gets|]. intros t s3 Hs3 _.
  eapply runs_bind with (P := fun _ _ => True); [apply runs_lift; [done|apply (checks_safe r source target t)|done]|].
  intros [] s4 Hs4 _. by apply Hb.
Qed.

Lemma run_build_wol : builds_ok (build_wol r m).
Proof.
  intros s Hs. unfold build_wol. destruct (wol r) as [w|]; [|by apply runs_ret].
  apply (run_egress_leg (fun ingress egress => _ ← register_handler ingress _ (HSimple (wake_leg r egress)); mret ())); [done|].
  intros ingress egress s1 Hs1 Hi. eapply runs_bind; [apply run_register; [done..|by apply wake_leg_ok]|].
  intros k s2 Hs2 _. by apply runs_ret.
Qed.

Lemma run_build_udp_relay : builds_ok (build_udp_relay r m).
Proof.
  intros s Hs. unfold build_udp_relay. destruct (udp r) as [u|]; [|by apply runs_ret].
  apply (run_egress_leg (fun ingress egress => _ ← for_each _ _; for_each _ (relay_filters u))); [done|].
  intros ingress egress s1 Hs1 Hi. eapply runs_bind with (P := fun _ _ => True).
  { apply runs_for_each; [done| |done]. intros group s2 _ Hs2. by apply run_require_join. }
  intros [] s2 Hs2 _. apply runs_for_each; [done| |done]. intros filter s3 _ Hs3.
  eapply runs_bind; [apply run_register; [done..|by apply relay_leg_ok]|]. intros k s4 Hs4 _. by apply runs_ret.
Qed.

Lemma run_build_reflector : builds_ok (build_reflector m r).
Proof.
  intros s Hs. apply runs_for_each; [done| |done]. intros build s1 Hin Hs1.
  repeat (apply elem_of_cons in Hin as [-> | Hin]; [|]); [by apply run_build_wol|by apply run_build_mdns|..|by apply elem_of_nil in Hin].
  - unfold build_ssdp. destruct (ssdp r) as [d|]; [|by apply runs_ret]. apply run_build_pair; [by left|done].
  - unfold build_wsd. destruct (wsd r); [|by apply runs_ret]. apply run_build_pair; [by right|done].
  - by apply run_build_udp_relay.
Qed.
End entry.

(** [build_all], in both directions where the entry says so *)
Lemma run_map_err_ok {E E' A} n s (f : E -> E') (m : M (DState H W) E A) (Q : A -> DState H W -> Prop) :
  druns n m s Q -> druns n (run_map_err f m) s Q.
Proof. unfold runs, run_map_err. destruct (m s) as [[a|e|] s']; done. Qed.
Lemma reversed_typed r : peers_typed r -> peers_typed (reversed r).
Proof. by intros [? ?]. Qed.
Lemma run_build_all n m entries s : keyed n m -> Forall peers_typed entries -> ok n s ->
  druns n (build_all m entries) s (fun _ _ => True).
Proof.
  intros Hm Hr Hs. rewrite Forall_forall in Hr. apply runs_for_each; [done| |done]. intros r s1 Hin Hs1. specialize (Hr _ Hin).
  assert (Hb : forall r s, peers_typed r -> ok n s -> druns n (build_named m r) s (fun _ _ => True)).
  { intros r' s' Hr' Hs'. by apply run_map_err_ok, run_build_reflector. }
  eapply runs_bind; [by apply Hb|]. intros [] s2 Hs2 _.
  destruct (bidirectional r); [by apply Hb; [apply reversed_typed|]|by apply runs_ret].
Qed.

(** ** The captures opened *)

(** A dispatcher newly made, [n] captures opened. *)
Record fresh (n : nat) s : Prop := {
  fr_table : table_typed n (table_of s);
  fr_entries : (length (it_entries (table_of s)) <= n)%nat;
  fr_regs : regs_of s = arena_new;
  fr_reassembly : pd_reassembly (ds_dispatcher s) = reassembler_new;
  fr_dial : pd_dial (ds_dispatcher s) = dial_new;
  fr_scratch : length (eg_scratch (pd_egress (ds_dispatcher s))) = MAX_FRAME_LEN;
  fr_id : word_ok 32 (eg_next_id (pd_egress (ds_dispatcher s)));
  fr_reactor : reactor_ok (ds_reactor s);
}.
Lemma fresh_ok n s : fresh n s -> ok n s.
Proof.
  intros [Ht He Hg Ha Hd Hs Hi Hr]. assert (Hget : forall k reg, 0 <= index k -> get (regs_of s) k = Some reg -> False).
  { intros k reg _ (sl&Hsl&_)%get_Some. by rewrite Hg in Hsl. }
  split; try done.
  - rewrite Hg. apply arena_new_wf.
  - intros k reg Hk Hk'. by destruct (Hget k reg).
  - intros k reg Hk Hk'. by destruct (Hget k reg).
  - split; [done..|]. apply (tt_addrs _ _ Ht).
  - rewrite Hd. split_and!; [constructor|cbn; lia|by intros p ?%not_elem_of_nil].
  - rewrite Ha. apply reassembler_new_typed.
Qed.

(** An interface added to the table. *)
Lemma add_entry_typed n t e : table_typed n t -> if_name (ie_interface e) ∉ (fun e => if_name (ie_interface e)) <$> it_entries t ->
  InterfaceTable.entry_ok e -> addrs_ok (if_addrs (ie_interface e)) -> table_typed n (with_entries t (it_entries t ++ [e])).
Proof.
  intros [[H1 H2 H3] Ha Hn] Hnew He Hea. split; [split|..]; cbn; try done.
  - apply Forall_app. split; [done|by constructor].
  - eapply Forall_impl; [exact H2|]. intros c [? ?]. split; [|done]. rewrite length_app. lia.
  - rewrite fmap_app. apply NoDup_app. split_and!; [done| |apply NoDup_singleton]. intros x Hx ->%list_elem_of_singleton. done.
  - apply Forall_app. split; [done|by constructor].
Qed.

Lemma find_or_add_typed n t name (w : W) r t' w' : find_or_add_interface t name w = (r, t', w') -> table_typed n t ->
  table_typed n t' /\ it_captures t' = it_captures t /\
  match r with
  | Ok i => (i < length (it_entries t'))%nat /\ (length (it_entries t') <= S (length (it_entries t)))%nat
  | Err _ => True
  | Panic => 2 ^ 32 <= Z.of_nat (length (it_entries t))
  end.
Proof.
  unfold find_or_add_interface. intros Hf Ht. destruct (position _ _) as [i|] eqn:Ep.
  - injection Hf as <- <- <-. split_and!; [done..|]. apply position_Some in Ep as (e&He%lookup_lt_Some&_).
    unfold index_key. destruct (_ <? _) eqn:Ei; lia.
  - destruct (if_index_checked name w) as [[e|[ifindex|]] w1]; [by injection Hf as <- <- <-| |by injection Hf as <- <- <-].
    unfold index_key in Hf. destruct (_ <? _) eqn:Ei; [|injection Hf as <- <- <-; split_and!; [done..|lia]].
    unfold interface_open, interface_refresh in Hf. cbn [if_name] in Hf.
    pose proof (kt_resolve _ Hknl name ifindex w1) as Hres. destruct (resolve name ifindex w1) as [[e|reading] w2];
      [by injection Hf as <- <- <-|]. injection Hf as <- <- <-.
    assert (Hadd : forall e, ie_interface e = (adopt {| if_name := name; if_addrs := no_addrs; if_mtu := None; if_loopback := false |} reading).2 ->
      InterfaceTable.entry_ok e -> table_typed n (with_entries t (it_entries t ++ [e]))).
    { intros e Hi He. apply add_entry_typed; [done| |done|rewrite Hi; by apply Hres]. rewrite Hi.
      intros (e'&Hn&Hin)%list_elem_of_fmap_1. rewrite position_None, Forall_forall in Ep. specialize (Ep _ Hin).
      apply bool_decide_eq_false in Ep. by apply Ep. }
    cbn [with_entries it_entries it_captures]. rewrite length_app. split_and!; [|done|cbn; lia|cbn; lia].
    apply Hadd; [done|]. split_and!; [|done|done]. intros ms Hms. cbn in Hms. destruct (it_join_groups t); [|done].
    injection Hms as <-. by split; constructor.
Qed.

Lemma open_capture_typed n t name (w : W) r t' w' : open_capture t name w = (r, t', w') -> table_typed n t ->
  (length (it_entries t) <= n)%nat ->
  match r with
  | Ok key => table_typed (S n) t' /\ (length (it_entries t') <= S n)%nat /\ (capture_index key < S n)%nat
  | Err _ => table_typed n t'
  | Panic => 2 ^ 32 <= Z.of_nat (length (it_captures t'))
  end.
Proof.
  unfold open_capture. intros Hc Ht Hle. destruct (find_or_add_interface t name w) as [[r1 t1] w1] eqn:Ef.
  destruct (find_or_add_typed _ _ _ _ _ _ _ Ef Ht) as (Ht1&Hcs&Hr1). pose proof (tt_count _ _ Ht) as Hn.
  destruct r1 as [i|e|]; [|by injection Hc as <- <- <-|injection Hc as <- <- <-; rewrite Hcs; lia].
  destruct Hr1 as [Hi Hlen]. destruct (lookup_lt_is_Some_2 _ _ Hi) as [e He]. rewrite He in Hc.
  destruct (entry_ifindex e) as [ifindex|]; [|by injection Hc as <- <- <-].
  destruct (capture_open _ _ _) as [[err|cap] w2]; [by injection Hc as <- <- <-|].
  unfold index_key in Hc. destruct (_ <? _) eqn:Eb; injection Hc as <- <- <-; [|lia].
  split_and!; [|cbn; lia|unfold capture_index; cbn; rewrite Nat2Z.id, (tt_count _ _ Ht1); lia].
  destruct Ht1 as [[H1 H2 H3] Ha Hn1]. split; [split|..]; cbn; try done.
  - apply Forall_app. split; [done|]. constructor; [|done]. by split.
  - rewrite length_app. cbn. lia.
Qed.

(** ** The set-up *)

(** The dispatcher in order, whatever number of captures it has; an index space
    used up, of the captures' too. *)
Definition working s : Prop := exists n, ok n s.
Definition full_up s : Prop := full s \/ 2 ^ 32 <= Z.of_nat (length (it_captures (table_of s))).
Abbreviation wruns m s Q := (runs working full_up m s Q).

Lemma runs_working {E A} n (m : M (DState H W) E A) s Q : druns n m s Q -> wruns m s Q.
Proof.
  unfold runs. destruct (m s) as [[a|e|] s']; [intros [? ?]; by split; [eexists|]|by eexists|by left].
Qed.

Lemma run_map_err_works {E E' A} (f : E -> E') (m : M (DState H W) E A) s Q : wruns m s Q -> wruns (run_map_err f m) s Q.
Proof. unfold runs, run_map_err. by destruct (m s) as [[a|e|] s']. Qed.

(** A run of the world's alone, which leaves the dispatcher as it is. *)
Lemma run_world {E A} (m : M W E A) s (Q : A -> DState H W -> Prop) : working s -> safe (m (ds_world s)).1 ->
  (forall a w, Q a (put_world w s)) -> wruns (on_world m) s Q.
Proof.
  intros [n Hs] Hm HQ. unfold runs, on_world, zoom. destruct (m (ds_world s)) as [[a|e|] w]; [|eexists|done].
  - split; [eexists|done]. by apply dispatch_ok_world.
  - by apply dispatch_ok_world.
Qed.
Lemma fresh_world n s w : fresh n s -> fresh n (put_world w s).
Proof. by intros [? ? ? ? ? ? ? ?]. Qed.
Lemma fresh_working n s : fresh n s -> working s.
Proof. intros Hs. exists n. by apply fresh_ok. Qed.

Lemma run_open_capture n s name : fresh n s ->
  wruns (dispatcher_open_capture name) s (fun key s' => fresh (S n) s' /\ (capture_index key < S n)%nat).
Proof.
  intros Hs. unfold runs, dispatcher_open_capture. pose proof Hs as [Ht He Hg Ha Hd Hsc Hi Hr].
  destruct (open_capture (table_of s) name (ds_world s)) as [[r t] w] eqn:Ec.
  pose proof (open_capture_typed _ _ _ _ _ _ _ Ec Ht He) as Hc. destruct r as [key|e|]; [| |by right].
  - destruct Hc as (Ht'&He'&Hk). assert (Hf : fresh (S n) (put_dispatcher (set_lifecycle (ds_dispatcher
        (put_world w (put_dispatcher (set_table (ds_dispatcher s) t) s)))
        match interface_of t key ≫= interface_index t with
        | Some i => saw_interface (pd_lifecycle (ds_dispatcher (put_world w (put_dispatcher (set_table (ds_dispatcher s) t) s)))) i
        | None => pd_lifecycle (ds_dispatcher (put_world w (put_dispatcher (set_table (ds_dispatcher s) t) s)))
        end) (put_world w (put_dispatcher (set_table (ds_dispatcher s) t) s)))) by by split.
    split; [by eapply fresh_working|by split].
  - exists n. apply dispatch_ok_world, set_table_ok; [by apply fresh_ok|done].
Qed.

Lemma lm_insert_keyed n m name key : keyed n m -> (capture_index key < S n)%nat -> keyed (S n) (lm_insert m name key).2.
Proof.
  intros Hm Hk. assert (Hm' : keyed (S n) m) by (eapply Forall_impl; [exact Hm|intros x; cbn; lia]).
  unfold lm_insert. destruct (lm_get m name); cbn [snd].
  - clear Hm. induction Hm' as [|[k v] l Hv Hl IH]; [constructor|]. cbn. case_decide; constructor; try done.
  - apply Forall_app. split; [done|]. by constructor.
Qed.

Lemma run_open_each names : forall n s m, fresh n s -> keyed n m ->
  wruns (open_each names m) s (fun m' s' => exists n', fresh n' s' /\ keyed n' m').
Proof.
  induction names as [|name names IH]; intros n s m Hs Hm; cbn [open_each];
    [apply runs_ret; [by eapply fresh_working|by exists n]|].
  destruct (key_for m name); [by eapply IH|].
  eapply runs_bind with (P := fun x s' => match x with inr key => fresh (S n) s' /\ (capture_index key < S n)%nat | _ => True end).
  { by apply runs_attempt; [apply run_open_capture|]. }
  intros [e|key] s1 Hs1 Hk; [by apply runs_lift|]. destruct Hk as [Hf Hk]. eapply IH; [exact Hf|by apply lm_insert_keyed].
Qed.

Context `{Process W} `{IfAddrsAbi}.

(** The steps of [reflect] that fit the configuration to the host. *)
Definition entries_typed (c : Config) : Prop := Forall peers_typed (reflectors c).
Lemma v4_of_typed l : Forall ip_ok l -> Forall ip_ok (v4_of l).
Proof. rewrite !Forall_forall. intros Hl x [_ Hx]%list_elem_of_filter. by apply Hl. Qed.
Lemma fallen_back_typed r : peers_typed r -> peers_typed (fallen_back r).
Proof.
  intros [Hs Ht]. unfold fallen_back. destruct (decide _); [|done]. unfold peers_typed. cbn [ipv4_only source_peers target_peers].
  by destruct (source_peers r), (target_peers r); split; try apply v4_of_typed.
Qed.

Lemma fit_to_host_ok v6 c : Forall lists_ok (reflectors c) -> entries_typed c ->
  safe (fit_to_host v6 c) /\ forall c', fit_to_host v6 c = Ok c' -> entries_typed c'.
Proof.
  intros Hl Ht. unfold fit_to_host. destruct v6; cbn [negb]; [split; [done|by intros c' [= <-]]|].
  unfold fall_back_to_ipv4. pose proof (fall_back_reflectors_ok _ Hl) as Hf.
  destruct (fall_back_reflectors _) as [rs|e|]; cbn; [|done..]. destruct Hf as [-> _]. split; [done|]. intros c' [= <-].
  apply Forall_fmap. eapply Forall_impl; [exact Ht|]. apply fallen_back_typed.
Qed.

Lemma run_set_up n s c : fresh n s -> entries_typed c -> wruns (set_up c) s (fun _ _ => True).
Proof.
  intros Hs Hc. unfold set_up. eapply runs_bind with (P := fun _ s' => fresh n s').
  { destruct (user c) as [run_as|]; [|by apply runs_ret; [eapply fresh_working|]].
    eapply runs_bind with (P := fun _ s' => fresh n s'); [|by intros a s1 Hs1 Hf; apply runs_ret].
    apply run_map_err_works, run_world; [by eapply fresh_working|apply resolve_account_ok|]. intros a w. by apply fresh_world. }
  intros credentials s1 _ Hs1. eapply runs_bind with (P := fun m s' => exists n, fresh n s' /\ keyed n m).
  { apply run_map_err_works. eapply run_open_each; [exact Hs1|constructor]. }
  intros interfaces s2 _ (n2&Hs2&Hm). eapply runs_working with (n := n2).
  eapply runs_bind; [apply run_build_all; [done|done|by apply fresh_ok]|]. intros [] s3 Hs3 _.
  eapply runs_bind with (P := fun _ _ => True); [|by intros [] s4 Hs4 _; apply runs_ret].
  destruct (counter_interval c) as [interval|]; [|by apply runs_ret].
  eapply runs_bind; [by apply run_clock|]. intros now s4 [? ? ? ? [] ? ? ?] _. apply runs_modify; [|done]. by split; [..|split| | |].
Qed.

Lemma run_reflect n s c : fresh n s -> Forall lists_ok (reflectors c) -> entries_typed c -> wruns (reflect c) s (fun _ _ => True).
Proof.
  intros Hs Hl Hc. unfold reflect. eapply runs_bind with (P := fun _ s' => fresh n s').
  { unfold runs, has_ipv6. destruct (open_socket true (ds_world s)) as [r w].
    split; [apply (fresh_working n)|]; by apply fresh_world. }
  intros v6 s1 _ Hs1. destruct (fit_to_host_ok v6 c Hl Hc) as [Hfit Ht].
  eapply runs_bind with (P := fun c' s' => entries_typed c' /\ fresh n s').
  { apply runs_lift; [by eapply fresh_working|done|]. intros c' Hc'. split; [by apply Ht|done]. }
  intros c' s2 _ [Hc' Hs2]. eapply runs_bind; [by eapply run_set_up|]. intros [credentials|] s3 Hs3 _; [|by apply runs_ret].
  eapply runs_bind with (P := fun _ _ => True); [|by intros o s4 Hs4 _; apply runs_ret].
  apply run_map_err_works, run_world; [done|apply drop_to_safe|done].
Qed.

Context `{Host} `{Poller W} `{Adopt H} `{Tcp.Tcp W} `{ProxyHandler H} `{Monitor W} (Htcp : tcp_typed W).

(** C1. The daemon starts in order, and never panics. From a configuration that
    loads, on a host with IPv6 or without, whatever the operating system answers
    within the types of its calls, captures that read frame by frame or in batches
    alike: [reflect] opens the captures, wires every entry in its directions, and
    leaves the dispatcher in order or fails with an error and the dispatcher in
    order; and from there no calls of the reactor's, however many, panic or fail.
    Only an index space of 2^32 used up stops it. *)
Theorem daemon_never_panics c calls s :
  loaded c -> entries_typed c -> fresh 0 s ->
  match reflect c s with
  | (Ok _, s') => exists n, ok n s' /\
      match for_each dispatcher_call calls s' with
      | (Ok (), s'') => ok n s''
      | (Err _, _) => False
      | (Panic, s'') => full s''
      end
  | (Err _, s') => exists n, ok n s'
  | (Panic, s') => full_up s'
  end.
Proof.
  intros (_&Hl&_) Hc Hs. assert (Hl' : Forall lists_ok (reflectors c)).
  { eapply Forall_impl; [exact Hl|]. intros r Hr. apply (lo_valid _ Hr). }
  pose proof (run_reflect 0 s c Hs Hl' Hc) as Hr. unfold runs in Hr. destruct (reflect c s) as [[o|e|] s']; [|done..].
  destruct Hr as [[n Hn] _]. exists n. split; [done|].
  assert (Hcalls : runs (dispatch_ok n nothing_out) full (for_each dispatcher_call calls) s' (fun _ _ => True)).
  { apply runs_for_each; [done| |done]. intros [event|now] s1 _ Hs1; [by apply run_readable_event|by apply run_dispatcher_deadline]. }
  unfold runs in Hcalls. destruct (for_each _ _ _) as [[[]|[]|] s'']; [apply Hcalls|done].
Qed.
End startup.

(** ** Witness: one mDNS entry, on a host that answers *)

Definition no_process : Process Z :=
  {| lookup_errnos := {| ERANGE := 34; ENOENT := 2; ESRCH := 3; EBADF := 9; EPERM := 1 |};
     geteuid := fun _ => 1; getegid := fun _ => 1; getuid := fun _ => 1; getgid := fun _ => 1;
     setgroups := fun _ w => (inl OtherError, w); setgid := fun _ w => (inl OtherError, w); setegid := fun _ w => (inl OtherError, w);
     setuid := fun _ w => (inl OtherError, w); seteuid := fun _ w => (inl OtherError, w);
     enable_no_new_privs := fun w => (inl OtherError, w); query_no_new_privs := fun w => (inl OtherError, w);
     PROC_NO_NEW_PRIVS_ENABLE := 1; capget := fun w => (inl OtherError, w); capset := fun _ _ w => (inl OtherError, w);
     keep_caps := fun _ w => (inl OtherError, w); pin_socket := fun w => (inl OtherError, w);
     pin_to_device := fun _ _ w => (inl OtherError, w); getpwnam := fun _ _ w => ((0, None), w);
     getpwuid := fun _ _ w => ((0, None), w); getgrnam := fun _ _ w => ((0, None), w) |}.
Definition mdns_env : list (bytes * bytes) :=
  [(bs "NETFLECTOR_TV_SOURCE_IF", bs "lan0"); (bs "NETFLECTOR_TV_TARGET_IF", bs "iot0"); (bs "NETFLECTOR_TV_MDNS", bs "true")].
Definition new_daemon : DState () Z :=
  {| ds_dispatcher := dispatcher_new true 0 7; ds_reactor := reactor_new (); ds_world := 1 |}.
Definition loading : res ConfigError Config := raw ← parse_env mdns_env; config_try_from raw.
Abbreviation starting c := (reflect (H:=()) (H0:=framing_kernel ex_frame) (H1:=no_process) (H2:=ex_ifaddrs_abi) c new_daemon).
Abbreviation serving s calls := (for_each (dispatcher_call (H:=()) (H0:=framing_kernel ex_frame) (H1:=ex_host) (H2:=counting_poller)
  (H3:=unit_adopt) (H4:=counting_tcp) (H5:=unit_proxy) (H6:=quiet_monitor)) calls s).

Lemma loaded_from_env vars : match (raw ← parse_env vars; config_try_from raw) with Ok c => loaded c | Err _ => True | Panic => False end.
Proof.
  pose proof (parse_env_safe vars) as Hs. destruct (parse_env vars) as [raw|e|] eqn:E; cbn [mbind res_bind]; [|done..].
  apply config_try_from_ok. by eapply parse_env_typed.
Qed.
Lemma new_daemon_fresh : fresh 0 new_daemon.
Proof.
  split; [|cbn; lia|done|done|done|done|done|apply reactor_new_ok]. split; [split|constructor|done]; constructor.
Qed.

Definition without_peers (r : Value.Reflector) : bool :=
  bool_decide (source_peers r = None) && bool_decide (target_peers r = None).
Lemma without_peers_typed l : forallb without_peers l = true -> Forall peers_typed l.
Proof.
  rewrite forallb_forall, Forall_forall. intros Hl r Hin%list_elem_of_In. specialize (Hl r Hin).
  apply andb_true_iff in Hl as [Hs%bool_decide_eq_true Ht%bool_decide_eq_true]. unfold peers_typed. rewrite Hs, Ht. by split.
Qed.

Lemma daemon_never_panics_witness :
  let calls := [CallReadable {| ev_fd := 4; ev_user_data := 0 |}; CallDeadline (31 * 10 ^ 9)] in
  match loading with
  | Ok c => match starting c with
            | (Ok None, s) => length (it_captures (table_of s)) = 2%nat /\ length (slots (regs_of s)) = 2%nat /\
                exists n s', serving s calls = (Ok (), s') /\ dispatch_ok n nothing_out s'
            | _ => False
            end
  | _ => False
  end.
Proof.
  intros calls.
  assert (E : match loading with
              | Ok c => forallb without_peers (reflectors c) = true /\
                  match starting c with
                  | (Ok None, s) => length (it_captures (table_of s)) = 2%nat /\ length (slots (regs_of s)) = 2%nat /\
                      match serving s calls with (Ok (), _) => True | _ => False end
                  | _ => False
                  end
              | _ => False
              end) by (vm_compute; repeat split).
  assert (L : match loading with Ok c => loaded c | Err _ => True | Panic => False end) by apply loaded_from_env.
  revert E L. generalize loading. intros [c|e|]; [|intros []..]. intros [Hp E] L.
  pose proof (daemon_never_panics (H0:=framing_kernel ex_frame) (framing_typed ex_frame ex_frame_bytes) (H1:=no_process)
    (H2:=ex_ifaddrs_abi) (H3:=ex_host) (H4:=counting_poller) (H5:=unit_adopt) (H6:=counting_tcp) (H7:=unit_proxy)
    (H8:=quiet_monitor) counting_typed c calls new_daemon L (without_peers_typed _ Hp) new_daemon_fresh) as R.
  revert E R. generalize (starting c). intros [[[o|]|e|] s]; [intros []| |intros []..]. intros (H1&H2&E) (n&_&R).
  split; [exact H1|]. split; [exact H2|]. exists n. revert E R. generalize (serving s calls). intros [[[]|e|] s']; [|intros []..].
  intros _ R. exists s'. split; [reflexivity|exact R].
Defined.
