(* ===== verification/Logging.v ===== *)
(** Logging ([src/logging.rs], [resolve_logging] of [src/config.rs]): the civil date-time of a record, the lines
    written to stderr and to syslog, and the gate of rate-limited lines.  The
    [log] facade, the writes and [syslog] are not modelled.  Then that a stamp is
    the calendar's date, and when the memory reporter ([src/memory_report.rs]) reports. *)

From S2P Require Import Prelude Text Value UniqueList ConfigError Counters Multicast Config Env.

Local Open Scope Z_scope.

(** ** The date-time *)

(** [Utc] *)
Record Utc : Type := { year : Z; month : Z; day : Z; hour : Z; minute : Z; second : Z }.

(** A [u64] subtraction, which wraps. *)
Definition u64_sub (a b : Z) : Z := (a - b) mod 2 ^ 64.

(** [Utc::from_unix] *)
Definition year_of_era (doe : Z) : Z := u64_sub (u64_sub doe (doe / 1460) + doe / 36524) (doe / 146096) / 365.
Definition civil_from_days (days : Z) : Z * Z * Z :=
  let z := days + 719468 in
  let era := z / 146097 in
  let doe := u64_sub z (era * 146097) in
  let yoe := year_of_era doe in
  let doy := u64_sub doe (u64_sub (365 * yoe + yoe / 4) (yoe / 100)) in
  let mp := (5 * doy + 2) / 153 in
  let day := u64_sub doy ((153 * mp + 2) / 5) + 1 in
  let month := if mp <? 10 then mp + 3 else u64_sub mp 9 in
  (era * 400 + yoe + (if month <=? 2 then 1 else 0), month, day).
Definition from_unix (secs : Z) : Utc :=
  let '(y, m, d) := civil_from_days (secs / 86400) in
  {| year := y; month := m; day := d; hour := secs mod 86400 / 3600; minute := secs mod 3600 / 60; second := secs mod 60 |}.

(** [{:0width}] of a [u64], and [Utc]'s [Display] *)
Definition show_padded (width : nat) (n : Z) : bytes :=
  let digits := show_u64 n in replicate (width - length digits) 48 ++ digits.
Definition utc_display (u : Utc) : bytes :=
  show_padded 4 (year u) ++ bs "-" ++ show_padded 2 (month u) ++ bs "-" ++ show_padded 2 (day u) ++ bs "T" ++
  show_padded 2 (hour u) ++ bs ":" ++ show_padded 2 (minute u) ++ bs ":" ++ show_padded 2 (second u) ++ bs "Z".

(** ** Lines *)

(** A record: its level's name, its target and its message. *)
Record LogRecord : Type := { lr_level : bytes; lr_target : bytes; lr_args : bytes }.

(** [format_record] *)
Definition pad_left (width : nat) (text : bytes) : bytes := replicate (width - length text) 32 ++ text.
Definition format_record (now : Utc) (r : LogRecord) : bytes :=
  utc_display now ++ bs " " ++ pad_left 5 (lr_level r) ++ bs " " ++ lr_target r ++ bs ": " ++ lr_args r ++ [10].

(** [format_syslog]: a NUL within becomes a backslash and a zero *)
Definition escape_nul (line : bytes) : bytes := line ≫= fun b => if b =? 0 then [92; 48] else [b].
Definition format_syslog (r : LogRecord) : bytes := escape_nul (lr_target r ++ bs ": " ++ lr_args r) ++ [0].

(** ** Rate-limited lines *)

(** The two counters of a call site. *)
Record RateGate : Type := { rg_last : Z; rg_suppressed : Z }.
Definition gate_new : RateGate := {| rg_last := 0; rg_suppressed := 0 |}.
Definition u32_max : Z := 2 ^ 32 - 1.

(** [rate_gate] *)
Definition rate_gate (window now_secs : Z) (g : RateGate) : option Z * RateGate :=
  let window_secs := Z.min window u32_max in
  if (rg_last g =? 0) || (window_secs <=? Z.max 0 (now_secs - rg_last g))
  then (Some (rg_suppressed g), {| rg_last := Z.max now_secs 1; rg_suppressed := 0 |})
  else (None, {| rg_last := rg_last g; rg_suppressed := (rg_suppressed g + 1) mod 2 ^ 32 |}).

(** ** The configuration of logging *)

(** [Logging], and the probe of the file's keys *)
Record LogConfig : Type := { lg_level : LogLevel; lg_target : LogTarget }.
Record LoggingProbe : Type := { lp_level : option LogLevel; lp_target : option LogTarget }.

(** The keys as the TOML reader gives them, and [LoggingProbe::deserialize] *)
Record TomlProbe : Type := { tp_level : option bytes; tp_target : option bytes }.
Definition probe_deserialize (t : TomlProbe) : res SerdeError LoggingProbe :=
  level ← opt_deserialize log_level_deserialize (tp_level t);
  target ← opt_deserialize log_target_deserialize (tp_target t);
  Ok {| lp_level := level; lp_target := target |}.

(** [resolve_logging], over the TOML reader of another crate: the environment over
    the file over the default, key by key *)
Definition resolve_logging (toml_from_str : bytes -> option TomlProbe) (toml_text : option bytes)
    (env : list (bytes * bytes)) : res ConfigError LogConfig :=
  '(env_level, env_target) ← logging_from_env env;
  file ← match toml_text with
         | Some text => from_toml toml_from_str probe_deserialize text
         | None => Ok {| lp_level := None; lp_target := None |}
         end;
  Ok {| lg_level := default (default LInfo (lp_level file)) env_level;
        lg_target := default (default Stderr (lp_target file)) env_target |}.

(** ** The calendar, as the reference *)

Definition leap (y : Z) : bool := (y mod 4 =? 0) && (negb (y mod 100 =? 0) || (y mod 400 =? 0)).
Definition year_days (y : Z) : Z := if leap y then 366 else 365.
Definition month_days (y m : Z) : Z :=
  if m =? 2 then (if leap y then 29 else 28) else if existsb (Z.eqb m) [4; 6; 9; 11] then 30 else 31.

(** Days from the first of January 1970 to that of the year [n] years later,
    and from a year's first day to that of a month. *)
Fixpoint days_to_year (n : nat) : Z :=
  match n with O => 0 | S n => days_to_year n + year_days (1970 + Z.of_nat n) end.
Fixpoint days_to_month (y : Z) (n : nat) : Z :=
  match n with O => 0 | S n => days_to_month y n + month_days y (Z.of_nat n + 1) end.
Definition day_number (y m d : Z) : Z := days_to_year (Z.to_nat (y - 1970)) + days_to_month y (Z.to_nat (m - 1)) + (d - 1).
Definition unix_seconds (u : Utc) : Z :=
  86400 * day_number (year u) (month u) (day u) + 3600 * hour u + 60 * minute u + second u.

(** A date-time of the calendar. *)
Definition civil (u : Utc) : Prop :=
  1970 <= year u /\ 1 <= month u <= 12 /\ 1 <= day u <= month_days (year u) (month u) /\
  0 <= hour u < 24 /\ 0 <= minute u < 60 /\ 0 <= second u < 60.

(** What the log lines promise: the date-time of a record is the calendar's for
    its second, a syslog message is one whole C string, and a rate-limited line
    discloses every line it suppressed. *)

(** ** Years *)

(** The leap years up to [y], and the days before [y] counted from year 0. *)
Definition leaps (y : Z) : Z := y / 4 - y / 100 + y / 400.
Definition days_before (y : Z) : Z := 365 * y + leaps (y - 1).

Lemma leaps_step y : leaps y = leaps (y - 1) + (if leap y then 1 else 0).
Proof.
  unfold leaps, leap. destruct (Z.eqb_spec (y mod 4) 0), (Z.eqb_spec (y mod 100) 0), (Z.eqb_spec (y mod 400) 0); cbn [negb orb andb];
    Z.to_euclidean_division_equations; lia.
Qed.

Lemma days_to_year_closed n : days_to_year n = days_before (1970 + Z.of_nat n) - days_before 1970.
Proof.
  induction n as [|n IH]; [by rewrite Z.add_0_r, Z.sub_diag|]. cbn [days_to_year]. rewrite IH. unfold days_before, year_days.
  replace (1970 + Z.of_nat (S n) - 1) with (1970 + Z.of_nat n) by lia. rewrite (leaps_step (1970 + Z.of_nat n)).
  destruct (leap _); lia.
Qed.

Lemma leap_era era k : leap (400 * era + k) = leap k.
Proof.
  unfold leap. replace (400 * era + k) with (k + 100 * era * 4) at 1 by lia. rewrite Z.mod_add by lia.
  replace (400 * era + k) with (k + 4 * era * 100) at 1 by lia. rewrite Z.mod_add by lia.
  replace (400 * era + k) with (k + era * 400) by lia. by rewrite Z.mod_add by lia.
Qed.
Lemma leaps_era era k : leaps (400 * era + k) = 97 * era + leaps k.
Proof. unfold leaps. Z.to_euclidean_division_equations. lia. Qed.

(** ** The year of an era *)

(** Days of an era before its year [k]. *)
Definition era_days (k : Z) : Z := 365 * k + k / 4 - k / 100.

Lemma year_of_era_plain doe : 0 <= doe <= 146096 -> year_of_era doe = (doe - doe / 1460 + doe / 36524 - doe / 146096) / 365.
Proof.
  intros Hd. unfold year_of_era, u64_sub. f_equal. rewrite (Z.mod_small (doe - doe / 1460)) by (Z.to_euclidean_division_equations; lia).
  rewrite Z.mod_small; [lia|]. Z.to_euclidean_division_equations. lia.
Qed.
Lemma year_of_era_mono a b : 0 <= a <= b -> b <= 146096 -> year_of_era a <= year_of_era b.
Proof.
  intros Ha Hb. rewrite !year_of_era_plain by lia. apply Z.div_le_mono; [lia|]. Z.to_euclidean_division_equations. lia.
Qed.

(** The year found is right on the first and the last day of every year. *)
Lemma years_checked :
  forallb (fun k => (year_of_era (era_days k) =? k) && (year_of_era (era_days (k + 1) + (if k =? 399 then 1 else 0) - 1) =? k))
    (Z.of_nat <$> seq 0 400) = true.
Proof. vm_compute. reflexivity. Qed.

Lemma year_between n doe : 0 <= doe < era_days (Z.of_nat n) ->
  exists k, (k < n)%nat /\ era_days (Z.of_nat k) <= doe < era_days (Z.of_nat k + 1).
Proof.
  induction n as [|n IH]; [change (era_days (Z.of_nat 0)) with 0; lia|]. intros Hd. destruct (Z.le_gt_cases (era_days (Z.of_nat n)) doe) as [Hle|Hgt].
  - exists n. rewrite Nat2Z.inj_succ in Hd. unfold Z.succ in Hd. lia.
  - destruct IH as (k&Hk&Hd'); [lia|]. exists k. lia.
Qed.

(** The year of an era a day is in: its last has one day more. *)
Lemma year_of_era_spec doe : 0 <= doe <= 146096 -> exists k, 0 <= k <= 399 /\ year_of_era doe = k /\
  era_days k <= doe <= era_days k + 364 + (if leap (k + 1) then 1 else 0).
Proof.
  intros Hd. assert (Hk : exists k, (k < 400)%nat /\ era_days (Z.of_nat k) <= doe < era_days (Z.of_nat k + 1) + (if Z.of_nat k =? 399 then 1 else 0)).
  { destruct (Z.eq_dec doe 146096) as [->|Hne]; [exists 399%nat; split; [lia|vm_compute; split; [discriminate|reflexivity]]|].
    destruct (year_between 400 doe) as (k&Hk&Hb); [change (era_days (Z.of_nat 400)) with 146096; lia|]. exists k. split; [done|].
    destruct (_ =? _); lia. }
  destruct Hk as (k&Hk&Hlo&Hhi). exists (Z.of_nat k). split; [lia|].
  pose proof years_checked as Hall. rewrite forallb_forall in Hall.
  specialize (Hall (Z.of_nat k) ltac:(apply list_elem_of_In, list_elem_of_fmap; exists k; split; [done|apply elem_of_seq; lia])).
  apply andb_true_iff in Hall as [H1%Z.eqb_eq H2%Z.eqb_eq].
  assert (Hb : 0 <= era_days (Z.of_nat k)) by (unfold era_days; Z.to_euclidean_division_equations; lia).
  assert (He : era_days (Z.of_nat k + 1) + (if Z.of_nat k =? 399 then 1 else 0) - 1 =
    era_days (Z.of_nat k) + 364 + (if leap (Z.of_nat k + 1) then 1 else 0)).
  { assert (Hc : forallb (fun k => era_days (k + 1) + (if k =? 399 then 1 else 0) - 1 =? era_days k + 364 + (if leap (k + 1) then 1 else 0))
      (Z.of_nat <$> seq 0 400) = true) by (vm_compute; reflexivity).
    rewrite forallb_forall in Hc. apply Z.eqb_eq, Hc, list_elem_of_In, list_elem_of_fmap. exists k. split; [done|apply elem_of_seq; lia]. }
  assert (Hmax : era_days (Z.of_nat k + 1) + (if Z.of_nat k =? 399 then 1 else 0) - 1 <= 146096).
  { unfold era_days. destruct (Z.eqb_spec (Z.of_nat k) 399) as [->|]; [vm_compute; discriminate|]. Z.to_euclidean_division_equations. lia. }
  split; [|lia]. apply Z.le_antisymm.
  - rewrite <- H2. apply year_of_era_mono; lia.
  - rewrite <- H1. apply year_of_era_mono; lia.
Qed.

(** ** The month of a year that starts in March *)

Definition month_of_doy (doy : Z) : Z * Z :=
  let mp := (5 * doy + 2) / 153 in
  (if mp <? 10 then mp + 3 else u64_sub mp 9, u64_sub doy ((153 * mp + 2) / 5) + 1).
Definition march_days (m : Z) : Z := days_to_month 2001 (Z.to_nat (m - 1)) + (if m <=? 2 then 306 else -59).

Lemma months_checked :
  forallb (fun doy => let '(m, d) := month_of_doy doy in
    (march_days m + d - 1 =? doy) && Bool.eqb (m <=? 2) (306 <=? doy) && (1 <=? m) && (m <=? 12) && (1 <=? d) &&
    (d <=? month_days 2001 m + (if (m =? 2) && (doy =? 365) then 1 else 0))) (Z.of_nat <$> seq 0 366) = true.
Proof. vm_compute. reflexivity. Qed.

Lemma month_of_doy_spec doy m d : 0 <= doy <= 365 -> month_of_doy doy = (m, d) ->
  march_days m + d - 1 = doy /\ (m <= 2 <-> 306 <= doy) /\ 1 <= m <= 12 /\ 1 <= d <= month_days 2001 m + (if (m =? 2) && (doy =? 365) then 1 else 0).
Proof.
  intros Hd Hm. pose proof months_checked as Hall. rewrite forallb_forall in Hall.
  specialize (Hall doy ltac:(apply list_elem_of_In, list_elem_of_fmap; exists (Z.to_nat doy); split; [lia|apply elem_of_seq; lia])).
  rewrite Hm in Hall. rewrite !andb_true_iff in Hall. destruct Hall as [[[[[Hx He] ?] ?] ?] ?]. apply eqb_prop in He. lia.
Qed.

Lemma month_days_common y m : m <> 2 -> month_days y m = month_days 2001 m.
Proof. intros Hm. unfold month_days. by rewrite (proj2 (Z.eqb_neq _ _) Hm). Qed.

Lemma days_to_month_leap y m : 1 <= m <= 12 ->
  days_to_month y (Z.to_nat (m - 1)) = days_to_month 2001 (Z.to_nat (m - 1)) + (if (2 <? m) && leap y then 1 else 0).
Proof.
  intros Hm. assert (Hcases : m = 1 \/ m = 2 \/ 3 <= m <= 12) by lia. destruct Hcases as [-> | [-> | Hm']]; [done..|].
  rewrite (proj2 (Z.ltb_lt _ _)) by lia. cbn [andb].
  assert (Hn : exists n, Z.to_nat (m - 1) = S (S n)) by (exists (Z.to_nat (m - 3)); lia). destruct Hn as (n&->).
  clear Hm Hm'. induction n as [|n IH].
  - cbn [days_to_month]. unfold month_days. cbn. destruct (leap y); reflexivity.
  - cbn [days_to_month] in *. rewrite IH. rewrite (month_days_common y) by lia. lia.
Qed.

(** ** The date of a day *)

Lemma civil_from_days_shape days era doe k : 0 <= days < 2 ^ 63 -> days + 719468 = 146097 * era + doe -> 0 <= doe <= 146096 ->
  year_of_era doe = k -> era_days k <= doe ->
  civil_from_days days =
    let '(m, d) := month_of_doy (doe - era_days k) in (400 * era + k + (if m <=? 2 then 1 else 0), m, d).
Proof.
  intros Hd Hz Hdoe Hk Hlo. unfold civil_from_days, month_of_doy.
  assert (He : (days + 719468) / 146097 = era) by (Z.to_euclidean_division_equations; lia). rewrite He.
  assert (Hr : u64_sub (days + 719468) (era * 146097) = doe) by (unfold u64_sub; rewrite Z.mod_small; lia). rewrite Hr, Hk.
  assert (Hk0 : 0 <= k <= 399).
  { rewrite year_of_era_plain in Hk by done. split; [|]; Z.to_euclidean_division_equations; lia. }
  assert (Hy : u64_sub doe (u64_sub (365 * k + k / 4) (k / 100)) = doe - era_days k).
  { unfold u64_sub. unfold era_days in *. rewrite (Z.mod_small (365 * k + k / 4 - k / 100)) by (Z.to_euclidean_division_equations; lia).
    rewrite Z.mod_small; [lia|]. Z.to_euclidean_division_equations. lia. }
  rewrite Hy. cbv zeta. f_equal. f_equal. lia.
Qed.

Lemma civil_from_days_exact days y m d : 0 <= days < 2 ^ 63 -> civil_from_days days = (y, m, d) ->
  1970 <= y /\ 1 <= m <= 12 /\ 1 <= d <= month_days y m /\ day_number y m d = days.
Proof.
  intros Hd Hc. set (era := (days + 719468) / 146097). set (doe := (days + 719468) mod 146097).
  pose proof (Z.div_mod (days + 719468) 146097 ltac:(lia)) as Hz. pose proof (Z.mod_pos_bound (days + 719468) 146097 ltac:(lia)) as Hb.
  fold era doe in Hz, Hb. destruct (year_of_era_spec doe) as (k&Hk&Hy&Hlo&Hhi); [lia|].
  rewrite (civil_from_days_shape days era doe k Hd Hz ltac:(lia) Hy Hlo) in Hc.
  destruct (month_of_doy (doe - era_days k)) as [m' d'] eqn:Em.
  destruct (month_of_doy_spec (doe - era_days k) m' d') as (Hdoy&Hjan&Hm&Hday); [destruct (leap (k + 1)); lia|done|].
  injection Hc as Hyr <- <-. subst y. set (Y := 400 * era + k).
  assert (HY : leaps Y = 97 * era + k / 4 - k / 100).
  { unfold Y. rewrite leaps_era. unfold leaps. rewrite (Z.div_small k 400) by lia. lia. }
  unfold march_days in Hdoy. pose proof (days_to_month_leap (Y + (if m' <=? 2 then 1 else 0)) m' Hm) as Hdm.
  assert (Hmd : month_days (Y + (if m' <=? 2 then 1 else 0)) m' = month_days 2001 m' + (if (m' =? 2) && leap (k + 1) then 1 else 0)).
  { destruct (Z.eqb_spec m' 2) as [->|Hne]; [|rewrite month_days_common by done; cbn [andb]; lia].
    cbn [Z.leb Z.compare Pos.compare Pos.compare_cont andb]. unfold Y. replace (400 * era + k + 1) with (400 * era + (k + 1)) by lia.
    unfold month_days. rewrite leap_era. cbn. by destruct (leap (k + 1)). }
  assert (Hnum : day_number (Y + (if m' <=? 2 then 1 else 0)) m' d' = days /\ 1970 <= Y + (if m' <=? 2 then 1 else 0)).
  { unfold day_number. rewrite Hdm, days_to_year_closed. unfold era_days in *.
    assert (Hge : 1970 <= Y + (if m' <=? 2 then 1 else 0)).
    { assert (Hera : 4 <= era) by lia. destruct (Z.eq_dec era 4) as [->|]; [|destruct (m' <=? 2); lia].
      assert (Hk369 : 369 <= k) by (destruct (leap (k + 1)); Z.to_euclidean_division_equations; lia).
      destruct (Z.leb_spec m' 2); [lia|]. destruct (Z.eq_dec k 369) as [->|]; [|lia]. vm_compute (369 / 4) in *. lia. }
    split; [|done]. rewrite Z2Nat.id by lia. replace (1970 + (Y + (if m' <=? 2 then 1 else 0) - 1970)) with (Y + (if m' <=? 2 then 1 else 0)) by lia.
    unfold days_before. change (leaps (1970 - 1)) with 477.
    destruct (Z.leb_spec m' 2); [rewrite (proj2 (Z.ltb_ge _ _)) by lia|rewrite (proj2 (Z.ltb_lt _ _)) by lia]; cbn [andb].
    - replace (Y + 1 - 1) with Y by lia. lia.
    - pose proof (leaps_step Y) as Hs. rewrite Z.add_0_r. destruct (leap Y); lia. }
  destruct Hnum as [Hnum Hge]. split_and!; try done; [lia..|]. rewrite Hmd. destruct (Z.eqb_spec m' 2) as [->|]; cbn [andb] in *; [|lia].
  destruct (Z.eqb_spec (doe - era_days k) 365), (leap (k + 1)); lia.
Qed.

(** ** A second has one date-time *)

(** Stairs: a height says the step and how far along it. *)
Lemma stair (f g : nat -> Z) n m x x' : (forall n, f (S n) = f n + g n) -> (forall n, 0 <= g n) ->
  f n + x = f m + x' -> 0 <= x < g n -> 0 <= x' < g m -> n = m /\ x = x'.
Proof.
  intros Hf Hg He Hx Hx'. assert (Hle : forall a b, (a <= b)%nat -> f a <= f b).
  { intros a b Hab. induction Hab as [|b _ IH]; [lia|]. rewrite Hf. specialize (Hg b). lia. }
  assert (Hlt : forall a b, (a < b)%nat -> f a + g a <= f b) by (intros a b Hab; rewrite <- Hf; by apply Hle).
  destruct (Nat.lt_trichotomy n m) as [Hnm|[->|Hnm]]; [specialize (Hlt _ _ Hnm); lia|lia|specialize (Hlt _ _ Hnm); lia].
Qed.

Lemma days_in_year y m d : 1 <= m <= 12 -> 1 <= d <= month_days y m ->
  0 <= days_to_month y (Z.to_nat (m - 1)) + (d - 1) < year_days y.
Proof.
  intros Hm Hd. rewrite days_to_month_leap by done. unfold month_days in Hd. unfold year_days.
  assert (Hcases : m = 1 \/ m = 2 \/ m = 3 \/ m = 4 \/ m = 5 \/ m = 6 \/ m = 7 \/ m = 8 \/ m = 9 \/ m = 10 \/ m = 11 \/ m = 12) by lia.
  destruct (leap y); destruct_or! Hcases; subst m; cbn in Hd;
    match goal with |- context [days_to_month 2001 ?n] =>
      let v := eval vm_compute in (days_to_month 2001 n) in change (days_to_month 2001 n) with v end; cbn; lia.
Qed.

Lemma unix_seconds_inj u v : civil u -> civil v -> unix_seconds u = unix_seconds v -> u = v.
Proof.
  destruct u as [y m d h mi s], v as [y' m' d' h' mi' s']. unfold civil, unix_seconds, day_number. cbn [year month day hour minute second].
  intros (Hy&Hm&Hd&Hh&Hmi&Hs) (Hy'&Hm'&Hd'&Hh'&Hmi'&Hs') He.
  assert (Hdays : days_to_year (Z.to_nat (y - 1970)) + (days_to_month y (Z.to_nat (m - 1)) + (d - 1)) =
    days_to_year (Z.to_nat (y' - 1970)) + (days_to_month y' (Z.to_nat (m' - 1)) + (d' - 1)) /\ h = h' /\ mi = mi' /\ s = s') by lia.
  destruct Hdays as (Hdays&->&->&->).
  destruct (stair days_to_year (fun n => year_days (1970 + Z.of_nat n)) _ _ _ _ (fun n => eq_refl)
    ltac:(intros n; unfold year_days; destruct (leap _); lia) Hdays) as [Hyear Hday].
  { rewrite Z2Nat.id by lia. replace (1970 + (y - 1970)) with y by lia. by apply days_in_year. }
  { rewrite Z2Nat.id by lia. replace (1970 + (y' - 1970)) with y' by lia. by apply days_in_year. }
  assert (y = y') as <- by lia.
  destruct (stair (days_to_month y) (fun n => month_days y (Z.of_nat n + 1)) _ _ _ _ (fun n => eq_refl)
    ltac:(intros n; unfold month_days; repeat case_match; lia) Hday) as [Hmonth Hd1].
  { rewrite Z2Nat.id by lia. replace (m - 1 + 1) with m by lia. lia. }
  { rewrite Z2Nat.id by lia. replace (m' - 1 + 1) with m' by lia. lia. }
  f_equal; lia.
Qed.

Lemma from_unix_civil secs : 0 <= secs < 2 ^ 64 -> civil (from_unix secs) /\ unix_seconds (from_unix secs) = secs.
Proof.
  intros Hs. unfold from_unix. destruct (civil_from_days (secs / 86400)) as [[y m] d] eqn:Ec.
  destruct (civil_from_days_exact (secs / 86400) y m d) as (Hy&Hm&Hd&Hn); [Z.to_euclidean_division_equations; lia|done|].
  unfold civil, unix_seconds. cbn [year month day hour minute second]. rewrite Hn.
  split_and!; try lia; Z.to_euclidean_division_equations; lia.
Qed.

(** C40. A record's stamp is the calendar's. For every second a [u64] counts,
    the date-time computed is the one date-time of the Gregorian calendar, with its
    leap years and its months' lengths, that many seconds after 1970 began. *)
Theorem record_stamp_exact secs u : 0 <= secs < 2 ^ 64 ->
  (from_unix secs = u <-> civil u /\ unix_seconds u = secs).
Proof.
  intros Hs. destruct (from_unix_civil secs Hs) as [Hc He]. split; [by intros <-|].
  intros [Hu Hsecs]. apply unix_seconds_inj; [done..|]. by rewrite He.
Qed.
Lemma record_stamp_exact_witness : from_unix 4107542399 = {| year := 2100; month := 2; day := 28; hour := 23; minute := 59; second := 59 |}.
Proof. apply (record_stamp_exact 4107542399); [lia|]. split; [unfold civil; vm_compute; repeat split; discriminate|vm_compute; reflexivity]. Defined.

(** ** Syslog messages *)

(** A message is one C string: its only NUL ends it, whatever the record holds. *)
Lemma format_syslog_one_nul r : exists text, format_syslog r = text ++ [0] /\ 0 ∉ text.
Proof.
  eexists. split; [reflexivity|]. unfold escape_nul. intros (b&Hb&_)%list_elem_of_bind.
  destruct (Z.eqb_spec b 0); [set_solver|]. apply list_elem_of_singleton in Hb. congruence.
Qed.

(** ** Rate-limited lines *)

(** The calls at one site, by their second: what each emits. *)
Fixpoint gate_calls (window : Z) (nows : list Z) (g : RateGate) : list (option Z) * RateGate :=
  match nows with
  | [] => ([], g)
  | now :: nows =>
      let '(o, g) := rate_gate window now g in
      let '(rest, g) := gate_calls window nows g in (o :: rest, g)
  end.
Definition disclosed (outcomes : list (option Z)) : Z := foldr (fun o n => default 0 o + n) 0 outcomes.
Definition emitted (outcomes : list (option Z)) : Z := Z.of_nat (length (omap id outcomes)).

(** Every line suppressed is disclosed with the next one emitted, or still
    counted: as long as fewer than 2^32 are, none is lost. *)
Lemma gate_counts_all window nows : forall g, 0 <= rg_suppressed g -> rg_suppressed g + Z.of_nat (length nows) < 2 ^ 32 ->
  let '(outcomes, g') := gate_calls window nows g in
  emitted outcomes + disclosed outcomes + rg_suppressed g' = rg_suppressed g + Z.of_nat (length nows).
Proof.
  induction nows as [|now nows IH]; intros g Hg Hl; cbn [gate_calls]; [unfold emitted, disclosed; cbn; lia|].
  cbn [length] in *. unfold rate_gate. destruct (_ || _).
  - specialize (IH {| rg_last := Z.max now 1; rg_suppressed := 0 |}). cbn [rg_suppressed] in IH.
    destruct (gate_calls window nows _) as [rest g']. unfold emitted, disclosed in *. cbn. specialize (IH ltac:(lia) ltac:(lia)). lia.
  - specialize (IH {| rg_last := rg_last g; rg_suppressed := (rg_suppressed g + 1) mod 2 ^ 32 |}). cbn [rg_suppressed] in IH.
    rewrite Z.mod_small in IH by lia. rewrite Z.mod_small by lia.
    destruct (gate_calls window nows _) as [rest g']. unfold emitted, disclosed in *. cbn. specialize (IH ltac:(lia) ltac:(lia)). lia.
Qed.

(** Two lines of one site are a window apart. *)
Lemma gate_spaced window now g n g' now' n' g'' : 0 < window <= u32_max -> 0 <= now <= now' ->
  rate_gate window now g = (Some n, g') -> rate_gate window now' g' = (Some n', g'') -> now + window <= Z.max now' (window + 1).
Proof.
  intros Hw Hn H1 H2. unfold rate_gate in *. destruct (_ || _) in H1; [|done]. injection H1 as <- <-. cbn [rg_last] in H2.
  rewrite (proj2 (Z.eqb_neq (Z.max now 1) 0)) in H2 by lia. cbn [orb] in H2. destruct (_ <=? _) eqn:E; [|done]. lia.
Qed.

Example from_unix_ex : utc_display (from_unix 951782400) = bs "2000-02-29T00:00:00Z".
Proof. vm_compute. reflexivity. Qed.
Example unix_seconds_ex : unix_seconds (from_unix 1785000000) = 1785000000.
Proof. vm_compute. reflexivity. Qed.

(** The memory reporter ([src/memory_report.rs]): when it reports, and the peak it
    keeps where the system only samples one.  The figures' system calls and the
    report's line are not modelled. *)

(** [MemoryReporter], its instants in nanoseconds *)
Record MemoryReporter : Type := { mr_interval : option Z; mr_next : option Z }.
Definition reporter_new (interval : option Z) (now : Z) : MemoryReporter :=
  {| mr_interval := interval; mr_next := (fun i => now + i) <$> interval |}.

(** Its [next_deadline] and [on_deadline]; a dump leaves it as it is. *)
Definition reporter_next_deadline (m : MemoryReporter) : option Z := mr_next m.
Definition reporter_on_deadline (now : Z) (m : MemoryReporter) : MemoryReporter := reporter_new (mr_interval m) now.

(** [peak_rss_kib], of [ru_maxrss] where it could be read; macOS counts bytes *)
Definition peak_rss_kib (macos : bool) (maxrss : option Z) : Z :=
  match maxrss with
  | None => 0
  | Some rss => let rss := if rss <? 0 then 0 else rss in if macos then rss / 1024 else rss
  end.

(** [fold_observed]: the static, and the peak observed *)
Definition fold_observed (rss observed : Z) : Z * Z := (Z.max observed rss, Z.max observed rss).

(** A reporter with an interval always waits for a later instant, one without
    waits for none: it never keeps the reactor from sleeping. *)
Lemma reporter_waits now m m' : (forall i, mr_interval m = Some i -> 0 < i) -> reporter_on_deadline now m = m' ->
  match reporter_next_deadline m' with Some next => now < next | None => mr_interval m = None end /\ mr_interval m' = mr_interval m.
Proof.
  intros Hi <-. unfold reporter_next_deadline, reporter_on_deadline, reporter_new. cbn. split; [|done].
  destruct (mr_interval m) as [i|]; cbn; [|done]. specialize (Hi i eq_refl). lia.
Qed.

(** The peak observed never falls and bounds every figure seen. *)
Lemma observed_bounds figures : forall observed, let peak := foldl (fun o rss => (fold_observed rss o).1) observed figures in
  observed <= peak /\ Forall (fun rss => rss <= peak) figures.
Proof.
  induction figures as [|rss figures IH]; intros observed; cbn [foldl]; [by split; [lia|]|].
  destruct (IH (Z.max observed rss)) as [H1 H2]. unfold fold_observed in *. cbn [fst] in *. split; [lia|]. constructor; [lia|done].
Qed.
