(* ===== verification/Sys.v ===== *)
(** The system-call helpers ([src/sys.rs]): sockets opened close-on-exec and
    non-blocking, IP addresses to and from the kernel's, receive buffers and the
    open-file limit; and the query of a routing socket ([src/net/route_query.rs]). *)

From S2P Require Import Prelude Text Addr Names Interface Kernel Tcp Filter Effect.

Local Open Scope Z_scope.

(** The [libc] constants these calls name. *)
Class SysConsts : Type := {
  SOCK_CLOEXEC : Z; SOCK_NONBLOCK : Z; SOCK_DGRAM : Z; SOCK_RAW : Z; FD_CLOEXEC : Z; O_NONBLOCK : Z;
}.

(** A [sockaddr_storage] by its family, its fields as they lie in memory: the
    length octet (of the BSDs), the port's and the address's octets. *)
Inductive SockStorage : Type :=
  | SockIn (sin_len : Z) (sin_port sin_addr : bytes)
  | SockIn6 (sin6_len : Z) (sin6_port sin6_flowinfo sin6_addr : bytes) (sin6_scope_id : Z)
  | SockOther (family : Z).
Definition SOCKADDR_IN_SIZE : Z := 16.
Definition SOCKADDR_IN6_SIZE : Z := 28.

(** The system calls the helpers make. *)
Class SysCalls (W : Type) : Type := {
  socket : Z -> Z -> Z -> Sys W Z;
  fcntl_getfd : Z -> Sys W Z; fcntl_setfd : Z -> Z -> Sys W ();
  fcntl_getfl : Z -> Sys W Z; fcntl_setfl : Z -> Z -> Sys W ();
  (** [bind] of an address of this length, and [getsockname] *)
  bind_call : Z -> SockStorage -> Z -> Sys W ();
  getsockname : Z -> Sys W SockStorage;
  (** [SO_RCVBUF] read and set, [SO_RCVTIMEO] as seconds and microseconds, [SO_RERROR] *)
  get_rcvbuf : Z -> Sys W Z; set_rcvbuf : Z -> Z -> Sys W ();
  set_rcvtimeo : Z -> Z -> Z -> Sys W ();
  set_rerror : Z -> Sys W ();
  (** [SO_ATTACH_FILTER] *)
  attach_filter : Z -> list BpfInsn -> Sys W ();
  (** the soft and the hard limit of [RLIMIT_NOFILE] *)
  get_nofile : Sys W (Z * Z); set_nofile : Z * Z -> Sys W ();
}.

(** [needs_scope_id] *)
Definition needs_scope_id (v6 : Z) : bool :=
  Ipv6.is_unicast_link_local v6 ||
  (Ipv6.is_multicast v6 && existsb (Z.eqb (Z.land (Z.shiftr v6 112) 15)) [1; 2]).

Section sys.
Context {W : Type} `{Kernel W, LibcConsts, SysConsts, SysCalls W}.

(** [set_nonblock] and [set_cloexec_nonblock], of macOS *)
Definition set_nonblock (fd : Z) : Sys W () := flags ← fcntl_getfl fd; fcntl_setfl fd (Z.lor flags O_NONBLOCK).
Definition set_cloexec_nonblock (fd : Z) : Sys W () :=
  flags ← fcntl_getfd fd;
  _ ← fcntl_setfd fd (Z.lor flags FD_CLOEXEC);
  set_nonblock fd.

(** [open_socket] and [blocking_socket] *)
Definition sys_open_socket (family base_type protocol : Z) : Sys W Z :=
  match os with
  | MacOs => fd ← socket family base_type protocol; _ ← set_cloexec_nonblock fd; mret fd
  | _ => socket family (Z.lor (Z.lor base_type SOCK_CLOEXEC) SOCK_NONBLOCK) protocol
  end.
Definition blocking_socket (family base_type protocol : Z) : Sys W Z :=
  socket family (Z.lor base_type SOCK_CLOEXEC) protocol.

(** [sockaddr_for]: the storage and its length *)
Definition bsd_len (len : Z) : Z := match os with Linux => 0 | _ => len end.
Definition sockaddr_for (addr : IpAddr) (port scope_id : Z) : SockStorage * Z :=
  match addr with
  | V4 v4 => (SockIn (bsd_len SOCKADDR_IN_SIZE) (be 2 port) (v4_octets v4), SOCKADDR_IN_SIZE)
  | V6 v6 => (SockIn6 (bsd_len SOCKADDR_IN6_SIZE) (be 2 port) (replicate 4 0) (v6_octets v6)
                (if needs_scope_id v6 then scope_id else 0), SOCKADDR_IN6_SIZE)
  end.

(** [bind] *)
Definition sys_bind (fd : Z) (addr : IpAddr) (port scope_id : Z) : Sys W () :=
  let '(storage, len) := sockaddr_for addr port scope_id in bind_call fd storage len.

(** [local_addr]; the flow and scope of an IPv6 address are not kept. *)
Definition local_addr_of (storage : SockStorage) : io SocketAddr :=
  match storage with
  | SockIn _ port addr => inr {| ip := V4 (of_be addr); port := of_be port |}
  | SockIn6 _ port _ addr _ => inr {| ip := V6 (of_be addr); port := of_be port |}
  | SockOther _ => inl OtherError
  end.
Definition local_addr (fd : Z) : Sys W SocketAddr := fun w =>
  let '(r, w) := getsockname fd w in (match r with inl e => inl e | inr storage => local_addr_of storage end, w).

(** [set_recv_timeout], of nanoseconds *)
Definition sys_set_recv_timeout (fd timeout : Z) : Sys W () :=
  set_rcvtimeo fd (timeout / 10 ^ 9) (timeout mod 10 ^ 9 / 1000).

(** [increase_recv_buffer]: best effort, and never a smaller one *)
Definition increase_recv_buffer (fd bytes : Z) : Sys W () :=
  current ← sys_try (get_rcvbuf fd);
  let grow := (_ ← sys_try (set_rcvbuf fd bytes); mret ()) in
  match current with inr current => if bytes <=? current then mret () else grow | inl _ => grow end.

(** [raise_file_limit] *)
Definition raise_file_limit : Sys W () :=
  limit ← sys_try get_nofile;
  match limit with
  | inl _ => mret ()
  | inr (cur, max) => if max <=? cur then mret () else _ ← sys_try (set_nofile (max, max)); mret ()
  end.

(** [PortReservation::create]: the descriptor, and the address reserved *)
Definition drop_all : list BpfInsn := [insn 0x0006 0 0 0x00000000].
Definition attach_drop_all_filter (fd : Z) : Sys W () := attach_filter fd drop_all.
Definition reservation_create (addr : IpAddr) (ifindex : Z) : Sys W (Z * SocketAddr) :=
  let family := match addr with V4 _ => AF_INET | V6 _ => AF_INET6 end in
  fd ← sys_open_socket family SOCK_DGRAM 0;
  _ ← match os with Linux => attach_drop_all_filter fd | _ => mret () end;
  _ ← sys_bind fd addr 0 ifindex;
  bound ← local_addr fd;
  mret (fd, {| ip := addr; port := port bound |}).
End sys.

(** ** Addresses there and back *)

(** What [sockaddr_for] stores reads back as the address and the port, on every
    system, and the scope is stored exactly where the kernel consults it. *)
Lemma sockaddr_roundtrip {W} `{Kernel W} addr port scope_id : ip_ok addr -> word_ok 16 port ->
  local_addr_of (sockaddr_for addr port scope_id).1 = inr {| ip := addr; port := port |}.
Proof.
  unfold word_ok. intros Ha Hp. unfold sockaddr_for, local_addr_of. destruct addr as [v4|v6]; cbn [fst]; unfold ip_ok, word_ok in Ha;
    unfold v4_octets, v6_octets; by rewrite !of_be_be.
Qed.

(** The smaller of two buffers is never asked for. *)
Lemma increase_never_shrinks {W} `{SysCalls W} fd bytes w current w1 :
  get_rcvbuf fd w = (inr current, w1) -> bytes <= current -> increase_recv_buffer fd bytes w = (inr (), w1).
Proof.
  intros Hg Hle. unfold increase_recv_buffer, mbind, Sys_bind, sys_try. rewrite Hg. by rewrite (proj2 (Z.leb_le _ _) Hle).
Qed.

(** The interface a destination is routed through ([src/net/route_query.rs]): one
    [RTM_GET] on a routing socket, and the reads past the kernel's broadcasts to
    its reply.  The layout of a routing message is the system's. *)

(** [rt_msghdr], the fields the program reads or sets *)
Record RtMsgHdr : Type := {
  rtm_msglen : Z; rtm_version : Z; rtm_type : Z; rtm_addrs : Z; rtm_pid : Z; rtm_seq : Z; rtm_errno : Z; rtm_flags : Z; rtm_index : Z;
}.
Class RouteQueryAbi : Type := {
  PF_ROUTE : Z; RTM_VERSION : Z; RTM_GET : Z; RTA_DST : Z; RTF_REJECT : Z; RTF_BLACKHOLE : Z; ROUTE_ESRCH : Z;
  rt_msghdr_size : nat;
  rt_msghdr_of : bytes -> RtMsgHdr;
}.
(** [RouteRequest]: the header and the one address it names *)
Record RouteRequest : Type := { rq_hdr : RtMsgHdr; rq_dst : SockStorage }.
Class RouteCalls (W : Type) : Type := {
  getpid : Z;
  route_write : Z -> RouteRequest -> Sys W nat;
  (** [read] into a buffer of this length *)
  route_read : Z -> nat -> Sys W bytes;
}.

Definition ROUTE_READ_BUF : nat := Z.to_nat 2048.
Definition READ_TIMEOUT : Z := 10 ^ 9.
Definition REPLY_DEADLINE : Z := 5 * 10 ^ 9.
Definition RECV_BUFFER : Z := 256 * 1024.
Definition REQUEST_SEQ : Z := 1.

Section query.
Context {W : Type} `{Kernel W, Sockets W, LibcConsts, SysConsts, SysCalls W, RouteQueryAbi, RouteCalls W}.

(** [build_request] *)
Definition build_request (dst : Z) : RouteRequest :=
  {| rq_hdr := {| rtm_msglen := Z.of_nat rt_msghdr_size + SOCKADDR_IN_SIZE; rtm_version := RTM_VERSION; rtm_type := RTM_GET;
                  rtm_addrs := RTA_DST; rtm_pid := getpid; rtm_seq := REQUEST_SEQ; rtm_errno := 0; rtm_flags := 0; rtm_index := 0 |};
     rq_dst := SockIn SOCKADDR_IN_SIZE [0; 0] (v4_octets dst) |}.

(** [is_our_reply] *)
Definition is_our_reply (hdr : RtMsgHdr) : bool :=
  (rtm_version hdr =? RTM_VERSION) && (rtm_type hdr =? RTM_GET) && (rtm_pid hdr =? getpid) && (rtm_seq hdr =? REQUEST_SEQ).

(** What a reply says. *)
Definition reply_says (hdr : RtMsgHdr) : io Z :=
  if negb (rtm_errno hdr =? 0) then inl (OsError (rtm_errno hdr))
  else if negb (Z.land (rtm_flags hdr) (Z.lor RTF_REJECT RTF_BLACKHOLE) =? 0) then inl OtherError
  else if rtm_index hdr =? 0 then inl OtherError else inr (rtm_index hdr).

Definition route_sys {A} (m : Sys W A) : M W IoError A := fun w =>
  match m w with (inr a, w) => (Ok a, w) | (inl e, w) => (Err e, w) end.
Definition route_now : M W IoError Z := update clock.

(** The loop of [read_reply], and [read_reply] itself; the fuel outlasts the
    deadline. *)
Fixpoint read_reply_loop (fuel : nat) (fd deadline : Z) : M W IoError Z :=
  match fuel with
  | O => lift Panic
  | S fuel =>
      now ← route_now;
      if deadline <=? now then fail OtherError
      else
        read ← route_sys (status (route_read fd ROUTE_READ_BUF));
        match read with
        | WouldBlock => fail OtherError
        | Ready data =>
            if decide (length data < rt_msghdr_size)%nat then read_reply_loop fuel fd deadline
            else
              let hdr := rt_msghdr_of (take rt_msghdr_size data) in
              if negb (is_our_reply hdr) then read_reply_loop fuel fd deadline
              else match reply_says hdr with inl e => fail e | inr index => mret index end
        end
  end.
Definition read_reply (fuel : nat) (fd : Z) : M W IoError Z :=
  now ← route_now; read_reply_loop fuel fd (now + REPLY_DEADLINE).

(** [open_route_socket] *)
Definition open_route_socket : Sys W Z :=
  fd ← blocking_socket PF_ROUTE SOCK_RAW AF_INET;
  _ ← sys_set_recv_timeout fd READ_TIMEOUT;
  _ ← increase_recv_buffer fd RECV_BUFFER;
  _ ← set_rerror fd;
  mret fd.

(** [egress_ifindex] *)
Definition route_egress_ifindex (fuel : nat) (dst : Z) : M W IoError Z :=
  fd ← route_sys open_route_socket;
  written ← attempt (route_sys (route_write fd (build_request dst)));
  match written with
  | inl e => fail (if bool_decide (raw_os_error e = Some ROUTE_ESRCH) then OtherError else e)
  | inr _ => read_reply fuel fd
  end.

(** ** The exchange ends with our reply *)

(** The clock goes on, and a read takes time. *)
Record route_time (time : W -> Z) : Prop := {
  rt_clock : forall w, (clock w).1 = time w /\ time w <= time (clock w).2;
  rt_read : forall fd n w, time w < time (route_read fd n w).2;
}.

(** What the loop gives is what one of our own replies says: a route that is
    no error, discards nothing and names an interface. *)
Definition own_reply (index : Z) : Prop :=
  exists hdr, is_our_reply hdr = true /\ rtm_errno hdr = 0 /\ Z.land (rtm_flags hdr) (Z.lor RTF_REJECT RTF_BLACKHOLE) = 0 /\
    rtm_index hdr = index /\ index <> 0.

Lemma reply_says_own hdr index : is_our_reply hdr = true -> reply_says hdr = inr index -> own_reply index.
Proof.
  intros Hown. unfold reply_says. destruct (Z.eqb_spec (rtm_errno hdr) 0) as [He|]; cbn [negb]; [|done].
  destruct (Z.eqb_spec (Z.land (rtm_flags hdr) (Z.lor RTF_REJECT RTF_BLACKHOLE)) 0) as [Hf|]; cbn [negb]; [|done].
  destruct (Z.eqb_spec (rtm_index hdr) 0) as [|Hi]; [done|]. intros [= <-]. exists hdr. by split_and!.
Qed.

Lemma read_reply_loop_spec (time : W -> Z) fuel fd deadline w : route_time time -> deadline < time w + Z.of_nat fuel -> (0 < fuel)%nat ->
  match read_reply_loop fuel fd deadline w with (Ok index, _) => own_reply index | (Err _, _) => True | (Panic, _) => False end.
Proof.
  intros Htime. revert w. induction fuel as [|fuel IH]; intros w Hf Hpos; [lia|]. cbn [read_reply_loop].
  unfold route_now, route_sys, status, update, mbind, M_bind.
  destruct (rt_clock _ Htime w) as [Et Hc]. destruct (clock w) as [now w1]. cbn [fst snd] in *. subst now.
  destruct (Z.leb_spec deadline (time w)) as [|Hlt]; [done|]. pose proof (rt_read _ Htime fd ROUTE_READ_BUF w1) as Hr.
  destruct (route_read fd ROUTE_READ_BUF w1) as [[e|data] w2]; cbn [from_syscall fst snd] in *; [by destruct (would_block e)|].
  case_decide as Hd; [apply IH; lia|]. destruct (is_our_reply _) eqn:Eo; cbn [negb]; [|apply IH; lia].
  destruct (reply_says _) as [e|index] eqn:Es; [done|]. by eapply reply_says_own.
Qed.

(** An exchange of [egress_ifindex] ends, and the index it gives is one our own
    reply named. *)
Lemma egress_query_answers (time : W -> Z) fuel dst w : route_time time -> REPLY_DEADLINE < Z.of_nat fuel ->
  match route_egress_ifindex fuel dst w with (Ok index, _) => own_reply index | (Err _, _) => True | (Panic, _) => False end.
Proof.
  intros Htime Hf. unfold route_egress_ifindex, attempt, route_sys, mbind, M_bind.
  destruct (open_route_socket w) as [[e|fd] w1]; [done|]. destruct (route_write _ _ w1) as [[e|n] w2]; [done|].
  unfold read_reply, route_now, update, mbind, M_bind. destruct (rt_clock _ Htime w2) as [Et Hc].
  destruct (clock w2) as [now w3]. cbn [fst snd] in *. apply (read_reply_loop_spec time); [done|lia|unfold REPLY_DEADLINE in Hf; lia].
Qed.
End query.
