(* ===== verification/Poll.v ===== *)
(** The readiness back ends of the reactor ([src/reactor/poll.rs],
    [src/reactor/poll/epoll.rs], [src/reactor/poll/kqueue.rs]): interest armed and
    disarmed in the kernel, a wait into a buffer of events, and the events taken
    from it one by one.  Each gives the [Poller] the reactor is proved against. *)

From stdpp Require Import gmap.
From S2P Require Import Prelude Text Addr Names Interface Kernel Tcp Arena Reactor.

Local Open Scope Z_scope.

(** [PollEvent] *)
Record PollEvent : Type := { pe_key : Key; pe_readiness : Readiness }.

(** A back end's buffer: the slots a wait overwrites, how many are ready and the
    next to take.  A slot is an event's flags or filter, and its token. *)
Record PollBuffer : Type := { pb_events : list (Z * Z); pb_ready : nat; pb_next : nat }.
Definition poll_buffer (capacity : nat) : PollBuffer := {| pb_events := replicate capacity (0, 0); pb_ready := 0; pb_next := 0 |}.
(** What a wait that returned these events leaves. *)
Definition fill_events (events : list (Z * Z)) (b : PollBuffer) : PollBuffer :=
  {| pb_events := events ++ drop (length events) (pb_events b); pb_ready := length events; pb_next := 0 |}.
(** What an interrupted one leaves. *)
Definition no_events (b : PollBuffer) : PollBuffer := {| pb_events := pb_events b; pb_ready := 0; pb_next := pb_next b |}.

(** [next_event], given how an event is read *)
Definition next_event {E} (decode : Z * Z -> PollEvent) (b : PollBuffer) : res E (option PollEvent * PollBuffer) :=
  if decide (pb_ready b <= pb_next b)%nat then Ok (None, b)
  else
    event ← idx (pb_events b) (pb_next b);
    Ok (Some (decode event), {| pb_events := pb_events b; pb_ready := pb_ready b; pb_next := S (pb_next b) |}).
(** The events of a wait, taken until none is left. *)
Fixpoint take_events {E} (fuel : nat) (decode : Z * Z -> PollEvent) (b : PollBuffer) : res E (list PollEvent) :=
  match fuel with
  | O => Panic
  | S fuel =>
      '(event, b) ← next_event decode b;
      match event with None => Ok [] | Some e => rest ← take_events fuel decode b; Ok (e :: rest) end
  end.

Definition i32_max : Z := 2 ^ 31 - 1.
Definition max_events (b : PollBuffer) : Z := Z.min (Z.of_nat (length (pb_events b))) i32_max.

(** ** epoll *)

Class Epoll (W : Type) : Type := {
  EPOLLIN : Z; EPOLLOUT : Z; EPOLLERR : Z; EPOLLHUP : Z;
  POLL_ENOENT : Z; POLL_EINTR : Z;
  (** [epoll_create1(EPOLL_CLOEXEC)] *)
  epoll_create : Sys W Z;
  (** [epoll_ctl], by its operation; a mask and a token *)
  ctl_add : Z -> Z -> Z -> Z -> Sys W (); ctl_mod : Z -> Z -> Z -> Z -> Sys W (); ctl_del : Z -> Z -> Sys W ();
  (** [epoll_wait] for at most this many events, with a timeout in milliseconds *)
  epoll_wait : Z -> Z -> Z -> Sys W (list (Z * Z));
}.

Section epoll.
Context {W : Type} `{Epoll W}.

Definition EPOLL_READ : Z := EPOLLIN.
Definition EPOLL_WRITE : Z := EPOLLOUT.
Definition EPOLL_READABLE : Z := Z.lor (Z.lor EPOLLIN EPOLLERR) EPOLLHUP.

(** [Poller::new], [add], [set_interest] and [remove] *)
Definition epoll_new (capacity : nat) : Sys W (Z * PollBuffer) := poll_fd ← epoll_create; mret (poll_fd, poll_buffer capacity).
Definition epoll_add (poll_fd fd : Z) (key : Key) : Sys W () := ctl_add poll_fd fd EPOLL_READ (to_u64 key).
Definition interest_mask (read write : bool) : Z := Z.lor (if read then EPOLL_READ else 0) (if write then EPOLL_WRITE else 0).
Definition epoll_set_interest (poll_fd fd : Z) (key : Key) (read write : bool) : Sys W () :=
  ctl_mod poll_fd fd (interest_mask read write) (to_u64 key).
Definition epoll_remove (poll_fd fd : Z) : Sys W () :=
  r ← sys_try (ctl_del poll_fd fd);
  match r with
  | inl e => if bool_decide (raw_os_error e = Some POLL_ENOENT) then mret () else sys_err e
  | inr () => mret ()
  end.

(** The timeout in milliseconds, rounded up; and [wait] *)
Definition timeout_ms (timeout : option Z) : Z :=
  match timeout with None => -1 | Some d => Z.min ((d + 999999) / 1000000) i32_max end.
Definition epoll_wait_events (poll_fd : Z) (timeout : option Z) (b : PollBuffer) : Sys W (nat * PollBuffer) :=
  r ← sys_try (epoll_wait poll_fd (max_events b) (timeout_ms timeout));
  match r with
  | inl e => if bool_decide (raw_os_error e = Some POLL_EINTR) then mret (0%nat, no_events b) else sys_err e
  | inr events => mret (length events, fill_events events b)
  end.

(** [next_event]'s reading of an event *)
Definition epoll_decode (event : Z * Z) : PollEvent :=
  {| pe_key := from_u64 event.2;
     pe_readiness := {| readable := negb (Z.land event.1 EPOLL_READABLE =? 0); writable := negb (Z.land event.1 EPOLL_WRITE =? 0) |} |}.
End epoll.

(** ** kqueue *)

(** What is asked of a filter. *)
Inductive Change : Type := EvAddEnable | EvEnable | EvDisable | EvDelete.
Class Kqueue (W : Type) : Type := {
  EVFILT_READ : Z; EVFILT_WRITE : Z;
  KQ_ENOENT : Z; KQ_EINTR : Z;
  kqueue_create : Sys W Z;
  (** [kevent] of one change: a descriptor, a filter and a token *)
  kevent_change : Z -> Z -> Z -> Change -> Z -> Sys W ();
  (** [kevent] for at most this many events, with a timeout in whole seconds and nanoseconds *)
  kevent_wait : Z -> Z -> option (Z * Z) -> Sys W (list (Z * Z));
}.

Section kqueue.
Context {W : Type} `{Kqueue W}.

Definition kqueue_new (capacity : nat) : Sys W (Z * PollBuffer) := poll_fd ← kqueue_create; mret (poll_fd, poll_buffer capacity).
(** [change_raw], its descriptor never negative; and [change] *)
Definition change_raw (poll_fd fd filter : Z) (flags : Change) (token : Z) : Sys W () := kevent_change poll_fd fd filter flags token.
Definition change (poll_fd fd filter : Z) (flags : Change) (key : Key) : Sys W () := change_raw poll_fd fd filter flags (to_u64 key).
Definition kqueue_add (poll_fd fd : Z) (key : Key) : Sys W () := change poll_fd fd EVFILT_READ EvAddEnable key.
Definition kqueue_set_interest (poll_fd fd : Z) (key : Key) (read write : bool) : Sys W () :=
  _ ← change poll_fd fd EVFILT_READ (if read then EvEnable else EvDisable) key;
  r ← sys_try (change poll_fd fd EVFILT_WRITE (if write then EvAddEnable else EvDelete) key);
  match r with
  | inr () => mret ()
  | inl e => if negb write && bool_decide (raw_os_error e = Some KQ_ENOENT) then mret () else sys_err e
  end.
Definition remove_filter (poll_fd fd filter : Z) : Sys W () :=
  r ← sys_try (change_raw poll_fd fd filter EvDelete 0);
  match r with
  | inr () => mret ()
  | inl e => if bool_decide (raw_os_error e = Some KQ_ENOENT) then mret () else sys_err e
  end.
Definition kqueue_remove (poll_fd fd : Z) : Sys W () :=
  _ ← remove_filter poll_fd fd EVFILT_READ; remove_filter poll_fd fd EVFILT_WRITE.

(** [to_timespec]; and [wait] *)
Definition to_timespec (timeout : Z) : Z * Z := (Z.min (timeout / 10 ^ 9) (2 ^ 63 - 1), timeout mod 10 ^ 9).
Definition kqueue_wait_events (poll_fd : Z) (timeout : option Z) (b : PollBuffer) : Sys W (nat * PollBuffer) :=
  r ← sys_try (kevent_wait poll_fd (max_events b) (to_timespec <$> timeout));
  match r with
  | inl e => if bool_decide (raw_os_error e = Some KQ_EINTR) then mret (0%nat, no_events b) else sys_err e
  | inr events => mret (length events, fill_events events b)
  end.
Definition kqueue_decode (event : Z * Z) : PollEvent :=
  {| pe_key := from_u64 event.2; pe_readiness := {| readable := event.1 =? EVFILT_READ; writable := event.1 =? EVFILT_WRITE |} |}.
End kqueue.

(** ** The reactor's [Poller] *)

(** A wait and the events taken from it. *)
Definition waited {W} (wait : PollBuffer -> Sys W (nat * PollBuffer)) (decode : Z * Z -> PollEvent) (b : PollBuffer)
    : Sys W (list (Key * Readiness)) :=
  '(ready, b) ← wait b;
  match take_events (E := Infallible) (S ready) decode b with
  | Ok events => mret ((fun e => (pe_key e, pe_readiness e)) <$> events)
  | _ => sys_err OtherError
  end.
Definition epoll_poller {W} `{Epoll W} (poll_fd : Z) (b : PollBuffer) : Poller W :=
  {| poll_add := epoll_add poll_fd; poll_remove := epoll_remove poll_fd; poll_set_interest := epoll_set_interest poll_fd;
     poll_wait := fun timeout => waited (epoll_wait_events poll_fd timeout) epoll_decode b |}.
Definition kqueue_poller {W} `{Kqueue W} (poll_fd : Z) (b : PollBuffer) : Poller W :=
  {| poll_add := kqueue_add poll_fd; poll_remove := kqueue_remove poll_fd; poll_set_interest := kqueue_set_interest poll_fd;
     poll_wait := fun timeout => waited (kqueue_wait_events poll_fd timeout) kqueue_decode b |}.

(** The readiness back ends keep the interest the reactor gave them: what is
    armed in epoll or kqueue is what the watched descriptors ask for, and an
    event names a watched one. *)

(** ** The interest *)

(** Each watched descriptor: its key, and whether it waits to read and to write. *)
Abbreviation Interest := (gmap Z (Key * bool * bool)).
Inductive PollOp : Type :=
  | PAdd (fd : Z) (key : Key)
  | PSet (fd : Z) (key : Key) (read write : bool)
  | PRemove (fd : Z)
  | PWait (timeout : option Z).

(** What an operation makes of the interest; the reactor adds a descriptor once
    and changes the interest of one it has, under the same key. *)
Definition apply_op (op : PollOp) (i : Interest) : option Interest :=
  match op with
  | PAdd fd k => if decide (i !! fd = None /\ key_ok k) then Some (<[fd := (k, true, false)]> i) else None
  | PSet fd k r w =>
      match i !! fd with
      | Some (k', _, _) => if decide (k' = k) then Some (<[fd := (k, r, w)]> i) else None
      | None => None
      end
  | PRemove fd => Some (delete fd i)
  | PWait _ => Some i
  end.

(** The conditions a wait finds a descriptor in: ready to read, to write, failed,
    hung up. *)
Record Condition : Type := { c_in : bool; c_out : bool; c_err : bool; c_hup : bool }.
Definition waits_in (c : Condition) (r : bool) : bool := r && c_in c.
Definition waits_out (c : Condition) (w : bool) : bool := w && c_out c.

(** An event of the interest: of a watched descriptor under its key.  On epoll,
    where [hup], it is readable exactly when the descriptor waits to read and can,
    or has failed or hung up, whatever it waits for, and writable exactly when it
    waits to write and can; on kqueue it is of one direction, waited for and ready. *)
Definition event_of (hup : bool) (cond : Z -> Condition) (i : Interest) (e : Key * Readiness) : Prop :=
  exists fd r w, i !! fd = Some (e.1, r, w) /\
    if hup
    then readable e.2 = waits_in (cond fd) r || c_err (cond fd) || c_hup (cond fd) /\ writable e.2 = waits_out (cond fd) w
    else (readable e.2 = true /\ writable e.2 = false /\ waits_in (cond fd) r = true) \/
         (readable e.2 = false /\ writable e.2 = true /\ waits_out (cond fd) w = true).

Definition keys_ok (i : Interest) : Prop := map_Forall (fun _ x => key_ok x.1.1) i.

Lemma apply_keys op i i' : keys_ok i -> apply_op op i = Some i' -> keys_ok i'.
Proof.
  intros Hi. destruct op as [fd k|fd k r w|fd|t]; cbn [apply_op].
  - destruct (decide _) as [[_ Hk]|]; [|done]. intros [= <-]. by apply map_Forall_insert_2.
  - destruct (i !! fd) as [[[k' r'] w']|] eqn:E; [|done]. case_decide; [|done]. subst. intros [= <-].
    apply map_Forall_insert_2; [by apply (Hi fd _ E)|done].
  - intros [= <-]. by apply map_Forall_delete.
  - by intros [= <-].
Qed.

(** ** The buffer *)

Lemma take_events_rest {E} decode fuel : forall b, (pb_ready b <= length (pb_events b))%nat -> (pb_ready b - pb_next b < fuel)%nat ->
  take_events (E := E) fuel decode b = Ok (decode <$> take (pb_ready b - pb_next b) (drop (pb_next b) (pb_events b))).
Proof.
  induction fuel as [|fuel IH]; intros b Hr Hf; [lia|]. cbn [take_events]. unfold next_event. case_decide as Hn; cbn [mbind res_bind].
  - by replace (pb_ready b - pb_next b)%nat with 0%nat by lia.
  - destruct (lookup_lt_is_Some_2 (pb_events b) (pb_next b)) as [e He]; [lia|]. unfold idx. rewrite He. cbn [expect mbind res_bind].
    rewrite IH by (cbn; lia). cbn [mbind res_bind pb_events pb_ready pb_next]. rewrite (drop_S _ _ _ He).
    by replace (pb_ready b - pb_next b)%nat with (S (pb_ready b - S (pb_next b))) by lia.
Qed.

Lemma take_filled {E} decode events b : take_events (E := E) (S (length events)) decode (fill_events events b) = Ok (decode <$> events).
Proof.
  rewrite take_events_rest by (cbn; rewrite ?length_app; lia). cbn [fill_events pb_events pb_ready pb_next].
  by rewrite Nat.sub_0_r, drop_0, take_app_length.
Qed.

(** An operation on a back end, and the events of a wait. *)
Definition run_op {W} `{Poller W} (op : PollOp) : Sys W (list (Key * Readiness)) := fun w =>
  let silent (x : io () * W) : io (list (Key * Readiness)) * W := (match x.1 with inr _ => inr [] | inl e => inl e end, x.2) in
  match op with
  | PAdd fd k => silent (poll_add fd k w)
  | PSet fd k r wr => silent (poll_set_interest fd k r wr w)
  | PRemove fd => silent (poll_remove fd w)
  | PWait timeout => poll_wait timeout w
  end.

Lemma fill_inj events events' b : fill_events events b = fill_events events' b -> events = events'.
Proof. unfold fill_events. intros [= He Hn]. by apply app_inj_1 in He as [-> _]. Qed.

(** A wait that was not interrupted gives the events read, one by one. *)
Lemma waited_events {W} wait decode b (w : W) evs w' : waited wait decode b w = (inr evs, w') ->
  (forall n b' w1, wait b w = (inr (n, b'), w1) -> (n = 0%nat /\ b' = no_events b) \/ exists events, n = length events /\ b' = fill_events events b) ->
  exists n b', wait b w = (inr (n, b'), w') /\
    (b' = no_events b /\ evs = [] \/
     exists events, b' = fill_events events b /\ evs = (fun e => (pe_key (decode e), pe_readiness (decode e))) <$> events).
Proof.
  unfold waited, mbind, Sys_bind. intros Hrun Hw. destruct (wait b w) as [[e|[n b']] w1] eqn:Ew; [done|]. exists n, b'.
  destruct (Hw n b' w1 eq_refl) as [[-> ->]|(events&->&->)].
  - unfold take_events, next_event in Hrun. cbn [no_events pb_ready pb_next] in Hrun. rewrite decide_True in Hrun by lia.
    cbn in Hrun. injection Hrun as <- <-. split; [done|]. by left.
  - rewrite take_filled in Hrun. injection Hrun as <- <-. split; [done|]. right. exists events. split; [done|]. by rewrite <- list_fmap_compose.
Qed.

(** ** epoll *)

Section epoll.
Context {W : Type} `{Epoll W} (poll_fd : Z) (b : PollBuffer) (armed : W -> gmap Z (Z * Z)) (cond : W -> Z -> Condition).

(** The bits of a descriptor's conditions. *)
Definition cond_bits (c : Condition) : Z :=
  Z.lor (Z.lor (if c_in c then EPOLLIN else 0) (if c_out c then EPOLLOUT else 0))
        (Z.lor (if c_err c then EPOLLERR else 0) (if c_hup c then EPOLLHUP else 0)).

(** epoll_ctl(2) and epoll_wait(2), for the interest list [armed]: of each
    descriptor, its mask and its token; an event's flags are the conditions found,
    of those in the mask and the two always reported. *)
Record epoll_laws : Prop := {
  el_add : forall fd mask token w, match ctl_add poll_fd fd mask token w with
    | (inr _, w') => armed w' = <[fd := (mask, token)]> (armed w) | (inl _, w') => armed w' = armed w end;
  el_mod : forall fd mask token w, match ctl_mod poll_fd fd mask token w with
    | (inr _, w') => armed w' = <[fd := (mask, token)]> (armed w) | (inl _, w') => armed w' = armed w end;
  el_del : forall fd w, match ctl_del poll_fd fd w with
    | (inr _, w') => armed w' = delete fd (armed w)
    | (inl e, w') => armed w' = armed w /\ (raw_os_error e = Some POLL_ENOENT -> armed w !! fd = None) end;
  el_wait : forall n timeout w, match epoll_wait poll_fd n timeout w with
    | (inr events, w') => armed w' = armed w /\ Forall (fun ev => exists fd mask, armed w !! fd = Some (mask, ev.2) /\
        ev.1 = Z.land (Z.lor mask (Z.lor EPOLLERR EPOLLHUP)) (cond_bits (cond w' fd))) events
    | (inl _, w') => armed w' = armed w end;
  el_bits : exists i o e h, Forall (fun k => 0 <= k) [i; o; e; h] /\ NoDup [i; o; e; h] /\
    EPOLLIN = 2 ^ i /\ EPOLLOUT = 2 ^ o /\ EPOLLERR = 2 ^ e /\ EPOLLHUP = 2 ^ h;
}.
Context (Hlaws : epoll_laws).

Definition epoll_arms (x : Key * bool * bool) : Z * Z := let '(k, r, w) := x in (interest_mask r w, to_u64 k).
Definition epoll_repr (i : Interest) (w : W) : Prop := keys_ok i /\ armed w = epoll_arms <$> i.

Lemma flag_set f k : 0 <= k -> negb (Z.land f (2 ^ k) =? 0) = Z.testbit f k.
Proof.
  intros Hk. destruct (Z.testbit f k) eqn:E.
  - apply negb_true_iff, Z.eqb_neq. intros H0. apply (f_equal (fun z => Z.testbit z k)) in H0.
    by rewrite Z.land_spec, E, Z.pow2_bits_true, Z.bits_0 in H0.
  - apply negb_false_iff, Z.eqb_eq, Z.bits_inj'. intros n Hn. rewrite Z.land_spec, Z.bits_0, Z.pow2_bits_eqb by done.
    destruct (Z.eqb_spec k n) as [->|]; [by rewrite E|apply andb_false_r].
Qed.
Lemma flags_either f a c : negb (Z.land f (Z.lor a c) =? 0) = negb (Z.land f a =? 0) || negb (Z.land f c =? 0).
Proof.
  rewrite Z.land_lor_distr_r. destruct (Z.eqb_spec (Z.land f a) 0) as [-> |Ha]; [by rewrite Z.lor_0_l|]. cbn [negb orb].
  apply negb_true_iff, Z.eqb_neq. by intros [? _]%Z.lor_eq_0_iff.
Qed.
Lemma bit_if (b0 : bool) k n : 0 <= k -> Z.testbit (if b0 then 2 ^ k else 0) n = b0 && (k =? n).
Proof. intros Hk. destruct b0; [by apply Z.pow2_bits_eqb|apply Z.bits_0]. Qed.

(** What the program reads of the flags of an event. *)
Lemma epoll_flags r w c token :
  let f := Z.land (Z.lor (interest_mask r w) (Z.lor EPOLLERR EPOLLHUP)) (cond_bits c) in
  readable (pe_readiness (epoll_decode (f, token))) = waits_in c r || c_err c || c_hup c /\
  writable (pe_readiness (epoll_decode (f, token))) = waits_out c w.
Proof.
  intros f. destruct (el_bits Hlaws) as (i&o&e&h&Hpos&Hnd&Ei&Eo&Ee&Eh).
  rewrite !Forall_cons in Hpos. destruct Hpos as (Hi&Ho&He&Hh&_).
  rewrite !NoDup_cons, !not_elem_of_cons in Hnd. destruct Hnd as ((Hio&Hie&Hih&_)&(Hoe&Hoh&_)&(Heh&_)&_).
  assert (Hbit : forall n, Z.testbit f n =
    ((r && (i =? n)) || (w && (o =? n)) || ((e =? n) || (h =? n))) &&
    ((c_in c && (i =? n)) || (c_out c && (o =? n)) || ((c_err c && (e =? n)) || (c_hup c && (h =? n))))).
  { intros n. subst f. unfold cond_bits, interest_mask, EPOLL_READ, EPOLL_WRITE. rewrite Ei, Eo, Ee, Eh.
    rewrite Z.land_spec, !Z.lor_spec, !bit_if by done. by rewrite !Z.pow2_bits_eqb. }
  cbn [epoll_decode pe_readiness readable writable fst]. unfold EPOLL_READABLE, EPOLL_WRITE, waits_in, waits_out.
  rewrite !flags_either, Ei, Eo, Ee, Eh, !flag_set, !Hbit by done.
  rewrite !Z.eqb_refl, !(proj2 (Z.eqb_neq _ _)) by congruence.
  destruct r, w, (c_in c), (c_out c), (c_err c), (c_hup c); by split.
Qed.

Lemma epoll_event i cnd ev : keys_ok i ->
  (exists fd mask, (epoll_arms <$> i) !! fd = Some (mask, ev.2) /\ ev.1 = Z.land (Z.lor mask (Z.lor EPOLLERR EPOLLHUP)) (cond_bits (cnd fd))) ->
  event_of true cnd i (pe_key (epoll_decode ev), pe_readiness (epoll_decode ev)).
Proof.
  intros Hi (fd&mask&Hfd&Hin). rewrite lookup_fmap in Hfd. apply fmap_Some in Hfd as ([[k r] w]&Hk&Harms). injection Harms as -> Htok.
  pose proof (Hi fd _ Hk) as Hok. cbn in Hok. destruct (key_u64_roundtrip k Hok) as [_ Hback].
  exists fd, r, w. destruct ev as [f token]. cbn [fst snd] in *. subst f. split; [cbn; by rewrite Htok, Hback|].
  exact (epoll_flags r w (cnd fd) token).
Qed.

Lemma epoll_step i w op i' evs w' : epoll_repr i w -> apply_op op i = Some i' ->
  run_op (H := epoll_poller poll_fd b) op w = (inr evs, w') -> epoll_repr i' w' /\ Forall (event_of true (cond w') i) evs.
Proof.
  intros [Hk Hr] Hop Hrun. pose proof (apply_keys _ _ _ Hk Hop) as Hk'.
  destruct op as [fd k|fd k r wr|fd|timeout]; cbn [run_op apply_op epoll_poller poll_add poll_set_interest poll_remove poll_wait] in *.
  - unfold epoll_add in Hrun. pose proof (el_add Hlaws fd EPOLL_READ (to_u64 k) w) as Hl.
    destruct (ctl_add _ _ _ _ _) as [[e|[]] w1]; [done|]. injection Hrun as <- <-. split; [|done]. split; [done|].
    destruct (decide _); [|done]. injection Hop as <-. rewrite Hl, Hr, fmap_insert. cbn. unfold interest_mask. by rewrite Z.lor_0_r.
  - unfold epoll_set_interest in Hrun. pose proof (el_mod Hlaws fd (interest_mask r wr) (to_u64 k) w) as Hl.
    destruct (ctl_mod _ _ _ _ _) as [[e|[]] w1]; [done|]. injection Hrun as <- <-. split; [|done]. split; [done|].
    destruct (i !! fd) as [[[k' ?] ?]|]; [|done]. case_decide; [|done]. injection Hop as <-. by rewrite Hl, Hr, fmap_insert.
  - injection Hop as <-. unfold epoll_remove, mbind, Sys_bind, sys_try in Hrun. pose proof (el_del Hlaws fd w) as Hl.
    destruct (ctl_del _ _ _) as [[e|[]] w1].
    + destruct Hl as [Hl Hno]. case_bool_decide as He; [|done]. injection Hrun as <- <-. split; [|done]. split; [done|].
      specialize (Hno He). rewrite Hl, Hr. rewrite Hr, lookup_fmap in Hno. apply fmap_None in Hno. by rewrite delete_id.
    + injection Hrun as <- <-. split; [|done]. split; [done|]. by rewrite Hl, Hr, fmap_delete.
  - injection Hop as <-. apply waited_events in Hrun.
    + destruct Hrun as (n&b'&Hw&Hev). unfold epoll_wait_events, mbind, Sys_bind, sys_try in Hw.
      pose proof (el_wait Hlaws (max_events b) (timeout_ms timeout) w) as Hl. destruct (epoll_wait _ _ _ _) as [[e|events] w1].
      * case_bool_decide; [|done]. injection Hw as <- <- <-. split; [by split; [|rewrite Hl]|].
        destruct Hev as [[_ ->]|(events&Hb&->)]; [constructor|].
        apply (f_equal pb_ready), symmetry, nil_length_inv in Hb as ->. constructor.
      * injection Hw as <- <- <-. destruct Hl as [Hl Hall]. split; [by split; [|rewrite Hl]|].
        destruct Hev as [[_ ->]|(events'&Hb&->)]; [constructor|]. apply fill_inj in Hb as <-.
        apply Forall_fmap. eapply Forall_impl; [exact Hall|]. intros ev Hin. rewrite Hr in Hin. exact (epoll_event i _ ev Hk Hin).
    + intros n b' w1. unfold epoll_wait_events, mbind, Sys_bind, sys_try. destruct (epoll_wait _ _ _ _) as [[e|events] w2].
      * case_bool_decide; [|done]. intros [= <- <- _]. by left.
      * intros [= <- <- _]. right. by exists events.
Qed.
End epoll.

(** ** kqueue *)

Section kqueue.
Context {W : Type} `{Kqueue W} (poll_fd : Z) (b : PollBuffer) (armed : W -> gmap (Z * Z) (bool * Z)) (cond : W -> Z -> Condition).

(** kevent(2), for the filters [armed]: of each descriptor and filter, whether it
    is enabled, and its token; an event is of an enabled filter whose condition
    the wait found, the end of a stream among those of the read filter. *)
Definition changed (fd filter : Z) (flags : Change) (token : Z) (m m' : gmap (Z * Z) (bool * Z)) : Prop :=
  match flags with
  | EvAddEnable => m' = <[(fd, filter) := (true, token)]> m
  | EvEnable | EvDisable => exists on t t', m !! (fd, filter) = Some (on, t) /\ (t' = t \/ t' = token) /\
      m' = <[(fd, filter) := (match flags with EvEnable => true | _ => false end, t')]> m
  | EvDelete => m' = delete (fd, filter) m
  end.
Record kqueue_laws : Prop := {
  kl_change : forall fd filter flags token w, match kevent_change poll_fd fd filter flags token w with
    | (inr _, w') => changed fd filter flags token (armed w) (armed w')
    | (inl e, w') => armed w' = armed w /\ (flags = EvDelete -> raw_os_error e = Some KQ_ENOENT -> armed w !! (fd, filter) = None) end;
  kl_wait : forall n timeout w, match kevent_wait poll_fd n timeout w with
    | (inr events, w') => armed w' = armed w /\ Forall (fun ev => exists fd, armed w !! (fd, ev.1) = Some (true, ev.2) /\
        (ev.1 = EVFILT_READ -> c_in (cond w' fd) = true) /\ (ev.1 = EVFILT_WRITE -> c_out (cond w' fd) = true)) events
    | (inl _, w') => armed w' = armed w end;
  kl_filters : EVFILT_READ <> EVFILT_WRITE;
}.
Context (Hlaws : kqueue_laws).

Definition kqueue_arms (x : option (Key * bool * bool)) (filter : Z) : option (bool * Z) :=
  match x with
  | Some (k, r, w) => if decide (filter = EVFILT_READ) then Some (r, to_u64 k)
                      else if decide (filter = EVFILT_WRITE) then (if w then Some (true, to_u64 k) else None) else None
  | None => None
  end.
Definition kqueue_repr (i : Interest) (w : W) : Prop :=
  keys_ok i /\ forall fd filter, armed w !! (fd, filter) = kqueue_arms (i !! fd) filter.

Lemma kqueue_event i cnd ev : keys_ok i ->
  (exists fd, kqueue_arms (i !! fd) ev.1 = Some (true, ev.2) /\
     (ev.1 = EVFILT_READ -> c_in (cnd fd) = true) /\ (ev.1 = EVFILT_WRITE -> c_out (cnd fd) = true)) ->
  event_of false cnd i (pe_key (kqueue_decode ev), pe_readiness (kqueue_decode ev)).
Proof.
  intros Hi (fd&Hfd&Hin&Hout). destruct (i !! fd) as [[[k r] w]|] eqn:Hk; [|done]. pose proof (Hi fd _ Hk) as Hok. cbn in Hok.
  destruct (key_u64_roundtrip k Hok) as [_ Hback]. pose proof (kl_filters Hlaws) as Hne.
  assert (Hcase : ev.2 = to_u64 k /\ (ev.1 = EVFILT_READ /\ r = true \/ ev.1 = EVFILT_WRITE /\ w = true)).
  { cbn in Hfd. destruct (decide (ev.1 = EVFILT_READ)); [injection Hfd as -> ->; by auto|].
    destruct (decide (ev.1 = EVFILT_WRITE)); [|done]. destruct w; [|done]. injection Hfd as ->. by auto. }
  destruct Hcase as [Htok Hcase]. exists fd, r, w. cbn. rewrite Htok, Hback. split; [done|]. unfold waits_in, waits_out.
  destruct Hcase as [[E ->]|[E ->]].
  - left. rewrite E, Z.eqb_refl, (proj2 (Z.eqb_neq _ _)) by done. by rewrite Hin.
  - right. rewrite E, Z.eqb_refl, (proj2 (Z.eqb_neq _ _)) by done. by rewrite Hout.
Qed.

Lemma change_Ok fd filter flags token w w' : change_raw poll_fd fd filter flags token w = (inr (), w') ->
  changed fd filter flags token (armed w) (armed w').
Proof. intros E. pose proof (kl_change Hlaws fd filter flags token w) as Hl. unfold change_raw in E. by rewrite E in Hl. Qed.

(** A filter that is gone, whether there was one or not. *)
Lemma filter_gone fd filter token w r w' : kevent_change poll_fd fd filter EvDelete token w = (r, w') ->
  r = inr () \/ (exists e, r = inl e /\ raw_os_error e = Some KQ_ENOENT) -> armed w' = delete (fd, filter) (armed w).
Proof.
  intros E Hr. pose proof (kl_change Hlaws fd filter EvDelete token w) as Hl. rewrite E in Hl. destruct Hr as [-> | (e&->&He)]; [done|].
  destruct Hl as [Hl Hno]. rewrite Hl. symmetry. apply delete_id. by apply Hno.
Qed.
Lemma remove_filter_Ok fd filter w w' : remove_filter poll_fd fd filter w = (inr (), w') -> armed w' = delete (fd, filter) (armed w).
Proof.
  unfold remove_filter, mbind, Sys_bind, sys_try, change_raw. destruct (kevent_change _ _ _ _ _ _) as [[e|[]] w1] eqn:E.
  - case_bool_decide as He; [|done]. intros [= <-]. eapply filter_gone; [exact E|]. right. by exists e.
  - intros [= <-]. eapply filter_gone; [exact E|]. by left.
Qed.

Ltac look := repeat first
  [ rewrite lookup_insert_eq | rewrite lookup_delete_eq | rewrite lookup_insert_ne by congruence | rewrite lookup_delete_ne by congruence ].

(** The two filters of a descriptor set, the others as they were. *)
Lemma repr_set fd x i w w' : kqueue_repr i w ->
  (forall filter, armed w' !! (fd, filter) = kqueue_arms x filter) -> (forall fd' filter, fd' <> fd -> armed w' !! (fd', filter) = armed w !! (fd', filter)) ->
  forall fd' filter, armed w' !! (fd', filter) = kqueue_arms (partial_alter (fun _ => x) fd i !! fd') filter.
Proof.
  intros [_ Hr] Hx Hother fd' filter. destruct (decide (fd' = fd)) as [->|Hne]; [by rewrite lookup_partial_alter_eq|].
  rewrite lookup_partial_alter_ne by done. by rewrite Hother.
Qed.

Lemma set_interest_Ok fd k r wr on wr0 i w w' : kqueue_repr i w -> i !! fd = Some (k, on, wr0) ->
  kqueue_set_interest poll_fd fd k r wr w = (inr (), w') ->
  forall fd' filter, armed w' !! (fd', filter) = kqueue_arms (<[fd := (k, r, wr)]> i !! fd') filter.
Proof.
  intros Hrep Hfd Hrun. pose proof (kl_filters Hlaws) as Hne. unfold kqueue_set_interest, change, mbind, Sys_bind, sys_try in Hrun.
  destruct (change_raw poll_fd fd EVFILT_READ _ _ w) as [[e|[]] w1] eqn:E1; [done|]. apply change_Ok in E1.
  assert (H1 : armed w1 = <[(fd, EVFILT_READ) := (r, to_u64 k)]> (armed w)).
  { pose proof (proj2 Hrep fd EVFILT_READ) as Hread. rewrite Hfd in Hread. cbn in Hread. rewrite decide_True in Hread by done.
    destruct r; destruct E1 as (on'&t&t'&Ht&Ht'&->); rewrite Hread in Ht; injection Ht as <- <-; by destruct Ht' as [-> | ->]. }
  assert (H2 : armed w' = if wr then <[(fd, EVFILT_WRITE) := (true, to_u64 k)]> (armed w1) else delete (fd, EVFILT_WRITE) (armed w1)).
  { unfold change_raw in Hrun. destruct (kevent_change poll_fd fd EVFILT_WRITE _ _ w1) as [[e|[]] w2] eqn:E2.
    - destruct wr; cbn [negb andb] in Hrun; [done|]. case_bool_decide as He; [|done]. injection Hrun as <-.
      eapply filter_gone; [exact E2|]. right. by exists e.
    - injection Hrun as <-. apply change_Ok in E2. by destruct wr. }
  apply (repr_set fd (Some (k, r, wr)) i w w' Hrep).
  - intros filter. cbn. rewrite H2, H1. destruct (decide (filter = EVFILT_READ)) as [->|Hr].
    + by destruct wr; look.
    + destruct (decide (filter = EVFILT_WRITE)) as [->|Hw]; [by destruct wr; look|].
      destruct wr; look; rewrite (proj2 Hrep), Hfd; cbn; by rewrite !decide_False.
  - intros fd' filter Hfd'. rewrite H2, H1. by destruct wr; look.
Qed.

Lemma kqueue_step i w op i' evs w' : kqueue_repr i w -> apply_op op i = Some i' ->
  run_op (H := kqueue_poller poll_fd b) op w = (inr evs, w') -> kqueue_repr i' w' /\ Forall (event_of false (cond w') i) evs.
Proof.
  intros Hrep Hop Hrun. pose proof Hrep as [Hk Hr]. pose proof (apply_keys _ _ _ Hk Hop) as Hk'. pose proof (kl_filters Hlaws) as Hne.
  destruct op as [fd k|fd k r wr|fd|timeout]; cbn [run_op apply_op kqueue_poller poll_add poll_set_interest poll_remove poll_wait] in *.
  - unfold kqueue_add, change in Hrun. destruct (change_raw _ _ _ _ _ _) as [[e|[]] w1] eqn:E; [done|]. apply change_Ok in E. cbn in E.
    injection Hrun as <- <-. split; [|done]. split; [done|]. destruct (decide _) as [[Hfd _]|]; [|done]. injection Hop as <-.
    apply (repr_set fd (Some (k, true, false)) i w w1 Hrep).
    + intros filter. cbn. rewrite E. destruct (decide (filter = EVFILT_READ)) as [->|Hf]; [by look|].
      rewrite lookup_insert_ne by congruence. rewrite Hr, Hfd. by case_decide.
    + intros fd' filter Hfd'. rewrite E. by rewrite lookup_insert_ne by congruence.
  - destruct (kqueue_set_interest _ _ _ _ _ _) as [[e|[]] w1] eqn:E; [done|]. injection Hrun as <- <-. split; [|done]. split; [done|].
    destruct (i !! fd) as [[[k' on] wr0]|] eqn:Hfd; [|done]. case_decide; [|done]. subst. injection Hop as <-.
    by eapply set_interest_Ok.
  - injection Hop as <-. destruct (kqueue_remove _ _ _) as [[e|[]] w1] eqn:E; [done|]. injection Hrun as <- <-. split; [|done].
    split; [done|]. unfold kqueue_remove, mbind, Sys_bind in E. destruct (remove_filter _ _ _ w) as [[e|[]] w2] eqn:E1; [done|].
    apply remove_filter_Ok in E1, E. intros fd' filter. rewrite E, E1. destruct (decide (fd' = fd)) as [->|Hfd].
    + rewrite lookup_delete_eq. cbn. destruct (decide (filter = EVFILT_WRITE)) as [->|]; [by look|]. look.
      destruct (decide (filter = EVFILT_READ)) as [->|]; [by look|]. look. rewrite Hr. destruct (i !! fd) as [[[? ?] ?]|]; [|done]. cbn. by rewrite !decide_False.
    + rewrite !lookup_delete_ne by congruence. apply Hr.
  - injection Hop as <-. apply waited_events in Hrun.
    + destruct Hrun as (n&b'&Hw&Hev). unfold kqueue_wait_events, mbind, Sys_bind, sys_try in Hw.
      pose proof (kl_wait Hlaws (max_events b) (to_timespec <$> timeout) w) as Hl. destruct (kevent_wait _ _ _ _) as [[e|events] w1].
      * case_bool_decide; [|done]. injection Hw as <- <- <-. split; [by split; [|intros; rewrite Hl]|].
        destruct Hev as [[_ ->]|(events&Hb&->)]; [constructor|].
        apply (f_equal pb_ready), symmetry, nil_length_inv in Hb as ->. constructor.
      * injection Hw as <- <- <-. destruct Hl as [Hl Hall]. split; [by split; [|intros; rewrite Hl]|].
        destruct Hev as [[_ ->]|(events'&Hb&->)]; [constructor|]. apply fill_inj in Hb as <-.
        apply Forall_fmap. eapply Forall_impl; [exact Hall|]. intros ev (fd&Hin). rewrite Hr in Hin.
        exact (kqueue_event i _ ev Hk (ex_intro _ fd Hin)).
    + intros n b' w1. unfold kqueue_wait_events, mbind, Sys_bind, sys_try. destruct (kevent_wait _ _ _ _) as [[e|events] w2].
      * case_bool_decide; [|done]. intros [= <- <- _]. by left.
      * intros [= <- <- _]. right. by exists events.
Qed.
End kqueue.

(** ** Over any run *)

(** A back end under the laws of its calls, how it represents the interest, the
    conditions its waits find, and whether it reports hang-ups of its own accord. *)
Inductive backend {W} : Poller W -> (Interest -> W -> Prop) -> (W -> Z -> Condition) -> bool -> Prop :=
  | backend_epoll (E : Epoll W) poll_fd b armed cond : epoll_laws poll_fd armed cond ->
      backend (epoll_poller poll_fd b) (epoll_repr armed) cond true
  | backend_kqueue (K : Kqueue W) poll_fd b armed cond : kqueue_laws poll_fd armed cond ->
      backend (kqueue_poller poll_fd b) (kqueue_repr armed) cond false.

(** Operations one after the other, on the interest and on a back end: the
    interest at each, and the events with the world they were found in. *)
Fixpoint apply_ops (ops : list PollOp) (i : Interest) : option (list Interest * Interest) :=
  match ops with
  | [] => Some ([], i)
  | op :: ops => i1 ← apply_op op i; '(seen, i2) ← apply_ops ops i1; Some (i :: seen, i2)
  end.
Fixpoint run_ops {W} `{Poller W} (ops : list PollOp) : Sys W (list (list (Key * Readiness) * W)) :=
  match ops with
  | [] => mret []
  | op :: ops => events ← run_op op; found ← (fun w => (inr w, w)); rest ← run_ops ops; mret ((events, found) :: rest)
  end.

(** C39. The readiness back ends keep the reactor's interest. On epoll or on
    kqueue, over any additions, changes of interest, removals and waits that
    succeed, what the kernel holds armed is the interest asked for, each
    descriptor under its own key, a second removal and a direction never armed
    included; and every event of a wait, read back from the token, is of a
    descriptor watched then. On epoll it is readable exactly when the descriptor
    waits to read and can be, or has failed or hung up, which wakes it whatever it
    waits for, and writable exactly when it waits to write and can be; on kqueue
    it is of exactly one direction, one it waits in and is ready in. *)
Theorem poll_backends_keep_interest {W} (P : Poller W) repr cond hup ops seen i evs w w' :
  backend P repr cond hup -> repr ∅ w -> apply_ops ops ∅ = Some (seen, i) -> run_ops (H := P) ops w = (inr evs, w') ->
  repr i w' /\ Forall2 (fun i found => Forall (event_of hup (cond found.2) i) found.1) seen evs.
Proof.
  intros HB. assert (Hstep : forall i w op i' evs w', repr i w -> apply_op op i = Some i' -> run_op (H := P) op w = (inr evs, w') ->
    repr i' w' /\ Forall (event_of hup (cond w') i) evs).
  { destruct HB; intros; [by eapply epoll_step|by eapply kqueue_step]. }
  clear HB. generalize (∅ : Interest) as i0. revert seen i evs w w'.
  induction ops as [|op ops IH]; intros seen i evs w w' i0 Hr Ha Hrun; cbn [apply_ops run_ops] in *.
  - injection Ha as <- <-. injection Hrun as <- <-. by split.
  - destruct (apply_op op i0) as [i1|] eqn:E1; [|done]. cbn [mbind option_bind] in Ha.
    destruct (apply_ops ops i1) as [[seen1 i2]|] eqn:E2; [|done]. injection Ha as <- <-.
    unfold mbind, Sys_bind in Hrun. destruct (run_op op w) as [[e|ev] w1] eqn:E3; [done|].
    destruct (run_ops ops w1) as [[e|rest] w2] eqn:E4; [done|]. injection Hrun as <- <-.
    destruct (Hstep _ _ _ _ _ _ Hr E1 E3) as [Hr1 Hev]. destruct (IH _ _ _ _ _ _ Hr1 E2 E4) as [Hr2 Hevs]. split; [done|]. by constructor.
Qed.

(** ** Witness: a kernel's interest list as a map, every peer hung up *)

Definition held (w : gmap Z (Z * Z)) (fd : Z) (w' : gmap Z (Z * Z)) (errno : Z) (present : bool) : io () * gmap Z (Z * Z) :=
  if eqb (bool_decide (is_Some (w !! fd))) present then (inr (), w') else (inl (OsError errno), w).
(** Descriptor 5 can be read and written; any other has hung up. *)
Definition map_cond (fd : Z) : Condition :=
  if fd =? 5 then {| c_in := true; c_out := true; c_err := false; c_hup := false |}
  else {| c_in := false; c_out := false; c_err := false; c_hup := true |}.
Definition map_bits (c : Condition) : Z :=
  Z.lor (Z.lor (if c_in c then 1 else 0) (if c_out c then 4 else 0)) (Z.lor (if c_err c then 8 else 0) (if c_hup c then 16 else 0)).
Definition map_epoll : Epoll (gmap Z (Z * Z)) :=
  {| EPOLLIN := 1; EPOLLOUT := 4; EPOLLERR := 8; EPOLLHUP := 16; POLL_ENOENT := 2; POLL_EINTR := 4;
     epoll_create := fun w => (inr 3, w);
     ctl_add := fun _ fd mask token w => held w fd (<[fd := (mask, token)]> w) 17 false;
     ctl_mod := fun _ fd mask token w => held w fd (<[fd := (mask, token)]> w) 2 true;
     ctl_del := fun _ fd w => held w fd (delete fd w) 2 true;
     epoll_wait := fun _ _ _ w =>
       (inr ((fun x => (Z.land (Z.lor x.2.1 24) (map_bits (map_cond x.1)), x.2.2)) <$> map_to_list w), w) |}.
Lemma map_epoll_laws : epoll_laws (H := map_epoll) 3 (fun w => w) (fun _ => map_cond).
Proof.
  split; cbn [ctl_add ctl_mod ctl_del epoll_wait map_epoll POLL_ENOENT]; unfold held.
  - intros fd mask token w. by destruct (eqb _ _).
  - intros fd mask token w. by destruct (eqb _ _).
  - intros fd w. destruct (w !! fd) eqn:E; case_bool_decide as Hs; cbn [eqb]; try done. by destruct Hs.
  - intros n timeout w. split; [done|]. apply Forall_fmap, Forall_forall. intros [fd [mask token]] Hin%elem_of_map_to_list.
    exists fd, mask. split; [done|]. reflexivity.
  - exists 0, 2, 3, 4. split; [repeat constructor; lia|]. split; [|done]. apply (bool_decide_unpack _). by vm_compute.
Qed.
Definition poll_ops : list PollOp :=
  let k1 := {| index := 1; generation := 0 |} in let k2 := {| index := 2; generation := 5 |} in
  [PAdd 5 k1; PSet 5 k1 false true; PWait None; PAdd 6 k2; PSet 6 k2 false false; PRemove 5; PRemove 5; PWait (Some 1)].
Abbreviation polling := (run_ops (H := epoll_poller (H := map_epoll) 3 (poll_buffer 8)) poll_ops ∅).
(** The writer wakes as writable alone, and the one hung up as readable although
    it waits for nothing. *)
Lemma poll_backends_keep_interest_witness :
  exists evs i w', polling = (inr evs, w') /\ epoll_repr (H := map_epoll) (fun w => w) i w' /\
    fst <$> evs !! 2%nat = Some [({| index := 1; generation := 0 |}, {| readable := false; writable := true |})] /\
    fst <$> evs !! 7%nat = Some [({| index := 2; generation := 5 |}, {| readable := true; writable := false |})] /\
    i !! 6 = Some ({| index := 2; generation := 5 |}, false, false) /\ i !! 5 = None.
Proof.
  assert (E : match apply_ops poll_ops ∅, polling with
              | Some (_, i), (inr evs, _) =>
                  fst <$> evs !! 2%nat = Some [({| index := 1; generation := 0 |}, {| readable := false; writable := true |})] /\
                  fst <$> evs !! 7%nat = Some [({| index := 2; generation := 5 |}, {| readable := true; writable := false |})] /\
                  i !! 6 = Some ({| index := 2; generation := 5 |}, false, false) /\ i !! 5 = None
              | _, _ => False
              end) by (vm_compute; repeat split).
  pose proof (fun seen i evs w' => poll_backends_keep_interest _ _ _ _ poll_ops seen i evs ∅ w'
    (backend_epoll map_epoll 3 (poll_buffer 8) (fun w => w) (fun _ => map_cond) map_epoll_laws)
    (conj (map_Forall_empty _) (symmetry (fmap_empty _)))) as R.
  revert E R. generalize (apply_ops poll_ops ∅). generalize polling. intros [[e|evs] w'] [[seen i]|] E R; try (destruct E; fail).
  exists evs, i, w'. split; [reflexivity|]. split; [exact (proj1 (R seen i evs w' eq_refl eq_refl))|exact E].
Defined.
