(* ===== verification/Signal.v ===== *)
(** Signals through a pipe ([src/reactor/signal.rs]): the signal handler sets a
    flag and writes one byte to a pipe, and the reactor's handler on the read end
    drains it and acts on the flags.  A signal may land between any two steps of
    the reactor's handler, and within another signal's handler. *)

From S2P Require Import Prelude Effect Text Addr Names Interface Kernel Tcp Filter Reactor Sys.

Local Open Scope Z_scope.

(** What the handlers ask of the system. *)
Class SignalCalls (W : Type) : Type := {
  SIGINT : Z; SIGTERM : Z; SIGUSR1 : Z;
  Disposition : Type;
  (** the disposition of [on_signal], with [SA_RESTART] and an empty mask *)
  on_signal_action : Disposition;
  (** [sigaction], which gives the disposition replaced *)
  sigaction : Z -> Disposition -> Sys W Disposition;
  (** [pipe2(O_CLOEXEC|O_NONBLOCK)], and macOS's [pipe] *)
  sys_pipe2 : Sys W (Z * Z); sys_pipe : Sys W (Z * Z);
  (** [write] of one byte, its result ignored; [read] into a buffer of this length, its result *)
  pipe_write : Z -> W -> W;
  pipe_read : Z -> nat -> W -> Z * W;
  errno : W -> Z;
  set_errno : Z -> W -> W;
}.

(** The process-wide statics: [WRITE_FD] and the two flags. *)
Record Statics : Type := { st_write_fd : Z; st_shutdown : bool; st_dump : bool }.
Definition statics_new : Statics := {| st_write_fd := -1; st_shutdown := false; st_dump := false |}.
Definition with_write_fd (fd : Z) (s : Statics) : Statics := {| st_write_fd := fd; st_shutdown := st_shutdown s; st_dump := st_dump s |}.
Definition with_flags (shutdown dump : bool) (s : Statics) : Statics :=
  {| st_write_fd := st_write_fd s; st_shutdown := shutdown; st_dump := dump |}.

(** [SignalGuard], whose [write_fd] is the pipe's write end *)
Record SignalGuard (D : Type) : Type := { sg_write_fd : Z; sg_saved : list D }.
Arguments sg_write_fd {D} _.
Arguments sg_saved {D} _.

Section signal.
Context {W : Type} `{SignalCalls W}.

Definition DUMP_SIGNAL : Z := SIGUSR1.
Definition HANDLED_SIGNALS : list Z := [SIGINT; SIGTERM; DUMP_SIGNAL].

(** [on_signal], in its two effects: the flag, and the byte written with the
    [errno] it found put back. *)
Definition raise_flag (signum : Z) (s : Statics) : Statics :=
  if signum =? DUMP_SIGNAL then with_flags (st_shutdown s) true s else with_flags true (st_dump s) s.
Definition wake_reader (s : Statics) (w : W) : W :=
  let saved := errno w in
  let w := if 0 <=? st_write_fd s then pipe_write (st_write_fd s) w else w in
  set_errno saved w.
Definition on_signal (signum : Z) (s : Statics) (w : W) : Statics * W := let s := raise_flag signum s in (s, wake_reader s w).

(** ** The guard *)

Context `{Kernel W, SysConsts, SysCalls W}.

(** [self_pipe] *)
Definition self_pipe : Sys W (Z * Z) :=
  match os with
  | MacOs =>
      '(read, write) ← sys_pipe;
      _ ← set_cloexec_nonblock read;
      _ ← set_cloexec_nonblock write;
      mret (read, write)
  | _ => sys_pipe2
  end.

(** [restore_handlers] and [install_handlers] *)
Fixpoint restore_handlers (saved : list (Z * Disposition)) (w : W) : W :=
  match saved with [] => w | (signum, action) :: saved => restore_handlers saved (sigaction signum action w).2 end.
Fixpoint install_each (signals : list Z) (saved : list (Z * Disposition)) : Sys W (list (Z * Disposition)) :=
  match signals with
  | [] => mret saved
  | signum :: signals => fun w =>
      match sigaction signum on_signal_action w with
      | (inr old, w) => install_each signals (saved ++ [(signum, old)]) w
      | (inl e, w) => (inl e, restore_handlers saved w)
      end
  end.
Definition install_handlers : Sys W (list Disposition) := saved ← install_each HANDLED_SIGNALS []; mret (saved.*2).

(** [SignalGuard::install]: the guard, and the pipe's read end *)
Definition guard_install (s : Statics) (w : W) : io (SignalGuard Disposition * Z) * Statics * W :=
  match self_pipe w with
  | (inl e, w) => (inl e, s, w)
  | (inr (read, write), w) =>
      if negb (st_write_fd s =? -1) then (inl OtherError, s, w)
      else
        let s := with_flags false false (with_write_fd write s) in
        match install_handlers w with
        | (inl e, w) => (inl e, with_write_fd (-1) s, w)
        | (inr saved, w) => (inr ({| sg_write_fd := write; sg_saved := saved |}, read), s, w)
        end
  end.
(** Its [Drop] *)
Definition guard_drop (g : SignalGuard Disposition) (s : Statics) (w : W) : Statics * W :=
  (with_write_fd (-1) s, restore_handlers (zip HANDLED_SIGNALS (sg_saved g)) w).

(** ** The reader *)

Context {H' : Type}.

(** The statics, and the reactor with its world. *)
Record SigState : Type := { sg_statics : Statics; sg_reactor : RState H' W }.
Definition set_world (w : W) (x : SigState) : SigState :=
  {| sg_statics := sg_statics x; sg_reactor := {| rs_reactor := rs_reactor (sg_reactor x); rs_world := w |} |}.
Definition world_of (x : SigState) : W := rs_world (sg_reactor x).

(** [SignalPipe::on_readable], step by step: a read of the drain, and the swap of
    each flag with what it asks of the reactor. *)
Definition drain_read (fd : Z) (x : SigState) : bool * SigState :=
  let '(n, w) := pipe_read fd 16 (world_of x) in (0 <? n, set_world w x).
Definition swap_shutdown (x : SigState) : SigState :=
  {| sg_statics := with_flags false (st_dump (sg_statics x)) (sg_statics x);
     sg_reactor := if st_shutdown (sg_statics x) then request_shutdown (sg_reactor x) else sg_reactor x |}.
Definition swap_dump (x : SigState) : SigState :=
  {| sg_statics := with_flags (st_shutdown (sg_statics x)) false (sg_statics x);
     sg_reactor := if st_dump (sg_statics x) then request_dump (sg_reactor x) else sg_reactor x |}.
Fixpoint drain_pipe {E} (fuel : nat) (fd : Z) (x : SigState) : res E SigState :=
  match fuel with
  | O => Panic
  | S fuel => let '(more, x) := drain_read fd x in if more then drain_pipe fuel fd x else Ok x
  end.
Definition pipe_on_readable {E} (fuel : nat) (fd : Z) (x : SigState) : res E SigState :=
  x ← drain_pipe fuel fd x; Ok (swap_dump (swap_shutdown x)).
End signal.
Arguments SigState : clear implicits.

(** ** The interleaving *)

(** Where the reactor's handler is. *)
Inductive Phase : Type := Idle | Draining | SwapsShutdown | SwapsDump.
(** [sc_due]: signal handlers that have set their flag and not yet written. *)
Record SigConfig (H W : Type) : Type := { sc_phase : Phase; sc_due : nat; sc_state : SigState W H }.
Arguments sc_phase {H W} _.
Arguments sc_due {H W} _.
Arguments sc_state {H W} _.
Inductive Request : Type := AskShutdown | AskDump.
Global Instance Request_eq_dec : EqDecision Request.
Proof. solve_decision. Defined.
Definition asks (signum : Z) (dump_signal : Z) : Request := if signum =? dump_signal then AskDump else AskShutdown.

Section interleaving.
Context {W : Type} `{SignalCalls W} {H' : Type} (read_fd : Z).
Implicit Types x : SigState W H'.

(** A signal's handler entered: its flag set, its byte still to write. *)
Definition raised (signum : Z) (c : SigConfig H' W) : SigConfig H' W :=
  {| sc_phase := sc_phase c; sc_due := S (sc_due c);
     sc_state := {| sg_statics := raise_flag signum (sg_statics (sc_state c)); sg_reactor := sg_reactor (sc_state c) |} |}.

(** A step, and what it asks of the reactor: a signal at any moment, its byte
    later, others in between; and the handler's steps while no signal's handler
    is on the stack. *)
Inductive sig_step : SigConfig H' W -> list Request -> SigConfig H' W -> Prop :=
  | step_raise c signum : signum ∈ HANDLED_SIGNALS -> sig_step c [] (raised signum c)
  | step_wake phase due x :
      sig_step {| sc_phase := phase; sc_due := S due; sc_state := x |} []
        {| sc_phase := phase; sc_due := due; sc_state := set_world (wake_reader (sg_statics x) (world_of x)) x |}
  | step_call x :
      sig_step {| sc_phase := Idle; sc_due := 0; sc_state := x |} [] {| sc_phase := Draining; sc_due := 0; sc_state := x |}
  | step_read x x' more : drain_read read_fd x = (more, x') ->
      sig_step {| sc_phase := Draining; sc_due := 0; sc_state := x |} []
        {| sc_phase := if more then Draining else SwapsShutdown; sc_due := 0; sc_state := x' |}
  | step_swap_shutdown x :
      sig_step {| sc_phase := SwapsShutdown; sc_due := 0; sc_state := x |} (if st_shutdown (sg_statics x) then [AskShutdown] else [])
        {| sc_phase := SwapsDump; sc_due := 0; sc_state := swap_shutdown x |}
  | step_swap_dump x :
      sig_step {| sc_phase := SwapsDump; sc_due := 0; sc_state := x |} (if st_dump (sg_statics x) then [AskDump] else [])
        {| sc_phase := Idle; sc_due := 0; sc_state := swap_dump x |}.
Inductive sig_steps : SigConfig H' W -> list Request -> SigConfig H' W -> Prop :=
  | steps_none c : sig_steps c [] c
  | steps_more c l c' l' c'' : sig_step c l c' -> sig_steps c' l' c'' -> sig_steps c (l ++ l') c''.
End interleaving.

(** No signal is lost: however signals fall between the steps of the reader, each
    is acted on, or its flag still stands and the pipe still tells of it; and an
    installation that fails puts back every disposition it changed. *)

Section spec.
Context {W : Type} `{SignalCalls W} {H' : Type} (read_fd write_fd : Z).
Implicit Types (x : SigState W H') (c : SigConfig H' W).

(** pipe(7) and write(2), for the bytes [pending] in the pipe: after a write it
    holds some, full or not; a read takes some, and only an empty pipe gives
    none. *)
Record pipe_laws (pending : W -> nat) : Prop := {
  pi_write : forall w, (0 < pending (pipe_write write_fd w))%nat;
  pi_read : forall n w, (0 < n)%nat -> match pipe_read read_fd n w with
    | (k, w') => if 0 <? k then (pending w' < pending w)%nat else pending w = 0%nat /\ pending w' = 0%nat end;
  pi_errno : forall e w, pending (set_errno e w) = pending w;
}.
Context (pending : W -> nat) (Hpipe : pipe_laws pending) (Hfd : 0 <= write_fd).

(** The flag of a request. *)
Definition flagged (r : Request) x : bool := match r with AskShutdown => st_shutdown (sg_statics x) | AskDump => st_dump (sg_statics x) end.
(** The reader will see it: a byte waits, or is due, or the swap is still ahead. *)
Definition announced (r : Request) c : Prop :=
  (0 < pending (world_of (sc_state c)))%nat \/ (0 < sc_due c)%nat \/
  match sc_phase c, r with
  | (Draining | SwapsShutdown), _ => True
  | SwapsDump, AskDump => True
  | _, _ => False
  end.
Record watched c : Prop := {
  wt_fd : st_write_fd (sg_statics (sc_state c)) = write_fd;
  wt_flags : forall r, flagged r (sc_state c) = true -> announced r c;
}.

Lemma raise_flagged signum x r : flagged r {| sg_statics := raise_flag signum (sg_statics x); sg_reactor := sg_reactor x |} =
  bool_decide (r = asks signum DUMP_SIGNAL) || flagged r x.
Proof. unfold raise_flag, asks, DUMP_SIGNAL. destruct x as [s rs], r; cbn; by destruct (signum =? SIGUSR1). Qed.

Lemma step_keeps_watch c l c' : sig_step read_fd c l c' -> watched c -> watched c'.
Proof.
  intros Hs [Hw Hf]. destruct Hs as [c signum _|phase due x|x|x x' more Hr|x|x].
  - split; [cbn; unfold raise_flag; destruct (_ =? _); exact Hw|]. intros r _. right. left. cbn. lia.
  - split; cbn in *; [done|]. intros r _. left. cbn. unfold wake_reader. rewrite Hw, (proj2 (Z.leb_le _ _) Hfd), (pi_errno _ Hpipe).
    apply (pi_write _ Hpipe).
  - split; cbn in *; [done|]. intros r _. right. right. done.
  - unfold drain_read in Hr. destruct (pipe_read read_fd 16 (world_of x)) as [k w]. injection Hr as <- <-.
    split; cbn in *; [done|]. intros r _. right. right. cbn. by destruct (0 <? k).
  - split; cbn in *; [done|]. intros [|] Hflag; [done|]. right. right. done.
  - split; cbn in *; [done|]. intros [|] Hflag; [|done]. cbn in Hflag. destruct (Hf AskShutdown Hflag) as [Hp|[Hd|[]]]; [left|cbn in Hd; lia].
    unfold world_of, swap_dump in *. cbn in *. destruct (st_dump (sg_statics x)); exact Hp.
Qed.

(** A flag is cleared only by asking the reactor. *)
Lemma step_keeps_flag c l c' r : sig_step read_fd c l c' -> flagged r (sc_state c) = true -> r ∈ l \/ flagged r (sc_state c') = true.
Proof.
  intros Hs Hf. destruct Hs as [c signum _|phase due x|x|x x' more Hr|x|x]; cbn [sc_state] in *.
  - right. cbn [raised sc_state]. rewrite raise_flagged, Hf. apply orb_true_r.
  - by right.
  - by right.
  - right. unfold drain_read in Hr. destruct (pipe_read _ _ _) as [k w]. by injection Hr as _ <-.
  - destruct r; cbn in *; [rewrite Hf; left; by apply list_elem_of_singleton|by right].
  - destruct r; cbn in *; [by right|rewrite Hf; left; by apply list_elem_of_singleton].
Qed.

Lemma steps_keep c l c' r : sig_steps read_fd c l c' -> watched c -> flagged r (sc_state c) = true ->
  watched c' /\ (r ∈ l \/ flagged r (sc_state c') = true).
Proof.
  induction 1 as [c|c l c' l' c'' Hs Hss IH]; intros Hw Hf; [by split; [|right]|].
  pose proof (step_keeps_watch _ _ _ Hs Hw) as Hw'. destruct (step_keeps_flag _ _ _ r Hs Hf) as [Hin|Hf'].
  - split; [|left; apply elem_of_app; by left]. clear -Hss Hw' Hpipe Hfd. induction Hss; [done|]. eauto using step_keeps_watch.
  - destruct (IH Hw' Hf') as [? [?|?]]; (split; [done|]); [left; apply elem_of_app; by right|by right].
Qed.

(** The reader run by itself, the pipe drained. *)
Lemma drain_ends {E} fuel : forall x, (pending (world_of x) < fuel)%nat ->
  exists x', drain_pipe (E := E) fuel read_fd x = Ok x' /\ pending (world_of x') = 0%nat /\ sg_statics x' = sg_statics x /\
    rs_reactor (sg_reactor x') = rs_reactor (sg_reactor x).
Proof.
  induction fuel as [|fuel IH]; intros x Hf; [lia|]. cbn [drain_pipe]. unfold drain_read.
  pose proof (pi_read _ Hpipe 16 (world_of x) ltac:(lia)) as Hr. destruct (pipe_read read_fd 16 (world_of x)) as [k w].
  destruct (0 <? k).
  - destruct (IH (set_world w x)) as (x'&E1&E2&E3&E4); [cbn; lia|]. exists x'. by split_and!.
  - exists (set_world w x). split; [done|]. split; [apply Hr|by split].
Qed.

Definition asked (r : Request) x : bool :=
  match r with AskShutdown => rt_shutdown (rs_reactor (sg_reactor x)) | AskDump => rt_dump_pending (rs_reactor (sg_reactor x)) end.

Lemma reader_asks {E} fuel x r : (pending (world_of x) < fuel)%nat ->
  exists x', pipe_on_readable (E := E) fuel read_fd x = Ok x' /\ flagged r x' = false /\ asked r x' = flagged r x || asked r x.
Proof.
  intros Hf. destruct (drain_ends (E := E) fuel x Hf) as (x'&E1&_&E3&E4). unfold pipe_on_readable. rewrite E1. cbn [mbind res_bind].
  eexists. split; [done|]. unfold flagged, asked, swap_dump, swap_shutdown. cbn. rewrite E3.
  destruct r; cbn; destruct (st_shutdown (sg_statics x)), (st_dump (sg_statics x)); cbn; by rewrite ?E4.
Qed.

(** C38. No signal is lost. A signal handled at any moment, between any two steps
    of the reader or within another signal's handler, and whatever signals and
    steps follow: either the reactor has been asked for what it says, or its flag
    still stands and the reader will see it, since a byte waits in the pipe, is
    about to be written, or the reader has yet to swap the flag. And whenever the
    reader then runs, it ends, clears the flag and asks the reactor. *)
Theorem no_signal_lost c signum l c2 r fuel :
  watched c -> signum ∈ HANDLED_SIGNALS -> sig_steps read_fd (raised signum c) l c2 -> r = asks signum DUMP_SIGNAL ->
  r ∈ l \/ (flagged r (sc_state c2) = true /\ announced r c2 /\
    ((pending (world_of (sc_state c2)) < fuel)%nat ->
     exists x, pipe_on_readable (E := Infallible) fuel read_fd (sc_state c2) = Ok x /\ flagged r x = false /\ asked r x = true)).
Proof.
  intros Hw Hsig Hss Hr. pose proof (step_keeps_watch _ _ _ (step_raise read_fd c signum Hsig) Hw) as Hw1.
  assert (Hf1 : flagged r (sc_state (raised signum c)) = true) by (subst r; cbn [raised sc_state]; rewrite raise_flagged; by rewrite bool_decide_true).
  destruct (steps_keep _ _ _ r Hss Hw1 Hf1) as [Hw2 [Hin|Hf2]]; [by left|]. right. split; [done|]. split; [by apply (wt_flags _ Hw2)|].
  intros Hfuel. destruct (reader_asks (E := Infallible) fuel (sc_state c2) r Hfuel) as (x&E&Hx&Ha). exists x. by rewrite Ha, Hf2.
Qed.

(** The handler leaves the interrupted code's [errno]. *)
Lemma on_signal_errno signum s w : (forall e w, errno (set_errno e w) = e) -> errno (on_signal signum s w).2 = errno w.
Proof. intros Hl. unfold on_signal, wake_reader. cbn. by rewrite Hl. Qed.
End spec.

(** ** The guard *)

Section guard.
Context {W : Type} `{SignalCalls W}.

(** sigaction(2), for the disposition [action] of each signal: a call that
    succeeds gives the old one and sets the new, one that fails sets nothing, and
    a signal that could be set can be set again. *)
Record sigaction_laws (action : W -> Z -> Disposition) : Prop := {
  sa_call : forall signum d w, match sigaction signum d w with
    | (inr old, w') => old = action w signum /\ forall s, action w' s = if decide (s = signum) then d else action w s
    | (inl _, w') => forall s, action w' s = action w s end;
  sa_again : forall signum d w old d' w', (sigaction signum d w).1 = inr old -> exists old', (sigaction signum d' w').1 = inr old';
}.
Context (action : W -> Z -> Disposition) (Hlaws : sigaction_laws action).

(** [signum] can be set. *)
Definition settable (signum : Z) : Prop := exists d w old, (sigaction signum d w).1 = inr old.
Lemma sigaction_set signum d w : settable signum ->
  forall s, action (sigaction signum d w).2 s = if decide (s = signum) then d else action w s.
Proof.
  intros (d0&w0&old0&H0). destruct (sa_again _ Hlaws _ _ _ _ d w H0) as [old Ho]. pose proof (sa_call _ Hlaws signum d w) as Hc.
  destruct (sigaction signum d w) as [[e|o] w']; [done|]. apply Hc.
Qed.

(** Dispositions put back. *)
Lemma restore_sets (saved : list (Z * Disposition)) : forall w, NoDup saved.*1 -> Forall settable saved.*1 ->
  (forall s d, (s, d) ∈ saved -> action (restore_handlers saved w) s = d) /\
  (forall s, s ∉ saved.*1 -> action (restore_handlers saved w) s = action w s).
Proof.
  induction saved as [|[s0 d0] saved IH]; intros w Hnd Hset; [split; [by intros s d ?%elem_of_nil|done]|].
  cbn [fmap list_fmap fst] in *. apply NoDup_cons in Hnd as [Hs0 Hnd]. apply Forall_cons in Hset as [H0 Hset].
  cbn [restore_handlers]. destruct (IH (sigaction s0 d0 w).2 Hnd Hset) as [IH1 IH2]. pose proof (sigaction_set s0 d0 w H0) as Hsig. split.
  - intros s d [[= -> ->]|Hin]%elem_of_cons; [|by apply IH1]. rewrite IH2 by done. rewrite Hsig. by rewrite decide_True.
  - intros s Hs. rewrite elem_of_cons in Hs. rewrite IH2 by auto. rewrite Hsig. by rewrite decide_False by auto.
Qed.

(** An installation that fails leaves every disposition as it was. *)
Lemma install_each_restores (w0 : W) signals : forall saved w e w', NoDup (saved.*1 ++ signals) ->
  (forall s d, (s, d) ∈ saved -> d = action w0 s) -> Forall settable saved.*1 ->
  (forall s, s ∉ saved.*1 -> action w s = action w0 s) ->
  install_each signals saved w = (inl e, w') -> forall s, action w' s = action w0 s.
Proof.
  induction signals as [|signum signals IH]; intros saved w e w' Hnd Hsaved Hset Hout; cbn [install_each]; [done|].
  pose proof (sa_call _ Hlaws signum on_signal_action w) as Hc.
  destruct (sigaction signum on_signal_action w) as [[err|old] w1] eqn:E.
  - intros [= _ <-] s. 
    pose proof (restore_sets saved w1 (proj1 (proj1 (NoDup_app _ _) Hnd)) Hset) as [H1 H2].
    destruct (decide (s ∈ saved.*1)) as [Hin|Hin].
    + apply list_elem_of_fmap in Hin as ([s' d]&->&Hin). cbn. rewrite (H1 _ _ Hin). by apply Hsaved.
    + rewrite H2 by done. rewrite Hc. by apply Hout.
  - destruct Hc as [-> Hc]. apply NoDup_app in Hnd as (Hnd1&Hdis&Hnd2). apply NoDup_cons in Hnd2 as [Hnew Hnd2].
    assert (Hsig : signum ∉ saved.*1) by (intros Hin; apply (Hdis _ Hin); by left).
    apply IH.
    + rewrite fmap_app. cbn. rewrite <- app_assoc. cbn. apply NoDup_app. split_and!; [done|done|by apply NoDup_cons].
    + intros s d [Hin|[= -> ->]%list_elem_of_singleton]%elem_of_app; [by apply Hsaved|]. by apply Hout.
    + rewrite fmap_app. apply Forall_app. split; [done|]. constructor; [|done]. exists on_signal_action, w, (action w signum). exact (f_equal fst E).
    + intros s Hs. rewrite fmap_app, elem_of_app in Hs. rewrite Hc. rewrite decide_False; [apply Hout; auto|].
      intros ->. apply Hs. right. cbn. by left.
Qed.

Lemma install_restores w e w' : NoDup HANDLED_SIGNALS -> install_handlers w = (inl e, w') -> forall s, action w' s = action w s.
Proof.
  unfold install_handlers, mbind, Sys_bind. intros Hnd. destruct (install_each HANDLED_SIGNALS [] w) as [[err|saved] w1] eqn:E; [|done].
  intros [= _ <-]. eapply (install_each_restores w HANDLED_SIGNALS []); [exact Hnd|by intros s d ?%elem_of_nil|constructor|done|exact E].
Qed.
End guard.

(** ** Witness: a SIGTERM just after the reader looked for one *)

(** A pipe that holds two bytes, and the errno. *)
Definition small_pipe : SignalCalls (nat * Z) :=
  {| SIGINT := 2; SIGTERM := 15; SIGUSR1 := 10; Disposition := (); on_signal_action := ();
     sigaction := fun _ _ w => (inr (), w); sys_pipe2 := fun w => (inr (3, 4), w); sys_pipe := fun w => (inr (3, 4), w);
     pipe_write := fun _ w => (Nat.min 2 (S w.1), if (w.1 <? 2)%nat then w.2 else 11);
     pipe_read := fun _ n w => if (0 <? w.1)%nat then (Z.of_nat (Nat.min n w.1), ((w.1 - n)%nat, w.2)) else (-1, (0%nat, 11));
     errno := snd; set_errno := fun e w => (w.1, e) |}.
Lemma small_pipe_laws : pipe_laws (H := small_pipe) 3 4 fst.
Proof.
  split; cbn; [lia| |done]. intros n [k e] Hn. cbn. destruct k as [|k]; cbn; [done|].
  destruct (0 <? Z.of_nat (Nat.min n (S k))) eqn:E; cbn; lia.
Qed.
Definition looked : SigConfig () (nat * Z) :=
  {| sc_phase := SwapsDump; sc_due := 0; sc_state :=
       {| sg_statics := with_write_fd 4 statics_new; sg_reactor := {| rs_reactor := reactor_new (); rs_world := (0%nat, 0) |} |} |}.
Lemma no_signal_lost_witness :
  exists c x, sig_steps (H := small_pipe) 3 (raised (H := small_pipe) 15 looked) [] c /\ sc_phase c = Idle /\
    pipe_on_readable (H := small_pipe) (E := Infallible) 3 3 (sc_state c) = Ok x /\ asked AskShutdown x = true.
Proof.
  assert (Hs : sig_steps (H := small_pipe) 3 (raised (H := small_pipe) 15 looked) ([] ++ [] ++ [])
    {| sc_phase := Idle; sc_due := 0; sc_state := swap_dump (set_world (wake_reader (H := small_pipe) {| st_write_fd := 4; st_shutdown := true;
       st_dump := false |} (0%nat, 0)) (sc_state (raised (H := small_pipe) 15 looked))) |}).
  { eapply steps_more; [apply step_wake|]. eapply steps_more; [apply step_swap_dump|]. apply steps_none. }
  assert (Hw : watched 4 fst looked) by (split; [reflexivity|intros [|]; discriminate]).
  assert (Hin : 15 ∈ HANDLED_SIGNALS (H := small_pipe)) by (right; left).
  destruct (no_signal_lost (H := small_pipe) 3 4 fst small_pipe_laws ltac:(lia) looked 15 [] _ AskShutdown 3 Hw Hin Hs eq_refl)
    as [Hl|(_&_&Hrun)]; [by apply elem_of_nil in Hl|].
  destruct Hrun as (x&E&_&Hx); [vm_compute; lia|]. eexists. exists x. split; [exact Hs|]. split; [reflexivity|]. split; [exact E|exact Hx].
Defined.
